(* ===== verification/_CoqProject ===== *)
-Q . S2P
Prelude.v
Arithmetic.v
Vaddr.v
Bytes.v
Bitmap.v
Str.v
CStdlib.v
Random.v
Printf.v
Sched.v
SchedInv.v
SchedStep.v
SchedSafe.v
SchedMain.v
SchedLive.v
DList.v
DListSort.v
Hash.v
Palloc.v
Malloc.v
Filesys.v
FsInode.v
FsDir.v
FsMain.v
FsOps.v
FsMount.v
VmPage.v
Vm.v
VmPagedir.v
VmSpace.v
VmLife.v
VmSwap.v
Process.v
Syscall.v
ProcStack.v
ProcLoad.v
ProcUser.v
ProcExit.v
ProcFd.v
ProcFault.v
Paging.v
Gates.v
Segments.v
Asm.v
Intq.v
Console.v
Vga.v
Disk.v
Timer.v
