(* ===== verification/Prelude.v ===== *)
(** * Pintos (KAIST CS330): a verification development

    Pintos is a small operating system kernel for 32-bit x86 machines: threads with
    priorities and preemption, synchronisation, virtual memory with swapping, user
    processes and system calls, a file system, and drivers for the devices of a PC.  The
    sources are the C and assembly files under src/src.  This library translates them into
    Rocq functions and proves what the parts promise each other and their users.  Code that
    can trip an [ASSERT], panic, or touch memory that is not there has these outcomes as
    values (below), so that a theorem that a function answers [Ok] also says that none of
    them occurs.

    ** The parts and the files that model them

    - C library: Arithmetic (lib/arithmetic.c), Str (lib/string.c), CStdlib (lib/stdlib.c,
      ctype.h), Random (lib/random.c), Printf (lib/stdio.c).  Pointers are addresses into
      a byte memory in Str and CStdlib; formats are lists of bytes in Printf.
    - Containers: Bitmap (lib/kernel/bitmap.c), DList and DListSort (lib/kernel/list.c,
      at the level of the prev and next fields), Hash (lib/kernel/hash.c).  The interface
      classes [HashLaws] and [Compare] state what hash.h and stdlib.h ask of clients.
    - Threads: Sched has threads/thread.c, threads/synch.c and the interrupt handling of
      threads/interrupt.c as the steps of each thread between which interrupts and other
      threads come; SchedInv, SchedStep, SchedSafe and SchedMain prove the invariants for
      every execution, SchedLive the bound on waiting.
    - Memory: Vaddr (threads/vaddr.h, pte.h, lib/round.h), Palloc (threads/palloc.c),
      Malloc (threads/malloc.c, over the interface [PageAlloc] that Palloc implements),
      Paging (paging_init of threads/init.c).
    - Virtual memory: Vm (userprog/pagedir.c, vm/frame.c, vm/page.c, vm/swap.c), with
      VmPagedir, VmSpace and VmLife for page directories and the translation buffer,
      VmSwap for swapping, VmPage for the hash table under the supplemental page table.
    - Processes: Process (userprog/process.c and the page fault handler of
      userprog/exception.c), Syscall (userprog/syscall.c), with ProcLoad, ProcStack,
      ProcUser, ProcExit, ProcFd and ProcFault for their properties.
    - File system: Filesys (filesys/inode.c, file.c, free-map.c, directory.c, filesys.c),
      with FsInode, FsDir, FsMain, FsOps and FsMount for the properties.
    - Processor and start-up: Gates (userprog/gdt.c, the tables of threads/interrupt.c, the
      8259A controllers, and the registration of all handlers in the order of main in
      threads/init.c), Segments (userprog/tss.c, gdt_init), Asm (threads/switch.S,
      threads/intr-stubs.S, the stacks of thread_create, lib/user/syscall.c, run on a
      model of the instructions they use).
    - Devices: Intq (devices/intq.c), Console (devices/serial.c, kbd.c, input.c), Vga
      (devices/vga.c), Disk (devices/disk.c), Timer (devices/timer.c).  Each has a model of
      the registers of its hardware, and the hardware's timing is an argument.
    - This file and Bytes hold what the others share.

    The components meet as in the code.  Filesys and Vm use a disk as an array of sectors,
    which is what Disk proves of the driver; Vm gets its frames from Palloc and its files
    from Filesys; Process and Syscall run on Vm and Filesys; Console runs on Intq; the
    lists of Sched and Hash are the sequences that DList proves the linked structure to
    be, and Malloc takes its pages from anything that satisfies the class Palloc proves.

    ** What the theorems show

    The theorems marked with the letter C and a number are the main results; the lemmas
    around them carry their proofs.

    - Scheduling: in every state that threads and interrupts can reach the queues agree
      with the states of the threads, a lock has one holder, a semaphore with units and
      waiters has a woken waiter, no assertion fails, and a ready thread waits for at
      most as many switches as there are threads before it.
    - File system: creating, opening and removing files are operations on a map from names
      to contents and keep the free map, the inodes and the directory consistent;
      formatting makes such a file system, and booting from its disk gives it back.
    - Processes: loading puts the segments and the arguments where the program expects
      them; faults grow the stack or end the process; exit and wait hand the status over
      once; bad pointers end the process; descriptors are a finite map.
    - Memory: page directories are maps from pages to entries, apart from each other and
      coherent with the translation buffer; a page survives swapping; the allocators hand
      out disjoint blocks; the kernel's own mapping is as laid out.
    - Processor: a context switch and an interrupt, run instruction by instruction, come
      back with all registers; gates and segments have the right targets and privileges.
    - Devices: the drivers refine a queue, a keyboard and line, a screen of text, and
      arrays of sectors; the timer calibrates and sleeps within stated bounds.
    - Library: lists and hash tables refine sequences and sets; 64-bit division is exact.

    Some theorems show where the code falls short: the frame of a stack fault, two readers
    of a queue, a stack page that is mapped read-only.

    ** Fuel and bounds

    Loops that are not structural run on fuel ([iter] below).  In the translations it is
    the bound the code itself has, such as the 3000 polls of a disk, or a number that the
    data gives: mapped bytes for string loops, elements for lists and buckets, the length
    of a format and the longest built-in message for Printf.  The theorems about these
    functions prove that the result is [Ok], so the fuel is enough.  Where no such number
    exists (timer_sleep), the fuel is an argument and the theorem says how much is needed.
    Integers are kept at the width of their C type; hypotheses that bound them state the
    range in which the machine can use them, such as disks below 2^28 sectors.

    ** Not modelled

    The boot loader and start.S (16-bit code and firmware calls); lib/kernel/console.c and
    the printing of panics and statistics beyond what the drivers print; the command line,
    the actions and fsutil.c; priority donation and the multi-level feedback queue, which
    the sources do not implement; user programs, tests and host tools.  Threads that use
    the file system at the same time are not interleaved there: the global lock of
    userprog/syscall.c keeps them apart.  Interrupts in the middle of the drivers come at
    the points where the code lets time pass.  The contents of a disk outlive the machine,
    but a crash in the middle of an operation is not considered. *)

From Stdlib Require Export ZArith Lia Bool.
From stdpp Require Export prelude gmap.

#[global] Open Scope Z_scope.

(** ** Results and the state-and-error monad

    A C function that can trip an [ASSERT], reach [PANIC]/[NOT_REACHED] or
    dereference an address that holds no object does not return a value: it
    returns [Err].  [Deadlock] is the answer of a thread that waits for a semaphore
    nobody else holds.  [OutOfFuel] is the answer of a loop whose fuel ran out; every
    theorem about a fuelled loop shows that this answer does not occur. *)

Inductive err :=
  | AssertFail
  | Panic
  | Fault
  | Deadlock
  | OutOfFuel.

Inductive res (A : Type) : Type :=
  | Ok (a : A)
  | Err (e : err).
Arguments Ok {A} _.
Arguments Err {A} _.

#[global] Instance err_eq_dec : EqDecision err.
Proof. solve_decision. Defined.

Declare Scope c_scope.
Delimit Scope c_scope with C.

(** A computation over a state [S]: it either returns a value with a new state
    or stops with an error. *)
Definition M (S A : Type) : Type := S → res (A * S).

Definition ret {S A} (a : A) : M S A := λ s, Ok (a, s).

Definition bind {S A B} (c : M S A) (k : A → M S B) : M S B :=
  λ s, match c s with
       | Ok (a, s') => k a s'
       | Err e => Err e
       end.

Definition fail {S A} (e : err) : M S A := λ _, Err e.
Definition get {S} : M S S := λ s, Ok (s, s).
Definition put {S} (s : S) : M S unit := λ _, Ok (tt, s).

(** [ASSERT (b)]. *)
Definition assert {S} (b : bool) : M S unit :=
  if b then ret tt else fail AssertFail.

Notation "x <- c ;; k" := (bind c (λ x, k))
  (at level 100, c at next level, right associativity) : c_scope.
Notation "c ;; k" := (bind c (λ _, k))
  (at level 100, right associativity) : c_scope.

(** Binding a result that carries no state. *)
Definition rbind {A B} (r : res A) (k : A → res B) : res B :=
  match r with Ok a => k a | Err e => Err e end.
Notation "'let*' x := r 'in' k" := (rbind r (λ x, k))
  (at level 100, x pattern, r at next level, right associativity) : c_scope.

Definition rassert (b : bool) : res unit := if b then Ok tt else Err AssertFail.

(** ** Machine integers

    Pintos runs on 32-bit x86: [unsigned], [size_t], [uintptr_t] and pointers
    are 32 bits wide, [int] and [off_t] are 32-bit two's complement, [uint64_t]
    is 64 bits wide.  An integer is a [Z] and the wrap-around is written out. *)

Definition W8 : Z := 256.
Definition W16 : Z := 65536.
Definition W32 : Z := 4294967296.
Definition W64 : Z := 18446744073709551616.

Definition u8 (x : Z) : Z := x `mod` W8.
Definition u16 (x : Z) : Z := x `mod` W16.
Definition u32 (x : Z) : Z := x `mod` W32.
Definition u64 (x : Z) : Z := x `mod` W64.

(** Conversion of a bit pattern to a signed integer of the same width. *)
Definition s32 (x : Z) : Z :=
  let y := u32 x in if y <? 2147483648 then y else y - W32.
Definition s64 (x : Z) : Z :=
  let y := u64 x in if y <? 9223372036854775808 then y else y - W64.

Definition is_u8 (x : Z) : Prop := 0 ≤ x < W8.
Definition is_u32 (x : Z) : Prop := 0 ≤ x < W32.
Definition is_u64 (x : Z) : Prop := 0 ≤ x < W64.
Definition is_s32 (x : Z) : Prop := -2147483648 ≤ x < 2147483648.
Definition is_s64 (x : Z) : Prop := -9223372036854775808 ≤ x < 9223372036854775808.

Definition UINT_MAX : Z := 4294967295.
Definition SIZE_MAX : Z := 4294967295.
Definition NULL : Z := 0.

Lemma u32_small x : is_u32 x → u32 x = x.
Proof. apply Z.mod_small. Qed.

Lemma u64_small x : is_u64 x → u64 x = x.
Proof. apply Z.mod_small. Qed.

Lemma u8_small x : is_u8 x → u8 x = x.
Proof. apply Z.mod_small. Qed.

Lemma u32_range x : is_u32 (u32 x).
Proof. apply Z.mod_pos_bound. done. Qed.

Lemma u64_range x : is_u64 (u64 x).
Proof. apply Z.mod_pos_bound. done. Qed.

Lemma u8_range x : is_u8 (u8 x).
Proof. apply Z.mod_pos_bound. done. Qed.

Lemma s32_small x : is_s32 x → s32 x = x.
Proof.
  unfold is_s32, s32, u32, W32. intros H.
  destruct (decide (0 ≤ x)).
  - rewrite Z.mod_small by lia. case_match; lia.
  - rewrite <- (Z.mod_add x 1), Z.mod_small by lia. case_match; lia.
Qed.

Lemma s64_small x : is_s64 x → s64 x = x.
Proof.
  unfold is_s64, s64, u64, W64. intros H.
  destruct (decide (0 ≤ x)).
  - rewrite Z.mod_small by lia. case_match; lia.
  - rewrite <- (Z.mod_add x 1), Z.mod_small by lia. case_match; lia.
Qed.

(** [mc_unfold] exposes the numeric bounds of the machine types to [lia]. *)
Ltac mc_unfold :=
  unfold is_u8, is_u32, is_u64, is_s32, is_s64, W8, W16, W32, W64,
    UINT_MAX, SIZE_MAX, NULL in *.
Ltac mlia := mc_unfold; lia.

(** [dm_lia] proves linear goals about quotients and remainders by constants. *)
Ltac dm_lia := mc_unfold; Z.div_mod_to_equations; lia.

Notation zlen xs := (Z.of_nat (length xs)).

Create HintDb pintos discriminated.
#[export] Hint Resolve u8_range u32_range u64_range : pintos.
#[export] Hint Rewrite u8_small u32_small u64_small s32_small s64_small
  using (solve [mlia]) : pintos.

(** Case analysis on the boolean comparison tests the C code branches on. *)
Ltac zcase :=
  match goal with
  | |- context [?a <? ?b] => destruct (Z.ltb_spec a b)
  | |- context [?a <=? ?b] => destruct (Z.leb_spec a b)
  | |- context [?a =? ?b] => destruct (Z.eqb_spec a b)
  end.
Ltac zcase_in H :=
  match type of H with
  | context [?a <? ?b] => destruct (Z.ltb_spec a b)
  | context [?a <=? ?b] => destruct (Z.leb_spec a b)
  | context [?a =? ?b] => destruct (Z.eqb_spec a b)
  end.

(** Runs one step of a monadic computation in a hypothesis or the goal. *)
Lemma bind_Ok {S A B} (c : M S A) (k : A → M S B) s a s' :
  c s = Ok (a, s') → bind c k s = k a s'.
Proof. unfold bind. by intros ->. Qed.

Lemma bind_inv {S A B} (c : M S A) (k : A → M S B) s b s' :
  bind c k s = Ok (b, s') → ∃ a s1, c s = Ok (a, s1) ∧ k a s1 = Ok (b, s').
Proof. unfold bind. destruct (c s) as [[a s1]|]; [|done]. eauto. Qed.

Lemma assert_true {S} (b : bool) (s : S) : b = true → assert b s = Ok (tt, s).
Proof. by intros ->. Qed.

(** Closes a decidable goal on concrete data by evaluation. *)
Ltac by_decide := refine (bool_decide_unpack _ _); vm_compute; exact I.

Lemma bind_assert {S A} (b : bool) (k : M S A) (s : S) :
  b = true → bind (assert b) (λ _, k) s = k s.
Proof. by intros ->. Qed.

Lemma rbind_inv {A B} (r : res A) (k : A → res B) b :
  rbind r k = Ok b → ∃ a, r = Ok a ∧ k a = Ok b.
Proof. destruct r; [|done]. simpl. eauto. Qed.

(** ** Loops

    [iter fuel body a] runs [body] from [a]: [inl a'] goes round again with [a'],
    [inr b] leaves the loop with [b]. *)
Fixpoint iter {S A B} (fuel : nat) (body : A → M S (A + B)) (a : A) : M S B :=
  match fuel with
  | O => fail OutOfFuel
  | S fuel' =>
      bind (body a) (λ r, match r with
                          | inl a' => iter fuel' body a'
                          | inr b => ret b
                          end)
  end.

Lemma iter_step {S A B} n (body : A → M S (A + B)) a s r s' :
  body a s = Ok (r, s') →
  iter (Datatypes.S n) body a s =
  match r with inl a' => iter n body a' s' | inr b => Ok (b, s') end.
Proof. intros H. simpl. rewrite (bind_Ok _ _ _ _ _ H). by destruct r. Qed.

Lemma iter_continue {S A B} n (body : A → M S (A + B)) a a' s s' :
  body a s = Ok (inl a', s') → iter (Datatypes.S n) body a s = iter n body a' s'.
Proof. intros H. cbn [iter]. by rewrite (bind_Ok _ _ _ _ _ H). Qed.

Lemma iter_break {S A B} n (body : A → M S (A + B)) a b s s' :
  body a s = Ok (inr b, s') → iter (Datatypes.S n) body a s = Ok (b, s').
Proof. intros H. cbn [iter]. by rewrite (bind_Ok _ _ _ _ _ H). Qed.

(** [for (i = 0; i < n; i++) body (i);] *)
Definition for_upto {S} (n : Z) (body : Z → M S unit) : M S unit :=
  iter (Datatypes.S (Z.to_nat n))
    (λ i, if i <? n then bind (body i) (λ _, ret (inl (i + 1))) else ret (inr tt)) 0.

(** The loop ends, and keeps what every round keeps. *)
Lemma for_upto_ind {S} (I : Z → S → Prop) n (body : Z → M S unit) s :
  0 ≤ n → I 0 s →
  (∀ i s, 0 ≤ i < n → I i s → ∃ s', body i s = Ok (tt, s') ∧ I (i + 1) s') →
  ∃ s', for_upto n body s = Ok (tt, s') ∧ I n s'.
Proof.
  intros Hn H0 Hstep. unfold for_upto.
  assert (∀ k i s, 0 ≤ i ≤ n → (Z.to_nat (n - i) < k)%nat → I i s →
    ∃ s', iter k (λ i, if i <? n then bind (body i) (λ _, ret (inl (i + 1))) else ret (inr tt)) i s =
      Ok (tt, s') ∧ I n s') as Hloop; [|apply Hloop; [lia..|done]].
  induction k as [|k IH]; intros i s1 Hi Hk HI; [lia|]. destruct (Z.ltb_spec i n).
  - destruct (Hstep i s1 ltac:(lia) HI) as (s2 & Hb & HI').
    rewrite (iter_continue _ _ _ (i + 1) _ s2).
    + apply IH; [lia..|done].
    + rewrite (proj2 (Z.ltb_lt _ _) H). by rewrite (bind_Ok _ _ _ _ _ Hb).
  - rewrite (iter_break _ _ _ tt _ s1) by (by rewrite (proj2 (Z.ltb_ge _ _) H)).
    exists s1. split; [done|]. by replace n with i by lia.
Qed.

(** ** Lists *)

Lemma list_filter_all {A} (Q : A → Prop) `{∀ x, Decision (Q x)} (l : list A) :
  (∀ x, x ∈ l → Q x) → filter Q l = l.
Proof.
  induction l as [|x l IH]; [done|]. intros H1. rewrite filter_cons_True by (apply H1; left).
  f_equal. apply IH. intros y Hy. apply H1. by right.
Qed.

Lemma list_filter_none {A} (Q : A → Prop) `{∀ x, Decision (Q x)} (l : list A) :
  (∀ x, x ∈ l → ¬ Q x) → filter Q l = [].
Proof.
  induction l as [|x l IH]; [done|]. intros H1. rewrite filter_cons_False by (apply H1; left).
  apply IH. intros y Hy. apply H1. by right.
Qed.

Lemma list_filter_ext {A} (Q R : A → Prop) `{∀ x, Decision (Q x)} `{∀ x, Decision (R x)} (l : list A) :
  (∀ x, x ∈ l → Q x ↔ R x) → filter Q l = filter R l.
Proof.
  induction l as [|x l IH]; [done|]. intros H1. rewrite !filter_cons, IH by (intros; apply H1; by right).
  pose proof (H1 x ltac:(left)). repeat case_decide; done || tauto.
Qed.
