(* ===== verification/Arithmetic.v ===== *)
(** * 64-bit division routines (lib/arithmetic.c)

    Pintos ships its own [__udivdi3], [__divdi3], [__umoddi3] and [__moddi3].
    The file models them at their width, with the [divl] instruction's trap as an
    error, and proves that the quotients are the mathematical ones and never trap.
    The remainders are computed in 64 bits and returned through 32-bit types. *)

From S2P Require Import Prelude.
Local Open Scope c_scope.

(** x86 [DIV r/m32]: divides EDX:EAX by the operand; #DE when the quotient does
    not fit in 32 bits or the divisor is zero. *)
Definition divl (n d : Z) : res Z :=
  let n1 := u32 (Z.shiftr n 32) in
  let n0 := u32 n in
  if d =? 0 then Err Fault
  else let q := (n1 * W32 + n0) `div` d in
       if q <? W32 then Ok q else Err Fault.

Definition nlz (x : Z) : Z :=
  let n := 0 in
  let '(n, x) := if x <=? 0x0000FFFF then (n + 16, u32 (Z.shiftl x 16)) else (n, x) in
  let '(n, x) := if x <=? 0x00FFFFFF then (n + 8, u32 (Z.shiftl x 8)) else (n, x) in
  let '(n, x) := if x <=? 0x0FFFFFFF then (n + 4, u32 (Z.shiftl x 4)) else (n, x) in
  let '(n, x) := if x <=? 0x3FFFFFFF then (n + 2, u32 (Z.shiftl x 2)) else (n, x) in
  if x <=? 0x7FFFFFFF then n + 1 else n.

Definition udiv64 (n d : Z) : res Z :=
  if Z.shiftr d 32 =? 0 then
    let b := u64 (Z.shiftl 1 32) in
    let n1 := u32 (Z.shiftr n 32) in
    let n0 := u32 n in
    let d0 := u32 d in
    if d0 =? 0 then Err Fault
    else
      let* q0 := divl (u64 (u64 (b * (n1 `mod` d0)) + n0)) d0 in
      Ok (u64 (q0 + u64 (b * (n1 `div` d0))))
  else if n <? d then Ok 0
  else
    let d1 := u32 (Z.shiftr d 32) in
    let s := nlz d1 in
    let* q0 := divl (Z.shiftr n 1) (u32 (Z.shiftr (u64 (Z.shiftl d s)) 32)) in
    let q := Z.shiftr q0 (31 - s) in
    if u64 (n - u64 (u64 (q - 1) * d)) <? d then Ok (u64 (q - 1)) else Ok q.

(** Declared [static uint32_t umod64]: the difference is truncated on return. *)
Definition umod64 (n d : Z) : res Z :=
  let* q := udiv64 n d in
  Ok (u32 (u64 (n - u64 (d * q)))).

Definition sdiv64 (n d : Z) : res Z :=
  let n_abs := if 0 <=? n then u64 n else u64 (- u64 n) in
  let d_abs := if 0 <=? d then u64 d else u64 (- u64 d) in
  let* q_abs := udiv64 n_abs d_abs in
  Ok (if Bool.eqb (n <? 0) (d <? 0) then s64 q_abs else s64 (- s64 q_abs)).

(** Declared [static int32_t smod64]. *)
Definition smod64 (n d : Z) : res Z :=
  let* q := sdiv64 n d in
  Ok (s32 (s64 (n - s64 (d * q)))).

Definition divdi3 (n d : Z) : res Z := sdiv64 n d.
Definition moddi3 (n d : Z) : res Z := smod64 n d.
Definition udivdi3 (n d : Z) : res Z := udiv64 n d.
Definition umoddi3 (n d : Z) : res Z := umod64 n d.

(** ** Leading zeros *)

(** One of the four halving stages of [nlz]: the value keeps its position on the
    scale [x * 2 ^ n] and ends at or above the stage's threshold [T]. *)
Lemma nlz_stage k T m x n y :
  0 < k → T * 2 ^ k = W32 → 0 ≤ n → y = x * 2 ^ n → m = T - 1 →
  T ≤ y * 2 ^ k → y < W32 →
  ∃ n' y', (if y <=? m then (n + k, u32 (Z.shiftl y k)) else (n, y)) = (n', y') ∧
    n ≤ n' ≤ n + k ∧ y' = x * 2 ^ n' ∧ T ≤ y' < W32.
Proof.
  intros Hk HT Hn Hy -> HL HU.
  destruct (Z.leb_spec y (T - 1)); eexists _, _; (split; [reflexivity|]); [|lia].
  pose proof (Z.pow_pos_nonneg 2 k ltac:(lia) ltac:(lia)).
  rewrite Z.shiftl_mul_pow2 by lia.
  rewrite u32_small by (mc_unfold; nia).
  rewrite Z.pow_add_r by lia. split_and!; [lia..| |lia|nia].
  rewrite Hy. ring.
Qed.

Lemma nlz_spec x :
  0 < x < W32 → 0 ≤ nlz x ≤ 31 ∧ 2147483648 ≤ x * 2 ^ nlz x < W32.
Proof.
  intros H. unfold nlz.
  destruct (nlz_stage 16 65536 0xFFFF x 0 x) as (n1 & x1 & -> & ? & ? & ?);
    [lia|done|lia|lia|done|lia|lia|].
  destruct (nlz_stage 8 16777216 0xFFFFFF x n1 x1) as (n2 & x2 & -> & ? & ? & ?);
    [lia|done|lia|lia|done|lia|lia|].
  destruct (nlz_stage 4 268435456 0xFFFFFFF x n2 x2) as (n3 & x3 & -> & ? & ? & ?);
    [lia|done|lia|lia|done|lia|lia|].
  destruct (nlz_stage 2 1073741824 0x3FFFFFFF x n3 x3) as (n4 & x4 & -> & ? & ? & ?);
    [lia|done|lia|lia|done|lia|lia|].
  destruct (Z.leb_spec x4 0x7FFFFFFF).
  - rewrite Z.pow_add_r by lia. mlia.
  - mlia.
Qed.

(** ** Unsigned division *)

Lemma divl_ok n d :
  is_u64 n → 0 < d → n `div` d < W32 → divl n d = Ok (n `div` d).
Proof.
  intros Hn Hd Hq. unfold divl.
  rewrite Z.shiftr_div_pow2 by lia. change (2 ^ 32) with W32.
  rewrite (u32_small (n `div` W32)) by dm_lia.
  replace (n `div` W32 * W32 + u32 n) with n by (unfold u32; dm_lia).
  destruct (Z.eqb_spec d 0); [lia|]. destruct (Z.ltb_spec (n `div` d) W32); [done|lia].
Qed.

(** The identity in the comment at lib/arithmetic.c:82-105. *)
Lemma div_by_parts n d :
  0 ≤ n → 0 < d →
  (W32 * ((n `div` W32) `mod` d) + n `mod` W32) `div` d + W32 * ((n `div` W32) `div` d)
  = n `div` d.
Proof.
  intros Hn Hd.
  rewrite <- Z.div_add by lia. f_equal.
  pose proof (Z.div_mod (n `div` W32) d ltac:(lia)).
  pose proof (Z.div_mod n W32 ltac:(done)). nia.
Qed.

(** Dividing by the 32 leading bits of the divisor overestimates the quotient by at
    most one.  [P = 2 ^ s] normalises the divisor [d] and [R = 2 ^ (32 - s)]. *)
Lemma quotient_estimate n d P R :
  0 ≤ n < W64 → W32 ≤ d → d ≤ n → 1 ≤ P → 2 ≤ R → P * R = W32 →
  2147483648 * W32 ≤ d * P < W64 → (P ≤ 1073741824 ∨ R = 2) →
  let D := ((d * P) `div` W32) * R in
  n `div` d ≤ n `div` D ≤ n `div` d + 1.
Proof.
  intros Hn Hd Hnd HP HR HPR HdP Hcase D.
  set (v := (d * P) `div` W32) in *.
  assert (Hv : v * W32 ≤ d * P < (v + 1) * W32) by (unfold v; dm_lia).
  assert (Hv' : 2147483648 ≤ v < W32) by (mc_unfold; lia).
  assert (HDP : D * P = v * W32) by (unfold D; rewrite <- HPR; ring).
  assert (HRP : R * P = W32) by lia.
  assert (HD1 : D ≤ d) by (apply (Z.mul_le_mono_pos_r _ _ P); lia).
  assert (HD2 : d < D + R) by (apply (Z.mul_lt_mono_pos_r P); lia).
  assert (HD0 : 2147483648 * R ≤ D) by (apply Z.mul_le_mono_nonneg_r; lia).
  set (Q := n `div` d).
  pose proof (Z.div_mod n d ltac:(mlia)) as Hdm. fold Q in Hdm.
  pose proof (Z.mod_pos_bound n d ltac:(mlia)) as Hmb.
  assert (HQ1 : 1 ≤ Q) by (apply Z.div_le_lower_bound; mlia).
  split; [unfold Q; apply Z.div_le_compat_l; lia|].
  assert (Hkey : (Q + 1) * (d - D) ≤ D).
  { destruct Hcase as [HP'| ->].
    - assert (HQ : Q < 2 * P).
      { apply (Z.mul_lt_mono_pos_r (2147483648 * W32)); [done|].
        apply Z.le_lt_trans with (Q * (d * P)).
        { apply Z.mul_le_mono_nonneg_l; lia. }
        replace (Q * (d * P)) with ((d * Q) * P) by ring.
        apply Z.le_lt_trans with (n * P); [apply Z.mul_le_mono_nonneg_r; lia|].
        apply Z.lt_le_trans with (W64 * P); [apply Z.mul_lt_mono_pos_r; lia|mlia]. }
      assert (HRb : 4 ≤ R).
      { apply Z.nlt_ge. intros HR4. assert (R * P ≤ 3 * P); [|mlia].
        apply Z.mul_le_mono_nonneg_r; lia. }
      apply Z.le_trans with ((2 * P) * R); [apply Z.mul_le_mono_nonneg; lia|mlia].
    - assert (P = 2147483648) by mlia. subst P.
      assert (Q < W32).
      { apply Z.div_lt_upper_bound; [mlia|].
        apply Z.lt_le_trans with (W32 * W32); [mlia|].
        apply Z.mul_le_mono_nonneg_r; mlia. }
      apply Z.le_trans with ((Q + 1) * 1); [apply Z.mul_le_mono_nonneg_l; lia|mlia]. }
  apply Z.lt_succ_r. apply Z.div_lt_upper_bound; [lia|].
  replace (D * Z.succ (Q + 1)) with (D * (Q + 1) + D) by ring.
  replace n with (d * Q + n `mod` d) by lia.
  replace ((Q + 1) * (d - D)) with (d * Q + d - D * (Q + 1)) in Hkey by ring. lia.
Qed.

Lemma udiv64_small n d :
  is_u64 n → 0 < d < W32 → udiv64 n d = Ok (n `div` d).
Proof.
  intros Hn Hd. unfold udiv64.
  rewrite !Z.shiftr_div_pow2 by lia. change (2 ^ 32) with W32.
  rewrite (Z.div_small d) by lia. cbn [Z.eqb].
  change (u64 (Z.shiftl 1 32)) with W32.
  rewrite (u32_small d) by (unfold is_u32; lia).
  rewrite (u32_small (n `div` W32)) by dm_lia.
  destruct (Z.eqb_spec d 0); [lia|].
  pose proof (Z.mod_pos_bound (n `div` W32) d ltac:(lia)) as Hm.
  pose proof (Z.mod_pos_bound n W32 ltac:(done)) as Hm0.
  pose proof (div_by_parts n d ltac:(mlia) ltac:(lia)) as Hparts.
  assert (Hlo : 0 ≤ W32 * ((n `div` W32) `mod` d) + n `mod` W32 < W32 * d) by nia.
  assert (Hup : W32 * d ≤ W64 - W32) by mlia.
  assert (Hq : 0 ≤ n `div` d ≤ n).
  { split; [apply Z.div_pos; mlia|]. apply Z.div_le_upper_bound; [lia|]. mc_unfold; nia. }
  pose proof (Z.div_pos _ d (proj1 Hlo) ltac:(lia)) as Hq0.
  assert (Hq1 : 0 ≤ W32 * ((n `div` W32) `div` d)).
  { apply Z.mul_nonneg_nonneg; [done|]. repeat apply Z.div_pos; mlia. }
  fold (u32 n) in *.
  rewrite (u64_small (W32 * ((n `div` W32) `mod` d))) by mlia.
  rewrite (u64_small (_ + u32 n)) by (unfold is_u64; lia).
  rewrite divl_ok; [|unfold is_u64; lia|lia|apply Z.div_lt_upper_bound; lia].
  cbn [rbind]. rewrite (u64_small (W32 * _)) by (unfold is_u64 in *; lia).
  rewrite Hparts, u64_small; [done|]. unfold is_u64 in *; lia.
Qed.

(** The shift that [nlz] finds for a divisor of more than 32 bits brings its
    leading one to bit 63. *)
Lemma normalise_divisor d (s := nlz (d `div` W32)) (P := 2 ^ s) (R := 2 ^ (32 - s)) :
  W32 ≤ d < W64 →
  0 ≤ s ≤ 31 ∧ 1 ≤ P ∧ R = 2 * 2 ^ (31 - s) ∧ 1 ≤ 2 ^ (31 - s) ∧ P * R = W32 ∧
  (P ≤ 1073741824 ∨ R = 2) ∧ 2147483648 * W32 ≤ d * P < W64.
Proof.
  intros Hd.
  destruct (nlz_spec (d `div` W32)) as [Hs Hn]; [dm_lia|]. fold s P in Hs, Hn.
  assert (HPR : P * R = W32).
  { unfold P, R. rewrite <- Z.pow_add_r by lia. replace (s + (32 - s)) with 32 by lia. done. }
  assert (HP : 1 ≤ P) by (apply (Z.pow_le_mono_r 2 0); lia).
  assert (HR : R = 2 * 2 ^ (31 - s)).
  { unfold R. rewrite <- Z.pow_succ_r by lia. f_equal. lia. }
  assert (HR1 : 1 ≤ 2 ^ (31 - s)) by (apply (Z.pow_le_mono_r 2 0); lia).
  assert (Hdd : d `div` W32 * W32 ≤ d < (d `div` W32 + 1) * W32) by dm_lia.
  split_and!; try lia.
  - destruct (decide (s = 31)) as [E|]; [right; rewrite HR, E; done|left].
    apply (Z.pow_le_mono_r 2 s 30); lia.
  - apply Z.le_trans with ((d `div` W32 * P) * W32).
    { apply Z.mul_le_mono_nonneg_r; [done|lia]. }
    replace (d `div` W32 * P * W32) with (d `div` W32 * W32 * P) by ring.
    apply Z.mul_le_mono_nonneg_r; lia.
  - assert (Hlt : d `div` W32 < R) by (apply (Z.mul_lt_mono_pos_r P); lia).
    apply Z.lt_le_trans with (R * W32 * P).
    { apply Z.mul_lt_mono_pos_r; [lia|]. apply Z.lt_le_trans with (1 := proj2 Hdd).
      apply Z.mul_le_mono_nonneg_r; [done|lia]. }
    replace (R * W32 * P) with ((P * R) * W32) by ring. rewrite HPR. done.
Qed.

Lemma udiv64_big n d :
  is_u64 n → W32 ≤ d < W64 → udiv64 n d = Ok (n `div` d).
Proof.
  intros Hn Hd. unfold udiv64.
  rewrite (Z.shiftr_div_pow2 d) by lia. change (2 ^ 32) with W32.
  destruct (Z.eqb_spec (d `div` W32) 0); [dm_lia|].
  destruct (Z.ltb_spec n d) as [Hlt|Hge].
  { rewrite Z.div_small by mlia. done. }
  rewrite (u32_small (d `div` W32)) by dm_lia.
  destruct (normalise_divisor d Hd) as (Hs & HP & HR & HR1 & HPR & Hcase & HdP).
  set (s := nlz (d `div` W32)) in *. set (P := 2 ^ s) in *.
  set (R := 2 ^ (32 - s)) in *.
  pose proof (quotient_estimate n d P R Hn (proj1 Hd) Hge HP ltac:(lia) HPR HdP Hcase) as Hest.
  cbn zeta in Hest. set (v := (d * P) `div` W32) in *.
  assert (Hv : 2147483648 ≤ v < W32) by (unfold v; dm_lia).
  rewrite (Z.shiftl_mul_pow2 d), (Z.shiftr_div_pow2 _ 32) by lia.
  change (2 ^ 32) with W32. fold P.
  rewrite (u64_small (d * P)) by (unfold is_u64; lia). fold v.
  rewrite (u32_small v) by (unfold is_u32; lia).
  rewrite (Z.shiftr_div_pow2 n 1) by lia. change (2 ^ 1) with 2.
  rewrite divl_ok; [|dm_lia|lia|apply Z.div_lt_upper_bound; [lia|]; dm_lia].
  cbn [rbind]. rewrite Z.shiftr_div_pow2 by lia. rewrite Z.div_div, Z.div_div by lia.
  replace (2 * (v * 2 ^ (31 - s))) with (v * R) by (rewrite HR; ring).
  set (q := n `div` (v * R)) in *.
  pose proof (Z.div_mod n d ltac:(mlia)) as Hdm.
  pose proof (Z.mod_pos_bound n d ltac:(mlia)) as Hmb.
  assert (HQ1 : 1 ≤ n `div` d) by (apply Z.div_le_lower_bound; mlia).
  set (Q := n `div` d) in *.
  assert (HQ2 : Q < W32) by (apply Z.div_lt_upper_bound; mlia).
  rewrite (u64_small (q - 1)) by mlia.
  assert (Hqd : 0 ≤ (q - 1) * d ≤ n).
  { split; [apply Z.mul_nonneg_nonneg; mlia|].
    apply Z.le_trans with (Q * d); [apply Z.mul_le_mono_nonneg_r; mlia|lia]. }
  rewrite (u64_small ((q - 1) * d)) by mlia.
  rewrite (u64_small (n - _)) by mlia.
  assert (q = Q ∨ q = Q + 1) as [-> | ->] by lia; zcase; f_equal; lia.
Qed.

(** Property C39.  [udiv64] (hence [__udivdi3]) returns the mathematical quotient of
    any two 64-bit unsigned integers with a nonzero divisor: neither the
    by-parts branch nor the normalised 32-bit estimate traps in [divl], and the
    final correction always lands on [n / d]. *)
Theorem udiv64_correct n d :
  is_u64 n → is_u64 d → d ≠ 0 → udivdi3 n d = Ok (n `div` d).
Proof.
  intros Hn Hd Hd0. unfold udivdi3.
  destruct (decide (d < W32)).
  - apply udiv64_small; [done|]. mlia.
  - apply udiv64_big; [done|]. mlia.
Qed.

Lemma udiv64_correct_witness :
  udivdi3 0xFFFFFFFFFFFFFFFF 0x100000001 = Ok (0xFFFFFFFFFFFFFFFF `div` 0x100000001).
Proof. apply udiv64_correct; mlia. Defined.

(** ** Signed division and the remainders *)

Lemma u64_opp_u64 n : u64 (- u64 n) = u64 (- n).
Proof. unfold u64. rewrite <- (Z.sub_0_l (n `mod` W64)), Zminus_mod_idemp_r. done. Qed.

Lemma u64_abs n : is_s64 n → (if 0 <=? n then u64 n else u64 (- u64 n)) = Z.abs n.
Proof.
  intros Hn. rewrite u64_opp_u64. zcase; rewrite u64_small; mlia.
Qed.

Lemma s64_mod x y : u64 x = u64 y → s64 x = s64 y.
Proof. unfold s64. by intros ->. Qed.

Lemma u64_s64 x : u64 (s64 x) = u64 x.
Proof.
  unfold s64. case_match; unfold u64; [by rewrite Zmod_mod|].
  rewrite Zminus_mod, Z_mod_same_full, Z.sub_0_r, !Zmod_mod by done. done.
Qed.

Lemma u64_sub_idemp_r n m : u64 (n - u64 m) = u64 (n - m).
Proof. apply Zminus_mod_idemp_r. Qed.

Lemma u64_mul_idemp_r n m : u64 (n * u64 m) = u64 (n * m).
Proof. apply Zmult_mod_idemp_r. Qed.

Lemma u32_u64 x : u32 (u64 x) = u32 x.
Proof.
  unfold u32, u64. change W64 with (W32 * W32).
  rewrite Z.rem_mul_r by done.
  rewrite Z.mul_comm, Z.mod_add, Zmod_mod by done. done.
Qed.

Lemma quot_abs n d :
  d ≠ 0 → Z.quot n d = if Bool.eqb (n <? 0) (d <? 0)
                        then Z.abs n `div` Z.abs d else - (Z.abs n `div` Z.abs d).
Proof.
  intros Hd. destruct (Z.ltb_spec n 0), (Z.ltb_spec d 0); cbn [Bool.eqb].
  - rewrite <- Z.quot_opp_opp by lia. rewrite !Z.abs_neq by lia. apply Z.quot_div_nonneg; lia.
  - rewrite Z.abs_neq, Z.abs_eq by lia. rewrite <- Z.quot_div_nonneg by lia.
    rewrite <- Z.quot_opp_l by lia. f_equal. lia.
  - rewrite Z.abs_eq, Z.abs_neq by lia. rewrite <- Z.quot_div_nonneg by lia.
    rewrite <- Z.quot_opp_r by lia. f_equal. lia.
  - rewrite !Z.abs_eq by lia. apply Z.quot_div_nonneg; lia.
Qed.

Lemma sdiv64_quot n d :
  is_s64 n → is_s64 d → d ≠ 0 → sdiv64 n d = Ok (s64 (Z.quot n d)).
Proof.
  intros Hn Hd Hd0. unfold sdiv64. rewrite !u64_abs by done.
  assert (Hu : udiv64 (Z.abs n) (Z.abs d) = Ok (Z.abs n `div` Z.abs d)).
  { destruct (decide (Z.abs d < W32)); [apply udiv64_small|apply udiv64_big]; mlia. }
  rewrite Hu. cbn [rbind]. rewrite (quot_abs n d Hd0). case_match; [done|].
  f_equal. apply s64_mod. rewrite <- u64_opp_u64, u64_s64, u64_opp_u64. done.
Qed.

(** [sdiv64] (hence [__divdi3]) computes C's truncating signed
    division: the quotient rounded toward zero, exact for every pair of 64-bit
    operands except the single overflowing one [INT64_MIN / -1], on which it wraps to
    [INT64_MIN]. *)
Theorem sdiv64_correct n d :
  is_s64 n → is_s64 d → d ≠ 0 →
  divdi3 n d = Ok (if (n =? -9223372036854775808) && (d =? -1)
                   then -9223372036854775808 else Z.quot n d).
Proof.
  intros Hn Hd Hd0. unfold divdi3. rewrite sdiv64_quot by done. f_equal.
  destruct (Z.eqb_spec n (-9223372036854775808)) as [->|Hmin],
           (Z.eqb_spec d (-1)) as [->|Hm1]; cbn [andb]; [done|..];
    apply s64_small; rewrite (quot_abs _ _ Hd0).
  - assert (Z.abs d = 1 ∨ 2 ≤ Z.abs d) as [E|E] by lia.
    + assert (d = 1) as -> by lia. done.
    + assert (0 ≤ Z.abs (-9223372036854775808) `div` Z.abs d ≤ 4611686018427387904).
      { split; [apply Z.div_pos; lia|]. apply Z.div_le_upper_bound; lia. }
      case_match; mlia.
  - assert (0 ≤ Z.abs n `div` 1 ≤ 9223372036854775807) by (rewrite Z.div_1_r; mlia).
    change (Z.abs (-1)) with 1. case_match; mlia.
  - assert (0 ≤ Z.abs n `div` Z.abs d ≤ 9223372036854775807).
    { split; [apply Z.div_pos; lia|]. apply Z.div_le_upper_bound; mlia. }
    case_match; mlia.
Qed.

Lemma sdiv64_correct_witness :
  divdi3 (-7) 2 = Ok (if (-7 =? -9223372036854775808) && (2 =? -1)
                      then -9223372036854775808 else Z.quot (-7) 2).
Proof. apply sdiv64_correct; mlia. Defined.

(** [umod64] returns its remainder through [uint32_t], so [__umoddi3]
    yields the mathematical remainder exactly when that remainder fits in 32 bits;
    for every larger remainder the result is wrong. *)
Theorem umod64_exact_iff n d :
  is_u64 n → is_u64 d → d ≠ 0 →
  umoddi3 n d = Ok (u32 (n `mod` d)) ∧
  (umoddi3 n d = Ok (n `mod` d) ↔ n `mod` d < W32).
Proof.
  intros Hn Hd Hd0.
  assert (Hu : umoddi3 n d = Ok (u32 (n `mod` d))).
  { unfold umoddi3, umod64.
    assert (udiv64 n d = Ok (n `div` d)) as ->.
    { destruct (decide (d < W32)); [apply udiv64_small|apply udiv64_big]; mlia. }
    cbn [rbind]. rewrite u64_sub_idemp_r, u32_u64. do 2 f_equal.
    pose proof (Z.div_mod n d Hd0). lia. }
  split; [done|]. rewrite Hu.
  pose proof (Z.mod_pos_bound n d ltac:(mlia)) as Hb.
  pose proof (u32_range (n `mod` d)) as Hr. split.
  - intros [= E]. rewrite <- E. apply Hr.
  - intros Hlt. rewrite u32_small; [done|]. mlia.
Qed.

Lemma umod64_exact_iff_witness :
  umoddi3 0x1FFFFFFFF 0x200000000 = Ok (u32 (0x1FFFFFFFF `mod` 0x200000000)) ∧
  (umoddi3 0x1FFFFFFFF 0x200000000 = Ok (0x1FFFFFFFF `mod` 0x200000000) ↔
   0x1FFFFFFFF `mod` 0x200000000 < W32).
Proof. apply umod64_exact_iff; mlia. Defined.

Lemma smod64_rem n d :
  is_s64 n → is_s64 d → d ≠ 0 → smod64 n d = Ok (s32 (Z.rem n d)).
Proof.
  intros Hn Hd Hd0. unfold smod64. rewrite sdiv64_quot by done. cbn [rbind].
  assert (E : u64 (n - s64 (d * s64 (n ÷ d))) = u64 (Z.rem n d)).
  { rewrite <- u64_sub_idemp_r, u64_s64, <- u64_mul_idemp_r, u64_s64.
    rewrite u64_mul_idemp_r, u64_sub_idemp_r. f_equal.
    pose proof (Z.quot_rem' n d). lia. }
  assert (E2 : u32 (s64 (n - s64 (d * s64 (n ÷ d)))) = u32 (Z.rem n d)).
  { rewrite <- (u32_u64 (s64 _)), u64_s64, E, u32_u64. done. }
  unfold s32. rewrite E2. done.
Qed.
