(* ===== verification/Vaddr.v ===== *)
(** * Virtual addresses and page table entries

    threads/vaddr.h, threads/pte.h and lib/round.h: the arithmetic that splits a
    32-bit virtual address into a page directory index, a page table index and a
    page offset, the 1:1 mapping of physical memory at [PHYS_BASE], and the format
    of page directory and page table entries. *)

From S2P Require Import Prelude.
Local Open Scope c_scope.

(** ** vaddr.h *)

Definition BITMASK (SHIFT CNT : Z) : Z := u32 (Z.shiftl (u32 (Z.shiftl 1 CNT - 1)) SHIFT).

Definition PGSHIFT : Z := 0.
Definition PGBITS : Z := 12.
Definition PGSIZE : Z := 4096.
Definition PGMASK : Z := BITMASK PGSHIFT PGBITS.

(** [~x] on [unsigned long]. *)
Definition not32 (x : Z) : Z := UINT_MAX - u32 x.

Definition pg_ofs (va : Z) : Z := Z.land va PGMASK.
Definition pg_no (va : Z) : Z := Z.shiftr va PGBITS.
Definition pg_round_up (va : Z) : Z := Z.land (u32 (va + PGSIZE - 1)) (not32 PGMASK).
Definition pg_round_down (va : Z) : Z := Z.land va (not32 PGMASK).

Definition LOADER_PHYS_BASE : Z := 3221225472.
Definition PHYS_BASE : Z := LOADER_PHYS_BASE.

Definition is_user_vaddr (vaddr : Z) : bool := vaddr <? PHYS_BASE.
Definition is_kernel_vaddr (vaddr : Z) : bool := PHYS_BASE <=? vaddr.

Definition ptov (paddr : Z) : res Z :=
  let* _ := rassert (paddr <? PHYS_BASE) in
  Ok (u32 (paddr + PHYS_BASE)).

Definition vtop (vaddr : Z) : res Z :=
  let* _ := rassert (is_kernel_vaddr vaddr) in
  Ok (u32 (vaddr - PHYS_BASE)).

(** ** pte.h *)

Definition PTSHIFT : Z := PGBITS.
Definition PTBITS : Z := 10.
Definition PTMASK : Z := BITMASK PTSHIFT PTBITS.
Definition PDSHIFT : Z := PTSHIFT + PTBITS.
Definition PDBITS : Z := 10.
Definition PDMASK : Z := BITMASK PDSHIFT PDBITS.

Definition pt_no (va : Z) : Z := Z.shiftr (Z.land va PTMASK) PTSHIFT.
Definition pd_no (va : Z) : Z := Z.shiftr va PDSHIFT.

Definition PTE_FLAGS : Z := 4095.
Definition PTE_ADDR : Z := 4294963200.
Definition PTE_P : Z := 1.
Definition PTE_W : Z := 2.
Definition PTE_U : Z := 4.
Definition PTE_A : Z := 32.
Definition PTE_D : Z := 64.

Definition pde_create (pt : Z) : res Z :=
  let* _ := rassert (pg_ofs pt =? 0) in
  let* p := vtop pt in
  Ok (Z.lor (Z.lor (Z.lor p PTE_U) PTE_P) PTE_W).

Definition pde_get_pt (pde : Z) : res Z :=
  let* _ := rassert (negb (Z.land pde PTE_P =? 0)) in
  ptov (Z.land pde PTE_ADDR).

Definition pte_create_kernel (page : Z) (writable : bool) : res Z :=
  let* _ := rassert (pg_ofs page =? 0) in
  let* p := vtop page in
  Ok (Z.lor (Z.lor p PTE_P) (if writable then PTE_W else 0)).

Definition pte_create_user (page : Z) (writable : bool) : res Z :=
  let* e := pte_create_kernel page writable in
  Ok (Z.lor e PTE_U).

Definition pte_get_page (pte : Z) : res Z := ptov (Z.land pte PTE_ADDR).

(** ** round.h, at the type [size_t] its users have *)

Definition ROUND_UP (X STEP : Z) : Z := u32 (u32 (X + STEP - 1) `div` STEP * STEP).
Definition DIV_ROUND_UP (X STEP : Z) : Z := u32 (X + STEP - 1) `div` STEP.
Definition ROUND_DOWN (X STEP : Z) : Z := u32 (X `div` STEP * STEP).

(** ** Bit masks as arithmetic *)

Lemma land_low x n : 0 ≤ n → Z.land x (2 ^ n - 1) = x `mod` 2 ^ n.
Proof. intros Hn. rewrite <- Z.land_ones by done. by rewrite Z.ones_equiv, <- Z.sub_1_r. Qed.

Lemma testbit_high x k m i : 0 ≤ k → 0 ≤ x < 2 ^ k → k ≤ m → m ≤ i → Z.testbit x i = false.
Proof.
  intros Hk Hx Hm Hi. destruct (decide (x = 0)) as [->|]; [apply Z.bits_0|].
  apply Z.bits_above_log2; [lia|]. assert (Z.log2 x < k) by (apply Z.log2_lt_pow2; lia). lia.
Qed.

(** Clearing the low [n] of 32 bits. *)
Lemma land_high x n : is_u32 x → 0 ≤ n ≤ 32 → Z.land x (2 ^ 32 - 2 ^ n) = x - x `mod` 2 ^ n.
Proof.
  intros Hx Hn.
  replace (2 ^ 32 - 2 ^ n) with (Z.shiftl (Z.ones (32 - n)) n).
  2:{ rewrite Z.shiftl_mul_pow2, Z.ones_equiv by lia.
      rewrite <- Z.sub_1_r, Z.mul_sub_distr_r, <- Z.pow_add_r by lia.
      replace (32 - n + n) with 32 by lia. lia. }
  replace (x - x `mod` 2 ^ n) with (Z.shiftl (Z.shiftr x n) n).
  2:{ rewrite Z.shiftl_mul_pow2, Z.shiftr_div_pow2 by lia.
      assert (2 ^ n ≠ 0) by (apply Z.pow_nonzero; lia). pose proof (Z.div_mod x (2 ^ n)). lia. }
  apply Z.bits_inj'. intros i Hi. rewrite Z.land_spec, !Z.shiftl_spec by lia.
  destruct (decide (i < n)).
  { rewrite (Z.testbit_neg_r _ (i - n)), andb_false_r by lia. by rewrite Z.testbit_neg_r by lia. }
  rewrite Z.shiftr_spec by lia. replace (i - n + n) with i by lia.
  destruct (decide (i < 32)).
  - rewrite Z.ones_spec_low by lia. apply andb_true_r.
  - rewrite (testbit_high x 32 32 i); [done|lia|exact Hx|lia|lia].
Qed.

(** Bits put into the cleared low part add up. *)
Lemma lor_add x y n : 0 ≤ n → x `mod` 2 ^ n = 0 → 0 ≤ y < 2 ^ n → Z.lor x y = x + y.
Proof.
  intros Hn Hx Hy.
  assert (Z.land x y = 0) as H0.
  { apply Z.bits_inj'. intros i Hi. rewrite Z.land_spec, Z.bits_0.
    destruct (decide (i < n)).
    - replace (Z.testbit x i) with false; [done|].
      rewrite <- (Z.mod_pow2_bits_low x n i) by done. by rewrite Hx, Z.bits_0.
    - rewrite (testbit_high y n n i) by lia. apply andb_false_r. }
  rewrite (Z.add_nocarry_lxor _ _ H0). by rewrite (Z.lxor_lor _ _ H0).
Qed.

Lemma u32_of_bits x : 0 ≤ x → (∀ i, 32 ≤ i → Z.testbit x i = false) → is_u32 x.
Proof.
  intros H0 Hb. replace x with (x `mod` 2 ^ 32); [apply Z.mod_pos_bound; done|].
  apply Z.bits_inj'. intros i Hi. destruct (decide (i < 32)).
  - by rewrite Z.mod_pow2_bits_low.
  - rewrite Z.mod_pow2_bits_high by lia. rewrite Hb by lia. done.
Qed.

Lemma u32_high x i : is_u32 x → 32 ≤ i → Z.testbit x i = false.
Proof. intros H Hi. by apply (testbit_high x 32 32); [|exact H|..]. Qed.

Lemma pow2_u32 k : 0 ≤ k < 32 → is_u32 (2 ^ k).
Proof. split; [apply Z.pow_nonneg; lia|apply (Z.pow_lt_mono_r 2 _ 32); lia]. Qed.

Lemma lor_u32 a b : is_u32 a → is_u32 b → is_u32 (Z.lor a b).
Proof.
  intros Ha Hb. apply u32_of_bits; [apply Z.lor_nonneg; mlia|]. intros i Hi.
  by rewrite Z.lor_spec, !u32_high.
Qed.

Lemma lxor_u32 a b : is_u32 a → is_u32 b → is_u32 (Z.lxor a b).
Proof.
  intros Ha Hb. apply u32_of_bits; [apply Z.lxor_nonneg; mlia|]. intros i Hi.
  by rewrite Z.lxor_spec, !u32_high.
Qed.

Lemma land_u32 a b : is_u32 a → is_u32 (Z.land a b).
Proof.
  intros Ha. apply u32_of_bits; [apply Z.land_nonneg; mlia|]. intros i Hi.
  by rewrite Z.land_spec, u32_high.
Qed.

Lemma pg_ofs_mod va : pg_ofs va = va `mod` 4096.
Proof. apply (land_low va 12). done. Qed.

Lemma pg_no_div va : pg_no va = va `div` 4096.
Proof. apply (Z.shiftr_div_pow2 va 12). done. Qed.

Lemma pg_round_down_eq va : is_u32 va → pg_round_down va = va - va `mod` 4096.
Proof. intros H. apply (land_high va 12); [done|lia]. Qed.

Lemma pt_no_eq va : is_u32 va → pt_no va = (va `div` 4096) `mod` 1024.
Proof.
  intros H. unfold pt_no. rewrite Z.shiftr_land.
  change (Z.shiftr PTMASK PTSHIFT) with (2 ^ 10 - 1). rewrite land_low by done.
  change PTSHIFT with 12. by rewrite Z.shiftr_div_pow2.
Qed.

Lemma pd_no_eq va : pd_no va = va `div` 4194304.
Proof. apply (Z.shiftr_div_pow2 va 22). done. Qed.

Lemma PTE_ADDR_eq e : is_u32 e → Z.land e PTE_ADDR = e - e `mod` 4096.
Proof. intros H. apply (land_high e 12); [done|lia]. Qed.

Lemma pg_round_up_eq va :
  is_u32 va →
  pg_round_up va = if va <=? 4294963200 then - ((- va) `div` 4096) * 4096 else 0.
Proof.
  intros H. unfold pg_round_up, u32, PGSIZE.
  change (not32 PGMASK) with (2 ^ 32 - 2 ^ 12).
  rewrite land_high by (mc_unfold; lia || (mc_unfold; dm_lia)).
  change (2 ^ 12) with 4096. zcase; dm_lia.
Qed.

(** The three fields of a virtual address determine it. *)
Lemma vaddr_split va :
  is_u32 va →
  va = pd_no va * 4194304 + pt_no va * 4096 + pg_ofs va ∧
  0 ≤ pd_no va < 1024 ∧ 0 ≤ pt_no va < 1024 ∧ 0 ≤ pg_ofs va < 4096.
Proof.
  intros H. rewrite pd_no_eq, pt_no_eq, pg_ofs_mod by done. dm_lia.
Qed.

Lemma ptov_ok p : 0 ≤ p < 1073741824 → ptov p = Ok (p + PHYS_BASE).
Proof.
  intros H. unfold ptov, rassert, PHYS_BASE, LOADER_PHYS_BASE. zcase; [|lia].
  cbn. by rewrite u32_small by mlia.
Qed.

Lemma vtop_ok v : is_u32 v → PHYS_BASE ≤ v → vtop v = Ok (v - PHYS_BASE).
Proof.
  intros H Hk. unfold vtop, rassert, is_kernel_vaddr. zcase; [|lia].
  cbn. rewrite u32_small; [done|]. unfold PHYS_BASE, LOADER_PHYS_BASE in *. mlia.
Qed.

(** A kernel page: a page-aligned kernel virtual address. *)
Definition kernel_page (p : Z) : Prop := is_u32 p ∧ PHYS_BASE ≤ p ∧ p `mod` 4096 = 0.

#[export] Instance kernel_page_dec p : Decision (kernel_page p).
Proof. unfold kernel_page, is_u32. apply _. Defined.

(** Flag bits added to the frame address by an entry. *)
Definition flags (u w : bool) : Z := 1 + (if w then 2 else 0) + (if u then 4 else 0).

Lemma entry_value (p : Z) (w u : bool) :
  kernel_page p →
  Z.lor (Z.lor (Z.lor (p - PHYS_BASE) PTE_P) (if w then PTE_W else 0)) (if u then PTE_U else 0)
  = p - PHYS_BASE + flags u w.
Proof.
  intros (Hu & Hk & Ha). unfold PHYS_BASE, LOADER_PHYS_BASE in *.
  rewrite <- !Z.lor_assoc.
  rewrite (lor_add _ _ 12); [|done|dm_lia|by destruct u, w].
  by destruct u, w.
Qed.

Lemma pte_create_user_ok p w :
  kernel_page p → pte_create_user p w = Ok (p - PHYS_BASE + flags true w).
Proof.
  intros Hp. unfold pte_create_user, pte_create_kernel, rassert.
  rewrite pg_ofs_mod, (proj2 (proj2 Hp)). cbn [Z.eqb rbind]. 
  destruct Hp as (? & ? & ?). rewrite vtop_ok by done. cbn [rbind].
  by rewrite <- (entry_value p w true).
Qed.

Lemma pde_create_ok p : kernel_page p → pde_create p = Ok (p - PHYS_BASE + flags true true).
Proof.
  intros Hp. unfold pde_create, rassert.
  rewrite pg_ofs_mod, (proj2 (proj2 Hp)). cbn [Z.eqb rbind].
  rewrite <- (entry_value p true true) by done.
  destruct Hp as (? & ? & ?). rewrite vtop_ok by done. cbn [rbind].
  f_equal. rewrite <- !Z.lor_assoc. by f_equal.
Qed.

Lemma entry_addr p f :
  kernel_page p → 0 ≤ f < 4096 → Z.land (p - PHYS_BASE + f) PTE_ADDR = p - PHYS_BASE.
Proof.
  intros (Hu & Hk & Ha) Hf. unfold PHYS_BASE, LOADER_PHYS_BASE in *.
  rewrite PTE_ADDR_eq by mlia. dm_lia.
Qed.

Lemma entry_ptov p f :
  kernel_page p → 0 ≤ f < 4096 → ptov (Z.land (p - PHYS_BASE + f) PTE_ADDR) = Ok p.
Proof.
  intros Hp Hf. rewrite entry_addr by done. destruct Hp as (Hu & Hk & Ha).
  unfold PHYS_BASE, LOADER_PHYS_BASE in *. rewrite ptov_ok by mlia. f_equal.
  unfold PHYS_BASE, LOADER_PHYS_BASE. lia.
Qed.

(** The flag bits of an entry do not depend on its frame. *)
Lemma entry_flag p f m :
  kernel_page p → 0 ≤ f < 4096 → 0 ≤ m < 4096 → Z.land (p - PHYS_BASE + f) m = Z.land f m.
Proof.
  intros (Hu & Hk & Ha) Hf Hm. unfold PHYS_BASE, LOADER_PHYS_BASE in *.
  assert (m = Z.land (2 ^ 12 - 1) m) as ->.
  { rewrite Z.land_comm, land_low by done. rewrite Z.mod_small; [done|]. lia. }
  rewrite !Z.land_assoc, !land_low by done. change (2 ^ 12) with 4096.
  replace ((p - 3221225472 + f) `mod` 4096) with (f `mod` 4096) by dm_lia.
  done.
Qed.

(** A page table entry made for a kernel page points back to that page, is
    present and user-accessible, is writable exactly when asked for, and starts out
    neither accessed nor dirty. *)
Theorem pte_user_roundtrip page w :
  kernel_page page →
  ∃ e, pte_create_user page w = Ok e ∧ is_u32 e ∧ pte_get_page e = Ok page ∧
    Z.land e PTE_P = PTE_P ∧ Z.land e PTE_U = PTE_U ∧
    Z.land e PTE_W = (if w then PTE_W else 0) ∧ Z.land e PTE_A = 0 ∧ Z.land e PTE_D = 0.
Proof.
  intros Hp. exists (page - PHYS_BASE + flags true w).
  assert (0 ≤ flags true w < 4096) as Hf by (by destruct w).
  split_and!; [by apply pte_create_user_ok| |by apply entry_ptov|..].
  - destruct Hp as (? & ? & _). unfold PHYS_BASE, LOADER_PHYS_BASE in *. destruct w; cbn; mlia.
  - rewrite entry_flag by (done || by destruct w). by destruct w.
  - rewrite entry_flag by (done || by destruct w). by destruct w.
  - rewrite entry_flag by (done || by destruct w). by destruct w.
  - rewrite entry_flag by (done || by destruct w). by destruct w.
  - rewrite entry_flag by (done || by destruct w). by destruct w.
Qed.

Lemma pte_user_roundtrip_witness :
  kernel_page 3221229568 ∧
  ∃ e, pte_create_user 3221229568 true = Ok e ∧ pte_get_page e = Ok 3221229568.
Proof.
  assert (kernel_page 3221229568) as Hp by by_decide.
  split; [exact Hp|]. destruct (pte_user_roundtrip 3221229568 true Hp) as (e & H1 & _ & H2 & _).
  exists e. split; assumption.
Defined.
