(* ===== verification/Bytes.v ===== *)
(** * Bytes in memory

    Little-endian encoding of 32-bit words and in-place writes to byte arrays,
    shared by the components that store structures in sectors, pages and files. *)

From S2P Require Import Prelude.

(** The four bytes of a 32-bit word, least significant first. *)
Definition le32 (w : Z) : list Z :=
  [w `mod` 256; (w `div` 256) `mod` 256; (w `div` 65536) `mod` 256; (w `div` 16777216) `mod` 256].

Definition of_le32 (a b c d : Z) : Z := a + 256 * b + 65536 * c + 16777216 * d.

Definition words_bytes (ws : list Z) : list Z := concat (le32 <$> ws).

Fixpoint bytes_words (bs : list Z) : list Z :=
  match bs with
  | a :: b :: c :: d :: bs' => of_le32 a b c d :: bytes_words bs'
  | _ => []
  end.

Lemma le32_bytes w : Forall is_u8 (le32 w).
Proof. repeat constructor; dm_lia. Qed.

Lemma of_le32_le32 w :
  is_u32 w →
  of_le32 (w `mod` 256) ((w `div` 256) `mod` 256) ((w `div` 65536) `mod` 256)
    ((w `div` 16777216) `mod` 256) = w.
Proof. unfold of_le32. intros. dm_lia. Qed.

Lemma of_le32_range a b c d : is_u8 a → is_u8 b → is_u8 c → is_u8 d → is_u32 (of_le32 a b c d).
Proof. unfold of_le32. intros. mlia. Qed.

Lemma words_bytes_length ws : length (words_bytes ws) = (4 * length ws)%nat.
Proof.
  unfold words_bytes. induction ws as [|w ws IH]; [done|].
  cbn [fmap list_fmap concat]. rewrite length_app, IH. cbn. lia.
Qed.

Lemma bytes_words_bytes ws : Forall is_u32 ws → bytes_words (words_bytes ws) = ws.
Proof.
  induction 1 as [|w ws Hw _ IH]; [done|]. cbn. f_equal; [by apply of_le32_le32|exact IH].
Qed.

Lemma words_bytes_u8 ws : Forall is_u8 (words_bytes ws).
Proof.
  unfold words_bytes. induction ws as [|w ws IH]; [constructor|].
  cbn [fmap list_fmap concat]. apply Forall_app. split; [apply le32_bytes|done].
Qed.

Lemma bytes_words_wf n : ∀ bs,
  length bs = (4 * n)%nat → Forall is_u8 bs → length (bytes_words bs) = n ∧ Forall is_u32 (bytes_words bs).
Proof.
  induction n as [|n IH]; intros bs Hl Hu.
  { destruct bs; [|cbn in Hl; lia]. by split. }
  destruct bs as [|a [|b [|c [|d bs]]]]; cbn in Hl; try lia.
  rewrite !Forall_cons in Hu. destruct Hu as (Ha & Hb & Hc & Hd & Hu).
  destruct (IH bs) as [Hlen Hw]; [lia|done|]. cbn. split; [by rewrite Hlen|].
  constructor; [unfold of_le32; mlia|done].
Qed.

(** [memcpy]-style overwrite of [mem] at offset [ofs]. *)
Definition splice {A} (mem : list A) (ofs : nat) (bs : list A) : list A :=
  take ofs mem ++ bs ++ drop (ofs + length bs) mem.

Section Splice.
Context {A : Type}.
Implicit Types (mem bs : list A) (ofs : nat).

Lemma splice_length mem ofs bs :
  (ofs + length bs ≤ length mem)%nat → length (splice mem ofs bs) = length mem.
Proof. intros H. unfold splice. rewrite !length_app, length_take, length_drop. lia. Qed.

Lemma splice_lookup_in mem ofs bs i :
  (ofs + length bs ≤ length mem)%nat → (ofs ≤ i < ofs + length bs)%nat →
  splice mem ofs bs !! i = bs !! (i - ofs)%nat.
Proof.
  intros H Hi. unfold splice. rewrite lookup_app_r by (rewrite length_take; lia).
  rewrite length_take, Nat.min_l by lia. by rewrite lookup_app_l by lia.
Qed.

Lemma splice_lookup_out mem ofs bs i :
  (ofs + length bs ≤ length mem)%nat → (i < ofs ∨ ofs + length bs ≤ i)%nat →
  splice mem ofs bs !! i = mem !! i.
Proof.
  intros H Hi. unfold splice. destruct (decide (i < ofs)%nat).
  - rewrite lookup_app_l by (rewrite length_take; lia). by rewrite lookup_take_lt by lia.
  - rewrite lookup_app_r by (rewrite length_take; lia). rewrite length_take, Nat.min_l by lia.
    rewrite lookup_app_r by lia. rewrite lookup_drop. f_equal. lia.
Qed.

(** Reading back what was written. *)
Lemma splice_read mem ofs bs :
  (ofs + length bs ≤ length mem)%nat → take (length bs) (drop ofs (splice mem ofs bs)) = bs.
Proof.
  intros H. unfold splice. rewrite drop_app_length' by (rewrite length_take; lia).
  by rewrite take_app_length.
Qed.

Lemma splice_all mem bs : length bs = length mem → splice mem 0 bs = bs.
Proof. intros H. unfold splice. rewrite drop_ge by lia. by rewrite app_nil_r. Qed.

Lemma splice_Forall (P : A → Prop) mem ofs bs :
  Forall P mem → Forall P bs → Forall P (splice mem ofs bs).
Proof. intros H1 H2. unfold splice. rewrite !Forall_app. auto using Forall_take, Forall_drop. Qed.
End Splice.
