(* ===== verification/Bitmap.v ===== *)
(** * Bitmaps

    lib/kernel/bitmap.c: a bitmap is a bit count and an array of 32-bit elements.
    Each routine is translated at that level; the theorems describe it by the
    sequence of bits it represents.  [bitmap_scan] is shown to be first fit, and
    [bitmap_read] to restore what [bitmap_write] stored. *)

From S2P Require Import Prelude Bytes Vaddr.
Local Open Scope c_scope.

Definition ELEM_BITS : Z := 32.
Definition BITMAP_ERROR : Z := SIZE_MAX.

Record bitmap := { bit_cnt : Z; bits : list Z }.

Definition elem_idx (bit_idx : Z) : Z := bit_idx `div` ELEM_BITS.
Definition bit_mask (bit_idx : Z) : Z := u32 (Z.shiftl 1 (bit_idx `mod` ELEM_BITS)).
Definition elem_cnt (bit_cnt : Z) : Z := DIV_ROUND_UP bit_cnt ELEM_BITS.
Definition byte_cnt (bit_cnt : Z) : Z := u32 (4 * elem_cnt bit_cnt).

Definition last_mask (b : bitmap) : Z :=
  let last_bits := b.(bit_cnt) `mod` ELEM_BITS in
  if negb (last_bits =? 0) then u32 (u32 (Z.shiftl 1 last_bits) - 1) else u32 (-1).

(** Reading and writing [b->bits[idx]]; outside the array there is no element. *)
Definition ld_elem (idx : Z) : M bitmap Z := λ b,
  match b.(bits) !! Z.to_nat idx with Some w => Ok (w, b) | None => Err Fault end.
Definition st_elem (idx w : Z) : M bitmap unit := λ b,
  if idx <? zlen b.(bits)
  then Ok (tt, {| bit_cnt := b.(bit_cnt); bits := <[Z.to_nat idx := w]> b.(bits) |})
  else Err Fault.

Definition bitmap_size : M bitmap Z := λ b, Ok (b.(bit_cnt), b).

Definition bitmap_mark (bit_idx : Z) : M bitmap unit :=
  let idx := elem_idx bit_idx in
  let mask := bit_mask bit_idx in
  w <- ld_elem idx ;; st_elem idx (Z.lor w mask).

Definition bitmap_reset (bit_idx : Z) : M bitmap unit :=
  let idx := elem_idx bit_idx in
  let mask := bit_mask bit_idx in
  w <- ld_elem idx ;; st_elem idx (Z.land w (not32 mask)).

Definition bitmap_flip (bit_idx : Z) : M bitmap unit :=
  let idx := elem_idx bit_idx in
  let mask := bit_mask bit_idx in
  w <- ld_elem idx ;; st_elem idx (Z.lxor w mask).

Definition bitmap_set (idx : Z) (value : bool) : M bitmap unit :=
  n <- bitmap_size ;;
  assert (idx <? n) ;;
  if value then bitmap_mark idx else bitmap_reset idx.

Definition bitmap_test (idx : Z) : M bitmap bool :=
  n <- bitmap_size ;;
  assert (idx <? n) ;;
  w <- ld_elem (elem_idx idx) ;;
  ret (negb (Z.land w (bit_mask idx) =? 0)).

(** [for (i = 0; i < cnt; i++)] takes [cnt] steps. *)
Definition upto (cnt : Z) : nat := S (Z.to_nat cnt).

Definition bitmap_set_multiple (start cnt : Z) (value : bool) : M bitmap unit :=
  n <- bitmap_size ;;
  assert (start <=? n) ;;
  assert (u32 (start + cnt) <=? n) ;;
  iter (upto cnt) (λ i,
    if i <? cnt then
      bitmap_set (u32 (start + i)) value ;; ret (inl (u32 (i + 1)))
    else ret (inr tt)) 0.

Definition bitmap_set_all (value : bool) : M bitmap unit :=
  n <- bitmap_size ;;
  bitmap_set_multiple 0 n value.

Definition bitmap_count (start cnt : Z) (value : bool) : M bitmap Z :=
  n <- bitmap_size ;;
  assert (start <=? n) ;;
  assert (u32 (start + cnt) <=? n) ;;
  iter (upto cnt) (λ '(i, value_cnt),
    if i <? cnt then
      t <- bitmap_test (u32 (start + i)) ;;
      ret (inl (u32 (i + 1), if Bool.eqb t value then u32 (value_cnt + 1) else value_cnt))
    else ret (inr value_cnt)) (0, 0).

Definition bitmap_contains (start cnt : Z) (value : bool) : M bitmap bool :=
  n <- bitmap_size ;;
  assert (start <=? n) ;;
  assert (u32 (start + cnt) <=? n) ;;
  iter (upto cnt) (λ i,
    if i <? cnt then
      t <- bitmap_test (u32 (start + i)) ;;
      if Bool.eqb t value then ret (inr true) else ret (inl (u32 (i + 1)))
    else ret (inr false)) 0.

Definition bitmap_any (start cnt : Z) : M bitmap bool := bitmap_contains start cnt true.
Definition bitmap_none (start cnt : Z) : M bitmap bool :=
  c <- bitmap_contains start cnt true ;; ret (negb c).
Definition bitmap_all (start cnt : Z) : M bitmap bool :=
  c <- bitmap_contains start cnt false ;; ret (negb c).

Definition bitmap_scan (start cnt : Z) (value : bool) : M bitmap Z :=
  n <- bitmap_size ;;
  assert (start <=? n) ;;
  if cnt <=? n then
    let last := u32 (n - cnt) in
    iter (S (upto n)) (λ i,
      if i <=? last then
        c <- bitmap_contains i cnt (negb value) ;;
        if negb c then ret (inr i) else ret (inl (u32 (i + 1)))
      else ret (inr BITMAP_ERROR)) start
  else ret BITMAP_ERROR.

Definition bitmap_scan_and_flip (start cnt : Z) (value : bool) : M bitmap Z :=
  idx <- bitmap_scan start cnt value ;;
  (if negb (idx =? BITMAP_ERROR) then bitmap_set_multiple idx cnt (negb value) else ret tt) ;;
  ret idx.

(** ** Creation

    [block] is what [malloc (sizeof *b)] answers and [store] what
    [malloc (byte_cnt (bit_cnt))] answers: the uninitialised elements, or nothing. *)
Definition bitmap_create (block : bool) (store : option (list Z)) (cnt : Z) : res (option bitmap) :=
  if block then
    if bool_decide (is_Some store) || (cnt =? 0) then
      let* r := bitmap_set_all false {| bit_cnt := cnt; bits := default [] store |} in
      Ok (Some r.2)
    else Ok None
  else Ok None.

Definition bitmap_buf_size (bit_cnt : Z) : Z := u32 (8 + byte_cnt bit_cnt).

(** [store] is the contents of the block behind the header. *)
Definition bitmap_create_in_buf (cnt : Z) (store : list Z) (block_size : Z) : res bitmap :=
  let* _ := rassert (bitmap_buf_size cnt <=? block_size) in
  let* r := bitmap_set_all false {| bit_cnt := cnt; bits := store |} in
  Ok r.2.

(** ** Files

    The bitmap is stored at the start of a file.  [file_read_at size] reads up to
    [size] bytes at offset 0 and [file_write_at data] writes [data] there and answers
    the number of bytes written; the caller's file component supplies both. *)
Definition bitmap_file_size : M bitmap Z := λ b, Ok (byte_cnt b.(bit_cnt), b).

Definition bitmap_read {F} (file_read_at : Z → M F (list Z)) (b : bitmap) : M F (bool * bitmap) :=
  if 0 <? b.(bit_cnt) then
    let size := byte_cnt b.(bit_cnt) in
    data <- file_read_at size ;;
    let success := zlen data =? size in
    let b := {| bit_cnt := b.(bit_cnt);
                bits := bytes_words (splice (words_bytes b.(bits)) 0 data) |} in
    λ f,
      let last := u32 (elem_cnt b.(bit_cnt) - 1) in
      let* r := (w <- ld_elem last ;; st_elem last (Z.land w (last_mask b))) b in
      Ok ((success, r.2), f)
  else ret (true, b).

Definition bitmap_write {F} (file_write_at : list Z → M F Z) (b : bitmap) : M F bool :=
  let size := byte_cnt b.(bit_cnt) in
  n <- file_write_at (take (Z.to_nat size) (words_bytes b.(bits))) ;;
  ret (n =? size).

(** ** The bits a bitmap represents *)

Record wf (b : bitmap) : Prop := {
  wf_cnt : 0 ≤ b.(bit_cnt) ≤ 4294967264;
  wf_len : zlen b.(bits) = (b.(bit_cnt) + 31) `div` 32;
  wf_u32 : Forall is_u32 b.(bits);
}.

Definition bit (b : bitmap) (i : Z) : bool :=
  match b.(bits) !! Z.to_nat (elem_idx i) with
  | Some w => Z.testbit w (i `mod` ELEM_BITS)
  | None => false
  end.

Lemma elem_cnt_eq n : 0 ≤ n ≤ 4294967264 → elem_cnt n = (n + 31) `div` 32.
Proof. intros H. unfold elem_cnt, DIV_ROUND_UP, ELEM_BITS. rewrite u32_small by mlia. f_equal. lia. Qed.

Lemma bit_mask_eq i : bit_mask i = 2 ^ (i `mod` 32).
Proof.
  unfold bit_mask, ELEM_BITS. assert (0 ≤ i `mod` 32 < 32) by dm_lia.
  rewrite Z.shiftl_1_l. apply u32_small. split; [apply Z.pow_nonneg; lia|].
  apply (Z.pow_lt_mono_r 2 _ 32); lia.
Qed.

(** The three element updates, bit by bit. *)
Lemma mark_bits w k j : 0 ≤ k → Z.testbit (Z.lor w (2 ^ k)) j = Z.testbit w j || (k =? j).
Proof. intros Hk. by rewrite Z.lor_spec, Z.pow2_bits_eqb. Qed.

Lemma flip_bits w k j : 0 ≤ k → Z.testbit (Z.lxor w (2 ^ k)) j = xorb (Z.testbit w j) (k =? j).
Proof. intros Hk. by rewrite Z.lxor_spec, Z.pow2_bits_eqb. Qed.

Lemma not32_bits k j : 0 ≤ k < 32 → 0 ≤ j < 32 → Z.testbit (not32 (2 ^ k)) j = negb (k =? j).
Proof.
  intros Hk Hj. unfold not32.
  assert (is_u32 (2 ^ k)) as Hu.
  { split; [apply Z.pow_nonneg; lia|apply (Z.pow_lt_mono_r 2 _ 32); lia]. }
  rewrite (u32_small _ Hu). change UINT_MAX with (Z.ones 32).
  rewrite Z.sub_nocarry_ldiff.
  - rewrite Z.ldiff_spec, Z.ones_spec_low by lia. by rewrite Z.pow2_bits_eqb by lia.
  - apply Z.bits_inj'. intros i Hi. rewrite Z.ldiff_spec, Z.bits_0.
    destruct (decide (i < 32)).
    + rewrite Z.ones_spec_low by lia. apply andb_false_r.
    + by rewrite (u32_high _ i Hu) by lia.
Qed.

Lemma reset_bits w k j :
  0 ≤ k < 32 → 0 ≤ j < 32 →
  Z.testbit (Z.land w (not32 (2 ^ k))) j = Z.testbit w j && negb (k =? j).
Proof. intros Hk Hj. by rewrite Z.land_spec, not32_bits. Qed.

Lemma test_bits w k : 0 ≤ k → negb (Z.land w (2 ^ k) =? 0) = Z.testbit w k.
Proof.
  intros Hk. destruct (Z.testbit w k) eqn:E.
  - destruct (Z.eqb_spec (Z.land w (2 ^ k)) 0) as [H|]; [|done].
    assert (Z.testbit (Z.land w (2 ^ k)) k = true) as Ht
      by (by rewrite Z.land_spec, E, Z.pow2_bits_true).
    by rewrite H, Z.bits_0 in Ht.
  - replace (Z.land w (2 ^ k)) with 0; [done|]. symmetry. apply Z.bits_inj'. intros i Hi.
    rewrite Z.land_spec, Z.pow2_bits_eqb, Z.bits_0 by lia.
    destruct (Z.eqb_spec k i) as [<-|]; [by rewrite E|apply andb_false_r].
Qed.

(** [b'] is [b] with the bits selected by [P] set to [v]. *)
Definition updated (b b' : bitmap) (P : Z → bool) (v : bool) : Prop :=
  wf b' ∧ b'.(bit_cnt) = b.(bit_cnt) ∧ ∀ j, 0 ≤ j → bit b' j = if P j then v else bit b j.

Lemma elem_present b i :
  wf b → 0 ≤ i < b.(bit_cnt) →
  ∃ w, b.(bits) !! Z.to_nat (elem_idx i) = Some w ∧ is_u32 w ∧ elem_idx i < zlen b.(bits).
Proof.
  intros Hwf Hi. pose proof (wf_len b Hwf) as Hl. unfold elem_idx, ELEM_BITS in *.
  assert (i `div` 32 < zlen (bits b)) as Hlt by (rewrite Hl; dm_lia).
  destruct (lookup_lt_is_Some_2 b.(bits) (Z.to_nat (i `div` 32))) as [w Hw]; [dm_lia|].
  exists w. split_and!; [done| |done]. pose proof (wf_u32 b Hwf) as Hu.
  by eapply (proj1 (Forall_lookup _ _) Hu).
Qed.

(** An element update that changes one bit of the element. *)
Lemma elem_update b i w w' v :
  wf b → 0 ≤ i < b.(bit_cnt) → b.(bits) !! Z.to_nat (elem_idx i) = Some w → is_u32 w' →
  (∀ j, 0 ≤ j < 32 → Z.testbit w' j = if i `mod` 32 =? j then v else Z.testbit w j) →
  ∃ b', (w <- ld_elem (elem_idx i) ;; st_elem (elem_idx i) w') b = Ok (tt, b') ∧
        updated b b' (Z.eqb i) v.
Proof.
  intros Hwf Hi Hw Hw' Hb. destruct (elem_present b i Hwf Hi) as (w0 & Hw0 & _ & Hlt).
  rewrite Hw in Hw0. injection Hw0 as <-.
  eexists. split.
  { unfold bind, ld_elem, st_elem. rewrite Hw. destruct (Z.ltb_spec (elem_idx i) (zlen b.(bits))); [done|lia]. }
  split; [|split; [done|]].
  - destruct Hwf as [H1 H2 H3]. split; cbn; [done|by rewrite length_insert|].
    by apply Forall_insert.
  - intros j Hj. unfold bit. cbn [bits]. unfold elem_idx, ELEM_BITS in *.
    destruct (decide (j `div` 32 = i `div` 32)) as [E|E].
    + rewrite E, list_lookup_insert, decide_True by (split; [done|dm_lia]).
      rewrite Hw, Hb by dm_lia.
      destruct (Z.eqb_spec (i `mod` 32) (j `mod` 32)), (Z.eqb_spec i j); try done; dm_lia.
    + rewrite list_lookup_insert_ne by dm_lia.
      destruct (Z.eqb_spec i j); [subst; done|done].
Qed.

Lemma bitmap_set_ok b i v :
  wf b → 0 ≤ i < b.(bit_cnt) →
  ∃ b', bitmap_set i v b = Ok (tt, b') ∧ updated b b' (Z.eqb i) v.
Proof.
  intros Hwf Hi. destruct (elem_present b i Hwf Hi) as (w & Hw & Hu & _).
  assert (0 ≤ i `mod` 32 < 32) as Hk by dm_lia.
  unfold bitmap_set. rewrite (bind_Ok _ _ b b.(bit_cnt) b) by done.
  rewrite bind_assert by (apply Z.ltb_lt; lia). 
  destruct v; unfold bitmap_mark, bitmap_reset; rewrite bit_mask_eq.
  - destruct (elem_update b i w (Z.lor w (2 ^ (i `mod` 32))) true) as (b' & Hr & ?);
      [done..|by apply lor_u32, pow2_u32| |].
    { intros j Hj. rewrite mark_bits by lia. case_match; [apply orb_true_r|apply orb_false_r]. }
    exists b'. split; [|done]. rewrite <- Hr. unfold bind, ld_elem. by rewrite Hw.
  - destruct (elem_update b i w (Z.land w (not32 (2 ^ (i `mod` 32)))) false) as (b' & Hr & ?);
      [done..|by apply land_u32| |].
    { intros j Hj. rewrite reset_bits by lia. case_match; [apply andb_false_r|apply andb_true_r]. }
    exists b'. split; [|done]. rewrite <- Hr. unfold bind, ld_elem. by rewrite Hw.
Qed.

Lemma bitmap_flip_ok b i :
  wf b → 0 ≤ i < b.(bit_cnt) →
  ∃ b', bitmap_flip i b = Ok (tt, b') ∧ updated b b' (Z.eqb i) (negb (bit b i)).
Proof.
  intros Hwf Hi. destruct (elem_present b i Hwf Hi) as (w & Hw & Hu & _).
  assert (0 ≤ i `mod` 32 < 32) as Hk by dm_lia.
  unfold bitmap_flip. rewrite bit_mask_eq.
  destruct (elem_update b i w (Z.lxor w (2 ^ (i `mod` 32))) (negb (bit b i))) as (b' & Hr & ?);
    [done..|by apply lxor_u32, pow2_u32| |].
  { intros j Hj. rewrite flip_bits by lia. unfold bit. rewrite Hw. unfold ELEM_BITS.
    destruct (Z.eqb_spec (i `mod` 32) j) as [->|]; [apply xorb_true_r|apply xorb_false_r]. }
  exists b'. split; [|done]. rewrite <- Hr. unfold bind, ld_elem. by rewrite Hw.
Qed.

Lemma bitmap_reset_ok b i :
  wf b → 0 ≤ i < b.(bit_cnt) →
  ∃ b', bitmap_reset i b = Ok (tt, b') ∧ updated b b' (Z.eqb i) false.
Proof.
  intros Hwf Hi. destruct (bitmap_set_ok b i false Hwf Hi) as (b' & Hr & Hu).
  exists b'. split; [|done]. rewrite <- Hr. unfold bitmap_set.
  rewrite (bind_Ok _ _ b b.(bit_cnt) b) by done. by rewrite bind_assert by (apply Z.ltb_lt; lia).
Qed.

Lemma bitmap_mark_ok b i :
  wf b → 0 ≤ i < b.(bit_cnt) →
  ∃ b', bitmap_mark i b = Ok (tt, b') ∧ updated b b' (Z.eqb i) true.
Proof.
  intros Hwf Hi. destruct (bitmap_set_ok b i true Hwf Hi) as (b' & Hr & Hu).
  exists b'. split; [|done]. rewrite <- Hr. unfold bitmap_set.
  rewrite (bind_Ok _ _ b b.(bit_cnt) b) by done. by rewrite bind_assert by (apply Z.ltb_lt; lia).
Qed.

Lemma bitmap_test_ok b i :
  wf b → 0 ≤ i < b.(bit_cnt) → bitmap_test i b = Ok (bit b i, b).
Proof.
  intros Hwf Hi. destruct (elem_present b i Hwf Hi) as (w & Hw & _ & _).
  unfold bitmap_test. rewrite (bind_Ok _ _ b b.(bit_cnt) b) by done.
  rewrite bind_assert by (apply Z.ltb_lt; lia).
  rewrite (bind_Ok _ _ b w b) by (unfold ld_elem; by rewrite Hw).
  unfold ret, bit. rewrite Hw, bit_mask_eq, test_bits by dm_lia. done.
Qed.

(** The two range assertions the multi-bit routines start with. *)
Lemma range_asserts {A} b start cnt (k : M bitmap A) :
  0 ≤ start → 0 ≤ cnt → start + cnt ≤ b.(bit_cnt) → b.(bit_cnt) < W32 →
  (n <- bitmap_size ;; assert (start <=? n) ;; assert (u32 (start + cnt) <=? n) ;; k) b = k b.
Proof.
  intros Hs Hc Hsc HW. rewrite (bind_Ok _ _ b b.(bit_cnt) b) by done.
  rewrite u32_small by mlia. rewrite !bind_assert by (apply Z.leb_le; lia). done.
Qed.

Definition in_range (start cnt j : Z) : bool := (start <=? j) && (j <? start + cnt).

Lemma updated_step b b1 b2 P Q i v :
  updated b b1 P v → updated b1 b2 (Z.eqb i) v → (∀ j, 0 ≤ j → Q j = P j || (i =? j)) →
  updated b b2 Q v.
Proof.
  intros (H1 & H2 & H3) (H4 & H5 & H6) HQ. split_and!; [done|congruence|].
  intros j Hj. rewrite H6, H3, HQ by done.
  destruct (i =? j); [by rewrite orb_true_r|]. by rewrite orb_false_r.
Qed.

Lemma set_multiple_loop b0 start cnt v : ∀ n b i,
  updated b0 b (in_range start i) v → 0 ≤ start → 0 ≤ i ≤ cnt → start + cnt ≤ b0.(bit_cnt) →
  b0.(bit_cnt) < W32 → (Z.to_nat (cnt - i) < n)%nat →
  ∃ b', iter n (λ i,
    if i <? cnt then
      bitmap_set (u32 (start + i)) v ;; ret (inl (u32 (i + 1)))
    else ret (inr tt)) i b = Ok (tt, b') ∧ updated b0 b' (in_range start cnt) v.
Proof.
  induction n as [|n IH]; intros b i Hup Hs Hi Hsc HW Hn; [lia|].
  destruct (Z.ltb_spec i cnt) as [Hlt|Hge].
  - destruct (bitmap_set_ok b (start + i) v) as (b1 & Hr & Hup1); [apply Hup|destruct Hup as (_ & -> & _); lia|].
    destruct (IH b1 (i + 1)) as (b' & Hi' & Hup'); [|lia..|].
    { eapply updated_step; [exact Hup|exact Hup1|]. intros j Hj. unfold in_range.
      repeat zcase; cbn; lia || done. }
    exists b'. split; [|done]. erewrite iter_continue; [exact Hi'|].
    cbv beta. rewrite (proj2 (Z.ltb_lt _ _) Hlt). rewrite !u32_small by mlia.
    by rewrite (bind_Ok _ _ _ _ _ Hr).
  - exists b. replace cnt with i in * by lia. split; [|done].
    erewrite iter_step; [|by rewrite (proj2 (Z.ltb_ge _ _) Hge)]. done.
Qed.

Lemma bitmap_set_multiple_ok b start cnt v :
  wf b → 0 ≤ start → 0 ≤ cnt → start + cnt ≤ b.(bit_cnt) →
  ∃ b', bitmap_set_multiple start cnt v b = Ok (tt, b') ∧ updated b b' (in_range start cnt) v.
Proof.
  intros Hwf Hs Hc Hsc. pose proof (wf_cnt b Hwf).
  destruct (set_multiple_loop b start cnt v (upto cnt) b 0) as (b' & Hr & Hup); try (unfold upto; mlia).
  { split_and!; [done..|]. intros j Hj. unfold in_range. repeat zcase; done || lia. }
  exists b'. split; [|done]. unfold bitmap_set_multiple. by rewrite range_asserts by mlia.
Qed.

(** All [cnt] bits from [start] on have value [v]. *)
Definition all_are (b : bitmap) (start cnt : Z) (v : bool) : Prop :=
  ∀ j, start ≤ j < start + cnt → bit b j = v.

Lemma contains_loop b start cnt v : ∀ n i,
  wf b → 0 ≤ start → 0 ≤ i ≤ cnt → start + cnt ≤ b.(bit_cnt) → (Z.to_nat (cnt - i) < n)%nat →
  all_are b start i (negb v) →
  ∃ r, iter n (λ i,
    if i <? cnt then
      t <- bitmap_test (u32 (start + i)) ;;
      if Bool.eqb t v then ret (inr true) else ret (inl (u32 (i + 1)))
    else ret (inr false)) i b = Ok (r, b) ∧ (r = false ↔ all_are b start cnt (negb v)).
Proof.
  induction n as [|n IH]; intros i Hwf Hs Hi Hsc Hn Hall; [lia|].
  pose proof (wf_cnt b Hwf). destruct (Z.ltb_spec i cnt) as [Hlt|Hge].
  - pose proof (bitmap_test_ok b (start + i) Hwf) as Ht.
    destruct (Bool.eqb (bit b (start + i)) v) eqn:E.
    + exists true. split; [|split; [done|]].
      * erewrite iter_step; [|rewrite (proj2 (Z.ltb_lt _ _) Hlt), u32_small by mlia;
          rewrite (bind_Ok _ _ _ _ _ (Ht ltac:(lia))); by rewrite E]. done.
      * intros Ha. apply eqb_prop in E. rewrite Ha in E by lia. by destruct v.
    + destruct (IH (i + 1)) as (r & Hr & Hiff); [done|lia..| |].
      { intros j Hj. destruct (decide (j = start + i)) as [->|]; [|apply Hall; lia].
        destruct (bit b (start + i)), v; done. }
      exists r. split; [|done]. erewrite iter_continue; [exact Hr|]. cbv beta.
      rewrite (proj2 (Z.ltb_lt _ _) Hlt), !u32_small by mlia.
      rewrite (bind_Ok _ _ _ _ _ (Ht ltac:(lia))). by rewrite E.
  - exists false. replace cnt with i by lia. split; [|split; done].
    erewrite iter_step; [|by rewrite Z.ltb_irrefl]. done.
Qed.

Lemma bitmap_contains_ok b start cnt v :
  wf b → 0 ≤ start → 0 ≤ cnt → start + cnt ≤ b.(bit_cnt) →
  ∃ r, bitmap_contains start cnt v b = Ok (r, b) ∧ (r = false ↔ all_are b start cnt (negb v)).
Proof.
  intros Hwf Hs Hc Hsc. pose proof (wf_cnt b Hwf). unfold bitmap_contains.
  rewrite range_asserts by mlia.
  apply (contains_loop b start cnt v (upto cnt) 0); [done|unfold upto; lia..|].
  intros j Hj. lia.
Qed.

Lemma bitmap_all_ok b start cnt :
  wf b → 0 ≤ start → 0 ≤ cnt → start + cnt ≤ b.(bit_cnt) →
  ∃ r, bitmap_all start cnt b = Ok (r, b) ∧ (r = true ↔ all_are b start cnt true).
Proof.
  intros Hwf Hs Hc Hsc. destruct (bitmap_contains_ok b start cnt false) as (r & Hr & Hiff); [done..|].
  exists (negb r). unfold bitmap_all. rewrite (bind_Ok _ _ _ _ _ Hr). split; [done|].
  rewrite <- Hiff. by destruct r.
Qed.

(** The answer of a first-fit search from [start]. *)
Definition first_fit (b : bitmap) (start cnt : Z) (v : bool) (r : Z) : Prop :=
  (r = BITMAP_ERROR ∧ ∀ i, start ≤ i → i + cnt ≤ b.(bit_cnt) → ¬ all_are b i cnt v) ∨
  (start ≤ r ∧ r + cnt ≤ b.(bit_cnt) ∧ all_are b r cnt v ∧
   ∀ i, start ≤ i < r → ¬ all_are b i cnt v).

Lemma scan_loop b start cnt v : ∀ n i,
  wf b → 0 ≤ start ≤ i → 0 ≤ cnt ≤ b.(bit_cnt) → i ≤ b.(bit_cnt) + 1 →
  (Z.to_nat (b.(bit_cnt) - cnt - i + 1) < n)%nat →
  (∀ k, start ≤ k < i → ¬ all_are b k cnt v) →
  ∃ r, iter n (λ i,
      if i <=? b.(bit_cnt) - cnt then
        c <- bitmap_contains i cnt (negb v) ;;
        if negb c then ret (inr i) else ret (inl (u32 (i + 1)))
      else ret (inr BITMAP_ERROR)) i b = Ok (r, b) ∧ first_fit b start cnt v r.
Proof.
  induction n as [|n IH]; intros i Hwf Hs Hc Hi Hn Hno; [lia|]. pose proof (wf_cnt b Hwf).
  destruct (Z.leb_spec i (b.(bit_cnt) - cnt)) as [Hle|Hgt].
  - destruct (bitmap_contains_ok b i cnt (negb v)) as (c & Hr & Hiff); [done|lia..|].
    rewrite negb_involutive in Hiff. destruct c.
    + destruct (IH (i + 1)) as (r & Hr' & Hff); [done|lia..| |].
      { intros k Hk. destruct (decide (k = i)) as [->|]; [|apply Hno; lia].
        intros Ha. by apply Hiff in Ha. }
      exists r. split; [|done]. erewrite iter_continue; [exact Hr'|]. cbv beta.
      rewrite (proj2 (Z.leb_le _ _) Hle), (bind_Ok _ _ _ _ _ Hr), u32_small by mlia. done.
    + exists i. split.
      * erewrite iter_step; [|by rewrite (proj2 (Z.leb_le _ _) Hle), (bind_Ok _ _ _ _ _ Hr)]. done.
      * right. split_and!; [lia..|by apply Hiff|done].
  - exists BITMAP_ERROR. split.
    + erewrite iter_step; [|by rewrite (proj2 (Z.leb_gt _ _) Hgt)]. done.
    + left. split; [done|]. intros k Hk Hk2. apply Hno. lia.
Qed.

Lemma bitmap_scan_ok b start cnt v :
  wf b → 0 ≤ start ≤ b.(bit_cnt) → 0 ≤ cnt →
  ∃ r, bitmap_scan start cnt v b = Ok (r, b) ∧ first_fit b start cnt v r.
Proof.
  intros Hwf Hs Hc. pose proof (wf_cnt b Hwf). unfold bitmap_scan.
  rewrite (bind_Ok _ _ b b.(bit_cnt) b), bind_assert by (done || apply Z.leb_le; lia).
  destruct (Z.leb_spec cnt b.(bit_cnt)).
  - rewrite u32_small by mlia. apply scan_loop; [done|lia..|unfold upto; lia|].
    intros k Hk. lia.
  - exists BITMAP_ERROR. split; [done|]. left. split; [done|]. lia.
Qed.

Lemma bitmap_scan_and_flip_run b start cnt v :
  wf b → 0 ≤ start ≤ b.(bit_cnt) → 0 ≤ cnt →
  ∃ r b', bitmap_scan_and_flip start cnt v b = Ok (r, b') ∧ first_fit b start cnt v r ∧
    if r =? BITMAP_ERROR then b' = b else updated b b' (in_range r cnt) (negb v).
Proof.
  intros Hwf Hs Hc. pose proof (wf_cnt b Hwf).
  destruct (bitmap_scan_ok b start cnt v Hwf Hs Hc) as (r & Hr & Hff).
  unfold bitmap_scan_and_flip. rewrite (bind_Ok _ _ _ _ _ Hr).
  destruct (Z.eqb_spec r BITMAP_ERROR) as [E|E].
  - exists r, b. subst r. split_and!; done.
  - destruct Hff as [[? _]|Hff]; [done|].
    destruct (bitmap_set_multiple_ok b r cnt (negb v)) as (b' & Hr' & Hup); [done|lia..|].
    exists r, b'. split_and!; [|by right|by rewrite (proj2 (Z.eqb_neq _ _) E)].
    cbn [negb]. by rewrite (bind_Ok _ _ _ _ _ Hr').
Qed.

(** ** Counting, creation, files *)

Definition ones (b : bitmap) (start cnt : Z) (v : bool) : Z :=
  zlen (filter (λ j, bit b j = v) (seqZ start cnt)).

Lemma seqZ_snoc m n : 0 ≤ n → seqZ m (n + 1) = seqZ m n ++ [m + n].
Proof. intros H. rewrite seqZ_app by lia. f_equal. Qed.

Lemma ones_step b start i v :
  0 ≤ i → ones b start (i + 1) v = ones b start i v + (if Bool.eqb (bit b (start + i)) v then 1 else 0).
Proof.
  intros Hi. unfold ones. rewrite seqZ_snoc, filter_app, length_app by done.
  rewrite filter_cons, filter_nil. case_decide as H.
  - subst v. rewrite eqb_reflx. cbn. lia.
  - destruct (Bool.eqb (bit b (start + i)) v) eqn:E; [by apply eqb_prop in E|]. cbn. lia.
Qed.

Lemma ones_bound b start i v : 0 ≤ i → 0 ≤ ones b start i v ≤ i.
Proof.
  intros Hi. unfold ones. pose proof (length_filter (λ j, bit b j = v) (seqZ start i)) as H.
  rewrite length_seqZ in H. lia.
Qed.

Lemma count_loop b start cnt v : ∀ n i,
  wf b → 0 ≤ start → 0 ≤ i ≤ cnt → start + cnt ≤ b.(bit_cnt) → (Z.to_nat (cnt - i) < n)%nat →
  iter n (λ '(i, value_cnt),
    if i <? cnt then
      t <- bitmap_test (u32 (start + i)) ;;
      ret (inl (u32 (i + 1), if Bool.eqb t v then u32 (value_cnt + 1) else value_cnt))
    else ret (inr value_cnt)) (i, ones b start i v) b = Ok (ones b start cnt v, b).
Proof.
  induction n as [|n IH]; intros i Hwf Hs Hi Hsc Hn; [lia|]. pose proof (wf_cnt b Hwf).
  destruct (Z.ltb_spec i cnt) as [Hlt|Hge].
  - pose proof (bitmap_test_ok b (start + i) Hwf) as Ht.
    erewrite iter_continue; [exact (IH (i + 1) Hwf Hs ltac:(lia) Hsc ltac:(lia))|]. cbv beta iota.
    pose proof (ones_bound b start i v). rewrite (proj2 (Z.ltb_lt _ _) Hlt), !u32_small by mlia.
    rewrite (bind_Ok _ _ _ _ _ (Ht ltac:(lia))). unfold ret. do 3 f_equal.
    rewrite ones_step by lia. case_match; [done|]. f_equal. lia.
  - replace cnt with i by lia. erewrite iter_step; [|by rewrite Z.ltb_irrefl]. done.
Qed.

Lemma bitmap_count_ok b start cnt v :
  wf b → 0 ≤ start → 0 ≤ cnt → start + cnt ≤ b.(bit_cnt) →
  bitmap_count start cnt v b = Ok (ones b start cnt v, b).
Proof.
  intros Hwf Hs Hc Hsc. pose proof (wf_cnt b Hwf). unfold bitmap_count.
  rewrite range_asserts by mlia. apply (count_loop b start cnt v (upto cnt) 0); [done|unfold upto; lia..].
Qed.

Lemma bitmap_set_all_ok b v :
  wf b → ∃ b', bitmap_set_all v b = Ok (tt, b') ∧ wf b' ∧ b'.(bit_cnt) = b.(bit_cnt) ∧
    all_are b' 0 b.(bit_cnt) v.
Proof.
  intros Hwf. pose proof (wf_cnt b Hwf).
  destruct (bitmap_set_multiple_ok b 0 b.(bit_cnt) v) as (b' & Hr & Hw & Hc & Hb); [done|lia..|].
  exists b'. split_and!; [done..|]. intros j Hj. rewrite Hb by lia. unfold in_range.
  repeat zcase; done || lia.
Qed.

Lemma bitmap_create_ok cnt store :
  0 ≤ cnt ≤ 4294967264 → zlen store = elem_cnt cnt → Forall is_u32 store →
  ∃ b, bitmap_create true (Some store) cnt = Ok (Some b) ∧ wf b ∧ b.(bit_cnt) = cnt ∧
    all_are b 0 cnt false.
Proof.
  intros Hc Hl Hu. rewrite elem_cnt_eq in Hl by done.
  destruct (bitmap_set_all_ok {| bit_cnt := cnt; bits := store |} false) as (b & Hr & ? & ? & ?); [by split|].
  exists b. unfold bitmap_create. rewrite bool_decide_eq_true_2 by done. cbn [orb from_option id].
  split_and!; [|done..]. unfold rbind. by rewrite Hr.
Qed.

Lemma bitmap_create_in_buf_ok cnt store size :
  0 ≤ cnt ≤ 4294967264 → zlen store = elem_cnt cnt → Forall is_u32 store → bitmap_buf_size cnt ≤ size →
  ∃ b, bitmap_create_in_buf cnt store size = Ok b ∧ wf b ∧ b.(bit_cnt) = cnt ∧ all_are b 0 cnt false.
Proof.
  intros Hc Hl Hu Hs. rewrite elem_cnt_eq in Hl by done.
  destruct (bitmap_set_all_ok {| bit_cnt := cnt; bits := store |} false) as (b & Hr & ? & ? & ?); [by split|].
  exists b. unfold bitmap_create_in_buf, rassert. rewrite (proj2 (Z.leb_le _ _) Hs). cbn [rbind].
  split_and!; [|done..]. unfold rbind. by rewrite Hr.
Qed.

Lemma byte_cnt_eq b : wf b → byte_cnt b.(bit_cnt) = 4 * zlen b.(bits) ∧ 4 * zlen b.(bits) < W32.
Proof.
  intros [H1 H2 H3]. unfold byte_cnt. rewrite elem_cnt_eq, <- H2 by done.
  assert (4 * zlen b.(bits) < W32) by (rewrite H2; dm_lia). rewrite u32_small by mlia. done.
Qed.

Lemma last_mask_bits b j :
  0 ≤ b.(bit_cnt) → 0 ≤ j < 32 →
  Z.testbit (last_mask b) j = (b.(bit_cnt) `mod` 32 =? 0) || (j <? b.(bit_cnt) `mod` 32).
Proof.
  intros Hc Hj. unfold last_mask, ELEM_BITS. assert (0 ≤ b.(bit_cnt) `mod` 32 < 32) by dm_lia.
  destruct (Z.eqb_spec (b.(bit_cnt) `mod` 32) 0) as [E|E]; cbn [negb orb].
  - change (u32 (-1)) with (Z.ones 32). apply Z.ones_spec_low. lia.
  - rewrite Z.shiftl_1_l. pose proof (pow2_u32 (b.(bit_cnt) `mod` 32) ltac:(lia)) as Hp.
    assert (0 < 2 ^ (b.(bit_cnt) `mod` 32)) by (apply Z.pow_pos_nonneg; lia).
    rewrite (u32_small _ Hp), u32_small by (unfold is_u32 in *; lia). rewrite Z.sub_1_r, <- Z.ones_equiv.
    destruct (Z.ltb_spec j (b.(bit_cnt) `mod` 32)).
    + by rewrite Z.ones_spec_low by lia.
    + by rewrite Z.ones_spec_high by lia.
Qed.

(** Reading a stored bitmap back into a bitmap of the same size restores the bits. *)
Lemma bitmap_read_ok {F} (read_at : Z → M F (list Z)) b b0 f f' :
  wf b → wf b0 → b0.(bit_cnt) = b.(bit_cnt) →
  read_at (byte_cnt b.(bit_cnt)) f = Ok (words_bytes b.(bits), f') → 0 < b.(bit_cnt) →
  ∃ b', bitmap_read read_at b0 f = Ok ((true, b'), f') ∧ wf b' ∧ b'.(bit_cnt) = b.(bit_cnt) ∧
    ∀ j, 0 ≤ j < b.(bit_cnt) → bit b' j = bit b j.
Proof.
  intros Hwf Hwf0 Hc Hrd Hpos. destruct (byte_cnt_eq b Hwf) as [Hbc HW].
  pose proof (wf_len b Hwf) as Hl. pose proof (wf_len b0 Hwf0) as Hl0. rewrite Hc, <- Hl in Hl0.
  unfold bitmap_read. rewrite Hc, (proj2 (Z.ltb_lt _ _) Hpos), (bind_Ok _ _ _ _ _ Hrd).
  rewrite splice_all by (rewrite !words_bytes_length; lia).
  rewrite bytes_words_bytes by apply Hwf. cbn [bit_cnt bits].
  rewrite elem_cnt_eq, <- Hl by apply Hwf. rewrite words_bytes_length, Hbc.
  replace (Z.of_nat (4 * length (bits b)) =? 4 * zlen (bits b)) with true by (symmetry; apply Z.eqb_eq; lia).
  assert (0 < zlen b.(bits)) as Hl1 by (rewrite Hl; dm_lia). rewrite u32_small by mlia.
  set (b1 := {| bit_cnt := bit_cnt b; bits := bits b |}).
  destruct (lookup_lt_is_Some_2 b.(bits) (Z.to_nat (zlen b.(bits) - 1))) as [w Hw]; [lia|].
  unfold bind, ld_elem, st_elem. cbn [bits b1]. rewrite Hw. cbn [rbind].
  change (bits b1) with (bits b).
  destruct (Z.ltb_spec (zlen (bits b) - 1) (zlen (bits b))); [|lia]. cbn [rbind snd].
  eexists. split; [done|]. split; [|split; [done|]].
  - destruct Hwf as [H1 H2 H3]. split; cbn; [done|by rewrite length_insert|].
    apply Forall_insert; [done|]. apply land_u32. by eapply (proj1 (Forall_lookup _ _) H3).
  - intros j Hj. unfold bit, elem_idx, ELEM_BITS. cbn [bits].
    destruct (decide (j `div` 32 = zlen (bits b) - 1)) as [E|E].
    + rewrite E, list_lookup_insert, decide_True by (split; [done|lia]). rewrite Hw, Z.land_spec.
      rewrite last_mask_bits by (cbn; dm_lia). cbn [bit_cnt b1].
      replace (_ || _) with true; [apply andb_true_r|]. symmetry. apply orb_true_iff.
      rewrite Z.eqb_eq, Z.ltb_lt. rewrite Hl in E. dm_lia.
    + by rewrite list_lookup_insert_ne by dm_lia.
Qed.

#[export] Instance wf_dec b : Decision (wf b).
Proof.
  refine (cast_if (decide ((0 ≤ b.(bit_cnt) ≤ 4294967264) ∧
    zlen b.(bits) = (b.(bit_cnt) + 31) `div` 32 ∧ Forall (λ w, 0 ≤ w < W32) b.(bits)))).
  - abstract (destruct_and!; by split).
  - abstract (intros []; tauto).
Defined.

(** [bitmap_scan_and_flip] is a first-fit allocator: it answers the least
    index at or after START where CNT consecutive bits equal VALUE and flips exactly
    those bits, or it answers BITMAP_ERROR, changes nothing, and no such group exists. *)
Theorem bitmap_scan_and_flip_ok b start cnt v :
  wf b → 0 ≤ start ≤ b.(bit_cnt) → 0 ≤ cnt →
  ∃ r b', bitmap_scan_and_flip start cnt v b = Ok (r, b') ∧ wf b' ∧
    ((r = BITMAP_ERROR ∧ b' = b ∧
      ∀ i, start ≤ i → i + cnt ≤ b.(bit_cnt) → ¬ all_are b i cnt v) ∨
     (start ≤ r ∧ r + cnt ≤ b.(bit_cnt) ∧ all_are b r cnt v ∧
      (∀ i, start ≤ i < r → ¬ all_are b i cnt v) ∧
      ∀ j, 0 ≤ j → bit b' j = if in_range r cnt j then negb v else bit b j)).
Proof.
  intros Hwf Hs Hc. pose proof (wf_cnt b Hwf).
  destruct (bitmap_scan_and_flip_run b start cnt v Hwf Hs Hc) as (r & b' & Hr & Hff & Hb).
  exists r, b'. split; [done|]. destruct Hff as [[-> Hno]|(H1 & H2 & H3 & H4)].
  - rewrite Z.eqb_refl in Hb. subst b'. split; [done|]. by left.
  - destruct (Z.eqb_spec r BITMAP_ERROR) as [->|]; [unfold BITMAP_ERROR in *; mlia|].
    destruct Hb as (Hw & _ & Hb). split; [done|]. right. split_and!; done.
Qed.

Lemma bitmap_scan_and_flip_ok_witness :
  let b := {| bit_cnt := 40; bits := [4294967295; 9] |} in
  wf b ∧ bitmap_scan_and_flip 0 2 false b = Ok (33, {| bit_cnt := 40; bits := [4294967295; 15] |}) ∧
  ∃ r b', bitmap_scan_and_flip 0 2 false b = Ok (r, b') ∧ wf b'.
Proof.
  intros b. assert (wf b) as Hwf by by_decide.
  split; [exact Hwf|]. split; [vm_compute; reflexivity|].
  destruct (bitmap_scan_and_flip_ok b 0 2 false Hwf) as (r & b' & H1 & H2 & _); [by_decide..|].
  exists r, b'. split; assumption.
Defined.

(** A scan for a group of zero bits answers START, whatever the bits are;
    the comment on [bitmap_scan_and_flip] says such a call returns 0. *)
Theorem bitmap_scan_zero_cnt b start v :
  wf b → 0 ≤ start ≤ b.(bit_cnt) → bitmap_scan_and_flip start 0 v b = Ok (start, b).
Proof.
  intros Hwf Hs. pose proof (wf_cnt b Hwf).
  destruct (bitmap_contains_ok b start 0 (negb v)) as (r & Hr & Hiff); [done|lia..|].
  assert (r = false) as -> by (apply Hiff; intros j Hj; lia).
  unfold bitmap_scan_and_flip. erewrite bind_Ok.
  2:{ unfold bitmap_scan. rewrite (bind_Ok _ _ b b.(bit_cnt) b) by done.
      rewrite bind_assert by (apply Z.leb_le; lia). destruct (Z.leb_spec 0 b.(bit_cnt)); [|lia].
      apply iter_break. rewrite u32_small by mlia.
      destruct (Z.leb_spec start (b.(bit_cnt) - 0)); [|lia].
      by rewrite (bind_Ok _ _ _ _ _ Hr). }
  cbn beta iota. unfold BITMAP_ERROR. destruct (Z.eqb_spec start SIZE_MAX); [mlia|]. cbn [negb].
  unfold bitmap_set_multiple. erewrite bind_Ok; [done|].
  rewrite range_asserts by mlia. done.
Qed.

Lemma bitmap_scan_zero_cnt_witness :
  let b := {| bit_cnt := 40; bits := [4294967295; 9] |} in
  bitmap_scan_and_flip 7 0 false b = Ok (7, b).
Proof. intros b. apply (bitmap_scan_zero_cnt b 7 false); by_decide. Defined.
