(* ===== verification/Str.v ===== *)
(** * Strings and memory blocks

    lib/string.c over a byte memory: a map from addresses to the bytes they hold.
    Touching an address outside the map faults.  Loops over a string get as fuel the
    number of mapped bytes, which bounds how far a pointer can walk. *)

From S2P Require Import Prelude.
Local Open Scope c_scope.

Notation mem := (gmap Z Z).

Definition ldb (p : Z) : M mem Z := λ m,
  match m !! p with Some b => Ok (b, m) | None => Err Fault end.
Definition stb (p v : Z) : M mem unit := λ m,
  match m !! p with Some _ => Ok (tt, <[p := u8 v]> m) | None => Err Fault end.

(** A loop that walks over mapped bytes. *)
Definition scan {A B} (body : A → M mem (A + B)) (a : A) : M mem B :=
  λ m, iter (S (size m)) body a m.

(** [while (size-- > 0)]. *)
Definition times {A B} (size : Z) (body : A → M mem (A + B)) (a : A) : M mem B :=
  iter (S (Z.to_nat size)) body a.

Definition nonnull_or_empty (p size : Z) : bool := negb (p =? NULL) || (size =? 0).

Definition copy_up (dst src size : Z) : M mem Z :=
  times size (λ '(dst, src, size),
    if 0 <? size then
      b <- ldb src ;; stb dst b ;; ret (inl (dst + 1, src + 1, size - 1))
    else ret (inr dst)) (dst, src, size).

Definition copy_down (dst src size : Z) : M mem Z :=
  times size (λ '(dst, src, size),
    if 0 <? size then
      b <- ldb (src - 1) ;; stb (dst - 1) b ;; ret (inl (dst - 1, src - 1, size - 1))
    else ret (inr dst)) (dst, src, size).

Definition memcpy (dst_ src_ size : Z) : M mem Z :=
  assert (nonnull_or_empty dst_ size) ;;
  assert (nonnull_or_empty src_ size) ;;
  copy_up dst_ src_ size ;;
  ret dst_.

Definition memmove (dst_ src_ size : Z) : M mem Z :=
  assert (nonnull_or_empty dst_ size) ;;
  assert (nonnull_or_empty src_ size) ;;
  if dst_ <? src_ then copy_up dst_ src_ size
  else copy_down (dst_ + size) (src_ + size) size.

Definition memcmp (a_ b_ size : Z) : M mem Z :=
  assert (nonnull_or_empty a_ size) ;;
  assert (nonnull_or_empty b_ size) ;;
  times size (λ '(a, b, size),
    if 0 <? size then
      x <- ldb a ;; y <- ldb b ;;
      if negb (x =? y) then ret (inr (if y <? x then 1 else -1))
      else ret (inl (a + 1, b + 1, size - 1))
    else ret (inr 0)) (a_, b_, size).

Definition strcmp (a_ b_ : Z) : M mem Z :=
  assert (negb (a_ =? NULL)) ;;
  assert (negb (b_ =? NULL)) ;;
  scan (λ '(a, b),
    x <- ldb a ;;
    if x =? 0 then y <- ldb b ;; ret (inr (if x <? y then -1 else if y <? x then 1 else 0))
    else
      y <- ldb b ;;
      if x =? y then ret (inl (a + 1, b + 1))
      else ret (inr (if x <? y then -1 else if y <? x then 1 else 0))) (a_, b_).

Definition memchr (block_ ch_ size : Z) : M mem Z :=
  let ch := u8 ch_ in
  assert (nonnull_or_empty block_ size) ;;
  times size (λ '(block, size),
    if 0 <? size then
      x <- ldb block ;;
      if x =? ch then ret (inr block) else ret (inl (block + 1, size - 1))
    else ret (inr NULL)) (block_, size).

Definition strchr (string c_ : Z) : M mem Z :=
  let c := u8 c_ in
  assert (negb (string =? NULL)) ;;
  scan (λ string,
    x <- ldb string ;;
    if x =? c then ret (inr string)
    else if x =? 0 then ret (inr NULL)
    else ret (inl (string + 1))) string.

Definition strcspn (string stop : Z) : M mem Z :=
  scan (λ length,
    x <- ldb (string + length) ;;
    if x =? 0 then ret (inr length)
    else
      r <- strchr stop x ;;
      if negb (r =? NULL) then ret (inr length) else ret (inl (length + 1))) 0.

Definition strpbrk (string stop : Z) : M mem Z :=
  scan (λ string,
    x <- ldb string ;;
    if x =? 0 then ret (inr NULL)
    else
      r <- strchr stop x ;;
      if negb (r =? NULL) then ret (inr string) else ret (inl (string + 1))) string.

Definition strrchr (string c_ : Z) : M mem Z :=
  let c := u8 c_ in
  scan (λ '(string, p),
    x <- ldb string ;;
    if x =? 0 then ret (inr p)
    else ret (inl (string + 1, if x =? c then string else p))) (string, NULL).

Definition strspn (string skip : Z) : M mem Z :=
  scan (λ length,
    x <- ldb (string + length) ;;
    if x =? 0 then ret (inr length)
    else
      r <- strchr skip x ;;
      if r =? NULL then ret (inr length) else ret (inl (length + 1))) 0.

Definition strlen (string : Z) : M mem Z :=
  assert (negb (string =? NULL)) ;;
  p <- scan (λ p,
    x <- ldb p ;;
    if x =? 0 then ret (inr p) else ret (inl (p + 1))) string ;;
  ret (p - string).

Definition strnlen (string maxlen : Z) : M mem Z :=
  scan (λ length,
    x <- ldb (string + length) ;;
    if x =? 0 then ret (inr length)
    else if length <? maxlen then ret (inl (length + 1)) else ret (inr length)) 0.

Definition strstr (haystack needle : Z) : M mem Z :=
  haystack_len <- strlen haystack ;;
  needle_len <- strlen needle ;;
  if needle_len <=? haystack_len then
    iter (S (S (Z.to_nat haystack_len))) (λ i,
      if i <=? haystack_len - needle_len then
        c <- memcmp (haystack + i) needle needle_len ;;
        if c =? 0 then ret (inr (haystack + i)) else ret (inl (i + 1))
      else ret (inr NULL)) 0
  else ret NULL.

(** Answers the token and the new [*save_ptr]. *)
Definition strtok_r (s delimiters save_ptr : Z) : M mem (Z * Z) :=
  assert (negb (delimiters =? NULL)) ;;
  let s := if s =? NULL then save_ptr else s in
  assert (negb (s =? NULL)) ;;
  start <- scan (λ s,
    x <- ldb s ;;
    r <- strchr delimiters x ;;
    if negb (r =? NULL) then
      if x =? 0 then ret (inr (inr s)) else ret (inl (s + 1))
    else ret (inr (inl s))) s ;;
  match start with
  | inr s => ret (NULL, s)
  | inl token =>
      s <- scan (λ s,
        x <- ldb s ;;
        r <- strchr delimiters x ;;
        if r =? NULL then ret (inl (s + 1)) else ret (inr s)) token ;;
      x <- ldb s ;;
      if negb (x =? 0) then
        stb s 0 ;; ret (token, s + 1)
      else ret (token, s)
  end.

Definition memset (dst_ value size : Z) : M mem Z :=
  assert (nonnull_or_empty dst_ size) ;;
  times size (λ '(dst, size),
    if 0 <? size then stb dst value ;; ret (inl (dst + 1, size - 1)) else ret (inr tt)) (dst_, size) ;;
  ret dst_.

Definition strlcpy (dst src size : Z) : M mem Z :=
  assert (negb (dst =? NULL)) ;;
  assert (negb (src =? NULL)) ;;
  src_len <- strlen src ;;
  (if 0 <? size then
     let dst_len := size - 1 in
     let dst_len := if src_len <? dst_len then src_len else dst_len in
     memcpy dst src dst_len ;;
     stb (dst + dst_len) 0
   else ret tt) ;;
  ret src_len.

Definition strlcat (dst src size : Z) : M mem Z :=
  assert (negb (dst =? NULL)) ;;
  assert (negb (src =? NULL)) ;;
  src_len <- strlen src ;;
  dst_len <- strlen dst ;;
  (if (0 <? size) && (dst_len <? size) then
     let copy_cnt := size - dst_len - 1 in
     let copy_cnt := if src_len <? copy_cnt then src_len else copy_cnt in
     memcpy (dst + dst_len) src copy_cnt ;;
     stb (dst + dst_len + copy_cnt) 0
   else ret tt) ;;
  ret (src_len + dst_len).

(** ** Blocks of memory *)

Definition bytes_at (m : mem) (p : Z) (bs : list Z) : Prop :=
  ∀ i b, bs !! i = Some b → m !! (p + Z.of_nat i) = Some b.

(** A null-terminated string of bytes. *)
Record cstr (m : mem) (p : Z) (s : list Z) : Prop := {
  cs_bytes : bytes_at m p (s ++ [0]);
  cs_nozero : 0 ∉ s;
  cs_u8 : Forall is_u8 s;
}.

Lemma bytes_at_cons m p b bs :
  bytes_at m p (b :: bs) ↔ m !! p = Some b ∧ bytes_at m (p + 1) bs.
Proof.
  split.
  - intros H. split; [rewrite <- (Z.add_0_r p); by apply (H 0%nat)|].
    intros i c Hi. rewrite <- (H (S i) c Hi). f_equal. lia.
  - intros [H1 H2] [|i] c Hi; cbn in Hi.
    + injection Hi as <-. by rewrite Z.add_0_r.
    + rewrite <- (H2 i c Hi). f_equal. lia.
Qed.

Lemma bytes_at_app m p bs cs :
  bytes_at m p (bs ++ cs) ↔ bytes_at m p bs ∧ bytes_at m (p + zlen bs) cs.
Proof.
  revert p. induction bs as [|b bs IH]; intros p.
  - cbn. rewrite Z.add_0_r. split; [|tauto]. intros H. split; [|done]. by intros ? ? ?.
  - cbn [app]. rewrite !bytes_at_cons, IH. cbn [length].
    replace (p + 1 + zlen bs) with (p + Z.of_nat (S (length bs))) by lia. tauto.
Qed.

Lemma bytes_at_insert m p bs a v :
  bytes_at m p bs → (a < p ∨ p + zlen bs ≤ a) → bytes_at (<[a := v]> m) p bs.
Proof.
  intros H Ha i b Hi. pose proof (lookup_lt_Some _ _ _ Hi). rewrite lookup_insert_ne by lia. auto.
Qed.

(** The memory a block copy leaves behind. *)
Fixpoint store (m : mem) (p : Z) (bs : list Z) : mem :=
  match bs with
  | [] => m
  | b :: bs => store (<[p := b]> m) (p + 1) bs
  end.

Lemma store_lookup bs : ∀ m p a,
  store m p bs !! a =
  if (p <=? a) && (a <? p + zlen bs) then bs !! Z.to_nat (a - p) else m !! a.
Proof.
  induction bs as [|b bs IH]; intros m p a; cbn [store length].
  { repeat zcase; done || lia. }
  rewrite IH. destruct (decide (a = p)) as [->|Hne].
  - rewrite Z.sub_diag, lookup_insert_eq. repeat zcase; cbn; try lia. done.
  - rewrite lookup_insert_ne by done.
    repeat zcase; cbn [andb]; try lia; try done.
    replace (Z.to_nat (a - p)) with (S (Z.to_nat (a - (p + 1)))) by lia. done.
Qed.

Lemma store_bytes_at m p bs : bytes_at (store m p bs) p bs.
Proof.
  intros i b Hi. pose proof (lookup_lt_Some _ _ _ Hi). rewrite store_lookup.
  repeat zcase; cbn [andb]; try lia. by replace (Z.to_nat (p + Z.of_nat i - p)) with i by lia.
Qed.

Lemma store_out m p bs q cs :
  bytes_at m q cs → (q + zlen cs ≤ p ∨ p + zlen bs ≤ q) → bytes_at (store m p bs) q cs.
Proof.
  intros H Hd i b Hi. pose proof (lookup_lt_Some _ _ _ Hi). rewrite store_lookup.
  repeat zcase; cbn [andb]; try lia; by apply H.
Qed.

Lemma store_snoc m p bs b : store (<[p + zlen bs := b]> m) p bs = store m p (bs ++ [b]).
Proof.
  apply map_eq. intros a. rewrite !store_lookup, length_app. cbn [length].
  destruct (decide (a = p + zlen bs)) as [->|Hne].
  - rewrite lookup_insert_eq. repeat zcase; cbn [andb]; try lia.
    rewrite list_lookup_middle; [done|lia].
  - rewrite lookup_insert_ne by done. repeat zcase; cbn [andb]; try lia; try done.
    by rewrite lookup_app_l by lia.
Qed.

Definition mapped (m : mem) (p n : Z) : Prop := ∀ a, p ≤ a < p + n → is_Some (m !! a).

Lemma mapped_insert m p n a v : mapped m p n → mapped (<[a := v]> m) p n.
Proof. intros H b Hb. apply lookup_insert_is_Some'. right. auto. Qed.

Lemma ldb_ok m p b : m !! p = Some b → ldb p m = Ok (b, m).
Proof. unfold ldb. by intros ->. Qed.
Lemma stb_ok m p v : is_Some (m !! p) → is_u8 v → stb p v m = Ok (tt, <[p := v]> m).
Proof. unfold stb. intros [x ->] Hv. by rewrite u8_small. Qed.

Lemma copy_up_loop bs : ∀ n m dst src,
  bytes_at m src bs → mapped m dst (zlen bs) → Forall is_u8 bs →
  dst ≤ src ∨ src + zlen bs ≤ dst → (length bs < n)%nat →
  iter n (λ '(dst, src, size),
    if 0 <? size then
      b <- ldb src ;; stb dst b ;; ret (inl (dst + 1, src + 1, size - 1))
    else ret (inr dst)) (dst, src, zlen bs) m = Ok (dst + zlen bs, store m dst bs).
Proof.
  induction bs as [|b bs IH]; intros n m dst src Hb Hm Hu Hd Hn; destruct n as [|n]; try (cbn in Hn; lia).
  - erewrite iter_step; [|reflexivity]. cbn. by rewrite Z.add_0_r.
  - apply bytes_at_cons in Hb as [Hb Hbs]. inversion Hu as [|? ? Hu1 Hu2]; subst. cbn [length] in *.
    erewrite iter_continue.
    2:{ cbv beta iota. destruct (Z.ltb_spec 0 (Z.of_nat (S (length bs)))); [|lia].
        rewrite (bind_Ok _ _ _ _ _ (ldb_ok _ _ _ Hb)).
        rewrite (bind_Ok _ _ _ _ _ (stb_ok m dst b (Hm dst ltac:(lia)) Hu1)). reflexivity. }
    replace (Z.of_nat (S (length bs)) - 1) with (zlen bs) by lia.
    rewrite IH; [cbn [store]; do 2 f_equal; lia|..|lia|lia].
    + apply bytes_at_insert; [done|lia].
    + apply mapped_insert. intros a Ha. apply Hm. lia.
    + done.
Qed.

Lemma copy_down_loop bs : ∀ n m dst src,
  bytes_at m src bs → mapped m dst (zlen bs) → Forall is_u8 bs →
  src ≤ dst → (length bs < n)%nat →
  iter n (λ '(dst, src, size),
    if 0 <? size then
      b <- ldb (src - 1) ;; stb (dst - 1) b ;; ret (inl (dst - 1, src - 1, size - 1))
    else ret (inr dst)) (dst + zlen bs, src + zlen bs, zlen bs) m = Ok (dst, store m dst bs).
Proof.
  induction bs as [|b bs IH] using rev_ind; intros n m dst src Hb Hm Hu Hd Hn;
    destruct n as [|n]; try (cbn in Hn; lia).
  - erewrite iter_step; [|reflexivity]. cbn. by rewrite Z.add_0_r.
  - apply bytes_at_app in Hb as [Hbs Hb]. apply bytes_at_cons in Hb as [Hb _].
    apply Forall_app in Hu as [Hu2 Hu1]. rewrite Forall_singleton in Hu1.
    rewrite length_app in *. cbn [length] in *.
    erewrite iter_continue.
    2:{ cbv beta iota. destruct (Z.ltb_spec 0 (Z.of_nat (length bs + 1))); [|lia].
        replace (src + Z.of_nat (length bs + 1) - 1) with (src + zlen bs) by lia.
        replace (dst + Z.of_nat (length bs + 1) - 1) with (dst + zlen bs) by lia.
        rewrite (bind_Ok _ _ _ _ _ (ldb_ok _ _ _ Hb)).
        rewrite (bind_Ok _ _ _ _ _ (stb_ok m (dst + zlen bs) b (Hm (dst + zlen bs) ltac:(lia)) Hu1)).
        replace (Z.of_nat (length bs + 1) - 1) with (zlen bs) by lia. reflexivity. }
    rewrite IH; [by rewrite store_snoc|..|lia|lia].
    + apply bytes_at_insert; [done|lia].
    + apply mapped_insert. intros a Ha. apply Hm. lia.
    + done.
Qed.

Lemma bytes_at_size bs : ∀ m p, bytes_at m p bs → (length bs ≤ size m)%nat.
Proof.
  induction bs as [|b bs IH]; intros m p H; [cbn; lia|]. apply bytes_at_cons in H as [H1 H2].
  assert (bytes_at (delete p m) (p + 1) bs) as H3.
  { intros i c Hi. rewrite lookup_delete_ne by lia. by apply H2. }
  apply IH in H3. rewrite map_size_delete_Some in H3 by (by rewrite H1).
  assert (size m ≠ 0%nat); [|cbn; lia]. intros Hz%map_size_empty_inv. subst. by rewrite lookup_empty in H1.
Qed.

Lemma memset_loop v : ∀ n k m dst,
  mapped m dst (Z.of_nat k) → is_u8 v → (k < n)%nat →
  iter n (λ '(dst, size),
    if 0 <? size then stb dst v ;; ret (inl (dst + 1, size - 1)) else ret (inr tt)) (dst, Z.of_nat k) m =
  Ok (tt, store m dst (replicate k v)).
Proof.
  induction n as [|n IH]; intros k m dst Hm Hv Hn; [lia|]. destruct k as [|k].
  { erewrite iter_step; [|reflexivity]. done. }
  erewrite iter_continue.
  2:{ cbv beta iota. destruct (Z.ltb_spec 0 (Z.of_nat (S k))); [|lia].
      rewrite (bind_Ok _ _ _ _ _ (stb_ok m dst v (Hm dst ltac:(lia)) Hv)). reflexivity. }
  replace (Z.of_nat (S k) - 1) with (Z.of_nat k) by lia. rewrite IH; [done|..|done|lia].
  apply mapped_insert. intros a Ha. apply Hm. lia.
Qed.

(** [memset] fills its block and returns it. *)
Lemma memset_ok m dst v size :
  mapped m dst size → is_u8 v → 0 ≤ size → dst ≠ NULL →
  memset dst v size m = Ok (dst, store m dst (replicate (Z.to_nat size) v)).
Proof.
  intros Hm Hv Hs Hd. unfold memset, nonnull_or_empty.
  rewrite bind_assert by (rewrite (proj2 (Z.eqb_neq _ _) Hd); repeat case_match; done || lia).
  replace size with (Z.of_nat (Z.to_nat size)) at 1 2 by lia. unfold times.
  erewrite bind_Ok; [reflexivity|].
  erewrite memset_loop; [reflexivity|by replace (Z.of_nat (Z.to_nat size)) with size by lia|done|lia].
Qed.

Lemma mapped_store m p bs q n : mapped m q n → mapped (store m p bs) q n.
Proof.
  revert m p. induction bs as [|b bs IH]; intros m p H; [done|]. apply IH. by apply mapped_insert.
Qed.

(** The bytes of a mapped block. *)
Definition block (m : mem) (p n : Z) : list Z := (λ a, default 0 (m !! a)) <$> seqZ p n.

Lemma block_length m p n : 0 ≤ n → zlen (block m p n) = n.
Proof. intros. unfold block. rewrite length_fmap, length_seqZ. lia. Qed.

Lemma block_bytes_at m p n : mapped m p n → bytes_at m p (block m p n).
Proof.
  intros Hm i b Hi. apply list_lookup_fmap_Some in Hi as (a & -> & Ha).
  apply lookup_seqZ in Ha as [-> Hi]. destruct (Hm (p + Z.of_nat i)) as [x Hx]; [lia|]. by rewrite Hx.
Qed.

Lemma block_lookup m p n a :
  mapped m p n → p ≤ a < p + n → block m p n !! Z.to_nat (a - p) = m !! a.
Proof.
  intros Hm Ha. unfold block. rewrite list_lookup_fmap, lookup_seqZ_lt by lia. cbn.
  replace (p + Z.of_nat (Z.to_nat (a - p))) with a by lia. by destruct (Hm a Ha) as [x ->].
Qed.

Definition bytes_only (m : mem) : Prop := map_Forall (λ _ b, is_u8 b) m.

Lemma block_u8 m p n : mapped m p n → bytes_only m → Forall is_u8 (block m p n).
Proof.
  intros Hm Hu. apply Forall_forall. intros b Hb. apply list_elem_of_lookup in Hb as [i Hi].
  eapply Hu. by apply (block_bytes_at m p n Hm).
Qed.

(** The memory after moving [n] bytes from [src] to [dst]. *)
Definition moved (m : mem) (dst src n : Z) : mem := store m dst (block m src n).

Lemma moved_lookup m dst src n a :
  0 ≤ n → mapped m src n →
  moved m dst src n !! a =
  if (dst <=? a) && (a <? dst + n) then m !! (src + (a - dst)) else m !! a.
Proof.
  intros Hn Hm. unfold moved. rewrite store_lookup, block_length by done.
  destruct ((dst <=? a) && (a <? dst + n)) eqn:E; [|done].
  apply andb_true_iff in E as [H1%Z.leb_le H2%Z.ltb_lt].
  rewrite <- (block_lookup m src n (src + (a - dst))) by (done || lia). f_equal. lia.
Qed.

Section Copy.
Context (m : mem) (dst src n : Z).
Context (Hn : 0 ≤ n) (Hsrc : mapped m src n) (Hdst : mapped m dst n) (Hu : bytes_only m).
Context (Hd0 : dst ≠ NULL) (Hs0 : src ≠ NULL).

Lemma copy_asserts {A} (k : M mem A) :
  (assert (nonnull_or_empty dst n) ;; assert (nonnull_or_empty src n) ;; k) m = k m.
Proof.
  unfold nonnull_or_empty. rewrite (proj2 (Z.eqb_neq _ _) Hd0), (proj2 (Z.eqb_neq _ _) Hs0).
  by rewrite !bind_assert.
Qed.

Lemma copy_up_ok :
  dst ≤ src ∨ src + n ≤ dst → copy_up dst src n m = Ok (dst + n, moved m dst src n).
Proof.
  intros Hd. unfold copy_up, times.
  pose proof (copy_up_loop (block m src n) (S (Z.to_nat n)) m dst src) as H.
  rewrite block_length in H by done. apply H; [by apply block_bytes_at|done|by apply block_u8|done|].
  pose proof (block_length m src n Hn). lia.
Qed.

Lemma copy_down_ok : src ≤ dst → copy_down (dst + n) (src + n) n m = Ok (dst, moved m dst src n).
Proof.
  intros Hd. unfold copy_down, times.
  pose proof (copy_down_loop (block m src n) (S (Z.to_nat n)) m dst src) as H.
  rewrite block_length in H by done. apply H; [by apply block_bytes_at|done|by apply block_u8|done|].
  pose proof (block_length m src n Hn). lia.
Qed.

Lemma memcpy_ok :
  dst ≤ src ∨ src + n ≤ dst → memcpy dst src n m = Ok (dst, moved m dst src n).
Proof.
  intros Hd. unfold memcpy. rewrite copy_asserts. by rewrite (bind_Ok _ _ _ _ _ (copy_up_ok Hd)).
Qed.

Lemma memmove_run :
  memmove dst src n m = Ok (if dst <? src then dst + n else dst, moved m dst src n).
Proof.
  unfold memmove. rewrite copy_asserts. destruct (Z.ltb_spec dst src).
  - apply copy_up_ok. lia.
  - apply copy_down_ok. lia.
Qed.
End Copy.

(** ** Strings *)

Lemma cstr_size m p s : cstr m p s → (length s < size m)%nat.
Proof. intros [H _ _]. apply bytes_at_size in H. rewrite length_app in H. cbn in H. lia. Qed.

Lemma cstr_tail m p c s : cstr m p (c :: s) → m !! p = Some c ∧ c ≠ 0 ∧ is_u8 c ∧ cstr m (p + 1) s.
Proof.
  intros [H1 H2 H3]. cbn [app] in H1. apply bytes_at_cons in H1 as [? ?].
  apply not_elem_of_cons in H2 as [? ?]. inversion H3; subst. split_and!; [done|congruence|done|by split].
Qed.

Lemma cstr_nil m p : cstr m p [] → m !! p = Some 0.
Proof. intros [H _ _]. by apply bytes_at_cons in H as [? _]. Qed.

Lemma strlen_ok m p s : cstr m p s → p ≠ NULL → strlen p m = Ok (zlen s, m).
Proof.
  intros Hs Hp. unfold strlen. rewrite (proj2 (Z.eqb_neq _ _) Hp), bind_assert by done.
  assert (∀ n p, cstr m p s → (length s < n)%nat →
    iter n (λ p, x <- ldb p ;; if x =? 0 then ret (inr p) else ret (inl (p + 1))) p m
    = Ok (p + zlen s, m)) as Hloop.
  { clear p Hs Hp. induction s as [|c s IH]; intros n p Hs Hn; destruct n as [|n]; try (cbn in Hn; lia).
    - apply cstr_nil in Hs. erewrite iter_step; [|rewrite (bind_Ok _ _ _ _ _ (ldb_ok _ _ _ Hs)); reflexivity].
      cbn. by rewrite Z.add_0_r.
    - apply cstr_tail in Hs as (Hc & Hc0 & _ & Hs).
      erewrite iter_step; [|rewrite (bind_Ok _ _ _ _ _ (ldb_ok _ _ _ Hc)); by rewrite (proj2 (Z.eqb_neq _ _) Hc0)].
      cbn [length] in *. rewrite IH; [|done|lia]. do 2 f_equal. lia. }
  erewrite bind_Ok; [|apply Hloop; [done|apply cstr_size in Hs; lia]].
  unfold ret. do 2 f_equal. lia.
Qed.

(** Searching a string for a byte; the terminator is found too. *)
Lemma strchr_ok m p s c :
  cstr m p s → 0 < p → is_u8 c →
  ∃ r, strchr p c m = Ok (r, m) ∧ (r = NULL ↔ c ∉ s ∧ c ≠ 0).
Proof.
  intros Hs Hp Hc. unfold strchr. rewrite u8_small by done.
  rewrite (proj2 (Z.eqb_neq p NULL)), bind_assert by (done || mlia).
  assert (∀ n p, cstr m p s → 0 < p → (length s < n)%nat →
    ∃ r, iter n (λ string, x <- ldb string ;;
      if x =? c then ret (inr string) else if x =? 0 then ret (inr NULL) else ret (inl (string + 1))) p m
      = Ok (r, m) ∧ (r = NULL ↔ c ∉ s ∧ c ≠ 0)) as Hloop.
  { clear p Hs Hp. induction s as [|x s IH]; intros n p Hs Hp Hn; destruct n as [|n]; try (cbn in Hn; lia).
    - apply cstr_nil in Hs. destruct (decide (c = 0)) as [->|Hne].
      + exists p. split; [|mc_unfold; split; [lia|tauto]]. by erewrite iter_step;
          [|rewrite (bind_Ok _ _ _ _ _ (ldb_ok _ _ _ Hs)); reflexivity].
      + exists NULL. split; [|split; [intros _; split; [apply not_elem_of_nil|done]|done]].
        by erewrite iter_step; [|rewrite (bind_Ok _ _ _ _ _ (ldb_ok _ _ _ Hs)), (proj2 (Z.eqb_neq 0 c)) by lia; reflexivity].
    - apply cstr_tail in Hs as (Hx & Hx0 & _ & Hs). destruct (decide (x = c)) as [->|Hne].
      + exists p. split; [|mc_unfold; split; [lia|intros [H _]; exfalso; apply H; by left]].
        by erewrite iter_step; [|rewrite (bind_Ok _ _ _ _ _ (ldb_ok _ _ _ Hx)), Z.eqb_refl; reflexivity].
      + destruct (IH n (p + 1) Hs) as (r & Hr & Hiff); [lia|cbn in Hn; lia|]. exists r. split.
        * erewrite iter_continue; [exact Hr|]. rewrite (bind_Ok _ _ _ _ _ (ldb_ok _ _ _ Hx)).
          by rewrite (proj2 (Z.eqb_neq x c)), (proj2 (Z.eqb_neq x 0)).
        * rewrite Hiff, not_elem_of_cons. naive_solver. }
  apply Hloop; [done..|]. apply cstr_size in Hs. lia.
Qed.

(** ** Tokenising *)

Fixpoint span (f : Z → bool) (s : list Z) : list Z * list Z :=
  match s with
  | [] => ([], [])
  | c :: s' => if f c then let '(a, b) := span f s' in (c :: a, b) else ([], s)
  end.

Definition delim (ds : list Z) (c : Z) : bool := bool_decide (c ∈ ds).

Lemma span_app f s a b :
  span f s = (a, b) → s = a ++ b ∧ Forall (λ c, f c = true) a ∧
  match b with [] => True | c :: _ => f c = false end.
Proof.
  revert a b. induction s as [|c s IH]; intros a b; cbn; [by intros [= <- <-]|].
  destruct (f c) eqn:E; [|by intros [= <- <-]]. destruct (span f s) as [a' b'] eqn:Es.
  intros [= <- <-]. destruct (IH a' b' eq_refl) as (-> & ? & ?). split_and!; [done|by constructor|done].
Qed.

Lemma cstr_app m p a b : cstr m p (a ++ b) → cstr m (p + zlen a) b.
Proof.
  intros [H1 H2 H3]. rewrite <- app_assoc in H1. apply bytes_at_app in H1 as [_ ?].
  apply Forall_app in H3 as [_ ?]. split; [done| |done]. intros ?. apply H2, elem_of_app. by right.
Qed.

Section Tokens.
Context (m : mem) (dp : Z) (ds : list Z) (Hds : cstr m dp ds) (Hdp : 0 < dp).

Lemma delim_test x :
  is_u8 x → ∃ r, strchr dp x m = Ok (r, m) ∧ (r =? NULL) = negb (delim ds x || (x =? 0)).
Proof.
  intros Hx. destruct (strchr_ok m dp ds x Hds Hdp Hx) as (r & Hr & Hiff). exists r. split; [done|].
  unfold delim. destruct (Z.eqb_spec r NULL) as [E|E].
  - apply Hiff in E as [H1 H2]. rewrite bool_decide_eq_false_2 by done. by rewrite (proj2 (Z.eqb_neq x 0)).
  - destruct (bool_decide_reflect (x ∈ ds)); [done|]. destruct (Z.eqb_spec x 0); [done|].
    exfalso. by apply E, Hiff.
Qed.

Lemma skip_loop s : ∀ n p,
  cstr m p s → (length s < n)%nat →
  iter n (λ s,
    x <- ldb s ;;
    r <- strchr dp x ;;
    if negb (r =? NULL) then
      if x =? 0 then ret (inr (inr s)) else ret (inl (s + 1))
    else ret (inr (inl s))) p m
  = Ok (match (span (delim ds) s).2 with
        | [] => inr (p + zlen s)
        | _ => inl (p + zlen (span (delim ds) s).1)
        end, m).
Proof.
  induction s as [|c s IH]; intros n p Hs Hn; destruct n as [|n]; try (cbn in Hn; lia).
  - apply cstr_nil in Hs. destruct (delim_test 0) as (r & Hr & E); [mlia|]. rewrite orb_true_r in E.
    erewrite iter_step; [|rewrite (bind_Ok _ _ _ _ _ (ldb_ok _ _ _ Hs)), (bind_Ok _ _ _ _ _ Hr), E; reflexivity].
    cbn. by rewrite Z.add_0_r.
  - apply cstr_tail in Hs as (Hc & Hc0 & Hu & Hs). destruct (delim_test c Hu) as (r & Hr & E).
    rewrite (proj2 (Z.eqb_neq c 0) Hc0), orb_false_r in E. cbn [span]. destruct (delim ds c) eqn:Ed.
    + erewrite iter_continue.
      2:{ rewrite (bind_Ok _ _ _ _ _ (ldb_ok _ _ _ Hc)), (bind_Ok _ _ _ _ _ Hr), E.
          cbn [negb]. rewrite (proj2 (Z.eqb_neq c 0) Hc0). reflexivity. }
      cbn [length] in *. rewrite IH; [|done|lia]. destruct (span (delim ds) s) as [a [|b bs]]; cbn [fst snd length].
      * do 3 f_equal. lia.
      * do 3 f_equal. lia.
    + erewrite iter_step; [|rewrite (bind_Ok _ _ _ _ _ (ldb_ok _ _ _ Hc)), (bind_Ok _ _ _ _ _ Hr), E; reflexivity].
      cbn. by rewrite Z.add_0_r.
Qed.

Lemma word_loop s : ∀ n p,
  cstr m p s → (length s < n)%nat →
  iter n (λ s,
        x <- ldb s ;;
        r <- strchr dp x ;;
        if r =? NULL then ret (inl (s + 1)) else ret (inr s)) p m
  = Ok (p + zlen (span (λ c, negb (delim ds c)) s).1, m).
Proof.
  induction s as [|c s IH]; intros n p Hs Hn; destruct n as [|n]; try (cbn in Hn; lia).
  - apply cstr_nil in Hs. destruct (delim_test 0) as (r & Hr & E); [mlia|]. rewrite orb_true_r in E.
    erewrite iter_step; [|rewrite (bind_Ok _ _ _ _ _ (ldb_ok _ _ _ Hs)), (bind_Ok _ _ _ _ _ Hr), E; reflexivity].
    cbn. by rewrite Z.add_0_r.
  - apply cstr_tail in Hs as (Hc & Hc0 & Hu & Hs). destruct (delim_test c Hu) as (r & Hr & E).
    rewrite (proj2 (Z.eqb_neq c 0) Hc0), orb_false_r in E. cbn [span]. destruct (delim ds c) eqn:Ed.
    + erewrite iter_step; [|rewrite (bind_Ok _ _ _ _ _ (ldb_ok _ _ _ Hc)), (bind_Ok _ _ _ _ _ Hr), E; reflexivity].
      cbn. by rewrite Z.add_0_r.
    + erewrite iter_continue.
      2:{ rewrite (bind_Ok _ _ _ _ _ (ldb_ok _ _ _ Hc)), (bind_Ok _ _ _ _ _ Hr), E. reflexivity. }
      cbn [length] in *. rewrite IH; [|done|lia].
      destruct (span (λ c, negb (delim ds c)) s) as [a b]; cbn [fst negb length]. do 2 f_equal. lia.
Qed.

(** One call: skip delimiters, take a word, cut the string behind it. *)
Lemma strtok_r_run p save s :
  cstr m (if p =? NULL then save else p) s → 0 < (if p =? NULL then save else p) →
  let q := if p =? NULL then save else p in
  let '(pre, rest) := span (delim ds) s in
  let '(w, rest2) := span (λ c, negb (delim ds c)) rest in
  let tok := q + zlen pre in
  strtok_r p dp save m =
  Ok (match rest, rest2 with
      | [], _ => ((NULL, q + zlen s), m)
      | _, [] => ((tok, tok + zlen w), m)
      | _, _ :: _ => ((tok, tok + zlen w + 1), <[tok + zlen w := 0]> m)
      end).
Proof.
  set (q := if p =? NULL then save else p). intros Hs Hq.
  assert ((length s < S (size m))%nat) as Hfuel by (apply cstr_size in Hs; lia).
  pose proof (skip_loop s (S (size m)) q Hs Hfuel) as Hskip.
  destruct (span (delim ds) s) as [pre rest] eqn:E1.
  destruct (span (λ c, negb (delim ds c)) rest) as [w rest2] eqn:E2. cbn [fst snd] in Hskip.
  apply span_app in E1 as (-> & _ & Hr). unfold strtok_r.
  rewrite (proj2 (Z.eqb_neq dp NULL)), bind_assert by (done || mlia). fold q.
  rewrite (proj2 (Z.eqb_neq q NULL)), bind_assert by (done || mlia).
  erewrite bind_Ok; [|exact Hskip]. destruct rest as [|c rest]; [done|].
  apply cstr_app in Hs as Hs2. rewrite length_app in Hfuel.
  pose proof (word_loop (c :: rest) (S (size m)) (q + zlen pre) Hs2 ltac:(lia)) as Hword.
  rewrite E2 in Hword. cbn [fst] in Hword. cbn beta iota. erewrite bind_Ok; [|exact Hword].
  apply span_app in E2 as (E2 & _ & Hd). rewrite E2 in Hs2. apply cstr_app in Hs2.
  destruct rest2 as [|d rest2].
  - apply cstr_nil in Hs2. by rewrite (bind_Ok _ _ _ _ _ (ldb_ok _ _ _ Hs2)).
  - apply cstr_tail in Hs2 as (Hd1 & Hd0 & _ & _). rewrite (bind_Ok _ _ _ _ _ (ldb_ok _ _ _ Hd1)).
    rewrite (proj2 (Z.eqb_neq d 0) Hd0). cbn [negb].
    erewrite bind_Ok; [|apply stb_ok; [by rewrite Hd1|mlia]]. done.
Qed.
End Tokens.

(** The calling pattern of the comment on [strtok_r]: the string first, then null. *)
Fixpoint tokenize (fuel : nat) (s dp save : Z) : M mem (list Z) :=
  match fuel with
  | O => fail OutOfFuel
  | S fuel =>
      r <- strtok_r s dp save ;;
      if r.1 =? NULL then ret []
      else
        rest <- tokenize fuel NULL dp r.2 ;;
        ret (r.1 :: rest)
  end.

(** The maximal delimiter-free pieces of a string. *)
Fixpoint pieces (ds cur s : list Z) : list (list Z) :=
  match s with
  | [] => match cur with [] => [] | _ => [cur] end
  | c :: s' =>
      if delim ds c then
        match cur with [] => pieces ds [] s' | _ => cur :: pieces ds [] s' end
      else pieces ds (cur ++ [c]) s'
  end.

Lemma pieces_skip ds pre s :
  Forall (λ c, delim ds c = true) pre → pieces ds [] (pre ++ s) = pieces ds [] s.
Proof. induction 1 as [|c pre Hc _ IH]; [done|]. cbn. by rewrite Hc. Qed.

Lemma pieces_word ds w s : ∀ cur,
  Forall (λ c, negb (delim ds c) = true) w → pieces ds cur (w ++ s) = pieces ds (cur ++ w) s.
Proof.
  induction w as [|c w IH]; intros cur Hw; [by rewrite app_nil_r|]. inversion Hw as [|? ? Hc Hw']; subst.
  apply negb_true_iff in Hc. cbn. rewrite Hc, IH by done. by rewrite <- app_assoc.
Qed.

Lemma cstr_frame m m' p s :
  cstr m p s → (∀ a, p ≤ a ≤ p + zlen s → m' !! a = m !! a) → cstr m' p s.
Proof.
  intros [H1 H2 H3] Ha. split; [|done..]. intros i b Hi. pose proof (lookup_lt_Some _ _ _ Hi) as Hl.
  rewrite length_app in Hl. cbn in Hl. rewrite Ha by lia. by apply H1.
Qed.

(** A word cut out by writing the terminator behind it. *)
Lemma cstr_cut m p w d s :
  cstr m p (w ++ d :: s) →
  cstr (<[p + zlen w := 0]> m) p w ∧ cstr (<[p + zlen w := 0]> m) (p + zlen w + 1) s.
Proof.
  intros Hs. split.
  - destruct Hs as [H1 H2 H3]. rewrite <- app_assoc in H1. apply bytes_at_app in H1 as [H1 _].
    apply Forall_app in H3 as [? _]. split; [|intros ?; apply H2, elem_of_app; by left|done].
    apply bytes_at_app. split; [apply bytes_at_insert; [done|lia]|].
    apply bytes_at_cons. split; [apply lookup_insert_eq|]. intros ? ? ?. done.
  - apply cstr_app in Hs. apply cstr_tail in Hs as (_ & _ & _ & Hs).
    eapply cstr_frame; [exact Hs|]. intros a Ha. apply lookup_insert_ne. lia.
Qed.

Ltac null_start := cbv zeta; change (NULL =? NULL) with true; cbv iota.

Lemma tokenize_run ds dp : ∀ n m p save s,
  (length s < n)%nat → cstr m dp ds → 0 < dp →
  let q := if p =? NULL then save else p in
  cstr m q s → 0 < q → dp + zlen ds < q ∨ q + zlen s < dp →
  ∃ ps m', tokenize n p dp save m = Ok (ps, m') ∧ Forall2 (cstr m') ps (pieces ds [] s) ∧
    (∀ a, a < q ∨ q + zlen s ≤ a → m' !! a = m !! a).
Proof.
  induction n as [|n IH]; intros m p save s Hn Hds Hdp q Hs Hq Hdis; [lia|]. cbn [tokenize].
  pose proof (strtok_r_run m dp ds Hds Hdp p save s Hs Hq) as Hrun. cbn zeta in Hrun. fold q in Hrun.
  destruct (span (delim ds) s) as [pre rest] eqn:E1.
  destruct (span (λ c, negb (delim ds c)) rest) as [w rest2] eqn:E2.
  apply span_app in E1 as (-> & Hpre & Hr0), E2 as (-> & Hw & Hr2).
  rewrite pieces_skip by done. rewrite pieces_word by done. cbn [app].
  apply cstr_app in Hs as Hs2. rewrite !length_app in *.
  destruct (w ++ rest2) as [|c r] eqn:Ewr.
  { apply app_eq_nil in Ewr as [-> ->]. exists [], m. rewrite (bind_Ok _ _ _ _ _ Hrun). done. }
  assert (w ≠ []) as Hw0.
  { intros ->. cbn in Ewr. subst rest2. apply negb_false_iff in Hr2. congruence. }
  destruct rest2 as [|d rest2]; cbn [pieces].
  - rewrite app_nil_r in *. subst w.
    destruct (IH m NULL (q + zlen pre + zlen (c :: r)) []) as (ps & m' & Ht & Hf & Ha); [cbn [length] in *; lia|done..| |null_start; lia|null_start; cbn [length] in *; lia|].
    { rewrite <- (app_nil_r (c :: r)) in Hs2. by apply cstr_app in Hs2. }
    revert Ha. null_start. intros Ha. cbn in Hf. exists (q + zlen pre :: ps), m'. split_and!.
    + rewrite (bind_Ok _ _ _ _ _ Hrun). cbn [fst snd]. rewrite (proj2 (Z.eqb_neq _ NULL)) by mlia.
      by rewrite (bind_Ok _ _ _ _ _ Ht).
    + constructor; [|done]. eapply cstr_frame; [exact Hs2|]. intros a Ha'. apply Ha. cbn [length] in *. lia.
    + intros a Ha'. apply Ha. cbn [length] in *. lia.
  - rewrite <- Ewr in Hs2. apply negb_false_iff in Hr2. rewrite Hr2.
    destruct (cstr_cut _ _ _ _ _ Hs2) as [Hcw Hcs]. set (m1 := <[q + zlen pre + zlen w := 0]> m) in *.
    cbn [length] in Hn, Hdis.
    assert (cstr m1 dp ds) as Hds1.
    { eapply cstr_frame; [exact Hds|]. intros a Ha. apply lookup_insert_ne. lia. }
    destruct (IH m1 NULL (q + zlen pre + zlen w + 1) rest2) as (ps & m' & Ht & Hf & Ha); [lia|done..|null_start; lia|null_start; lia|].
    revert Ha. null_start. intros Ha. exists (q + zlen pre :: ps), m'. split_and!.
    + rewrite (bind_Ok _ _ _ _ _ Hrun). cbn [fst snd]. rewrite (proj2 (Z.eqb_neq _ NULL)) by mlia.
      by rewrite (bind_Ok _ _ _ _ _ Ht).
    + destruct w as [|c' w']; [done|]. constructor; [|done]. eapply cstr_frame; [exact Hcw|].
      intros a Ha'. apply Ha. lia.
    + intros a Ha'. cbn [length] in Ha'. rewrite Ha by lia.
      apply lookup_insert_ne. lia.
Qed.

Lemma take_u8 n s : Forall is_u8 s → Forall is_u8 (take n s).
Proof. apply Forall_take. Qed.

(** The block [strlcpy] copies is the start of the source string. *)
Lemma block_cstr m p s k :
  cstr m p s → 0 ≤ k ≤ zlen s → block m p k = take (Z.to_nat k) s ∧ mapped m p k.
Proof.
  intros [H _ _] Hk. assert (∀ i, (i < length s)%nat → m !! (p + Z.of_nat i) = s !! i) as Hl.
  { intros i Hi. destruct (lookup_lt_is_Some_2 s i Hi) as [b Hb]. rewrite Hb.
    apply H. rewrite lookup_app_l by done. done. }
  split.
  - apply list_eq. intros i. unfold block. rewrite list_lookup_fmap.
    destruct (decide (i < Z.to_nat k)%nat) as [Hi|Hi].
    + rewrite lookup_seqZ_lt by lia. cbn. rewrite Hl by lia. rewrite lookup_take_lt by lia.
      destruct (lookup_lt_is_Some_2 s i) as [b ->]; [lia|]. done.
    + rewrite lookup_seqZ_ge by lia. by rewrite lookup_take_ge by lia.
  - intros a Ha. replace a with (p + Z.of_nat (Z.to_nat (a - p))) by lia. rewrite Hl by lia.
    apply lookup_lt_is_Some_2. lia.
Qed.

(** [memmove] copies SIZE bytes correctly even when the blocks overlap and
    changes no other byte.  It returns DST when DST is not below SRC but DST + SIZE
    otherwise, although its comment says it returns DST. *)
Theorem memmove_ok m dst src n :
  0 ≤ n → mapped m src n → mapped m dst n → bytes_only m → dst ≠ NULL → src ≠ NULL →
  ∃ m', memmove dst src n m = Ok (if dst <? src then dst + n else dst, m') ∧
    ∀ a, m' !! a = if (dst <=? a) && (a <? dst + n) then m !! (src + (a - dst)) else m !! a.
Proof.
  intros Hn Hs Hd Hu Hd0 Hs0. exists (moved m dst src n). split; [by apply memmove_run|].
  intros a. by apply moved_lookup.
Qed.

(** Eight bytes at 100. *)
Definition demo_mem : mem := store ∅ 100 [1; 2; 3; 4; 5; 6; 7; 8].

Lemma mapped_forall m p n : Forall (λ a, is_Some (m !! a)) (seqZ p n) → mapped m p n.
Proof. rewrite Forall_forall. intros H a Ha. apply H, elem_of_seqZ. lia. Qed.

#[export] Instance is_u8_dec b : Decision (is_u8 b).
Proof. unfold is_u8. apply _. Defined.
Lemma cstr_iff m p s :
  (Forall (λ i, m !! (p + Z.of_nat i) = (s ++ [0]) !! i) (seq 0 (S (length s)))
   ∧ 0 ∉ s ∧ Forall is_u8 s) ↔ cstr m p s.
Proof.
  rewrite Forall_forall. split.
  - intros (H1 & ? & ?). split; [|done..]. intros i b Hi. rewrite H1; [done|].
    apply lookup_lt_Some in Hi. rewrite length_app in Hi. cbn in Hi. apply elem_of_seq. lia.
  - intros [H1 ? ?]. split_and!; [|done..]. intros i [_ Hi]%elem_of_seq.
    destruct (lookup_lt_is_Some_2 (s ++ [0]) i) as [b Hb]; [rewrite length_app; cbn in *; lia|].
    rewrite Hb. by apply H1.
Qed.

#[export] Instance cstr_dec m p s : Decision (cstr m p s).
Proof.
  refine (cast_if (decide (Forall (λ i, m !! (p + Z.of_nat i) = (s ++ [0]) !! i) (seq 0 (S (length s)))
    ∧ 0 ∉ s ∧ Forall is_u8 s))).
  - abstract (by apply cstr_iff).
  - abstract (by rewrite <- cstr_iff).
Defined.

Lemma memmove_ok_witness :
  ∃ m', memmove 100 102 4 demo_mem = Ok (104, m') ∧
    (m' !! 100, m' !! 103, m' !! 104) = (Some 3, Some 6, Some 5).
Proof.
  destruct (memmove_ok demo_mem 100 102 4) as (m' & H1 & H2).
  - lia.
  - apply mapped_forall. by_decide.
  - apply mapped_forall. by_decide.
  - unfold bytes_only. by_decide.
  - done.
  - done.
  - exists m'. split; [exact H1|]. rewrite !H2. reflexivity.
Defined.

(** [strlcpy] never writes outside the SIZE bytes at DST: it leaves there
    the longest prefix of SRC that fits, null-terminated, and returns the length of SRC. *)
Theorem strlcpy_ok m dst src size s :
  cstr m src s → bytes_only m → mapped m dst size → 0 < size → dst ≠ NULL → src ≠ NULL →
  dst + size ≤ src ∨ src + zlen s < dst →
  ∃ m', strlcpy dst src size m = Ok (zlen s, m') ∧
    cstr m' dst (take (Z.to_nat (size - 1)) s) ∧
    ∀ a, a < dst ∨ dst + size ≤ a → m' !! a = m !! a.
Proof.
  intros Hs Hu Hm Hsz Hd0 Hs0 Hdis. unfold strlcpy.
  rewrite (proj2 (Z.eqb_neq _ _) Hd0), (proj2 (Z.eqb_neq _ _) Hs0), !bind_assert by done.
  rewrite (bind_Ok _ _ _ _ _ (strlen_ok m src s Hs Hs0)), (proj2 (Z.ltb_lt _ _) Hsz). cbv zeta.
  set (k := if zlen s <? size - 1 then zlen s else size - 1).
  assert (0 ≤ k ≤ zlen s ∧ k ≤ size - 1 ∧ take (Z.to_nat k) s = take (Z.to_nat (size - 1)) s) as (Hk & Hk2 & Etk).
  { unfold k. destruct (Z.ltb_spec (zlen s) (size - 1)); split_and!; try lia; [|done].
    by rewrite !take_ge by lia. }
  destruct (block_cstr m src s k Hs) as [Eb Hmk]; [lia|].
  assert (mapped m dst k) as Hmd by (intros a Ha; apply Hm; lia).
  assert ((memcpy dst src k ;; stb (dst + k) 0) m = Ok (tt, <[dst + k := 0]> (moved m dst src k))) as Hin.
  { rewrite (bind_Ok _ _ _ _ _ (memcpy_ok m dst src k ltac:(lia) Hmk Hmd Hu Hd0 Hs0 ltac:(lia))).
    apply stb_ok; [|mlia]. rewrite moved_lookup by (done || lia).
    repeat zcase; cbn [andb]; try lia; apply Hm; lia. }
  eexists. split; [by rewrite (bind_Ok _ _ _ _ _ Hin)|].
  assert (zlen (take (Z.to_nat k) s) = k) as Elk by (rewrite length_take; lia).
  split.
  - rewrite <- Etk. unfold moved. rewrite Eb. split.
    + apply bytes_at_app. rewrite Elk. split; [apply bytes_at_insert; [apply store_bytes_at|lia]|].
      apply bytes_at_cons. split; [apply lookup_insert_eq|by intros ? ? ?].
    + intros H. apply (cs_nozero _ _ _ Hs). by eapply (subseteq_take _ s).
    + by apply Forall_take, (cs_u8 _ _ _ Hs).
  - intros a Ha. rewrite lookup_insert_ne by lia. rewrite moved_lookup by (done || lia).
    repeat zcase; cbn [andb]; lia || done.
Qed.

(** "ab" at 200, eight bytes at 100. *)
Definition demo_str : mem := store demo_mem 200 [97; 98; 0].

Lemma strlcpy_ok_witness :
  ∃ m', strlcpy 100 200 2 demo_str = Ok (2, m') ∧ cstr m' 100 [97].
Proof.
  destruct (strlcpy_ok demo_str 100 200 2 [97; 98]) as (m' & H1 & H2 & _).
  - by_decide.
  - unfold bytes_only. by_decide.
  - apply mapped_forall. by_decide.
  - done.
  - done.
  - done.
  - left. cbn. lia.
  - exists m'. split; [exact H1|exact H2].
Defined.

(** Calling [strtok_r] with the string and then with null pointers, as its
    comment prescribes, returns in order exactly the maximal delimiter-free pieces of
    the string, each null-terminated in place, and then null; bytes outside the string
    are untouched. *)
Theorem strtok_r_pieces m p s dp ds :
  cstr m p s → cstr m dp ds → 0 < p → 0 < dp → dp + zlen ds < p ∨ p + zlen s < dp →
  ∃ ps m', tokenize (S (length s)) p dp NULL m = Ok (ps, m') ∧
    Forall2 (cstr m') ps (pieces ds [] s) ∧
    (∀ a, a < p ∨ p + zlen s ≤ a → m' !! a = m !! a).
Proof.
  intros Hs Hds Hp Hdp Hdis. pose proof (tokenize_run ds dp (S (length s)) m p NULL s) as H.
  rewrite (proj2 (Z.eqb_neq p NULL)) in H by mlia. apply H; [lia|done..].
Qed.

Lemma strtok_r_pieces_witness :
  let m := store (store ∅ 300 [32; 0]) 400 [32; 97; 98; 32; 32; 99; 0] in
  ∃ ps m', tokenize 7 400 300 NULL m = Ok (ps, m') ∧ Forall2 (cstr m') ps [[97; 98]; [99]].
Proof.
  intros m. destruct (strtok_r_pieces m 400 [32; 97; 98; 32; 32; 99] 300 [32]) as (ps & m' & H1 & H2 & _).
  - by_decide.
  - by_decide.
  - done.
  - done.
  - left. done.
  - exists ps, m'. split; [exact H1|exact H2].
Defined.
