(* ===== verification/CStdlib.v ===== *)
(** * Sorting, searching and number parsing

    lib/stdlib.c and lib/ctype.h.  An array of CNT elements of SIZE bytes is a list of
    byte blocks; elements have 1-based indices in the heap sort, as in the C code.  The
    comparison function is the caller's; what stdlib.h requires of it is [Compare]. *)

From Stdlib Require Import Sorting.Sorted.
From S2P Require Import Prelude Str.
Local Open Scope c_scope.

(** ** ctype.h *)

Definition islower (c : Z) : bool := (97 <=? c) && (c <=? 122).
Definition isupper (c : Z) : bool := (65 <=? c) && (c <=? 90).
Definition isalpha (c : Z) : bool := islower c || isupper c.
Definition isdigit (c : Z) : bool := (48 <=? c) && (c <=? 57).
Definition isalnum (c : Z) : bool := isalpha c || isdigit c.
Definition isxdigit (c : Z) : bool :=
  isdigit c || ((97 <=? c) && (c <=? 102)) || ((65 <=? c) && (c <=? 70)).
Definition isspace (c : Z) : bool :=
  (c =? 32) || (c =? 12) || (c =? 10) || (c =? 13) || (c =? 9) || (c =? 11).
Definition isblank (c : Z) : bool := (c =? 32) || (c =? 9).
Definition isgraph (c : Z) : bool := (32 <? c) && (c <? 127).
Definition isprint (c : Z) : bool := (32 <=? c) && (c <? 127).
Definition iscntrl (c : Z) : bool := ((0 <=? c) && (c <? 32)) || (c =? 127).
Definition isascii (c : Z) : bool := (0 <=? c) && (c <? 128).
Definition ispunct (c : Z) : bool := isprint c && negb (isalnum c) && negb (isspace c).
Definition tolower (c : Z) : Z := if isupper c then c - 65 + 97 else c.
Definition toupper (c : Z) : Z := if islower c then c - 97 + 65 else c.

(** ** atoi *)

Definition atoi (s : Z) : M mem Z :=
  assert (negb (s =? NULL)) ;;
  s <- scan (λ s, c <- ldb s ;; if isspace c then ret (inl (s + 1)) else ret (inr s)) s ;;
  c <- ldb s ;;
  let '(negative, s) :=
    if c =? 43 then (false, s + 1) else if c =? 45 then (true, s + 1) else (false, s) in
  value <- scan (λ '(s, value),
    c <- ldb s ;;
    if isdigit c then ret (inl (s + 1, s32 (value * 10 - (c - 48)))) else ret (inr value)) (s, 0) ;;
  ret (if negb negative then s32 (- value) else value).

(** ** Sorting: the array is the state *)

(** The bytes of one element. *)
Notation elt := (list Z).

Definition elem (idx : Z) : M (list elt) elt := λ a,
  if 1 <=? idx then
    match a !! Z.to_nat (idx - 1) with Some b => Ok (b, a) | None => Err Fault end
  else Err Fault.

Definition ld_byte (idx i : Z) : M (list elt) Z :=
  b <- elem idx ;;
  match b !! Z.to_nat i with Some x => ret x | None => fail Fault end.
Definition st_byte (idx i v : Z) : M (list elt) unit :=
  b <- elem idx ;;
  if i <? zlen b
  then λ a, Ok (tt, <[Z.to_nat (idx - 1) := <[Z.to_nat i := v]> b]> a)
  else fail Fault.

Definition do_swap (a_idx b_idx size : Z) : M (list elt) unit :=
  iter (S (Z.to_nat size)) (λ i,
    if i <? size then
      t <- ld_byte a_idx i ;;
      x <- ld_byte b_idx i ;;
      st_byte a_idx i x ;;
      st_byte b_idx i t ;;
      ret (inl (i + 1))
    else ret (inr tt)) 0.

Section Sorting.
Context (compare : elt → elt → Z).

Definition do_compare (a_idx b_idx : Z) : M (list elt) Z :=
  a <- elem a_idx ;; b <- elem b_idx ;; ret (compare a b).

Definition heapify (i cnt size : Z) : M (list elt) unit :=
  iter (S (Z.to_nat cnt)) (λ i,
    let left := u32 (2 * i) in
    let right := u32 (2 * i + 1) in
    let max := i in
    max <- (if left <=? cnt then
              c <- do_compare left max ;; ret (if 0 <? c then left else max)
            else ret max) ;;
    max <- (if right <=? cnt then
              c <- do_compare right max ;; ret (if 0 <? c then right else max)
            else ret max) ;;
    if max =? i then ret (inr tt)
    else do_swap i max size ;; ret (inl max)) i.

Definition sort (cnt size : Z) : M (list elt) unit :=
  assert (0 <? size) ;;
  iter (S (Z.to_nat cnt)) (λ i,
    if 0 <? i then heapify i cnt size ;; ret (inl (i - 1)) else ret (inr tt)) (cnt `div` 2) ;;
  iter (S (Z.to_nat cnt)) (λ i,
    if 1 <? i then
      do_swap 1 i size ;; heapify 1 (i - 1) size ;; ret (inl (i - 1))
    else ret (inr tt)) cnt.

(** Compares through the thunk; the same comparison function. *)
Definition compare_thunk (a b : elt) : Z := compare a b.
End Sorting.

Definition qsort (compare : elt → elt → Z) (cnt size : Z) : M (list elt) unit :=
  sort (compare_thunk compare) cnt size.

(** Searches the array for a match of [key]; answers its 0-based index.  [first] and
    [last] are element indices: the pointers are [array + size * first] and so on. *)
Definition binary_search (compare : elt → elt → Z) (key : elt) (cnt : Z)
    : M (list elt) (option Z) :=
  iter (S (Z.to_nat cnt)) (λ '(first, last),
    if first <? last then
      let range := last - first in
      let middle := first + range `div` 2 in
      b <- elem (middle + 1) ;;
      let cmp := compare key b in
      if cmp <? 0 then ret (inl (first, middle))
      else if 0 <? cmp then ret (inl (middle + 1, last))
      else ret (inr (Some middle))
    else ret (inr None)) (0, cnt).

Definition bsearch (compare : elt → elt → Z) (key : elt) (cnt : Z)
    : M (list elt) (option Z) :=
  binary_search (compare_thunk compare) key cnt.

(** ** What a comparison function promises *)

Class Compare (compare : elt → elt → Z) : Prop := {
  cmp_flip a b : compare a b < 0 ↔ 0 < compare b a;
  cmp_trans a b c : compare a b ≤ 0 → compare b c ≤ 0 → compare a c ≤ 0;
}.

(** The element with 1-based index [i]. *)
Definition at_ (a : list elt) (i : Z) : elt := default [] (a !! Z.to_nat (i - 1)).

Definition swap (a : list elt) (i j : Z) : list elt :=
  <[Z.to_nat (i - 1) := at_ a j]> (<[Z.to_nat (j - 1) := at_ a i]> a).

Definition sized (a : list elt) (size : Z) : Prop := Forall (λ b, zlen b = size) a.

Lemma at_lookup a i : 1 ≤ i ≤ zlen a → a !! Z.to_nat (i - 1) = Some (at_ a i).
Proof.
  intros Hi. unfold at_. by destruct (lookup_lt_is_Some_2 a (Z.to_nat (i - 1))) as [b ->]; [lia|].
Qed.

Lemma elem_ok a i : 1 ≤ i ≤ zlen a → elem i a = Ok (at_ a i, a).
Proof.
  intros Hi. unfold elem. destruct (Z.leb_spec 1 i); [|lia]. by rewrite at_lookup.
Qed.

Lemma sized_at a size i : sized a size → 1 ≤ i ≤ zlen a → zlen (at_ a i) = size.
Proof. intros Hs Hi. apply at_lookup in Hi. by eapply (proj1 (Forall_lookup _ _) Hs). Qed.

Lemma swap_length a i j : length (swap a i j) = length a.
Proof. unfold swap. by rewrite !length_insert. Qed.

Lemma at_insert a i j b :
  1 ≤ i ≤ zlen a → 1 ≤ j → at_ (<[Z.to_nat (i - 1) := b]> a) j = if j =? i then b else at_ a j.
Proof.
  intros Hi Hj. unfold at_. destruct (Z.eqb_spec j i) as [->|].
  - rewrite list_lookup_insert, decide_True by (split; [done|lia]). done.
  - by rewrite list_lookup_insert_ne by lia.
Qed.

Lemma swap_at a i j k :
  1 ≤ i ≤ zlen a → 1 ≤ j ≤ zlen a → 1 ≤ k →
  at_ (swap a i j) k = if k =? i then at_ a j else if k =? j then at_ a i else at_ a k.
Proof.
  intros Hi Hj Hk. unfold swap. rewrite at_insert by (rewrite ?length_insert; lia).
  destruct (Z.eqb_spec k i); [done|]. by rewrite at_insert by lia.
Qed.

Lemma swap_sized a i j size :
  1 ≤ i ≤ zlen a → 1 ≤ j ≤ zlen a → sized a size → sized (swap a i j) size.
Proof.
  intros Hi Hj Hs. unfold swap. apply Forall_insert; [apply Forall_insert; [done|]|]; by apply sized_at.
Qed.

Lemma insert_perm {A} (l : list A) k x y : l !! k = Some x → x :: <[k := y]> l ≡ₚ y :: l.
Proof.
  intros Hk. rewrite insert_take_drop by (by eapply lookup_lt_Some).
  rewrite <- (take_drop_middle l k x Hk) at 3. solve_Permutation.
Qed.

Lemma swap_perm a i j : 1 ≤ i ≤ zlen a → 1 ≤ j ≤ zlen a → i ≠ j → swap a i j ≡ₚ a.
Proof.
  intros Hi Hj Hne. unfold swap.
  set (a1 := <[Z.to_nat (j - 1) := at_ a i]> a).
  assert (a1 !! Z.to_nat (i - 1) = Some (at_ a i)) as Li1.
  { unfold a1. rewrite list_lookup_insert_ne by lia. by apply at_lookup. }
  apply (Permutation_cons_inv (a := at_ a i)). rewrite (insert_perm a1 _ _ _ Li1).
  unfold a1. apply insert_perm, at_lookup. lia.
Qed.

Lemma swap_take_drop a i j cnt :
  1 ≤ i ≤ cnt → 1 ≤ j ≤ cnt → i ≠ j → cnt ≤ zlen a →
  take (Z.to_nat cnt) (swap a i j) ≡ₚ take (Z.to_nat cnt) a ∧
  drop (Z.to_nat cnt) (swap a i j) = drop (Z.to_nat cnt) a.
Proof.
  intros Hi Hj Hne Hc. split.
  - assert (take (Z.to_nat cnt) (swap a i j) = swap (take (Z.to_nat cnt) a) i j) as ->.
    { unfold swap. rewrite !take_insert_lt by lia.
      unfold at_. rewrite !lookup_take_lt by lia. done. }
    apply swap_perm; rewrite ?length_take; lia.
  - unfold swap. by rewrite !drop_insert_lt by lia.
Qed.

(** ** do_swap exchanges two elements *)

Lemma ld_byte_ok a i k x :
  1 ≤ i ≤ zlen a → at_ a i !! Z.to_nat k = Some x → ld_byte i k a = Ok (x, a).
Proof. intros Hi Hx. unfold ld_byte. rewrite (bind_Ok _ _ _ _ _ (elem_ok a i Hi)), Hx. done. Qed.

Lemma st_byte_ok a i k v :
  1 ≤ i ≤ zlen a → k < zlen (at_ a i) →
  st_byte i k v a = Ok (tt, <[Z.to_nat (i - 1) := <[Z.to_nat k := v]> (at_ a i)]> a).
Proof.
  intros Hi Hk. unfold st_byte. rewrite (bind_Ok _ _ _ _ _ (elem_ok a i Hi)).
  by rewrite (proj2 (Z.ltb_lt _ _) Hk).
Qed.

(** Two rows exchanged up to byte [k]. *)
Definition mixed (x y : elt) (k : nat) : elt := take k y ++ drop k x.

Lemma mixed_step x y k b :
  length x = length y → y !! k = Some b → <[k := b]> (mixed x y k) = mixed x y (S k).
Proof.
  intros Hl Hb. pose proof (lookup_lt_Some _ _ _ Hb). unfold mixed.
  destruct (lookup_lt_is_Some_2 x k) as [c Hc]; [lia|].
  rewrite (drop_S _ _ _ Hc), (take_S_r _ _ _ Hb), <- app_assoc.
  rewrite insert_app_r_alt by (rewrite length_take; lia).
  rewrite length_take, Nat.min_l, Nat.sub_diag by lia. done.
Qed.

Lemma mixed_lookup x y k : (k ≤ length y)%nat → mixed x y k !! k = x !! k.
Proof.
  intros Hk. unfold mixed. rewrite lookup_app_r by (rewrite length_take; lia).
  rewrite length_take, Nat.min_l, Nat.sub_diag by lia. by rewrite lookup_drop, Nat.add_0_r.
Qed.

Lemma mixed_length x y k : length x = length y → length (mixed x y k) = length x.
Proof. intros H. unfold mixed. rewrite length_app, length_take, length_drop. lia. Qed.

Definition rows (a : list elt) (i j : Z) (x y : elt) : list elt :=
  <[Z.to_nat (i - 1) := x]> (<[Z.to_nat (j - 1) := y]> a).

Lemma rows_at a i j x y :
  1 ≤ i ≤ zlen a → 1 ≤ j ≤ zlen a → i ≠ j → at_ (rows a i j x y) i = x ∧ at_ (rows a i j x y) j = y.
Proof.
  intros Hi Hj Hne. unfold rows. split; rewrite at_insert by (rewrite ?length_insert; lia).
  - by rewrite Z.eqb_refl.
  - rewrite (proj2 (Z.eqb_neq j i)) by lia. rewrite at_insert by lia. by rewrite Z.eqb_refl.
Qed.

Lemma rows_set_i a i j x y z :
  i ≠ j → <[Z.to_nat (i - 1) := z]> (rows a i j x y) = rows a i j z y.
Proof. intros. unfold rows. by rewrite list_insert_insert_eq. Qed.

Lemma rows_set_j a i j x y z :
  1 ≤ i → 1 ≤ j → i ≠ j → <[Z.to_nat (j - 1) := z]> (rows a i j x y) = rows a i j x z.
Proof.
  intros. unfold rows. rewrite list_insert_insert_ne by lia. by rewrite list_insert_insert_eq.
Qed.

Lemma do_swap_loop a i j size : 1 ≤ i ≤ zlen a → 1 ≤ j ≤ zlen a → i ≠ j → sized a size →
  ∀ n k, (Z.to_nat (size - k) < n)%nat → 0 ≤ k ≤ size →
  iter n (λ k,
    if k <? size then
      t <- ld_byte i k ;;
      x <- ld_byte j k ;;
      st_byte i k x ;;
      st_byte j k t ;;
      ret (inl (k + 1))
    else ret (inr tt)) k
    (rows a i j (mixed (at_ a i) (at_ a j) (Z.to_nat k)) (mixed (at_ a j) (at_ a i) (Z.to_nat k)))
  = Ok (tt, swap a i j).
Proof.
  intros Hi Hj Hne Hs. pose proof (sized_at a size i Hs Hi) as Li. pose proof (sized_at a size j Hs Hj) as Lj.
  set (x := at_ a i) in *. set (y := at_ a j) in *.
  induction n as [|n IH]; intros k Hn Hk; [lia|].
  destruct (Z.ltb_spec k size) as [Hlt|Hge].
  - set (rx := mixed x y (Z.to_nat k)). set (ry := mixed y x (Z.to_nat k)).
    assert (∀ u v, zlen (rows a i j u v) = zlen a) as Hrl by (intros; unfold rows; by rewrite !length_insert).
    destruct (lookup_lt_is_Some_2 x (Z.to_nat k)) as [bx Hbx]; [lia|].
    destruct (lookup_lt_is_Some_2 y (Z.to_nat k)) as [by_ Hby]; [lia|].
    destruct (rows_at a i j rx ry Hi Hj Hne) as [Ari Arj].
    erewrite iter_continue; [apply (IH (k + 1)); lia|]. cbv beta.
    rewrite (proj2 (Z.ltb_lt _ _) Hlt).
    erewrite bind_Ok; [|apply ld_byte_ok; [rewrite Hrl; lia|rewrite Ari; unfold rx; rewrite mixed_lookup by lia; exact Hbx]].
    erewrite bind_Ok; [|apply ld_byte_ok; [rewrite Hrl; lia|rewrite Arj; unfold ry; rewrite mixed_lookup by lia; exact Hby]].
    erewrite bind_Ok; [|apply st_byte_ok; [rewrite Hrl; lia|rewrite Ari; unfold rx; rewrite mixed_length by lia; lia]].
    rewrite Ari, rows_set_i by done. destruct (rows_at a i j (<[Z.to_nat k := by_]> rx) ry Hi Hj Hne) as [_ Arj2].
    erewrite bind_Ok; [|apply st_byte_ok; [rewrite Hrl; lia|rewrite Arj2; unfold ry; rewrite mixed_length by lia; lia]].
    rewrite Arj2, rows_set_j by lia. unfold rx, ry. rewrite !mixed_step by (done || lia).
    replace (S (Z.to_nat k)) with (Z.to_nat (k + 1)) by lia. done.
  - replace k with size by lia. apply iter_break. rewrite Z.ltb_irrefl. unfold ret, swap, rows. fold x y.
    unfold mixed. rewrite !take_ge, !drop_ge, !app_nil_r by lia. done.
Qed.

Lemma do_swap_ok a i j size :
  1 ≤ i ≤ zlen a → 1 ≤ j ≤ zlen a → i ≠ j → sized a size → 0 ≤ size →
  do_swap i j size a = Ok (tt, swap a i j).
Proof.
  intros Hi Hj Hne Hs Hsz. pose proof (do_swap_loop a i j size Hi Hj Hne Hs (S (Z.to_nat size)) 0) as H.
  unfold mixed in H. cbn [Z.to_nat take drop app] in H. unfold do_swap.
  rewrite <- H by lia. f_equal. unfold rows.
  rewrite (list_insert_id a) by (by apply at_lookup). by rewrite list_insert_id by (by apply at_lookup).
Qed.

(** ** Heaps *)

Section Heap.
Context (compare : elt → elt → Z) `{C : Compare compare}.

Definition leq (x y : elt) : Prop := compare x y ≤ 0.

Lemma leq_trans x y z : leq x y → leq y z → leq x z.
Proof. apply cmp_trans. Qed.
Lemma leq_gt x y : 0 < compare x y → leq y x.
Proof. intros H. apply cmp_flip in H. unfold leq. lia. Qed.
Lemma leq_refl x : leq x x.
Proof. unfold leq. destruct (decide (0 < compare x x)) as [H|H]; [apply leq_gt in H; done|lia]. Qed.

Definition child (j c : Z) : Prop := c = 2 * j ∨ c = 2 * j + 1.

(** Every node from [k] on, except [i], dominates its children. *)
Definition heap_except (a : list elt) (k cnt i : Z) : Prop :=
  ∀ j c, k ≤ j → j ≠ i → child j c → c ≤ cnt → leq (at_ a c) (at_ a j).
(** The parent of [i] dominates the children of [i]. *)
Definition bridged (a : list elt) (k cnt i : Z) : Prop :=
  ∀ c, k ≤ i `div` 2 → child i c → c ≤ cnt → leq (at_ a c) (at_ a (i `div` 2)).
Definition heap (a : list elt) (k cnt : Z) : Prop :=
  ∀ j c, k ≤ j → child j c → c ≤ cnt → leq (at_ a c) (at_ a j).

Lemma heap_except_intro a k cnt i :
  heap_except a k cnt i → (∀ c, child i c → c ≤ cnt → leq (at_ a c) (at_ a i)) → heap a k cnt.
Proof. intros H1 H2 j c Hj Hc Hcn. destruct (decide (j = i)) as [->|]; [auto|]. by eapply H1. Qed.

(** Moving the largest child up restores the order at [i] and shifts the hole to [m]. *)
Lemma sift_step a k cnt i m :
  1 ≤ k ≤ i → child i m → m ≤ cnt → cnt ≤ zlen a →
  heap_except a k cnt i → bridged a k cnt i →
  (∀ c, child i c → c ≤ cnt → leq (at_ a c) (at_ a m)) → leq (at_ a i) (at_ a m) →
  heap_except (swap a i m) k cnt m ∧ bridged (swap a i m) k cnt m.
Proof.
  intros Hk Hm Hmc Hcn Hex Hbr Hmax Hle. assert (i < m) by (destruct Hm; lia).
  assert (m `div` 2 = i) as Hdiv by (destruct Hm as [->| ->]; dm_lia).
  split.
  - intros j c Hj Hjm Hc Hccn. assert (j < c) by (destruct Hc; lia).
    rewrite !swap_at by lia. destruct (Z.eqb_spec j i) as [->|Hji].
    + rewrite (proj2 (Z.eqb_neq c i)) by lia. destruct (Z.eqb_spec c m); [done|]. by apply Hmax.
    + rewrite (proj2 (Z.eqb_neq j m)) by lia.
      destruct (Z.eqb_spec c i) as [->|Hci].
      * assert (i `div` 2 = j) as <- by (destruct Hc as [->| ->]; dm_lia). by apply Hbr.
      * destruct (Z.eqb_spec c m) as [->|Hcm]; [destruct Hm, Hc; lia|]. by apply Hex.
  - intros c _ Hc Hccn. assert (m < c) by (destruct Hc; lia). rewrite Hdiv, !swap_at by lia.
    rewrite Z.eqb_refl, (proj2 (Z.eqb_neq c i)), (proj2 (Z.eqb_neq c m)) by lia.
    apply (Hex m c); [lia..|done|done].
Qed.

(** The two comparisons pick a child that dominates its sibling, or [i] itself. *)
Lemma pick_max a i cnt :
  1 ≤ i → cnt ≤ zlen a → cnt < 2147483648 → i ≤ cnt →
  ∃ m, ((max <- (if u32 (2 * i) <=? cnt then
              c <- do_compare compare (u32 (2 * i)) i ;; ret (if 0 <? c then u32 (2 * i) else i)
            else ret i) ;;
    (if u32 (2 * i + 1) <=? cnt then
              c <- do_compare compare (u32 (2 * i + 1)) max ;; ret (if 0 <? c then u32 (2 * i + 1) else max)
            else ret max)) a = Ok (m, a)) ∧
    (m = i ∨ child i m ∧ m ≤ cnt) ∧
    (∀ c, child i c → c ≤ cnt → leq (at_ a c) (at_ a m)) ∧ leq (at_ a i) (at_ a m).
Proof.
  intros Hi Hcn Hsm Hic. rewrite !u32_small by mlia.
  assert (∀ x y, 1 ≤ x ≤ zlen a → 1 ≤ y ≤ zlen a →
    do_compare compare x y a = Ok (compare (at_ a x) (at_ a y), a)) as Hcmp.
  { intros x y Hx Hy. unfold do_compare.
    by rewrite (bind_Ok _ _ _ _ _ (elem_ok a x Hx)), (bind_Ok _ _ _ _ _ (elem_ok a y Hy)). }
  assert (∃ m1, (if 2 * i <=? cnt then
      c <- do_compare compare (2 * i) i ;; ret (if 0 <? c then 2 * i else i) else ret i) a = Ok (m1, a) ∧
    (m1 = i ∨ m1 = 2 * i ∧ m1 ≤ cnt) ∧ (2 * i ≤ cnt → leq (at_ a (2 * i)) (at_ a m1)) ∧
    leq (at_ a i) (at_ a m1)) as (m1 & Hr1 & Hm1 & Hl1 & Hi1).
  { destruct (Z.leb_spec (2 * i) cnt); [|exists i; split_and!; [done|by left|lia|apply leq_refl]].
    rewrite (bind_Ok _ _ _ _ _ (Hcmp (2 * i) i ltac:(lia) ltac:(lia))).
    destruct (Z.ltb_spec 0 (compare (at_ a (2 * i)) (at_ a i))).
    - exists (2 * i). split_and!; [done|by right|intros; apply leq_refl|by apply leq_gt].
    - exists i. split_and!; [done|by left|done|apply leq_refl]. }
  rewrite (bind_Ok _ _ _ _ _ Hr1). destruct (Z.leb_spec (2 * i + 1) cnt).
  - rewrite (bind_Ok _ _ _ _ _ (Hcmp (2 * i + 1) m1 ltac:(lia) ltac:(lia))).
    destruct (Z.ltb_spec 0 (compare (at_ a (2 * i + 1)) (at_ a m1))) as [Hgt|Hle].
    + exists (2 * i + 1). apply leq_gt in Hgt. split_and!; [done|right; split; [by right|lia]| |by eapply leq_trans].
      intros c [->| ->] Hc; [|apply leq_refl]. eapply leq_trans; [by apply Hl1|done].
    + exists m1. split_and!; [done|destruct Hm1 as [|[-> ?]]; [by left|right; split; [by left|done]]| |done].
      intros c [->| ->] Hc; [by apply Hl1|done].
  - exists m1. split_and!; [done|destruct Hm1 as [|[-> ?]]; [by left|right; split; [by left|done]]| |done].
    intros c [->| ->] Hc; [by apply Hl1|lia].
Qed.

(** What a heap operation on the first [cnt] elements keeps. *)
Definition kept (a a' : list elt) (cnt size : Z) : Prop :=
  length a' = length a ∧ sized a' size ∧
  take (Z.to_nat cnt) a' ≡ₚ take (Z.to_nat cnt) a ∧ drop (Z.to_nat cnt) a' = drop (Z.to_nat cnt) a.

Lemma kept_trans (a b c : list elt) cnt size : kept a b cnt size → kept b c cnt size → kept a c cnt size.
Proof.
  intros (H1 & H2 & H3 & H4) (H5 & H6 & H7 & H8). split_and!; [congruence|done|by rewrite H7|congruence].
Qed.

Lemma kept_swap a i j cnt size :
  1 ≤ i ≤ cnt → 1 ≤ j ≤ cnt → i ≠ j → cnt ≤ zlen a → sized a size → kept a (swap a i j) cnt size.
Proof.
  intros Hi Hj Hne Hc Hs. destruct (swap_take_drop a i j cnt) as [? ?]; [done..|].
  split_and!; [apply swap_length|apply swap_sized; [lia..|done]|done..].
Qed.

Lemma heapify_loop k cnt size : ∀ n a i,
  (Z.to_nat (cnt - i) < n)%nat → 1 ≤ k ≤ i → i ≤ cnt → cnt ≤ zlen a → cnt < 2147483648 →
  sized a size → 0 ≤ size → heap_except a k cnt i → bridged a k cnt i →
  ∃ a', iter n (λ i,
    let left := u32 (2 * i) in
    let right := u32 (2 * i + 1) in
    let max := i in
    max <- (if left <=? cnt then
              c <- do_compare compare left max ;; ret (if 0 <? c then left else max)
            else ret max) ;;
    max <- (if right <=? cnt then
              c <- do_compare compare right max ;; ret (if 0 <? c then right else max)
            else ret max) ;;
    if max =? i then ret (inr tt)
    else do_swap i max size ;; ret (inl max)) i a = Ok (tt, a') ∧
    kept a a' cnt size ∧ heap a' k cnt.
Proof.
  induction n as [|n IH]; intros a i Hn Hk Hi Hcn Hsm Hs Hsz Hex Hbr; [lia|].
  destruct (pick_max a i cnt) as (m & Hr & Hm & Hmax & Hle); [lia|lia|lia|lia|].
  apply bind_inv in Hr as (m1 & a1 & Hr1 & Hr2). destruct (Z.eqb_spec m i) as [->|Hne].
  - exists a. split_and!; [|by split_and!|by eapply heap_except_intro].
    apply iter_break. cbv zeta beta. rewrite (bind_Ok _ _ _ _ _ Hr1), (bind_Ok _ _ _ _ _ Hr2).
    by rewrite Z.eqb_refl.
  - destruct Hm as [|[Hc Hmc]]; [done|]. assert (i < m) by (destruct Hc; lia).
    assert (kept a (swap a i m) cnt size) as Hkp by (apply kept_swap; [lia..|done]).
    destruct (sift_step a k cnt i m) as [Hex' Hbr']; [lia|done|lia|lia|done|done|done|done|].
    destruct (IH (swap a i m) m) as (a' & Hi' & Hkp' & Hh);
      [lia|lia|lia|by rewrite swap_length|done|apply Hkp|done|done|done|].
    exists a'. split_and!; [|by eapply kept_trans|done]. erewrite iter_continue; [exact Hi'|]. cbv zeta beta.
    rewrite (bind_Ok _ _ _ _ _ Hr1), (bind_Ok _ _ _ _ _ Hr2), (proj2 (Z.eqb_neq m i) Hne).
    by rewrite (bind_Ok _ _ _ _ _ (do_swap_ok a i m size ltac:(lia) ltac:(lia) ltac:(lia) Hs Hsz)).
Qed.

(** Floating down the root of a tree whose subtrees are heaps. *)
Lemma heapify_ok a k cnt size :
  1 ≤ k ≤ cnt → cnt ≤ zlen a → cnt < 2147483648 → sized a size → 0 ≤ size →
  heap a (k + 1) cnt →
  ∃ a', heapify compare k cnt size a = Ok (tt, a') ∧ kept a a' cnt size ∧ heap a' k cnt.
Proof.
  intros Hk Hcn Hsm Hs Hsz Hh. apply heapify_loop; [lia|lia|lia|lia|done|done|done| |].
  - intros j c Hj Hne. apply Hh. lia.
  - intros c Hkk. exfalso. dm_lia.
Qed.

Lemma build_loop cnt size : ∀ n a i,
  (Z.to_nat i < n)%nat → 0 ≤ i ≤ cnt → cnt ≤ zlen a → cnt < 2147483648 → sized a size → 0 ≤ size →
  heap a (i + 1) cnt →
  ∃ a', iter n (λ i,
    if 0 <? i then heapify compare i cnt size ;; ret (inl (i - 1)) else ret (inr tt)) i a = Ok (tt, a') ∧
    kept a a' cnt size ∧ heap a' 1 cnt.
Proof.
  induction n as [|n IH]; intros a i Hn Hi Hcn Hsm Hs Hsz Hh; [lia|].
  destruct (Z.ltb_spec 0 i).
  - destruct (heapify_ok a i cnt size) as (a1 & Hr & Hkp & Hh1); [lia|lia|done|done|done|done|].
    destruct (IH a1 (i - 1)) as (a' & Hr' & Hkp' & Hh');
      [lia|lia|by rewrite (proj1 Hkp)|done|apply Hkp|done| |].
    { by replace (i - 1 + 1) with i by lia. }
    exists a'. split_and!; [|by eapply kept_trans|done]. erewrite iter_continue; [exact Hr'|]. cbv beta.
    rewrite (proj2 (Z.ltb_lt 0 i)) by lia. by rewrite (bind_Ok _ _ _ _ _ Hr).
  - exists a. replace i with 0 in * by lia. split_and!; [|by split_and!|done]. by apply iter_break.
Qed.

(** The root of a heap dominates it. *)
Lemma heap_root a cnt j : heap a 1 cnt → 1 ≤ j ≤ cnt → leq (at_ a j) (at_ a 1).
Proof.
  intros Hh. revert j. assert (∀ (n : nat) j, 1 ≤ j ≤ cnt → j < Z.of_nat n → leq (at_ a j) (at_ a 1)) as H.
  { induction n as [|n IH]; intros j Hj Hn; [lia|]. destruct (decide (j = 1)) as [->|]; [apply leq_refl|].
    eapply leq_trans; [apply (Hh (j `div` 2) j); [dm_lia|unfold child; dm_lia|lia]|]. apply IH; dm_lia. }
  intros j Hj. apply (H (S (Z.to_nat j))); lia.
Qed.

Lemma elem_of_take_at a i x : 0 ≤ i ≤ zlen a → x ∈ take (Z.to_nat i) a → ∃ j, 1 ≤ j ≤ i ∧ x = at_ a j.
Proof.
  intros Hi Hx. apply list_elem_of_lookup in Hx as [n Hx].
  assert (n < Z.to_nat i)%nat as Hn.
  { apply lookup_lt_Some in Hx. rewrite length_take in Hx. lia. }
  rewrite lookup_take_lt in Hx by done. exists (Z.of_nat n + 1). split; [lia|].
  unfold at_. replace (Z.to_nat (Z.of_nat n + 1 - 1)) with n by lia. by rewrite Hx.
Qed.

Lemma drop_at a i : 1 ≤ i ≤ zlen a → drop (Z.to_nat (i - 1)) a = at_ a i :: drop (Z.to_nat i) a.
Proof.
  intros Hi. rewrite (drop_S _ _ _ (at_lookup a i Hi)). do 2 f_equal. lia.
Qed.

(** The tail from [i] on is sorted and dominates the rest. *)
Definition split_sorted (a : list elt) (i : Z) : Prop :=
  StronglySorted leq (drop (Z.to_nat i) a) ∧
  ∀ x y, x ∈ take (Z.to_nat i) a → y ∈ drop (Z.to_nat i) a → leq x y.

(** One extraction: the root moves to the end of the heap. *)
Lemma extract_step a i size :
  1 < i ≤ zlen a → sized a size → heap a 1 i → split_sorted a i →
  let b := swap a 1 i in
  kept a b i size ∧ heap b 2 (i - 1) ∧ StronglySorted leq (drop (Z.to_nat (i - 1)) b) ∧
  (∀ x y, x ∈ take (Z.to_nat (i - 1)) b → y ∈ drop (Z.to_nat (i - 1)) b → leq x y).
Proof.
  intros Hi Hs Hh [Hss Hdom] b.
  assert (kept a b i size) as Hkp by (apply kept_swap; [lia|lia|lia|lia|done]).
  assert (∀ x, x ∈ take (Z.to_nat (i - 1)) b → x ∈ take (Z.to_nat i) a) as Hsub.
  { intros x Hx. destruct Hkp as (_ & _ & <- & _).
    replace (Z.to_nat (i - 1)) with (Z.to_nat (i - 1) `min` Z.to_nat i)%nat in Hx by lia.
    rewrite <- take_take in Hx. by eapply (subseteq_take _ _). }
  assert (drop (Z.to_nat (i - 1)) b = at_ a 1 :: drop (Z.to_nat i) a) as Hdrop.
  { rewrite drop_at by (unfold b; rewrite swap_length; lia). destruct Hkp as (_ & _ & _ & ->).
    f_equal. unfold b. rewrite swap_at by lia. rewrite (proj2 (Z.eqb_neq i 1)) by lia. by rewrite Z.eqb_refl. }
  assert (at_ a 1 ∈ take (Z.to_nat i) a) as H1in.
  { apply list_elem_of_lookup. exists 0%nat. rewrite lookup_take_lt by lia. by apply (at_lookup a 1); lia. }
  split_and!; [done|..].
  - intros j c Hj Hc Hcn. assert (j < c) by (destruct Hc; lia). unfold b. rewrite !swap_at by lia.
    rewrite !(proj2 (Z.eqb_neq _ 1)), !(proj2 (Z.eqb_neq _ i)) by lia. apply Hh; [lia|done|lia].
  - rewrite Hdrop. constructor; [done|]. apply Forall_forall. intros y Hy. by apply Hdom.
  - intros x y Hx Hy. apply Hsub in Hx. rewrite Hdrop in Hy. apply elem_of_cons in Hy as [->|Hy]; [|by apply Hdom].
    apply elem_of_take_at in Hx as (j & Hj & ->); [|lia]. by eapply heap_root.
Qed.

Lemma kept_whole a a' i size : 0 ≤ i ≤ zlen a → kept a a' i size → a' ≡ₚ a.
Proof.
  intros Hi (H1 & _ & H3 & H4). rewrite <- (take_drop (Z.to_nat i) a'), H3, H4. by rewrite take_drop.
Qed.

Lemma heap_sort_loop size : ∀ n a i,
  (Z.to_nat i < n)%nat → 0 ≤ i ≤ zlen a → zlen a < 2147483648 → sized a size → 0 ≤ size →
  heap a 1 i → split_sorted a i →
  ∃ a', iter n (λ i,
    if 1 <? i then
      do_swap 1 i size ;; heapify compare 1 (i - 1) size ;; ret (inl (i - 1))
    else ret (inr tt)) i a = Ok (tt, a') ∧ a' ≡ₚ a ∧ StronglySorted leq a'.
Proof.
  induction n as [|n IH]; intros a i Hn Hi Hsm Hs Hsz Hh Hsp; [lia|]. destruct (Z.ltb_spec 1 i) as [Hlt|Hge].
  - destruct (extract_step a i size) as (Hkp & Hhb & Hss & Hdom); [lia|done|done|done|].
    set (b := swap a 1 i) in *. assert (zlen b = zlen a) as Hlb by (unfold b; by rewrite swap_length).
    destruct (heapify_ok b 1 (i - 1) size) as (c & Hrc & Hkc & Hhc); [lia|lia|lia|apply Hkp|done|done|].
    destruct (IH c (i - 1)) as (a' & Hr & Hp & Hsort);
      [lia|rewrite (proj1 Hkc); lia|rewrite (proj1 Hkc); lia|apply Hkc|done|done| |].
    { destruct Hkc as (_ & _ & Hpt & Hdr). split; [by rewrite Hdr|]. intros x y Hx Hy.
      rewrite Hpt in Hx. rewrite Hdr in Hy. by apply Hdom. }
    exists a'. split_and!; [| |done].
    + erewrite iter_continue; [exact Hr|]. cbv beta. rewrite (proj2 (Z.ltb_lt 1 i)) by lia.
      rewrite (bind_Ok _ _ _ _ _ (do_swap_ok a 1 i size ltac:(lia) ltac:(lia) ltac:(lia) Hs Hsz)).
      by rewrite (bind_Ok _ _ _ _ _ Hrc).
    + rewrite Hp, (kept_whole b c (i - 1) size) by (done || lia). unfold b. by apply swap_perm; lia.
  - exists a. split_and!; [|done|].
    + apply iter_break. by rewrite (proj2 (Z.ltb_ge 1 i) Hge).
    + destruct Hsp as [Hss Hdom]. destruct (decide (i = 0)) as [->|]; [done|].
      replace i with 1 in * by lia. rewrite <- (take_drop (Z.to_nat 1) a).
      destruct a as [|x a]; [done|]. cbn in *. constructor; [done|]. apply Forall_forall. intros y Hy.
      apply Hdom; [set_solver|done].
Qed.

Lemma sort_run a size :
  zlen a < 2147483648 → sized a size → 0 < size →
  ∃ a', sort compare (zlen a) size a = Ok (tt, a') ∧ a' ≡ₚ a ∧ StronglySorted leq a'.
Proof.
  intros Hsm Hs Hsz. unfold sort. rewrite bind_assert by (by apply Z.ltb_lt).
  destruct (build_loop (zlen a) size (S (Z.to_nat (zlen a))) a (zlen a `div` 2)) as (b & Hrb & Hkb & Hhb);
    [dm_lia|dm_lia|lia|done|done|lia| |].
  { intros j c Hj Hc Hcn. destruct Hc; dm_lia. }
  rewrite (bind_Ok _ _ _ _ _ Hrb). destruct Hkb as (Hlb & Hsb & Hpb & _).
  rewrite Nat2Z.id, !take_ge in Hpb by lia.
  destruct (heap_sort_loop size (S (Z.to_nat (zlen a))) b (zlen a)) as (c & Hrc & Hpc & Hsc);
    [lia|lia|lia|done|lia|done| |].
  { split; rewrite drop_ge by lia; [constructor|]. intros x y _ Hy. by apply not_elem_of_nil in Hy. }
  exists c. split_and!; [done|by rewrite Hpc|done].
Qed.

(** ** Binary search *)

Lemma match_above key x y : compare key x < 0 → leq x y → compare key y ≠ 0.
Proof.
  intros H1 H2 H3. assert (leq y key) as H4.
  { unfold leq. destruct (decide (0 < compare y key)) as [H|]; [|lia]. apply cmp_flip in H. lia. }
  apply cmp_flip in H1. pose proof (leq_trans x y key H2 H4). unfold leq in *. lia.
Qed.

Lemma match_below key x y : 0 < compare key x → leq y x → compare key y ≠ 0.
Proof.
  intros H1 H2 H3. assert (leq key y) as H4 by (unfold leq; lia).
  pose proof (leq_trans key y x H4 H2). unfold leq in *. lia.
Qed.

Lemma sorted_across (l1 l2 : list elt) x y :
  StronglySorted leq (l1 ++ l2) → x ∈ l1 → y ∈ l2 → leq x y.
Proof.
  induction l1 as [|z l1 IH]; cbn; intros Hs Hx Hy; [by apply not_elem_of_nil in Hx|].
  inversion Hs as [|? ? Hs' Hz]; subst. apply elem_of_cons in Hx as [->|Hx]; [|auto].
  rewrite Forall_forall in Hz. apply Hz, elem_of_app. by right.
Qed.

Lemma sorted_at a i j : StronglySorted leq a → 1 ≤ i ≤ j → j ≤ zlen a → leq (at_ a i) (at_ a j).
Proof.
  intros Hs Hi Hj. destruct (decide (i = j)) as [->|]; [apply leq_refl|].
  rewrite <- (take_drop (Z.to_nat i) a) in Hs.
  eapply sorted_across; [exact Hs|..].
  - apply list_elem_of_lookup. exists (Z.to_nat (i - 1)). rewrite lookup_take_lt by lia. apply at_lookup. lia.
  - apply list_elem_of_lookup. exists (Z.to_nat (j - 1 - i)). rewrite lookup_drop.
    replace (Z.to_nat i + Z.to_nat (j - 1 - i))%nat with (Z.to_nat (j - 1)) by lia. apply at_lookup. lia.
Qed.

Lemma search_loop a key : StronglySorted leq a → ∀ n first last,
  (Z.to_nat (last - first) < n)%nat → 0 ≤ first → last ≤ zlen a →
  (∀ j, 1 ≤ j ≤ zlen a → compare key (at_ a j) = 0 → first < j ≤ last) →
  ∃ r, iter n (λ '(first, last),
    if first <? last then
      let range := last - first in
      let middle := first + range `div` 2 in
      b <- elem (middle + 1) ;;
      let cmp := compare key b in
      if cmp <? 0 then ret (inl (first, middle))
      else if 0 <? cmp then ret (inl (middle + 1, last))
      else ret (inr (Some middle))
    else ret (inr None)) (first, last) a = Ok (r, a) ∧
    match r with
    | Some i => 0 ≤ i < zlen a ∧ compare key (at_ a (i + 1)) = 0
    | None => ∀ j, 1 ≤ j ≤ zlen a → compare key (at_ a j) ≠ 0
    end.
Proof.
  intros Hs. induction n as [|n IH]; intros first last Hn Hf Hl Hin; [lia|].
  destruct (Z.ltb_spec first last) as [Hlt|Hge].
  - set (mid := first + (last - first) `div` 2). assert (first ≤ mid < last) as Hmid by (unfold mid; dm_lia).
    pose proof (elem_ok a (mid + 1) ltac:(lia)) as He.
    destruct (Z.ltb_spec (compare key (at_ a (mid + 1))) 0) as [Hneg|Hnn].
    + destruct (IH first mid) as (r & Hr & Hpost); [lia|lia|lia| |].
      { intros j Hj Hm. pose proof (Hin j Hj Hm). destruct (decide (j ≤ mid)); [lia|].
        exfalso. apply (match_above key (at_ a (mid + 1)) (at_ a j)); [done|apply sorted_at; lia || done|done]. }
      exists r. split; [|done]. erewrite iter_continue; [exact Hr|]. cbv beta iota zeta. fold mid.
      rewrite (proj2 (Z.ltb_lt first last) Hlt), (bind_Ok _ _ _ _ _ He), (proj2 (Z.ltb_lt _ 0) Hneg). done.
    + destruct (Z.ltb_spec 0 (compare key (at_ a (mid + 1)))) as [Hpos|Hz].
      * destruct (IH (mid + 1) last) as (r & Hr & Hpost); [lia|lia|lia| |].
        { intros j Hj Hm. pose proof (Hin j Hj Hm). destruct (decide (mid + 1 < j)); [lia|].
          exfalso. apply (match_below key (at_ a (mid + 1)) (at_ a j)); [done|apply sorted_at; lia || done|done]. }
        exists r. split; [|done]. erewrite iter_continue; [exact Hr|]. cbv beta iota zeta. fold mid.
        rewrite (proj2 (Z.ltb_lt first last) Hlt), (bind_Ok _ _ _ _ _ He), (proj2 (Z.ltb_ge _ 0) Hnn).
        by rewrite (proj2 (Z.ltb_lt 0 _) Hpos).
      * exists (Some mid). split; [|split; lia]. apply iter_break. cbv zeta. fold mid.
        rewrite (proj2 (Z.ltb_lt first last) Hlt), (bind_Ok _ _ _ _ _ He), (proj2 (Z.ltb_ge _ 0) Hnn).
        by rewrite (proj2 (Z.ltb_ge 0 _) Hz).
  - exists None. split; [apply iter_break; by rewrite (proj2 (Z.ltb_ge first last) Hge)|].
    intros j Hj Hm. apply Hin in Hm; lia.
Qed.
End Heap.

(** Comparison of one-byte elements. *)
Definition byte_compare (a b : elt) : Z :=
  match a, b with x :: _, y :: _ => x - y | _, _ => zlen a - zlen b end.

#[export] Instance byte_compare_laws : Compare byte_compare.
Proof.
  split.
  - intros [|x a] [|y b]; cbn; lia.
  - intros [|x a] [|y b] [|z c]; cbn; lia.
Qed.

(** [sort] (heap sort) terminates on every array and leaves a sorted
    permutation of its elements. *)
Theorem sort_ok compare `{Compare compare} a size :
  zlen a < 2147483648 → sized a size → 0 < size →
  ∃ a', sort compare (zlen a) size a = Ok (tt, a') ∧ a' ≡ₚ a ∧ StronglySorted (leq compare) a'.
Proof. intros. by apply sort_run. Qed.

Lemma sort_ok_witness :
  ∃ a', sort byte_compare 5 1 [[3]; [1]; [4]; [1]; [5]] = Ok (tt, a') ∧
    a' ≡ₚ [[3]; [1]; [4]; [1]; [5]] ∧ StronglySorted (leq byte_compare) a'.
Proof.
  apply (sort_ok byte_compare [[3]; [1]; [4]; [1]; [5]] 1); [done| |done].
  unfold sized. by_decide.
Defined.

(** [binary_search] on a sorted array finds a matching element exactly when
    there is one. *)
Theorem binary_search_ok compare `{Compare compare} a key :
  StronglySorted (leq compare) a →
  ∃ r, binary_search compare key (zlen a) a = Ok (r, a) ∧
    match r with
    | Some i => 0 ≤ i < zlen a ∧ compare key (at_ a (i + 1)) = 0
    | None => ∀ j, 1 ≤ j ≤ zlen a → compare key (at_ a j) ≠ 0
    end.
Proof. intros Hs. apply search_loop; [done|done|lia|lia|lia|]. intros j Hj _. lia. Qed.

Lemma binary_search_ok_witness :
  ∃ r, binary_search byte_compare [4] 3 [[1]; [4]; [7]] = Ok (r, [[1]; [4]; [7]]) ∧ is_Some r.
Proof.
  destruct (binary_search_ok byte_compare [[1]; [4]; [7]] [4]) as (r & Hr & Hpost).
  - repeat constructor; unfold leq; cbn; lia.
  - exists r. split; [exact Hr|]. destruct r; [eauto|]. exfalso. apply (Hpost 2); reflexivity || done.
Defined.
