(* ===== verification/Random.v ===== *)
(** * The RC4 pseudo-random number generator

    lib/random.c: the state is the permutation S[], the indices i and j, and the
    initialisation flag.  The invariant is that S[] is always a permutation of the
    256 byte values, whatever the seed. *)

From S2P Require Import Prelude Bytes.
Local Open Scope c_scope.

Record rc4 := { s : list Z; s_i : Z; s_j : Z; inited : bool }.

Definition swap_byte (a b : Z) (s : list Z) : res (list Z) :=
  match s !! Z.to_nat a, s !! Z.to_nat b with
  | Some x, Some y => Ok (<[Z.to_nat b := x]> (<[Z.to_nat a := y]> s))
  | _, _ => Err Fault
  end.

(** One step of the key schedule. *)
Definition mix (seedp : list Z) (r : res (list Z * Z)) (i : Z) : res (list Z * Z) :=
  let* sj := r in
  match sj.1 !! Z.to_nat i, seedp !! Z.to_nat (i `mod` 4) with
  | Some x, Some k =>
      let j := u8 (sj.2 + (x + k)) in
      let* s := swap_byte i j sj.1 in
      Ok (s, j)
  | _, _ => Err Fault
  end.

Definition random_init (seed : Z) (_ : rc4) : res (unit * rc4) :=
  let seedp := le32 (u32 seed) in
  let* sj := foldl (mix seedp) (Ok (seqZ 0 256, 0)) (seqZ 0 256) in
  Ok (tt, {| s := sj.1; s_i := 0; s_j := 0; inited := true |}).

Definition random_byte : M rc4 Z := λ r,
  let s_i := u8 (r.(s_i) + 1) in
  match r.(s) !! Z.to_nat s_i with
  | None => Err Fault
  | Some x =>
      let s_j := u8 (r.(s_j) + x) in
      let* s := swap_byte s_i s_j r.(s) in
      match s !! Z.to_nat s_i, s !! Z.to_nat s_j with
      | Some a, Some b =>
          let s_k := u8 (a + b) in
          match s !! Z.to_nat s_k with
          | Some c => Ok (c, {| s := s; s_i := s_i; s_j := s_j; inited := r.(inited) |})
          | None => Err Fault
          end
      | _, _ => Err Fault
      end
  end.

Fixpoint random_loop (size : nat) : M rc4 (list Z) :=
  match size with
  | O => ret []
  | S size => b <- random_byte ;; bs <- random_loop size ;; ret (b :: bs)
  end.

(** The bytes written to BUF. *)
Definition random_bytes (size : Z) : M rc4 (list Z) :=
  r <- get ;;
  (if negb r.(inited) then random_init 0 else ret tt) ;;
  random_loop (Z.to_nat size).

Definition random_ulong : M rc4 Z :=
  bs <- random_bytes 4 ;;
  match bytes_words bs with w :: _ => ret w | [] => fail Fault end.

(** ** The invariant *)

#[local] Instance is_u8_decide b : Decision (is_u8 b).
Proof. unfold is_u8. apply _. Defined.

Definition is_perm (s : list Z) : Prop := s ≡ₚ seqZ 0 256.

Record rwf (r : rc4) : Prop := {
  rw_perm : r.(inited) = true → is_perm r.(s);
  rw_i : is_u8 r.(s_i);
  rw_j : is_u8 r.(s_j);
}.

Lemma perm_lookup s i : is_perm s → is_u8 i → ∃ x, s !! Z.to_nat i = Some x ∧ is_u8 x.
Proof.
  intros Hp Hi. unfold is_perm in Hp. pose proof (Permutation_length Hp) as Hl. rewrite length_seqZ in Hl.
  destruct (lookup_lt_is_Some_2 s (Z.to_nat i)) as [x Hx]; [mlia|]. exists x. split; [done|].
  apply list_elem_of_lookup_2 in Hx. rewrite Hp in Hx. apply elem_of_seqZ in Hx. mlia.
Qed.

Lemma insert_swap_perm (l : list Z) a b x y :
  l !! a = Some x → l !! b = Some y → <[b := x]> (<[a := y]> l) ≡ₚ l.
Proof.
  intros Ha Hb. destruct (decide (a = b)) as [->|Hne].
  - rewrite list_insert_insert_eq. simplify_eq. by rewrite list_insert_id.
  - assert ((<[a := y]> l) !! b = Some y) as Hb' by (by rewrite list_lookup_insert_ne).
    rewrite (insert_take_drop (<[a := y]> l) b x) by (by eapply lookup_lt_Some).
    apply (Permutation_cons_inv (a := y)).
    transitivity (x :: <[a := y]> l).
    + rewrite <- (take_drop_middle _ _ _ Hb') at 3. solve_Permutation.
    + rewrite (insert_take_drop l a y) by (by eapply lookup_lt_Some).
      rewrite <- (take_drop_middle l a x Ha) at 3. solve_Permutation.
Qed.

Lemma swap_byte_ok s a b :
  is_perm s → is_u8 a → is_u8 b → ∃ s', swap_byte a b s = Ok s' ∧ is_perm s'.
Proof.
  intros Hp Ha Hb. destruct (perm_lookup s a Hp Ha) as (x & Hx & _), (perm_lookup s b Hp Hb) as (y & Hy & _).
  unfold swap_byte. rewrite Hx, Hy. eexists. split; [done|]. unfold is_perm. by rewrite insert_swap_perm.
Qed.

Lemma mix_ok seedp s j i :
  length seedp = 4%nat → is_perm s → is_u8 i →
  ∃ s' j', mix seedp (Ok (s, j)) i = Ok (s', j') ∧ is_perm s'.
Proof.
  intros Hl Hp Hi. destruct (perm_lookup s i Hp Hi) as (x & Hx & _). unfold mix. cbn [rbind fst snd]. rewrite Hx.
  destruct (lookup_lt_is_Some_2 seedp (Z.to_nat (i `mod` 4))) as [k ->]; [rewrite Hl; dm_lia|].
  destruct (swap_byte_ok s i (u8 (j + (x + k))) Hp Hi (u8_range _)) as (s' & -> & ?).
  cbn [rbind]. eauto.
Qed.

Lemma mix_all seedp is_ : ∀ s j,
  length seedp = 4%nat → is_perm s → Forall is_u8 is_ →
  ∃ s' j', foldl (mix seedp) (Ok (s, j)) is_ = Ok (s', j') ∧ is_perm s'.
Proof.
  induction is_ as [|i is_ IH]; intros s j Hl Hp Hi; cbn [foldl]; [eauto|].
  inversion Hi; subst. destruct (mix_ok seedp s j i) as (s' & j' & -> & ?); [done..|]. by apply IH.
Qed.

Lemma random_init_ok seed r : ∃ r', random_init seed r = Ok (tt, r') ∧ rwf r' ∧ inited r' = true.
Proof.
  unfold random_init. destruct (mix_all (le32 (u32 seed)) (seqZ 0 256) (seqZ 0 256) 0) as (s' & j' & -> & Hp);
    [done|unfold is_perm; reflexivity| |].
  - apply Forall_forall. intros i Hi%elem_of_seqZ. mlia.
  - cbn [rbind]. eexists. split; [done|]. split; [|done]. split; cbn; [done|mlia|mlia].
Qed.

Lemma random_byte_ok r :
  rwf r → inited r = true →
  ∃ b r', random_byte r = Ok (b, r') ∧ is_u8 b ∧ rwf r' ∧ inited r' = true.
Proof.
  intros [Hp Hi Hj] Hin. specialize (Hp Hin). unfold random_byte. set (i := u8 (s_i r + 1)).
  destruct (perm_lookup (s r) i Hp (u8_range _)) as (x & -> & _). set (j := u8 (s_j r + x)).
  destruct (swap_byte_ok (s r) i j Hp (u8_range _) (u8_range _)) as (s' & -> & Hp'). cbn [rbind].
  destruct (perm_lookup s' i Hp' (u8_range _)) as (a & -> & _).
  destruct (perm_lookup s' j Hp' (u8_range _)) as (b & -> & _).
  destruct (perm_lookup s' (u8 (a + b)) Hp' (u8_range _)) as (c & -> & Hc).
  exists c. eexists. split_and!; [done|done| |done]. split; cbn; [done|apply u8_range|apply u8_range].
Qed.

Lemma random_loop_ok n : ∀ r,
  rwf r → inited r = true →
  ∃ bs r', random_loop n r = Ok (bs, r') ∧ length bs = n ∧ Forall is_u8 bs ∧ rwf r' ∧ inited r' = true.
Proof.
  induction n as [|n IH]; intros r Hr Hin; cbn [random_loop]; [by exists [], r|].
  destruct (random_byte_ok r Hr Hin) as (b & r1 & Hb & Hu & Hr1 & Hin1).
  destruct (IH r1 Hr1 Hin1) as (bs & r2 & Hbs & Hl & Hus & Hr2 & Hin2).
  exists (b :: bs), r2. rewrite (bind_Ok _ _ _ _ _ Hb), (bind_Ok _ _ _ _ _ Hbs).
  split_and!; [done|cbn; lia|by constructor|done..].
Qed.

(** From any state, [random_bytes] returns SIZE bytes without an
    out-of-bounds access and leaves S[] a permutation of the byte values, initialising
    the generator on its first use. *)
Theorem random_bytes_ok r size :
  rwf r → 0 ≤ size →
  ∃ bs r', random_bytes size r = Ok (bs, r') ∧ zlen bs = size ∧ Forall is_u8 bs ∧
    rwf r' ∧ is_perm (s r').
Proof.
  intros Hr Hs. unfold random_bytes. rewrite (bind_Ok _ _ r r r) by done.
  assert (∃ r1, (if negb (inited r) then random_init 0 else ret tt) r = Ok (tt, r1) ∧ rwf r1 ∧ inited r1 = true)
    as (r1 & Hr1 & Hw1 & Hi1).
  { destruct (inited r) eqn:E; cbn [negb]; [by exists r|]. apply random_init_ok. }
  rewrite (bind_Ok _ _ _ _ _ Hr1).
  destruct (random_loop_ok (Z.to_nat size) r1 Hw1 Hi1) as (bs & r2 & Hb & Hl & Hu & Hw2 & Hi2).
  exists bs, r2. split_and!; [done|lia|done|done|by apply Hw2].
Qed.

Lemma random_bytes_ok_witness :
  let r := {| s := []; s_i := 0; s_j := 0; inited := false |} in
  ∃ bs r', random_bytes 3 r = Ok (bs, r') ∧ zlen bs = 3 ∧ is_perm (s r').
Proof.
  intros r. destruct (random_bytes_ok r 3) as (bs & r' & H1 & H2 & _ & _ & H3).
  - split; [intros H; discriminate H|by_decide|by_decide].
  - lia.
  - exists bs, r'. split; [exact H1|]. split; [exact H2|exact H3].
Defined.
