(* ===== verification/Printf.v ===== *)
(** * Formatted output

    lib/stdio.c: printf-style conversion.  A format string is the list of bytes from the
    format pointer on; the terminating null is in the list, and reading past the list
    faults.  The [output] callback only appends characters, so a conversion is the list of
    characters it sends there, in order.  Arguments are what [va_arg] would fetch. *)

From Stdlib Require Import Strings.String Strings.Ascii.
From S2P Require Import Prelude Vaddr Str CStdlib.
Local Open Scope c_scope.

(** The bytes of a string literal, and with its terminator. *)
Definition lit (s : string) : list Z := (λ a, Z.of_N (N_of_ascii a)) <$> list_ascii_of_string s.
Definition fmt (s : string) : list Z := lit s ++ [0].

(** ** Conversions *)

Definition MINUS : Z := 1.
Definition PLUS : Z := 2.
Definition SPACE : Z := 4.
Definition POUND : Z := 8.
Definition ZERO : Z := 16.
Definition GROUP : Z := 32.

Inductive conv_type := CHAR | SHORT | INT | INTMAX | LONG | LONGLONG | PTRDIFFT | SIZET.

Record printf_conversion := { flags : Z; width : Z; precision : Z; type : conv_type }.

Record integer_base := { base : Z; digits : list Z; x_char : Z; group : Z }.

Definition base_d := {| base := 10; digits := lit "0123456789"; x_char := 0; group := 3 |}.
Definition base_o := {| base := 8; digits := lit "01234567"; x_char := 0; group := 3 |}.
Definition base_x := {| base := 16; digits := lit "0123456789abcdef"; x_char := 120; group := 4 |}.
Definition base_X := {| base := 16; digits := lit "0123456789ABCDEF"; x_char := 88; group := 4 |}.

(** [flags & mask]. *)
Definition has (f mask : Z) : bool := negb (Z.land f mask =? 0).

(** An argument: 32 bits, 64 bits, or a string pointer with the bytes it points to. *)
Inductive arg := A32 (z : Z) | A64 (z : Z) | AStr (s : option (list Z)).

Definition va_32 (args : list arg) : res (Z * list arg) :=
  match args with A32 z :: args => Ok (u32 z, args) | _ => Err Fault end.
Definition va_64 (args : list arg) : res (Z * list arg) :=
  match args with A64 z :: args => Ok (u64 z, args) | _ => Err Fault end.

(** ** Parsing a conversion *)

Fixpoint parse_flags (format : list Z) (f : Z) : res (Z * list Z) :=
  match format with
  | [] => Err Fault
  | ch :: format' =>
      if ch =? 45 then parse_flags format' (Z.lor f MINUS)
      else if ch =? 43 then parse_flags format' (Z.lor f PLUS)
      else if ch =? 32 then parse_flags format' (Z.lor f SPACE)
      else if ch =? 35 then parse_flags format' (Z.lor f POUND)
      else if ch =? 48 then parse_flags format' (Z.lor f ZERO)
      else if ch =? 39 then parse_flags format' (Z.lor f GROUP)
      else Ok (f, format)
  end.

Fixpoint parse_digits (format : list Z) (n : Z) : res (Z * list Z) :=
  match format with
  | [] => Err Fault
  | ch :: format' =>
      if isdigit ch then parse_digits format' (s32 (n * 10 + ch - 48)) else Ok (n, format)
  end.

Definition clear (f mask : Z) : Z := Z.land f (not32 mask).

Definition parse_width (format : list Z) (args : list arg) : res (Z * list Z * list arg) :=
  match format with
  | [] => Err Fault
  | ch :: format' =>
      if ch =? 42 then let* r := va_32 args in Ok (s32 r.1, format', r.2)
      else let* r := parse_digits format 0 in Ok (r, args)
  end.

Definition parse_precision (format : list Z) (args : list arg) : res (Z * list Z * list arg) :=
  match format with
  | [] => Err Fault
  | ch :: format' =>
      if ch =? 46 then
        match format' with
        | [] => Err Fault
        | ch' :: format'' =>
            let* r := (if ch' =? 42
                       then let* r := va_32 args in Ok (s32 r.1, format'', r.2)
                       else let* r := parse_digits format' 0 in Ok (r, args)) in
            Ok (if r.1.1 <? 0 then -1 else r.1.1, r.1.2, r.2)
        end
      else Ok (-1, format, args)
  end.

Definition parse_type (format : list Z) : res (conv_type * list Z) :=
  match format with
  | [] => Err Fault
  | ch :: format' =>
      if ch =? 104 then
        match format' with
        | [] => Err Fault
        | ch' :: format'' => if ch' =? 104 then Ok (CHAR, format'') else Ok (SHORT, format')
        end
      else if ch =? 106 then Ok (INTMAX, format')
      else if ch =? 108 then
        match format' with
        | [] => Err Fault
        | ch' :: format'' => if ch' =? 108 then Ok (LONGLONG, format'') else Ok (LONG, format')
        end
      else if ch =? 116 then Ok (PTRDIFFT, format')
      else if ch =? 122 then Ok (SIZET, format')
      else Ok (INT, format)
  end.

Definition parse_conversion (format : list Z) (args : list arg)
    : res (printf_conversion * list Z * list arg) :=
  let* r := parse_flags format 0 in
  let f := r.1 in
  let f := if has f MINUS then clear f ZERO else f in
  let f := if has f PLUS then clear f SPACE else f in
  let* w := parse_width r.2 args in
  let width := w.1.1 in
  let f := if width <? 0 then Z.lor f MINUS else f in
  let width := if width <? 0 then s32 (- width) else width in
  let* p := parse_precision w.1.2 w.2 in
  let precision := p.1.1 in
  let f := if 0 <=? precision then clear f ZERO else f in
  let* t := parse_type p.1.2 in
  Ok ({| flags := f; width := width; precision := precision; type := t.1 |}, t.2, p.2).

(** ** Integers and strings *)

Definition output_dup (ch cnt : Z) : list Z := replicate (Z.to_nat cnt) ch.

(** Appending to [char buf[64]]. *)
Definition push (buf : list Z) (ch : Z) : res (list Z) :=
  if zlen buf <? 64 then Ok (buf ++ [ch]) else Err Fault.

(** The digit loop, least significant digit first. *)
Fixpoint digit_loop (fuel : nat) (group_flag : bool) (b : integer_base)
    (value digit_cnt : Z) (buf : list Z) : res (list Z) :=
  if 0 <? value then
    match fuel with
    | O => Err OutOfFuel
    | S fuel =>
        let* buf := (if group_flag && (0 <? digit_cnt) && (digit_cnt `mod` b.(group) =? 0)
                     then push buf 44 else Ok buf) in
        match b.(digits) !! Z.to_nat (value `mod` b.(base)) with
        | None => Err Fault
        | Some d =>
            let* buf := push buf d in
            digit_loop fuel group_flag b (value `div` b.(base)) (digit_cnt + 1) buf
        end
    end
  else Ok buf.

(** Zeros up to the precision, as long as the buffer keeps a free byte. *)
Fixpoint zero_loop (fuel : nat) (precision : Z) (buf : list Z) : res (list Z) :=
  if (zlen buf <? precision) && (zlen buf <? 63) then
    match fuel with
    | O => Err OutOfFuel
    | S fuel => let* buf := push buf 48 in zero_loop fuel precision buf
    end
  else Ok buf.

Definition format_integer (value : Z) (is_signed negative : bool) (b : integer_base)
    (c : printf_conversion) : res (list Z) :=
  let sign :=
    if is_signed then
      if has c.(flags) PLUS then (if negative then 45 else 43)
      else if has c.(flags) SPACE then (if negative then 45 else 32)
      else if negative then 45 else 0
    else 0 in
  let x := if has c.(flags) POUND && negb (value =? 0) then b.(x_char) else 0 in
  let* buf := digit_loop 64 (has c.(flags) GROUP) b value 0 [] in
  let precision := if c.(precision) <? 0 then 1 else c.(precision) in
  let* buf := zero_loop 64 precision buf in
  let* buf :=
    (if has c.(flags) POUND && (b.(base) =? 8)
        && match last buf with None => true | Some d => negb (d =? 48) end
     then push buf 48 else Ok buf) in
  let pad_cnt := c.(width) - zlen buf - (if negb (x =? 0) then 2 else 0)
                 - (if negb (sign =? 0) then 1 else 0) in
  let pad_cnt := if pad_cnt <? 0 then 0 else pad_cnt in
  Ok ((if negb (has c.(flags) (Z.lor MINUS ZERO)) then output_dup 32 pad_cnt else [])
      ++ (if negb (sign =? 0) then [sign] else [])
      ++ (if negb (x =? 0) then [48; x] else [])
      ++ (if has c.(flags) ZERO then output_dup 48 pad_cnt else [])
      ++ reverse buf
      ++ (if has c.(flags) MINUS then output_dup 32 pad_cnt else [])).

Definition format_string (string : list Z) (length : Z) (c : printf_conversion) : list Z :=
  (if (length <? c.(width)) && negb (has c.(flags) MINUS)
   then output_dup 32 (c.(width) - length) else [])
  ++ take (Z.to_nat length) string
  ++ (if (length <? c.(width)) && has c.(flags) MINUS
      then output_dup 32 (c.(width) - length) else []).

(** [strnlen] on the bytes a string pointer points to. *)
Fixpoint str_nlen (s : list Z) (length maxlen : Z) : res Z :=
  match s with
  | [] => Err Fault
  | ch :: s => if (ch =? 0) || (maxlen <=? length) then Ok length else str_nlen s (length + 1) maxlen
  end.

(** ** __vprintf *)

(** Conversion of a bit pattern to a signed type of [w] values. *)
Definition signed (w x : Z) : Z := let y := x `mod` w in if y <? w `div` 2 then y else y - w.

(** The [intmax_t] value of a %d or %i argument. *)
Definition signed_arg (t : conv_type) (args : list arg) : res (Z * list arg) :=
  match t with
  | CHAR => let* r := va_32 args in Ok (signed W8 r.1, r.2)
  | SHORT => let* r := va_32 args in Ok (signed W16 r.1, r.2)
  | INT | LONG | PTRDIFFT => let* r := va_32 args in Ok (s32 r.1, r.2)
  | INTMAX | LONGLONG => let* r := va_64 args in Ok (s64 r.1, r.2)
  | SIZET =>
      let* r := va_32 args in
      Ok (if SIZE_MAX `div` 2 <? r.1 then r.1 - SIZE_MAX - 1 else r.1, r.2)
  end.

(** The [uintmax_t] value of a %o, %u, %x or %X argument. *)
Definition unsigned_arg (t : conv_type) (args : list arg) : res (Z * list arg) :=
  match t with
  | CHAR => let* r := va_32 args in Ok (r.1 `mod` W8, r.2)
  | SHORT => let* r := va_32 args in Ok (r.1 `mod` W16, r.2)
  | INT | LONG | SIZET => va_32 args
  | INTMAX | LONGLONG => va_64 args
  | PTRDIFFT =>
      let* r := va_32 args in
      Ok (Z.land (u64 (s32 r.1)) (Z.lor (Z.shiftl 2147483647 1) 1), r.2)
  end.

(** One conversion character: the output and the remaining arguments.  [no_conv]
    prints the message for an unsupported conversion. *)
Definition convert (no_conv : list Z → Z → res (list Z)) (ch : Z) (c : printf_conversion)
    (args : list arg) : res (list Z * list arg) :=
  if (ch =? 100) || (ch =? 105) then
    let* r := signed_arg c.(type) args in
    let value := r.1 in
    let* out := format_integer (u64 (if value <? 0 then - value else value)) true (value <? 0) base_d c in
    Ok (out, r.2)
  else if (ch =? 111) || (ch =? 117) || (ch =? 120) || (ch =? 88) then
    let* r := unsigned_arg c.(type) args in
    let b := if ch =? 111 then base_o else if ch =? 117 then base_d
             else if ch =? 120 then base_x else base_X in
    let* out := format_integer r.1 false false b c in
    Ok (out, r.2)
  else if ch =? 99 then
    let* r := va_32 args in
    Ok (format_string [u8 r.1] 1 c, r.2)
  else if ch =? 115 then
    match args with
    | AStr s :: args =>
        let s := default (fmt "(null)") s in
        let* n := str_nlen s 0 (u32 c.(precision)) in
        Ok (format_string s n c, args)
    | _ => Err Fault
    end
  else if ch =? 112 then
    let* r := va_32 args in
    let* out := format_integer r.1 false false base_x
      {| flags := POUND; width := c.(width); precision := c.(precision); type := c.(type) |} in
    Ok (out, r.2)
  else if (ch =? 102) || (ch =? 101) || (ch =? 69) || (ch =? 103) || (ch =? 71) || (ch =? 110) then
    let* out := no_conv (fmt "<<no %%%c in kernel>>") ch in Ok (out, args)
  else
    let* out := no_conv (fmt "<<no %%%c conversion>>") ch in Ok (out, args).

Fixpoint vprintf (fuel : nat) (format : list Z) (args : list arg) : res (list Z) :=
  match fuel with
  | O => Err OutOfFuel
  | S fuel =>
      match format with
      | [] => Err Fault
      | ch :: format =>
          if ch =? 0 then Ok []
          else if negb (ch =? 37) then
            let* out := vprintf fuel format args in Ok (ch :: out)
          else
            match format with
            | [] => Err Fault
            | ch :: format' =>
                if ch =? 37 then
                  let* out := vprintf fuel format' args in Ok (37 :: out)
                else
                  let* p := parse_conversion format args in
                  match p.1.2 with
                  | [] => Err Fault
                  | conv :: format =>
                      let* r := convert (λ f ch, vprintf fuel f [A32 ch]) conv p.1.1 p.2 in
                      let* out := vprintf fuel format r.2 in
                      Ok (r.1 ++ out)
                  end
            end
      end
  end.

(** Fuel for a format: one step per character, and room for the built-in messages. *)
Definition __vprintf (format : list Z) (args : list arg) : res (list Z) :=
  vprintf (length format + 64) format args.

Definition __printf (format : list Z) (args : list arg) : res (list Z) := __vprintf format args.
Definition printf (format : list Z) (args : list arg) : res (list Z) := __vprintf format args.

(** ** vsnprintf *)

Record vsnprintf_aux := { aux_buf : list Z; aux_length : Z; aux_max_length : Z }.

Definition vsnprintf_helper (aux : vsnprintf_aux) (ch : Z) : vsnprintf_aux :=
  {| aux_buf := if aux.(aux_length) <? aux.(aux_max_length)
                then aux.(aux_buf) ++ [ch] else aux.(aux_buf);
     aux_length := s32 (aux.(aux_length) + 1);
     aux_max_length := aux.(aux_max_length) |}.

(** The bytes stored from BUFFER on, and the result. *)
Definition vsnprintf (buf_size : Z) (format : list Z) (args : list arg) : res (list Z * Z) :=
  let aux := {| aux_buf := []; aux_length := 0;
                aux_max_length := s32 (if 0 <? buf_size then buf_size - 1 else 0) |} in
  let* out := __vprintf format args in
  let aux := foldl vsnprintf_helper aux out in
  Ok (if 0 <? buf_size then aux.(aux_buf) ++ [0] else aux.(aux_buf), aux.(aux_length)).

Definition snprintf (buf_size : Z) (format : list Z) (args : list arg) : res (list Z * Z) :=
  vsnprintf buf_size format args.

(** ** hex_dump *)

(** Concatenated output of a sequence of [printf] calls. *)
Fixpoint outputs (rs : list (res (list Z))) : res (list Z) :=
  match rs with
  | [] => Ok []
  | r :: rs => let* a := r in let* b := outputs rs in Ok (a ++ b)
  end.

Definition dump_byte (buf : list Z) (i : Z) : Z := default 0 (buf !! Z.to_nat i).

Definition hex_dump_line (ofs : Z) (buf : list Z) (size : Z) (ascii : bool) (start endp : Z) : res (list Z) :=
  let per_line := 16 in
  outputs (
    [printf (fmt "%08jx  ") [A64 (ROUND_DOWN ofs per_line)]]
    ++ ((λ _, printf (fmt "   ") []) <$> seqZ 0 start)
    ++ ((λ i, printf (fmt "%02hhx%c")
                [A32 (dump_byte buf (i - start)); A32 (if i =? per_line `div` 2 - 1 then 45 else 32)])
        <$> seqZ start (endp - start))
    ++ (if ascii then
          ((λ _, printf (fmt "   ") []) <$> seqZ endp (per_line - endp))
          ++ [printf (fmt "|") []]
          ++ ((λ _, printf (fmt " ") []) <$> seqZ 0 start)
          ++ ((λ i, printf (fmt "%c")
                      [A32 (let b := dump_byte buf (i - start) in if isprint b then b else 46)])
              <$> seqZ start (endp - start))
          ++ ((λ _, printf (fmt " ") []) <$> seqZ endp (per_line - endp))
          ++ [printf (fmt "|") []]
        else [])
    ++ [printf [10; 0] []]).

Fixpoint hex_dump (fuel : nat) (ofs : Z) (buf : list Z) (size : Z) (ascii : bool) : res (list Z) :=
  if 0 <? size then
    match fuel with
    | O => Err OutOfFuel
    | S fuel =>
        let per_line := 16 in
        let start := ofs `mod` per_line in
        let endp := if size <? per_line - start then start + size else per_line in
        let n := endp - start in
        let* line := hex_dump_line ofs buf size ascii start endp in
        let* rest := hex_dump fuel (u32 (ofs + n)) (drop (Z.to_nat n) buf) (size - n) ascii in
        Ok (line ++ rest)
    end
  else Ok [].

Example printf_smoke :
  printf (fmt "%d|%5u|%-4x|%#o|%'d|%s|%c") [A32 (-42); A32 7; A32 255; A32 8; A32 1234567;
    AStr (Some (fmt "hi")); A32 33] = Ok (lit "-42|    7|ff  |010|1,234,567|hi|!") ∧
  printf (fmt "%08jx") [A64 48879] = Ok (lit "0000beef") ∧
  hex_dump 8 3 [65; 66; 7] 3 false =
    Ok (lit "00000000           41 42 07 " ++ [10]).
Proof. vm_compute. done. Qed.

(** ** The digit buffer never overflows *)

Lemma known_base_ok b :
  b ∈ [base_d; base_o; base_x; base_X] →
  8 ≤ b.(base) ∧ ∀ v, 0 ≤ v → is_Some (b.(digits) !! Z.to_nat (v `mod` b.(base))).
Proof.
  intros H. assert (8 ≤ b.(base) ∧ zlen b.(digits) = b.(base)) as [H1 H2].
  { rewrite !elem_of_cons in H. destruct_or!; [..|by apply not_elem_of_nil in H]; by subst b. }
  split; [done|]. intros v Hv. apply lookup_lt_is_Some_2.
  pose proof (Z.mod_pos_bound v b.(base)). lia.
Qed.

Lemma push_ok buf ch : zlen buf < 64 → push buf ch = Ok (buf ++ [ch]).
Proof. intros H. unfold push. by rewrite (proj2 (Z.ltb_lt _ _) H). Qed.

(** [k] more digits fit a value below [8 ^ k]; every digit takes at most two bytes. *)
Lemma digit_loop_ok b g : b ∈ [base_d; base_o; base_x; base_X] → ∀ (k fuel : nat) v cnt buf,
  (k ≤ fuel)%nat → 0 ≤ v < 8 ^ Z.of_nat k → zlen buf + 2 * Z.of_nat k ≤ 64 →
  ∃ buf', digit_loop fuel g b v cnt buf = Ok buf' ∧ zlen buf' ≤ zlen buf + 2 * Z.of_nat k.
Proof.
  intros Hb. destruct (known_base_ok b Hb) as [Hb8 Hd].
  induction k as [|k IH]; intros fuel v cnt buf Hf Hv Hl.
  - exists buf. split; [|lia]. replace v with 0 by (cbn in Hv; lia). by destruct fuel.
  - destruct (Z.ltb_spec 0 v) as [Hpos|]; [|exists buf; replace v with 0 by lia; split; [by destruct fuel|lia]].
    destruct fuel as [|fuel]; [lia|]. cbn [digit_loop]. rewrite (proj2 (Z.ltb_lt 0 v) Hpos).
    destruct (Hd v) as [d ->]; [lia|].
    assert (0 ≤ v `div` base b < 8 ^ Z.of_nat k) as Hv'.
    { split; [apply Z.div_pos; lia|]. apply Z.div_lt_upper_bound; [lia|].
      rewrite Nat2Z.inj_succ, Z.pow_succ_r in Hv by lia. assert (0 < 8 ^ Z.of_nat k) by (apply Z.pow_pos_nonneg; lia).
      nia. }
    destruct (g && (0 <? cnt) && (cnt `mod` group b =? 0)); cbn [rbind];
      rewrite !push_ok by (rewrite ?length_app; cbn [length]; lia); cbn [rbind].
    + rewrite push_ok by (rewrite ?length_app; cbn [length]; lia). cbn [rbind].
      destruct (IH fuel (v `div` base b) (cnt + 1) ((buf ++ [44]) ++ [d])) as (buf' & -> & ?);
        [lia|done|rewrite !length_app; cbn [length]; lia|].
      exists buf'. split; [done|]. rewrite !length_app in *. cbn [length] in *. lia.
    + destruct (IH fuel (v `div` base b) (cnt + 1) (buf ++ [d])) as (buf' & -> & ?);
        [lia|done|rewrite !length_app; cbn [length]; lia|].
      exists buf'. split; [done|]. rewrite !length_app in *. cbn [length] in *. lia.
Qed.

Lemma zero_loop_ok p : ∀ fuel buf,
  (64 ≤ fuel + length buf)%nat → zlen buf ≤ 63 →
  ∃ buf', zero_loop fuel p buf = Ok buf' ∧ zlen buf' ≤ 63.
Proof.
  induction fuel as [|fuel IH]; intros buf Hf Hl.
  - lia.
  - cbn [zero_loop]. destruct ((zlen buf <? p) && (zlen buf <? 63)) eqn:E; [|by exists buf].
    apply andb_true_iff in E as [_ E%Z.ltb_lt]. rewrite push_ok by lia. cbn [rbind].
    apply IH; rewrite length_app; cbn [length]; lia.
Qed.

Lemma format_integer_total value is_signed negative b c :
  is_u64 value → b ∈ [base_d; base_o; base_x; base_X] →
  ∃ out, format_integer value is_signed negative b c = Ok out.
Proof.
  intros Hv Hb. unfold format_integer.
  destruct (digit_loop_ok b (has (flags c) GROUP) Hb 22 64 value 0 []) as (buf & -> & Hl);
    [lia|unfold is_u64, W64 in Hv; change (8 ^ Z.of_nat 22) with 73786976294838206464; lia|cbn; lia|].
  cbn [rbind]. cbn [length] in Hl.
  destruct (zero_loop_ok (if precision c <? 0 then 1 else precision c) 64 buf) as (buf2 & -> & Hl2); [lia|lia|].
  cbn [rbind]. destruct (has (flags c) POUND && (base b =? 8) && _); [rewrite push_ok by lia|]; cbn [rbind]; eauto.
Qed.

(** ** Decimal output and [atoi] *)

(** The decimal digits of [v], least significant first. *)
Fixpoint dec (fuel : nat) (v : Z) : list Z :=
  match fuel with
  | O => []
  | S fuel => if 0 <? v then 48 + v `mod` 10 :: dec fuel (v `div` 10) else []
  end.

Lemma digit_d v : 0 ≤ v < 10 → digits base_d !! Z.to_nat v = Some (48 + v).
Proof.
  intros Hv. assert (v = 0 ∨ v = 1 ∨ v = 2 ∨ v = 3 ∨ v = 4 ∨ v = 5 ∨ v = 6 ∨ v = 7 ∨ v = 8 ∨ v = 9) as H by lia.
  destruct_or! H; by subst v.
Qed.

Lemma digit_loop_dec : ∀ (k fuel : nat) v cnt buf,
  (k ≤ fuel)%nat → 0 ≤ v < 10 ^ Z.of_nat k → zlen buf + Z.of_nat k ≤ 64 →
  digit_loop fuel false base_d v cnt buf = Ok (buf ++ dec k v).
Proof.
  induction k as [|k IH]; intros fuel v cnt buf Hf Hv Hl.
  - replace v with 0 by (cbn in Hv; lia). cbn [dec]. rewrite app_nil_r. by destruct fuel.
  - cbn [dec]. destruct (Z.ltb_spec 0 v) as [Hpos|].
    2:{ replace v with 0 by lia. rewrite app_nil_r. by destruct fuel. }
    destruct fuel as [|fuel]; [lia|]. cbn [digit_loop]. rewrite (proj2 (Z.ltb_lt 0 v) Hpos). cbn [andb rbind].
    change (base base_d) with 10. rewrite digit_d by dm_lia. rewrite push_ok by lia. cbn [rbind].
    rewrite IH; [by rewrite <- app_assoc|lia| |rewrite length_app; cbn [length]; lia].
    rewrite Nat2Z.inj_succ, Z.pow_succ_r in Hv by lia. split; [apply Z.div_pos; lia|].
    apply Z.div_lt_upper_bound; lia.
Qed.

Lemma dec_digits k v : Forall (λ c, isdigit c = true) (dec k v).
Proof.
  revert v. induction k as [|k IH]; intros v; [constructor|]. cbn. destruct (Z.ltb_spec 0 v); constructor; [|done].
  unfold isdigit. apply andb_true_iff. rewrite !Z.leb_le. dm_lia.
Qed.

(** What the digit loop of [atoi] computes from most significant digits on. *)
Definition parse_neg (v c : Z) : Z := v * 10 - (c - 48).

Lemma dec_value : ∀ k v, 0 ≤ v < 10 ^ Z.of_nat k → foldr (λ c v, parse_neg v c) 0 (dec k v) = - v.
Proof.
  induction k as [|k IH]; intros v Hv; [cbn in *; lia|]. cbn [dec]. destruct (Z.ltb_spec 0 v); [|cbn; lia].
  cbn [foldr]. rewrite IH.
  - unfold parse_neg. pose proof (Z.div_mod v 10). lia.
  - rewrite Nat2Z.inj_succ, Z.pow_succ_r in Hv by lia. split; [apply Z.div_pos; lia|].
    apply Z.div_lt_upper_bound; lia.
Qed.

Lemma parse_mono s : ∀ v, v ≤ 0 → Forall (λ c, isdigit c = true) s → foldl parse_neg v s ≤ v.
Proof.
  induction s as [|c s IH]; intros v Hv Hs; cbn [foldl]; [lia|]. inversion Hs as [|? ? Hc Hs']; subst.
  unfold isdigit in Hc. apply andb_true_iff in Hc as [H1%Z.leb_le H2%Z.leb_le].
  assert (parse_neg v c ≤ v) by (unfold parse_neg; lia). etransitivity; [apply IH|]; [lia|done|done].
Qed.

Lemma atoi_digits m s : ∀ n p v,
  cstr m p s → Forall (λ c, isdigit c = true) s → (length s < n)%nat → v ≤ 0 →
  -2147483648 ≤ foldl parse_neg v s →
  iter n (λ '(s, value),
    c <- ldb s ;;
    if isdigit c then ret (inl (s + 1, s32 (value * 10 - (c - 48)))) else ret (inr value)) (p, v) m
  = Ok (foldl parse_neg v s, m).
Proof.
  induction s as [|c s IH]; intros n p v Hs Hd Hn Hv Hlo; destruct n as [|n]; try (cbn in Hn; lia).
  - apply cstr_nil in Hs. by erewrite iter_step; [|rewrite (bind_Ok _ _ _ _ _ (ldb_ok _ _ _ Hs)); reflexivity].
  - apply cstr_tail in Hs as (Hc & _ & _ & Hs). inversion Hd as [|? ? Hdc Hd']; subst. cbn [foldl] in *.
    assert (parse_neg v c ≤ v) as Hle.
    { unfold isdigit in Hdc. apply andb_true_iff in Hdc as [H1%Z.leb_le H2%Z.leb_le]. unfold parse_neg. lia. }
    pose proof (parse_mono s (parse_neg v c) ltac:(lia) Hd').
    erewrite iter_continue; [apply (IH n (p + 1) (parse_neg v c)); [done|done|cbn in Hn; lia|lia|done]|].
    cbv beta iota. rewrite (bind_Ok _ _ _ _ _ (ldb_ok _ _ _ Hc)), Hdc.
    fold (parse_neg v c). rewrite s32_small by (mc_unfold; lia). done.
Qed.

(** [atoi] on an optional minus sign and digits. *)
Lemma atoi_run m p (neg : bool) s :
  cstr m p ((if neg then [45] else []) ++ s) → p ≠ NULL → s ≠ [] →
  Forall (λ c, isdigit c = true) s → -2147483648 ≤ foldl parse_neg 0 s →
  atoi p m = Ok (if neg then foldl parse_neg 0 s else s32 (- foldl parse_neg 0 s), m).
Proof.
  intros Hs Hp Hne Hd Hlo. unfold atoi. rewrite (proj2 (Z.eqb_neq _ _) Hp), bind_assert by done.
  destruct s as [|d s]; [done|]. inversion Hd as [|? ? Hdd _]; subst.
  unfold isdigit in Hdd. apply andb_true_iff in Hdd as [H1%Z.leb_le H2%Z.leb_le].
  assert (∃ c t, (if neg then [45] else []) ++ d :: s = c :: t ∧ isspace c = false ∧ c ≠ 43 ∧
    (c =? 45) = neg ∧ (neg = true → t = d :: s)) as (c & t & Ect & Hsp & H43 & H45 & Ht).
  { destruct neg; cbn; [by exists 45, (d :: s)|]. exists d, s. split_and!; [done| |lia|apply Z.eqb_neq; lia|done].
    unfold isspace. repeat (rewrite (proj2 (Z.eqb_neq d _)) by lia). done. }
  rewrite Ect in Hs. pose proof (cstr_size _ _ _ Hs) as Hsz.
  destruct (cstr_tail _ _ _ _ Hs) as (Hc & _ & _ & Htl).
  erewrite bind_Ok; [|apply iter_break; rewrite (bind_Ok _ _ _ _ _ (ldb_ok _ _ _ Hc)), Hsp; reflexivity].
  rewrite (bind_Ok _ _ _ _ _ (ldb_ok _ _ _ Hc)), (proj2 (Z.eqb_neq c 43) H43), H45.
  destruct neg.
  - rewrite (Ht eq_refl) in *. erewrite bind_Ok; [|apply (atoi_digits m (d :: s) _ (p + 1) 0); [done|done|cbn in *; lia|lia|done]].
    done.
  - cbn in Ect. rewrite <- Ect in *. erewrite bind_Ok; [|apply (atoi_digits m (d :: s) _ p 0); [done|done|cbn in *; lia|lia|done]].
    done.
Qed.

(** The digits of a number as printed. *)
Definition decimal (v : Z) : list Z := if v =? 0 then [48] else reverse (dec 10 v).

Lemma s32_u32 n : s32 (u32 n) = s32 n.
Proof. unfold s32, u32. by rewrite Zmod_mod. Qed.

Lemma printf_d n :
  is_s32 n → printf (fmt "%d") [A32 n] = Ok ((if n <? 0 then [45] else []) ++ decimal (Z.abs n)).
Proof.
  intros Hn.
  assert (printf (fmt "%d") [A32 n] =
    (let* r := (let* out := format_integer (u64 (if s32 (u32 n) <? 0 then - s32 (u32 n) else s32 (u32 n)))
       true (s32 (u32 n) <? 0) base_d {| flags := 0; width := 0; precision := -1; type := INT |} in
       Ok (out, @nil arg)) in Ok (r.1 ++ []))%C) as -> by reflexivity.
  rewrite s32_u32, s32_small by done.
  assert ((if n <? 0 then - n else n) = Z.abs n) as -> by (zcase; lia).
  rewrite u64_small by mlia. unfold format_integer. cbn [flags precision width].
  change (has 0 PLUS) with false. change (has 0 SPACE) with false. change (has 0 POUND) with false.
  change (has 0 GROUP) with false. change (has 0 ZERO) with false. change (has 0 MINUS) with false.
  change (has 0 (Z.lor MINUS ZERO)) with false. change (-1 <? 0) with true. cbn [andb negb Z.eqb].
  rewrite (digit_loop_dec 10 64 (Z.abs n) 0 []) by (cbn [length]; mlia). cbn [rbind app].
  assert (∃ buf, zero_loop 64 1 (dec 10 (Z.abs n)) = Ok buf ∧ reverse buf = decimal (Z.abs n)) as (buf & -> & Eb).
  { unfold decimal. destruct (Z.eqb_spec (Z.abs n) 0) as [E|E]; [rewrite E; by eexists|].
    eexists. split; [|done]. assert (zlen (dec 10 (Z.abs n)) ≠ 0) as Hne.
    { cbn [dec]. destruct (Z.ltb_spec 0 (Z.abs n)); [cbn; lia|lia]. }
    cbn [zero_loop]. by rewrite (proj2 (Z.ltb_ge (zlen (dec 10 (Z.abs n))) 1)) by lia. }
  cbn [rbind fst]. f_equal. rewrite Eb, app_nil_r.
  assert (∀ k : Z, (if 0 - zlen buf - 0 - k <? 0 then 0 else 0 - zlen buf - 0 - k) = 0 ∨ k < 0) as Hpad.
  { intros k. zcase; lia. }
  destruct (Z.ltb_spec n 0); cbn [Z.eqb negb app].
  - destruct (Hpad 1) as [-> |]; [|lia]. cbn. by rewrite app_nil_r.
  - destruct (Hpad 0) as [-> |]; [|lia]. cbn. by rewrite app_nil_r.
Qed.

Lemma foldl_reverse (l : list Z) a :
  foldl parse_neg a (reverse l) = foldr (λ c v, parse_neg v c) a l.
Proof. induction l as [|c l IH]; [done|]. rewrite reverse_cons, foldl_snoc, IH. done. Qed.

Lemma decimal_value v :
  0 ≤ v < 10 ^ 10 → foldl parse_neg 0 (decimal v) = - v ∧ decimal v ≠ [] ∧
  Forall (λ c, isdigit c = true) (decimal v).
Proof.
  intros Hv. unfold decimal. destruct (Z.eqb_spec v 0) as [->|Hne]; [by repeat constructor|].
  split_and!.
  - rewrite foldl_reverse. by apply (dec_value 10).
  - intros E. apply (f_equal reverse) in E. rewrite reverse_involutive in E. cbn [dec] in E.
    by rewrite (proj2 (Z.ltb_lt 0 v)) in E by lia.
  - apply Forall_reverse, dec_digits.
Qed.

Lemma helper_fold out : ∀ buf n max,
  0 ≤ n → n + zlen out < 2147483648 →
  let aux := foldl vsnprintf_helper {| aux_buf := buf; aux_length := n; aux_max_length := max |} out in
  aux_buf aux = buf ++ take (Z.to_nat (max - n)) out ∧ aux_length aux = n + zlen out.
Proof.
  induction out as [|c out IH]; intros buf n max Hn Hl; cbn [foldl length] in *.
  - rewrite take_nil, app_nil_r. cbn. split; [done|lia].
  - unfold vsnprintf_helper at 2 4. cbn [aux_buf aux_length aux_max_length].
    rewrite s32_small by mlia. destruct (IH (if n <? max then buf ++ [c] else buf) (n + 1) max) as [E1 E2]; [lia|lia|].
    rewrite E1, E2. split; [|lia]. destruct (Z.ltb_spec n max).
    + rewrite <- app_assoc. f_equal. replace (Z.to_nat (max - n)) with (S (Z.to_nat (max - (n + 1)))) by lia. done.
    + by replace (Z.to_nat (max - n)) with 0%nat by lia; replace (Z.to_nat (max - (n + 1))) with 0%nat by lia.
Qed.

(** [format_integer] never writes past its 64-byte buffer and always
    terminates, for every 64-bit value, base, flags, width and precision. *)
Theorem format_integer_safe value is_signed negative b c :
  is_u64 value → b ∈ [base_d; base_o; base_x; base_X] →
  ∃ out, format_integer value is_signed negative b c = Ok out.
Proof. apply format_integer_total. Qed.

Lemma format_integer_safe_witness :
  ∃ out, format_integer 18446744073709551615 false false base_o
    {| flags := 40; width := 0; precision := 1000; type := INTMAX |} = Ok out.
Proof. apply format_integer_safe; [split; reflexivity || lia|right; left]. Defined.

(** [vsnprintf] stores at most BUF_SIZE - 1 characters of the formatted
    text and a terminating null, never more than BUF_SIZE bytes, and returns the length
    the whole text has. *)
Theorem vsnprintf_ok buf_size format args out :
  0 < buf_size ≤ 2147483648 → __vprintf format args = Ok out → zlen out < 2147483648 →
  ∃ buf, vsnprintf buf_size format args = Ok (buf, zlen out) ∧
    buf = take (Z.to_nat (buf_size - 1)) out ++ [0] ∧ zlen buf ≤ buf_size.
Proof.
  intros Hb Ho Hl. unfold vsnprintf. rewrite Ho, (proj2 (Z.ltb_lt 0 buf_size)) by lia. cbn [rbind].
  rewrite s32_small by mlia.
  destruct (helper_fold out [] 0 (buf_size - 1)) as [E1 E2]; [lia|lia|]. rewrite E1, E2, Z.sub_0_r. cbn [app].
  eexists. split; [done|]. split; [done|]. rewrite length_app, length_take. cbn [length]. lia.
Qed.

Lemma vsnprintf_ok_witness :
  ∃ buf, vsnprintf 4 (fmt "%d!") [A32 12345] = Ok (buf, 6) ∧ buf = lit "123" ++ [0].
Proof.
  destruct (vsnprintf_ok 4 (fmt "%d!") [A32 12345] (lit "12345!")) as (buf & H1 & H2 & _).
  - lia.
  - vm_compute. reflexivity.
  - vm_compute. reflexivity.
  - exists buf. split; [exact H1|exact H2].
Defined.

(** Printing an [int] with %d and reading it back with [atoi] gives the same
    number, over the whole range of [int]. *)
Theorem printf_atoi_roundtrip n m p s :
  is_s32 n → printf (fmt "%d") [A32 n] = Ok s → cstr m p s → p ≠ NULL → atoi p m = Ok (n, m).
Proof.
  intros Hn Hs Hc Hp. rewrite printf_d in Hs by done. injection Hs as <-.
  destruct (decimal_value (Z.abs n)) as (Hv & Hne & Hd); [mlia|].
  rewrite (atoi_run m p (n <? 0) (decimal (Z.abs n))); [|by destruct (n <? 0)|done|done|done|mlia].
  rewrite Hv. destruct (Z.ltb_spec n 0); do 2 f_equal; [lia|]. rewrite s32_small by mlia. lia.
Qed.

Lemma printf_atoi_roundtrip_witness :
  let m := store ∅ 100 [45; 50; 49; 52; 55; 52; 56; 51; 54; 52; 56; 0] in
  printf (fmt "%d") [A32 (-2147483648)] = Ok (lit "-2147483648") ∧ atoi 100 m = Ok (-2147483648, m).
Proof.
  intros m. assert (printf (fmt "%d") [A32 (-2147483648)] = Ok (lit "-2147483648")) as Hp
    by (vm_compute; reflexivity).
  split; [exact Hp|].
  apply (printf_atoi_roundtrip (-2147483648) m 100 (lit "-2147483648")); [split; lia|exact Hp|by_decide|done].
Defined.

(** A format string that ends in a lone % sends [__vprintf] past the
    terminating null: after reporting the unknown conversion, the loop's increment
    steps over the null byte and the next read is outside the string. *)
Theorem vprintf_trailing_percent pre args :
  Forall (λ c, c ≠ 0 ∧ c ≠ 37) pre → __vprintf (pre ++ [37; 0]) args = Err Fault.
Proof.
  intros Hpre. unfold __vprintf. rewrite length_app. cbn [length].
  replace (length pre + 2 + 64)%nat with (length pre + 66)%nat by lia.
  induction Hpre as [|c pre [H0 H37] _ IH]; cbn [app length Nat.add].
  - vm_compute. reflexivity.
  - cbn [vprintf]. rewrite (proj2 (Z.eqb_neq c 0) H0), (proj2 (Z.eqb_neq c 37) H37). cbn [negb].
    by rewrite IH.
Qed.

Lemma vprintf_trailing_percent_witness : __vprintf (fmt "50%") [] = Err Fault.
Proof. apply (vprintf_trailing_percent [53; 48] []). by_decide. Defined.
