(* ===== verification/Sched.v ===== *)
(** * Threads, interrupts and synchronisation

    threads/thread.c, threads/synch.c and the control flow of threads/interrupt.c on a
    uniprocessor.  A C function that calls [schedule] stops in the middle and goes on when
    its thread is chosen again, so each thread carries a stack of [frame]s: the code that
    still has to run, resume points of suspended functions first.  One step runs one frame
    of the running thread; between steps, when interrupts are on, an external interrupt may
    strike.  Sections that run with interrupts off are thereby atomic, and every other
    interleaving of threads is a sequence of steps.

    Addresses of threads, semaphores, locks and conditions are integers; the intrusive
    lists are the sequences that [DList] shows them to represent. *)

From S2P Require Import Prelude.
Local Open Scope c_scope.

Inductive intr_level := INTR_OFF | INTR_ON.
#[export] Instance intr_level_eq_dec : EqDecision intr_level.
Proof. solve_decision. Defined.

Inductive thread_status := THREAD_RUNNING | THREAD_READY | THREAD_BLOCKED | THREAD_DYING.
#[export] Instance thread_status_eq_dec : EqDecision thread_status.
Proof. solve_decision. Defined.

Definition PRI_MIN : Z := 0.
Definition PRI_DEFAULT : Z := 31.
Definition PRI_MAX : Z := 63.
Definition TID_ERROR : Z := -1.
Definition TIME_SLICE : Z := 4.

(** What a thread still has to run.  The first group are the calls that code above this
    layer makes; [waiter] is the address of the local [struct semaphore_elem] of
    [cond_wait], [page] and [info] what [palloc_get_page] and [malloc] answer, and the
    arguments of [ThreadExit] are the calls that [process_exit] and [file_close] make.  The
    second group are points in the middle of a function, at which a thread is suspended or
    may be interrupted. *)
Inductive code :=
  | SemaDown (s : Z) | SemaUp (s : Z) | SemaTryDown (s : Z)
  | LockAcquire (l : Z) | LockTryAcquire (l : Z) | LockRelease (l : Z)
  | CondWait (c l waiter : Z) | CondSignal (c l : Z) | CondBroadcast (c l : Z)
  | ThreadYield
  | ThreadExit (pe fc : list code)
  | ThreadCreate (page prio inf : Z) (function : list code)
  | IntrEnable | IntrDisable
  | ThreadStart (page inf idle_started : Z)
  | Idle (started : Z)
  (* resume points *)
  | FSetLevel (old : intr_level)              (* [intr_set_level (old_level)] *)
  | FIret                                     (* return from an external interrupt *)
  | FSemaLoop (s : Z) (old : intr_level)      (* the [while] loop of [sema_down] *)
  | FSetHolder (l : Z)                        (* [lock->holder = thread_current ()] *)
  | FBroadcast (c l : Z)                      (* the loop of [cond_broadcast] *)
  | FTid (t : Z)                              (* [tid = next_tid++] in [allocate_tid] *)
  | FStart (t inf : Z)                        (* [thread_create] after [allocate_tid] *)
  | FUpExec | FUpWait | FDie                  (* the end of [thread_exit] *)
  | FIdle                                     (* the loop of [idle] *)
  | FHlt.                                     (* [sti; hlt] *)

Record thread := {
  status : thread_status;
  tid : Z;
  priority : Z;
  stack : list code;
  child_list : list Z;
  child_info_list : list Z;
  parent_thread : Z;
  info : Z;
  pagedir : bool;          (* whether it has a page directory *)
}.

Record semaphore := { value : Z; waiters : list Z }.

(** [struct thread_info]; its two semaphores live at fixed offsets. *)
Record thread_info := {
  i_tid : Z; load_success : bool; exit_status : Z; is_waited : bool; is_killed : bool;
}.
Definition wait_sema (info : Z) : Z := info + 12.
Definition exec_sema (info : Z) : Z := info + 32.
(** The semaphore inside a lock and inside a [struct semaphore_elem]. *)
Definition lock_sema (l : Z) : Z := l + 4.
Definition elem_sema (w : Z) : Z := w + 8.

Record sys := {
  threads : gmap Z thread;
  ready_list : list Z;
  running : Z;
  idle_thread : Z;
  initial_thread : Z;
  semas : gmap Z semaphore;
  holders : gmap Z Z;              (* [lock->holder] *)
  conds : gmap Z (list Z);
  infos : gmap Z thread_info;
  intr : intr_level;
  in_external_intr : bool;
  yield_on_return : bool;
  thread_ticks : Z;
  idle_ticks : Z;
  kernel_ticks : Z;
  user_ticks : Z;
  next_tid : Z;
}.

(** ** Field updates *)

Definition upd_threads (f : gmap Z thread → gmap Z thread) (σ : sys) : sys :=
  {| threads := f σ.(threads); ready_list := σ.(ready_list); running := σ.(running);
     idle_thread := σ.(idle_thread); initial_thread := σ.(initial_thread); semas := σ.(semas);
     holders := σ.(holders); conds := σ.(conds); infos := σ.(infos); intr := σ.(intr);
     in_external_intr := σ.(in_external_intr); yield_on_return := σ.(yield_on_return);
     thread_ticks := σ.(thread_ticks); idle_ticks := σ.(idle_ticks);
     kernel_ticks := σ.(kernel_ticks); user_ticks := σ.(user_ticks); next_tid := σ.(next_tid) |}.
Definition upd_ready (f : list Z → list Z) (σ : sys) : sys :=
  {| threads := σ.(threads); ready_list := f σ.(ready_list); running := σ.(running);
     idle_thread := σ.(idle_thread); initial_thread := σ.(initial_thread); semas := σ.(semas);
     holders := σ.(holders); conds := σ.(conds); infos := σ.(infos); intr := σ.(intr);
     in_external_intr := σ.(in_external_intr); yield_on_return := σ.(yield_on_return);
     thread_ticks := σ.(thread_ticks); idle_ticks := σ.(idle_ticks);
     kernel_ticks := σ.(kernel_ticks); user_ticks := σ.(user_ticks); next_tid := σ.(next_tid) |}.
Definition upd_running (t : Z) (σ : sys) : sys :=
  {| threads := σ.(threads); ready_list := σ.(ready_list); running := t;
     idle_thread := σ.(idle_thread); initial_thread := σ.(initial_thread); semas := σ.(semas);
     holders := σ.(holders); conds := σ.(conds); infos := σ.(infos); intr := σ.(intr);
     in_external_intr := σ.(in_external_intr); yield_on_return := σ.(yield_on_return);
     thread_ticks := σ.(thread_ticks); idle_ticks := σ.(idle_ticks);
     kernel_ticks := σ.(kernel_ticks); user_ticks := σ.(user_ticks); next_tid := σ.(next_tid) |}.
Definition upd_semas (f : gmap Z semaphore → gmap Z semaphore) (σ : sys) : sys :=
  {| threads := σ.(threads); ready_list := σ.(ready_list); running := σ.(running);
     idle_thread := σ.(idle_thread); initial_thread := σ.(initial_thread); semas := f σ.(semas);
     holders := σ.(holders); conds := σ.(conds); infos := σ.(infos); intr := σ.(intr);
     in_external_intr := σ.(in_external_intr); yield_on_return := σ.(yield_on_return);
     thread_ticks := σ.(thread_ticks); idle_ticks := σ.(idle_ticks);
     kernel_ticks := σ.(kernel_ticks); user_ticks := σ.(user_ticks); next_tid := σ.(next_tid) |}.
Definition upd_locks (f : gmap Z Z → gmap Z Z) (g : gmap Z (list Z) → gmap Z (list Z)) (σ : sys) : sys :=
  {| threads := σ.(threads); ready_list := σ.(ready_list); running := σ.(running);
     idle_thread := σ.(idle_thread); initial_thread := σ.(initial_thread); semas := σ.(semas);
     holders := f σ.(holders); conds := g σ.(conds); infos := σ.(infos); intr := σ.(intr);
     in_external_intr := σ.(in_external_intr); yield_on_return := σ.(yield_on_return);
     thread_ticks := σ.(thread_ticks); idle_ticks := σ.(idle_ticks);
     kernel_ticks := σ.(kernel_ticks); user_ticks := σ.(user_ticks); next_tid := σ.(next_tid) |}.
Definition upd_intr (i : intr_level) (ext yield : bool) (σ : sys) : sys :=
  {| threads := σ.(threads); ready_list := σ.(ready_list); running := σ.(running);
     idle_thread := σ.(idle_thread); initial_thread := σ.(initial_thread); semas := σ.(semas);
     holders := σ.(holders); conds := σ.(conds); infos := σ.(infos); intr := i;
     in_external_intr := ext; yield_on_return := yield;
     thread_ticks := σ.(thread_ticks); idle_ticks := σ.(idle_ticks);
     kernel_ticks := σ.(kernel_ticks); user_ticks := σ.(user_ticks); next_tid := σ.(next_tid) |}.
Definition upd_ticks (t i k u : Z) (σ : sys) : sys :=
  {| threads := σ.(threads); ready_list := σ.(ready_list); running := σ.(running);
     idle_thread := σ.(idle_thread); initial_thread := σ.(initial_thread); semas := σ.(semas);
     holders := σ.(holders); conds := σ.(conds); infos := σ.(infos); intr := σ.(intr);
     in_external_intr := σ.(in_external_intr); yield_on_return := σ.(yield_on_return);
     thread_ticks := t; idle_ticks := i; kernel_ticks := k; user_ticks := u;
     next_tid := σ.(next_tid) |}.
Definition upd_tids (n : Z) (f : gmap Z thread_info → gmap Z thread_info) (σ : sys) : sys :=
  {| threads := σ.(threads); ready_list := σ.(ready_list); running := σ.(running);
     idle_thread := σ.(idle_thread); initial_thread := σ.(initial_thread); semas := σ.(semas);
     holders := σ.(holders); conds := σ.(conds); infos := f σ.(infos); intr := σ.(intr);
     in_external_intr := σ.(in_external_intr); yield_on_return := σ.(yield_on_return);
     thread_ticks := σ.(thread_ticks); idle_ticks := σ.(idle_ticks);
     kernel_ticks := σ.(kernel_ticks); user_ticks := σ.(user_ticks); next_tid := n |}.

Definition set_status (s : thread_status) (t : thread) : thread :=
  {| status := s; tid := t.(tid); priority := t.(priority); stack := t.(stack);
     child_list := t.(child_list); child_info_list := t.(child_info_list);
     parent_thread := t.(parent_thread); info := t.(info); pagedir := t.(pagedir) |}.
Definition set_stack (k : list code) (t : thread) : thread :=
  {| status := t.(status); tid := t.(tid); priority := t.(priority); stack := k;
     child_list := t.(child_list); child_info_list := t.(child_info_list);
     parent_thread := t.(parent_thread); info := t.(info); pagedir := t.(pagedir) |}.
Definition set_tid (n : Z) (t : thread) : thread :=
  {| status := t.(status); tid := n; priority := t.(priority); stack := t.(stack);
     child_list := t.(child_list); child_info_list := t.(child_info_list);
     parent_thread := t.(parent_thread); info := t.(info); pagedir := t.(pagedir) |}.
Definition set_family (children infos_ : list Z) (parent inf : Z) (t : thread) : thread :=
  {| status := t.(status); tid := t.(tid); priority := t.(priority); stack := t.(stack);
     child_list := children; child_info_list := infos_;
     parent_thread := parent; info := inf; pagedir := t.(pagedir) |}.
Definition set_priority (p : Z) (t : thread) : thread :=
  {| status := t.(status); tid := t.(tid); priority := p; stack := t.(stack);
     child_list := t.(child_list); child_info_list := t.(child_info_list);
     parent_thread := t.(parent_thread); info := t.(info); pagedir := t.(pagedir) |}.

Definition modify (f : sys → sys) : M sys unit := λ σ, Ok (tt, f σ).
Definition read {A} (f : sys → A) : M sys A := λ σ, Ok (f σ, σ).
Definition get_thread (t : Z) : M sys thread := λ σ,
  match σ.(threads) !! t with Some th => Ok (th, σ) | None => Err Fault end.
Definition alter_thread (t : Z) (f : thread → thread) : M sys unit :=
  th <- get_thread t ;; modify (upd_threads (<[t := f th]>)).
Definition get_sema (s : Z) : M sys semaphore := λ σ,
  match σ.(semas) !! s with Some x => Ok (x, σ) | None => Err Fault end.
Definition set_sema (s : Z) (x : semaphore) : M sys unit := modify (upd_semas (<[s := x]>)).

(** ** Interrupts *)

Definition intr_get_level : M sys intr_level := read intr.

Definition put_level (i : intr_level) : M sys unit :=
  modify (λ σ, upd_intr i σ.(in_external_intr) σ.(yield_on_return) σ).

Definition intr_context : M sys bool := read in_external_intr.

Definition intr_enable : M sys intr_level :=
  old_level <- intr_get_level ;;
  ic <- intr_context ;;
  assert (negb ic) ;;
  put_level INTR_ON ;;
  ret old_level.

Definition intr_disable : M sys intr_level :=
  old_level <- intr_get_level ;;
  put_level INTR_OFF ;;
  ret old_level.

Definition intr_set_level (level : intr_level) : M sys intr_level :=
  match level with INTR_ON => intr_enable | INTR_OFF => intr_disable end.

Definition intr_yield_on_return : M sys unit :=
  ic <- intr_context ;;
  assert ic ;;
  modify (λ σ, upd_intr σ.(intr) σ.(in_external_intr) true σ).

(** ** The scheduler *)

Definition running_thread : M sys Z := read running.

(** A page that holds a [struct thread] carries [THREAD_MAGIC]. *)
Definition is_thread (t : Z) : M sys bool :=
  read (λ σ, negb (t =? NULL) && bool_decide (is_Some (σ.(threads) !! t))).

Definition thread_current : M sys Z :=
  t <- running_thread ;;
  b <- is_thread t ;;
  assert b ;;
  th <- get_thread t ;;
  assert (bool_decide (th.(status) = THREAD_RUNNING)) ;;
  ret t.

(** Leaves code to run, in front of what the running thread has left. *)
Definition push (ks : list code) : M sys unit :=
  t <- running_thread ;;
  alter_thread t (λ th, set_stack (ks ++ th.(stack)) th).

Definition next_thread_to_run : M sys Z := λ σ,
  match σ.(ready_list) with
  | [] => Ok (σ.(idle_thread), σ)
  | t :: ts => Ok (t, upd_ready (λ _, ts) σ)
  end.

(** [prev] is [NULL] when there was no switch. *)
Definition schedule_tail (prev : Z) : M sys unit :=
  curr <- running_thread ;;
  i <- intr_get_level ;;
  assert (bool_decide (i = INTR_OFF)) ;;
  alter_thread curr (set_status THREAD_RUNNING) ;;
  modify (λ σ, upd_ticks 0 σ.(idle_ticks) σ.(kernel_ticks) σ.(user_ticks) σ) ;;
  if prev =? NULL then ret tt else
  th <- get_thread prev ;;
  init <- read initial_thread ;;
  if bool_decide (th.(status) = THREAD_DYING) && negb (prev =? init) then
    assert (negb (prev =? curr)) ;;
    modify (upd_threads (delete prev))
  else ret tt.

Definition schedule : M sys unit :=
  curr <- running_thread ;;
  next <- next_thread_to_run ;;
  i <- intr_get_level ;;
  assert (bool_decide (i = INTR_OFF)) ;;
  th <- get_thread curr ;;
  assert (negb (bool_decide (th.(status) = THREAD_RUNNING))) ;;
  b <- is_thread next ;;
  assert b ;;
  if curr =? next then schedule_tail NULL
  else modify (upd_running next) ;; schedule_tail curr.

Definition thread_block : M sys unit :=
  ic <- intr_context ;;
  assert (negb ic) ;;
  i <- intr_get_level ;;
  assert (bool_decide (i = INTR_OFF)) ;;
  t <- thread_current ;;
  alter_thread t (set_status THREAD_BLOCKED) ;;
  schedule.

Definition thread_unblock (t : Z) : M sys unit :=
  b <- is_thread t ;;
  assert b ;;
  old_level <- intr_disable ;;
  th <- get_thread t ;;
  assert (bool_decide (th.(status) = THREAD_BLOCKED)) ;;
  modify (upd_ready (λ ts, ts ++ [t])) ;;
  alter_thread t (set_status THREAD_READY) ;;
  intr_set_level old_level ;;
  ret tt.

Definition thread_yield : M sys unit :=
  curr <- thread_current ;;
  ic <- intr_context ;;
  assert (negb ic) ;;
  old_level <- intr_disable ;;
  idle <- read idle_thread ;;
  (if curr =? idle then ret tt else modify (upd_ready (λ ts, ts ++ [curr]))) ;;
  alter_thread curr (set_status THREAD_READY) ;;
  push [FSetLevel old_level] ;;
  schedule.

Definition thread_tick : M sys unit :=
  t <- thread_current ;;
  th <- get_thread t ;;
  σ <- get ;;
  (if t =? σ.(idle_thread) then
     modify (upd_ticks σ.(thread_ticks) (σ.(idle_ticks) + 1) σ.(kernel_ticks) σ.(user_ticks))
   else if th.(pagedir) then
     modify (upd_ticks σ.(thread_ticks) σ.(idle_ticks) σ.(kernel_ticks) (σ.(user_ticks) + 1))
   else
     modify (upd_ticks σ.(thread_ticks) σ.(idle_ticks) (σ.(kernel_ticks) + 1) σ.(user_ticks))) ;;
  modify (λ σ, upd_ticks (u32 (σ.(thread_ticks) + 1)) σ.(idle_ticks) σ.(kernel_ticks)
                 σ.(user_ticks) σ) ;;
  ticks <- read thread_ticks ;;
  if TIME_SLICE <=? ticks then intr_yield_on_return else ret tt.

(** [intr_handler] for vector [vec_no], whose entry of [intr_handlers] is [handler]. *)
Definition intr_handler (vec_no : Z) (handler : option (M sys unit)) : M sys unit :=
  let external := (32 <=? vec_no) && (vec_no <? 48) in
  (if external then
     i <- intr_get_level ;;
     assert (bool_decide (i = INTR_OFF)) ;;
     ic <- intr_context ;;
     assert (negb ic) ;;
     modify (λ σ, upd_intr σ.(intr) true false σ)
   else ret tt) ;;
  match handler with
  | Some h => h
  | None => if (vec_no =? 39) || (vec_no =? 47) then ret tt else fail Panic
  end ;;
  if external then
    i <- intr_get_level ;;
    assert (bool_decide (i = INTR_OFF)) ;;
    ic <- intr_context ;;
    assert ic ;;
    modify (λ σ, upd_intr σ.(intr) false σ.(yield_on_return) σ) ;;
    y <- read yield_on_return ;;
    if (y : bool) then thread_yield else ret tt
  else ret tt.

(** ** Semaphores *)

Definition sema_init (s v : Z) : M sys unit :=
  assert (negb (s =? NULL)) ;;
  set_sema s {| value := v; waiters := [] |}.

(** The loop of [sema_down] and what follows it. *)
Definition sema_loop (s : Z) (old_level : intr_level) : M sys unit :=
  x <- get_sema s ;;
  if x.(value) =? 0 then
    t <- thread_current ;;
    set_sema s {| value := x.(value); waiters := x.(waiters) ++ [t] |} ;;
    push [FSemaLoop s old_level] ;;
    thread_block
  else
    set_sema s {| value := u32 (x.(value) - 1); waiters := x.(waiters) |} ;;
    intr_set_level old_level ;;
    ret tt.

Definition sema_down (s : Z) : M sys unit :=
  assert (negb (s =? NULL)) ;;
  ic <- intr_context ;;
  assert (negb ic) ;;
  old_level <- intr_disable ;;
  push [FSemaLoop s old_level].

Definition sema_try_down (s : Z) : M sys bool :=
  assert (negb (s =? NULL)) ;;
  old_level <- intr_disable ;;
  x <- get_sema s ;;
  success <- (if 0 <? x.(value) then
                set_sema s {| value := u32 (x.(value) - 1); waiters := x.(waiters) |} ;;
                ret true
              else ret false) ;;
  intr_set_level old_level ;;
  ret success.

Definition sema_up (s : Z) : M sys unit :=
  assert (negb (s =? NULL)) ;;
  old_level <- intr_disable ;;
  x <- get_sema s ;;
  match x.(waiters) with
  | [] => ret tt
  | t :: ts => set_sema s {| value := x.(value); waiters := ts |} ;; thread_unblock t
  end ;;
  x <- get_sema s ;;
  set_sema s {| value := u32 (x.(value) + 1); waiters := x.(waiters) |} ;;
  intr_set_level old_level ;;
  ret tt.

(** ** Locks *)

Definition get_holder (l : Z) : M sys Z := λ σ,
  match σ.(holders) !! l with Some h => Ok (h, σ) | None => Err Fault end.
Definition set_holder (l h : Z) : M sys unit := modify (upd_locks (<[l := h]>) id).

Definition lock_init (l : Z) : M sys unit :=
  assert (negb (l =? NULL)) ;;
  set_holder l NULL ;;
  sema_init (lock_sema l) 1.

Definition lock_held_by_current_thread (l : Z) : M sys bool :=
  assert (negb (l =? NULL)) ;;
  h <- get_holder l ;;
  t <- thread_current ;;
  ret (h =? t).

Definition lock_acquire (l : Z) : M sys unit :=
  assert (negb (l =? NULL)) ;;
  ic <- intr_context ;;
  assert (negb ic) ;;
  b <- lock_held_by_current_thread l ;;
  assert (negb b) ;;
  push [SemaDown (lock_sema l); FSetHolder l].

(** [lock->holder = thread_current ()]. *)
Definition lock_set_holder (l : Z) : M sys unit :=
  t <- thread_current ;;
  h <- get_holder l ;;
  set_holder l t.

Definition lock_try_acquire (l : Z) : M sys unit :=
  assert (negb (l =? NULL)) ;;
  b <- lock_held_by_current_thread l ;;
  assert (negb b) ;;
  success <- sema_try_down (lock_sema l) ;;
  if (success : bool) then push [FSetHolder l] else ret tt.

Definition lock_release (l : Z) : M sys unit :=
  assert (negb (l =? NULL)) ;;
  b <- lock_held_by_current_thread l ;;
  assert b ;;
  set_holder l NULL ;;
  push [SemaUp (lock_sema l)].

(** ** Condition variables *)

Definition get_cond (c : Z) : M sys (list Z) := λ σ,
  match σ.(conds) !! c with Some ws => Ok (ws, σ) | None => Err Fault end.
Definition set_cond (c : Z) (ws : list Z) : M sys unit := modify (upd_locks id (<[c := ws]>)).

Definition cond_init (c : Z) : M sys unit :=
  assert (negb (c =? NULL)) ;;
  set_cond c [].

Definition cond_wait (c l waiter : Z) : M sys unit :=
  assert (negb (c =? NULL)) ;;
  assert (negb (l =? NULL)) ;;
  ic <- intr_context ;;
  assert (negb ic) ;;
  b <- lock_held_by_current_thread l ;;
  assert b ;;
  sema_init (elem_sema waiter) 0 ;;
  ws <- get_cond c ;;
  set_cond c (ws ++ [waiter]) ;;
  push [LockRelease l; SemaDown (elem_sema waiter); LockAcquire l].

Definition cond_signal (c l : Z) : M sys unit :=
  assert (negb (c =? NULL)) ;;
  assert (negb (l =? NULL)) ;;
  ic <- intr_context ;;
  assert (negb ic) ;;
  b <- lock_held_by_current_thread l ;;
  assert b ;;
  ws <- get_cond c ;;
  match ws with
  | [] => ret tt
  | w :: ws => set_cond c ws ;; push [SemaUp (elem_sema w)]
  end.

(** The [while] loop of [cond_broadcast]. *)
Definition broadcast_loop (c l : Z) : M sys unit :=
  ws <- get_cond c ;;
  match ws with
  | [] => ret tt
  | _ => push [CondSignal c l; FBroadcast c l]
  end.

Definition cond_broadcast (c l : Z) : M sys unit :=
  assert (negb (c =? NULL)) ;;
  assert (negb (l =? NULL)) ;;
  broadcast_loop c l.

(** ** Creating and ending threads *)

(** The address of the static variable [tid_lock], and of [sup_page_sema] in a thread. *)
Definition tid_lock : Z := 3221553152.
Definition sup_page_sema (t : Z) : Z := t + 172.

(** [init_thread] on a fresh page.  The saved stack makes the thread start in
    [kernel_thread], which turns interrupts on, runs the thread's function and exits.  A
    function whose end makes [process_exit] wait or signal ends in a [ThreadExit] of its own
    that says how. *)
Definition init_thread (t prio : Z) (function : list code) : M sys unit :=
  assert (negb (t =? NULL)) ;;
  assert ((PRI_MIN <=? prio) && (prio <=? PRI_MAX)) ;;
  modify (upd_threads (<[t :=
    {| status := THREAD_BLOCKED; tid := 0; priority := prio;
       stack := IntrEnable :: function ++ [ThreadExit [] []];
       child_list := []; child_info_list := []; parent_thread := NULL; info := NULL;
       pagedir := false |}]>)).

(** [thread_create] up to the call of [allocate_tid]. *)
Definition thread_create (page prio inf : Z) (function : list code) : M sys unit :=
  if page =? NULL then ret tt else
  init_thread page prio function ;;
  push [LockAcquire tid_lock; FTid page; LockRelease tid_lock; FStart page inf].

(** The critical section of [allocate_tid]. *)
Definition allocate_tid (t : Z) : M sys unit :=
  n <- read next_tid ;;
  modify (upd_tids (s32 (n + 1)) id) ;;
  alter_thread t (set_tid n).

(** [thread_create] from the return of [allocate_tid] on. *)
Definition create_rest (t inf : Z) : M sys unit :=
  curr <- thread_current ;;
  th <- get_thread t ;;
  alter_thread t (λ th, set_family th.(child_list) th.(child_info_list) curr th.(info) th) ;;
  alter_thread curr (λ p, set_family (p.(child_list) ++ [t]) p.(child_info_list)
                            p.(parent_thread) p.(info) p) ;;
  (if inf =? NULL then fail Fault else ret tt) ;;
  modify (λ σ, upd_tids σ.(next_tid)
    (<[inf := {| i_tid := th.(tid); load_success := true; exit_status := 0;
                 is_waited := false; is_killed := false |}]>) σ) ;;
  sema_init (wait_sema inf) 0 ;;
  sema_init (exec_sema inf) 0 ;;
  alter_thread curr (λ p, set_family p.(child_list) (p.(child_info_list) ++ [inf])
                            p.(parent_thread) p.(info) p) ;;
  alter_thread t (λ th, set_family th.(child_list) th.(child_info_list)
                          th.(parent_thread) inf th) ;;
  sema_init (sup_page_sema t) 1 ;;
  thread_unblock t.

Definition thread_exit (pe fc : list code) : M sys unit :=
  ic <- intr_context ;;
  assert (negb ic) ;;
  push (pe ++ [IntrDisable] ++ fc ++ [FUpExec; FUpWait; FDie]).

Definition up_info (sema_of : Z → Z) : M sys unit :=
  t <- thread_current ;;
  th <- get_thread t ;;
  sema_up (sema_of th.(info)).

(** The last statements of [thread_exit]; the thread has nothing left to run. *)
Definition thread_die : M sys unit :=
  t <- thread_current ;;
  alter_thread t (λ th, set_stack [] (set_status THREAD_DYING th)) ;;
  schedule.

Definition thread_set_priority (p : Z) : M sys unit :=
  t <- thread_current ;;
  alter_thread t (set_priority p).

Definition thread_get_priority : M sys Z :=
  t <- thread_current ;;
  th <- get_thread t ;;
  ret th.(priority).

Definition thread_tid : M sys Z :=
  t <- thread_current ;;
  th <- get_thread t ;;
  ret th.(tid).

(** The loops that search the two lists of children. *)
Fixpoint find_child (ts : list Z) (n : Z) : M sys Z :=
  match ts with
  | [] => ret NULL
  | t :: ts => th <- get_thread t ;; if th.(tid) =? n then ret t else find_child ts n
  end.

Definition find_child_by_tid (n : Z) : M sys Z :=
  t <- thread_current ;;
  th <- get_thread t ;;
  find_child th.(child_list) n.

Definition get_info (i : Z) : M sys thread_info := λ σ,
  match σ.(infos) !! i with Some x => Ok (x, σ) | None => Err Fault end.

Fixpoint find_info (ps : list Z) (n : Z) : M sys Z :=
  match ps with
  | [] => ret NULL
  | i :: ps => x <- get_info i ;; if x.(i_tid) =? n then ret i else find_info ps n
  end.

Definition find_child_info_by_tid (n : Z) : M sys Z :=
  t <- thread_current ;;
  th <- get_thread t ;;
  find_info th.(child_info_list) n.

(** [idle] up to its loop. *)
Definition idle (started : Z) : M sys unit :=
  t <- thread_current ;;
  modify (λ σ, {| threads := σ.(threads); ready_list := σ.(ready_list); running := σ.(running);
     idle_thread := t; initial_thread := σ.(initial_thread); semas := σ.(semas);
     holders := σ.(holders); conds := σ.(conds); infos := σ.(infos); intr := σ.(intr);
     in_external_intr := σ.(in_external_intr); yield_on_return := σ.(yield_on_return);
     thread_ticks := σ.(thread_ticks); idle_ticks := σ.(idle_ticks);
     kernel_ticks := σ.(kernel_ticks); user_ticks := σ.(user_ticks);
     next_tid := σ.(next_tid) |}) ;;
  push [SemaUp started; FIdle].

(** One turn of the loop of [idle], up to the switch. *)
Definition idle_loop : M sys unit :=
  intr_disable ;;
  push [FHlt; FIdle] ;;
  thread_block.

(** [thread_init], on a page [main] that is to become a thread; [function] is what the
    kernel's [main] goes on to do.  The lock is free and interrupts are off, so that
    [allocate_tid] runs through. *)
Definition thread_init (main : Z) (function : list code) : M sys unit :=
  i <- intr_get_level ;;
  assert (bool_decide (i = INTR_OFF)) ;;
  lock_init tid_lock ;;
  modify (upd_ready (λ _, [])) ;;
  modify (upd_running main) ;;
  init_thread main PRI_DEFAULT [] ;;
  modify (λ σ, {| threads := σ.(threads); ready_list := σ.(ready_list); running := σ.(running);
     idle_thread := σ.(idle_thread); initial_thread := main; semas := σ.(semas);
     holders := σ.(holders); conds := σ.(conds); infos := σ.(infos); intr := σ.(intr);
     in_external_intr := σ.(in_external_intr); yield_on_return := σ.(yield_on_return);
     thread_ticks := σ.(thread_ticks); idle_ticks := σ.(idle_ticks);
     kernel_ticks := σ.(kernel_ticks); user_ticks := σ.(user_ticks);
     next_tid := σ.(next_tid) |}) ;;
  alter_thread main (set_status THREAD_RUNNING) ;;
  alter_thread main (set_stack
    (LockAcquire tid_lock :: FTid main :: LockRelease tid_lock :: function)).

(** [thread_start]: [page] and [inf] as for [thread_create], [idle_started] the local
    semaphore. *)
Definition thread_start (page inf idle_started : Z) : M sys unit :=
  sema_init idle_started 0 ;;
  push [ThreadCreate page PRI_MIN inf [Idle idle_started]; IntrEnable; SemaDown idle_started].

(** ** Steps *)

Definition exec (c : code) : M sys unit :=
  match c with
  | SemaDown s => sema_down s
  | SemaUp s => sema_up s
  | SemaTryDown s => sema_try_down s ;; ret tt
  | LockAcquire l => lock_acquire l
  | LockTryAcquire l => lock_try_acquire l
  | LockRelease l => lock_release l
  | CondWait c l w => cond_wait c l w
  | CondSignal c l => cond_signal c l
  | CondBroadcast c l => cond_broadcast c l
  | ThreadYield => thread_yield
  | ThreadExit pe fc => thread_exit pe fc
  | ThreadCreate page prio inf f => thread_create page prio inf f
  | IntrEnable => intr_enable ;; ret tt
  | IntrDisable => intr_disable ;; ret tt
  | ThreadStart page inf s => thread_start page inf s
  | Idle s => idle s
  | FSetLevel old => intr_set_level old ;; ret tt
  | FIret => put_level INTR_ON
  | FSemaLoop s old => sema_loop s old
  | FSetHolder l => lock_set_holder l
  | FBroadcast c l => broadcast_loop c l
  | FTid t => allocate_tid t
  | FStart t inf => create_rest t inf
  | FUpExec => up_info exec_sema
  | FUpWait => up_info wait_sema
  | FDie => thread_die
  | FIdle => idle_loop
  | FHlt => put_level INTR_ON
  end.

(** The running thread runs the next piece of its code. *)
Definition run_step : M sys unit := λ σ,
  match σ.(threads) !! σ.(running) with
  | Some th =>
      match th.(stack) with
      | c :: k => exec c (upd_threads (<[σ.(running) := set_stack k th]>) σ)
      | [] => Err Panic
      end
  | None => Err Fault
  end.

(** The external interrupts: the timer's (8254, line 0) and those of disks (lines 14 and 15),
    whose handler ups the semaphore of the channel. *)
Inductive irq := TimerIrq | DeviceIrq (s : Z).
Definition irq_vec (q : irq) : Z := match q with TimerIrq => 32 | DeviceIrq _ => 46 end.
Definition handler (q : irq) : M sys unit :=
  match q with TimerIrq => thread_tick | DeviceIrq s => sema_up s end.

(** An interrupt arrives: the processor turns interrupts off, [intr_handler] runs, and the
    interrupted code goes on after [iret]. *)
Definition interrupt (q : irq) : M sys unit :=
  push [FIret] ;;
  put_level INTR_OFF ;;
  intr_handler (irq_vec q) (Some (handler q)).

(** Runs a scenario: [None] lets the running thread take a step, [Some q] is an interrupt. *)
Fixpoint run_trace (tr : list (option irq)) : M sys unit :=
  match tr with
  | [] => ret tt
  | None :: tr => run_step ;; run_trace tr
  | Some q :: tr => interrupt q ;; run_trace tr
  end.
