(* ===== verification/SchedInv.v ===== *)
(** * The scheduler's invariant

    What holds between any two steps of [Sched]: exactly one thread runs; the run queue
    holds the other runnable threads, each once; a thread on a semaphore's wait list is
    blocked, suspended in the loop of [sema_down] for that very semaphore; a blocked thread
    is on such a list, or is the idle thread, or is still being created.  The invariant is
    stated over the part of the state that the scheduler works on. *)

From S2P Require Import Prelude Sched.
Local Open Scope c_scope.

(** ** The shape of a thread's remaining code *)

Section shapes.
(** Which addresses are those of semaphores inside locks. *)
Context (isl : Z → bool).

(** Calls that code above this layer may make after the system has started. *)
Fixpoint api (c : code) : bool :=
  match c with
  | SemaDown s | SemaUp s | SemaTryDown s => negb (isl s)
  | CondWait _ _ w => negb (isl (elem_sema w))
  | ThreadExit pe fc => forallb api pe && forallb api fc
  | ThreadCreate page _ inf f =>
      forallb api f && negb (isl (wait_sema inf)) && negb (isl (exec_sema inf))
      && negb (isl (sup_page_sema page))
  | LockAcquire _ | LockTryAcquire _ | LockRelease _ | CondSignal _ _ | CondBroadcast _ _
  | ThreadYield => true
  | _ => false
  end.

(** Code that may come after the function that is being executed. *)
Definition bc (c : code) : bool :=
  match c with
  | FTid _ | FUpExec | FUpWait | FDie | FBroadcast _ _ | IntrDisable | IntrEnable => true
  | FStart t inf => negb (isl (wait_sema inf)) && negb (isl (exec_sema inf))
                    && negb (isl (sup_page_sema t))
  | c => api c
  end.

(** The remaining code without what an interrupt or [thread_yield] has put on top. *)
Fixpoint core (k : list code) : list code :=
  match k with
  | (FSetLevel _ | FIret) :: k => core k
  | _ => k
  end.

Definition stk (k : list code) : Prop :=
  match core k with
  | FSetHolder l :: r => isl (lock_sema l) ∧ forallb bc r
  | SemaUp _ :: r => forallb bc r
  | (SemaDown s | FSemaLoop s _) :: r =>
      if isl s then ∃ l r', s = lock_sema l ∧ r = FSetHolder l :: r' ∧ forallb bc r'
      else forallb bc r
  | r => forallb bc r
  end.

Definition idle_shape (k : list code) : Prop :=
  ∃ r, core k = FHlt :: FIdle :: r ∨ core k = FIdle :: r.
End shapes.

(** Threads whose creation a thread still has to finish. *)
Definition start_of (c : code) : option Z :=
  match c with FStart t _ => Some t | _ => None end.
Definition starts (k : list code) : list Z := omap start_of k.

(** Code that runs at interrupt level [i] reaches the places that need interrupts off with
    interrupts off. *)
Fixpoint lv (i : intr_level) (k : list code) : Prop :=
  match k with
  | [] => True
  | FSetLevel o :: k => lv o k
  | (FIret | IntrEnable | FHlt) :: k => lv INTR_ON k
  | (IntrDisable | FIdle) :: k => lv INTR_OFF k
  | FSemaLoop _ o :: k => i = INTR_OFF ∧ lv o k
  | FDie :: k => i = INTR_OFF ∧ starts k = []
  | ThreadExit _ _ :: k => starts k = []
  | _ :: k => lv i k
  end.

(** ** The invariant over the scheduler's view of the state *)

Notation tview := (thread_status * list code * Z)%type.
Definition tv (th : thread) : tview := (th.(status), th.(stack), th.(info)).
Definition V (σ : sys) : gmap Z tview := tv <$> σ.(threads).
Definition W (σ : sys) (s : Z) : list Z := from_option waiters [] (σ.(semas) !! s).

Definition level_of (cur : option Z) (i : intr_level) (t : Z) : intr_level :=
  if decide (cur = Some t) then i else INTR_OFF.

(** [cur] is the running thread, or [None] while the processor is being handed over from
    [run]; [ini] are the threads that stay in the table when they end. *)
Record ainv (isl : Z → bool) (v : gmap Z tview) (R : list Z) (w : Z → list Z)
    (cur : option Z) (run idl : Z) (ini : list Z) (i : intr_level) : Prop := {
  a_null : v !! 0 = None;
  a_exists : is_Some (v !! run);
  a_cur : match cur with Some t => t = run | None => i = INTR_OFF end;
  a_run : ∀ t st k inf, v !! t = Some (st, k, inf) → (st = THREAD_RUNNING ↔ cur = Some t);
  a_nodup : NoDup R;
  a_ready : ∀ t, t ∈ R ↔ t ≠ idl ∧ ∃ k inf, v !! t = Some (THREAD_READY, k, inf);
  a_wait : ∀ s, NoDup (w s);
  a_waiting : ∀ s t, t ∈ w s → t ≠ idl ∧
    ∃ o k inf, v !! t = Some (THREAD_BLOCKED, FSemaLoop s o :: k, inf);
  a_blocked : ∀ t k inf, v !! t = Some (THREAD_BLOCKED, k, inf) →
    t = idl ∨ (∃ s o k', k = FSemaLoop s o :: k' ∧ t ∈ w s) ∨
    (∃ u st ku infu, v !! u = Some (st, ku, infu) ∧ t ∈ starts ku);
  a_dying : ∀ t k inf, v !! t = Some (THREAD_DYING, k, inf) →
    k = [] ∧ (t ∈ ini ∨ (cur = None ∧ t = run));
  a_idle : is_Some (v !! idl);
  a_stk : ∀ t st k inf, v !! t = Some (st, k, inf) →
    if decide (t = idl) then idle_shape k else stk isl k;
  a_info : ∀ t st k inf, v !! t = Some (st, k, inf) →
    isl (wait_sema inf) = false ∧ isl (exec_sema inf) = false;
  a_start : ∀ u st k inf t, v !! u = Some (st, k, inf) → t ∈ starts k → t ≠ idl ∧
    ∃ kt inft, v !! t = Some (THREAD_BLOCKED, IntrEnable :: kt, inft);
  a_start_nd : ∀ u st k inf, v !! u = Some (st, k, inf) → NoDup (starts k);
  a_start_uniq : ∀ u1 u2 st1 st2 k1 k2 inf1 inf2 t, v !! u1 = Some (st1, k1, inf1) →
    v !! u2 = Some (st2, k2, inf2) → t ∈ starts k1 → t ∈ starts k2 → u1 = u2;
  a_lv : ∀ t st k inf, v !! t = Some (st, k, inf) → lv (level_of cur i t) k;
}.

(** Splits a lookup in an updated view. *)
Ltac vlook := repeat match goal with
  | H : <[_ := _]> _ !! _ = Some _ |- _ => apply lookup_insert_Some in H as [[??]|[??]]
  | H : delete _ _ !! _ = Some _ |- _ => apply lookup_delete_Some in H as [??]
  end; simplify_eq/=.

Section trans.
Context (isl : Z → bool).

Lemma level_cur t i : level_of (Some t) i t = i.
Proof. unfold level_of. by rewrite decide_True. Qed.

Lemma level_other t u i : t ≠ u → level_of (Some u) i t = INTR_OFF.
Proof. intros. unfold level_of. rewrite decide_False; congruence. Qed.

Lemma level_None t i : level_of None i t = INTR_OFF.
Proof. done. Qed.

Lemma ex_insert (v : gmap Z tview) (t u : Z) x : is_Some (v !! u) → is_Some (<[t := x]> v !! u).
Proof.
  intros. destruct (decide (t = u)) as [->|].
  - rewrite lookup_insert_eq. eauto.
  - by rewrite lookup_insert_ne.
Qed.

(** The running thread changes its own remaining code and the interrupt level. *)
Lemma ainv_local v R w w' run idl ini i i' st k k' inf :
  ainv isl v R w (Some run) run idl ini i →
  v !! run = Some (st, k, inf) →
  (∀ s, w' s = w s) →
  starts k' = starts k →
  (if decide (run = idl) then idle_shape k' else stk isl k') →
  lv i' k' →
  ainv isl (<[run := (st, k', inf)]> v) R w' (Some run) run idl ini i'.
Proof.
  intros I Hv Hw Hs Hk Hl. destruct I.
  assert (st = THREAD_RUNNING) as -> by (by apply (a_run0 _ _ _ _ Hv)).
  assert (Hold : ∀ u st k0 inf0 t, <[run := (THREAD_RUNNING, k', inf)]> v !! u = Some (st, k0, inf0) →
    t ∈ starts k0 → ∃ st k1 inf1, v !! u = Some (st, k1, inf1) ∧ t ∈ starts k1).
  { intros ????? H Ht. vlook; [rewrite Hs in Ht|]; eauto 10. }
  split; [| | done | | done | ..]; try (intros; rewrite ?Hw; eauto; fail).
  - rewrite lookup_insert_ne; [done|]. intros ->. congruence.
  - rewrite lookup_insert_eq. eauto.
  - intros ???? H. vlook; eauto.
  - intros t. rewrite a_ready0. split; intros (?&k0&inf0&H); split; try done.
    + exists k0, inf0. rewrite lookup_insert_ne; [done|congruence].
    + vlook. eauto.
  - intros s t. rewrite Hw. intros (?&o&k0&inf0&H)%a_waiting0. split; [done|].
    exists o, k0, inf0. rewrite lookup_insert_ne; [done|congruence].
  - intros t k0 inf0 H. vlook. destruct (a_blocked0 _ _ _ H0) as [?|[(s&o&k1&->&?)|(u&st&ku&infu&Hu&?)]].
    + eauto.
    + right; left. exists s, o, k1. by rewrite Hw.
    + right; right. destruct (decide (u = run)) as [->|].
      * exists run, THREAD_RUNNING, k', inf. rewrite lookup_insert_eq, Hs.
        split; [done|]. congruence.
      * exists u, st, ku, infu. by rewrite lookup_insert_ne.
  - intros t k0 inf0 H. vlook. eauto.
  - by apply ex_insert.
  - intros ???? H. vlook; [done|]. by apply (a_stk0 _ _ _ _ H0).
  - intros ???? H. vlook; eauto.
  - intros u st k0 inf0 t H Ht. destruct (Hold _ _ _ _ _ H Ht) as (?&?&?&Hu&Ht').
    destruct (a_start0 _ _ _ _ _ Hu Ht') as (?&kt&inft&?). split; [done|].
    exists kt, inft. rewrite lookup_insert_ne; [done|]. congruence.
  - intros ???? H. vlook; [rewrite Hs|]; eauto.
  - intros ????????? H1 H2 Ht1 Ht2. destruct (Hold _ _ _ _ _ H1 Ht1) as (?&?&?&?&?).
    destruct (Hold _ _ _ _ _ H2 Ht2) as (?&?&?&?&?). eauto.
  - intros t ??? H. vlook.
    + by rewrite level_cur.
    + rewrite level_other by done. specialize (a_lv0 _ _ _ _ H0).
      by rewrite level_other in a_lv0.
Qed.

(** The running thread makes [t] ready, taking it off the lists it is on. *)
Lemma ainv_unblock v R w w' run idl ini i i' st k k' inf t kt inft :
  ainv isl v R w (Some run) run idl ini i →
  v !! run = Some (st, k, inf) →
  v !! t = Some (THREAD_BLOCKED, kt, inft) →
  t ≠ idl →
  (∀ s, NoDup (w' s)) →
  (∀ s u, u ∈ w' s ↔ u ∈ w s ∧ u ≠ t) →
  (∀ u, u ∈ starts k' ↔ u ∈ starts k ∧ u ≠ t) →
  NoDup (starts k') →
  (∀ u st ku infu, v !! u = Some (st, ku, infu) → u ≠ run → t ∉ starts ku) →
  (if decide (run = idl) then idle_shape k' else stk isl k') →
  lv i' k' →
  ∀ inft', isl (wait_sema inft') = false → isl (exec_sema inft') = false →
  ainv isl (<[t := (THREAD_READY, kt, inft')]> (<[run := (st, k', inf)]> v)) (R ++ [t]) w'
    (Some run) run idl ini i'.
Proof.
  intros I Hv Ht Hti Hnd Hw Hs Hsnd Hoth Hk Hl inft' Hi1 Hi2. destruct I.
  assert (st = THREAD_RUNNING) as -> by (by apply (a_run0 _ _ _ _ Hv)).
  assert (t ≠ run) as Htr by congruence.
  assert (HtR : t ∉ R). { rewrite a_ready0. intros (?&?&?&?). congruence. }
  set (v' := <[t := _]> _).
  assert (Hv' : ∀ u x, u ≠ t → u ≠ run → v' !! u = Some x ↔ v !! u = Some x).
  { intros. unfold v'. by rewrite !lookup_insert_ne. }
  assert (Hvt : v' !! t = Some (THREAD_READY, kt, inft')) by apply lookup_insert_eq.
  assert (Hvr : v' !! run = Some (THREAD_RUNNING, k', inf)).
  { unfold v'. by rewrite lookup_insert_ne, lookup_insert_eq. }
  assert (Hold : ∀ u st k0 inf0 x, v' !! u = Some (st, k0, inf0) → x ∈ starts k0 →
    ∃ st k1 inf1, v !! u = Some (st, k1, inf1) ∧ x ∈ starts k1 ∧ x ≠ t).
  { intros u st k0 inf0 x H Hx. unfold v' in H. vlook.
    - exists THREAD_BLOCKED, k0, inft. split_and!; [done..|]. intros ->. by apply (Hoth _ _ _ _ Ht Htr).
    - apply Hs in Hx as [??]. eauto 10.
    - exists st, k0, inf0. split_and!; [done..|]. intros ->. eapply Hoth; [done| |done]. congruence. }
  split; [| |done|..].
  - unfold v'. rewrite !lookup_insert_ne; [done|congruence..].
  - eauto.
  - intros u st k0 inf0 H. unfold v' in H. vlook; [|by rewrite <- (a_run0 _ _ _ _ Hv)|eauto].
    split; [done|congruence].
  - apply NoDup_app. split_and!; [done| |apply NoDup_singleton].
    intros u Hu. rewrite list_elem_of_singleton. congruence.
  - intros u. rewrite elem_of_app, list_elem_of_singleton, a_ready0. split.
    + intros [(?&k0&inf0&H)| ->]; [|eauto]. split; [done|]. exists k0, inf0.
      apply Hv'; congruence.
    + intros (?&k0&inf0&H). unfold v' in H. vlook; eauto.
  - done.
  - intros s u. rewrite Hw. intros [Hu Hut]. destruct (a_waiting0 _ _ Hu) as (?&o&k0&inf0&Hx).
    split; [done|]. exists o, k0, inf0. apply Hv'; congruence.
  - intros u k0 inf0 H. assert (u ≠ t ∧ u ≠ run) as [??] by (split; congruence).
    apply Hv' in H; [|done..]. destruct (a_blocked0 _ _ _ H) as [?|[(s&o&k1&->&?)|(x&sx&kx&infx&Hx&?)]].
    + eauto.
    + right; left. exists s, o, k1. by rewrite Hw.
    + right; right. destruct (decide (x = run)) as [->|].
      * exists run, THREAD_RUNNING, k', inf. split; [done|]. apply Hs. split; [congruence|done].
      * destruct (decide (x = t)) as [->|]; [exists t, THREAD_READY, kt, inft'; split; [done|congruence]|].
        exists x, sx, kx, infx. by rewrite Hv'.
  - intros u k0 inf0 H. unfold v' in H. vlook. eauto.
  - unfold v'. by apply ex_insert, ex_insert.
  - intros ? ? ? ? H. unfold v' in H. vlook; [| done | by apply (a_stk0 _ _ _ _ H1)].
    by apply (a_stk0 _ _ _ _ Ht).
  - intros ? ? ? ? H. unfold v' in H. vlook; eauto.
  - intros u st k0 inf0 x H Hx. destruct (Hold _ _ _ _ _ H Hx) as (?&?&?&Hu&Hx'&?).
    destruct (a_start0 _ _ _ _ _ Hu Hx') as (?&kx&infx&?). split; [done|].
    exists kx, infx. apply Hv'; congruence.
  - intros ? ? ? ? H. unfold v' in H. vlook; eauto.
  - intros ????????? H1 H2 Ht1 Ht2. destruct (Hold _ _ _ _ _ H1 Ht1) as (?&?&?&?&?&?).
    destruct (Hold _ _ _ _ _ H2 Ht2) as (?&?&?&?&?&?). eauto.
  - intros u ? ? ? H. unfold v' in H. vlook; [|by rewrite level_cur|].
    + specialize (a_lv0 _ _ _ _ Ht). rewrite level_other in a_lv0 |- *; done.
    + specialize (a_lv0 _ _ _ _ H1). rewrite level_other in a_lv0 |- *; done.
Qed.

(** The running thread gives up the processor, as ready, blocked or dying. *)
Lemma ainv_desched v R R' w w' run idl ini i st k st' k' inf :
  ainv isl v R w (Some run) run idl ini i →
  v !! run = Some (st, k, inf) →
  st' ≠ THREAD_RUNNING →
  NoDup R' → (∀ t, t ∈ R' ↔ t ∈ R ∨ (t = run ∧ st' = THREAD_READY ∧ run ≠ idl)) →
  (∀ s, NoDup (w' s)) →
  (∀ s t, t ∈ w' s ↔ t ∈ w s ∨
     (t = run ∧ run ≠ idl ∧ st' = THREAD_BLOCKED ∧ ∃ o r, k' = FSemaLoop s o :: r)) →
  (st' = THREAD_BLOCKED → run = idl ∨ ∃ s o r, k' = FSemaLoop s o :: r) →
  (st' = THREAD_DYING → k' = []) →
  starts k' = starts k →
  (if decide (run = idl) then idle_shape k' else stk isl k') →
  lv INTR_OFF k' →
  ainv isl (<[run := (st', k', inf)]> v) R' w' None run idl ini INTR_OFF.
Proof.
  intros I Hv Hst HR HR' Hnd Hw Hb Hd Hs Hk Hl. destruct I.
  assert (st = THREAD_RUNNING) as -> by (by apply (a_run0 _ _ _ _ Hv)).
  assert (Hold : ∀ u st k0 inf0 t, <[run := (st', k', inf)]> v !! u = Some (st, k0, inf0) →
    t ∈ starts k0 → ∃ st k1 inf1, v !! u = Some (st, k1, inf1) ∧ t ∈ starts k1).
  { intros ????? H Ht. vlook; [rewrite Hs in Ht|]; eauto 10. }
  assert (Hne : ∀ u, u ≠ run → <[run := (st', k', inf)]> v !! u = v !! u).
  { intros. by rewrite lookup_insert_ne. }
  split; [| |done|..]; auto.
  - rewrite Hne; [done|]. intros <-. congruence.
  - rewrite lookup_insert_eq. eauto.
  - intros ???? H. split; [|done]. intros ->. vlook.
    apply (a_run0 _ _ _ _) in H0 as [H0 _]. specialize (H0 eq_refl). congruence.
  - intros t. rewrite HR', a_ready0. split.
    + intros [(?&k0&inf0&H)|(->&->&?)]; split; try done.
      * exists k0, inf0. rewrite Hne; congruence.
      * rewrite lookup_insert_eq. eauto.
    + intros (?&k0&inf0&H). vlook; eauto.
  - intros s t. rewrite Hw. intros [Ht|(->&?&->&o&r&->)].
    + destruct (a_waiting0 _ _ Ht) as (?&o&k0&inf0&H). split; [done|].
      exists o, k0, inf0. rewrite Hne; congruence.
    + split; [done|]. exists o, r, inf. apply lookup_insert_eq.
  - intros t k0 inf0 H. vlook.
    + destruct (decide (t = idl)); [by left|]. destruct (Hb eq_refl) as [?|(s&o&r&->)]; [done|].
      right; left. exists s, o, r. split; [done|]. rewrite Hw. right. eauto 10.
    + destruct (a_blocked0 _ _ _ H0) as [?|[(s&o&k1&->&?)|(u&st&ku&infu&Hu&?)]].
      * eauto.
      * right; left. exists s, o, k1. rewrite Hw. eauto.
      * right; right. destruct (decide (u = run)) as [->|].
        -- exists run, st', k', inf. rewrite lookup_insert_eq, Hs. split; [done|]. congruence.
        -- exists u, st, ku, infu. by rewrite Hne.
  - intros t k0 inf0 H. vlook; [by eauto|].
    destruct (a_dying0 _ _ _ H0) as [? [?|[??]]]; [eauto|done].
  - by apply ex_insert.
  - intros ???? H. vlook; [done|]. by apply (a_stk0 _ _ _ _ H0).
  - intros ???? H. vlook; eauto.
  - intros u st k0 inf0 t H Ht. destruct (Hold _ _ _ _ _ H Ht) as (?&?&?&Hu&Ht').
    destruct (a_start0 _ _ _ _ _ Hu Ht') as (?&kt&inft&?). split; [done|].
    exists kt, inft. rewrite Hne; congruence.
  - intros ???? H. vlook; [rewrite Hs|]; eauto.
  - intros ????????? H1 H2 Ht1 Ht2. destruct (Hold _ _ _ _ _ H1 Ht1) as (?&?&?&?&?).
    destruct (Hold _ _ _ _ _ H2 Ht2) as (?&?&?&?&?). eauto.
  - intros t ??? H. rewrite level_None. vlook; [done|]. specialize (a_lv0 _ _ _ _ H0).
    by rewrite level_other in a_lv0.
Qed.

Lemma idle_shape_nil : ¬ idle_shape [].
Proof. by intros (r&[?|?]). Qed.

(** What the scheduler picks can run. *)
Lemma ainv_next v R w run idl ini :
  ainv isl v R w None run idl ini INTR_OFF →
  ∃ st k inf, v !! hd idl R = Some (st, k, inf) ∧ st ≠ THREAD_DYING ∧
    (st = THREAD_READY ∨ hd idl R = idl) ∧ hd idl R ≠ 0 ∧ hd idl R ∉ tl R.
Proof.
  intros []. destruct R as [|n R]; simpl.
  - destruct a_idle0 as [[[st k] inf] H]. exists st, k, inf. split_and!; auto.
    + intros ->. destruct (a_dying0 _ _ _ H) as [-> _]. specialize (a_stk0 _ _ _ _ H).
      rewrite decide_True in a_stk0 by done. by apply idle_shape_nil in a_stk0.
    + congruence.
    + set_solver.
  - destruct (proj1 (a_ready0 n)) as (?&k&inf&H); [set_solver|].
    exists THREAD_READY, k, inf. split_and!; auto; [congruence|].
    by apply NoDup_cons in a_nodup0 as [? _].
Qed.

(** Handing the processor to [n] without freeing the previous thread. *)
Lemma ainv_switch v R w run idl ini st k inf :
  ainv isl v R w None run idl ini INTR_OFF →
  v !! hd idl R = Some (st, k, inf) →
  ainv isl (<[hd idl R := (THREAD_RUNNING, k, inf)]> v) (tl R) w (Some (hd idl R)) (hd idl R) idl
    (run :: ini) INTR_OFF.
Proof.
  intros I Hn. destruct (ainv_next _ _ _ _ _ _ I) as (st'&k'&inf'&Hn'&Hnd&Hor&Hn0&Hnin).
  rewrite Hn in Hn'. simplify_eq. set (n := hd idl R) in *.
  assert (HnW : ∀ s, n ∉ w s).
  { intros s Hin. destruct (a_waiting _ _ _ _ _ _ _ _ _ I _ _ Hin) as (?&?&?&?&?).
    destruct Hor; congruence. }
  assert (HR : ∀ t, t ∈ R → t = n ∨ t ∈ tl R).
  { unfold n. destruct R; set_solver. }
  assert (HR' : ∀ t, t ∈ tl R → t ∈ R). { destruct R; set_solver. }
  assert (HnR : n ≠ idl → n ∈ R). { unfold n. destruct R; set_solver. }
  destruct I.
  assert (Hne : ∀ u, u ≠ n → <[n := (THREAD_RUNNING, k', inf')]> v !! u = v !! u).
  { intros. by rewrite lookup_insert_ne. }
  assert (Hold : ∀ u st k0 inf0, <[n := (THREAD_RUNNING, k', inf')]> v !! u = Some (st, k0, inf0) →
    ∃ st, v !! u = Some (st, k0, inf0)).
  { intros ???? H. vlook; eauto. }
  assert (HnS : ∀ u st k0 inf0 t, v !! u = Some (st, k0, inf0) → t ∈ starts k0 → t ≠ n).
  { intros u st k0 inf0 t H Ht ->. destruct (a_start0 _ _ _ _ _ H Ht) as (?&?&?&?).
    destruct Hor; congruence. }
  split; [| |done|..]; auto.
  - rewrite Hne; congruence.
  - rewrite lookup_insert_eq. eauto.
  - intros u ? ? ? H. vlook; [done|]. rewrite (a_run0 _ _ _ _ H0). split; congruence.
  - destruct R; [constructor|]. by apply NoDup_cons in a_nodup0 as [_ ?].
  - intros t. split.
    + intros Ht. destruct (proj1 (a_ready0 t)) as (?&k0&inf0&?); [auto|].
      split; [done|]. exists k0, inf0. rewrite Hne; [done|]. by intros ->.
    + intros (?&k0&inf0&H). vlook. destruct (HR t) as [->|]; [|done..].
      apply a_ready0. eauto.
  - intros s t Ht. destruct (a_waiting0 _ _ Ht) as (?&o&k0&inf0&H). split; [done|].
    exists o, k0, inf0. rewrite Hne; [done|]. intros ->. by apply (HnW s).
  - intros t k0 inf0 H. vlook.
    destruct (a_blocked0 _ _ _ H0) as [?|[?|(u&su&ku&infu&Hu&?)]]; auto. right; right.
    destruct (decide (u = n)) as [->|].
    + exists n, THREAD_RUNNING, k', inf'. rewrite lookup_insert_eq. split; [done|congruence].
    + exists u, su, ku, infu. by rewrite Hne.
  - intros t k0 inf0 H. vlook. destruct (a_dying0 _ _ _ H0) as [? [?|[? ->]]]; split; auto; left; set_solver.
  - by apply ex_insert.
  - intros ? ? ? ? H. destruct (Hold _ _ _ _ H) as [? H']. by apply (a_stk0 _ _ _ _ H').
  - intros ? ? ? ? H. destruct (Hold _ _ _ _ H) as [? H']. eauto.
  - intros u ? ? ? t H Ht. destruct (Hold _ _ _ _ H) as [? H'].
    destruct (a_start0 _ _ _ _ _ H' Ht) as (?&kt&inft&?). split; [done|].
    exists kt, inft. rewrite Hne; [done|]. eauto.
  - intros ? ? ? ? H. destruct (Hold _ _ _ _ H) as [? H']. eauto.
  - intros ????????? H1 H2 Ht1 Ht2. destruct (Hold _ _ _ _ H1), (Hold _ _ _ _ H2). eauto.
  - intros t ??? H. destruct (Hold _ _ _ _ H) as [? H']. specialize (a_lv0 _ _ _ _ H').
    rewrite level_None in a_lv0. unfold level_of. by case_decide.
Qed.

Lemma ainv_keep v R w run idl ini i u :
  ainv isl v R w (Some run) run idl (u :: ini) i →
  (∀ k inf, v !! u = Some (THREAD_DYING, k, inf) → u ∈ ini) →
  ainv isl v R w (Some run) run idl ini i.
Proof.
  intros [] Hu. split; try done. intros t k inf Ht.
  destruct (a_dying0 _ _ _ Ht) as [? [Hin|[??]]]; [|done]. split; [done|].
  apply elem_of_cons in Hin as [->|?]; eauto.
Qed.

(** Freeing a dying thread that is not running. *)
Lemma ainv_free v R w run idl ini i u k inf :
  ainv isl v R w (Some run) run idl (u :: ini) i →
  v !! u = Some (THREAD_DYING, k, inf) →
  ainv isl (delete u v) R w (Some run) run idl ini i.
Proof.
  intros I Hu. destruct I.
  destruct (a_dying0 _ _ _ Hu) as [-> _].
  assert (u ≠ run).
  { intros ->. by pose proof (proj2 (a_run0 _ _ _ _ Hu) eq_refl). }
  assert (u ≠ idl).
  { intros ->. specialize (a_stk0 _ _ _ _ Hu). rewrite decide_True in a_stk0 by done.
    by apply idle_shape_nil in a_stk0. }
  assert (Hne : ∀ t, t ≠ u → delete u v !! t = v !! t) by (intros; by rewrite lookup_delete_ne).
  assert (Hold : ∀ t x, delete u v !! t = Some x → v !! t = Some x).
  { intros ?? H'. by apply lookup_delete_Some in H' as [_ ?]. }
  split; auto; try (intros; eauto; fail).
  - apply eq_None_not_Some. intros [? ?%Hold]. congruence.
  - rewrite Hne; auto.
  - intros t. rewrite a_ready0. split; intros (?&k0&inf0&Ht); split; eauto.
    exists k0, inf0. rewrite Hne; congruence.
  - intros s t Ht. destruct (a_waiting0 _ _ Ht) as (?&o&k0&inf0&Hx). split; [done|].
    exists o, k0, inf0. rewrite Hne; congruence.
  - intros t k0 inf0 Ht%Hold. destruct (a_blocked0 _ _ _ Ht) as [?|[?|(x&sx&kx&infx&Hx&?)]]; auto.
    right; right. exists x, sx, kx, infx. rewrite Hne; [done|]. intros ->. simplify_eq. set_solver.
  - intros t k0 inf0 [Htu Ht]%lookup_delete_Some. destruct (a_dying0 _ _ _ Ht) as [? [?|[??]]];
      [|done]. split; [done|]. left. set_solver.
  - rewrite Hne; auto.
  - intros ? ? ? ? Hx%Hold. by apply (a_stk0 _ _ _ _ Hx).
  - intros x ? ? ? t Hx%Hold Ht. destruct (a_start0 _ _ _ _ _ Hx Ht) as (?&kt&inft&?).
    split; [done|]. exists kt, inft. rewrite Hne; congruence.
Qed.

(** Creating a thread that does not run yet. *)
Lemma ainv_create v R w run idl ini i st k k' inf t kt :
  ainv isl v R w (Some run) run idl ini i →
  v !! run = Some (st, k, inf) →
  v !! t = None → t ≠ 0 →
  starts k' = t :: starts k → starts kt = [] →
  (if decide (run = idl) then idle_shape k' else stk isl k') →
  stk isl (IntrEnable :: kt) → lv i k' → lv INTR_ON kt →
  isl (wait_sema 0) = false → isl (exec_sema 0) = false →
  ainv isl (<[t := (THREAD_BLOCKED, IntrEnable :: kt, 0)]> (<[run := (st, k', inf)]> v)) R w
    (Some run) run idl ini i.
Proof.
  intros I Hv Ht Ht0 Hs Hst Hk Hkt Hl Hlt Hi1 Hi2. destruct I.
  assert (st = THREAD_RUNNING) as -> by (by apply (a_run0 _ _ _ _ Hv)).
  assert (t ≠ run) as Htr by congruence.
  assert (t ≠ idl) as Hti by (intros ->; destruct a_idle0; congruence).
  assert (Hfresh : ∀ u st k inf, v !! u = Some (st, k, inf) → t ∉ starts k).
  { intros u ??? Hu Hin. destruct (a_start0 _ _ _ _ _ Hu Hin) as (?&?&?&?). congruence. }
  set (v' := <[t := _]> _).
  assert (Hv' : ∀ u x, u ≠ t → u ≠ run → v' !! u = Some x ↔ v !! u = Some x).
  { intros. unfold v'. by rewrite !lookup_insert_ne. }
  assert (Hvt : v' !! t = Some (THREAD_BLOCKED, IntrEnable :: kt, 0)) by apply lookup_insert_eq.
  assert (Hvr : v' !! run = Some (THREAD_RUNNING, k', inf)).
  { unfold v'. by rewrite lookup_insert_ne, lookup_insert_eq. }
  assert (Hold : ∀ u st k0 inf0 x, v' !! u = Some (st, k0, inf0) → x ∈ starts k0 →
    (x = t ∧ u = run) ∨ x ≠ t ∧ ∃ st k1 inf1, v !! u = Some (st, k1, inf1) ∧ x ∈ starts k1).
  { intros u st k0 inf0 x H Hx. unfold v' in H. vlook.
    - rewrite Hst in Hx. set_solver.
    - rewrite Hs in Hx. apply elem_of_cons in Hx as [->|Hx]; [by left|]. right.
      split; [|eauto 10]. intros ->. by apply (Hfresh _ _ _ _ Hv).
    - right. split; [|eauto 10]. intros ->. by eapply Hfresh. }
  split; [| |done|..]; auto.
  - unfold v'. rewrite !lookup_insert_ne; [done|congruence..].
  - intros u st k0 inf0 H. unfold v' in H. vlook; [|by rewrite <- (a_run0 _ _ _ _ Hv)|eauto].
    split; [done|congruence].
  - intros u. rewrite a_ready0. split; intros (?&k0&inf0&H); split; auto.
    + exists k0, inf0. apply Hv'; congruence.
    + unfold v' in H. vlook. eauto.
  - intros s u Hu. destruct (a_waiting0 _ _ Hu) as (?&o&k0&inf0&H).
    split; [done|]. exists o, k0, inf0. apply Hv'; congruence.
  - intros u k0 inf0 H. unfold v' in H. vlook.
    + right; right. exists run, THREAD_RUNNING, k', inf. rewrite Hs. set_solver.
    + destruct (a_blocked0 _ _ _ H1) as [?|[?|(x&sx&kx&infx&Hx&?)]]; auto.
      right; right. destruct (decide (x = run)) as [->|].
      * exists run, THREAD_RUNNING, k', inf. split; [done|]. rewrite Hs. simplify_eq. set_solver.
      * exists x, sx, kx, infx. rewrite Hv'; [done|congruence|done].
  - intros u k0 inf0 H. unfold v' in H. vlook. eauto.
  - unfold v'. by apply ex_insert, ex_insert.
  - intros ? ? ? ? H. unfold v' in H. vlook; [|done|by apply (a_stk0 _ _ _ _ H1)].
    by rewrite decide_False.
  - intros ? ? ? ? H. unfold v' in H. vlook; eauto.
  - intros u st k0 inf0 x H Hx. destruct (Hold _ _ _ _ _ H Hx) as [[-> ->]|(?&?&?&?&Hu&Hx')]; [eauto|].
    destruct (a_start0 _ _ _ _ _ Hu Hx') as (?&kx&infx&?). split; [done|].
    exists kx, infx. apply Hv'; congruence.
  - intros ? ? ? ? H. unfold v' in H. vlook.
    + unfold starts in *. simpl. rewrite Hst. constructor.
    + rewrite Hs. constructor; eauto.
    + eauto.
  - intros ????????? H1 H2 Ht1 Ht2.
    destruct (Hold _ _ _ _ _ H1 Ht1) as [[? ->]|(?&?&?&?&?&?)],
      (Hold _ _ _ _ _ H2 Ht2) as [[? ->]|(?&?&?&?&?&?)]; [done..|eauto].
  - intros u ? ? ? H. unfold v' in H. vlook; [done|by rewrite level_cur|].
    specialize (a_lv0 _ _ _ _ H1). rewrite level_other in a_lv0 |- *; done.
Qed.
End trans.
