(* ===== verification/SchedStep.v ===== *)
(** * Steps of the kernel preserve the scheduler's invariant

    Every piece of code of [Sched] that a thread runs, and every external interrupt, takes
    a state that satisfies the invariant of [SchedInv] to one that does; the locks and the
    semaphores keep their own invariants along the way. *)

From S2P Require Import Prelude Sched SchedInv.
Local Open Scope c_scope.

(** ** Running the model symbolically

    The equations of the hint database [mon] turn a computation on a given state into
    the nested case distinctions that it makes. *)

Section equations.
Context {A B C : Type} (σ : sys).

Lemma b_ret (a : A) (k : A → M sys B) : bind (ret a) k σ = k a σ.
Proof. done. Qed.
Lemma b_read (f : sys → A) (k : A → M sys B) : bind (read f) k σ = k (f σ) σ.
Proof. done. Qed.
Lemma b_get (k : sys → M sys B) : bind get k σ = k σ σ.
Proof. done. Qed.
Lemma b_modify f (k : unit → M sys B) : bind (modify f) k σ = k tt (f σ).
Proof. done. Qed.
Lemma b_fail e (k : A → M sys B) : bind (fail e) k σ = Err e.
Proof. done. Qed.
Lemma b_assert b (k : unit → M sys B) :
  bind (assert b) k σ = if b then k tt σ else Err AssertFail.
Proof. by destruct b. Qed.
Lemma b_thread t (k : thread → M sys B) :
  bind (get_thread t) k σ = match σ.(threads) !! t with Some th => k th σ | None => Err Fault end.
Proof. unfold bind, get_thread. by destruct (_ !! _). Qed.
Lemma b_sema s (k : semaphore → M sys B) :
  bind (get_sema s) k σ = match σ.(semas) !! s with Some x => k x σ | None => Err Fault end.
Proof. unfold bind, get_sema. by destruct (_ !! _). Qed.
Lemma b_holder l (k : Z → M sys B) :
  bind (get_holder l) k σ = match σ.(holders) !! l with Some x => k x σ | None => Err Fault end.
Proof. unfold bind, get_holder. by destruct (_ !! _). Qed.
Lemma b_cond c (k : list Z → M sys B) :
  bind (get_cond c) k σ = match σ.(conds) !! c with Some x => k x σ | None => Err Fault end.
Proof. unfold bind, get_cond. by destruct (_ !! _). Qed.
Lemma b_assoc (c : M sys A) (f : A → M sys B) (k : B → M sys C) :
  bind (bind c f) k σ = bind c (λ x, bind (f x) k) σ.
Proof. unfold bind. by destruct (c σ) as [[]|]. Qed.
Lemma b_if (b : bool) (c1 c2 : M sys A) (k : A → M sys B) :
  bind (if b then c1 else c2) k σ = if b then bind c1 k σ else bind c2 k σ.
Proof. by destruct b. Qed.
Lemma b_level_off (k : intr_level → M sys B) :
  bind (intr_set_level INTR_OFF) k σ =
    k σ.(intr) (upd_intr INTR_OFF σ.(in_external_intr) σ.(yield_on_return) σ).
Proof. done. Qed.
Lemma b_run (c : M sys A) (k : A → M sys B) :
  bind c k σ = match c σ with Ok (a, σ') => k a σ' | Err e => Err e end.
Proof. done. Qed.
Lemma m_if (b : bool) (c1 c2 : M sys A) : (if b then c1 else c2) σ = if b then c1 σ else c2 σ.
Proof. by destruct b. Qed.
Lemma m_ret (a : A) : ret a σ = Ok (a, σ).
Proof. done. Qed.
Lemma m_modify f : modify f σ = Ok (tt, f σ).
Proof. done. Qed.
End equations.
Hint Rewrite @b_ret @b_read @b_get @b_modify @b_fail @b_assert @b_thread @b_sema @b_holder
  @b_cond @b_assoc @b_if @b_level_off @m_if @m_ret @m_modify : mon.

(** Exposes the primitives that an operation is made of. *)
Ltac mon_unfold := unfold running_thread, is_thread, push, alter_thread,
  intr_enable, intr_disable, put_level, intr_get_level, intr_context,
  set_sema, set_holder, set_cond, NULL.
Ltac mon := repeat (mon_unfold; autorewrite with mon;
  cbn [threads ready_list running idle_thread initial_thread semas holders conds infos intr
       in_external_intr yield_on_return thread_ticks idle_ticks kernel_ticks user_ticks next_tid
       upd_threads upd_ready upd_running upd_semas upd_locks upd_intr upd_ticks upd_tids]).

Lemma b_current {B} σ th (k : Z → M sys B) :
  σ.(threads) !! σ.(running) = Some th → σ.(running) ≠ 0 → th.(status) = THREAD_RUNNING →
  bind thread_current k σ = k σ.(running) σ.
Proof.
  intros Ht Hr Hs. unfold thread_current. mon. rewrite Ht, (proj2 (Z.eqb_neq _ _) Hr).
  rewrite bool_decide_true by eauto. cbn [negb andb]. mon. by rewrite Hs, bool_decide_true.
Qed.

Lemma b_held {B} σ th l (k : bool → M sys B) :
  σ.(threads) !! σ.(running) = Some th → σ.(running) ≠ 0 → th.(status) = THREAD_RUNNING →
  bind (lock_held_by_current_thread l) k σ =
    if l =? 0 then Err AssertFail else
    match σ.(holders) !! l with Some h => k (h =? σ.(running)) σ | None => Err Fault end.
Proof.
  intros Ht Hr Hs. unfold lock_held_by_current_thread. mon. destruct (l =? 0); [done|].
  cbn [negb]. destruct (holders σ !! l); [|done]. mon. erewrite b_current by done. by mon.
Qed.

(** Computes the fields of an updated state. *)
Ltac sysred := cbv beta iota delta [threads ready_list running idle_thread initial_thread semas
  holders conds infos intr in_external_intr yield_on_return thread_ticks idle_ticks kernel_ticks
  user_ticks next_tid upd_threads upd_ready upd_running upd_semas upd_locks upd_intr upd_ticks
  upd_tids ret].

(** ** Counting threads *)

Definition cnt (P : tview → bool) (v : gmap Z tview) : Z :=
  Z.of_nat (size (filter (λ x : Z * tview, P x.2 = true) v)).

Lemma cnt_nonneg P v : 0 ≤ cnt P v.
Proof. unfold cnt. lia. Qed.

Lemma cnt_fresh P v t x : v !! t = None → cnt P (<[t := x]> v) = cnt P v + Z.b2z (P x).
Proof.
  intros Ht. unfold cnt. destruct (P x) eqn:HP; simpl.
  - rewrite map_filter_insert_True by done. rewrite map_size_insert_None; [lia|].
    apply map_lookup_filter_None. by left.
  - rewrite map_filter_insert_False by (simpl; congruence).
    rewrite delete_id; [lia|done].
Qed.

Lemma cnt_delete P v t x : v !! t = Some x → cnt P (delete t v) = cnt P v - Z.b2z (P x).
Proof.
  intros Ht. rewrite <- (insert_delete_id v t x Ht) at 2.
  rewrite cnt_fresh by apply lookup_delete_eq. lia.
Qed.

Lemma cnt_insert P v t x y : v !! t = Some x →
  cnt P (<[t := y]> v) = cnt P v - Z.b2z (P x) + Z.b2z (P y).
Proof.
  intros Ht. rewrite <- (insert_delete_id v t x Ht), insert_insert_eq.
  rewrite !cnt_fresh by apply lookup_delete_eq. lia.
Qed.

(** A property of threads that does not see the difference between ready and running and
    that the idle thread and ended threads do not have. *)
Record tokp (P : tview → bool) : Prop := {
  tok_run : ∀ k inf, P (THREAD_READY, k, inf) = P (THREAD_RUNNING, k, inf);
  tok_idle : ∀ st k inf, idle_shape k → P (st, k, inf) = false;
  tok_nil : ∀ st inf, P (st, [], inf) = false;
}.

(** ** The invariant of the whole state *)

Definition isl (L : gset Z) (s : Z) : bool := bool_decide (s - 4 ∈ L).

Record invc (L : gset Z) (cur : option Z) (σ : sys) : Prop := {
  inv_a : ainv (isl L) (V σ) σ.(ready_list) (W σ) cur σ.(running) σ.(idle_thread)
            [σ.(initial_thread)] σ.(intr);
  inv_dom : dom σ.(holders) = L;
  inv_conds : ∀ c ws w, σ.(conds) !! c = Some ws → w ∈ ws → isl L (elem_sema w) = false;
  inv_tid : tid_lock ∈ L;
  inv_info0 : isl L (wait_sema 0) = false ∧ isl L (exec_sema 0) = false;
}.

Definition inv (L : gset Z) (σ : sys) : Prop := invc L (Some σ.(running)) σ.

(** ** Semaphores and locks *)

Definition val (σ : sys) (s : Z) : Z := from_option value 0 (σ.(semas) !! s).
Definition held (σ : sys) (l : Z) : Z :=
  match σ.(holders) !! l with Some h => Z.b2z (negb (h =? NULL)) | None => 0 end.

(** A thread that is about to look at the value of semaphore [s] in [sema_down]. *)
Definition retry (s : Z) (x : tview) : bool :=
  match x with
  | (st, FSemaLoop s' _ :: _, _) => (s' =? s) && negb (bool_decide (st = THREAD_BLOCKED))
  | _ => false
  end.

(** A thread that has taken the semaphore of lock [l] and not yet become its holder, or has
    stopped being its holder and not yet given the semaphore back. *)
Definition tok (l : Z) (x : tview) : bool :=
  match core x.1.2 with
  | FSetHolder l' :: _ => l' =? l
  | SemaUp s :: _ => s =? lock_sema l
  | _ => false
  end.

Lemma b2z_bound b : 0 ≤ Z.b2z b ≤ 1.
Proof. destruct b; simpl; lia. Qed.

Lemma held_nonneg σ l : 0 ≤ held σ l.
Proof. unfold held. destruct (holders σ !! l) as [h|]; [apply b2z_bound|done]. Qed.

Record sync (L : gset Z) (σ : sys) : Prop := {
  sy_val : ∀ s, is_u32 (val σ s);
  sy_sema : ∀ l, l ∈ L → is_Some (σ.(semas) !! lock_sema l);
  (* no wake-up is lost: a semaphore with waiters has at most as many units as threads
     that are going to take one *)
  sy_wake : ∀ s, W σ s ≠ [] → val σ s ≤ cnt (retry s) (V σ);
  (* a lock's one unit is in its semaphore, with its holder or on the way *)
  sy_lock : ∀ l, l ∈ L → val σ (lock_sema l) + held σ l + cnt (tok l) (V σ) = 1;
}.

Lemma tokp_retry s : tokp (retry s).
Proof.
  split; [done| |done]. intros st k inf' (r&Hk). destruct k as [|[] k]; try done.
  by destruct Hk.
Qed.

Lemma tokp_tok l : tokp (tok l).
Proof.
  split; [done| |done]. intros st k inf (r&[Hk|Hk]); unfold tok; cbn; by rewrite Hk.
Qed.

Lemma V_lookup σ t x : V σ !! t = Some x → ∃ th, σ.(threads) !! t = Some th ∧ tv th = x.
Proof. unfold V. rewrite lookup_fmap, fmap_Some. naive_solver. Qed.

Lemma V_of σ t th : σ.(threads) !! t = Some th → V σ !! t = Some (tv th).
Proof. intros H. unfold V. by rewrite lookup_fmap, H. Qed.

(** What [schedule] leaves alone. *)
Record same_sync (σ σ' : sys) : Prop := {
  ss_semas : σ'.(semas) = σ.(semas);
  ss_holders : σ'.(holders) = σ.(holders);
  ss_ext : σ'.(in_external_intr) = σ.(in_external_intr);
  ss_cnt : ∀ P, tokp P → cnt P (V σ') = cnt P (V σ);
}.

Lemma schedule_tail_ok σ (prev : Z) th :
  σ.(intr) = INTR_OFF → σ.(threads) !! σ.(running) = Some th →
  (prev ≠ 0 → prev ≠ σ.(running) ∧ is_Some (σ.(threads) !! prev)) →
  ∃ σ', schedule_tail prev σ = Ok (tt, σ') ∧
    σ' = upd_ticks 0 σ.(idle_ticks) σ.(kernel_ticks) σ.(user_ticks)
           (upd_threads (λ m, let m' := <[σ.(running) := set_status THREAD_RUNNING th]> m in
              match σ.(threads) !! prev with
              | Some p => if negb (prev =? 0) && bool_decide (p.(status) = THREAD_DYING)
                             && negb (prev =? σ.(initial_thread))
                          then delete prev m' else m'
              | None => m'
              end) σ).
Proof.
  intros Hi Ht Hp. eexists. split; [|done]. unfold schedule_tail. mon.
  rewrite Hi, Ht. cbn. unfold NULL. destruct (Z.eqb_spec prev 0) as [->|Hne]; simpl.
  { by destruct (threads σ !! 0). }
  destruct (Hp Hne) as [Hpr [p Hpt]]. mon. rewrite lookup_insert_ne, Hpt by done. mon.
  destruct (_ && _); [|done]. by rewrite (proj2 (Z.eqb_neq _ _) Hpr).
Qed.

Lemma next_thread_ok σ :
  next_thread_to_run σ = Ok (hd σ.(idle_thread) σ.(ready_list), upd_ready tl σ).
Proof.
  unfold next_thread_to_run. destruct σ as [? [|t ts]]; reflexivity.
Qed.

Lemma tokp_same P (v : gmap Z tview) n st k inf : tokp P → v !! n = Some (st, k, inf) →
  (st = THREAD_READY ∨ idle_shape k) → cnt P (<[n := (THREAD_RUNNING, k, inf)]> v) = cnt P v.
Proof.
  intros [] Hn [->|Hs]; rewrite (cnt_insert _ _ _ _ _ Hn).
  - rewrite tok_run0. lia.
  - rewrite !tok_idle0 by done. lia.
Qed.

(** A switch always finds a thread to run, trips none of the scheduler's assertions and
    restores the invariant. *)
Lemma schedule_inv L σ : invc L None σ →
  ∃ σ', schedule σ = Ok (tt, σ') ∧ inv L σ' ∧ same_sync σ σ'.
Proof.
  intros [Ha Hd Hc Ht Hi0]. pose proof (a_cur _ _ _ _ _ _ _ _ _ Ha) as Hi. simpl in Hi.
  rewrite Hi in Ha. destruct (ainv_next _ _ _ _ _ _ _ Ha) as (st&k&inf&Hn&Hnd&Hor&Hn0&_).
  destruct (a_exists _ _ _ _ _ _ _ _ _ Ha) as [x Hx].
  destruct (V_lookup _ _ _ Hx) as (thr&Hr&<-). destruct (V_lookup _ _ _ Hn) as (thn&Htn&E).
  assert (Hrs : thr.(status) ≠ THREAD_RUNNING).
  { intros E'. apply (a_run _ _ _ _ _ _ _ _ _ Ha _ _ _ _ Hx) in E'. done. }
  assert (Hsh : st = THREAD_READY ∨ idle_shape k).
  { destruct Hor as [?|Hid]; [by left|right].
    pose proof (a_stk _ _ _ _ _ _ _ _ _ Ha _ _ _ _ Hn) as Hk. by rewrite decide_True in Hk. }
  set (n := hd σ.(idle_thread) σ.(ready_list)) in *.
  set (σ1 := upd_running n (upd_ready tl σ)).
  assert (Hsched : schedule σ = schedule_tail (if running σ =? n then 0 else running σ) σ1).
  { unfold schedule. mon. erewrite bind_Ok by apply next_thread_ok. mon.
    rewrite Hi, Hr. rewrite (bool_decide_true (INTR_OFF = _)) by done. mon.
    rewrite (bool_decide_false (status thr = _)) by done. fold n. cbn [negb].
    rewrite Htn. unfold NULL. rewrite (proj2 (Z.eqb_neq _ _) Hn0), bool_decide_true by eauto.
    cbn [negb andb].
    destruct (Z.eqb_spec (running σ) n) as [En|En]; mon; [|done].
    f_equal. unfold σ1. rewrite <- En. by destruct σ. }
  rewrite Hsched.
  edestruct (schedule_tail_ok σ1 (if running σ =? n then 0 else running σ) thn)
    as (σ'&->&->); [done|exact Htn| |].
  { destruct (Z.eqb_spec (running σ) n); [done|]. intros _. split; [done|]. by eexists. }
  eexists. split; [done|].
  assert (HV : V σ1 = V σ) by done.
  cbn [initial_thread σ1 upd_running upd_ready running threads].
  destruct (decide (running σ = n ∨ thr.(status) ≠ THREAD_DYING ∨ running σ = initial_thread σ))
    as [Hkeep|Hdel].
  - match goal with |- inv L (upd_ticks _ _ _ _ (upd_threads ?f _)) ∧ _ =>
      assert (Hf : f σ.(threads) = <[n := set_status THREAD_RUNNING thn]> σ.(threads)) end.
    { cbn zeta. destruct (Z.eqb_spec (running σ) n); simpl; [by destruct (_ !! 0)|].
      rewrite Hr. destruct Hkeep as [?|[?|E']]; [done|by rewrite bool_decide_false, andb_false_r|].
      by rewrite (proj2 (Z.eqb_eq _ _) E'), andb_false_r. }
    assert (HV' : tv <$> <[n := set_status THREAD_RUNNING thn]> σ.(threads)
                  = <[n := (THREAD_RUNNING, k, inf)]> (V σ)).
    { rewrite fmap_insert. unfold tv in E |- *. simpl. by simplify_eq. }
    split.
    + split; try done. unfold V. cbn. rewrite Hf, HV', Hi.
      apply (ainv_keep _ _ _ _ _ _ _ _ _ (ainv_switch _ _ _ _ _ _ _ _ _ _ Ha Hn)).
      intros k' inf' Hdy. vlook. destruct Hkeep as [?|[?|?]]; [done| |set_solver].
      unfold tv in *. congruence.
    + split; try done. intros P HP. unfold V at 1. cbn. rewrite Hf, HV'. by eapply tokp_same.
  - assert (running σ ≠ n ∧ status thr = THREAD_DYING ∧ running σ ≠ initial_thread σ)
      as (Hrn&Hs&Hri).
    { destruct (decide (status thr = THREAD_DYING)); split_and!; naive_solver. }
    match goal with |- inv L (upd_ticks _ _ _ _ (upd_threads ?f _)) ∧ _ =>
      assert (Hf : f σ.(threads) = delete (running σ) (<[n := set_status THREAD_RUNNING thn]> σ.(threads))) end.
    { cbn zeta. rewrite (proj2 (Z.eqb_neq _ _) Hrn), Hr, Hs, (proj2 (Z.eqb_neq _ _) Hri).
      destruct (Z.eqb_spec (running σ) 0) as [E0|]; [|done].
      rewrite E0, (a_null _ _ _ _ _ _ _ _ _ Ha) in Hx. done. }
    assert (HV' : tv <$> delete (running σ) (<[n := set_status THREAD_RUNNING thn]> σ.(threads))
                  = delete (running σ) (<[n := (THREAD_RUNNING, k, inf)]> (V σ))).
    { rewrite fmap_delete, fmap_insert. unfold tv in E |- *. simpl. by simplify_eq. }
    unfold tv in Hx. rewrite Hs in Hx.
    assert (Hx' : <[n := (THREAD_RUNNING, k, inf)]> (V σ) !! running σ
                  = Some (THREAD_DYING, thr.(stack), thr.(info))).
    { by rewrite lookup_insert_ne. }
    split.
    + split; try done. unfold V. cbn. rewrite Hf, HV', Hi.
      apply (ainv_free _ _ _ _ _ _ _ _ _ _ _ (ainv_switch _ _ _ _ _ _ _ _ _ _ Ha Hn) Hx').
    + split; try done. intros P HP. unfold V at 1. cbn. rewrite Hf, HV', (cnt_delete _ _ _ _ Hx').
      assert (stack thr = []) as -> by apply (a_dying _ _ _ _ _ _ _ _ _ Ha _ _ _ Hx).
      rewrite (tok_nil _ HP), (tokp_same _ _ _ _ _ _ HP Hn Hsh). simpl. lia.
Qed.

Lemma same_sync_ok L σ σ' : same_sync σ σ' → sync L σ → sync L σ'.
Proof.
  intros [Hs Hh _ Hc] [Hv Hsm Hw Hl].
  assert (HW : W σ' = W σ) by (unfold W; by rewrite Hs).
  assert (Hval : val σ' = val σ) by (unfold val; by rewrite Hs).
  assert (Hheld : held σ' = held σ) by (unfold held; by rewrite Hh).
  split; intros s; rewrite ?HW, ?Hval, ?Hheld; [done|rewrite Hs; auto|..].
  - rewrite (Hc _ (tokp_retry s)). auto.
  - rewrite (Hc _ (tokp_tok s)). auto.
Qed.

(** ** Local changes *)

(** The running thread's remaining code changes from [k] to [k'] and the scheduler's data do
    not. *)
Record moved (σ σ' : sys) (k k' : list code) (inf : Z) : Prop := {
  mv_old : V σ !! σ.(running) = Some (THREAD_RUNNING, k, inf);
  mv_new : V σ' = <[σ.(running) := (THREAD_RUNNING, k', inf)]> (V σ);
  mv_ready : σ'.(ready_list) = σ.(ready_list);
  mv_running : σ'.(running) = σ.(running);
  mv_idle : σ'.(idle_thread) = σ.(idle_thread);
  mv_init : σ'.(initial_thread) = σ.(initial_thread);
}.

Definition shape (L : gset Z) (σ : sys) (k : list code) : Prop :=
  if decide (σ.(running) = σ.(idle_thread)) then idle_shape k else stk (isl L) k.

Definition conds_ok (L : gset Z) (σ : sys) : Prop :=
  ∀ c ws w, σ.(conds) !! c = Some ws → w ∈ ws → isl L (elem_sema w) = false.

Lemma dom_sema (L : gset Z) (m m' : gmap Z semaphore) :
  (∀ l, l ∈ L → is_Some (m !! lock_sema l)) → dom m ⊆ dom m' →
  ∀ l, l ∈ L → is_Some (m' !! lock_sema l).
Proof. intros Hm Hd l Hl. apply elem_of_dom, Hd, elem_of_dom. auto. Qed.

Lemma local_inv L σ σ' k k' inf :
  inv L σ → moved σ σ' k k' inf →
  (∀ s, W σ' s = W σ s) → dom σ'.(holders) = dom σ.(holders) → conds_ok L σ' →
  starts k' = starts k → shape L σ k' → lv σ'.(intr) k' →
  inv L σ'.
Proof.
  intros [Ha Hd Hc Ht Hi0] [] HW Hh Hc' Hs Hsh Hl. split; try done; [|congruence].
  rewrite mv_new0, mv_ready0, mv_running0, mv_idle0, mv_init0. by eapply ainv_local.
Qed.

Lemma local_sync L σ σ' k k' inf :
  sync L σ → moved σ σ' k k' inf →
  (∀ s, W σ' s = W σ s) →
  dom σ.(semas) ⊆ dom σ'.(semas) →
  (∀ s, is_u32 (val σ' s)) →
  (∀ s, val σ' s ≤ val σ s - Z.b2z (retry s (THREAD_RUNNING, k, inf))
                   + Z.b2z (retry s (THREAD_RUNNING, k', inf)) ∨ W σ s = []) →
  (∀ l, l ∈ L → val σ' (lock_sema l) + held σ' l + Z.b2z (tok l (THREAD_RUNNING, k', inf)) =
     val σ (lock_sema l) + held σ l + Z.b2z (tok l (THREAD_RUNNING, k, inf))) →
  sync L σ'.
Proof.
  intros [Hv Hsm Hw Hlk] [] HW Hd Hv' Hr Ht. split; [done|exact (dom_sema _ _ _ Hsm Hd)|..].
  - intros s. rewrite HW, mv_new0, (cnt_insert _ _ _ _ _ mv_old0). intros HWs.
    specialize (Hw s HWs). destruct (Hr s); [lia|done].
  - intros l Hl. rewrite mv_new0, (cnt_insert _ _ _ _ _ mv_old0).
    specialize (Hlk l Hl). specialize (Ht l Hl). lia.
Qed.

(** ** [sema_up] *)

(** The state after [sema_up (s)], where [s] has state [x] and [tht] is its first waiter. *)
Definition upped (s : Z) (x : semaphore) (tht : thread) (σ : sys) : sys :=
  let σ1 := upd_semas (<[s := {| value := u32 (x.(value) + 1); waiters := tl x.(waiters) |}]>) σ in
  match x.(waiters) with
  | [] => σ1
  | t :: _ => upd_ready (λ ts, ts ++ [t]) (upd_threads (<[t := set_status THREAD_READY tht]>) σ1)
  end.

Lemma sema_up_ok σ s x tht :
  s ≠ 0 → σ.(semas) !! s = Some x →
  (σ.(in_external_intr) = false ∨ σ.(intr) = INTR_OFF) →
  (∀ t, head x.(waiters) = Some t →
     t ≠ 0 ∧ σ.(threads) !! t = Some tht ∧ tht.(status) = THREAD_BLOCKED) →
  sema_up s σ = Ok (tt, upped s x tht σ).
Proof.
  intros Hs Hx Hi Hw. unfold sema_up. mon.
  rewrite (proj2 (Z.eqb_neq _ _) Hs). cbn [negb]. rewrite Hx. unfold upped.
  assert (Hset : ∀ σ', in_external_intr σ' = in_external_intr σ → intr_set_level (intr σ) σ'
    = Ok (intr σ', upd_intr (intr σ) (in_external_intr σ) (yield_on_return σ') σ')).
  { intros σ' E. unfold intr_set_level. destruct (intr σ) eqn:Ei; mon; rewrite E; [done|].
    destruct Hi as [->|?]; done. }
  destruct x as [v [|t ts]]; cbn [waiters value] in *.
  - mon. rewrite Hx. cbn [value]. mon. erewrite bind_Ok; [|by apply Hset].
    destruct σ; reflexivity.
  - destruct (Hw t eq_refl) as (Ht0&Ht&Hb). unfold thread_unblock. mon.
    rewrite (proj2 (Z.eqb_neq _ _) Ht0), Ht, bool_decide_true by eauto. cbn [negb andb]. mon.
    rewrite Hb, bool_decide_true by done. mon. rewrite Ht. mon.
    rewrite lookup_insert_eq. cbn [value]. mon. erewrite bind_Ok; [|by apply Hset].
    destruct σ. sysred. by rewrite insert_insert_eq.
Qed.

Lemma u32_succ_le v : is_u32 v → u32 (v + 1) ≤ v + 1.
Proof. intros [??]. unfold u32. apply Z.mod_le; mlia. Qed.

(** Interrupts may be turned on again outside of interrupt handlers. *)
Lemma b_set_level {B} i σ (k : intr_level → M sys B) : σ.(in_external_intr) = false →
  bind (intr_set_level i) k σ = k σ.(intr) (upd_intr i false σ.(yield_on_return) σ).
Proof. intros He. unfold intr_set_level. destruct i; mon; by rewrite He. Qed.

Lemma sema_try_down_ok σ s : σ.(in_external_intr) = false → s ≠ 0 →
  sema_try_down s σ =
    match σ.(semas) !! s with
    | None => Err Fault
    | Some x => if 0 <? x.(value) then
        Ok (true, upd_semas (<[s := {| value := u32 (x.(value) - 1); waiters := x.(waiters) |}]>) σ)
      else Ok (false, σ)
    end.
Proof.
  intros He Hs. unfold sema_try_down. mon. rewrite (proj2 (Z.eqb_neq _ _) Hs). cbn [negb].
  destruct (semas σ !! s) as [x|]; [|done]. mon.
  destruct (0 <? value x); rewrite b_set_level by done; mon; destruct σ; cbn in He; by subst.
Qed.

(** The threads and wait lists after [sema_up]. *)
Lemma upped_fields s x tht σ :
  running (upped s x tht σ) = running σ ∧ idle_thread (upped s x tht σ) = idle_thread σ ∧
  initial_thread (upped s x tht σ) = initial_thread σ ∧ intr (upped s x tht σ) = intr σ ∧
  holders (upped s x tht σ) = holders σ ∧ conds (upped s x tht σ) = conds σ ∧
  in_external_intr (upped s x tht σ) = in_external_intr σ ∧
  yield_on_return (upped s x tht σ) = yield_on_return σ ∧
  semas (upped s x tht σ) =
    <[s := {| value := u32 (x.(value) + 1); waiters := tl x.(waiters) |}]> (semas σ).
Proof. unfold upped. by destruct (waiters x). Qed.

Lemma upped_W s x tht σ s' :
  W (upped s x tht σ) s' = if decide (s' = s) then tl x.(waiters) else W σ s'.
Proof.
  unfold W. destruct (upped_fields s x tht σ) as (_&_&_&_&_&_&_&_&->).
  case_decide as E; [subst; by rewrite lookup_insert_eq|by rewrite lookup_insert_ne].
Qed.

Lemma upped_val s x tht σ s' :
  val (upped s x tht σ) s' = if decide (s' = s) then u32 (x.(value) + 1) else val σ s'.
Proof.
  unfold val. destruct (upped_fields s x tht σ) as (_&_&_&_&_&_&_&_&->).
  case_decide as E; [subst; by rewrite lookup_insert_eq|by rewrite lookup_insert_ne].
Qed.

(** The running thread ups [s] while its remaining code changes from [k] to [k']. *)
Record ups (L : gset Z) (σ σ0 : sys) (k k' : list code) (inf s : Z) : Prop := {
  up_moved : moved σ σ0 k k' inf;
  up_semas : σ0.(semas) = σ.(semas);
  up_holders : σ0.(holders) = σ.(holders);
  up_conds : σ0.(conds) = σ.(conds);
  up_starts : starts k' = starts k;
  up_shape : shape L σ k';
  up_lv : lv σ0.(intr) k';
  up_retry : ∀ s', retry s' (THREAD_RUNNING, k, inf) = false;
  up_tok : ∀ l, l ∈ L → Z.b2z (tok l (THREAD_RUNNING, k', inf)) + Z.b2z (s =? lock_sema l)
             = Z.b2z (tok l (THREAD_RUNNING, k, inf));
}.

Section up.
Context (L : gset Z) (σ σ0 : sys) (k k' : list code) (inf s : Z) (x : semaphore).
Context (HI : inv L σ) (HS : sync L σ) (HU : ups L σ σ0 k k' inf s).
Context (Hx : σ.(semas) !! s = Some x).

Lemma up_lock_val l : l ∈ L →
  (if decide (lock_sema l = s) then u32 (x.(value) + 1) else val σ (lock_sema l))
    = val σ (lock_sema l) + Z.b2z (s =? lock_sema l).
Proof using HS HU Hx.
  intros Hl. destruct HU, HS. specialize (up_tok0 l Hl). specialize (sy_lock0 l Hl).
  destruct up_moved0. pose proof (cnt_delete (tok l) _ _ _ mv_old0) as Hc.
  pose proof (cnt_nonneg (tok l) (delete σ.(running) (V σ))).
  specialize (sy_val0 s). unfold val in *.
  case_decide as E.
  - rewrite E, Hx in *. cbn [from_option] in *. rewrite Z.eqb_refl in *. cbn [Z.b2z] in *.
    pose proof (held_nonneg σ l). pose proof (b2z_bound (tok l (THREAD_RUNNING, k', inf))).
    pose proof (b2z_bound (tok l (THREAD_RUNNING, k, inf))). rewrite u32_small by mlia. lia.
  - rewrite (proj2 (Z.eqb_neq s (lock_sema l))) by congruence. cbn [Z.b2z]. lia.
Qed.

Lemma up_wake_none : x.(waiters) = [] → ∀ tht, inv L (upped s x tht σ0) ∧ sync L (upped s x tht σ0).
Proof using HI HS HU Hx.
  intros Hw tht. pose proof HU as [Hm Hsm Hh Hc Hst Hsh Hlv Hr Ht].
  assert (HW : ∀ s', W (upped s x tht σ0) s' = W σ s').
  { intros s'. rewrite upped_W. unfold W. rewrite Hsm. case_decide; [subst|done]. by rewrite Hx, Hw. }
  assert (Hm' : moved σ (upped s x tht σ0) k k' inf).
  { unfold upped. rewrite Hw. destruct Hm. by split. }
  destruct (upped_fields s x tht σ0) as (_&_&_&Hi'&Hh'&Hc'&_&_&Hss').
  split.
  - eapply local_inv; [done|done|done| | |done|done|].
    + by rewrite Hh', Hh.
    + unfold conds_ok. rewrite Hc', Hc. apply HI.
    + by rewrite Hi'.
  - assert (Hvs : ∀ s', val σ0 s' = val σ s') by (intros; unfold val; by rewrite Hsm).
    eapply local_sync; [done|done|done| |..].
    + rewrite Hss', Hsm. set_solver.
    + intros s'. rewrite upped_val, Hvs. case_decide; [apply u32_range|]. apply HS.
    + intros s'. rewrite upped_val, Hvs, Hr. case_decide; subst.
      * right. unfold W. by rewrite Hx.
      * left. destruct (retry s' _); simpl; lia.
    + intros l Hl. rewrite upped_val, Hvs. rewrite up_lock_val by done.
      specialize (Ht l Hl). unfold held. rewrite Hh', Hh. lia.
Qed.

Lemma up_wake_some t ts : x.(waiters) = t :: ts →
  ∃ tht, t ≠ 0 ∧ σ0.(threads) !! t = Some tht ∧ tht.(status) = THREAD_BLOCKED ∧
    inv L (upped s x tht σ0) ∧ sync L (upped s x tht σ0).
Proof using HI HS HU Hx.
  intros Hw. pose proof HU as [Hm Hsm Hh Hc Hst Hsh Hlv Hr Ht]. pose proof Hm as [].
  assert (HWs : W σ s = t :: ts) by (unfold W; by rewrite Hx).
  pose proof (inv_a _ _ _ HI) as Ha.
  destruct (a_waiting _ _ _ _ _ _ _ _ _ Ha s t) as (Hti&o&kt&inft&Hvt); [rewrite HWs; set_solver|].
  assert (Htr : t ≠ running σ) by congruence.
  assert (Hvt0 : V σ0 !! t = Some (THREAD_BLOCKED, FSemaLoop s o :: kt, inft)).
  { rewrite mv_new0. by rewrite lookup_insert_ne. }
  destruct (V_lookup _ _ _ Hvt0) as (tht&Htht&Etv). exists tht.
  assert (status tht = THREAD_BLOCKED) as Hb by (unfold tv in Etv; congruence).
  assert (t ≠ 0) as Ht0. { intros ->. rewrite (a_null _ _ _ _ _ _ _ _ _ Ha) in Hvt. done. }
  assert (HV : V (upped s x tht σ0) = <[t := (THREAD_READY, FSemaLoop s o :: kt, inft)]>
         (<[running σ := (THREAD_RUNNING, k', inf)]> (V σ))).
  { unfold upped. rewrite Hw. unfold V at 1. cbn. rewrite fmap_insert. fold (V σ0).
    rewrite mv_new0. unfold tv in Etv |- *. cbn. do 2 f_equal; congruence. }
  split_and!; [done..| |].
  all: destruct (upped_fields s x tht σ0) as (Hr'&Hid'&Hin'&Hi'&Hh'&Hc'&_&_&Hss').
  - destruct HI as [_ Hd Hcd Htid Hi0]. split; [|by rewrite Hh', Hh| |done..].
    + rewrite HV, Hr', Hid', Hin', Hi', mv_running0, mv_idle0, mv_init0.
      unfold upped at 1. rewrite Hw. cbn [ready_list upd_ready upd_threads upd_semas].
      rewrite mv_ready0.
      assert (Hnd : NoDup (t :: ts)) by (rewrite <- HWs; apply Ha).
      assert (HW0 : ∀ s', W σ0 s' = W σ s') by (intros; unfold W; by rewrite Hsm).
      assert (Hnst : ∀ u st ku infu, V σ !! u = Some (st, ku, infu) → t ∉ starts ku).
      { intros u st ku infu Hu Hin. destruct (a_start _ _ _ _ _ _ _ _ _ Ha _ _ _ _ _ Hu Hin) as (?&?&?&?).
        congruence. }
      eapply ainv_unblock; [done|done|exact Hvt|done| | | | | |done|done|..].
      * intros s'. rewrite upped_W, Hw, HW0. case_decide; [by apply NoDup_cons in Hnd as []|apply Ha].
      * intros s' u. rewrite upped_W, Hw, HW0. case_decide as E.
        -- subst s'. rewrite HWs. apply NoDup_cons in Hnd as [? _]. cbn. set_solver.
        -- split; [|by intros []]. intros Hu. split; [done|]. intros ->.
           destruct (a_waiting _ _ _ _ _ _ _ _ _ Ha _ _ Hu) as (?&?&?&?&?). congruence.
      * intros u. rewrite Hst. split; [|by intros []]. intros Hu. split; [done|]. intros ->.
        by apply (Hnst _ _ _ _ mv_old0).
      * rewrite Hst. by eapply a_start_nd.
      * eauto.
      * by apply (a_info _ _ _ _ _ _ _ _ _ Ha _ _ _ _ Hvt).
      * by apply (a_info _ _ _ _ _ _ _ _ _ Ha _ _ _ _ Hvt).
    + intros c ws w. rewrite Hc', Hc. apply Hcd.
  - assert (Hvs : ∀ s', val σ0 s' = val σ s') by (intros; unfold val; by rewrite Hsm).
    assert (HW0 : ∀ s', W σ0 s' = W σ s') by (intros; unfold W; by rewrite Hsm).
    assert (Hlk : <[running σ := (THREAD_RUNNING, k', inf)]> (V σ) !! t
      = Some (THREAD_BLOCKED, FSemaLoop s o :: kt, inft)) by (by rewrite lookup_insert_ne).
    split.
    + intros s'. rewrite upped_val, Hvs. case_decide; [apply u32_range|apply HS].
    + eapply dom_sema; [apply HS|]. rewrite Hss', Hsm. set_solver.
    + intros s'. rewrite upped_W, upped_val, HW0, Hvs, HV, (cnt_insert _ _ _ _ _ Hlk),
        (cnt_insert _ _ _ _ _ mv_old0), Hr.
      pose proof (sy_val _ _ HS s) as Hv. pose proof (sy_wake _ _ HS s') as Hwk.
      pose proof (b2z_bound (retry s' (THREAD_RUNNING, k', inf))) as Hb2.
      generalize dependent (retry s' (THREAD_RUNNING, k', inf)). intros rk Hrk.
      unfold val in Hv. rewrite Hx in Hv. pose proof (u32_succ_le _ Hv).
      cbn [retry]. case_decide as E; [subst s'|].
      * intros _. rewrite Z.eqb_refl. change (bool_decide (THREAD_BLOCKED = THREAD_BLOCKED)) with true.
        change (bool_decide (THREAD_READY = THREAD_BLOCKED)) with false. cbn. rewrite HWs in Hwk. unfold val in Hwk. rewrite Hx in Hwk.
        specialize (Hwk ltac:(done)). cbn [from_option] in *. lia.
      * intros HW'. rewrite (proj2 (Z.eqb_neq s s')) by congruence. cbn. specialize (Hwk HW'). lia.
    + intros l Hl. rewrite upped_val, Hvs, HV, (cnt_insert _ _ _ _ _ Hlk),
        (cnt_insert _ _ _ _ _ mv_old0), up_lock_val by done.
      specialize (Ht l Hl). pose proof (sy_lock _ _ HS l Hl). unfold held in *. rewrite Hh', Hh.
      change (tok l (THREAD_BLOCKED, FSemaLoop s o :: kt, inft)) with false.
      change (tok l (THREAD_READY, FSemaLoop s o :: kt, inft)) with false. cbn [Z.b2z]. lia.
Qed.

(** [sema_up] succeeds and keeps both invariants. *)
Lemma sema_up_inv : s ≠ 0 →
  (σ0.(in_external_intr) = false ∨ σ0.(intr) = INTR_OFF) →
  ∃ tht, sema_up s σ0 = Ok (tt, upped s x tht σ0) ∧
    inv L (upped s x tht σ0) ∧ sync L (upped s x tht σ0).
Proof using HI HS HU Hx.
  intros Hs Hi. assert (Hx0 : semas σ0 !! s = Some x) by (by rewrite (up_semas _ _ _ _ _ _ _ HU)).
  destruct (waiters x) as [|t ts] eqn:Hw.
  - destruct (V_lookup _ _ _ (mv_old _ _ _ _ _ (up_moved _ _ _ _ _ _ _ HU))) as (th&_&_).
    exists th. split; [|by apply up_wake_none]. apply sema_up_ok; auto. by rewrite Hw.
  - destruct (up_wake_some t ts Hw) as (tht&?&?&?&?&?). exists tht. split_and!; [|done..].
    apply sema_up_ok; auto. rewrite Hw. intros ? [= <-]. done.
Qed.
End up.

(** ** Giving up the processor *)

Lemma sync_upd L σ σ' x y :
  sync L σ → V σ !! running σ = Some x → V σ' = <[running σ := y]> (V σ) →
  dom σ.(semas) ⊆ dom σ'.(semas) →
  (∀ s, is_u32 (val σ' s)) →
  (∀ s, val σ' s = 0 ∨ (W σ' s ≠ [] → W σ s ≠ []) ∧
        val σ' s ≤ val σ s - Z.b2z (retry s x) + Z.b2z (retry s y)) →
  (∀ l, l ∈ L → val σ' (lock_sema l) + held σ' l + Z.b2z (tok l y) =
     val σ (lock_sema l) + held σ l + Z.b2z (tok l x)) →
  sync L σ'.
Proof.
  intros [Hv Hsm Hw Hlk] Hx HV Hd Hv' Hr Ht. split; [done|exact (dom_sema _ _ _ Hsm Hd)|..].
  - intros s HWs. destruct (Hr s) as [->|[HW' ?]]; [apply cnt_nonneg|].
    rewrite HV, (cnt_insert _ _ _ _ _ Hx). specialize (Hw s (HW' HWs)). lia.
  - intros l Hl. rewrite HV, (cnt_insert _ _ _ _ _ Hx). specialize (Hlk l Hl).
    specialize (Ht l Hl). lia.
Qed.

(** In [σ1] the thread that runs in [σ] has been marked as [st'] with [k'] left to run. *)
Record descheds (L : gset Z) (σ σ1 : sys) (k : list code) (st' : thread_status) (k' : list code)
    (inf : Z) : Prop := {
  de_old : V σ !! running σ = Some (THREAD_RUNNING, k, inf);
  de_new : V σ1 = <[running σ := (st', k', inf)]> (V σ);
  de_running : running σ1 = running σ;
  de_idle : idle_thread σ1 = idle_thread σ;
  de_init : initial_thread σ1 = initial_thread σ;
  de_intr : intr σ1 = INTR_OFF;
  de_holders : holders σ1 = holders σ;
  de_conds : conds σ1 = conds σ;
  de_st : st' ≠ THREAD_RUNNING;
  de_ready : ready_list σ1 = ready_list σ ++
    (if decide (st' = THREAD_READY ∧ running σ ≠ idle_thread σ) then [running σ] else []);
  de_starts : starts k' = starts k;
  de_shape : shape L σ k';
  de_lv : lv INTR_OFF k';
}.

Lemma desched_not_ready L σ k inf : inv L σ → V σ !! running σ = Some (THREAD_RUNNING, k, inf) →
  running σ ∉ ready_list σ ∧ ∀ s, running σ ∉ W σ s.
Proof.
  intros HI Hv. pose proof (inv_a _ _ _ HI) as Ha. split.
  - rewrite (a_ready _ _ _ _ _ _ _ _ _ Ha). intros (?&?&?&?). congruence.
  - intros s Hin. destruct (a_waiting _ _ _ _ _ _ _ _ _ Ha _ _ Hin) as (?&?&?&?&?). congruence.
Qed.

(** The semaphore in whose loop a thread is suspended. *)
Definition waits_on (k : list code) : option Z :=
  match k with FSemaLoop s _ :: _ => Some s | _ => None end.

Lemma waits_on_Some k s : waits_on k = Some s ↔ ∃ o r, k = FSemaLoop s o :: r.
Proof.
  split; [|by intros (?&?&->)]. destruct k as [|[] r]; try done. intros [= ->]. eauto.
Qed.

Lemma resched L σ σ1 k st' k' inf :
  inv L σ → sync L σ1 → descheds L σ σ1 k st' k' inf →
  (st' = THREAD_BLOCKED → running σ = idle_thread σ ∨ is_Some (waits_on k')) →
  (st' = THREAD_DYING → k' = []) →
  (∀ s, W σ1 s = W σ s ++
    (if decide (running σ ≠ idle_thread σ ∧ st' = THREAD_BLOCKED ∧ waits_on k' = Some s)
     then [running σ] else [])) →
  ∃ σ', schedule σ1 = Ok (tt, σ') ∧ inv L σ' ∧ sync L σ' ∧
    in_external_intr σ' = in_external_intr σ1.
Proof.
  intros HI HS [] Hb Hdy HW. pose proof (inv_a _ _ _ HI) as Ha.
  destruct (desched_not_ready _ _ _ _ HI de_old0) as [HnR HnW].
  destruct (schedule_inv L σ1) as (σ'&Hs&HI'&Hss).
  { destruct HI as [_ Hd Hc Ht Hi0]. split; try done; [|by rewrite de_holders0|by rewrite de_conds0].
    rewrite de_new0, de_running0, de_idle0, de_init0, de_intr0.
    eapply ainv_desched; [exact Ha|done|done| | | | | |done|done|done|done].
    - rewrite de_ready0. case_decide; [|rewrite app_nil_r; apply Ha].
      apply NoDup_app. split_and!; [apply Ha| |apply NoDup_singleton].
      intros t ?. rewrite list_elem_of_singleton. congruence.
    - intros t. rewrite de_ready0, elem_of_app. apply or_iff_compat_l.
      destruct (decide _); [rewrite list_elem_of_singleton; naive_solver|]. set_solver.
    - intros s. rewrite HW.
      destruct (decide (running σ ≠ idle_thread σ ∧ _)); [|rewrite app_nil_r; apply Ha].
      apply NoDup_app. split_and!; [apply Ha| |apply NoDup_singleton].
      intros t Ht1 ->%list_elem_of_singleton. by apply (HnW s).
    - intros s t. rewrite HW, elem_of_app, <- waits_on_Some. apply or_iff_compat_l.
      destruct (decide (running σ ≠ idle_thread σ ∧ _)); [rewrite list_elem_of_singleton; naive_solver|]. set_solver.
    - intros E. destruct (Hb E) as [?|[s Hw]]; [by left|right; exists s]. by apply waits_on_Some. }
  exists σ'. split_and!; [done|done|by eapply same_sync_ok|by destruct Hss].
Qed.
