(* ===== verification/SchedSafe.v ===== *)
(** * Safety of the scheduler, semaphores and locks

    Every step of the running thread and every external interrupt preserves the invariants
    of [SchedStep]; by induction they hold in every reachable state, from which the
    properties that the kernel relies on follow. *)

From S2P Require Import Prelude Sched SchedInv SchedStep.
Local Open Scope c_scope.

(** ** Shapes of remaining code *)

Section shape_facts.
Context (L : gset Z).
Notation bcs k := (forallb (bc (isl L)) k = true).

Lemma isl_lock l : l ∈ L → isl L (lock_sema l) = true.
Proof. intros. apply bool_decide_eq_true. unfold lock_sema. by replace (l + 4 - 4) with l by lia. Qed.

Lemma isl_eqb s l : isl L s = false → l ∈ L → (s =? lock_sema l) = false.
Proof. intros Hs Hl. apply Z.eqb_neq. intros ->. rewrite isl_lock in Hs; done. Qed.

Lemma bcs_stk k : bcs k → stk (isl L) k.
Proof.
  intros H. unfold stk. destruct k as [|c k]; [done|].
  pose proof H as [Hc Hk]%andb_prop. apply Is_true_true in H, Hk.
  destruct c; try exact H; try exact Hk; try done.
  cbn [core]. apply negb_true_iff in Hc. by rewrite Hc.
Qed.

Lemma bcs_tok k l st inf : bcs k → l ∈ L → tok l (st, k, inf) = false.
Proof.
  intros H Hl. unfold tok. cbn. destruct k as [|c k]; [done|].
  pose proof H as [Hc _]%andb_prop. destruct c; cbn in *; try done.
  apply isl_eqb; [|done]. by apply negb_true_iff in Hc.
Qed.

Lemma bcs_retry k s st inf : bcs k → retry s (st, k, inf) = false.
Proof. intros H. destruct k as [|c k]; [done|]. apply andb_prop in H as [Hc _]. by destruct c. Qed.

Lemma bcs_app k1 k2 : bcs (k1 ++ k2) ↔ bcs k1 ∧ bcs k2.
Proof. rewrite forallb_app. apply andb_true_iff. Qed.

Lemma api_bc c : api (isl L) c = true → bc (isl L) c = true.
Proof. by destruct c. Qed.

Lemma apis_bcs k : forallb (api (isl L)) k = true → bcs k.
Proof. rewrite !forallb_forall. intros H c Hc. by apply api_bc, H. Qed.

Lemma apis_starts k : forallb (api (isl L)) k = true → starts k = [].
Proof.
  induction k as [|c k IH]; [done|]. intros [Hc Hk]%andb_prop.
  unfold starts in *. cbn. destruct c; cbn in *; try done; auto.
Qed.

Lemma apis_lv k i k' : forallb (api (isl L)) k = true → starts k' = [] → lv i k' →
  lv i (k ++ k').
Proof.
  intros Hk Hs Hl. induction k as [|c k IH]; [done|]. apply andb_prop in Hk as [Hc Hk].
  specialize (IH Hk). destruct c; cbn in *; try done.
  unfold starts in *. rewrite omap_app, Hs, app_nil_r. by apply apis_starts.
Qed.

Lemma starts_cons c k : start_of c = None → starts (c :: k) = starts k.
Proof. intros H. unfold starts. cbn. by rewrite H. Qed.

Lemma starts_app k1 k2 : starts (k1 ++ k2) = starts k1 ++ starts k2.
Proof. apply omap_app. Qed.

Lemma stk_bcs c k : stk (isl L) (c :: k) → core (c :: k) = c :: k →
  match c with
  | SemaDown s | FSemaLoop s _ =>
      if isl L s then ∃ l r', s = lock_sema l ∧ k = FSetHolder l :: r' ∧ bcs r' else bcs k
  | FSetHolder l => isl L (lock_sema l) = true ∧ bcs k
  | SemaUp _ => bcs k
  | _ => bc (isl L) c = true ∧ bcs k
  end.
Proof.
  intros H E. unfold stk in H. rewrite E in H.
  destruct c; try (apply Is_true_true in H; by apply andb_prop in H);
    try (by apply Is_true_true in H); try (by destruct H as [?%Is_true_true ?%Is_true_true]);
    destruct (isl L s); try (by apply Is_true_true in H);
    destruct H as (l&r'&?&?&?%Is_true_true); eauto.
Qed.
End shape_facts.

(** ** A semaphore gets a new value *)

Lemma set_value_W σ σ' s x v : σ.(semas) !! s = Some x →
  σ'.(semas) = <[s := {| value := v; waiters := x.(waiters) |}]> σ.(semas) →
  ∀ s', W σ' s' = W σ s'.
Proof.
  intros Hx E s'. unfold W. rewrite E. destruct (decide (s = s')) as [->|].
  - by rewrite lookup_insert_eq, Hx.
  - by rewrite lookup_insert_ne.
Qed.

Lemma set_value_val σ σ' s x v : 
  σ'.(semas) = <[s := {| value := v; waiters := x.(waiters) |}]> σ.(semas) →
  ∀ s', val σ' s' = if decide (s = s') then v else val σ s'.
Proof.
  intros E s'. unfold val. rewrite E. destruct (decide (s = s')) as [->|].
  - by rewrite lookup_insert_eq.
  - by rewrite lookup_insert_ne.
Qed.

(** ** Code that only changes what the thread runs next *)

Section control.
Context (L : gset Z) (σ : sys) (HI : inv L σ) (HS : sync L σ).

Lemma running_thread_ok : ∃ th, σ.(threads) !! σ.(running) = Some th ∧
  th.(status) = THREAD_RUNNING ∧ σ.(running) ≠ 0.
Proof using HI.
  pose proof (inv_a _ _ _ HI) as Ha. destruct (a_exists _ _ _ _ _ _ _ _ _ Ha) as [x Hx].
  destruct (V_lookup _ _ _ Hx) as (th&Hth&<-). exists th. split_and!; [done| |].
  - by apply (a_run _ _ _ _ _ _ _ _ _ Ha _ _ _ _ Hx).
  - intros E. rewrite E, (a_null _ _ _ _ _ _ _ _ _ Ha) in Hx. done.
Qed.

Context (th : thread) (Hth : σ.(threads) !! σ.(running) = Some th).

Lemma running_view : V σ !! σ.(running) = Some (THREAD_RUNNING, th.(stack), th.(info)).
Proof using HI Hth.
  destruct running_thread_ok as (th'&?&<-&_). simplify_eq. by apply V_of.
Qed.

Lemma running_shape : shape L σ th.(stack).
Proof using HI Hth.
  apply (a_stk _ _ _ _ _ _ _ _ _ (inv_a _ _ _ HI) _ _ _ _ running_view).
Qed.

Lemma running_lv : lv σ.(intr) th.(stack).
Proof using HI Hth.
  pose proof (a_lv _ _ _ _ _ _ _ _ _ (inv_a _ _ _ HI) _ _ _ _ running_view) as H.
  by rewrite level_cur in H.
Qed.

(** Neither semaphores nor locks change. *)
Lemma control_step σ' k' :
  V σ' = <[running σ := (THREAD_RUNNING, k', th.(info))]> (V σ) →
  σ'.(ready_list) = σ.(ready_list) → σ'.(running) = σ.(running) →
  σ'.(idle_thread) = σ.(idle_thread) → σ'.(initial_thread) = σ.(initial_thread) →
  σ'.(semas) = σ.(semas) → σ'.(holders) = σ.(holders) → conds_ok L σ' →
  starts k' = starts th.(stack) → shape L σ k' → lv σ'.(intr) k' →
  (∀ s, retry s (THREAD_RUNNING, th.(stack), th.(info)) = false) →
  (∀ l, l ∈ L → tok l (THREAD_RUNNING, k', th.(info)) = tok l (THREAD_RUNNING, th.(stack), th.(info))) →
  inv L σ' ∧ sync L σ'.
Proof using HI HS Hth.
  intros HV Hrd Hr Hid Hin Hsm Hh Hc Hs Hsh Hl Hrt Htk.
  assert (moved σ σ' th.(stack) k' th.(info)) by (split; [apply running_view|done..]).
  assert (HW : ∀ s, W σ' s = W σ s) by (intros; unfold W; by rewrite Hsm).
  assert (Hval : ∀ s, val σ' s = val σ s) by (intros; unfold val; by rewrite Hsm).
  split; [eapply local_inv; eauto; by rewrite Hh|].
  eapply local_sync; eauto; [by rewrite Hsm| |..].
  - intros s. rewrite Hval. apply HS.
  - intros s. left. rewrite Hval, Hrt. pose proof (b2z_bound (retry s (THREAD_RUNNING, k', info th))).
    cbn [Z.b2z]. lia.
  - intros l Hl'. rewrite Hval, (Htk l Hl'). unfold held. by rewrite Hh.
Qed.

(** The running thread calls [schedule] as a thread that is ready, blocked or dying. *)
Lemma desched_step σ1 th' st' k' :
  σ1.(threads) = <[σ.(running) := th']> σ.(threads) →
  tv th' = (st', k', th.(info)) →
  σ1.(running) = σ.(running) → σ1.(idle_thread) = σ.(idle_thread) →
  σ1.(initial_thread) = σ.(initial_thread) → σ1.(in_external_intr) = false →
  σ1.(intr) = INTR_OFF → σ1.(holders) = σ.(holders) → σ1.(conds) = σ.(conds) →
  st' ≠ THREAD_RUNNING →
  σ1.(ready_list) = σ.(ready_list) ++
    (if decide (st' = THREAD_READY ∧ running σ ≠ idle_thread σ) then [running σ] else []) →
  starts k' = starts th.(stack) → shape L σ k' → lv INTR_OFF k' →
  (st' = THREAD_BLOCKED → running σ = idle_thread σ ∨ is_Some (waits_on k')) →
  (st' = THREAD_DYING → k' = []) →
  (∀ s, W σ1 s = W σ s ++
    (if decide (running σ ≠ idle_thread σ ∧ st' = THREAD_BLOCKED ∧ waits_on k' = Some s)
     then [running σ] else [])) →
  dom σ.(semas) ⊆ dom σ1.(semas) → (∀ s, val σ1 s = val σ s) →
  (∀ s, val σ s = 0 ∨ ¬ (st' = THREAD_BLOCKED ∧ waits_on k' = Some s) ∧
     retry s (THREAD_RUNNING, th.(stack), th.(info)) = false) →
  (∀ l, l ∈ L → tok l (st', k', th.(info)) = tok l (THREAD_RUNNING, th.(stack), th.(info))) →
  ∃ σ', schedule σ1 = Ok (tt, σ') ∧ inv L σ' ∧ sync L σ' ∧ σ'.(in_external_intr) = false.
Proof using HI HS Hth.
  intros Ht Htv Hr Hid Hin He Hi Hh Hc Hst Hrd Hs Hsh Hl Hb Hd HW Hds Hv Hrt Htk.
  pose proof running_view as Hold.
  assert (HV : V σ1 = <[running σ := (st', k', th.(info))]> (V σ)).
  { unfold V. by rewrite Ht, fmap_insert, Htv. }
  assert (HS1 : sync L σ1).
  { eapply sync_upd; [exact HS|exact Hold|exact HV|done|..].
    - intros s. rewrite Hv. apply HS.
    - intros s. rewrite Hv. destruct (Hrt s) as [?|[Hnb Hnr]]; [by left|right]. split.
      + rewrite HW, decide_False by tauto. by rewrite app_nil_r.
      + rewrite Hnr. pose proof (b2z_bound (retry s (st', k', info th))). cbn [Z.b2z]. lia.
    - intros l Hl'. rewrite Hv, (Htk l Hl'). unfold held. by rewrite Hh. }
  destruct (resched L σ σ1 th.(stack) st' k' th.(info)) as (σ'&->&?&?&He'); try done.
  exists σ'. split_and!; [done..|congruence].
Qed.

(** [thread_yield], from a state [σ0] in which the running thread has [k] left to run. *)
Lemma yield_step σ0 k :
  σ0.(threads) = <[σ.(running) := set_stack k th]> σ.(threads) →
  σ0.(running) = σ.(running) → σ0.(idle_thread) = σ.(idle_thread) →
  σ0.(initial_thread) = σ.(initial_thread) → σ0.(in_external_intr) = false →
  σ0.(ready_list) = σ.(ready_list) → σ0.(semas) = σ.(semas) →
  σ0.(holders) = σ.(holders) → σ0.(conds) = σ.(conds) →
  starts k = starts th.(stack) → shape L σ k → lv σ0.(intr) k →
  (∀ s, retry s (THREAD_RUNNING, th.(stack), th.(info)) = false) →
  (∀ l, l ∈ L → tok l (THREAD_RUNNING, k, th.(info)) = tok l (THREAD_RUNNING, th.(stack), th.(info))) →
  ∃ σ', thread_yield σ0 = Ok (tt, σ') ∧ inv L σ' ∧ sync L σ' ∧ σ'.(in_external_intr) = false.
Proof using HI HS Hth.
  intros Ht Hr Hid Hin He Hrd Hsm Hh Hc Hs Hsh Hl Hrt Htk.
  destruct running_thread_ok as (th0&Hth0&Hst&Hr0). rewrite Hth in Hth0. injection Hth0 as <-.
  assert (Hcur : σ0.(threads) !! σ0.(running) = Some (set_stack k th)) by (by rewrite Ht, Hr, lookup_insert_eq).
  unfold thread_yield. rewrite (b_current _ (set_stack k th)) by (done || by rewrite Hr). mon.
  rewrite He. cbn [negb]. rewrite Hr, Hid.
  destruct (Z.eqb_spec (running σ) (idle_thread σ)) as [E|E];
    rewrite Ht, lookup_insert_eq; mon; rewrite Ht, Hr, insert_insert_eq, lookup_insert_eq; mon;
    (eapply (desched_step _ (set_status THREAD_READY (set_stack (FSetLevel (intr σ0) :: k) th))
      THREAD_READY (FSetLevel (intr σ0) :: k)); try done;
      [cbn; by rewrite Ht, !insert_insert_eq
      |cbn; rewrite Hrd
      |intros s; rewrite decide_False, app_nil_r by (by intros (_&?&_)); unfold W; cbn; by rewrite Hsm
      |cbn; by rewrite Hsm
      |intros s; unfold val; cbn; by rewrite Hsm
      |intros s; right; split; [by intros [? _]|done]]).
  - rewrite decide_False, app_nil_r; [done|]. by intros [??].
  - by rewrite decide_True.
Qed.
End control.

(** ** What callers must respect

    [misuse σ c] describes the errors of a caller that an [ASSERT] or a fault answers when
    the running thread runs [c]: a null pointer, an object that was not initialised, a lock
    released by a thread that does not hold it or acquired by the one that does, a priority
    out of range, or a failed allocation of the thread's [struct thread_info]. *)

Definition misuse (σ : sys) (c : code) : Prop :=
  match c with
  | SemaDown s => s = 0
  | FSemaLoop s _ => σ.(semas) !! s = None
  | SemaUp s | SemaTryDown s => s = 0 ∨ σ.(semas) !! s = None
  | LockAcquire l => l = 0 ∨ σ.(holders) !! l = None ∨ σ.(holders) !! l = Some σ.(running)
  | LockTryAcquire l =>
      l = 0 ∨ lock_sema l = 0 ∨ σ.(holders) !! l = None ∨ σ.(holders) !! l = Some σ.(running)
  | LockRelease l => l = 0 ∨ σ.(holders) !! l ≠ Some σ.(running)
  | CondWait c l w => c = 0 ∨ l = 0 ∨ elem_sema w = 0 ∨ σ.(holders) !! l ≠ Some σ.(running) ∨
                      σ.(conds) !! c = None
  | CondSignal c l => c = 0 ∨ l = 0 ∨ σ.(holders) !! l ≠ Some σ.(running) ∨ σ.(conds) !! c = None
  | CondBroadcast c l => c = 0 ∨ l = 0 ∨ σ.(conds) !! c = None
  | FBroadcast c _ => σ.(conds) !! c = None
  | ThreadCreate _ prio _ _ => ¬ PRI_MIN ≤ prio ≤ PRI_MAX
  | FTid t => σ.(threads) !! t = None
  | FStart t inf => inf = 0 ∨ wait_sema inf = 0 ∨ exec_sema inf = 0 ∨ sup_page_sema t = 0
  | FUpExec => ∃ th, σ.(threads) !! σ.(running) = Some th ∧
                 (exec_sema th.(info) = 0 ∨ σ.(semas) !! exec_sema th.(info) = None)
  | FUpWait => ∃ th, σ.(threads) !! σ.(running) = Some th ∧
                 (wait_sema th.(info) = 0 ∨ σ.(semas) !! wait_sema th.(info) = None)
  | _ => False
  end.

(** Objects that are being initialised are not in use: a local variable or a block from
    [malloc] is not a semaphore that threads wait for, and a page from [palloc_get_page] is
    not a thread. *)
Definition fresh (σ : sys) (c : code) : Prop :=
  match c with
  | CondWait _ _ w => W σ (elem_sema w) = []
  | FStart t inf => W σ (wait_sema inf) = [] ∧ W σ (exec_sema inf) = [] ∧ W σ (sup_page_sema t) = []
  | ThreadCreate page _ _ _ => σ.(threads) !! page = None
  | _ => True
  end.

Definition good (L : gset Z) (σ : sys) : Prop :=
  inv L σ ∧ sync L σ ∧ σ.(in_external_intr) = false.

Definition fine (L : gset Z) (bad : Prop) (r : res (unit * sys)) : Prop :=
  match r with Ok (_, σ') => good L σ' | Err _ => bad end.

Section cases.
Context (L : gset Z) (σ : sys) (HG : good L σ).
Context (th : thread) (c : code) (k : list code).
Context (Hth : σ.(threads) !! σ.(running) = Some th) (Hk : th.(stack) = c :: k).

Let σ0 : sys := upd_threads (<[σ.(running) := set_stack k th]>) σ.

(** The facts every case starts from. *)
Lemma case_facts : th.(status) = THREAD_RUNNING ∧ σ.(running) ≠ 0 ∧
  lv σ.(intr) (c :: k) ∧ shape L σ (c :: k) ∧ σ.(in_external_intr) = false ∧ conds_ok L σ.
Proof using HG Hth Hk.
  destruct HG as (HI&HS&He). destruct (running_thread_ok _ _ HI) as (th'&?&?&?). simplify_eq.
  split_and!; try done.
  - rewrite <- Hk. by eapply running_lv.
  - rewrite <- Hk. by eapply running_shape.
  - exact (inv_conds _ _ _ HI).
Qed.

(** Only the idle thread runs [idle]. *)
Lemma case_not_idle : core (c :: k) = c :: k → c ≠ FHlt → c ≠ FIdle →
  σ.(running) ≠ σ.(idle_thread) ∧ stk (isl L) (c :: k).
Proof using HG Hth Hk.
  intros Hc H1 H2. destruct case_facts as (_&_&_&Hs&_). unfold shape in Hs.
  destruct (decide _); [|done]. destruct Hs as (r&[Hr|Hr]); rewrite Hc in Hr; congruence.
Qed.

Lemma V_upd σ' th' : σ'.(threads) = <[σ.(running) := th']> σ.(threads) →
  V σ' = <[σ.(running) := tv th']> (V σ).
Proof using Type. unfold V. intros ->. by rewrite fmap_insert. Qed.

(** Control moves on to [k']. *)
Lemma control_case σ' th' k' :
  σ'.(threads) = <[σ.(running) := th']> σ.(threads) →
  tv th' = (THREAD_RUNNING, k', th.(info)) →
  σ'.(ready_list) = σ.(ready_list) → σ'.(running) = σ.(running) →
  σ'.(idle_thread) = σ.(idle_thread) → σ'.(initial_thread) = σ.(initial_thread) →
  σ'.(semas) = σ.(semas) → σ'.(holders) = σ.(holders) → σ'.(in_external_intr) = false →
  conds_ok L σ' → start_of c = None → starts k' = starts k → shape L σ k' → lv σ'.(intr) k' →
  (∀ s, retry s (THREAD_RUNNING, c :: k, th.(info)) = false) →
  (∀ l, l ∈ L → tok l (THREAD_RUNNING, k', th.(info)) = tok l (THREAD_RUNNING, c :: k, th.(info))) →
  good L σ'.
Proof using HG Hth Hk.
  intros Ht Htv Hrd Hr Hid Hin Hsm Hh He Hc Hst Hst' Hsh Hl Hrt Htk.
  destruct HG as (HI&HS&_). destruct (control_step L σ HI HS th Hth σ' k'); rewrite ?Hk; auto.
  - by rewrite (V_upd _ _ Ht), Htv.
  - by rewrite starts_cons.
  - done.
Qed.

(** A call of the layer below, or the end of one: [k'] consists of calls. *)
Lemma control_bcs σ' th' k' :
  core (c :: k) = c :: k → c ≠ FHlt → c ≠ FIdle →
  σ'.(threads) = <[σ.(running) := th']> σ.(threads) →
  tv th' = (THREAD_RUNNING, k', th.(info)) →
  σ'.(ready_list) = σ.(ready_list) → σ'.(running) = σ.(running) →
  σ'.(idle_thread) = σ.(idle_thread) → σ'.(initial_thread) = σ.(initial_thread) →
  σ'.(semas) = σ.(semas) → σ'.(holders) = σ.(holders) → σ'.(in_external_intr) = false →
  conds_ok L σ' → start_of c = None → starts k' = starts k →
  forallb (bc (isl L)) k' = true → lv σ'.(intr) k' →
  (∀ s, retry s (THREAD_RUNNING, c :: k, th.(info)) = false) →
  (∀ l, tok l (THREAD_RUNNING, c :: k, th.(info)) = false) →
  good L σ'.
Proof using HG Hth Hk.
  intros Hc Hn1 Hn2 Ht Htv Hrd Hr Hid Hin Hsm Hh He Hcd Hst Hst' Hb Hl Hrt Htk.
  destruct (case_not_idle Hc Hn1 Hn2) as [Hni Hstk].
  eapply control_case; eauto.
  - unfold shape. rewrite decide_False by done. by apply bcs_stk.
  - intros l Hl'. by rewrite Htk, (bcs_tok L).
Qed.

(** Control moves on to [k'] while values of semaphores and holders of locks change. *)
Lemma local_case σ' th' k' :
  σ'.(threads) = <[σ.(running) := th']> σ.(threads) →
  tv th' = (THREAD_RUNNING, k', th.(info)) →
  σ'.(ready_list) = σ.(ready_list) → σ'.(running) = σ.(running) →
  σ'.(idle_thread) = σ.(idle_thread) → σ'.(initial_thread) = σ.(initial_thread) →
  σ'.(in_external_intr) = false → conds_ok L σ' →
  start_of c = None → starts k' = starts k → shape L σ k' → lv σ'.(intr) k' →
  (∀ s, W σ' s = W σ s) → dom σ'.(holders) = dom σ.(holders) →
  dom σ.(semas) ⊆ dom σ'.(semas) → (∀ s, is_u32 (val σ' s)) →
  (∀ s, val σ' s ≤ val σ s - Z.b2z (retry s (THREAD_RUNNING, c :: k, th.(info)))
                   + Z.b2z (retry s (THREAD_RUNNING, k', th.(info))) ∨ W σ s = []) →
  (∀ l, l ∈ L → val σ' (lock_sema l) + held σ' l + Z.b2z (tok l (THREAD_RUNNING, k', th.(info))) =
     val σ (lock_sema l) + held σ l + Z.b2z (tok l (THREAD_RUNNING, c :: k, th.(info)))) →
  good L σ'.
Proof using HG Hth Hk.
  intros Ht Htv Hrd Hr Hid Hin He Hc Hst Hst' Hsh Hl HW Hdh Hds Hv Hrt Htk.
  destruct HG as (HI&HS&_).
  assert (Hm : moved σ σ' (c :: k) k' th.(info)).
  { split; [rewrite <- Hk; by eapply running_view|by rewrite (V_upd _ _ Ht), Htv|done..]. }
  split_and!; [|by eapply local_sync|done].
  eapply local_inv; eauto. by rewrite starts_cons.
Qed.

(** The running thread takes a unit of semaphore [s]. *)
Lemma down_case σ' th' k' s x :
  σ'.(threads) = <[σ.(running) := th']> σ.(threads) →
  tv th' = (THREAD_RUNNING, k', th.(info)) →
  σ'.(ready_list) = σ.(ready_list) → σ'.(running) = σ.(running) →
  σ'.(idle_thread) = σ.(idle_thread) → σ'.(initial_thread) = σ.(initial_thread) →
  σ'.(in_external_intr) = false → σ'.(conds) = σ.(conds) → σ'.(holders) = σ.(holders) →
  start_of c = None → starts k' = starts k → shape L σ k' → lv σ'.(intr) k' →
  σ.(semas) !! s = Some x → x.(value) ≠ 0 →
  σ'.(semas) = <[s := {| value := u32 (x.(value) - 1); waiters := x.(waiters) |}]> σ.(semas) →
  (∀ s', retry s' (THREAD_RUNNING, c :: k, th.(info)) = true → s' = s) →
  (∀ l, l ∈ L → Z.b2z (tok l (THREAD_RUNNING, k', th.(info))) =
     Z.b2z (s =? lock_sema l) + Z.b2z (tok l (THREAD_RUNNING, c :: k, th.(info)))) →
  good L σ'.
Proof using HG Hth Hk.
  intros Ht Htv Hrd Hr Hid Hin He Hc Hh Hst Hst' Hsh Hl Hx Hx0 Hs Hrt Htk.
  pose proof HG as (HI&HS&_). pose proof (sy_val _ _ HS s) as Hv.
  assert (Hvx : val σ s = x.(value)) by (unfold val; by rewrite Hx). rewrite Hvx in Hv.
  assert (Hu : u32 (x.(value) - 1) = x.(value) - 1) by (apply u32_small; mlia).
  rewrite Hu in Hs. pose proof (set_value_val _ _ _ _ _ Hs) as Hval.
  eapply local_case; eauto.
  - unfold conds_ok. rewrite Hc. apply (inv_conds _ _ _ HI).
  - by eapply set_value_W.
  - by rewrite Hh.
  - rewrite Hs. set_solver.
  - intros s'. rewrite Hval. destruct (decide _); [mlia|apply HS].
  - intros s'. left. rewrite Hval. pose proof (b2z_bound (retry s' (THREAD_RUNNING, k', info th))).
    specialize (Hrt s'). destruct (retry s' (THREAD_RUNNING, c :: k, info th)); cbn [Z.b2z].
    + rewrite Hrt in * by done. rewrite decide_True by done. lia.
    + destruct (decide (s = s')) as [<-|]; lia.
  - intros l Hl'. rewrite Hval. specialize (Htk l Hl'). unfold held. rewrite Hh.
    destruct (decide _) as [->|Hne]; [rewrite Z.eqb_refl in Htk; cbn in Htk; lia|].
    rewrite (proj2 (Z.eqb_neq s (lock_sema l))) in Htk by done. cbn in Htk. lia.
Qed.

(** As [desched_step], for a thread that runs [c]. *)
Lemma desched_case bad σ1 th' st' k' :
  σ1.(threads) = <[σ.(running) := th']> σ.(threads) →
  tv th' = (st', k', th.(info)) →
  σ1.(running) = σ.(running) → σ1.(idle_thread) = σ.(idle_thread) →
  σ1.(initial_thread) = σ.(initial_thread) → σ1.(in_external_intr) = false →
  σ1.(intr) = INTR_OFF → σ1.(holders) = σ.(holders) → σ1.(conds) = σ.(conds) →
  st' ≠ THREAD_RUNNING →
  σ1.(ready_list) = σ.(ready_list) ++
    (if decide (st' = THREAD_READY ∧ running σ ≠ idle_thread σ) then [running σ] else []) →
  start_of c = None → starts k' = starts k → shape L σ k' → lv INTR_OFF k' →
  (st' = THREAD_BLOCKED → running σ = idle_thread σ ∨ is_Some (waits_on k')) →
  (st' = THREAD_DYING → k' = []) →
  (∀ s, W σ1 s = W σ s ++
    (if decide (running σ ≠ idle_thread σ ∧ st' = THREAD_BLOCKED ∧ waits_on k' = Some s)
     then [running σ] else [])) →
  dom σ.(semas) ⊆ dom σ1.(semas) → (∀ s, val σ1 s = val σ s) →
  (∀ s, val σ s = 0 ∨ ¬ (st' = THREAD_BLOCKED ∧ waits_on k' = Some s) ∧
     retry s (THREAD_RUNNING, c :: k, th.(info)) = false) →
  (∀ l, l ∈ L → tok l (st', k', th.(info)) = tok l (THREAD_RUNNING, c :: k, th.(info))) →
  fine L bad (schedule σ1).
Proof using HG Hth Hk.
  intros Ht Htv Hr Hid Hin He Hi Hh Hc Hst Hrd Hs0 Hs Hsh Hl Hb Hd HW Hds Hv Hrt Htk.
  pose proof HG as (HI&HS&_). pose proof (desched_step L σ HI HS th Hth) as D. rewrite Hk in D.
  destruct (D σ1 th' st' k') as (σ'&->&?&?&?); try done. by rewrite starts_cons.
Qed.
End cases.

(** The end of [thread_create]: the new thread [t] becomes ready. *)
Section start.
Context (L : gset Z) (σ : sys) (HG : good L σ) (th : thread) (k : list code) (t inf : Z).
Context (Hth : σ.(threads) !! σ.(running) = Some th) (Hk : th.(stack) = FStart t inf :: k).

Lemma start_facts : σ.(running) ≠ σ.(idle_thread) ∧ forallb (bc (isl L)) k = true ∧
  isl L (wait_sema inf) = false ∧ isl L (exec_sema inf) = false ∧ isl L (sup_page_sema t) = false ∧
  t ≠ σ.(idle_thread) ∧ t ≠ σ.(running) ∧ t ≠ 0 ∧
  V σ !! σ.(running) = Some (THREAD_RUNNING, FStart t inf :: k, th.(info)) ∧
  ∃ kt inft, V σ !! t = Some (THREAD_BLOCKED, IntrEnable :: kt, inft).
Proof using HG Hth Hk.
  pose proof HG as (HI&HS&_). pose proof (inv_a _ _ _ HI) as Ha.
  destruct (case_not_idle _ _ HG _ _ _ Hth Hk) as [Hni Hb]; [done..|].
  apply stk_bcs in Hb as [Hi Hb]; [|done].
  apply andb_prop in Hi as [[H1 H2]%andb_prop H3].
  pose proof (running_view _ _ HI _ Hth) as Hold. rewrite Hk in Hold.
  destruct (a_start _ _ _ _ _ _ _ _ _ Ha _ _ _ _ t Hold) as (Hti&kt&inft&Hvt); [set_solver|].
  split_and!; try done; try (by apply negb_true_iff); [congruence| |by eauto].
  intros ->. rewrite (a_null _ _ _ _ _ _ _ _ _ Ha) in Hvt. done.
Qed.

Lemma start_case σ' kt inft :
  V σ !! t = Some (THREAD_BLOCKED, IntrEnable :: kt, inft) →
  V σ' = <[t := (THREAD_READY, IntrEnable :: kt, inf)]>
           (<[running σ := (THREAD_RUNNING, k, th.(info))]> (V σ)) →
  σ'.(ready_list) = σ.(ready_list) ++ [t] → σ'.(running) = σ.(running) →
  σ'.(idle_thread) = σ.(idle_thread) → σ'.(initial_thread) = σ.(initial_thread) →
  σ'.(in_external_intr) = false → σ'.(intr) = σ.(intr) →
  σ'.(conds) = σ.(conds) → σ'.(holders) = σ.(holders) →
  (∀ s, W σ' s = W σ s) → dom σ.(semas) ⊆ dom σ'.(semas) → (∀ s, is_u32 (val σ' s)) →
  (∀ s, val σ' s = val σ s ∨ W σ s = [] ∧ isl L s = false) →
  good L σ'.
Proof using HG Hth Hk.
  intros Hvt HV Hrd Hr Hid Hin He Hi Hc Hh HW Hds Hu Hval.
  destruct start_facts as (Hni&Hb&Hi1&Hi2&Hi3&Hti&Htr&Ht0&Hold&_). pose proof HG as (HI&HS&_).
  destruct (case_facts _ _ HG _ _ _ Hth Hk) as (_&_&Hl&_). pose proof (inv_a _ _ _ HI) as Ha.
  assert (Hlk : <[running σ := (THREAD_RUNNING, k, info th)]> (V σ) !! t
      = Some (THREAD_BLOCKED, IntrEnable :: kt, inft)) by (by rewrite lookup_insert_ne).
  assert (Hcnt : ∀ P, P (THREAD_BLOCKED, IntrEnable :: kt, inft) = false →
    P (THREAD_READY, IntrEnable :: kt, inf) = false → P (THREAD_RUNNING, k, info th) = false →
    P (THREAD_RUNNING, FStart t inf :: k, info th) = false → cnt P (V σ') = cnt P (V σ)).
  { intros P E1 E2 E3 E4. rewrite HV, (cnt_insert _ _ _ _ _ Hlk), (cnt_insert _ _ _ _ _ Hold).
    rewrite E1, E2, E3, E4. cbn. lia. }
  split_and!; [| |done].
  - destruct HI as [_ Hd Hcd Htid Hi0]. split; [|by rewrite Hh|by rewrite Hc|done..].
    rewrite HV, Hrd, Hr, Hid, Hin, Hi.
    pose proof (a_start_nd _ _ _ _ _ _ _ _ _ Ha _ _ _ _ Hold) as Hnd.
    change (starts (FStart t inf :: k)) with (t :: starts k) in Hnd. apply NoDup_cons in Hnd as [Htk Hnd].
    eapply ainv_unblock; [exact Ha|exact Hold|exact Hvt|done|..]; try done.
    + intros s. rewrite HW. apply Ha.
    + intros s u. rewrite HW. split; [|by intros []]. intros Hu'. split; [done|]. intros ->.
      destruct (a_waiting _ _ _ _ _ _ _ _ _ Ha _ _ Hu') as (?&?&?&?&?). congruence.
    + intros u. change (starts (FStart t inf :: k)) with (t :: starts k). set_solver.
    + intros u st ku infu Hv Hur Htu. apply Hur.
      eapply (a_start_uniq _ _ _ _ _ _ _ _ _ Ha); [exact Hv|exact Hold|done|set_solver].
    + rewrite decide_False by done. by apply bcs_stk.
  - split; [done| | |].
    + eapply dom_sema; [apply HS|done].
    + intros s. rewrite HW. intros Hne. rewrite Hcnt; try done; [|by apply (bcs_retry L)].
      destruct (Hval s) as [->|[? _]]; [by apply HS|done].
    + intros l Hl'. rewrite Hcnt; try done; [|by apply (bcs_tok L)]. unfold held. rewrite Hh.
      destruct (Hval (lock_sema l)) as [->|[_ E]]; [by apply HS|]. by rewrite isl_lock in E.
Qed.
End start.

(** Replays the running thread's access to its own record. *)
Ltac own := repeat first
  [ progress mon
  | rewrite lookup_insert_eq
  | rewrite insert_insert_eq ].

Section control_cases.
Context (L : gset Z) (σ : sys) (HG : good L σ).
Context (th : thread) (k : list code).
Context (Hth : σ.(threads) !! σ.(running) = Some th).
Notation σ0 := (upd_threads (<[σ.(running) := set_stack k th]>) σ).

(** Reduces the execution of a piece of code, using [Hst], [Hr0] and [He]. *)
Ltac code_start Hk :=
  let Hst := fresh "Hst" in let Hr0 := fresh "Hr0" in let Hl := fresh "Hl" in
  let Hs := fresh "Hs" in let He := fresh "He" in let Hc := fresh "Hc" in
  intros Hk; destruct (case_facts _ _ HG _ _ _ Hth Hk) as (Hst&Hr0&Hl&Hs&He&Hc);
  cbn [exec]; own; rewrite ?He; cbn [negb].
Ltac code_bcs Hk Hb :=
  let H := fresh in
  destruct (case_not_idle _ _ HG _ _ _ Hth Hk) as [_ H]; [done..|];
  apply stk_bcs in H; [|done]; cbn in H; destruct H as [_ Hb].
(** Control goes on with [k'], which for [code_control] consists of calls. *)
Ltac threads_eq := cbn; rewrite ?insert_insert_eq; reflexivity.
Ltac code_control Hk k' :=
  match goal with |- fine _ _ (Ok (_, ?s)) =>
    eapply (control_bcs _ _ HG _ _ _ Hth Hk s (set_stack k' th) k'); [done|done|done|threads_eq|try done..]
  end.
Ltac code_goto Hk k' :=
  match goal with |- fine _ _ (Ok (_, ?s)) =>
    eapply (control_case _ _ HG _ _ _ Hth Hk s (set_stack k' th) k'); [threads_eq|try done..]
  end.
Ltac code_current :=
  rewrite (b_current _ (set_stack k th)) by (done || apply lookup_insert_eq).
Ltac code_held :=
  rewrite (b_held _ (set_stack k th)) by (done || apply lookup_insert_eq).

Lemma tv_set_stack k' : th.(status) = THREAD_RUNNING →
  tv (set_stack k' th) = (THREAD_RUNNING, k', th.(info)).
Proof using Type. intros E. unfold tv. cbn. by rewrite E. Qed.
Hint Resolve tv_set_stack : core.

Lemma case_IntrEnable : th.(stack) = IntrEnable :: k →
  fine L (misuse σ IntrEnable) (exec IntrEnable σ0).
Proof using HG Hth.
  code_start Hk. code_bcs Hk Hb. code_control Hk k. auto.
Qed.

Lemma case_IntrDisable : th.(stack) = IntrDisable :: k →
  fine L (misuse σ IntrDisable) (exec IntrDisable σ0).
Proof using HG Hth.
  code_start Hk. code_bcs Hk Hb. code_control Hk k. auto.
Qed.

Lemma in_L l h : σ.(holders) !! l = Some h → l ∈ L.
Proof using HG.
  destruct HG as (HI&_&_). intros H. rewrite <- (inv_dom _ _ _ HI). apply elem_of_dom. eauto.
Qed.

Lemma case_LockAcquire l : th.(stack) = LockAcquire l :: k →
  fine L (misuse σ (LockAcquire l)) (exec (LockAcquire l) σ0).
Proof using HG Hth.
  code_start Hk. code_bcs Hk Hb. unfold lock_acquire. own.
  destruct (Z.eqb_spec l 0); [by left|]. cbn [negb]. rewrite He. cbn [negb]. code_held.
  rewrite (proj2 (Z.eqb_neq l 0)) by done. cbn [holders upd_threads].
  destruct (holders σ !! l) as [h|] eqn:Hh; [|right; by left]. own.
  destruct (Z.eqb_spec h (running σ)) as [->|]; [right; by right|]. cbn [negb]. own.
  code_goto Hk (SemaDown (lock_sema l) :: FSetHolder l :: k); [auto|].
  destruct (case_not_idle _ _ HG _ _ _ Hth Hk) as [Hni _]; try done.
  unfold shape. rewrite decide_False by done. unfold stk. cbn [core].
  rewrite (isl_lock _ _ (in_L _ _ Hh)). exists l, k. by rewrite Hb.
Qed.

Lemma case_CondSignal cv l : th.(stack) = CondSignal cv l :: k →
  fine L (misuse σ (CondSignal cv l)) (exec (CondSignal cv l) σ0).
Proof using HG Hth.
  code_start Hk. code_bcs Hk Hb. unfold cond_signal. own.
  destruct (Z.eqb_spec cv 0); [by left|]. cbn [negb].
  destruct (Z.eqb_spec l 0); [right; by left|]. cbn [negb]. rewrite He. cbn [negb]. code_held.
  rewrite (proj2 (Z.eqb_neq l 0)) by done. cbn [holders upd_threads].
  destruct (holders σ !! l) as [h|] eqn:Hh; [|right; right; left; congruence]. own.
  destruct (Z.eqb_spec h (running σ)) as [->|]; [|right; right; left; congruence].
  destruct (conds σ !! cv) as [[|w ws]|] eqn:Hcv; [| |by do 3 right]; own.
  - code_control Hk k. auto.
  - assert (Hw : isl L (elem_sema w) = false) by (apply (Hc _ _ _ Hcv); set_solver).
    code_control Hk (SemaUp (elem_sema w) :: k); [auto| |].
    + intros c' ws' w'. cbn. rewrite lookup_insert_Some. intros [[<- <-]|[_ Hcw]] Hin;
        [|by apply (Hc _ _ _ Hcw)]. apply (Hc _ _ _ Hcv). set_solver.
    + cbn. by rewrite Hw, Hb.
Qed.

Lemma case_FBroadcast cv l : th.(stack) = FBroadcast cv l :: k →
  fine L (misuse σ (FBroadcast cv l)) (exec (FBroadcast cv l) σ0).
Proof using HG Hth.
  code_start Hk. code_bcs Hk Hb. unfold broadcast_loop. own.
  destruct (conds σ !! cv) as [[|w ws]|] eqn:Hcv; [| |done]; own.
  - code_control Hk k. auto.
  - code_control Hk (CondSignal cv l :: FBroadcast cv l :: k). auto.
Qed.

Lemma case_CondBroadcast cv l : th.(stack) = CondBroadcast cv l :: k →
  fine L (misuse σ (CondBroadcast cv l)) (exec (CondBroadcast cv l) σ0).
Proof using HG Hth.
  code_start Hk. code_bcs Hk Hb. unfold cond_broadcast, broadcast_loop. own.
  destruct (Z.eqb_spec cv 0); [by left|]. cbn [negb].
  destruct (Z.eqb_spec l 0); [right; by left|]. cbn [negb].
  destruct (conds σ !! cv) as [[|w ws]|] eqn:Hcv; [| |right; by right]; own.
  - code_control Hk k. auto.
  - code_control Hk (CondSignal cv l :: FBroadcast cv l :: k). auto.
Qed.

Lemma case_ThreadExit pe fc : th.(stack) = ThreadExit pe fc :: k →
  fine L (misuse σ (ThreadExit pe fc)) (exec (ThreadExit pe fc) σ0).
Proof using HG Hth.
  code_start Hk. unfold thread_exit. own. rewrite He. cbn [negb]. own.
  destruct (case_not_idle _ _ HG _ _ _ Hth Hk) as [_ H]; [done..|].
  apply stk_bcs in H as [[Hpe Hfc]%andb_prop Hb]; [|done].
  change (forallb (api (isl L)) pe = true) in Hpe. change (forallb (api (isl L)) fc = true) in Hfc.
  cbn [stack set_stack]. rewrite <- app_assoc. cbn [app]. rewrite <- app_assoc. cbn [app].
  code_control Hk (pe ++ IntrDisable :: fc ++ FUpExec :: FUpWait :: FDie :: k).
  - auto.
  - rewrite starts_app, (apis_starts L pe), starts_cons, starts_app, (apis_starts L fc) by done.
    by rewrite !starts_cons.
  - rewrite forallb_app. apply andb_true_intro. split; [by apply apis_bcs|]. cbn.
    rewrite forallb_app. cbn. rewrite Hb, andb_true_r. by apply apis_bcs.
  - apply (apis_lv L); [done| |].
    + rewrite starts_cons, starts_app, (apis_starts L fc), !starts_cons by done. exact Hl.
    + cbn. apply (apis_lv L); [done| |by cbn]. exact Hl.
Qed.

Lemma case_SemaDown s : th.(stack) = SemaDown s :: k →
  fine L (misuse σ (SemaDown s)) (exec (SemaDown s) σ0).
Proof using HG Hth.
  code_start Hk. unfold sema_down. own. destruct (Z.eqb_spec s 0); [done|]. cbn [negb].
  rewrite He. cbn [negb]. own. cbn [stack set_stack app].
  code_goto Hk (FSemaLoop s (intr σ) :: k); [auto|].
  destruct (case_not_idle _ _ HG _ _ _ Hth Hk) as [Hni Hstk]; try done.
  unfold shape. by rewrite decide_False.
Qed.

Lemma case_FSetLevel o : th.(stack) = FSetLevel o :: k →
  fine L (misuse σ (FSetLevel o)) (exec (FSetLevel o) σ0).
Proof using HG Hth.
  code_start Hk. unfold intr_set_level. destruct o; own; rewrite ?He; cbn [negb].
  - code_goto Hk k. auto.
  - code_goto Hk k. auto.
Qed.

Lemma case_FIret : th.(stack) = FIret :: k → fine L (misuse σ FIret) (exec FIret σ0).
Proof using HG Hth.
  code_start Hk. code_goto Hk k. auto.
Qed.

(** Only the idle thread halts. *)
Lemma idle_code c r : th.(stack) = c :: r → (c = FHlt ∨ c = FIdle) →
  σ.(running) = σ.(idle_thread) ∧ idle_shape (c :: r).
Proof using HG Hth.
  intros Hk Hc. destruct (case_facts _ _ HG _ _ _ Hth Hk) as (_&_&_&Hs&_). unfold shape in Hs.
  destruct (decide _); [done|]. by destruct Hc as [-> | ->].
Qed.

Lemma case_FHlt : th.(stack) = FHlt :: k → fine L (misuse σ FHlt) (exec FHlt σ0).
Proof using HG Hth.
  code_start Hk. destruct (idle_code _ _ Hk) as [Hid (r&Hr)]; [by left|].
  assert (k = FIdle :: r) as -> by (cbn in Hr; destruct Hr; congruence).
  code_goto Hk (FIdle :: r); [auto|]. unfold shape. rewrite decide_True by done.
  exists r. by right.
Qed.

Lemma case_LockRelease l : th.(stack) = LockRelease l :: k →
  fine L (misuse σ (LockRelease l)) (exec (LockRelease l) σ0).
Proof using HG Hth.
  code_start Hk. code_bcs Hk Hb. unfold lock_release. own.
  destruct (Z.eqb_spec l 0); [by left|]. cbn [negb]. code_held.
  rewrite (proj2 (Z.eqb_neq l 0)) by done. cbn [holders upd_threads].
  destruct (holders σ !! l) as [h|] eqn:Hh; [|right; congruence]. own.
  destruct (Z.eqb_spec h (running σ)) as [->|]; [|right; congruence]. own.
  eapply (local_case _ _ HG _ _ _ Hth Hk _ (set_stack (SemaUp (lock_sema l) :: k) th)
    (SemaUp (lock_sema l) :: k)); [threads_eq|try done..].
  - auto.
  - destruct (case_not_idle _ _ HG _ _ _ Hth Hk) as [Hni _]; try done.
    unfold shape. rewrite decide_False by done. unfold stk. cbn [core]. by rewrite Hb.
  - cbn. rewrite dom_insert_lookup_L; eauto.
  - apply HG.
  - intros s. left. cbn. change (val (upd_threads _ _) s) with (val σ s). lia.
  - intros l' Hl'. change (val (upd_threads _ _) (lock_sema l')) with (val σ (lock_sema l')).
    cbn [tok core fst snd]. unfold held, NULL. cbn [holders upd_locks upd_threads].
    destruct (decide (l' = l)) as [->|].
    + rewrite lookup_insert_eq, Hh, !Z.eqb_refl, (proj2 (Z.eqb_neq _ _) Hr0). cbn. lia.
    + rewrite lookup_insert_ne by done. rewrite (proj2 (Z.eqb_neq (lock_sema l) (lock_sema l'))).
      2: { unfold lock_sema. lia. } cbn. lia.
Qed.

Lemma case_FSetHolder l : th.(stack) = FSetHolder l :: k →
  fine L (misuse σ (FSetHolder l)) (exec (FSetHolder l) σ0).
Proof using HG Hth.
  code_start Hk. destruct (case_not_idle _ _ HG _ _ _ Hth Hk) as [Hni H]; [done..|].
  apply stk_bcs in H as [Hil Hb]; [|done].
  assert (HlL : l ∈ L).
  { apply bool_decide_eq_true in Hil. unfold lock_sema in Hil. by replace (l + 4 - 4) with l in Hil by lia. }
  unfold lock_set_holder. code_current. own.
  destruct (holders σ !! l) as [h|] eqn:Hh.
  2: { destruct HG as (HI&_&_). rewrite <- (inv_dom _ _ _ HI) in HlL. by apply elem_of_dom in HlL as [? ?]; congruence. }
  own. destruct HG as (HI&HS&_).
  pose proof (running_view _ _ HI _ Hth) as Hv. rewrite Hk in Hv.
  pose proof (sy_lock _ _ HS l HlL) as Hlk. pose proof (cnt_delete (tok l) _ _ _ Hv) as Hcd.
  pose proof (cnt_nonneg (tok l) (delete (running σ) (V σ))). pose proof (held_nonneg σ l).
  pose proof (sy_val _ _ HS (lock_sema l)) as [? _].
  assert (held σ l = 0) as Hh0.
  { unfold tok in Hcd at 3. cbn in Hcd. rewrite Z.eqb_refl in Hcd. cbn in Hcd. lia. }
  eapply (local_case _ _ HG _ _ _ Hth Hk _ (set_stack k th) k); [threads_eq|try done..].
  - auto.
  - unfold shape. rewrite decide_False by done. by apply bcs_stk.
  - cbn. rewrite dom_insert_lookup_L; eauto.
  - apply HS.
  - intros s. left. rewrite (bcs_retry L k) by done. change (val (upd_locks _ _ _) s) with (val σ s).
    cbn. lia.
  - intros l' Hl'. change (val (upd_locks _ _ _) (lock_sema l')) with (val σ (lock_sema l')).
    rewrite (bcs_tok L k) by done. cbn [tok core fst snd]. destruct (decide (l' = l)) as [->|].
    + rewrite Hh0. unfold held. cbn [holders upd_locks]. rewrite lookup_insert_eq, Z.eqb_refl.
      unfold NULL. rewrite (proj2 (Z.eqb_neq _ _) Hr0). cbn. lia.
    + unfold held. cbn [holders upd_locks upd_threads]. rewrite lookup_insert_ne by done.
      rewrite (proj2 (Z.eqb_neq l l')) by done. cbn. lia.
Qed.

Lemma case_SemaTryDown s : th.(stack) = SemaTryDown s :: k →
  fine L (misuse σ (SemaTryDown s)) (exec (SemaTryDown s) σ0).
Proof using HG Hth.
  code_start Hk. destruct (case_not_idle _ _ HG _ _ _ Hth Hk) as [Hni Hsk]; [done..|].
  apply stk_bcs in Hsk as [Hil Hb]; [|done]. apply negb_true_iff in Hil.
  destruct (Z.eqb_spec s 0) as [->|Hs0]; [by left|].
  rewrite b_run, sema_try_down_ok by done. cbn [semas upd_threads].
  destruct (semas σ !! s) as [x|] eqn:Hx; [|by right].
  destruct (Z.ltb_spec 0 (value x)) as [Hp|Hp]; own.
  - eapply (down_case _ _ HG _ _ _ Hth Hk _ (set_stack k th) k s x); try done; [auto| | |].
    + unfold shape. rewrite decide_False by done. by apply bcs_stk.
    + lia.
    + intros l Hl'. rewrite (bcs_tok L k), (isl_eqb L) by done. done.
  - code_control Hk k. auto.
Qed.

Lemma case_LockTryAcquire l : th.(stack) = LockTryAcquire l :: k →
  fine L (misuse σ (LockTryAcquire l)) (exec (LockTryAcquire l) σ0).
Proof using HG Hth.
  code_start Hk. code_bcs Hk Hb. unfold lock_try_acquire. own.
  destruct (Z.eqb_spec l 0); [by left|]. cbn [negb]. code_held.
  rewrite (proj2 (Z.eqb_neq l 0)) by done. cbn [holders upd_threads].
  destruct (holders σ !! l) as [h|] eqn:Hh; [|right; right; by left]. own.
  destruct (Z.eqb_spec h (running σ)) as [->|]; [by do 3 right|]. cbn [negb].
  destruct (decide (lock_sema l = 0)) as [Hl0|].
  { unfold sema_try_down. own. rewrite Hl0. right. by left. }
  rewrite b_run, sema_try_down_ok by done. cbn [semas upd_threads].
  pose proof (in_L _ _ Hh) as HlL. pose proof HG as (_&HS&_).
  destruct (sy_sema _ _ HS _ HlL) as [x Hx]. rewrite Hx.
  destruct (Z.ltb_spec 0 (value x)) as [Hp|Hp]; own.
  - eapply (down_case _ _ HG _ _ _ Hth Hk _ (set_stack (FSetHolder l :: k) th)
      (FSetHolder l :: k) (lock_sema l) x); [threads_eq|try done..]; [auto| | |].
    + destruct (case_not_idle _ _ HG _ _ _ Hth Hk) as [Hni _]; try done.
      unfold shape. rewrite decide_False by done. unfold stk. cbn [core].
      by rewrite (isl_lock _ _ HlL), Hb.
    + lia.
    + intros l' Hl'. cbn. unfold lock_sema. destruct (Z.eqb_spec l l') as [->|].
      * by rewrite Z.eqb_refl.
      * by rewrite (proj2 (Z.eqb_neq (l + 4) (l' + 4))) by lia.
  - code_control Hk k. auto.
Qed.

Lemma case_FSemaLoop s o : th.(stack) = FSemaLoop s o :: k →
  fine L (misuse σ (FSemaLoop s o)) (exec (FSemaLoop s o) σ0).
Proof using HG Hth.
  code_start Hk. destruct (case_not_idle _ _ HG _ _ _ Hth Hk) as [Hni Hsk]; [done..|].
  unfold sema_loop. own. destruct (semas σ !! s) as [x|] eqn:Hx; [|done]. own.
  destruct (Z.eqb_spec (value x) 0) as [Hx0|Hx0].
  - code_current. own. cbn [stack set_stack app]. destruct Hl as [Hi Hl].
    unfold thread_block. own. rewrite He, Hi. cbn [negb]. rewrite bool_decide_true by done.
    rewrite (b_current _ (set_stack (FSemaLoop s o :: k) th)) by
      (done || (cbn; by rewrite insert_insert_eq, lookup_insert_eq)). own.
    eapply (desched_case _ _ HG _ _ _ Hth Hk _ _
      (set_status THREAD_BLOCKED (set_stack (FSemaLoop s o :: k) th)) THREAD_BLOCKED
      (FSemaLoop s o :: k)); [threads_eq|try done..].
    + cbn. rewrite decide_False by (by intros [??]). by rewrite app_nil_r.
    + intros _. right. by eexists.
    + intros s'. unfold W. cbn [semas upd_threads upd_semas waits_on].
      destruct (decide (s = s')) as [<-|].
      * rewrite lookup_insert_eq, Hx, decide_True by done. done.
      * rewrite lookup_insert_ne, decide_False by (done || (intros (?&?&?); congruence)).
        by rewrite app_nil_r.
    + cbn. set_solver.
    + intros s'. unfold val. cbn. destruct (decide (s = s')) as [<-|].
      * by rewrite lookup_insert_eq, Hx.
      * by rewrite lookup_insert_ne.
    + intros s'. cbn. destruct (Z.eqb_spec s s') as [<-|].
      * left. unfold val. by rewrite Hx.
      * right. split; [|done]. intros (_&?). congruence.
  - rewrite b_set_level by done. own.
    assert (Htok : ∀ l, l ∈ L → Z.b2z (tok l (THREAD_RUNNING, k, info th)) = Z.b2z (s =? lock_sema l)).
    { apply stk_bcs in Hsk; [|done]. intros l Hl'. destruct (isl L s) eqn:Hil.
      - destruct Hsk as (l'&r&->&->&Hb). cbn. unfold lock_sema.
        destruct (Z.eqb_spec l' l) as [->|]; [by rewrite Z.eqb_refl|].
        by rewrite (proj2 (Z.eqb_neq (l' + 4) (l + 4))) by lia.
      - by rewrite (bcs_tok L), (isl_eqb L). }
    eapply (down_case _ _ HG _ _ _ Hth Hk _ (set_stack k th) k s x); try done; [auto| | | |].
    + unfold shape. rewrite decide_False by done. apply stk_bcs in Hsk; [|done].
      destruct (isl L s) eqn:Hil; [|by apply bcs_stk].
      destruct Hsk as (l'&r&->&->&Hb). unfold stk. cbn [core]. by rewrite Hil, Hb.
    + apply Hl.
    + intros s'. cbn. intros [?%Z.eqb_eq _]%andb_prop. done.
    + intros l Hl'. rewrite (Htok l Hl'). cbn. lia.
Qed.

(** A call of [sema_up] by code that is followed by calls. *)
Lemma up_case bad c s : th.(stack) = c :: k → core (c :: k) = c :: k → c ≠ FHlt → c ≠ FIdle →
  start_of c = None → forallb (bc (isl L)) k = true → lv σ.(intr) k →
  (∀ s', retry s' (THREAD_RUNNING, c :: k, th.(info)) = false) →
  (∀ l, l ∈ L → tok l (THREAD_RUNNING, c :: k, th.(info)) = (s =? lock_sema l)) →
  (s = 0 ∨ σ.(semas) !! s = None → bad) →
  fine L bad (sema_up s σ0).
Proof using HG Hth.
  intros Hk Hco Hc1 Hc2 Hst Hb Hl Hrt Htk Hbad.
  destruct (case_facts _ _ HG _ _ _ Hth Hk) as (Hs&Hr0&_&_&He&_).
  destruct (case_not_idle _ _ HG _ _ _ Hth Hk) as [Hni _]; [done..|].
  destruct (Z.eqb_spec s 0) as [->|Hs0]; [apply Hbad; by left|].
  destruct (semas σ !! s) as [x|] eqn:Hx.
  2: { unfold sema_up. own. rewrite (proj2 (Z.eqb_neq _ _) Hs0). cbn [negb]. rewrite Hx. apply Hbad. by right. }
  pose proof HG as (HI&HS&_).
  pose proof (running_view _ _ HI _ Hth) as Hold. rewrite Hk in Hold.
  destruct (sema_up_inv L σ σ0 (c :: k) k (info th) s x HI HS) as (tht&->&?&?); auto.
  - split; try done.
    + split; try done. rewrite (V_upd σ _ (set_stack k th)) by done. by rewrite tv_set_stack.
    + by rewrite starts_cons.
    + unfold shape. rewrite decide_False by done. by apply bcs_stk.
    + intros l Hl'. by rewrite Htk, (bcs_tok L).
  - destruct (upped_fields s x tht σ0) as (_&_&_&_&_&_&E&_). split_and!; [done..|by rewrite E].
Qed.

Lemma case_SemaUp s : th.(stack) = SemaUp s :: k →
  fine L (misuse σ (SemaUp s)) (exec (SemaUp s) σ0).
Proof using HG Hth.
  code_start Hk. destruct (case_not_idle _ _ HG _ _ _ Hth Hk) as [Hni Hb]; [done..|].
  apply stk_bcs in Hb; [|done]. by eapply up_case.
Qed.

Lemma info_isl : isl L (wait_sema th.(info)) = false ∧ isl L (exec_sema th.(info)) = false.
Proof using HG Hth.
  pose proof HG as (HI&_&_).
  apply (a_info _ _ _ _ _ _ _ _ _ (inv_a _ _ _ HI) _ _ _ _ (running_view _ _ HI _ Hth)).
Qed.

Lemma case_FUpExec : th.(stack) = FUpExec :: k → fine L (misuse σ FUpExec) (exec FUpExec σ0).
Proof using HG Hth.
  code_start Hk. code_bcs Hk Hb. unfold up_info. code_current. own. cbn [info set_stack].
  eapply up_case; try done; [|intros; by exists th].
  intros l Hl'. by rewrite (isl_eqb L) by (done || apply info_isl).
Qed.

Lemma case_FUpWait : th.(stack) = FUpWait :: k → fine L (misuse σ FUpWait) (exec FUpWait σ0).
Proof using HG Hth.
  code_start Hk. code_bcs Hk Hb. unfold up_info. code_current. own. cbn [info set_stack].
  eapply up_case; try done; [|intros; by exists th].
  intros l Hl'. by rewrite (isl_eqb L) by (done || apply info_isl).
Qed.

Lemma case_FDie : th.(stack) = FDie :: k → fine L (misuse σ FDie) (exec FDie σ0).
Proof using HG Hth.
  code_start Hk. code_bcs Hk Hb. unfold thread_die. code_current. own.
  destruct (case_not_idle _ _ HG _ _ _ Hth Hk) as [Hni _]; [done..|]. destruct Hl as [Hi Hs0].
  eapply (desched_case _ _ HG _ _ _ Hth Hk _ _
      (set_stack [] (set_status THREAD_DYING th)) THREAD_DYING []); [threads_eq|try done..].
  - cbn. rewrite decide_False by (by intros [??]). by rewrite app_nil_r.
  - unfold shape. by rewrite decide_False.
  - intros s. rewrite decide_False by (by intros (_&?&_)). by rewrite app_nil_r.
  - intros s. right. split; [by intros [? _]|done].
Qed.

Lemma case_FIdle : th.(stack) = FIdle :: k → fine L (misuse σ FIdle) (exec FIdle σ0).
Proof using HG Hth.
  code_start Hk. destruct (idle_code _ _ Hk) as [Hid _]; [by right|].
  unfold idle_loop. own. cbn [stack set_stack app]. unfold thread_block. own. rewrite He. cbn [negb].
  rewrite bool_decide_true by done.
  rewrite (b_current _ (set_stack (FHlt :: FIdle :: k) th)) by
    (done || (cbn; by rewrite insert_insert_eq, lookup_insert_eq)). own.
  eapply (desched_case _ _ HG _ _ _ Hth Hk _ _
      (set_status THREAD_BLOCKED (set_stack (FHlt :: FIdle :: k) th)) THREAD_BLOCKED
      (FHlt :: FIdle :: k)); [threads_eq|try done..].
  - cbn. rewrite decide_False by (by intros [??]). by rewrite app_nil_r.
  - unfold shape. rewrite decide_True by done. exists k. by left.
  - by left.
  - intros s. rewrite decide_False by (by intros (?&_)). by rewrite app_nil_r.
  - intros s. right. split; [by intros [_ ?]|done].
Qed.

Lemma case_ThreadYield : th.(stack) = ThreadYield :: k →
  fine L (misuse σ ThreadYield) (exec ThreadYield σ0).
Proof using HG Hth.
  code_start Hk. code_bcs Hk Hb. pose proof HG as (HI&HS&_).
  destruct (case_not_idle _ _ HG _ _ _ Hth Hk) as [Hni _]; [done..|].
  destruct (yield_step _ _ HI HS _ Hth σ0 k) as (σ'&->&?&?&?); rewrite ?Hk; try done.
  - unfold shape. rewrite decide_False by done. by apply bcs_stk.
  - intros l Hl'. by rewrite (bcs_tok L).
Qed.

Lemma case_CondWait cv l w : th.(stack) = CondWait cv l w :: k → fresh σ (CondWait cv l w) →
  fine L (misuse σ (CondWait cv l w)) (exec (CondWait cv l w) σ0).
Proof using HG Hth.
  intros Hk Hfr. revert Hk. code_start Hk. pose proof HG as (HI&HS&_).
  destruct (case_not_idle _ _ HG _ _ _ Hth Hk) as [Hni Hb]; [done..|].
  apply stk_bcs in Hb as [Hw%negb_true_iff Hb]; [|done]. cbn in Hfr.
  unfold cond_wait, sema_init. own.
  destruct (Z.eqb_spec cv 0); [by left|]. cbn [negb].
  destruct (Z.eqb_spec l 0); [right; by left|]. cbn [negb]. rewrite He. cbn [negb]. code_held.
  rewrite (proj2 (Z.eqb_neq l 0)) by done. cbn [holders upd_threads].
  destruct (holders σ !! l) as [h|] eqn:Hh; [|do 3 right; left; congruence]. own.
  destruct (Z.eqb_spec h (running σ)) as [->|]; [|do 3 right; left; congruence].
  destruct (Z.eqb_spec (elem_sema w) 0); [right; right; by left|]. cbn [negb].
  destruct (conds σ !! cv) as [ws|] eqn:Hcv; [|by do 4 right]. own.
  set (k' := LockRelease l :: SemaDown (elem_sema w) :: LockAcquire l :: k).
  set (sm := {| value := 0; waiters := [] |}).
  eapply (local_case _ _ HG _ _ _ Hth Hk _ (set_stack k' th) k'); [threads_eq|try done..].
  - auto.
  - intros c' ws' w'. cbn. rewrite lookup_insert_Some. intros [[<- <-]|[_ Hcw]] Hin;
      [|by apply (Hc _ _ _ Hcw)]. apply elem_of_app in Hin as [?| ->%list_elem_of_singleton]; [|done].
    by apply (Hc _ _ _ Hcv).
  - unfold shape. rewrite decide_False by done. apply bcs_stk. cbn. by rewrite Hw, Hb.
  - intros s. unfold W in *. cbn. destruct (decide (elem_sema w = s)) as [<-|].
    + by rewrite lookup_insert_eq.
    + by rewrite lookup_insert_ne.
  - cbn. set_solver.
  - intros s. unfold val. cbn. destruct (decide (elem_sema w = s)) as [<-|].
    + by rewrite lookup_insert_eq.
    + rewrite lookup_insert_ne by done. apply HS.
  - intros s. destruct (decide (elem_sema w = s)) as [<-|]; [by right|left].
    unfold val. cbn. rewrite lookup_insert_ne by done. lia.
  - intros l' Hl'. unfold val, held. cbn.
    rewrite lookup_insert_ne by (intros E; by rewrite E, (isl_lock L) in Hw). lia.
Qed.

Lemma case_FTid t : th.(stack) = FTid t :: k → fine L (misuse σ (FTid t)) (exec (FTid t) σ0).
Proof using HG Hth.
  code_start Hk. code_bcs Hk Hb. pose proof HG as (HI&HS&_).
  destruct (case_not_idle _ _ HG _ _ _ Hth Hk) as [Hni _]; [done..|].
  unfold allocate_tid. own.
  assert (HV : V σ0 = <[running σ := (THREAD_RUNNING, k, th.(info))]> (V σ)).
  { rewrite (V_upd σ _ (set_stack k th)) by done. by rewrite tv_set_stack. }
  destruct (<[_ := _]> (threads σ) !! t) as [tht|] eqn:Ht.
  2: { cbn. by apply lookup_insert_None in Ht as [??]. }
  own. cbn [fine].
  match goal with |- good _ ?s => set (σ' := s) end.
  assert (HV' : V σ' = V σ0).
  { unfold V, σ'. cbn. rewrite fmap_insert. apply insert_id. by rewrite lookup_fmap, Ht. }
  destruct (control_step L σ HI HS th Hth σ' k); try done.
  - by rewrite HV', HV.
  - by rewrite Hk.
  - unfold shape. rewrite decide_False by done. by apply bcs_stk.
  - by rewrite Hk.
  - intros l Hl'. by rewrite Hk, (bcs_tok L).
Qed.

Lemma case_FStart t inf : th.(stack) = FStart t inf :: k → fresh σ (FStart t inf) →
  fine L (misuse σ (FStart t inf)) (exec (FStart t inf) σ0).
Proof using HG Hth.
  intros Hk Hfr. revert Hk. code_start Hk. destruct Hfr as (Hf1&Hf2&Hf3).
  destruct (start_facts _ _ HG _ _ _ _ Hth Hk) as (Hni&Hb&Hi1&Hi2&Hi3&Hti&Htr&Ht0&Hold&kt&inft&Hvt).
  destruct (V_lookup _ _ _ Hvt) as (tht&Htt&Etv). injection Etv as Eb Ek Ei.
  unfold create_rest. code_current. own. rewrite lookup_insert_ne, Htt by done. own.
  rewrite lookup_insert_ne, Htt by done. own.
  rewrite lookup_insert_ne, lookup_insert_eq by done. own. unfold sema_init. own.
  destruct (Z.eqb_spec inf 0); [by left|]. own.
  destruct (Z.eqb_spec (wait_sema inf) 0); [right; by left|]. cbn [negb]. own.
  destruct (Z.eqb_spec (exec_sema inf) 0); [do 2 right; by left|]. cbn [negb].
  rewrite lookup_insert_ne, lookup_insert_eq by done. own.
  destruct (Z.eqb_spec (sup_page_sema t) 0); [by do 3 right|]. cbn [negb].
  unfold thread_unblock. own. rewrite (proj2 (Z.eqb_neq _ _) Ht0), !bool_decide_true by eauto.
  cbn [negb andb]. rewrite b_set_level by done. own. cbn [fine].
  match goal with |- good _ ?s => set (σ' := s) end.
  assert (Hsm : semas σ' = <[sup_page_sema t := {| value := 1; waiters := [] |}]>
    (<[exec_sema inf := {| value := 0; waiters := [] |}]>
    (<[wait_sema inf := {| value := 0; waiters := [] |}]> (semas σ)))) by done.
  assert (Hlk : ∀ s, semas σ' !! s = semas σ !! s ∨ W σ s = [] ∧ isl L s = false ∧
      (semas σ' !! s = Some {| value := 1; waiters := [] |} ∨
       semas σ' !! s = Some {| value := 0; waiters := [] |})).
  { intros s. rewrite Hsm, !lookup_insert. repeat destruct (decide _) as [<-|]; auto. }
  pose proof HG as (_&HS&_).
  eapply (start_case _ _ HG _ _ _ _ Hth Hk σ' kt inft Hvt); try done.
  - apply map_eq. intros u. unfold V, σ'. cbn [threads upd_threads upd_ready upd_intr upd_semas upd_tids].
    rewrite !fmap_insert. rewrite !lookup_insert. unfold tv. cbn. rewrite Eb, Ek, Ei, Hst.
    repeat destruct (decide _) as [<-|]; done.
  - intros s. unfold W in *. destruct (Hlk s) as [->|(->&_&[->| ->])]; done.
  - rewrite Hsm. set_solver.
  - intros s. unfold val. destruct (Hlk s) as [->|(_&_&[->| ->])]; [apply HS|done..].
  - intros s. unfold val. destruct (Hlk s) as [->|(?&?&_)]; auto.
Qed.

Lemma case_ThreadCreate page prio inf f : th.(stack) = ThreadCreate page prio inf f :: k →
  fresh σ (ThreadCreate page prio inf f) →
  fine L (misuse σ (ThreadCreate page prio inf f)) (exec (ThreadCreate page prio inf f) σ0).
Proof using HG Hth.
  intros Hk Hfr. revert Hk. code_start Hk. pose proof HG as (HI&HS&_). cbn in Hfr.
  destruct (case_not_idle _ _ HG _ _ _ Hth Hk) as [Hni Hb]; [done..|].
  apply stk_bcs in Hb as [Hi Hb]; [|done]. cbn in Hi.
  apply andb_prop in Hi as [[[Hf Hi1]%andb_prop Hi2]%andb_prop Hi3].
  change (forallb (api (isl L)) f = true) in Hf.
  pose proof (running_view _ _ HI _ Hth) as Hold. rewrite Hk in Hold.
  unfold thread_create, init_thread. own.
  destruct (Z.eqb_spec page 0) as [->|Hp0]; [code_control Hk k; auto|]. cbn [negb].
  destruct ((PRI_MIN <=? prio) && (prio <=? PRI_MAX)) eqn:Hpr.
  2: { cbn. apply andb_false_iff in Hpr as [?%Z.leb_gt|?%Z.leb_gt]; lia. }
  own. assert (Hpr' : page ≠ running σ) by congruence.
  rewrite lookup_insert_ne, lookup_insert_eq by done. own. cbn [fine stack set_stack app].
  set (k' := LockAcquire tid_lock :: _). set (kt := f ++ _).
  match goal with |- good _ ?s => set (σ' := s) end.
  assert (HV : V σ' = <[page := (THREAD_BLOCKED, IntrEnable :: kt, 0)]>
      (<[running σ := (THREAD_RUNNING, k', info th)]> (V σ))).
  { apply map_eq. intros u. unfold V, σ'. cbn [threads upd_threads].
    rewrite !fmap_insert, !lookup_insert. unfold tv. cbn. rewrite Hst.
    repeat destruct (decide _) as [<-|]; try done; by rewrite decide_False. }
  assert (Hvp : V σ !! page = None) by (unfold V; by rewrite lookup_fmap, Hfr).
  assert (Hvp' : <[running σ := (THREAD_RUNNING, k', info th)]> (V σ) !! page = None)
    by (by rewrite lookup_insert_ne).
  assert (Hcnt : ∀ P, P (THREAD_BLOCKED, IntrEnable :: kt, 0) = false →
    P (THREAD_RUNNING, k', info th) = P (THREAD_RUNNING, ThreadCreate page prio inf f :: k, info th) →
    cnt P (V σ') = cnt P (V σ)).
  { intros P E1 E2. rewrite HV, cnt_fresh, (cnt_insert _ _ _ _ _ Hold), E1, E2 by done. cbn. lia. }
  split_and!; [| |done].
  - pose proof (inv_a _ _ _ HI) as Ha. destruct HI as [_ Hd Hcd Htid [Hi01 Hi02]]. split; try done.
    rewrite HV. eapply ainv_create; [exact Ha|exact Hold|..]; try done.
    + unfold kt. by rewrite starts_app, (apis_starts L).
    + rewrite decide_False by done. apply bcs_stk. cbn. by rewrite Hi1, Hi2, Hi3, Hb.
    + apply bcs_stk. change (forallb (bc (isl L)) kt = true). apply bcs_app. split; [by apply apis_bcs|done].
    + unfold kt. by apply (apis_lv L).
  - split.
    + apply HS.
    + apply HS.
    + intros s. rewrite Hcnt by done. apply HS.
    + intros l Hl'. rewrite Hcnt by done. by apply HS.
Qed.

Lemma case_excluded c : th.(stack) = c :: k →
  match c with ThreadStart _ _ _ | Idle _ => False | _ => True end.
Proof using HG Hth.
  intros Hk. destruct c; try done; destruct (case_not_idle _ _ HG _ _ _ Hth Hk) as [_ Hb]; try done;
    by apply stk_bcs in Hb as [? _].
Qed.
End control_cases.

(** ** A step of the running thread *)

Lemma exec_fine L σ th c k : good L σ →
  σ.(threads) !! σ.(running) = Some th → th.(stack) = c :: k → fresh σ c →
  fine L (misuse σ c) (exec c (upd_threads (<[σ.(running) := set_stack k th]>) σ)).
Proof.
  intros HG Hth Hk Hfr. pose proof (case_excluded _ _ HG _ _ Hth _ Hk) as Hex.
  destruct c; try done.
  - by apply case_SemaDown.
  - by apply case_SemaUp.
  - by apply case_SemaTryDown.
  - by apply case_LockAcquire.
  - by apply case_LockTryAcquire.
  - by apply case_LockRelease.
  - by apply case_CondWait.
  - by apply case_CondSignal.
  - by apply case_CondBroadcast.
  - by apply case_ThreadYield.
  - by apply case_ThreadExit.
  - by apply case_ThreadCreate.
  - by apply case_IntrEnable.
  - by apply case_IntrDisable.
  - by apply case_FSetLevel.
  - by apply case_FIret.
  - by apply case_FSemaLoop.
  - by apply case_FSetHolder.
  - by apply case_FBroadcast.
  - by apply case_FTid.
  - by apply case_FStart.
  - by apply case_FUpExec.
  - by apply case_FUpWait.
  - by apply case_FDie.
  - by apply case_FIdle.
  - by apply case_FHlt.
Qed.
