(* ===== verification/SchedMain.v ===== *)
(** * Properties of every execution

    External interrupts preserve the invariants as well; an execution is a sequence of
    steps of the running thread and of interrupts, and the theorems of this file hold in
    every state that one reaches. *)

From S2P Require Import Prelude Sched SchedInv SchedStep SchedSafe.
Local Open Scope c_scope.

(** ** External interrupts *)

Section interrupts.
Context (L : gset Z) (σ : sys) (HG : good L σ) (Hon : σ.(intr) = INTR_ON).
Context (th : thread) (Hth : σ.(threads) !! σ.(running) = Some th).

(** The state in which a handler runs. *)
Definition in_handler : sys :=
  upd_intr INTR_OFF true false
    (upd_intr INTR_OFF σ.(in_external_intr) σ.(yield_on_return)
      (upd_threads (<[σ.(running) := set_stack (FIret :: th.(stack)) th]>) σ)).

Lemma interrupt_eq q : interrupt q σ =
  (handler q ;;
   i <- intr_get_level ;;
   assert (bool_decide (i = INTR_OFF)) ;;
   ic <- intr_context ;;
   assert ic ;;
   modify (λ σ, upd_intr σ.(intr) false σ.(yield_on_return) σ) ;;
   y <- read yield_on_return ;;
   if (y : bool) then thread_yield else ret tt) in_handler.
Proof using HG Hth.
  destruct HG as (_&_&He). unfold interrupt, intr_handler.
  replace ((32 <=? irq_vec q) && (irq_vec q <? 48)) with true by (by destruct q). mon.
  rewrite Hth. mon. rewrite bool_decide_true, He by done. cbn [negb]. mon. reflexivity.
Qed.

(** Interrupts are on only where no semaphore is being taken. *)
Lemma on_no_retry s : retry s (THREAD_RUNNING, th.(stack), th.(info)) = false.
Proof using HG Hon Hth.
  destruct HG as (HI&_&_). pose proof (running_lv _ _ HI _ Hth) as Hl. rewrite Hon in Hl.
  destruct (stack th) as [|[] ?]; try done. by destruct Hl.
Qed.

Lemma iret_lv : lv INTR_OFF (FIret :: th.(stack)).
Proof using HG Hon Hth.
  destruct HG as (HI&_&_). cbn. rewrite <- Hon. by eapply running_lv.
Qed.

Lemma handler_current : in_handler.(threads) !! in_handler.(running)
  = Some (set_stack (FIret :: th.(stack)) th).
Proof using Type. apply lookup_insert_eq. Qed.

Lemma tv_iret : tv (set_stack (FIret :: th.(stack)) th)
  = (THREAD_RUNNING, FIret :: th.(stack), th.(info)).
Proof using HG Hth.
  destruct HG as (HI&_&_). destruct (running_thread_ok _ _ HI) as (th'&Hth'&Hs&_).
  rewrite Hth in Hth'. injection Hth' as <-. unfold tv. cbn. by rewrite Hs.
Qed.

(** Back in the interrupted code. *)
Lemma irq_return σ' : σ'.(threads) = in_handler.(threads) →
  σ'.(ready_list) = σ.(ready_list) → σ'.(running) = σ.(running) →
  σ'.(idle_thread) = σ.(idle_thread) → σ'.(initial_thread) = σ.(initial_thread) →
  σ'.(semas) = σ.(semas) → σ'.(holders) = σ.(holders) → σ'.(conds) = σ.(conds) →
  σ'.(in_external_intr) = false → σ'.(intr) = INTR_OFF → good L σ'.
Proof using HG Hon Hth.
  intros Ht Hrd Hr Hid Hin Hsm Hh Hc He Hi. pose proof HG as (HI&HS&_).
  destruct (control_step L σ HI HS th Hth σ' (FIret :: th.(stack))); try done.
  - unfold V at 1. rewrite Ht. cbn. by rewrite fmap_insert, tv_iret.
  - unfold conds_ok. rewrite Hc. apply (inv_conds _ _ _ HI).
  - apply (running_shape _ _ HI _ Hth).
  - rewrite Hi. apply iret_lv.
  - apply on_no_retry.
Qed.

Lemma irq_yield σ' : σ'.(threads) = in_handler.(threads) →
  σ'.(ready_list) = σ.(ready_list) → σ'.(running) = σ.(running) →
  σ'.(idle_thread) = σ.(idle_thread) → σ'.(initial_thread) = σ.(initial_thread) →
  σ'.(semas) = σ.(semas) → σ'.(holders) = σ.(holders) → σ'.(conds) = σ.(conds) →
  σ'.(in_external_intr) = false → σ'.(intr) = INTR_OFF →
  ∃ σ'', thread_yield σ' = Ok (tt, σ'') ∧ good L σ''.
Proof using HG Hon Hth.
  intros Ht Hrd Hr Hid Hin Hsm Hh Hc He Hi. pose proof HG as (HI&HS&_).
  destruct (yield_step _ _ HI HS _ Hth σ' (FIret :: th.(stack))) as (σ''&?&?&?&?); try done.
  - apply (running_shape _ _ HI _ Hth).
  - rewrite Hi. apply iret_lv.
  - apply on_no_retry.
  - by exists σ''.
Qed.

(** What the handlers leave alone. *)
Record same_sched (σ1 σ2 : sys) : Prop := {
  sc_threads : σ2.(threads) = σ1.(threads);
  sc_ready : σ2.(ready_list) = σ1.(ready_list);
  sc_running : σ2.(running) = σ1.(running);
  sc_idle : σ2.(idle_thread) = σ1.(idle_thread);
  sc_init : σ2.(initial_thread) = σ1.(initial_thread);
  sc_semas : σ2.(semas) = σ1.(semas);
  sc_holders : σ2.(holders) = σ1.(holders);
  sc_conds : σ2.(conds) = σ1.(conds);
  sc_ext : σ2.(in_external_intr) = σ1.(in_external_intr);
  sc_intr : σ2.(intr) = σ1.(intr);
}.

Lemma thread_tick_ok : ∃ σt, thread_tick in_handler = Ok (tt, σt) ∧ same_sched in_handler σt.
Proof using HG Hth.
  pose proof HG as (HI&_&_). destruct (running_thread_ok _ _ HI) as (th'&Hth'&Hs&Hr0).
  rewrite Hth in Hth'. injection Hth' as <-. unfold thread_tick.
  rewrite (b_current _ (set_stack (FIret :: th.(stack)) th)) by (done || apply handler_current).
  mon. rewrite handler_current. mon. unfold intr_yield_on_return.
  destruct (_ =? _); [|destruct (pagedir _)]; mon;
    destruct (TIME_SLICE <=? _); (eexists; split; [reflexivity|done]).
Qed.

Lemma timer_ok : ∃ σ', interrupt TimerIrq σ = Ok (tt, σ') ∧ good L σ'.
Proof using HG Hon Hth.
  destruct thread_tick_ok as (σt&Ht&[]). rewrite interrupt_eq. cbn [handler].
  rewrite (bind_Ok _ _ _ _ _ Ht). mon.
  rewrite sc_intr0, sc_ext0, bool_decide_true by done. cbn [in_external_intr in_handler upd_intr].
  destruct (yield_on_return σt).
  - match goal with |- context [thread_yield ?s] =>
      destruct (irq_yield s) as (σ''&->&?); try done end. eauto.
  - eexists. split; [done|]. by apply irq_return.
Qed.

(** An interrupt whose handler ups [s]. *)
Lemma device_ok s : s ≠ 0 → is_Some (σ.(semas) !! s) → isl L s = false →
  ∃ σ', interrupt (DeviceIrq s) σ = Ok (tt, σ') ∧ good L σ'.
Proof using HG Hon Hth.
  intros Hs0 [x Hx] Hil. pose proof HG as (HI&HS&_).
  destruct (sema_up_inv L σ in_handler th.(stack) (FIret :: th.(stack)) th.(info) s x HI HS)
    as (tht&Hup&HI'&HS'); [|done|done|by right|].
  - split; try done.
    + split; try done; [by eapply running_view|]. unfold V at 1. cbn. by rewrite fmap_insert, tv_iret.
    + apply (running_shape _ _ HI _ Hth).
    + apply iret_lv.
    + apply on_no_retry.
    + intros l Hl. rewrite (isl_eqb L) by done.
      change (tok l (THREAD_RUNNING, FIret :: stack th, info th))
        with (tok l (THREAD_RUNNING, stack th, info th)). cbn [Z.b2z]. lia.
  - destruct (upped_fields s x tht in_handler) as (_&_&_&Hi&_&_&He&Hy&_).
    rewrite interrupt_eq. cbn [handler]. rewrite (bind_Ok _ _ _ _ _ Hup). mon.
    rewrite Hi, He, Hy, bool_decide_true by done. cbn [in_external_intr in_handler upd_intr yield_on_return].
    eexists. split; [done|]. split_and!; [|by destruct HS'; split|done].
    destruct HI' as [Ha ? ? ? ?]. rewrite Hi in Ha. by split.
Qed.
End interrupts.

(** ** Executions *)

(** A step: the running thread runs its next piece of code, or an external interrupt
    arrives while interrupts are on. *)
Inductive step (L : gset Z) (σ : sys) : sys → Prop :=
  | step_run σ' th c k :
      σ.(threads) !! σ.(running) = Some th → th.(stack) = c :: k → fresh σ c →
      run_step σ = Ok (tt, σ') → step L σ σ'
  | step_timer σ' :
      σ.(intr) = INTR_ON → interrupt TimerIrq σ = Ok (tt, σ') → step L σ σ'
  | step_device s σ' :
      σ.(intr) = INTR_ON → s ≠ 0 → is_Some (σ.(semas) !! s) → isl L s = false →
      interrupt (DeviceIrq s) σ = Ok (tt, σ') → step L σ σ'.

Definition reaches (L : gset Z) : sys → sys → Prop := rtc (step L).

Lemma run_step_eq σ th c k : σ.(threads) !! σ.(running) = Some th → th.(stack) = c :: k →
  run_step σ = exec c (upd_threads (<[σ.(running) := set_stack k th]>) σ).
Proof. intros Ht Hk. unfold run_step. by rewrite Ht, Hk. Qed.

Lemma step_good L σ σ' : good L σ → step L σ σ' → good L σ'.
Proof.
  intros HG [σ1 th c k Hth Hk Hfr Hrun|σ1 Hon Hi|s σ1 Hon Hs Hx Hil Hi].
  - pose proof (exec_fine _ _ _ _ _ HG Hth Hk Hfr) as Hf.
    rewrite <- (run_step_eq _ _ _ _ Hth Hk), Hrun in Hf. done.
  - pose proof HG as (HI&_&_). destruct (running_thread_ok _ _ HI) as (th&Hth&_).
    destruct (timer_ok _ _ HG Hon _ Hth) as (?&?&?). congruence.
  - pose proof HG as (HI&_&_). destruct (running_thread_ok _ _ HI) as (th&Hth&_).
    destruct (device_ok _ _ HG Hon _ Hth s Hs Hx Hil) as (?&?&?). congruence.
Qed.

Lemma reaches_good L σ σ' : good L σ → reaches L σ σ' → good L σ'.
Proof. intros HG Hr. induction Hr; eauto using step_good. Qed.

(** ** The state after [thread_start] *)

(** The main thread runs [f], the idle thread waits, the locks [L] are free. *)
Record booted (L : gset Z) (f : list code) (σ : sys) (tm ti : thread) : Prop := {
  bt_threads : σ.(threads) = <[σ.(running) := tm]> (<[σ.(idle_thread) := ti]> ∅);
  bt_ne : σ.(running) ≠ σ.(idle_thread) ∧ σ.(running) ≠ 0 ∧ σ.(idle_thread) ≠ 0;
  bt_init : σ.(initial_thread) = σ.(running);
  bt_main : tm.(status) = THREAD_RUNNING ∧ tm.(stack) = f ∧ tm.(info) = 0;
  bt_idle : ti.(status) = THREAD_BLOCKED ∧ ti.(stack) = [FHlt; FIdle; ThreadExit [] []];
  bt_code : forallb (api (isl L)) f = true;
  bt_info : isl L (wait_sema 0) = false ∧ isl L (exec_sema 0) = false ∧
    isl L (wait_sema ti.(info)) = false ∧ isl L (exec_sema ti.(info)) = false;
  bt_ready : σ.(ready_list) = [];
  bt_ext : σ.(in_external_intr) = false;
  bt_tid : tid_lock ∈ L;
  bt_dom : dom σ.(holders) = L;
  bt_free : ∀ l, l ∈ L → σ.(holders) !! l = Some 0 ∧
    σ.(semas) !! lock_sema l = Some {| value := 1; waiters := [] |};
  bt_semas : ∀ s x, σ.(semas) !! s = Some x → waiters x = [] ∧ is_u32 (value x);
  bt_conds : ∀ c ws, σ.(conds) !! c = Some ws → ws = [];
}.

Section boot.
Context (L : gset Z) (f : list code) (σ : sys) (tm ti : thread) (HB : booted L f σ tm ti).

Lemma boot_V : V σ = <[σ.(running) := (THREAD_RUNNING, f, 0)]>
  (<[σ.(idle_thread) := (THREAD_BLOCKED, [FHlt; FIdle; ThreadExit [] []], ti.(info))]> ∅).
Proof using HB.
  destruct HB. unfold V. rewrite bt_threads0, !fmap_insert, fmap_empty. unfold tv.
  destruct bt_main0 as (->&->&->), bt_idle0 as (->&->). done.
Qed.

Lemma boot_look t x : V σ !! t = Some x →
  t = σ.(running) ∧ x = (THREAD_RUNNING, f, 0) ∨
  t = σ.(idle_thread) ∧ x = (THREAD_BLOCKED, [FHlt; FIdle; ThreadExit [] []], ti.(info)).
Proof using HB.
  rewrite boot_V. intros H. apply lookup_insert_Some in H as [[<- <-]|[_ H]]; [by left|right].
  apply lookup_insert_Some in H as [[<- <-]|[_ H]]; [done|]. by rewrite lookup_empty in H.
Qed.

Lemma boot_W s : W σ s = [].
Proof using HB. unfold W. destruct (semas σ !! s) eqn:E; [|done]. by apply (bt_semas _ _ _ _ _ HB s). Qed.

Lemma boot_ainv : ainv (isl L) (V σ) (ready_list σ) (W σ) (Some σ.(running)) σ.(running)
  σ.(idle_thread) [σ.(initial_thread)] σ.(intr).
Proof using HB.
  pose proof HB as []. destruct bt_ne0 as (Hne&Hr&Hi). pose proof (apis_starts L f bt_code0) as Hs.
  split; try done.
  - rewrite boot_V, !lookup_insert_ne by done. apply lookup_empty.
  - rewrite boot_V, lookup_insert_eq. eauto.
  - intros t st k inf [[-> [= -> -> ->]]|[-> [= -> -> ->]]]%boot_look; split; try done. congruence.
  - rewrite bt_ready0. constructor.
  - intros t. rewrite bt_ready0. split; [set_solver|].
    intros (?&k&inf&[[-> [= -> -> ->]]|[-> [=]]]%boot_look).
  - intros s. rewrite boot_W. constructor.
  - intros s t. rewrite boot_W. set_solver.
  - intros t k inf [[-> [=]]|[-> _]]%boot_look. by left.
  - intros t k inf [[_ [=]]|[_ [=]]]%boot_look.
  - rewrite boot_V, lookup_insert_ne, lookup_insert_eq by done. eauto.
  - intros t st k inf [[-> [= -> -> ->]]|[-> [= -> -> ->]]]%boot_look.
    + rewrite decide_False by done. by apply bcs_stk, apis_bcs.
    + rewrite decide_True by done. eexists. by left.
  - intros t st k inf [[-> [= -> -> ->]]|[-> [= -> -> ->]]]%boot_look; naive_solver.
  - intros u st k inf t [[-> [= -> -> ->]]|[-> [= -> -> ->]]]%boot_look; [rewrite Hs|]; set_solver.
  - intros u st k inf [[-> [= -> -> ->]]|[-> [= -> -> ->]]]%boot_look; [rewrite Hs|]; constructor.
  - intros u1 u2 st1 st2 k1 k2 i1 i2 t [[-> [= -> -> ->]]|[-> [= -> -> ->]]]%boot_look _;
      [rewrite Hs|]; set_solver.
  - intros t st k inf [[-> [= -> -> ->]]|[-> [= -> -> ->]]]%boot_look; [|done].
    rewrite <- (app_nil_r f). by apply (apis_lv L).
Qed.

Lemma boot_good : good L σ.
Proof using HB.
  pose proof HB as []. split_and!; [| |done].
  - split; try done; [apply boot_ainv| |naive_solver].
    intros c ws w Hw. rewrite (bt_conds0 _ _ Hw). set_solver.
  - split.
    + intros s. unfold val. destruct (semas σ !! s) eqn:E; [|done]. by apply (bt_semas0 s).
    + intros l Hl. destruct (bt_free0 l Hl) as [_ ->]. eauto.
    + intros s. by rewrite boot_W.
    + intros l Hl. destruct (bt_free0 l Hl) as [Hh Hsm]. unfold val, held. rewrite Hh, Hsm, boot_V.
      rewrite !cnt_fresh by (by rewrite ?lookup_insert_ne, lookup_empty by naive_solver).
      rewrite (bcs_tok L f) by (done || by apply apis_bcs). reflexivity.
Qed.
End boot.

(** ** A scenario

    Main and one more thread use a lock, two semaphores and a condition variable.  [demo]
    is the state that [thread_init] and [thread_start] lead to. *)

Definition blank : sys :=
  {| threads := ∅; ready_list := []; running := 0; idle_thread := 0; initial_thread := 0;
     semas := {[260 := {| value := 1; waiters := [] |}; 300 := {| value := 0; waiters := [] |};
                320 := {| value := 0; waiters := [] |}]};
     holders := {[256 := 0]}; conds := {[400 := []]}; infos := ∅; intr := INTR_OFF;
     in_external_intr := false; yield_on_return := false; thread_ticks := 0; idle_ticks := 0;
     kernel_ticks := 0; user_ticks := 0; next_tid := 1 |}.

Definition child_code : list code :=
  [SemaDown 300; LockAcquire 256; CondSignal 400 256; LockRelease 256; SemaUp 320].
Definition main_code : list code :=
  [ThreadCreate 12288 PRI_DEFAULT 700 child_code; SemaUp 300; LockAcquire 256;
   CondWait 400 256 800; LockRelease 256; SemaDown 320].

Definition boot : res (unit * sys) :=
  (thread_init 4096 (ThreadStart 8192 500 600 :: main_code) ;; run_trace (replicate 25 None)) blank.
Definition demo : sys := match boot with Ok (_, σ) => σ | Err _ => blank end.
Definition demo_main : thread :=
  {| status := THREAD_RUNNING; tid := 1; priority := 31; stack := main_code;
     child_list := [8192]; child_info_list := [500]; parent_thread := 0; info := 0;
     pagedir := false |}.
Definition demo_idle : thread :=
  {| status := THREAD_BLOCKED; tid := 2; priority := 0; stack := [FHlt; FIdle; ThreadExit [] []];
     child_list := []; child_info_list := []; parent_thread := 4096; info := 500;
     pagedir := false |}.
Definition demo_locks : gset Z := {[256; tid_lock]}.

(** Starting the system: interrupts off, no threads, then the calls of the kernel's [main]. *)
Lemma demo_booted : booted demo_locks main_code demo demo_main demo_idle.
Proof.
  split; [vm_compute; reflexivity|by_decide|reflexivity|split_and!; reflexivity..|vm_compute; reflexivity
    |split_and!; vm_compute; reflexivity|reflexivity|reflexivity|by_decide|by_decide| | |].
  - intros l Hl. unfold demo_locks in Hl.
    apply elem_of_union in Hl as [->%elem_of_singleton| ->%elem_of_singleton]; split; reflexivity.
  - change (map_Forall (λ _ x, waiters x = [] ∧ is_u32 (value x)) (semas demo)). by_decide.
  - change (map_Forall (λ _ ws, ws = []) (conds demo)). by_decide.
Qed.

(** Runs a scenario while checking that it respects [step]. *)
Definition freshb (σ : sys) (c : code) : bool :=
  match c with
  | CondWait _ _ w => bool_decide (W σ (elem_sema w) = [])
  | FStart t inf => bool_decide (W σ (wait_sema inf) = []) && bool_decide (W σ (exec_sema inf) = [])
                    && bool_decide (W σ (sup_page_sema t) = [])
  | ThreadCreate page _ _ _ => negb (bool_decide (is_Some (σ.(threads) !! page)))
  | _ => true
  end.

Lemma freshb_ok σ c : freshb σ c = true → fresh σ c.
Proof.
  destruct c; try done; cbn.
  - by intros H%bool_decide_eq_true.
  - intros H%negb_true_iff%bool_decide_eq_false. by apply eq_None_not_Some.
  - intros [[?%bool_decide_eq_true ?%bool_decide_eq_true]%andb_prop ?%bool_decide_eq_true]%andb_prop.
    done.
Qed.

Fixpoint checked (tr : list (option irq)) (σ : sys) : option sys :=
  match tr with
  | [] => Some σ
  | None :: tr =>
      match stack <$> σ.(threads) !! σ.(running) with
      | Some (c :: _) =>
          if freshb σ c then
            match run_step σ with Ok (_, σ') => checked tr σ' | Err _ => None end
          else None
      | _ => None
      end
  | Some TimerIrq :: tr =>
      if decide (σ.(intr) = INTR_ON) then
        match interrupt TimerIrq σ with Ok (_, σ') => checked tr σ' | Err _ => None end
      else None
  | Some (DeviceIrq s) :: tr => None
  end.

Lemma checked_reaches L tr σ σ' : checked tr σ = Some σ' → reaches L σ σ'.
Proof.
  revert σ. induction tr as [|[[|s]|] tr IH]; intros σ; cbn.
  - intros [= ->]. apply rtc_refl.
  - destruct (decide _); [|done]. destruct (interrupt TimerIrq σ) as [[[] σ1]|] eqn:E; [|done].
    intros H. eapply rtc_l; [by eapply step_timer|by apply IH].
  - done.
  - destruct (threads σ !! running σ) as [th|] eqn:Ht; [|done]. cbn.
    destruct (stack th) as [|c k] eqn:Hk; [done|]. destruct (freshb σ c) eqn:Hf; [|done].
    destruct (run_step σ) as [[[] σ1]|] eqn:E; [|done].
    intros H. eapply rtc_l; [|by apply IH]. eapply step_run; eauto. by apply freshb_ok.
Qed.

(** ** Properties of reachable states *)

Lemma cnt_pos P v : 0 < cnt P v → ∃ t x, v !! t = Some x ∧ P x = true.
Proof.
  unfold cnt. intros H. destruct (map_choose (filter (λ x : Z * tview, P x.2 = true) v)) as (t&x&Hx).
  - intros E. rewrite E, map_size_empty in H. done.
  - apply map_lookup_filter_Some in Hx as [??]. eauto.
Qed.

Lemma cnt_two P (v : gmap Z tview) t1 t2 x1 x2 : v !! t1 = Some x1 → v !! t2 = Some x2 →
  P x1 = true → P x2 = true → cnt P v ≤ 1 → t1 = t2.
Proof.
  intros H1 H2 P1 P2 Hc. destruct (decide (t1 = t2)) as [|Hne]; [done|exfalso].
  pose proof (cnt_delete P _ _ _ H1) as E1.
  assert (H2' : delete t1 v !! t2 = Some x2) by (by rewrite lookup_delete_ne).
  pose proof (cnt_delete P _ _ _ H2') as E2. pose proof (cnt_nonneg P (delete t2 (delete t1 v))).
  rewrite P1 in E1. rewrite P2 in E2. cbn in *. lia.
Qed.

Lemma cnt_ge P (v : gmap Z tview) t x : v !! t = Some x → P x = true → 1 ≤ cnt P v.
Proof.
  intros H HP. pose proof (cnt_delete P _ _ _ H) as E. pose proof (cnt_nonneg P (delete t v)).
  rewrite HP in E. cbn in E. lia.
Qed.

Lemma retry_waits s st k inf : retry s (st, k, inf) = true ↔
  waits_on k = Some s ∧ st ≠ THREAD_BLOCKED.
Proof.
  destruct k as [|[] k]; cbn; try (split; [done|by intros []]).
  rewrite andb_true_iff, Z.eqb_eq, negb_true_iff, bool_decide_eq_false. split; [|naive_solver].
  intros [-> ?]. done.
Qed.

(** Property C1.  The run queue and the wait lists, in every state that the system reaches
    from its start under any interleaving of threads and interrupts: exactly the current
    thread is running; the run queue holds exactly the ready threads other than the idle
    thread, each once; a thread on the wait list of a semaphore is blocked and suspended in
    [sema_down] on that semaphore, so that it is on no other list; and no thread is
    lost, since a blocked thread is on the list of the semaphore it waits for, or is the idle
    thread, or is still being created. *)
Theorem scheduler_lists L f σ0 tm ti σ :
  booted L f σ0 tm ti → reaches L σ0 σ →
  is_Some (σ.(threads) !! σ.(running)) ∧
  (∀ t th, σ.(threads) !! t = Some th → (th.(status) = THREAD_RUNNING ↔ t = σ.(running))) ∧
  NoDup σ.(ready_list) ∧
  (∀ t, t ∈ σ.(ready_list) ↔
     t ≠ σ.(idle_thread) ∧ ∃ th, σ.(threads) !! t = Some th ∧ th.(status) = THREAD_READY) ∧
  (∀ s x, σ.(semas) !! s = Some x → NoDup x.(waiters) ∧ ∀ t, t ∈ x.(waiters) →
     ∃ th, σ.(threads) !! t = Some th ∧ th.(status) = THREAD_BLOCKED ∧
       waits_on th.(stack) = Some s) ∧
  (∀ t th, σ.(threads) !! t = Some th → th.(status) = THREAD_BLOCKED →
     t = σ.(idle_thread) ∨
     (∃ s x, waits_on th.(stack) = Some s ∧ σ.(semas) !! s = Some x ∧ t ∈ x.(waiters)) ∨
     (∃ u thu, σ.(threads) !! u = Some thu ∧ t ∈ starts thu.(stack))).
Proof.
  intros HB Hr. destruct (reaches_good _ _ _ (boot_good _ _ _ _ _ HB) Hr) as (HI&HS&_).
  pose proof (inv_a _ _ _ HI) as Ha. destruct Ha.
  split_and!; [|intros t th Ht|done|intros t|intros s x Hx|intros t th Ht Hb].
  - destruct a_exists as [y Hy]. destruct (V_lookup _ _ _ Hy) as (th&?&_). eauto.
  - rewrite (a_run _ _ _ _ (V_of _ _ _ Ht)). split; congruence.
  - rewrite a_ready. split; intros [Hi H]; (split; [done|]).
    + destruct H as (k&inf&Hv). destruct (V_lookup _ _ _ Hv) as (th&?&[= ? ? ?]). eauto.
    + destruct H as (th&Ht&Hs). exists th.(stack), th.(info). rewrite <- Hs. by apply V_of.
  - assert (HW : W σ s = waiters x) by (unfold W; by rewrite Hx). rewrite <- HW.
    split; [done|]. intros t (_&o&k&inf&Hv)%a_waiting.
    destruct (V_lookup _ _ _ Hv) as (th&?&[= ? Hk ?]). exists th. by rewrite Hk.
  - pose proof (V_of _ _ _ Ht) as Hv. unfold tv in Hv. rewrite Hb in Hv.
    destruct (a_blocked _ _ _ Hv) as [?|[(s&o&k'&Hk&Hin)|(u&st&ku&infu&Hu&Hin)]]; [by left|right..].
    + left. unfold W in Hin. destruct (semas σ !! s) as [x|] eqn:Hx; [|set_solver].
      exists s, x. by rewrite Hk.
    + right. destruct (V_lookup _ _ _ Hu) as (thu&?&[= ? Hk ?]). exists u, thu. by rewrite Hk.
Qed.

(** Property C3.  No wake-up is lost: as long as threads wait for a semaphore, its value is at
    most the number of threads that have been woken and are about to take a unit; in
    particular, units and waiters together imply that such a thread exists. *)
Theorem no_lost_wakeup L f σ0 tm ti σ s x :
  booted L f σ0 tm ti → reaches L σ0 σ →
  σ.(semas) !! s = Some x → x.(waiters) ≠ [] →
  x.(value) ≤ cnt (retry s) (V σ) ∧
  (0 < x.(value) → ∃ t th, σ.(threads) !! t = Some th ∧ th.(status) ≠ THREAD_BLOCKED ∧
     waits_on th.(stack) = Some s).
Proof.
  intros HB Hr Hx Hw. destruct (reaches_good _ _ _ (boot_good _ _ _ _ _ HB) Hr) as (HI&HS&_).
  assert (Hc : x.(value) ≤ cnt (retry s) (V σ)).
  { pose proof (sy_wake _ _ HS s) as H. unfold W, val in H. rewrite Hx in H. by apply H. }
  split; [done|]. intros Hv. destruct (cnt_pos (retry s) (V σ)) as (t&y&Hy&Hp); [lia|].
  destruct (V_lookup _ _ _ Hy) as (th&Ht&<-). apply retry_waits in Hp as [??]. eauto 10.
Qed.

(** Property C2.  Mutual exclusion: the one unit of a lock is in its semaphore, or with its
    holder, or with the one thread that is just becoming or has just stopped being the holder.
    So the semaphore of a held lock has no units, a thread that is about to become the holder
    finds no other holder, and no two threads are at this point at once. *)
Theorem lock_mutual_exclusion L f σ0 tm ti σ l h :
  booted L f σ0 tm ti → reaches L σ0 σ → σ.(holders) !! l = Some h →
  val σ (lock_sema l) + Z.b2z (negb (h =? 0)) + cnt (tok l) (V σ) = 1 ∧
  (h ≠ 0 → val σ (lock_sema l) = 0) ∧
  (∀ t th r, σ.(threads) !! t = Some th → core th.(stack) = FSetHolder l :: r →
     h = 0 ∧ val σ (lock_sema l) = 0) ∧
  (∀ t1 t2 th1 th2 r1 r2, σ.(threads) !! t1 = Some th1 → σ.(threads) !! t2 = Some th2 →
     core th1.(stack) = FSetHolder l :: r1 → core th2.(stack) = FSetHolder l :: r2 → t1 = t2).
Proof.
  intros HB Hr Hh. destruct (reaches_good _ _ _ (boot_good _ _ _ _ _ HB) Hr) as (HI&HS&_).
  assert (Hl : l ∈ L) by (rewrite <- (inv_dom _ _ _ HI); apply elem_of_dom; eauto).
  pose proof (sy_lock _ _ HS l Hl) as E. unfold held in E. rewrite Hh in E.
  pose proof (cnt_nonneg (tok l) (V σ)). pose proof (sy_val _ _ HS (lock_sema l)) as [Hv _].
  assert (Htok : ∀ t th r, σ.(threads) !! t = Some th → core th.(stack) = FSetHolder l :: r →
    V σ !! t = Some (tv th) ∧ tok l (tv th) = true).
  { intros t th r Ht Hc. split; [by apply V_of|]. unfold tok, tv. cbn. by rewrite Hc, Z.eqb_refl. }
  pose proof (b2z_bound (negb (h =? 0))). unfold NULL in E.
  split_and!; [done| | |].
  - intros Hne. rewrite (proj2 (Z.eqb_neq _ _) Hne) in *. cbn in *. lia.
  - intros t th r Ht Hc. destruct (Htok _ _ _ Ht Hc) as [H1 H2]. pose proof (cnt_ge _ _ _ _ H1 H2).
    destruct (Z.eqb_spec h 0); cbn in *; lia.
  - intros t1 t2 th1 th2 r1 r2 Ht1 Ht2 Hc1 Hc2.
    destruct (Htok _ _ _ Ht1 Hc1), (Htok _ _ _ Ht2 Hc2). eapply cnt_two; eauto. lia.
Qed.

(** Property C4.  The scheduler's own assertions never fail: in a reachable state the next piece
    of code of the running thread completes, unless its caller misuses an operation, and a
    timer interrupt always completes, whether or not it preempts the thread. *)
Theorem scheduler_progress L f σ0 tm ti σ :
  booted L f σ0 tm ti → reaches L σ0 σ →
  (∀ th c k, σ.(threads) !! σ.(running) = Some th → th.(stack) = c :: k → fresh σ c →
     (∃ σ', run_step σ = Ok (tt, σ')) ∨ misuse σ c) ∧
  (σ.(intr) = INTR_ON → ∃ σ', interrupt TimerIrq σ = Ok (tt, σ')).
Proof.
  intros HB Hr. pose proof (reaches_good _ _ _ (boot_good _ _ _ _ _ HB) Hr) as HG. split.
  - intros th c k Ht Hk Hf. pose proof (exec_fine _ _ _ _ _ HG Ht Hk Hf) as H.
    rewrite <- (run_step_eq _ _ _ _ Ht Hk) in H.
    destruct (run_step σ) as [[[] σ']|]; [left; eauto|by right].
  - intros Hon. pose proof HG as (HI&_&_). destruct (running_thread_ok _ _ HI) as (th&Hth&_).
    destruct (timer_ok _ _ HG Hon _ Hth) as (σ'&?&_). eauto.
Qed.

(** *** The scenario *)

(** Main is preempted while it holds the lock; the other thread runs into the lock. *)
Definition demo_trace : list (option irq) :=
  replicate 14 None ++ [Some TimerIrq; None; Some TimerIrq; None; Some TimerIrq; None; Some TimerIrq]
  ++ replicate 6 None.

Lemma scheduler_lists_witness : ∃ σ, checked demo_trace demo = Some σ ∧
  W σ (lock_sema 256) = [12288] ∧ NoDup σ.(ready_list).
Proof.
  destruct (checked demo_trace demo) as [σ|] eqn:E; [|vm_compute in E; discriminate].
  exists σ. split_and!; [done| |].
  - revert E. vm_compute. intros [= <-]. reflexivity.
  - by destruct (scheduler_lists _ _ _ _ _ σ demo_booted (checked_reaches _ _ _ _ E)) as (_&_&?&_).
Defined.

Lemma no_lost_wakeup_witness : ∃ σ x, checked demo_trace demo = Some σ ∧
  σ.(semas) !! lock_sema 256 = Some x ∧ x.(value) ≤ cnt (retry (lock_sema 256)) (V σ).
Proof.
  destruct (checked demo_trace demo) as [σ|] eqn:E; [|vm_compute in E; discriminate].
  exists σ, {| value := 0; waiters := [12288] |}.
  assert (Hx : σ.(semas) !! lock_sema 256 = Some {| value := 0; waiters := [12288] |})
    by (revert E; vm_compute; intros [= <-]; reflexivity).
  split_and!; [done|done|].
  by destruct (no_lost_wakeup _ _ _ _ _ σ _ _ demo_booted (checked_reaches _ _ _ _ E) Hx) as [? _].
Defined.

Lemma lock_mutual_exclusion_witness : ∃ σ, checked demo_trace demo = Some σ ∧
  σ.(holders) !! 256 = Some 4096 ∧ val σ (lock_sema 256) = 0.
Proof.
  destruct (checked demo_trace demo) as [σ|] eqn:E; [|vm_compute in E; discriminate].
  exists σ. assert (Hh : σ.(holders) !! 256 = Some 4096)
    by (revert E; vm_compute; intros [= <-]; reflexivity).
  split_and!; [done|done|].
  destruct (lock_mutual_exclusion _ _ _ _ _ σ _ _ demo_booted (checked_reaches _ _ _ _ E) Hh)
    as (_&H&_). by apply H.
Defined.

Lemma scheduler_progress_witness : ∃ σ', interrupt TimerIrq demo = Ok (tt, σ').
Proof.
  destruct (scheduler_progress _ _ _ _ _ demo demo_booted (rtc_refl _ _)) as [_ H].
  by apply H.
Defined.
