(* ===== verification/SchedLive.v ===== *)
(** * Bounded waiting in the run queue

    Round robin: a thread that is at position [n] of the run queue waits for at most [n]
    changes of the running thread before it runs, whatever the threads and the devices do. *)

From S2P Require Import Prelude Sched SchedInv SchedStep SchedSafe SchedMain.
Local Open Scope c_scope.

(** ** Code that at most appends to the run queue *)

Definition appends {A} (c : M sys A) : Prop := ∀ σ a σ', c σ = Ok (a, σ') →
  σ'.(running) = σ.(running) ∧ ∃ xs, σ'.(ready_list) = σ.(ready_list) ++ xs.

(** Code that appends to the run queue and may end with a switch to its first thread. *)
Definition dispatches (c : M sys unit) : Prop := ∀ σ σ', c σ = Ok (tt, σ') →
  ∃ xs, (σ'.(running) = σ.(running) ∧ σ'.(ready_list) = σ.(ready_list) ++ xs) ∨
    (σ.(ready_list) ++ xs = σ'.(running) :: σ'.(ready_list)) ∨
    (σ.(ready_list) ++ xs = [] ∧ σ'.(ready_list) = []).

Create HintDb runq discriminated.

Lemma appends_ret {A} (a : A) : appends (ret a).
Proof. intros σ b σ' [= <- <-]. split; [done|]. exists []. by rewrite app_nil_r. Qed.

Lemma appends_fail {A} e : appends (@fail sys A e).
Proof. done. Qed.

Lemma appends_read {A} (f : sys → A) : appends (read f).
Proof. intros σ b σ' [= <- <-]. split; [done|]. exists []. by rewrite app_nil_r. Qed.

Lemma appends_get : appends get.
Proof. intros σ b σ' [= <- <-]. split; [done|]. exists []. by rewrite app_nil_r. Qed.

Lemma appends_assert b : appends (assert b).
Proof. destruct b; [apply appends_ret|apply appends_fail]. Qed.

Lemma appends_if {A} (b : bool) (c1 c2 : M sys A) : appends c1 → appends c2 →
  appends (if b then c1 else c2).
Proof. by destruct b. Qed.

Lemma appends_bind {A B} (c : M sys A) (k : A → M sys B) :
  appends c → (∀ a, appends (k a)) → appends (bind c k).
Proof.
  intros Hc Hk σ b σ' H. unfold bind in H. destruct (c σ) as [[a σ1]|] eqn:E; [|done].
  destruct (Hc _ _ _ E) as (Hr1&xs&Hx), (Hk a _ _ _ H) as (Hr2&ys&Hy).
  split; [congruence|]. exists (xs ++ ys). by rewrite Hy, Hx, app_assoc.
Qed.

Lemma appends_look {A B} (f : sys → option A) (g : A → B) e :
  appends (λ σ, match f σ with Some x => Ok (g x, σ) | None => Err e end).
Proof.
  intros σ a σ' H. destruct (f σ); [|done]. injection H as <- <-. split; [done|].
  exists []. by rewrite app_nil_r.
Qed.

Lemma appends_modify f : (∀ σ, (f σ).(running) = σ.(running)) →
  (∀ σ, (f σ).(ready_list) = σ.(ready_list)) → appends (modify f).
Proof. intros H1 H2 σ b σ' [= <- <-]. rewrite H1, H2. split; [done|]. exists []. by rewrite app_nil_r. Qed.

Lemma appends_push ts : appends (modify (upd_ready (λ l, l ++ ts))).
Proof. intros σ b σ' [= <- <-]. eauto. Qed.

#[export] Hint Resolve appends_ret appends_fail appends_read appends_get appends_assert appends_if
  appends_bind appends_push : runq.
#[export] Hint Extern 2 (appends (modify _)) => (apply appends_modify; done) : runq.

Lemma appends_get_thread t : appends (get_thread t).
Proof. apply (appends_look (λ σ, σ.(threads) !! t) id). Qed.
Lemma appends_get_sema s : appends (get_sema s).
Proof. apply (appends_look (λ σ, σ.(semas) !! s) id). Qed.
Lemma appends_get_holder s : appends (get_holder s).
Proof. apply (appends_look (λ σ, σ.(holders) !! s) id). Qed.
Lemma appends_get_cond s : appends (get_cond s).
Proof. apply (appends_look (λ σ, σ.(conds) !! s) id). Qed.
#[export] Hint Resolve appends_get_thread appends_get_sema appends_get_holder appends_get_cond : runq.

(** Decomposes a computation into its primitives. *)
Ltac runq := repeat first
  [ progress (eauto 2 with runq)
  | apply appends_bind; [|intros ?]
  | apply appends_if
  | progress unfold set_sema, set_holder, set_cond, put_level, alter_thread, push, running_thread,
      is_thread, intr_get_level, intr_context, intr_disable, intr_enable, intr_set_level
  | case_match ].

Lemma appends_current : appends thread_current.
Proof. unfold thread_current. runq. Qed.
Lemma appends_unblock t : appends (thread_unblock t).
Proof. unfold thread_unblock. runq. Qed.
#[export] Hint Resolve appends_current appends_unblock : runq.
Lemma appends_up s : appends (sema_up s).
Proof. unfold sema_up. runq. Qed.
Lemma appends_try_down s : appends (sema_try_down s).
Proof. unfold sema_try_down. runq. Qed.
Lemma appends_held l : appends (lock_held_by_current_thread l).
Proof. unfold lock_held_by_current_thread. runq. Qed.
Lemma appends_init s v : appends (sema_init s v).
Proof. unfold sema_init. runq. Qed.
Lemma appends_tail p : appends (schedule_tail p).
Proof. unfold schedule_tail. runq. Qed.
Lemma appends_tick : appends thread_tick.
Proof. unfold thread_tick, intr_yield_on_return. runq. Qed.
#[export] Hint Resolve appends_up appends_try_down appends_held appends_init appends_tail appends_tick : runq.

(** ** Switches *)

Lemma disp_appends c : appends c → dispatches c.
Proof. intros Hc σ σ' H. destruct (Hc _ _ _ H) as (?&xs&?). exists xs. by left. Qed.

Lemma disp_bind {A} (c : M sys A) (k : A → M sys unit) :
  appends c → (∀ a, dispatches (k a)) → dispatches (bind c k).
Proof.
  intros Hc Hk σ σ' H. unfold bind in H. destruct (c σ) as [[a σ1]|] eqn:E; [|done].
  destruct (Hc _ _ _ E) as (Hr1&xs&Hx), (Hk a _ _ H) as (ys&Hy). rewrite Hx, Hr1 in Hy.
  exists (xs ++ ys). rewrite app_assoc. destruct Hy as [[-> ->]|Hy]; [by left|by right].
Qed.

Lemma tail_keeps p σ σ' : schedule_tail p σ = Ok (tt, σ') →
  σ'.(running) = σ.(running) ∧ σ'.(ready_list) = σ.(ready_list).
Proof.
  unfold schedule_tail. mon. destruct (bool_decide _); [|done].
  destruct (threads σ !! running σ) as [th|]; [|done]. mon. destruct (p =? 0); [by intros [= <-]|].
  destruct (<[_ := _]> _ !! p) as [tp|]; [|done]. mon.
  destruct (_ && _); [|by intros [= <-]]. destruct (negb _); [by intros [= <-]|done].
Qed.

Lemma disp_schedule : dispatches schedule.
Proof.
  intros σ σ'. unfold schedule. mon. rewrite b_run, next_thread_ok. mon.
  destruct (bool_decide _); [|done]. destruct (threads σ !! running σ) as [th|]; [|done]. mon.
  destruct (negb (bool_decide _)); [|done]. destruct (negb (_ =? _) && _); [|done].
  destruct (Z.eqb_spec (running σ) (hd (idle_thread σ) (ready_list σ))) as [En|En]; mon;
    intros [Hr Hx]%tail_keeps; cbn in Hr, Hx; exists []; rewrite app_nil_r, Hr, Hx;
    destruct (ready_list σ) as [|x r]; cbn in *; subst; auto.
Qed.

Lemma disp_if (b : bool) (c1 c2 : M sys unit) : dispatches c1 → dispatches c2 →
  dispatches (if b then c1 else c2).
Proof. by destruct b. Qed.

Ltac disp := repeat first
  [ apply disp_schedule
  | apply disp_appends; solve [runq]
  | apply disp_bind; [solve [runq]|intros ?]
  | apply disp_if ].

Lemma disp_yield : dispatches thread_yield.
Proof. unfold thread_yield. disp. Qed.
Lemma disp_block : dispatches thread_block.
Proof. unfold thread_block. disp. Qed.

Lemma disp_exec c : dispatches (exec c).
Proof.
  destruct c; cbn [exec]; try exact disp_yield;
    unfold sema_down, lock_acquire, lock_try_acquire, lock_release, cond_wait, cond_signal,
      cond_broadcast, broadcast_loop, thread_exit, thread_create, init_thread, thread_start, idle,
      sema_loop, lock_set_holder, allocate_tid, create_rest, up_info, thread_die, idle_loop;
    disp.
Qed.

Lemma disp_run : dispatches run_step.
Proof.
  intros σ σ' H. unfold run_step in H. destruct (threads σ !! running σ) as [th|]; [|done].
  destruct (stack th) as [|c k]; [done|]. apply disp_exec in H. exact H.
Qed.

Lemma disp_interrupt q : dispatches (interrupt q).
Proof.
  unfold interrupt, intr_handler. do 3 (apply disp_bind; [runq|intros _]).
  apply disp_bind; [destruct q; cbn; runq|intros _]. apply disp_if; [|disp].
  repeat (apply disp_bind; [runq|intros ?]). apply disp_if; [apply disp_yield|disp].
Qed.

Lemma disp_step L σ σ' : step L σ σ' →
  ∃ xs, (σ'.(running) = σ.(running) ∧ σ'.(ready_list) = σ.(ready_list) ++ xs) ∨
    (σ.(ready_list) ++ xs = σ'.(running) :: σ'.(ready_list)) ∨
    (σ.(ready_list) ++ xs = [] ∧ σ'.(ready_list) = []).
Proof.
  intros [σ1 th c k _ _ _ H|σ1 _ H|s σ1 _ _ _ _ H]; [by apply disp_run|by apply disp_interrupt in H..].
Qed.

(** An execution in which [t] never gets to run, with the number of changes of the running
    thread. *)
Inductive waiting (L : gset Z) (t : Z) : Z → sys → sys → Prop :=
  | waiting_refl σ : waiting L t 0 σ σ
  | waiting_step n σ σ1 σ' :
      step L σ σ1 → σ1.(running) ≠ t → waiting L t n σ1 σ' →
      waiting L t (n + Z.b2z (negb (σ1.(running) =? σ.(running)))) σ σ'.

(** Property C5.  Round robin is fair: a thread that has [n] threads in front of it in the run
    queue sees the running thread change at most [n] times before it runs itself,
    however threads yield, block, wake each other, exit and are interrupted in between. *)
Theorem bounded_waiting L t n m σ σ' :
  σ.(ready_list) !! n = Some t → waiting L t m σ σ' → m ≤ Z.of_nat n.
Proof.
  intros Hn Hw. revert n Hn. induction Hw as [σ|m σ σ1 σ' Hs Hr Hw IH]; intros n Hn; [lia|].
  destruct (disp_step _ _ _ Hs) as (xs&[[Hrun Hq]|[Hq|[Hq _]]]).
  - rewrite Hrun, Z.eqb_refl. cbn. specialize (IH n). rewrite Hq in IH.
    rewrite lookup_app_l in IH by (by eapply lookup_lt_Some). specialize (IH Hn). lia.
  - assert (Ha : (ready_list σ ++ xs) !! n = Some t).
    { rewrite lookup_app_l; [done|]. by eapply lookup_lt_Some. }
    rewrite Hq in Ha. destruct n as [|n]; cbn in Ha; [congruence|].
    specialize (IH n Ha). pose proof (b2z_bound (negb (running σ1 =? running σ))). lia.
  - apply app_eq_nil in Hq as [E _]. by rewrite E in Hn.
Qed.

(** Runs a scenario one step at a time and counts. *)
Fixpoint watch (t : Z) (tr : list (option irq)) (σ : sys) : option (Z * sys) :=
  match tr with
  | [] => Some (0, σ)
  | e :: tr =>
      match checked [e] σ with
      | Some σ1 =>
          if σ1.(running) =? t then None else
          match watch t tr σ1 with
          | Some (n, σ') => Some (n + Z.b2z (negb (σ1.(running) =? σ.(running))), σ')
          | None => None
          end
      | None => None
      end
  end.

Lemma checked_one L e σ σ' : checked [e] σ = Some σ' → step L σ σ'.
Proof.
  destruct e as [[|s]|]; cbn; [| done |].
  - destruct (decide _); [|done]. destruct (interrupt TimerIrq σ) as [[[] σ1]|] eqn:E; [|done].
    intros [= ->]. by eapply step_timer.
  - destruct (threads σ !! running σ) as [th|] eqn:Ht; [|done]. cbn.
    destruct (stack th) as [|c k] eqn:Hk; [done|]. destruct (freshb σ c) eqn:Hf; [|done].
    destruct (run_step σ) as [[[] σ1]|] eqn:E; [|done].
    intros [= ->]. eapply step_run; eauto. by apply freshb_ok.
Qed.

Lemma watch_waiting L t tr σ n σ' : watch t tr σ = Some (n, σ') → waiting L t n σ σ'.
Proof.
  revert σ n. induction tr as [|e tr IH]; intros σ n; [intros [= <- <-]; constructor|]. cbn [watch].
  destruct (checked [e] σ) as [σ1|] eqn:E; [|done]. destruct (Z.eqb_spec (running σ1) t); [done|].
  destruct (watch t tr σ1) as [[m σ2]|] eqn:Ew; [|done]. intros [= <- <-].
  eapply waiting_step; eauto using checked_one.
Qed.

(** In the scenario, main runs on for eight steps and two ticks while the thread it has created
    is first in the run queue; the running thread cannot change without that thread. *)
Definition watch_trace : list (option irq) :=
  replicate 4 None ++ [Some TimerIrq; None; Some TimerIrq; None; None; None].

Definition demo_created : sys := default demo (checked (replicate 9 None) demo).

Lemma bounded_waiting_witness : demo_created.(ready_list) !! 0%nat = Some 12288 ∧
  ∃ σ', watch 12288 watch_trace demo_created = Some (0, σ') ∧ 0 ≤ Z.of_nat 0.
Proof.
  assert (Hq : demo_created.(ready_list) !! 0%nat = Some 12288) by (vm_compute; reflexivity).
  assert (Hn : option_map fst (watch 12288 watch_trace demo_created) = Some 0) by (vm_compute; reflexivity).
  split; [done|]. destruct (watch 12288 watch_trace demo_created) as [[n σ']|] eqn:Hw; [|done].
  injection Hn as ->. exists σ'. split; [done|].
  apply (bounded_waiting demo_locks 12288 0 0 _ σ' Hq (watch_waiting _ _ _ _ _ _ Hw)).
Defined.
