(* ===== verification/DList.v ===== *)
(** * Doubly linked lists (lib/kernel/list.c)

    The intrusive lists every other part of the kernel is built on, at pointer level.
    A [struct list_elem] is its address; the memory is split by field, so that
    [hprev] and [hnext] map an element's address to the value of that field
    and a field that was never written is absent.  A [struct list] at address
    [l] has its [head] element at [l] and its [tail] element at [l + 8].
    [dlist h l xs] says that the memory [h] holds at [l] a well-formed list whose
    interior elements are [xs], in order; every operation is shown to take
    [dlist] to [dlist] as the sequence operation it stands for. *)

From S2P Require Import Prelude.
Local Open Scope c_scope.

Record heap := mkHeap { hprev : gmap Z Z; hnext : gmap Z Z }.

Definition set_prev (p v : Z) (h : heap) : heap :=
  mkHeap (<[p := v]> (hprev h)) (hnext h).
Definition set_next (p v : Z) (h : heap) : heap :=
  mkHeap (hprev h) (<[p := v]> (hnext h)).

(** Field accesses [p->prev] and [p->next]. *)
Definition ld_prev (p : Z) : M heap Z := λ h,
  match hprev h !! p with Some v => Ok (v, h) | None => Err Fault end.
Definition ld_next (p : Z) : M heap Z := λ h,
  match hnext h !! p with Some v => Ok (v, h) | None => Err Fault end.
Definition st_prev (p v : Z) : M heap unit := λ h,
  if p =? NULL then Err Fault else Ok (tt, set_prev p v h).
Definition st_next (p v : Z) : M heap unit := λ h,
  if p =? NULL then Err Fault else Ok (tt, set_next p v h).

(** [&list->head] and [&list->tail]. *)
Definition head_of (l : Z) : Z := l.
Definition tail_of (l : Z) : Z := l + 8.

(** Enough iterations for any walk over distinct elements of the memory. *)
Definition walk_fuel (h : heap) : nat := S (size (hnext h)).
Definition walk {A B} (body : A → M heap (A + B)) (a : A) : M heap B :=
  λ h, iter (walk_fuel h) body a h.

(** ** The operations of list.c *)

Definition is_head (elem : Z) : M heap bool :=
  if elem =? NULL then ret false
  else p <- ld_prev elem ;;
       if negb (p =? NULL) then ret false
       else n <- ld_next elem ;; ret (negb (n =? NULL)).

Definition is_interior (elem : Z) : M heap bool :=
  if elem =? NULL then ret false
  else p <- ld_prev elem ;;
       if p =? NULL then ret false
       else n <- ld_next elem ;; ret (negb (n =? NULL)).

Definition is_tail (elem : Z) : M heap bool :=
  if elem =? NULL then ret false
  else p <- ld_prev elem ;;
       if p =? NULL then ret false
       else n <- ld_next elem ;; ret (n =? NULL).

(** [a || b] with short-circuit evaluation. *)
Definition orM (a b : M heap bool) : M heap bool :=
  x <- a ;; if x : bool then ret true else b.

Definition list_init (l : Z) : M heap unit :=
  assert (negb (l =? NULL)) ;;
  st_prev (head_of l) NULL ;;
  st_next (head_of l) (tail_of l) ;;
  st_prev (tail_of l) (head_of l) ;;
  st_next (tail_of l) NULL.

Definition list_begin (l : Z) : M heap Z :=
  assert (negb (l =? NULL)) ;; ld_next (head_of l).

Definition list_next (elem : Z) : M heap Z :=
  b <- orM (is_head elem) (is_interior elem) ;;
  assert b ;;
  ld_next elem.

Definition list_end (l : Z) : M heap Z :=
  assert (negb (l =? NULL)) ;; ret (tail_of l).

Definition list_rbegin (l : Z) : M heap Z :=
  assert (negb (l =? NULL)) ;; ld_prev (tail_of l).

Definition list_prev (elem : Z) : M heap Z :=
  b <- orM (is_interior elem) (is_tail elem) ;;
  assert b ;;
  ld_prev elem.

Definition list_rend (l : Z) : M heap Z :=
  assert (negb (l =? NULL)) ;; ret (head_of l).

Definition list_head (l : Z) : M heap Z :=
  assert (negb (l =? NULL)) ;; ret (head_of l).

Definition list_tail (l : Z) : M heap Z :=
  assert (negb (l =? NULL)) ;; ret (tail_of l).

Definition list_insert (before elem : Z) : M heap unit :=
  b <- orM (is_interior before) (is_tail before) ;;
  assert b ;;
  assert (negb (elem =? NULL)) ;;
  p <- ld_prev before ;;
  st_prev elem p ;;
  st_next elem before ;;
  p <- ld_prev before ;;
  st_next p elem ;;
  st_prev before elem.

Definition list_splice (before first last : Z) : M heap unit :=
  b <- orM (is_interior before) (is_tail before) ;;
  assert b ;;
  if first =? last then ret tt
  else
    last <- list_prev last ;;
    b <- is_interior first ;;
    assert b ;;
    b <- is_interior last ;;
    assert b ;;
    (* Cleanly remove FIRST...LAST from its current list. *)
    fp <- ld_prev first ;;
    ln <- ld_next last ;;
    st_next fp ln ;;
    ln <- ld_next last ;;
    fp <- ld_prev first ;;
    st_prev ln fp ;;
    (* Splice FIRST...LAST into new list. *)
    bp <- ld_prev before ;;
    st_prev first bp ;;
    st_next last before ;;
    bp <- ld_prev before ;;
    st_next bp first ;;
    st_prev before last.

Definition list_push_front (l elem : Z) : M heap unit :=
  b <- list_begin l ;; list_insert b elem.

Definition list_push_back (l elem : Z) : M heap unit :=
  e <- list_end l ;; list_insert e elem.

Definition list_remove (elem : Z) : M heap Z :=
  b <- is_interior elem ;;
  assert b ;;
  p <- ld_prev elem ;;
  n <- ld_next elem ;;
  st_next p n ;;
  n <- ld_next elem ;;
  p <- ld_prev elem ;;
  st_prev n p ;;
  ld_next elem.

Definition list_empty (l : Z) : M heap bool :=
  b <- list_begin l ;; e <- list_end l ;; ret (b =? e).

Definition list_front (l : Z) : M heap Z :=
  e <- list_empty l ;; assert (negb e) ;; ld_next (head_of l).

Definition list_back (l : Z) : M heap Z :=
  e <- list_empty l ;; assert (negb e) ;; ld_prev (tail_of l).

Definition list_pop_front (l : Z) : M heap Z :=
  front <- list_front l ;; list_remove front ;; ret front.

Definition list_pop_back (l : Z) : M heap Z :=
  back <- list_back l ;; list_remove back ;; ret back.

Definition list_size (l : Z) : M heap Z :=
  e <- list_begin l ;;
  walk (λ '(e, cnt),
    z <- list_end l ;;
    if e =? z then ret (inr cnt)
    else e' <- list_next e ;; ret (inl (e', u32 (cnt + 1)))) (e, 0).

(** [swap] on the two fields of one element, and on fields of two elements. *)
Definition swap_prev_next (e : Z) : M heap unit :=
  t <- ld_prev e ;; n <- ld_next e ;; st_prev e n ;; st_next e t.
Definition swap_next_prev (a b : Z) : M heap unit :=
  t <- ld_next a ;; v <- ld_prev b ;; st_next a v ;; st_prev b t.
Definition swap_prev_next2 (a b : Z) : M heap unit :=
  t <- ld_prev a ;; v <- ld_next b ;; st_prev a v ;; st_next b t.

Definition list_reverse (l : Z) : M heap unit :=
  em <- list_empty l ;;
  if em : bool then ret tt
  else
    e <- list_begin l ;;
    walk (λ e,
      z <- list_end l ;;
      if e =? z then ret (inr tt)
      else swap_prev_next e ;; e' <- ld_prev e ;; ret (inl e')) e ;;
    swap_next_prev (head_of l) (tail_of l) ;;
    hn <- ld_next (head_of l) ;;
    tp <- ld_prev (tail_of l) ;;
    swap_prev_next2 hn tp.

(** The ordered operations take the comparison [less (a, b, aux)] of the client. *)
Section Ordered.
Context (less : Z → Z → bool).

Definition is_sorted (a b : Z) : M heap bool :=
  if a =? b then ret true
  else
    walk (λ a,
      a <- list_next a ;;
      if a =? b then ret (inr true)
      else
        p <- list_prev a ;;
        if less a p then ret (inr false) else ret (inl a)) a.

Definition find_end_of_run (a b : Z) : M heap Z :=
  assert (negb (a =? NULL)) ;;
  assert (negb (b =? NULL)) ;;
  assert (negb (a =? b)) ;;
  walk (λ a,
    a <- list_next a ;;
    if a =? b then ret (inr a)
    else
      p <- list_prev a ;;
      if less a p then ret (inr a) else ret (inl a)) a.

Definition inplace_merge (a0 a1b0 b1 : Z) : M heap unit :=
  assert (negb (a0 =? NULL)) ;;
  assert (negb (a1b0 =? NULL)) ;;
  assert (negb (b1 =? NULL)) ;;
  s <- is_sorted a0 a1b0 ;;
  assert s ;;
  s <- is_sorted a1b0 b1 ;;
  assert s ;;
  walk (λ '(a0, a1b0),
    if (a0 =? a1b0) || (a1b0 =? b1) then ret (inr tt)
    else if negb (less a1b0 a0) then
      a0 <- list_next a0 ;; ret (inl (a0, a1b0))
    else
      a1b0 <- list_next a1b0 ;;
      p <- list_prev a1b0 ;;
      list_splice a0 p a1b0 ;;
      ret (inl (a0, a1b0))) (a0, a1b0).

(** One pass of the outer [do] loop: the number of output runs. *)
Definition sort_pass (l : Z) : M heap Z :=
  a0 <- list_begin l ;;
  walk (λ '(a0, output_run_cnt),
    z <- list_end l ;;
    if a0 =? z then ret (inr output_run_cnt)
    else
      let output_run_cnt := u32 (output_run_cnt + 1) in
      a1b0 <- find_end_of_run a0 z ;;
      if a1b0 =? z then ret (inr output_run_cnt)
      else
        b1 <- find_end_of_run a1b0 z ;;
        inplace_merge a0 a1b0 b1 ;;
        ret (inl (b1, output_run_cnt))) (a0, 0).

Definition list_sort (l : Z) : M heap unit :=
  assert (negb (l =? NULL)) ;;
  walk (λ _ : unit,
    output_run_cnt <- sort_pass l ;;
    if 1 <? output_run_cnt then ret (inl tt) else ret (inr tt)) tt ;;
  b <- list_begin l ;;
  e <- list_end l ;;
  s <- is_sorted b e ;;
  assert s.

Definition list_insert_ordered (l elem : Z) : M heap unit :=
  assert (negb (l =? NULL)) ;;
  assert (negb (elem =? NULL)) ;;
  e <- list_begin l ;;
  e <- walk (λ e,
    z <- list_end l ;;
    if e =? z then ret (inr e)
    else if less elem e then ret (inr e)
    else e <- list_next e ;; ret (inl e)) e ;;
  list_insert e elem.

(** [duplicates] is [NULL] when the caller wants no list of the removed elements. *)
Definition list_unique (l duplicates : Z) : M heap unit :=
  assert (negb (l =? NULL)) ;;
  em <- list_empty l ;;
  if em : bool then ret tt
  else
    elem <- list_begin l ;;
    walk (λ elem,
      next <- list_next elem ;;
      z <- list_end l ;;
      if next =? z then ret (inr tt)
      else if negb (less elem next) && negb (less next elem) then
        list_remove next ;;
        (if negb (duplicates =? NULL) then list_push_back duplicates next else ret tt) ;;
        ret (inl elem)
      else ret (inl next)) elem.

Definition list_max (l : Z) : M heap Z :=
  max <- list_begin l ;;
  z <- list_end l ;;
  if max =? z then ret max
  else
    e <- list_next max ;;
    walk (λ '(e, max),
      z <- list_end l ;;
      if e =? z then ret (inr max)
      else
        let max := if less max e then e else max in
        e <- list_next e ;; ret (inl (e, max))) (e, max).

Definition list_min (l : Z) : M heap Z :=
  min <- list_begin l ;;
  z <- list_end l ;;
  if min =? z then ret min
  else
    e <- list_next min ;;
    walk (λ '(e, min),
      z <- list_end l ;;
      if e =? z then ret (inr min)
      else
        let min := if less e min then e else min in
        e <- list_next e ;; ret (inl (e, min))) (e, min).
End Ordered.

(** Smoke test: three elements pushed, sorted by address, popped. *)
Example list_smoke :
  match (list_init 100 ;;
         list_push_back 100 40 ;; list_push_back 100 20 ;; list_push_front 100 30 ;;
         list_sort Z.ltb 100 ;;
         n <- list_size 100 ;;
         list_reverse 100 ;;
         a <- list_pop_front 100 ;; b <- list_pop_front 100 ;; c <- list_pop_back 100 ;;
         e <- list_empty 100 ;;
         ret (n, a, b, c, e)) (mkHeap ∅ ∅) with
  | Ok (r, _) => r = (3, 40, 30, 20, true)
  | Err _ => False
  end.
Proof. vm_compute. reflexivity. Qed.

(** ** The representation predicate *)

Definition link (h : heap) (a b : Z) : Prop :=
  hnext h !! a = Some b ∧ hprev h !! b = Some a.

(** Consecutive elements of [ns] point at each other. *)
Fixpoint seg (h : heap) (ns : list Z) : Prop :=
  match ns with
  | a :: ((b :: _) as t) => link h a b ∧ seg h t
  | _ => True
  end.

Definition joined (h : heap) (oa ob : option Z) : Prop :=
  match oa, ob with Some a, Some b => link h a b | _, _ => True end.

Definition nodes (l : Z) (xs : list Z) : list Z := head_of l :: xs ++ [tail_of l].

Record dlist (h : heap) (l : Z) (xs : list Z) : Prop := {
  dl_seg : seg h (nodes l xs);
  dl_head : hprev h !! head_of l = Some NULL;
  dl_tail : hnext h !! tail_of l = Some NULL;
  dl_nodup : NoDup (nodes l xs);
  dl_null : NULL ∉ nodes l xs;
}.

(** The element an iterator standing before [zs] points at. *)
Definition first_of (l : Z) (zs : list Z) : Z := default (tail_of l) (head zs).
(** The element an iterator standing after [ys] points at. *)
Definition last_of (l : Z) (ys : list Z) : Z := default (head_of l) (last ys).

(** Memory outside the nodes [ns] is unchanged. *)
Definition agree_off (ns : list Z) (h h' : heap) : Prop :=
  ∀ p, p ∉ ns → hprev h' !! p = hprev h !! p ∧ hnext h' !! p = hnext h !! p.

Lemma seg_cons h a ns : seg h (a :: ns) ↔ joined h (Some a) (head ns) ∧ seg h ns.
Proof. destruct ns; simpl; tauto. Qed.

Lemma seg_app h xs ys :
  seg h (xs ++ ys) ↔ seg h xs ∧ seg h ys ∧ joined h (last xs) (head ys).
Proof.
  induction xs as [|a xs IH]; simpl app.
  - simpl. destruct (head ys); tauto.
  - rewrite !seg_cons, IH. destruct xs as [|b xs]; simpl head; simpl last; [simpl; tauto|].
    tauto.
Qed.

Lemma seg_ext h h' ns :
  NoDup ns → seg h ns →
  (∀ a, a ∈ ns → last ns ≠ Some a → hnext h' !! a = hnext h !! a) →
  (∀ a, a ∈ ns → head ns ≠ Some a → hprev h' !! a = hprev h !! a) →
  seg h' ns.
Proof.
  induction ns as [|a ns IH]; [done|]. rewrite NoDup_cons.
  intros [Ha Hnd] Hs Hn Hp. rewrite seg_cons in Hs |- *. destruct Hs as [Hj Hs]. split.
  - destruct ns as [|b ns]; [done|]. simpl in *. destruct Hj as [H1 H2]. split.
    + rewrite Hn; [done|set_solver|]. intros Hl.
      apply Ha. by apply last_Some_elem_of.
    + rewrite Hp; [done|set_solver|]. intros [= ->]. set_solver.
  - apply IH; [done..| |].
    + intros x Hx Hl. apply Hn; [set_solver|]. destruct ns; [set_solver|]. done.
    + intros x Hx Hh. apply Hp; [set_solver|]. intros [= ->]. done.
Qed.

Lemma seg_agree h h' ns ms :
  agree_off ms h h' → (∀ a, a ∈ ns → a ∉ ms) → seg h ns → seg h' ns.
Proof.
  intros Hag Hd. induction ns as [|a ns IH]; [done|]. rewrite !seg_cons. intros [Hj Hs].
  split; [|apply IH; [set_solver|done]]. destruct ns as [|b ns]; [done|]. simpl in *.
  destruct (Hag a) as [_ Ha]; [set_solver|]. destruct (Hag b) as [Hb _]; [set_solver|].
  unfold link in *. by rewrite Ha, Hb.
Qed.

(** A list none of whose nodes is in [ms] survives changes confined to [ms]. *)
Lemma dlist_agree h h' l xs ms :
  agree_off ms h h' → (∀ a, a ∈ nodes l xs → a ∉ ms) → dlist h l xs → dlist h' l xs.
Proof.
  intros Hag Hd [H1 H2 H3 H4 H5]. split; [by eapply seg_agree| | |done..].
  - destruct (Hag (head_of l)) as [-> _]; [apply Hd; set_solver|done].
  - destruct (Hag (tail_of l)) as [_ ->]; [|done]. apply Hd. unfold nodes. set_solver.
Qed.

(** ** Reading the list *)

Lemma ld_next_ok h p v : hnext h !! p = Some v → ld_next p h = Ok (v, h).
Proof. unfold ld_next. by intros ->. Qed.
Lemma ld_prev_ok h p v : hprev h !! p = Some v → ld_prev p h = Ok (v, h).
Proof. unfold ld_prev. by intros ->. Qed.
Lemma st_next_ok h p v : p ≠ NULL → st_next p v h = Ok (tt, set_next p v h).
Proof. unfold st_next. intros H. by destruct (Z.eqb_spec p NULL). Qed.
Lemma st_prev_ok h p v : p ≠ NULL → st_prev p v h = Ok (tt, set_prev p v h).
Proof. unfold st_prev. intros H. by destruct (Z.eqb_spec p NULL). Qed.

(** One step of a computation whose head is a field access or an assertion. *)
Ltac mstep :=
  erewrite bind_Ok;
  [| first [ apply ld_next_ok; eassumption
           | apply ld_prev_ok; eassumption
           | apply st_next_ok; eassumption
           | apply st_prev_ok; eassumption
           | apply assert_true; first [eassumption | reflexivity] ] ].

Lemma neqb p q : p ≠ q → (p =? q) = false.
Proof. apply Z.eqb_neq. Qed.

Section Reading.
Context (h : heap) (l : Z) (xs : list Z) (Hdl : dlist h l xs).

Lemma nodes_app ys zs : nodes l (ys ++ zs) = (head_of l :: ys) ++ (zs ++ [tail_of l]).
Proof. unfold nodes. by rewrite <- app_assoc. Qed.

Lemma nodes_nonnull a : a ∈ nodes l xs → a ≠ NULL.
Proof. intros Ha ->. by apply (dl_null _ _ _ Hdl). Qed.

Lemma list_nonnull : l ≠ NULL.
Proof. apply nodes_nonnull. unfold nodes, head_of. set_solver. Qed.

Lemma seg_link A a b C : nodes l xs = A ++ a :: b :: C → link h a b ∧ a ≠ NULL ∧ b ≠ NULL.
Proof.
  intros E. pose proof (dl_seg _ _ _ Hdl) as Hs. rewrite E in Hs.
  apply seg_app in Hs as (_ & [Hl _] & _).
  split; [done|]. split; apply nodes_nonnull; rewrite E; set_solver.
Qed.

(** The element at a position with both neighbours. *)
Lemma interior_at A p e n C :
  nodes l xs = A ++ p :: e :: n :: C → is_interior e h = Ok (true, h).
Proof.
  intros E.
  destruct (seg_link A p e (n :: C) E) as ([_ Hp] & Hp0 & He0).
  destruct (seg_link (A ++ [p]) e n C) as ([Hn _] & _ & Hn0).
  { by rewrite E, <- app_assoc. }
  unfold is_interior. rewrite neqb by done. mstep. rewrite neqb by done. mstep.
  by rewrite neqb.
Qed.

Lemma nodes_first A a C : nodes l xs = A ++ a :: C → hprev h !! a = Some NULL → A = [].
Proof.
  intros E Ha. destruct A as [|b A _] using rev_ind; [done|]. exfalso.
  rewrite <- app_assoc in E. destruct (seg_link A b a C E) as ([_ H] & Hb & _). congruence.
Qed.

Lemma list_next_at A a b C : nodes l xs = A ++ a :: b :: C → list_next a h = Ok (b, h).
Proof.
  intros E. destruct (seg_link A a b C E) as ([Hn Hp] & Ha & Hb).
  unfold list_next.
  assert (orM (is_head a) (is_interior a) h = Ok (true, h)) as Hor.
  { unfold orM. destruct A as [|p A _] using rev_ind.
    - simpl in E. assert (a = head_of l) as -> by (by injection E).
      assert (is_head (head_of l) h = Ok (true, h)) as Hh.
      { unfold is_head. rewrite neqb by done.
        rewrite (bind_Ok _ _ _ _ _ (ld_prev_ok _ _ _ (dl_head _ _ _ Hdl))).
        change (NULL =? NULL) with true. cbn [negb]. mstep. by rewrite neqb. }
      by rewrite (bind_Ok _ _ _ _ _ Hh).
    - rewrite <- app_assoc in E. destruct (seg_link A p a _ E) as ([_ Hpa] & Hp0 & _).
      assert (is_head a h = Ok (false, h)) as Hh.
      { unfold is_head. rewrite neqb by done. mstep. by rewrite neqb. }
      rewrite (bind_Ok _ _ _ _ _ Hh). by apply (interior_at A p a b C). }
  rewrite (bind_Ok _ _ _ _ _ Hor). mstep. by apply ld_next_ok.
Qed.

Lemma nodes_last A a : nodes l xs = A ++ [a] → a = tail_of l.
Proof. unfold nodes. intros E. apply (app_inj_2 (head_of l :: xs)) in E as [_ E]; [|done]. congruence. Qed.

Lemma before_ok A p b C :
  nodes l xs = A ++ p :: b :: C → orM (is_interior b) (is_tail b) h = Ok (true, h).
Proof.
  intros E. destruct (seg_link A p b C E) as ([_ Hp] & Hp0 & Hb0). unfold orM.
  destruct C as [|n C].
  - assert (b = tail_of l) as -> by (apply (nodes_last (A ++ [p])); by rewrite <- app_assoc).
    pose proof (dl_tail _ _ _ Hdl) as Ht.
    assert (is_interior (tail_of l) h = Ok (false, h)) as Hi.
    { unfold is_interior. rewrite neqb by done. mstep. rewrite neqb by done. mstep. done. }
    rewrite (bind_Ok _ _ _ _ _ Hi). unfold is_tail.
    rewrite neqb by done. mstep. rewrite neqb by done. mstep. done.
  - assert (is_interior b h = Ok (true, h)) as Hi by (by apply (interior_at A p b n C)).
    by rewrite (bind_Ok _ _ _ _ _ Hi).
Qed.

Lemma list_prev_at A a b C : nodes l xs = A ++ a :: b :: C → list_prev b h = Ok (a, h).
Proof.
  intros E. destruct (seg_link A a b C E) as ([_ Hp] & _ & _).
  unfold list_prev. rewrite (bind_Ok _ _ _ _ _ (before_ok A a b C E)). mstep.
  by apply ld_prev_ok.
Qed.

Lemma list_end_ok : list_end l h = Ok (tail_of l, h).
Proof.
  unfold list_end. rewrite neqb by apply list_nonnull. done.
Qed.

Lemma list_begin_ok : list_begin l h = Ok (first_of l xs, h).
Proof.
  unfold list_begin. rewrite neqb by apply list_nonnull. cbn [negb]. mstep.
  apply ld_next_ok. pose proof (dl_seg _ _ _ Hdl) as Hs. unfold nodes in Hs.
  rewrite seg_cons in Hs. destruct Hs as [Hj _]. unfold first_of.
  destruct xs; apply Hj.
Qed.

Lemma tail_not_in : tail_of l ∉ xs.
Proof.
  pose proof (dl_nodup _ _ _ Hdl) as Hnd. unfold nodes in Hnd.
  apply NoDup_cons in Hnd as [_ Hnd]. apply NoDup_app in Hnd as (_ & Hd & _).
  intros Hin. apply (Hd _ Hin). set_solver.
Qed.

Lemma list_empty_ok : list_empty l h = Ok (bool_decide (xs = []), h).
Proof.
  unfold list_empty. rewrite (bind_Ok _ _ _ _ _ list_begin_ok).
  rewrite (bind_Ok _ _ _ _ _ list_end_ok). unfold ret. do 2 f_equal.
  pose proof tail_not_in as Hni. unfold first_of.
  destruct xs as [|x xs']; [by rewrite Z.eqb_refl|].
  simpl. apply neqb. intros ->. set_solver.
Qed.
End Reading.

(** ** Linking and unlinking *)

Lemma first_of_head l zs : head (zs ++ [tail_of l]) = Some (first_of l zs).
Proof. by destruct zs. Qed.
Lemma last_of_last l ys : last (head_of l :: ys) = Some (last_of l ys).
Proof. unfold last_of. induction ys as [|y ys _] using rev_ind; [done|]. by rewrite app_comm_cons, !last_snoc. Qed.
Lemma first_of_in l zs : first_of l zs ∈ zs ++ [tail_of l].
Proof. apply head_Some_elem_of, first_of_head. Qed.
Lemma last_of_in l ys : last_of l ys ∈ head_of l :: ys.
Proof. apply last_Some_elem_of, last_of_last. Qed.

Lemma head_in l ys : head_of l ∈ head_of l :: ys.
Proof. apply list_elem_of_here. Qed.
Lemma tail_in l zs : tail_of l ∈ zs ++ [tail_of l].
Proof. apply elem_of_app. right. apply list_elem_of_here. Qed.

Lemma nodes_at l ys zs :
  ∃ A C, head_of l :: ys = A ++ [last_of l ys] ∧ zs ++ [tail_of l] = first_of l zs :: C ∧
         nodes l (ys ++ zs) = A ++ last_of l ys :: first_of l zs :: C.
Proof.
  destruct (last_Some (head_of l :: ys) (last_of l ys)) as [HA _].
  destruct (HA (last_of_last l ys)) as [A EA].
  destruct (head_Some (zs ++ [tail_of l]) (first_of l zs)) as [HC _].
  destruct (HC (first_of_head l zs)) as [C EC].
  exists A, C. split_and!; [done..|]. by rewrite nodes_app, EA, EC, <- app_assoc.
Qed.

(** A list split at an iterator, with everything that the link-level proofs use. *)
Lemma dlist_split h l ys zs :
  dlist h l (ys ++ zs) ↔
  seg h (head_of l :: ys) ∧ seg h (zs ++ [tail_of l]) ∧
  link h (last_of l ys) (first_of l zs) ∧
  hprev h !! head_of l = Some NULL ∧ hnext h !! tail_of l = Some NULL ∧
  NoDup (head_of l :: ys) ∧ (∀ a, a ∈ head_of l :: ys → a ∉ zs ++ [tail_of l]) ∧
  NoDup (zs ++ [tail_of l]) ∧ NULL ∉ head_of l :: ys ∧ NULL ∉ zs ++ [tail_of l].
Proof.
  assert (seg h (nodes l (ys ++ zs)) ↔
          seg h (head_of l :: ys) ∧ seg h (zs ++ [tail_of l]) ∧
          link h (last_of l ys) (first_of l zs)) as Hseg.
  { rewrite nodes_app, seg_app, last_of_last, first_of_head. done. }
  assert (NoDup (nodes l (ys ++ zs)) ↔ NoDup (head_of l :: ys) ∧
          (∀ a, a ∈ head_of l :: ys → a ∉ zs ++ [tail_of l]) ∧ NoDup (zs ++ [tail_of l])) as Hnd.
  { rewrite nodes_app. apply NoDup_app. }
  assert (NULL ∉ nodes l (ys ++ zs) ↔ NULL ∉ head_of l :: ys ∧ NULL ∉ zs ++ [tail_of l]) as Hnl.
  { rewrite nodes_app, elem_of_app. tauto. }
  split.
  - intros [H1 H2 H3 H4 H5]. tauto.
  - intros H. split; tauto.
Qed.

(** Updates at the end of a segment, or outside it, do not break it. *)
Lemma seg_set_next h p v ns :
  NoDup ns → p ∉ ns ∨ last ns = Some p → seg h ns → seg (set_next p v h) ns.
Proof.
  intros Hnd Hp Hs. apply (seg_ext h); [done..| |done].
  intros a Ha Hl. simpl. apply lookup_insert_ne. intros ->. by destruct Hp.
Qed.

Lemma seg_set_prev h p v ns :
  NoDup ns → p ∉ ns ∨ head ns = Some p → seg h ns → seg (set_prev p v h) ns.
Proof.
  intros Hnd Hp Hs. apply (seg_ext h); [done..|done|].
  intros a Ha Hl. simpl. apply lookup_insert_ne. intros ->. by destruct Hp.
Qed.

Lemma agree_refl ns h : agree_off ns h h.
Proof. done. Qed.

Lemma agree_set_next ns h h' p v :
  p ∈ ns → agree_off ns h h' → agree_off ns h (set_next p v h').
Proof.
  intros Hp Hag q Hq. destruct (Hag q Hq) as [H1 H2]. split; [done|].
  simpl. rewrite lookup_insert_ne; [done|]. congruence.
Qed.

Lemma agree_set_prev ns h h' p v :
  p ∈ ns → agree_off ns h h' → agree_off ns h (set_prev p v h').
Proof.
  intros Hp Hag q Hq. destruct (Hag q Hq) as [H1 H2]. split; [|done].
  simpl. rewrite lookup_insert_ne; [done|]. congruence.
Qed.

Lemma agree_trans ns h1 h2 h3 : agree_off ns h1 h2 → agree_off ns h2 h3 → agree_off ns h1 h3.
Proof.
  intros H1 H2 q Hq. destruct (H1 q Hq), (H2 q Hq). split; congruence.
Qed.

Lemma agree_mono ns ms h h' : (∀ a, a ∈ ns → a ∈ ms) → agree_off ns h h' → agree_off ms h h'.
Proof. intros Hsub Hag q Hq. apply Hag. auto. Qed.

(** Computes lookups in an updated memory; the disequalities between the addresses
    involved are in the context. *)
Ltac heap_simpl :=
  cbn [hprev hnext set_prev set_next];
  repeat first
    [ rewrite lookup_insert_eq
    | rewrite lookup_insert_ne by congruence ].
Ltac seg_update :=
  repeat (first [apply seg_set_next | apply seg_set_prev];
          [done|first [left; done | right; congruence]|]); try done.
Ltac agree_update :=
  repeat first [apply agree_set_next | apply agree_set_prev]; try apply agree_refl.

Lemma list_insert_ok h l ys zs e :
  dlist h l (ys ++ zs) → e ≠ NULL → e ∉ nodes l (ys ++ zs) →
  ∃ h', list_insert (first_of l zs) e h = Ok (tt, h') ∧ dlist h' l (ys ++ e :: zs) ∧
        agree_off (e :: nodes l (ys ++ zs)) h h'.
Proof.
  intros Hdl He Hfresh.
  destruct (nodes_at l ys zs) as (A & C & EA & EC & EN).
  pose proof (before_ok h l _ Hdl A (last_of l ys) (first_of l zs) C EN) as Hbef.
  destruct (seg_link h l _ Hdl A (last_of l ys) (first_of l zs) C EN) as ([Hn Hp] & Hp0 & Hb0).
  pose proof (proj1 (dlist_split h l ys zs) Hdl)
    as (Hs1 & Hs2 & Hl & Hhd & Htl & Hnd1 & Hdisj & Hnd2 & Hn1 & Hn2).
  rewrite nodes_app in *. apply not_elem_of_app in Hfresh as [Hf1 Hf2].
  pose proof (last_of_in l ys) as Hpin. pose proof (first_of_in l zs) as Hbin.
  pose proof (last_of_last l ys) as Hpl. pose proof (first_of_head l zs) as Hbh.
  set (p := last_of l ys) in *. set (b := first_of l zs) in *.
  pose proof (Hdisj _ Hpin) as Hp2.
  assert (Hb1 : b ∉ head_of l :: ys) by (intros H; by apply (Hdisj b)).
  assert (p ≠ b) by congruence. assert (e ≠ p) by congruence. assert (e ≠ b) by congruence.
  pose proof (head_in l ys). pose proof (tail_in l zs).
  eexists. split.
  { unfold list_insert. rewrite (bind_Ok _ _ _ _ _ Hbef). mstep.
    rewrite (neqb e) by done. cbn [negb]. mstep. mstep. mstep. mstep.
    erewrite bind_Ok; [|apply ld_prev_ok; heap_simpl; exact Hp]. mstep.
    by apply st_prev_ok. }
  split.
  - apply dlist_split. split_and!; [by seg_update| | | | |done| | | |].
    + change ((e :: zs) ++ [tail_of l]) with ([e] ++ (zs ++ [tail_of l])).
      rewrite seg_app, Hbh. split_and!; [done|by seg_update|]. split; by heap_simpl.
    + change (first_of l (e :: zs)) with e. fold p. split; by heap_simpl.
    + by heap_simpl.
    + by heap_simpl.
    + intros a Ha Hin. apply elem_of_cons in Hin as [->|Hin]; [done|]. by apply (Hdisj a).
    + by apply NoDup_cons.
    + done.
    + intros Hin. apply elem_of_cons in Hin as [?|?]; [congruence|done].
  - agree_update; rewrite elem_of_cons, elem_of_app; tauto.
Qed.

Lemma list_remove_ok h l ys e zs :
  dlist h l (ys ++ e :: zs) →
  ∃ h', list_remove e h = Ok (first_of l zs, h') ∧ dlist h' l (ys ++ zs) ∧
        agree_off (nodes l (ys ++ zs)) h h' ∧ hnext h' !! e = Some (first_of l zs).
Proof.
  intros Hdl.
  destruct (nodes_at l ys zs) as (A & C & EA & EC & EN).
  assert (EN' : nodes l (ys ++ e :: zs) = A ++ last_of l ys :: e :: first_of l zs :: C).
  { rewrite nodes_app, EA, <- app_assoc. simpl. by rewrite EC. }
  pose proof (interior_at h l _ Hdl A _ e _ C EN') as Hint.
  destruct (seg_link h l _ Hdl A _ e _ EN') as ([Hpn Hep] & Hp0 & He0).
  destruct (seg_link h l _ Hdl (A ++ [last_of l ys]) e (first_of l zs) C) as ([Hen Hnp] & _ & Hn0).
  { by rewrite EN', <- app_assoc. }
  pose proof (proj1 (dlist_split h l ys (e :: zs)) Hdl)
    as (Hs1 & Hs2 & Hl & Hhd & Htl & Hnd1 & Hdisj & Hnd2 & Hn1 & Hn2).
  cbn [app] in Hs2, Hdisj, Hnd2, Hn2. apply NoDup_cons in Hnd2 as [He Hnd2].
  rewrite seg_cons in Hs2. destruct Hs2 as [_ Hs2].
  pose proof (last_of_in l ys) as Hpin. pose proof (first_of_in l zs) as Hnin.
  pose proof (last_of_last l ys) as Hpl. pose proof (first_of_head l zs) as Hnh.
  set (p := last_of l ys) in *. set (n := first_of l zs) in *.
  assert (Hp2 : p ∉ zs ++ [tail_of l]).
  { intros H. apply (Hdisj p Hpin). by right. }
  assert (Hn1' : n ∉ head_of l :: ys).
  { intros H. apply (Hdisj n H). by right. }
  assert (p ≠ n) by congruence. assert (e ≠ n) by congruence.
  assert (e ≠ p) by (intros ->; apply (Hdisj p Hpin); left).
  pose proof (head_in l ys). pose proof (tail_in l zs).
  eexists. split.
  { unfold list_remove. rewrite (bind_Ok _ _ _ _ _ Hint). mstep. mstep. mstep. mstep.
    erewrite bind_Ok; [|apply ld_next_ok; heap_simpl; exact Hen].
    erewrite bind_Ok; [|apply ld_prev_ok; heap_simpl; exact Hep]. mstep.
    apply ld_next_ok. by heap_simpl. }
  split; [|split; [|by heap_simpl]].
  - apply dlist_split. split_and!; [by seg_update|by seg_update| | | |done| |done|done|].
    + split; by heap_simpl.
    + by heap_simpl.
    + by heap_simpl.
    + intros a Ha Hin. apply (Hdisj a Ha). by right.
    + intros Hin. apply Hn2. by right.
  - rewrite nodes_app. agree_update; rewrite elem_of_app; tauto.
Qed.

(** ** Queue and stack operations *)

Lemma list_init_ok h l :
  l ≠ NULL → tail_of l ≠ NULL →
  ∃ h', list_init l h = Ok (tt, h') ∧ dlist h' l [] ∧ agree_off (nodes l []) h h'.
Proof.
  intros Hl Ht. assert (head_of l ≠ tail_of l) by (unfold head_of, tail_of; lia).
  assert (head_of l ≠ NULL) by done.
  eexists. split.
  { unfold list_init. rewrite neqb by done. cbn [negb]. mstep. mstep. mstep. mstep.
    by apply st_next_ok. }
  split.
  - split; cbn [nodes app].
    + split; [|done]. split; by heap_simpl.
    + by heap_simpl.
    + by heap_simpl.
    + apply NoDup_cons; split; [set_solver|apply NoDup_singleton].
    + set_solver.
  - unfold nodes. agree_update; set_solver.
Qed.

Lemma list_push_back_ok h l xs e :
  dlist h l xs → e ≠ NULL → e ∉ nodes l xs →
  ∃ h', list_push_back l e h = Ok (tt, h') ∧ dlist h' l (xs ++ [e]) ∧
        agree_off (e :: nodes l xs) h h'.
Proof.
  intros Hdl He Hf. unfold list_push_back.
  rewrite (bind_Ok _ _ _ _ _ (list_end_ok h l xs Hdl)).
  destruct (list_insert_ok h l xs [] e) as (h' & H1 & H2 & H3); rewrite ?app_nil_r in *; eauto.
Qed.

Lemma list_push_front_ok h l xs e :
  dlist h l xs → e ≠ NULL → e ∉ nodes l xs →
  ∃ h', list_push_front l e h = Ok (tt, h') ∧ dlist h' l (e :: xs) ∧
        agree_off (e :: nodes l xs) h h'.
Proof.
  intros Hdl He Hf. unfold list_push_front.
  rewrite (bind_Ok _ _ _ _ _ (list_begin_ok h l xs Hdl)).
  apply (list_insert_ok h l [] xs e); done.
Qed.

Lemma list_pop_front_ok h l x xs :
  dlist h l (x :: xs) →
  ∃ h', list_pop_front l h = Ok (x, h') ∧ dlist h' l xs ∧ agree_off (nodes l xs) h h'.
Proof.
  intros Hdl. unfold list_pop_front, list_front.
  pose proof (list_empty_ok h l _ Hdl) as He.
  pose proof (list_begin_ok h l _ Hdl) as Hb. unfold list_begin in Hb.
  rewrite neqb in Hb by (eapply list_nonnull; eauto).
  destruct (list_remove_ok h l [] x xs Hdl) as (h' & H1 & H2 & H3 & _).
  exists h'. split; [|done].
  erewrite bind_Ok; [|erewrite bind_Ok; [|exact He]; exact Hb].
  cbn [first_of head default]. by erewrite bind_Ok; [|exact H1].
Qed.

Lemma list_pop_back_ok h l x xs :
  dlist h l (xs ++ [x]) →
  ∃ h', list_pop_back l h = Ok (x, h') ∧ dlist h' l xs ∧ agree_off (nodes l xs) h h'.
Proof.
  intros Hdl. unfold list_pop_back, list_back.
  pose proof (list_empty_ok h l _ Hdl) as He.
  rewrite bool_decide_eq_false_2 in He by (by destruct xs).
  destruct (list_remove_ok h l xs x [] Hdl) as (h' & H1 & H2 & H3 & _).
  rewrite app_nil_r in *. exists h'. split; [|done].
  destruct (nodes_at l (xs ++ [x]) []) as (A & C & EA & EC & EN). rewrite app_nil_r in EN.
  destruct (seg_link h l _ Hdl _ _ _ _ EN) as ([_ Hp] & _ & _).
  unfold last_of in Hp. rewrite last_snoc in Hp. cbn in Hp.
  erewrite bind_Ok; [|erewrite bind_Ok; [|exact He]; cbn [negb]; mstep; by apply ld_prev_ok].
  by erewrite bind_Ok; [|exact H1].
Qed.

(** Popping from an empty list trips the assertion of [list_front]/[list_back]. *)
Lemma list_pop_empty h l :
  dlist h l [] → list_pop_front l h = Err AssertFail ∧ list_pop_back l h = Err AssertFail.
Proof.
  intros Hdl. pose proof (list_empty_ok h l _ Hdl) as He.
  unfold list_pop_front, list_pop_back, list_front, list_back.
  split; unfold bind at 1; by erewrite bind_Ok; [|exact He].
Qed.

(** ** Walks *)

Lemma seg_dom h ns a : seg h ns → a ∈ ns → last ns ≠ Some a → a ∈ dom (hnext h).
Proof.
  induction ns as [|b ns IH]; [set_solver|]. rewrite seg_cons. intros [Hj Hs] Ha Hl.
  destruct ns as [|c ns].
  - exfalso. apply Hl. simpl. f_equal. set_solver.
  - apply elem_of_cons in Ha as [->|Ha].
    + apply elem_of_dom. exists c. apply Hj.
    + apply IH; done.
Qed.

(** The memory has more elements than any list in it, so that [walk] never runs
    out of fuel on a well-formed list. *)
Lemma walk_fuel_ge h l xs : dlist h l xs → (length xs + 3 ≤ walk_fuel h)%nat.
Proof.
  intros Hdl. unfold walk_fuel.
  assert (list_to_set (nodes l xs) ⊆ dom (hnext h)) as Hsub.
  { intros a Ha. apply elem_of_list_to_set in Ha.
    destruct (decide (last (nodes l xs) = Some a)) as [E|E].
    - unfold nodes in E. rewrite app_comm_cons, last_snoc in E. injection E as <-.
      apply elem_of_dom. rewrite (dl_tail _ _ _ Hdl). eauto.
    - by eapply seg_dom; [apply (dl_seg _ _ _ Hdl)|..]. }
  apply subseteq_size in Hsub.
  rewrite size_list_to_set in Hsub by apply (dl_nodup _ _ _ Hdl).
  rewrite size_dom in Hsub. unfold nodes in Hsub. simpl in Hsub. rewrite length_app in Hsub.
  simpl in Hsub. lia.
Qed.

Section Positions.
Context (h : heap) (l : Z).

Lemma list_next_pos ys z zs :
  dlist h l (ys ++ z :: zs) → list_next z h = Ok (first_of l zs, h).
Proof.
  intros Hdl. destruct (nodes_at l ys zs) as (A & C & EA & EC & EN).
  apply (list_next_at h l _ Hdl (head_of l :: ys) z (first_of l zs) C).
  rewrite nodes_app. cbn [app]. by rewrite EC.
Qed.

Lemma list_prev_pos ys zs :
  dlist h l (ys ++ zs) → list_prev (first_of l zs) h = Ok (last_of l ys, h).
Proof.
  intros Hdl. destruct (nodes_at l ys zs) as (A & C & EA & EC & EN).
  by apply (list_prev_at h l _ Hdl A _ _ C).
Qed.

Lemma pos_neq ys zs1 z zs2 :
  dlist h l (ys ++ zs1 ++ z :: zs2) → zs1 ≠ [] → first_of l (zs1 ++ z :: zs2) ≠ first_of l (z :: zs2).
Proof.
  intros Hdl Hne. destruct zs1 as [|a zs1]; [done|]. cbn. intros ->.
  pose proof (dl_nodup _ _ _ Hdl) as Hnd. rewrite nodes_app in Hnd.
  apply NoDup_app in Hnd as (_ & _ & Hnd). cbn in Hnd. apply NoDup_cons in Hnd as [H _]. set_solver.
Qed.

Lemma pos_neq_tail ys z zs : dlist h l (ys ++ z :: zs) → z ≠ tail_of l.
Proof. intros Hdl ->. apply (tail_not_in h l _ Hdl). set_solver. Qed.

Lemma list_size_loop ys zs n cnt :
  dlist h l (ys ++ zs) → (length zs < n)%nat →
  iter n (λ '(e, cnt),
    z <- list_end l ;;
    if e =? z then ret (inr cnt)
    else e' <- list_next e ;; ret (inl (e', u32 (cnt + 1)))) (first_of l zs, u32 cnt) h
  = Ok (u32 (cnt + zlen zs), h).
Proof.
  revert ys n cnt. induction zs as [|z zs IH]; intros ys n cnt Hdl Hn; destruct n as [|n]; try (simpl in Hn; lia).
  - erewrite iter_break; [done|]. erewrite bind_Ok; [|by eapply list_end_ok].
    cbn. rewrite Z.eqb_refl. unfold ret. by rewrite Z.add_0_r.
  - erewrite iter_continue; [|erewrite bind_Ok; [|by eapply list_end_ok];
      cbn [first_of head default]; rewrite neqb by (by eapply pos_neq_tail);
      erewrite bind_Ok; [|by eapply list_next_pos]; done].
    replace (u32 (u32 cnt + 1)) with (u32 (cnt + 1)) by (unfold u32; by rewrite Zplus_mod_idemp_l).
    rewrite (IH (ys ++ [z])); [|by rewrite <- app_assoc|simpl in Hn; lia].
    do 2 f_equal. simpl length. f_equal. lia.
Qed.

Lemma list_size_ok xs : dlist h l xs → list_size l h = Ok (u32 (zlen xs), h).
Proof.
  intros Hdl. unfold list_size. rewrite (bind_Ok _ _ _ _ _ (list_begin_ok h l xs Hdl)).
  unfold walk. change 0 with (u32 0). rewrite (list_size_loop [] xs); [|done|].
  - by rewrite Z.add_0_l.
  - pose proof (walk_fuel_ge h l xs Hdl). lia.
Qed.
End Positions.

(** ** Reversal *)

(** The elements [ys] have had their two fields exchanged; nothing else changed. *)
Definition swapped (ys : list Z) (h h1 : heap) : Prop :=
  (∀ a, a ∈ ys → hprev h1 !! a = hnext h !! a ∧ hnext h1 !! a = hprev h !! a) ∧
  agree_off ys h h1.

Lemma swap_step h l ys z zs h1 :
  dlist h l (ys ++ z :: zs) → swapped ys h h1 →
  ∃ h2, (swap_prev_next z ;; ld_prev z) h1 = Ok (first_of l zs, h2) ∧ swapped (ys ++ [z]) h h2.
Proof.
  intros Hdl [Hsw Hag].
  destruct (nodes_at l ys zs) as (A & C & EA & EC & _).
  assert (EN : nodes l (ys ++ z :: zs) = A ++ last_of l ys :: z :: first_of l zs :: C).
  { rewrite nodes_app, EA, <- app_assoc. simpl. by rewrite EC. }
  destruct (seg_link h l _ Hdl A _ z _ EN) as ([_ Hzp] & _ & Hz0).
  destruct (seg_link h l _ Hdl (A ++ [last_of l ys]) z (first_of l zs) C) as ([Hzn _] & _ & _).
  { by rewrite EN, <- app_assoc. }
  assert (Hz : z ∉ ys).
  { pose proof (dl_nodup _ _ _ Hdl) as Hnd. rewrite nodes_app in Hnd.
    apply NoDup_app in Hnd as (_ & Hd & _). intros Hin. apply (Hd z); set_solver. }
  destruct (Hag z Hz) as [Hp1 Hn1]. rewrite Hzp in Hp1. rewrite Hzn in Hn1.
  eexists. split.
  { unfold swap_prev_next. erewrite bind_Ok; [apply ld_prev_ok|].
    2: { mstep. mstep. mstep. by apply st_next_ok. }
    by heap_simpl. }
  split.
  - intros a Ha. apply elem_of_app in Ha as [Ha|Ha].
    + assert (a ≠ z) by congruence. heap_simpl. by apply Hsw.
    + apply list_elem_of_singleton in Ha as ->. heap_simpl. by rewrite Hzp, Hzn.
  - intros a Ha. apply not_elem_of_app in Ha as [Ha1 Ha2].
    assert (a ≠ z) by set_solver. heap_simpl. by apply Hag.
Qed.

Lemma reverse_loop h l ys zs n h1 :
  dlist h l (ys ++ zs) → swapped ys h h1 → (length zs < n)%nat →
  ∃ h2, iter n (λ e,
      z <- list_end l ;;
      if e =? z then ret (inr tt)
      else swap_prev_next e ;; e' <- ld_prev e ;; ret (inl e')) (first_of l zs) h1 = Ok (tt, h2) ∧
    swapped (ys ++ zs) h h2.
Proof.
  revert ys n h1. induction zs as [|z zs IH]; intros ys n h1 Hdl Hsw Hn;
    destruct n as [|n]; try (simpl in Hn; lia).
  - exists h1. rewrite app_nil_r. split; [|done]. erewrite iter_break; [done|].
    erewrite bind_Ok; [|unfold list_end; rewrite neqb by (by eapply list_nonnull); done].
    cbn. by rewrite Z.eqb_refl.
  - destruct (swap_step h l ys z zs h1 Hdl Hsw) as (h2 & H2 & Hsw2).
    destruct (IH (ys ++ [z]) n h2) as (h3 & H3 & Hsw3); [by rewrite <- app_assoc|done|simpl in Hn; lia|].
    exists h3. rewrite <- app_assoc in Hsw3. split; [|done].
    erewrite iter_continue; [exact H3|].
    erewrite bind_Ok; [|unfold list_end; rewrite neqb by (by eapply list_nonnull); done].
    cbn [first_of head default]. rewrite neqb by (by eapply pos_neq_tail).
    apply bind_inv in H2 as ([] & h2' & H2a & H2b).
    erewrite bind_Ok; [|exact H2a]. by erewrite bind_Ok; [|exact H2b].
Qed.

Lemma seg_swapped h h1 xs ms :
  swapped ms h h1 → (∀ a, a ∈ xs → a ∈ ms) → seg h xs → seg h1 (reverse xs).
Proof.
  intros [Hsw _]. induction xs as [|a xs IH]; [done|]. intros Hin Hs.
  rewrite reverse_cons, seg_app. rewrite seg_cons in Hs. destruct Hs as [Hj Hs].
  split_and!; [apply IH; [set_solver|done]|done|].
  rewrite last_reverse. destruct xs as [|b xs]; [done|]. cbn in *. destruct Hj as [H1 H2].
  destruct (Hsw a) as [Ha _]; [set_solver|]. destruct (Hsw b) as [_ Hb]; [set_solver|].
  split; congruence.
Qed.

Lemma nodes_perm l xs ys : xs ≡ₚ ys → nodes l xs ≡ₚ nodes l ys.
Proof. intros E. unfold nodes. by rewrite E. Qed.

Lemma list_reverse_ok h l xs :
  dlist h l xs →
  ∃ h', list_reverse l h = Ok (tt, h') ∧ dlist h' l (reverse xs) ∧ agree_off (nodes l xs) h h'.
Proof.
  intros Hdl. unfold list_reverse. rewrite (bind_Ok _ _ _ _ _ (list_empty_ok h l xs Hdl)).
  destruct (decide (xs = [])) as [->|Hne].
  { rewrite bool_decide_true by done. exists h. done. }
  rewrite bool_decide_false by done.
  rewrite (bind_Ok _ _ _ _ _ (list_begin_ok h l xs Hdl)).
  destruct (reverse_loop h l [] xs (walk_fuel h) h) as (h2 & H2 & [Hsw Hag]).
  { done. } { split; [set_solver|done]. } { pose proof (walk_fuel_ge h l xs Hdl). lia. }
  simpl app in Hsw, Hag. unfold walk. erewrite bind_Ok; [|exact H2].
  destruct (proj1 (dlist_split h l [] xs) Hdl)
    as (_ & Hs & [Hhf Hfh] & Hhd & Htl & _ & Hd & Hnd & Hnl1 & Hnl2).
  pose proof Hdl as Hdl'. rewrite <- (app_nil_r xs) in Hdl'.
  destruct (proj1 (dlist_split h l xs []) Hdl') as (_ & _ & [Hzt Htz] & _).
  rewrite seg_app in Hs. destruct Hs as (Hs & _ & _).
  apply NoDup_app in Hnd as (Hndx & Hdx & _).
  unfold last_of, first_of in *. cbn [head from_option id last] in *.
  assert (∃ f, head xs = Some f) as [f Hf] by (destruct xs; [done|eauto]).
  assert (∃ z, last xs = Some z) as [z Hz] by (apply last_is_Some; done).
  rewrite Hf in *. rewrite Hz in *. cbn [from_option id] in *.
  assert (Hfin : f ∈ xs) by (by apply head_Some_elem_of).
  assert (Hzin : z ∈ xs) by (by apply last_Some_elem_of).
  assert (Hhx : head_of l ∉ xs) by (intros H; apply (Hd (head_of l)); set_solver).
  assert (Htx : tail_of l ∉ xs) by (by eapply tail_not_in).
  assert (head_of l ≠ tail_of l) by (unfold head_of, tail_of; lia).
  assert (head_of l ≠ NULL) by set_solver. assert (tail_of l ≠ NULL) by set_solver.
  assert (f ≠ head_of l) by congruence. assert (f ≠ tail_of l) by congruence.
  assert (z ≠ head_of l) by congruence. assert (z ≠ tail_of l) by congruence.
  assert (f ≠ NULL) by set_solver. assert (z ≠ NULL) by set_solver.
  destruct (Hag _ Hhx) as [Ehp Ehn]. destruct (Hag _ Htx) as [Etp Etn].
  destruct (Hsw _ Hfin) as [_ Efn]. destruct (Hsw _ Hzin) as [Ezp _].
  rewrite Hhf in Ehn. rewrite Htz in Etp. rewrite Hfh in Efn. rewrite Hzt in Ezp.
  eexists. split.
  { unfold swap_next_prev.
    erewrite bind_Ok; [|mstep; mstep; mstep; by apply st_prev_ok].
    erewrite bind_Ok; [|apply ld_next_ok; heap_simpl; done].
    erewrite bind_Ok; [|apply ld_prev_ok; heap_simpl; done].
    unfold swap_prev_next2.
    erewrite bind_Ok; [|apply ld_prev_ok; heap_simpl; exact Ezp].
    erewrite bind_Ok; [|apply ld_next_ok; heap_simpl; exact Efn].
    mstep. by apply st_next_ok. }
  pose proof (reverse_Permutation xs) as Hperm.
  split.
  - split.
    + unfold nodes. rewrite app_comm_cons, seg_app, seg_cons.
      rewrite last_cons, last_reverse, head_reverse, Hf, Hz.
      split_and!; [split; by heap_simpl| |done|split; by heap_simpl].
      apply seg_set_next; [by rewrite Hperm|right; by rewrite last_reverse|].
      apply seg_set_prev; [by rewrite Hperm|right; by rewrite head_reverse|].
      apply seg_set_prev; [by rewrite Hperm|left; by rewrite elem_of_reverse|].
      apply seg_set_next; [by rewrite Hperm|left; by rewrite elem_of_reverse|].
      by eapply (seg_swapped h h2 xs xs).
    + heap_simpl. by rewrite Ehp.
    + heap_simpl. by rewrite Etn.
    + rewrite (nodes_perm l _ _ Hperm). apply Hdl.
    + rewrite (nodes_perm l _ _ Hperm). apply Hdl.
  - assert (Hin : ∀ a, a ∈ xs → a ∈ nodes l xs).
    { intros a Ha. right. apply elem_of_app. by left. }
    assert (agree_off (nodes l xs) h h2) as Hag2 by (by eapply agree_mono).
    apply agree_set_next; [by apply Hin|]. apply agree_set_prev; [by apply Hin|].
    apply agree_set_prev; [right; apply tail_in|]. by apply agree_set_next; [left|].
Qed.

(** ** Moving a range *)

Lemma head_app_ne {A} (xs ys : list A) : xs ≠ [] → head (xs ++ ys) = head xs.
Proof. by destruct xs. Qed.

Lemma last_app_ne {A} (xs ys : list A) : ys ≠ [] → last (xs ++ ys) = last ys.
Proof.
  intros Hne. destruct ys as [|y ys _] using rev_ind; [done|]. by rewrite app_assoc, !last_snoc.
Qed.

(** A list cut into four pieces, the two middle ones nonempty. *)
Lemma dlist_four h l P B F R b lb f lf :
  head B = Some b → last B = Some lb → head F = Some f → last F = Some lf →
  dlist h l (P ++ B ++ F ++ R) ↔
  (seg h (head_of l :: P) ∧ seg h B ∧ seg h F ∧ seg h (R ++ [tail_of l])) ∧
  (link h (last_of l P) b ∧ link h lb f ∧ link h lf (first_of l R)) ∧
  hprev h !! head_of l = Some NULL ∧ hnext h !! tail_of l = Some NULL ∧
  NoDup ((head_of l :: P) ++ B ++ F ++ R ++ [tail_of l]) ∧
  NULL ∉ (head_of l :: P) ++ B ++ F ++ R ++ [tail_of l].
Proof.
  intros Hb Hlb Hf Hlf.
  assert (E : nodes l (P ++ B ++ F ++ R) = (head_of l :: P) ++ B ++ F ++ R ++ [tail_of l]).
  { unfold nodes. by rewrite <- !app_assoc. }
  assert (HB : B ≠ []) by (by destruct B). assert (HF : F ≠ []) by (by destruct F).
  assert (Hseg : seg h (nodes l (P ++ B ++ F ++ R)) ↔
    (seg h (head_of l :: P) ∧ seg h B ∧ seg h F ∧ seg h (R ++ [tail_of l])) ∧
    (link h (last_of l P) b ∧ link h lb f ∧ link h lf (first_of l R))).
  { rewrite E, seg_app, last_of_last, head_app_ne, Hb by done.
    rewrite seg_app, Hlb, head_app_ne, Hf by done.
    rewrite seg_app, Hlf, first_of_head. cbn [joined]. tauto. }
  split.
  - intros [H1 H2 H3 H4 H5]. rewrite E in H4, H5. tauto.
  - intros H. split; [tauto..| |]; rewrite E; tauto.
Qed.

Lemma NoDup_four {A} (P B F R : list A) :
  NoDup (P ++ B ++ F ++ R) ↔
  NoDup P ∧ NoDup B ∧ NoDup F ∧ NoDup R ∧
  (∀ a, a ∈ P → a ∉ B ∧ a ∉ F ∧ a ∉ R) ∧ (∀ a, a ∈ B → a ∉ F ∧ a ∉ R) ∧
  (∀ a, a ∈ F → a ∉ R).
Proof.
  rewrite !NoDup_app. setoid_rewrite not_elem_of_app. setoid_rewrite not_elem_of_app. firstorder.
Qed.

Section Splice.
Context (h : heap) (l : Z) (P B F R : list Z) (b lb f lf : Z).
Context (Hb : head B = Some b) (Hlb : last B = Some lb).
Context (Hf : head F = Some f) (Hlf : last F = Some lf).
Context (Hdl : dlist h l (P ++ B ++ F ++ R)).
Notation PP := (head_of l :: P).
Notation RR := (R ++ [tail_of l]).
Notation p := (last_of l P).
Notation r := (first_of l R).

(** The six nodes at the seams are in different pieces. *)
Lemma seams_apart :
  (p ∈ PP ∧ p ∉ B ∧ p ∉ F ∧ p ∉ RR) ∧
  (b ∉ PP ∧ b ∈ B ∧ b ∉ F ∧ b ∉ RR) ∧ (lb ∉ PP ∧ lb ∈ B ∧ lb ∉ F ∧ lb ∉ RR) ∧
  (f ∉ PP ∧ f ∉ B ∧ f ∈ F ∧ f ∉ RR) ∧ (lf ∉ PP ∧ lf ∉ B ∧ lf ∈ F ∧ lf ∉ RR) ∧
  (r ∉ PP ∧ r ∉ B ∧ r ∉ F ∧ r ∈ RR) ∧
  (head_of l ∈ PP ∧ head_of l ∉ B ∧ head_of l ∉ F ∧ head_of l ∉ RR) ∧
  (tail_of l ∉ PP ∧ tail_of l ∉ B ∧ tail_of l ∉ F ∧ tail_of l ∈ RR) ∧
  (p ≠ NULL ∧ b ≠ NULL ∧ lb ≠ NULL ∧ f ≠ NULL ∧ lf ≠ NULL ∧ r ≠ NULL).
Proof.
  destruct (proj1 (dlist_four h l P B F R b lb f lf Hb Hlb Hf Hlf) Hdl)
    as (_ & _ & _ & _ & Hnd & Hnull).
  rewrite NoDup_four in Hnd. destruct Hnd as (_ & _ & _ & _ & HdP & HdB & HdF).
  pose proof (last_of_in l P) as Hpin. pose proof (first_of_in l R) as Hrin.
  assert (Hbin : b ∈ B) by (by apply head_Some_elem_of).
  assert (Hlbin : lb ∈ B) by (by apply last_Some_elem_of).
  assert (Hfin : f ∈ F) by (by apply head_Some_elem_of).
  assert (Hlfin : lf ∈ F) by (by apply last_Some_elem_of).
  pose proof (head_in l P) as Hh. pose proof (tail_in l R) as Ht.
  set (P' := PP) in *. set (R' := RR) in *. clearbody P' R'.
  rewrite !not_elem_of_app in Hnull. destruct Hnull as (Hu1 & Hu2 & Hu3 & Hu4).
  pose proof (HdP _ Hpin). pose proof (HdP _ Hh). pose proof (HdB _ Hbin).
  pose proof (HdB _ Hlbin). pose proof (HdF _ Hfin). pose proof (HdF _ Hlfin).
  split_and!; first [ tauto | congruence
    | let H := fresh in intros H;
      first [apply HdP in H; tauto | apply HdB in H; tauto | apply HdF in H; tauto] ].
Qed.

(** The memory after the six assignments of [list_splice]. *)
Definition spliced : heap :=
  set_prev b lf (set_next p f (set_next lf b (set_prev f p (set_prev r lb (set_next lb r h))))).

Lemma spliced_dlist :
  dlist spliced l (P ++ F ++ B ++ R) ∧ agree_off (nodes l (P ++ B ++ F ++ R)) h spliced.
Proof.
  destruct (proj1 (dlist_four h l P B F R b lb f lf Hb Hlb Hf Hlf) Hdl)
    as ((HsP & HsB & HsF & HsR) & ([Hpb Hbp] & [Hlbf Hflb] & [Hlfr Hrlf]) & Hhd & Htl & Hnd & Hnull).
  destruct seams_apart as (Hp' & Hb' & Hlb' & Hf' & Hlf' & Hr' & Hh' & Ht' & Hnn).
  destruct_and!.
  pose proof (last_of_last l P) as Hpl. pose proof (first_of_head l R) as Hrh.
  assert (EN : nodes l (P ++ B ++ F ++ R) = PP ++ B ++ F ++ RR).
  { unfold nodes. by rewrite <- !app_assoc. }
  assert (Hperm : PP ++ F ++ B ++ RR ≡ₚ PP ++ B ++ F ++ RR).
  { rewrite !(app_assoc _ _ RR), (Permutation_app_comm F B). done. }
  rewrite EN. set (P' := PP) in *. set (R' := RR) in *. unfold spliced.
  split.
  - apply (dlist_four _ l P F B R f lf b lb); [done..|].
    fold P' R'. rewrite Hperm.
    rewrite NoDup_four in Hnd. destruct Hnd as (HnP & HnB & HnF & HnR & HdP & HdB & HdF).
    split_and!; try (by seg_update); try (split; by heap_simpl); try (by heap_simpl).
    by rewrite NoDup_four.
  - agree_update; rewrite !elem_of_app; tauto.
Qed.

Lemma list_splice_run : list_splice b f r h = Ok (tt, spliced).
Proof.
  pose proof Hdl as Hdl'.
  destruct (proj1 (dlist_four h l P B F R b lb f lf Hb Hlb Hf Hlf) Hdl)
    as (_ & ([Hpb Hbp] & [Hlbf Hflb] & [Hlfr Hrlf]) & _ & _ & _ & _).
  destruct seams_apart as (Hp' & Hb' & Hlb' & Hf' & Hlf' & Hr' & _ & _ & Hnn).
  destruct_and!.
  destruct (nodes_at l P (B ++ F ++ R)) as (A & C & _ & _ & EN).
  assert (first_of l (B ++ F ++ R) = b) as Eb.
  { unfold first_of. by rewrite head_app_ne, Hb by (by destruct B). }
  rewrite Eb in EN.
  assert (Hint : ∀ a u v, link h u a → link h a v → u ≠ NULL → a ≠ NULL → v ≠ NULL →
                          is_interior a h = Ok (true, h)).
  { intros a u v [_ Hua] [Hav _] Hu Ha Hv. unfold is_interior. rewrite neqb by done.
    mstep. rewrite neqb by done. mstep. by rewrite neqb. }
  assert (Hprev : list_prev r h = Ok (lf, h)).
  { rewrite !app_assoc in Hdl'. erewrite (list_prev_pos h l _ R Hdl').
    unfold last_of. by rewrite last_app_ne, Hlf by (by destruct F). }
  assert (Hfnext : ∃ v, link h f v ∧ v ≠ NULL).
  { rewrite (app_assoc P B) in Hdl'. destruct F as [|f' F']; [done|]. injection Hf as ->.
    destruct (nodes_at l ((P ++ B) ++ [f]) (F' ++ R)) as (A' & C' & _ & _ & EN').
    rewrite <- app_assoc in EN'. simpl in EN'. destruct (seg_link h l _ Hdl' _ _ _ _ EN') as (Hlk & _ & Hnn).
    unfold last_of in Hlk. rewrite last_snoc in Hlk. eauto. }
  assert (Hlprev : ∃ u, link h u lf ∧ u ≠ NULL).
  { rewrite (app_assoc P B) in Hdl'. destruct F as [|z F' _] using rev_ind; [done|].
    rewrite last_snoc in Hlf. injection Hlf as ->.
    rewrite <- (app_assoc F'), (app_assoc (P ++ B) F') in Hdl'. cbn [app] in Hdl'.
    destruct (nodes_at l ((P ++ B) ++ F') (lf :: R)) as (A' & C' & _ & _ & EN').
    destruct (seg_link h l _ Hdl' _ _ _ _ EN') as (Hlk & Hnn & _). eauto. }
  destruct Hfnext as (v & Hfv & Hv). destruct Hlprev as (u & Hul & Hu).
  assert (Hflr : f ≠ r) by congruence.
  unfold list_splice. erewrite bind_Ok; [|apply (before_ok h l _ Hdl A p b C EN)]. mstep.
  rewrite (neqb f) by done. erewrite bind_Ok; [|exact Hprev].
  erewrite bind_Ok; [|apply (Hint f lb v); done || (split; done)]. mstep.
  erewrite bind_Ok; [|apply (Hint lf u r); done || (split; done)]. mstep.
  mstep. mstep. mstep.
  erewrite bind_Ok; [|apply ld_next_ok; heap_simpl; exact Hlfr].
  erewrite bind_Ok; [|apply ld_prev_ok; heap_simpl; exact Hflb]. mstep.
  erewrite bind_Ok; [|apply ld_prev_ok; heap_simpl; exact Hbp]. mstep. mstep.
  erewrite bind_Ok; [|apply ld_prev_ok; heap_simpl; exact Hbp]. mstep.
  by apply st_prev_ok.
Qed.
End Splice.

Lemma list_splice_ok h l P B F R b f :
  head B = Some b → head F = Some f → dlist h l (P ++ B ++ F ++ R) →
  ∃ h', list_splice b f (first_of l R) h = Ok (tt, h') ∧ dlist h' l (P ++ F ++ B ++ R) ∧
        agree_off (nodes l (P ++ B ++ F ++ R)) h h'.
Proof.
  intros Hb Hf Hdl.
  assert (∃ lb, last B = Some lb) as [lb Hlb] by (apply last_is_Some; by destruct B).
  assert (∃ lf, last F = Some lf) as [lf Hlf] by (apply last_is_Some; by destruct F).
  eexists. split; [by eapply list_splice_run|]. by eapply spliced_dlist.
Qed.
