(* ===== verification/DListSort.v ===== *)
(** * The ordered operations of lib/kernel/list.c

    [list_sort] is a natural iterative merge sort that works by relinking elements
    in place.  The file gives the sequence-level meaning of its parts (runs,
    merging, one pass over the list), shows that the pointer code of
    [DList] implements them, and derives that sorting terminates with a sorted,
    stable permutation.  The assertions inside the C code ([is_sorted] before every
    merge and at the end) are part of the model and are shown to hold. *)

From Stdlib Require Import Sorting.Sorted.
From S2P Require Import Prelude DList.
Local Open Scope c_scope.

(** What [list_less_func] clients promise: a strict weak order. *)
Class StrictWeak (less : Z → Z → bool) : Prop := {
  less_asym a b : less a b = true → less b a = false;
  nless_trans a b c : less b a = false → less c b = false → less c a = false;
}.

Section Pure.
Context (less : Z → Z → bool).

(** [a] may stand before [b]. *)
Definition le (a b : Z) : Prop := less b a = false.

Definition equiv (a b : Z) : bool := negb (less a b) && negb (less b a).

Fixpoint sortedb (xs : list Z) : bool :=
  match xs with
  | a :: ((b :: _) as t) => negb (less b a) && sortedb t
  | _ => true
  end.

(** The rest of the nondecreasing run that starts at [a], and what follows it. *)
Fixpoint run (a : Z) (xs : list Z) : list Z * list Z :=
  match xs with
  | [] => ([], [])
  | x :: xs' => if less x a then ([], xs) else let '(r, s) := run x xs' in (x :: r, s)
  end.

Fixpoint merge (xs : list Z) : list Z → list Z :=
  fix go (ys : list Z) :=
    match xs, ys with
    | [], _ => ys
    | _, [] => xs
    | a :: xs', b :: ys' => if less b a then b :: go ys' else a :: merge xs' ys
    end.

(** One pass: the list of runs it leaves behind. *)
Inductive passes : list Z → list (list Z) → Prop :=
  | passes_nil : passes [] []
  | passes_one a xs r : run a xs = (r, []) → passes (a :: xs) [a :: r]
  | passes_two a xs r1 b s1 r2 s2 outs :
      run a xs = (r1, b :: s1) → run b s1 = (r2, s2) → passes s2 outs →
      passes (a :: xs) (merge (a :: r1) (b :: r2) :: outs).

Fixpoint insert_ordered (e : Z) (xs : list Z) : list Z :=
  match xs with
  | [] => [e]
  | x :: xs' => if less e x then e :: xs else x :: insert_ordered e xs'
  end.

(** The elements kept and the elements removed by [list_unique] after [a]. *)
Fixpoint unique (a : Z) (xs : list Z) : list Z * list Z :=
  match xs with
  | [] => ([], [])
  | x :: xs' =>
      if negb (less a x) && negb (less x a)
      then let '(k, d) := unique a xs' in (k, x :: d)
      else let '(k, d) := unique x xs' in (x :: k, d)
  end.

Lemma run_app a xs r s : run a xs = (r, s) → xs = r ++ s.
Proof.
  revert a r s. induction xs as [|x xs IH]; intros a r s; simpl; [by intros [= <- <-]|].
  case_match; [by intros [= <- <-]|]. destruct (run x xs) as [r' s'] eqn:E.
  intros [= <- <-]. simpl. by rewrite (IH _ _ _ E) at 1.
Qed.

Lemma run_sorted a xs r s : run a xs = (r, s) → sortedb (a :: r) = true.
Proof.
  revert a r s. induction xs as [|x xs IH]; intros a r s; simpl; [by intros [= <- <-]|].
  destruct (less x a) eqn:El; [by intros [= <- <-]|]. destruct (run x xs) as [r' s'] eqn:E.
  intros [= <- <-]. rewrite El. cbn [negb andb]. by apply (IH x r' s').
Qed.

Lemma merge_cons a xs b ys :
  merge (a :: xs) (b :: ys) =
  if less b a then b :: merge (a :: xs) ys else a :: merge xs (b :: ys).
Proof. done. Qed.

Lemma merge_perm xs ys : merge xs ys ≡ₚ xs ++ ys.
Proof.
  revert ys. induction xs as [|a xs IHx]; intros ys; [by destruct ys|].
  induction ys as [|b ys IHy]; [by rewrite app_nil_r|].
  rewrite merge_cons. case_match.
  - rewrite IHy. by rewrite <- Permutation_middle.
  - rewrite IHx. done.
Qed.

Lemma merge_nil_r xs : merge xs [] = xs.
Proof. by destruct xs. Qed.

Lemma passes_perm xs outs : passes xs outs → concat outs ≡ₚ xs.
Proof.
  induction 1 as [|a xs r E|a xs r1 b s1 r2 s2 outs E1 E2 _ IH]; [done|..].
  - apply run_app in E as ->. simpl. by rewrite !app_nil_r.
  - apply run_app in E1 as ->. apply run_app in E2 as ->.
    cbn [concat]. rewrite IH, (merge_perm (a :: r1) (b :: r2)). simpl.
    by rewrite <- app_assoc.
Qed.

Lemma sortedb_sorted xs : sortedb xs = true ↔ Sorted le xs.
Proof.
  induction xs as [|a xs IH]; [done|]. split.
  - intros H. constructor.
    + apply IH. destruct xs; [done|]. by apply andb_true_iff in H as [_ H].
    + destruct xs; constructor. apply andb_true_iff in H as [H _].
      unfold le. by destruct (less z a).
  - intros H. inversion H as [|? ? Hs Hd]; subst. apply IH in Hs.
    destruct xs as [|b xs]; [done|]. inversion Hd; subst. cbn [sortedb].
    unfold le in *. by rewrite H1.
Qed.

Context `{SW : StrictWeak less}.

Lemma le_trans' : Relations_1.Transitive le.
Proof. intros a b c. unfold le. intros H1 H2. by apply (nless_trans a b c). Qed.

Lemma sortedb_strong xs : sortedb xs = true ↔ StronglySorted le xs.
Proof.
  rewrite sortedb_sorted. split; [apply Sorted_StronglySorted, le_trans'|].
  apply StronglySorted_Sorted.
Qed.

Lemma merge_forall (Q : Z → Prop) xs ys : Forall Q xs → Forall Q ys → Forall Q (merge xs ys).
Proof. intros H1 H2. rewrite merge_perm. by apply Forall_app. Qed.

Lemma merge_sorted xs ys :
  StronglySorted le xs → StronglySorted le ys → StronglySorted le (merge xs ys).
Proof.
  intros Hx. revert ys. induction Hx as [|a xs Hx IHx Ha]; intros ys Hy; [by destruct ys|].
  induction Hy as [|b ys Hy IHy Hb]; [by constructor|].
  rewrite merge_cons. destruct (less b a) eqn:E.
  - constructor; [done|]. apply merge_forall; [|done].
    apply less_asym in E. constructor; [done|].
    eapply Forall_impl; [exact Ha|]. intros c Hc. by eapply le_trans'.
  - constructor; [apply IHx; by constructor|]. apply merge_forall; [done|].
    constructor; [done|]. eapply Forall_impl; [exact Hb|]. intros c Hc. by eapply le_trans'.
Qed.

Lemma equiv_le_false a b c : less b a = true → le a c → equiv b c = false ∧ less b c = true.
Proof.
  unfold le, equiv. intros Hba Hac.
  assert (less b c = true) as ->; [|done].
  destruct (less b c) eqn:E; [done|].
  rewrite (nless_trans a c b) in Hba; done.
Qed.

Lemma equiv_filter_none x b cs :
  equiv x b = true → Forall (λ c, less b c = true) cs → filter (λ c, equiv x c) cs = [].
Proof.
  intros Hx. induction 1 as [|c cs Hc _ IH]; [done|]. rewrite filter_cons.
  rewrite decide_False; [done|]. unfold equiv in *.
  apply andb_true_iff in Hx as [H1 H2]. apply negb_true_iff in H1, H2.
  destruct (less x c) eqn:E1; [by intros []|].
  assert (less b c = false) as H; [|congruence].
  apply (nless_trans c x b); [|done]. done.
Qed.

(** Merging keeps equivalent elements in their order, those of [xs] first. *)
Lemma merge_stable x xs ys :
  StronglySorted le xs → StronglySorted le ys →
  filter (λ c, equiv x c) (merge xs ys) = filter (λ c, equiv x c) (xs ++ ys).
Proof.
  intros Hx. revert ys. induction Hx as [|a xs Hx IHx Ha]; intros ys Hy; [by destruct ys|].
  induction Hy as [|b ys Hy IHy Hb]; [by rewrite app_nil_r|].
  rewrite merge_cons. destruct (less b a) eqn:E.
  - rewrite (filter_cons _ b), IHy, !filter_app, (filter_cons _ b). case_decide as Hxb; [|done].
    rewrite (equiv_filter_none x b (a :: xs)); [done|by apply Is_true_true in Hxb|].
    constructor; [done|]. eapply Forall_impl; [exact Ha|]. intros c Hc.
    by apply (equiv_le_false a b c).
  - rewrite (filter_cons _ a), IHx by (by constructor).
    cbn [app]. by rewrite (filter_cons _ a).
Qed.
End Pure.

Section Halving.
Context (less : Z → Z → bool) `{SW : StrictWeak less}.

Definition good (rs : list (list Z)) : Prop := Forall (λ r, r ≠ [] ∧ sortedb less r = true) rs.

Lemma run_fewer a t r s rs :
  run less a t = (r, s) → a :: t = concat rs → good rs →
  ∃ rs', s = concat rs' ∧ good rs' ∧ (length rs' < length rs)%nat.
Proof.
  revert a r s rs. induction t as [|x t IH]; intros a r s rs Hr Hc Hg;
    (destruct rs as [|[|a' q] rs]; [done|by inversion Hg as [|?? [? _]]|]); injection Hc as <- Hc.
  - injection Hr as <- <-. exists []. split_and!; [done|by constructor|simpl; lia].
  - inversion Hg as [|?? [_ Hq] Hrest]; subst. cbn [run] in Hr. destruct q as [|y q].
    + destruct (less x a); [injection Hr as <- <-; exists rs; split_and!; [done..|simpl; lia]|].
      destruct (run less x t) as [r' s'] eqn:E. injection Hr as <- <-.
      destruct (IH x r' s' rs E Hc Hrest) as (rs' & ? & ? & ?).
      exists rs'. split_and!; [done..|simpl; lia].
    + injection Hc as <- Hc. cbn [sortedb] in Hq. apply andb_true_iff in Hq as [Hxa Hq].
      apply negb_true_iff in Hxa. rewrite Hxa in Hr.
      destruct (run less x t) as [r' s'] eqn:E. injection Hr as <- <-.
      destruct (IH x r' s' ((x :: q) :: rs) E) as (rs' & ? & ? & ?); [by f_equal/=|by constructor|].
      exists rs'. split_and!; [done..|simpl in *; lia].
Qed.

(** A pass at least halves the number of runs. *)
Lemma passes_halve xs outs rs :
  passes less xs outs → xs = concat rs → good rs → (2 * length outs ≤ length rs + 1)%nat.
Proof.
  intros Hp. revert rs.
  induction Hp as [|a xs r E|a xs r1 b s1 r2 s2 outs E1 E2 _ IH]; intros rs Hc Hg.
  - simpl. lia.
  - destruct rs; [done|]. simpl. lia.
  - destruct (run_fewer _ _ _ _ _ E1 Hc Hg) as (rs1 & Hc1 & Hg1 & Hl1).
    destruct (run_fewer _ _ _ _ _ E2 Hc1 Hg1) as (rs2 & Hc2 & Hg2 & Hl2).
    specialize (IH rs2 Hc2 Hg2). simpl. lia.
Qed.

Lemma passes_good xs outs : passes less xs outs → good outs.
Proof.
  induction 1 as [|a xs r E|a xs r1 b s1 r2 s2 outs E1 E2 _ IH].
  - constructor.
  - constructor; [|constructor]. split; [done|]. by eapply run_sorted.
  - constructor; [|done]. apply run_sorted in E1, E2. split.
    + rewrite merge_cons. by destruct (less b a).
    + apply sortedb_strong; [done|]. by apply merge_sorted; [done|apply sortedb_strong..].
Qed.

Lemma passes_stable x xs outs :
  passes less xs outs →
  filter (λ c, equiv less x c) (concat outs) = filter (λ c, equiv less x c) xs.
Proof.
  induction 1 as [|a xs r E|a xs r1 b s1 r2 s2 outs E1 E2 _ IH]; [done|..].
  - apply run_app in E as ->. cbn [concat]. by rewrite !app_nil_r.
  - pose proof (run_sorted _ _ _ _ _ E1) as S1. pose proof (run_sorted _ _ _ _ _ E2) as S2.
    apply run_app in E1 as ->. apply run_app in E2 as ->.
    apply sortedb_strong in S1, S2; [|done..]. cbn [concat].
    rewrite filter_app, IH, merge_stable by done. rewrite <- filter_app. simpl.
    by rewrite <- app_assoc.
Qed.

Lemma good_length outs : good outs → (length outs ≤ length (concat outs))%nat.
Proof.
  induction 1 as [|r rs [Hr _] _ IH]; [done|]. cbn [concat length]. rewrite length_app.
  destruct r; [done|]. simpl. lia.
Qed.

Lemma good_singletons xs : good ((λ x, [x]) <$> xs) ∧ concat ((λ x, [x]) <$> xs) = xs.
Proof.
  induction xs as [|x xs [IH1 IH2]]; [by split; [constructor|]|].
  split; [by constructor|]. cbn. by f_equal.
Qed.
End Halving.

Lemma ret_if {A} (b : bool) (x y : A) (h : heap) :
  (if b then ret x else ret y) h = Ok (if b then x else y, h).
Proof. by destruct b. Qed.

(** ** The pointer code implements the sequence functions *)

Lemma first_neq h l ys a zs W : dlist h l (ys ++ (a :: zs) ++ W) → a ≠ first_of l W.
Proof.
  intros Hdl ->. pose proof (dl_nodup _ _ _ Hdl) as Hnd. rewrite nodes_app in Hnd.
  apply NoDup_app in Hnd as (_ & _ & Hnd). cbn in Hnd. apply NoDup_cons in Hnd as [H _].
  apply H. rewrite <- app_assoc. apply elem_of_app. right. apply first_of_in.
Qed.

Lemma first_nonnull h l ys zs : dlist h l (ys ++ zs) → first_of l zs ≠ NULL.
Proof.
  intros Hdl E. apply (dl_null _ _ _ Hdl). rewrite <- E, nodes_app.
  apply elem_of_app. right. apply first_of_in.
Qed.

Lemma last_of_snoc l ys a : last_of l (ys ++ [a]) = a.
Proof. unfold last_of. by rewrite last_snoc. Qed.

(** Iterator facts in the shape the loops below meet them: after [a], before [W]. *)
Lemma next_after h l ys a zs : dlist h l (ys ++ a :: zs) →
  list_next a h = Ok (first_of l zs, h) ∧ list_prev (first_of l zs) h = Ok (a, h).
Proof.
  intros Hdl. split; [by eapply list_next_pos|].
  rewrite <- (last_of_snoc l ys a). apply list_prev_pos. by rewrite <- app_assoc.
Qed.

Section Refine.
Context (less : Z → Z → bool) (l : Z).

Lemma is_sorted_loop h ys a rs W n :
  dlist h l (ys ++ (a :: rs) ++ W) → (length rs < n)%nat →
  iter n (λ a,
      a <- list_next a ;;
      if a =? first_of l W then ret (inr true)
      else
        p <- list_prev a ;;
        if less a p then ret (inr false) else ret (inl a)) a h
  = Ok (sortedb less (a :: rs), h).
Proof.
  revert ys a n. induction rs as [|r rs IH]; intros ys a n Hdl Hn;
    destruct n as [|n]; try (simpl in Hn; lia); destruct (next_after h l ys a _ Hdl) as [Hnx Hpv].
  - erewrite iter_step; [|rewrite (bind_Ok _ _ _ _ _ Hnx); simpl app; by rewrite Z.eqb_refl].
    done.
  - assert (dlist h l ((ys ++ [a]) ++ (r :: rs) ++ W)) as Hdl' by (by rewrite <- app_assoc).
    cbn [app first_of head from_option id] in Hnx, Hpv.
    assert (r ≠ first_of l W) as Hr by (by eapply first_neq).
    cbn [sortedb]. erewrite iter_step; [|rewrite (bind_Ok _ _ _ _ _ Hnx), neqb by done;
      rewrite (bind_Ok _ _ _ _ _ Hpv); exact (ret_if _ _ _ _)].
    destruct (less r a); [done|]. apply (IH (ys ++ [a])); [done|simpl in Hn; lia].
Qed.

Lemma walk_fuel_sub h xs ys zs :
  dlist h l (xs ++ ys ++ zs) → (length xs + length ys + length zs + 3 ≤ walk_fuel h)%nat.
Proof. intros Hdl. apply walk_fuel_ge in Hdl. rewrite !length_app in Hdl. lia. Qed.

Lemma is_sorted_ok h ys rs W :
  dlist h l (ys ++ rs ++ W) →
  is_sorted less (first_of l (rs ++ W)) (first_of l W) h = Ok (sortedb less rs, h).
Proof.
  intros Hdl. unfold is_sorted. destruct rs as [|a rs].
  - simpl app. by rewrite Z.eqb_refl.
  - cbn [app first_of head from_option id]. rewrite neqb by (by eapply first_neq).
    apply (is_sorted_loop h ys); [done|]. apply walk_fuel_sub in Hdl. simpl in Hdl. lia.
Qed.

Lemma find_end_loop h ys a rs W n :
  dlist h l (ys ++ (a :: rs) ++ W) → (length rs < n)%nat →
  iter n (λ a,
    a <- list_next a ;;
    if a =? first_of l W then ret (inr a)
    else
      p <- list_prev a ;;
      if less a p then ret (inr a) else ret (inl a)) a h
  = Ok (first_of l ((run less a rs).2 ++ W), h).
Proof.
  revert ys a n. induction rs as [|r rs IH]; intros ys a n Hdl Hn;
    destruct n as [|n]; try (simpl in Hn; lia); destruct (next_after h l ys a _ Hdl) as [Hnx Hpv].
  - erewrite iter_step; [|rewrite (bind_Ok _ _ _ _ _ Hnx); simpl app; by rewrite Z.eqb_refl].
    done.
  - assert (dlist h l ((ys ++ [a]) ++ (r :: rs) ++ W)) as Hdl' by (by rewrite <- app_assoc).
    cbn [app first_of head from_option id] in Hnx, Hpv.
    assert (r ≠ first_of l W) as Hr by (by eapply first_neq).
    cbn [run]. erewrite iter_step; [|rewrite (bind_Ok _ _ _ _ _ Hnx), neqb by done;
      rewrite (bind_Ok _ _ _ _ _ Hpv); exact (ret_if _ _ _ _)].
    destruct (less r a); [done|].
    rewrite (IH (ys ++ [a])); [by destruct (run less r rs)|done|simpl in Hn; lia].
Qed.

Lemma find_end_of_run_ok h ys a rs W :
  dlist h l (ys ++ (a :: rs) ++ W) →
  find_end_of_run less a (first_of l W) h = Ok (first_of l ((run less a rs).2 ++ W), h).
Proof.
  intros Hdl. unfold find_end_of_run.
  pose proof (first_nonnull h l _ _ Hdl) as Ha. cbn in Ha.
  assert (first_of l W ≠ NULL) as HW by (eapply (first_nonnull h l (ys ++ (a :: rs)));
    by rewrite <- app_assoc).
  assert (a ≠ first_of l W) as Hr by (by eapply first_neq).
  rewrite !neqb by done. cbn [negb]. rewrite !bind_assert by done.
  apply (find_end_loop h ys); [done|]. apply walk_fuel_sub in Hdl. simpl in Hdl. lia.
Qed.

(** The merge loop standing at [A], then [B], with [R] behind. *)
Lemma merge_loop R : ∀ n h P A B,
  dlist h l (P ++ A ++ B ++ R) → (length A + length B < n)%nat →
  ∃ h', iter n (λ '(a0, a1b0),
    if (a0 =? a1b0) || (a1b0 =? first_of l R) then ret (inr tt)
    else if negb (less a1b0 a0) then
      a0 <- list_next a0 ;; ret (inl (a0, a1b0))
    else
      a1b0 <- list_next a1b0 ;;
      p <- list_prev a1b0 ;;
      list_splice a0 p a1b0 ;;
      ret (inl (a0, a1b0))) (first_of l (A ++ B ++ R), first_of l (B ++ R)) h = Ok (tt, h') ∧
    dlist h' l (P ++ merge less A B ++ R) ∧ agree_off (nodes l (P ++ A ++ B ++ R)) h h'.
Proof.
  induction n as [|n IH]; intros h P A B Hdl Hn; [lia|].
  destruct A as [|a A].
  { erewrite iter_step; [|simpl app; by rewrite Z.eqb_refl].
    exists h. destruct B; (split; [done|split; [done|apply agree_refl]]). }
  assert (a ≠ first_of l (B ++ R)) as Ha by (by eapply first_neq).
  destruct B as [|b B].
  { erewrite iter_step; [|simpl app; by rewrite Z.eqb_refl, orb_true_r].
    exists h. split; [done|split; [done|apply agree_refl]]. }
  assert (dlist h l ((P ++ a :: A) ++ (b :: B) ++ R)) as HdlB by (by rewrite <- app_assoc).
  assert (b ≠ first_of l R) as Hb by (by eapply first_neq).
  cbn [app first_of head from_option id] in *. rewrite merge_cons.
  destruct (less b a) eqn:E.
  - destruct (next_after h l _ _ _ HdlB) as [Hnx Hpv].
    destruct (list_splice_ok h l P (a :: A) [b] (B ++ R) a b) as (h1 & Hs & Hdl1 & Hag1); [done..|].
    destruct (IH h1 (P ++ [b]) (a :: A) B) as (h' & Hrun & Hdl' & Hag'); [|simpl in *; lia|].
    { by rewrite <- app_assoc. }
    exists h'. split_and!.
    + erewrite iter_continue; [exact Hrun|]. rewrite !neqb, E by done. cbn [orb negb].
      by rewrite (bind_Ok _ _ _ _ _ Hnx), (bind_Ok _ _ _ _ _ Hpv), (bind_Ok _ _ _ _ _ Hs).
    + by rewrite <- app_assoc in Hdl'.
    + eapply agree_trans; [exact Hag1|]. eapply agree_mono; [|exact Hag'].
      intros c. unfold nodes. rewrite !elem_of_cons, !elem_of_app, !elem_of_cons, !elem_of_app. 
      set_solver.
  - destruct (next_after h l _ _ _ Hdl) as [Hnx _].
    destruct (IH h (P ++ [a]) A (b :: B)) as (h' & Hrun & Hdl' & Hag'); [|simpl in *; lia|].
    { by rewrite <- app_assoc. }
    exists h'. rewrite <- !app_assoc in Hag', Hdl'. split_and!; [|done..].
    erewrite iter_continue; [exact Hrun|]. rewrite !neqb, E by done. cbn [orb negb].
    by rewrite (bind_Ok _ _ _ _ _ Hnx).
Qed.

Lemma inplace_merge_ok h P A B R :
  dlist h l (P ++ A ++ B ++ R) → sortedb less A = true → sortedb less B = true →
  ∃ h', inplace_merge less (first_of l (A ++ B ++ R)) (first_of l (B ++ R)) (first_of l R) h
          = Ok (tt, h') ∧
        dlist h' l (P ++ merge less A B ++ R) ∧ agree_off (nodes l (P ++ A ++ B ++ R)) h h'.
Proof.
  intros Hdl HA HB. unfold inplace_merge.
  assert (dlist h l ((P ++ A) ++ B ++ R)) as Hdl2 by (by rewrite <- app_assoc).
  assert (dlist h l ((P ++ A ++ B) ++ R)) as Hdl3 by (by rewrite <- !app_assoc).
  rewrite !neqb by (by eapply first_nonnull). cbn [negb]. rewrite !bind_assert by done.
  rewrite (bind_Ok _ _ _ _ _ (is_sorted_ok _ _ _ _ Hdl)), HA, bind_assert by done.
  rewrite (bind_Ok _ _ _ _ _ (is_sorted_ok _ _ _ _ Hdl2)), HB, bind_assert by done.
  apply merge_loop; [done|]. apply walk_fuel_sub in Hdl2. rewrite length_app in Hdl2. lia.
Qed.
End Refine.

Section Sort.
Context (less : Z → Z → bool) (l : Z).

Lemma pass_loop : ∀ n h dn rest cnt,
  dlist h l (dn ++ rest) → (length rest < n)%nat →
  ∃ outs h', passes less rest outs ∧
    iter n (λ '(a0, output_run_cnt),
      z <- list_end l ;;
      if a0 =? z then ret (inr output_run_cnt)
      else
        let output_run_cnt := u32 (output_run_cnt + 1) in
        a1b0 <- find_end_of_run less a0 z ;;
        if a1b0 =? z then ret (inr output_run_cnt)
        else
          b1 <- find_end_of_run less a1b0 z ;;
          inplace_merge less a0 a1b0 b1 ;;
          ret (inl (b1, output_run_cnt))) (first_of l rest, u32 cnt) h
      = Ok (u32 (cnt + zlen outs), h') ∧
    dlist h' l (dn ++ concat outs) ∧ agree_off (nodes l (dn ++ rest)) h h'.
Proof.
  induction n as [|n IH]; intros h dn rest cnt Hdl Hn; [lia|].
  pose proof (list_end_ok h l _ Hdl) as Hend. destruct rest as [|a xs].
  { exists [], h. split_and!; [constructor| |done|apply agree_refl].
    erewrite iter_step; [|rewrite (bind_Ok _ _ _ _ _ Hend); simpl first_of;
      by rewrite Z.eqb_refl]. cbn. by rewrite Z.add_0_r. }
  assert (a ≠ tail_of l) as Ha by (by eapply pos_neq_tail).
  assert (u32 (u32 cnt + 1) = u32 (cnt + 1)) as Hcnt by (unfold u32; by rewrite Zplus_mod_idemp_l).
  assert (find_end_of_run less a (tail_of l) h = Ok (first_of l (run less a xs).2, h)) as Hf1.
  { rewrite <- (app_nil_r (run less a xs).2). apply (find_end_of_run_ok _ l h dn a xs []).
    by rewrite app_nil_r. }
  destruct (run less a xs) as [r1 s] eqn:E1. destruct s as [|b s1].
  { exists [a :: r1], h. split_and!; [by constructor| | |apply agree_refl].
    - erewrite iter_step; [|rewrite (bind_Ok _ _ _ _ _ Hend); cbn [first_of head from_option id];
        rewrite neqb by done; rewrite (bind_Ok _ _ _ _ _ Hf1); by rewrite Z.eqb_refl].
      cbn. by rewrite Hcnt.
    - apply run_app in E1 as ->. cbn. by rewrite !app_nil_r in *. }
  pose proof (run_app _ _ _ _ _ E1) as Exs.
  assert (dlist h l ((dn ++ a :: r1) ++ b :: s1)) as Hdl1 by (rewrite <- app_assoc; by subst xs).
  assert (b ≠ tail_of l) as Hb by (by eapply pos_neq_tail).
  assert (find_end_of_run less b (tail_of l) h = Ok (first_of l (run less b s1).2, h)) as Hf2.
  { rewrite <- (app_nil_r (run less b s1).2). eapply (find_end_of_run_ok _ l h _ b s1 []).
    by rewrite app_nil_r. }
  destruct (run less b s1) as [r2 s2] eqn:E2. pose proof (run_app _ _ _ _ _ E2) as Es1. subst s1 xs.
  destruct (inplace_merge_ok less l h dn (a :: r1) (b :: r2) s2) as (h1 & Hm & Hdm & Hag);
    [by rewrite <- app_assoc in Hdl1|by eapply run_sorted..|].
  destruct (IH h1 (dn ++ merge less (a :: r1) (b :: r2)) s2 (cnt + 1)) as (outs & h' & Hp & Hr & Hd' & Hag');
    [by rewrite <- app_assoc|simpl in Hn; rewrite !length_app in Hn; simpl in Hn; rewrite length_app in Hn; lia|].
  exists (merge less (a :: r1) (b :: r2) :: outs), h'. split_and!.
  - by eapply passes_two.
  - erewrite iter_step; [|rewrite (bind_Ok _ _ _ _ _ Hend); cbn [first_of head from_option id];
      rewrite neqb by done; rewrite (bind_Ok _ _ _ _ _ Hf1); cbn [snd first_of head from_option id];
      rewrite neqb by done;
      rewrite (bind_Ok _ _ _ _ _ Hf2); cbn [snd]; by rewrite (bind_Ok _ _ _ _ _ Hm)].
    rewrite Hcnt. etransitivity; [exact Hr|]. do 2 f_equal. f_equal. cbn [length]. lia.
  - by rewrite <- app_assoc in Hd'.
  - eapply agree_trans; [exact Hag|]. eapply agree_mono; [|exact Hag'].
    intros c. unfold nodes. rewrite (merge_perm less (a :: r1) (b :: r2)). set_solver.
Qed.

Lemma sort_pass_ok h xs :
  dlist h l xs →
  ∃ outs h', passes less xs outs ∧ sort_pass less l h = Ok (u32 (zlen outs), h') ∧
    dlist h' l (concat outs) ∧ agree_off (nodes l xs) h h'.
Proof.
  intros Hdl. pose proof (walk_fuel_ge h l xs Hdl).
  destruct (pass_loop (walk_fuel h) h [] xs 0) as (outs & h' & Hp & Hr & Hd & Hag); [done|lia|].
  exists outs, h'. split_and!; [done| |done..]. unfold sort_pass.
  by rewrite (bind_Ok _ _ _ _ _ (list_begin_ok h l xs Hdl)).
Qed.

Context `{SW : StrictWeak less}.

(** [ys] is [xs] rearranged without exchanging equivalent elements. *)
Definition stable_perm (xs ys : list Z) : Prop :=
  ys ≡ₚ xs ∧ ∀ x, filter (λ c, equiv less x c) ys = filter (λ c, equiv less x c) xs.

Lemma stable_perm_trans xs ys zs : stable_perm xs ys → stable_perm ys zs → stable_perm xs zs.
Proof.
  intros [P1 F1] [P2 F2]. split; [by rewrite P2|]. intros x. by rewrite F2, F1.
Qed.

Lemma passes_stable_perm xs outs : passes less xs outs → stable_perm xs (concat outs).
Proof. intros Hp. split; [by apply (passes_perm less)|]. intros x. by apply passes_stable. Qed.

Lemma good_few outs : good less outs → (length outs ≤ 1)%nat → sortedb less (concat outs) = true.
Proof.
  intros Hg Hl. destruct outs as [|r [|? ?]]; [done| |simpl in Hl; lia].
  inversion Hg as [|?? [_ Hs] _]; subst. cbn. by rewrite app_nil_r.
Qed.

(** The outer loop: every pass at least halves the number of runs. *)
Lemma sort_loop : ∀ n h xs rs,
  dlist h l xs → xs = concat rs → good less rs → zlen xs < W32 → (length rs ≤ n)%nat → (0 < n)%nat →
  ∃ ys h', iter n (λ _ : unit,
      output_run_cnt <- sort_pass less l ;;
      if 1 <? output_run_cnt then ret (inl tt) else ret (inr tt)) tt h = Ok (tt, h') ∧
    dlist h' l ys ∧ sortedb less ys = true ∧ stable_perm xs ys ∧ agree_off (nodes l xs) h h'.
Proof.
  induction n as [|n IH]; intros h xs rs Hdl Hc Hg Hw Hn H0; [lia|].
  destruct (sort_pass_ok h xs Hdl) as (outs & h1 & Hp & Hr & Hd & Hag).
  pose proof (passes_halve less xs outs rs Hp Hc Hg) as Hhalf.
  pose proof (passes_good less xs outs Hp) as Hgo.
  pose proof (passes_stable_perm xs outs Hp) as Hst.
  assert (length (concat outs) = length xs) as Hlen by (by rewrite (proj1 Hst)).
  assert (length outs ≤ length (concat outs))%nat as Hle by (by apply good_length with less).
  rewrite u32_small in Hr by (unfold is_u32; lia).
  destruct (decide (length outs ≤ 1)%nat) as [Hone|Hmore].
  - exists (concat outs), h1. split_and!; [|done|by apply good_few|done..].
    erewrite iter_step; [|rewrite (bind_Ok _ _ _ _ _ Hr); exact (ret_if _ _ _ _)].
    destruct (Z.ltb_spec 1 (zlen outs)); [lia|done].
  - destruct (IH h1 (concat outs) outs) as (ys & h' & Hi & Hd' & Hs & Hst' & Hag');
      [done..|lia|lia|lia|].
    exists ys, h'. split_and!; [|done..|by eapply stable_perm_trans|].
    + erewrite iter_step; [|rewrite (bind_Ok _ _ _ _ _ Hr); exact (ret_if _ _ _ _)].
      destruct (Z.ltb_spec 1 (zlen outs)); [exact Hi|lia].
    + eapply agree_trans; [exact Hag|]. eapply agree_mono; [|exact Hag'].
      intros c. unfold nodes. by rewrite (proj1 Hst).
Qed.

Lemma list_sort_run h xs :
  dlist h l xs → zlen xs < W32 →
  ∃ ys h', list_sort less l h = Ok (tt, h') ∧ dlist h' l ys ∧
    StronglySorted (le less) ys ∧ stable_perm xs ys ∧ agree_off (nodes l xs) h h'.
Proof.
  intros Hdl Hw. pose proof (walk_fuel_ge h l xs Hdl) as Hfuel.
  destruct (good_singletons less xs) as [Hg Hc].
  destruct (sort_loop (walk_fuel h) h xs ((λ x, [x]) <$> xs)) as (ys & h' & Hi & Hd & Hs & Hst & Hag);
    [done..| |lia|]; [rewrite length_fmap; lia|].
  exists ys, h'. split_and!; [|done|by apply sortedb_strong|done..].
  unfold list_sort. rewrite neqb by (by eapply list_nonnull). rewrite bind_assert by done.
  erewrite bind_Ok; [|exact Hi].
  rewrite (bind_Ok _ _ _ _ _ (list_begin_ok _ _ _ Hd)), (bind_Ok _ _ _ _ _ (list_end_ok _ _ _ Hd)).
  assert (is_sorted less (first_of l ys) (tail_of l) h' = Ok (true, h')) as Hiss.
  { rewrite <- Hs, <- (app_nil_r ys) at 1. apply (is_sorted_ok less l h' []).
    by rewrite app_nil_r. }
  by rewrite (bind_Ok _ _ _ _ _ Hiss).
Qed.
End Sort.

Section Insert.
Context (less : Z → Z → bool) (l : Z).

Lemma insert_ordered_loop e h ys zs n :
  dlist h l (ys ++ zs) → (length zs < n)%nat →
  ∃ ps qs, zs = ps ++ qs ∧ insert_ordered less e zs = ps ++ e :: qs ∧
    iter n (λ c,
      z <- list_end l ;;
      if c =? z then ret (inr c)
      else if less e c then ret (inr c)
      else c <- list_next c ;; ret (inl c)) (first_of l zs) h = Ok (first_of l qs, h).
Proof.
  revert ys n. induction zs as [|z zs IH]; intros ys n Hdl Hn; destruct n as [|n]; try (simpl in Hn; lia);
    pose proof (list_end_ok h l _ Hdl) as Hend.
  - exists [], []. split_and!; [done..|].
    erewrite iter_step; [|rewrite (bind_Ok _ _ _ _ _ Hend); simpl first_of; by rewrite Z.eqb_refl].
    done.
  - assert (z ≠ tail_of l) as Hz by (by eapply pos_neq_tail).
    cbn [insert_ordered]. destruct (less e z) eqn:E.
    + exists [], (z :: zs). split_and!; [done..|].
      erewrite iter_step; [|rewrite (bind_Ok _ _ _ _ _ Hend); cbn [first_of head from_option id];
        rewrite neqb, E by done; done]. done.
    + destruct (IH (ys ++ [z]) n) as (ps & qs & -> & Ei & Hr);
        [by rewrite <- app_assoc|simpl in Hn; lia|].
      exists (z :: ps), qs. split_and!; [done|by rewrite Ei|].
      erewrite iter_step; [|rewrite (bind_Ok _ _ _ _ _ Hend); cbn [first_of head from_option id];
        rewrite neqb, E by done; by rewrite (bind_Ok _ _ _ _ _ (list_next_pos _ _ _ _ _ Hdl))].
      exact Hr.
Qed.

Lemma list_insert_ordered_run h xs e :
  dlist h l xs → e ≠ NULL → e ∉ nodes l xs →
  ∃ h', list_insert_ordered less l e h = Ok (tt, h') ∧ dlist h' l (insert_ordered less e xs) ∧
        agree_off (e :: nodes l xs) h h'.
Proof.
  intros Hdl He Hf. pose proof (walk_fuel_ge h l xs Hdl) as Hfuel.
  destruct (insert_ordered_loop e h [] xs (walk_fuel h)) as (ps & qs & -> & -> & Hr); [done|lia|].
  destruct (list_insert_ok h l ps qs e Hdl He Hf) as (h' & Hi & Hd & Hag).
  exists h'. split_and!; [|done..]. unfold list_insert_ordered.
  rewrite !neqb by (done || by eapply list_nonnull). rewrite !bind_assert by done.
  rewrite (bind_Ok _ _ _ _ _ (list_begin_ok _ _ _ Hdl)).
  erewrite bind_Ok; [exact Hi|exact Hr].
Qed.

Context `{SW : StrictWeak less}.

Lemma insert_ordered_perm e xs : insert_ordered less e xs ≡ₚ e :: xs.
Proof.
  induction xs as [|x xs IH]; [done|]. cbn. case_match; [done|]. rewrite IH.
  apply Permutation_swap.
Qed.

Lemma insert_ordered_sorted e xs :
  StronglySorted (le less) xs → StronglySorted (le less) (insert_ordered less e xs).
Proof.
  induction 1 as [|x xs Hs IH Hx]; [by repeat constructor|]. cbn. destruct (less e x) eqn:E.
  - constructor; [by constructor|]. apply less_asym in E. constructor; [done|].
    eapply Forall_impl; [exact Hx|]. intros c Hc. by eapply le_trans'.
  - constructor; [done|]. rewrite insert_ordered_perm. by constructor.
Qed.

(** The new element lands behind the elements equivalent to it. *)
Lemma insert_ordered_stable e xs x :
  StronglySorted (le less) xs →
  filter (λ c, equiv less x c) (insert_ordered less e xs) = filter (λ c, equiv less x c) (xs ++ [e]).
Proof.
  induction 1 as [|y xs Hs IH Hy]; [done|]. cbn [insert_ordered]. destruct (less e y) eqn:E.
  - rewrite (filter_cons _ e), filter_app, (filter_cons _ e). case_decide as He; [|by rewrite app_nil_r].
    rewrite (equiv_filter_none less x e (y :: xs)); [done|by apply Is_true_true in He|].
    constructor; [done|]. eapply Forall_impl; [exact Hy|]. intros c Hc.
    by apply (equiv_le_false less y e c).
  - cbn [app]. rewrite !(filter_cons _ y), IH. done.
Qed.
End Insert.

Section Extrema.
Context (less : Z → Z → bool) (l : Z).

(** The scan of [list_max]; [list_min] is the scan for the reversed order. *)
Definition pick_max (x : Z) (xs : list Z) : Z :=
  foldl (λ m e, if less m e then e else m) x xs.
Definition pick_min (x : Z) (xs : list Z) : Z :=
  foldl (λ m e, if less e m then e else m) x xs.

Lemma extremum_loop (better : Z → Z → bool) h ys zs n m :
  dlist h l (ys ++ zs) → (length zs < n)%nat →
  iter n (λ '(e, max),
      z <- list_end l ;;
      if e =? z then ret (inr max)
      else
        let max := if better max e then e else max in
        e <- list_next e ;; ret (inl (e, max))) (first_of l zs, m) h
  = Ok (foldl (λ m e, if better m e then e else m) m zs, h).
Proof.
  revert ys n m. induction zs as [|z zs IH]; intros ys n m Hdl Hn; destruct n as [|n]; try (simpl in Hn; lia);
    pose proof (list_end_ok h l _ Hdl) as Hend.
  - erewrite iter_step; [|rewrite (bind_Ok _ _ _ _ _ Hend); simpl first_of; by rewrite Z.eqb_refl].
    done.
  - assert (z ≠ tail_of l) as Hz by (by eapply pos_neq_tail).
    erewrite iter_step; [|rewrite (bind_Ok _ _ _ _ _ Hend); cbn [first_of head from_option id];
        rewrite neqb by done; by rewrite (bind_Ok _ _ _ _ _ (list_next_pos _ _ _ _ _ Hdl))].
    cbn [foldl]. apply (IH (ys ++ [z])); [by rewrite <- app_assoc|simpl in Hn; lia].
Qed.

Lemma list_max_run h x xs :
  dlist h l (x :: xs) → list_max less l h = Ok (pick_max x xs, h).
Proof.
  intros Hdl. pose proof (walk_fuel_ge h l _ Hdl) as Hfuel. simpl in Hfuel. unfold list_max.
  rewrite (bind_Ok _ _ _ _ _ (list_begin_ok _ _ _ Hdl)), (bind_Ok _ _ _ _ _ (list_end_ok _ _ _ Hdl)).
  cbn [first_of head from_option id]. rewrite neqb by (by eapply (pos_neq_tail h l [])).
  rewrite (bind_Ok _ _ _ _ _ (list_next_pos h l [] _ _ Hdl)).
  apply (extremum_loop less h [x]); [done|lia].
Qed.

Lemma list_min_run h x xs :
  dlist h l (x :: xs) → list_min less l h = Ok (pick_min x xs, h).
Proof.
  intros Hdl. pose proof (walk_fuel_ge h l _ Hdl) as Hfuel. simpl in Hfuel. unfold list_min.
  rewrite (bind_Ok _ _ _ _ _ (list_begin_ok _ _ _ Hdl)), (bind_Ok _ _ _ _ _ (list_end_ok _ _ _ Hdl)).
  cbn [first_of head from_option id]. rewrite neqb by (by eapply (pos_neq_tail h l [])).
  rewrite (bind_Ok _ _ _ _ _ (list_next_pos h l [] _ _ Hdl)).
  apply (extremum_loop (λ m e, less e m) h [x]); [done|lia].
Qed.
End Extrema.

(** Reversing a strict weak order gives one: [list_min] is [list_max] of it. *)
#[export] Instance flip_strict_weak less `{SW : StrictWeak less} : StrictWeak (λ a b, less b a).
Proof.
  split; [intros a b; apply less_asym|]. intros a b c H1 H2. by apply (nless_trans c b a).
Qed.

(** The pick is the first of the greatest elements. *)
Lemma pick_max_first less `{SW : StrictWeak less} xs x :
  ∃ ps qs, x :: xs = ps ++ pick_max less x xs :: qs ∧
    Forall (λ c, less c (pick_max less x xs) = true) ps ∧
    Forall (λ c, less (pick_max less x xs) c = false) qs.
Proof.
  unfold pick_max. induction xs as [|y xs IH] using rev_ind; [by exists [], []|].
  destruct IH as (ps & qs & Exs & Hps & Hqs). rewrite foldl_app. cbn [foldl].
  set (m := foldl _ x xs) in *. rewrite app_comm_cons, Exs. destruct (less m y) eqn:E.
  - exists (ps ++ m :: qs), []. split_and!; [done| |constructor].
    assert (∀ c, less m c = false → less c y = true) as Hc.
    { intros c Hc. destruct (less c y) eqn:E2; [done|].
      rewrite (nless_trans y c m) in E; done. }
    apply Forall_app. split; [|constructor; [done|eapply Forall_impl; [exact Hqs|done]]].
    eapply Forall_impl; [exact Hps|]. intros c Hcm. apply Hc, less_asym. done.
  - exists ps, (qs ++ [y]). split_and!; [by rewrite <- app_assoc|done|].
    apply Forall_app. split; [done|by repeat constructor].
Qed.

Section Unique.
Context (less : Z → Z → bool) (l d : Z).

(** Where the removed elements go: nowhere, or onto a list apart from [xs]. *)
Definition dups_at (h : heap) (ds xs : list Z) : Prop :=
  d = NULL ∨ (dlist h d ds ∧ ∀ c, c ∈ nodes d ds → c ∉ nodes l xs).

Lemma dlist_notin h ys e zs : dlist h l (ys ++ e :: zs) → e ∉ nodes l (ys ++ zs) ∧ e ≠ NULL.
Proof.
  intros Hdl. pose proof (dl_nodup _ _ _ Hdl) as Hnd. split.
  - assert (nodes l (ys ++ e :: zs) ≡ₚ e :: nodes l (ys ++ zs)) as Hp.
    { unfold nodes. rewrite <- !app_assoc. cbn [app]. solve_Permutation. }
    rewrite Hp in Hnd. by apply NoDup_cons in Hnd as [? _].
  - apply (nodes_nonnull h l _ Hdl). unfold nodes. set_solver.
Qed.

(** One removal, with the removed element handed to [d]. *)
Lemma unique_drop h ds ys e zs :
  dlist h l (ys ++ e :: zs) → dups_at h ds (ys ++ e :: zs) →
  ∃ h', (list_remove e ;;
         (if negb (d =? NULL) then list_push_back d e else ret tt)) h = Ok (tt, h') ∧
    dlist h' l (ys ++ zs) ∧ dups_at h' (ds ++ [e]) (ys ++ zs).
Proof.
  intros Hdl Hd. destruct (dlist_notin h ys e zs Hdl) as [Hfresh He].
  destruct (list_remove_ok h l ys e zs Hdl) as (h1 & Hr & Hdl1 & Hag & _).
  destruct Hd as [Hd|[Hdd Hdis]].
  { exists h1. split_and!; [|done|by left]. rewrite (bind_Ok _ _ _ _ _ Hr), Hd. done. }
  assert (∀ c, c ∈ nodes l (ys ++ zs) → c ∈ nodes l (ys ++ e :: zs)) as Hsub
    by (intros c; unfold nodes; set_solver).
  assert (dlist h1 d ds) as Hdd1 by (eapply dlist_agree;
    [exact Hag|intros c Hc Hin; by apply (Hdis c Hc), Hsub|done]).
  assert (e ∉ nodes d ds) as Hed.
  { intros Hin. apply (Hdis e Hin). unfold nodes. set_solver. }
  destruct (list_push_back_ok h1 d ds e Hdd1 He Hed) as (h2 & Hp & Hdd2 & Hag2).
  exists h2. split_and!.
  - rewrite (bind_Ok _ _ _ _ _ Hr), neqb by (by eapply list_nonnull). done.
  - eapply dlist_agree; [exact Hag2| |done]. intros c Hc Hin.
    apply elem_of_cons in Hin as [->|Hin]; [done|]. eapply Hdis; eauto.
  - right. split; [done|]. intros c Hin Hc. unfold nodes in Hin.
    rewrite elem_of_cons, !elem_of_app, list_elem_of_singleton in Hin.
    destruct (decide (c = e)) as [->|Hne]; [done|]. apply (Hdis c); [|auto].
    unfold nodes. set_solver.
Qed.

Lemma unique_loop : ∀ n h ds ys a zs,
  dlist h l (ys ++ a :: zs) → dups_at h ds (ys ++ a :: zs) → (length zs < n)%nat →
  ∃ h', iter n (λ elem,
      next <- list_next elem ;;
      z <- list_end l ;;
      if next =? z then ret (inr tt)
      else if negb (less elem next) && negb (less next elem) then
        list_remove next ;;
        (if negb (d =? NULL) then list_push_back d next else ret tt) ;;
        ret (inl elem)
      else ret (inl next)) a h = Ok (tt, h') ∧
    dlist h' l (ys ++ a :: (unique less a zs).1) ∧
    dups_at h' (ds ++ (unique less a zs).2) (ys ++ a :: (unique less a zs).1).
Proof.
  induction n as [|n IH]; intros h ds ys a zs Hdl Hd Hn; [lia|].
  pose proof (list_end_ok h l _ Hdl) as Hend. destruct (next_after h l _ _ _ Hdl) as [Hnx _].
  destruct zs as [|b zs].
  { exists h. cbn [unique fst snd]. rewrite app_nil_r. split_and!; [|done..].
    erewrite iter_step; [|rewrite (bind_Ok _ _ _ _ _ Hnx), (bind_Ok _ _ _ _ _ Hend);
      simpl first_of; by rewrite Z.eqb_refl]. done. }
  assert (dlist h l ((ys ++ [a]) ++ b :: zs)) as Hdlb by (by rewrite <- app_assoc).
  assert (b ≠ tail_of l) as Hb by (by eapply pos_neq_tail).
  cbn [first_of head from_option id] in Hnx.
  cbn [unique]. destruct (negb (less a b) && negb (less b a)) eqn:E.
  - destruct (unique_drop h ds (ys ++ [a]) b zs) as (h1 & Hdrop & Hdl1 & Hd1); [done|by rewrite <- app_assoc|].
    rewrite <- app_assoc in Hdl1, Hd1.
    destruct (IH h1 (ds ++ [b]) ys a zs Hdl1 Hd1) as (h' & Hr & Hdl' & Hd'); [simpl in Hn; lia|].
    exists h'. destruct (unique less a zs) as [k dl]. cbn [fst snd] in *.
    rewrite <- app_assoc in Hd'. split_and!; [|done..].
    erewrite iter_continue; [exact Hr|]. rewrite (bind_Ok _ _ _ _ _ Hnx), (bind_Ok _ _ _ _ _ Hend).
    rewrite neqb, E by done. apply bind_inv in Hdrop as (? & ? & H1 & H2).
    by rewrite (bind_Ok _ _ _ _ _ H1), (bind_Ok _ _ _ _ _ H2).
  - destruct (IH h ds (ys ++ [a]) b zs) as (h' & Hr & Hdl' & Hd');
      [done|by rewrite <- app_assoc|simpl in Hn; lia|].
    exists h'. destruct (unique less b zs) as [k dl]. cbn [fst snd] in *.
    rewrite <- app_assoc in Hdl', Hd'. split_and!; [|done..].
    erewrite iter_continue; [exact Hr|]. rewrite (bind_Ok _ _ _ _ _ Hnx), (bind_Ok _ _ _ _ _ Hend).
    by rewrite neqb, E.
Qed.

Lemma list_unique_run h a xs ds :
  dlist h l (a :: xs) → dups_at h ds (a :: xs) →
  ∃ h', list_unique less l d h = Ok (tt, h') ∧ dlist h' l (a :: (unique less a xs).1) ∧
    dups_at h' (ds ++ (unique less a xs).2) (a :: (unique less a xs).1).
Proof.
  intros Hdl Hd. pose proof (walk_fuel_ge h l _ Hdl) as Hfuel. simpl in Hfuel.
  destruct (unique_loop (walk_fuel h) h ds [] a xs) as (h' & Hr & ? & ?); [done..|lia|].
  exists h'. split_and!; [|done..]. unfold list_unique.
  rewrite neqb by (by eapply list_nonnull). rewrite bind_assert by done.
  rewrite (bind_Ok _ _ _ _ _ (list_empty_ok _ _ _ Hdl)). rewrite bool_decide_eq_false_2 by done.
  rewrite (bind_Ok _ _ _ _ _ (list_begin_ok _ _ _ Hdl)). exact Hr.
Qed.
End Unique.

(** ** Sequences of list operations *)

(** Client-visible operations on one list; [Before] inserts in front of an element. *)
Inductive lop :=
  | PushFront (e : Z) | PushBack (e : Z) | Before (b e : Z)
  | PopFront | PopBack | Remove (e : Z) | Reverse | Size.

Definition exec_op (l : Z) (o : lop) : M heap Z :=
  match o with
  | PushFront e => list_push_front l e ;; ret 0
  | PushBack e => list_push_back l e ;; ret 0
  | Before b e => list_insert b e ;; ret 0
  | PopFront => list_pop_front l
  | PopBack => list_pop_back l
  | Remove e => list_remove e ;; ret 0
  | Reverse => list_reverse l ;; ret 0
  | Size => list_size l
  end.

Fixpoint exec_ops (l : Z) (os : list lop) : M heap (list Z) :=
  match os with
  | [] => ret []
  | o :: os => r <- exec_op l o ;; rs <- exec_ops l os ;; ret (r :: rs)
  end.

Fixpoint split_at (b : Z) (xs : list Z) : option (list Z * list Z) :=
  match xs with
  | [] => None
  | x :: xs' =>
      if x =? b then Some ([], xs')
      else match split_at b xs' with Some (p, q) => Some (x :: p, q) | None => None end
  end.

Definition fresh (l : Z) (xs : list Z) (e : Z) : bool :=
  bool_decide (e ≠ NULL) && bool_decide (e ∉ nodes l xs).

(** The same operation on the sequence of elements; [None] breaks the contract. *)
Definition spec_op (l : Z) (xs : list Z) (o : lop) : option (Z * list Z) :=
  match o with
  | PushFront e => if fresh l xs e then Some (0, e :: xs) else None
  | PushBack e => if fresh l xs e then Some (0, xs ++ [e]) else None
  | Before b e =>
      if fresh l xs e then
        match split_at b xs with Some (p, q) => Some (0, p ++ e :: b :: q) | None => None end
      else None
  | PopFront => match xs with x :: xs' => Some (x, xs') | [] => None end
  | PopBack => match last xs with Some x => Some (x, removelast xs) | None => None end
  | Remove e => match split_at e xs with Some (p, q) => Some (0, p ++ q) | None => None end
  | Reverse => Some (0, reverse xs)
  | Size => Some (u32 (zlen xs), xs)
  end.

Fixpoint spec_ops (l : Z) (xs : list Z) (os : list lop) : option (list Z * list Z) :=
  match os with
  | [] => Some ([], xs)
  | o :: os =>
      match spec_op l xs o with
      | None => None
      | Some (r, xs') =>
          match spec_ops l xs' os with Some (rs, ys) => Some (r :: rs, ys) | None => None end
      end
  end.

Lemma split_at_app b xs p q : split_at b xs = Some (p, q) → xs = p ++ b :: q.
Proof.
  revert p q. induction xs as [|x xs IH]; intros p q; [done|]. cbn.
  destruct (Z.eqb_spec x b) as [->|_]; [by intros [= <- <-]|].
  destruct (split_at b xs) as [[p' q']|]; [|done]. intros [= <- <-]. by rewrite (IH p' q').
Qed.

Lemma fresh_spec l xs e : fresh l xs e = true → e ≠ NULL ∧ e ∉ nodes l xs.
Proof. unfold fresh. intros [H1 H2]%andb_true_iff. by apply bool_decide_eq_true in H1, H2. Qed.

Lemma then_ret {A} (c : M heap A) h a h' r :
  c h = Ok (a, h') → (c ;; ret r) h = Ok (r : Z, h').
Proof. intros H. by rewrite (bind_Ok _ _ _ _ _ H). Qed.

Lemma exec_op_ok h l xs o r ys :
  dlist h l xs → spec_op l xs o = Some (r, ys) →
  ∃ h', exec_op l o h = Ok (r, h') ∧ dlist h' l ys.
Proof.
  intros Hdl. destruct o as [e|e|b e| | |e| |]; cbn [spec_op exec_op]; intros Hs.
  - destruct (fresh l xs e) eqn:Hfr; [|done]. apply fresh_spec in Hfr as [He Hf]. injection Hs as <- <-.
    destruct (list_push_front_ok h l xs e) as (h' & ? & ? & _); [done..|]. eauto using then_ret.
  - destruct (fresh l xs e) eqn:Hfr; [|done]. apply fresh_spec in Hfr as [He Hf]. injection Hs as <- <-.
    destruct (list_push_back_ok h l xs e) as (h' & ? & ? & _); [done..|]. eauto using then_ret.
  - destruct (fresh l xs e) eqn:Hfr; [|done]. apply fresh_spec in Hfr as [He Hf].
    destruct (split_at b xs) as [[p q]|] eqn:Hsp; [|done]. apply split_at_app in Hsp as ->. injection Hs as <- <-.
    destruct (list_insert_ok h l p (b :: q) e) as (h' & ? & ? & _); [done..|]. eauto using then_ret.
  - destruct xs as [|x xs]; [done|]. injection Hs as <- <-.
    destruct (list_pop_front_ok h l x xs) as (h' & ? & ? & _); eauto.
  - destruct xs as [|x xs _] using rev_ind; [done|].
    rewrite last_snoc, removelast_last in Hs. injection Hs as <- <-.
    destruct (list_pop_back_ok h l x xs) as (h' & ? & ? & _); eauto.
  - destruct (split_at e xs) as [[p q]|] eqn:Hsp; [|done]. apply split_at_app in Hsp as ->. injection Hs as <- <-.
    destruct (list_remove_ok h l p e q) as (h' & ? & ? & _); [done|]. eauto using then_ret.
  - injection Hs as <- <-. destruct (list_reverse_ok h l xs) as (h' & ? & ? & _); [done|].
    eauto using then_ret.
  - injection Hs as <- <-. exists h. split; [by apply list_size_ok|done].
Qed.

(** ** Deciding the representation predicate on concrete heaps *)

#[export] Instance link_dec h a b : Decision (link h a b).
Proof. unfold link. apply _. Defined.

#[export] Instance seg_dec h ns : Decision (seg h ns).
Proof. induction ns as [|a [|b ns] IH]; simpl; apply _. Defined.

#[export] Instance dlist_dec h l xs : Decision (dlist h l xs).
Proof.
  refine (cast_if (decide (seg h (nodes l xs) ∧ hprev h !! head_of l = Some NULL ∧
    hnext h !! tail_of l = Some NULL ∧ NoDup (nodes l xs) ∧ NULL ∉ nodes l xs))).
  - abstract (destruct_and!; by split).
  - abstract (intros []; tauto).
Defined.

#[export] Instance ltb_strict_weak : StrictWeak Z.ltb.
Proof. split; intros *; rewrite ?Z.ltb_lt, !Z.ltb_ge; lia. Qed.

(** A list at address 1000 with elements at the given addresses. *)
Definition demo (xs : list Z) : heap :=
  match exec_ops 1000 (PushBack <$> xs)
          (set_next 1008 NULL (set_prev 1008 1000 (set_next 1000 1008
            (set_prev 1000 NULL {| hprev := ∅; hnext := ∅ |})))) with
  | Ok (_, h) => h
  | Err _ => {| hprev := ∅; hnext := ∅ |}
  end.

(** Orders addresses by their last decimal digit only, so that ties occur. *)
Definition digit_less (a b : Z) : bool := a `mod` 10 <? b `mod` 10.

#[export] Instance digit_strict_weak : StrictWeak digit_less.
Proof. unfold digit_less. split; intros *; rewrite ?Z.ltb_lt, !Z.ltb_ge; lia. Qed.

(** [list_sort] returns, with every internal assertion satisfied, and leaves
    the list holding the same elements in nondecreasing order; equivalent elements keep
    their relative order, and memory outside the list's nodes is untouched. *)
Theorem list_sort_ok less `{StrictWeak less} h l xs :
  dlist h l xs → zlen xs < W32 →
  ∃ ys h', list_sort less l h = Ok (tt, h') ∧ dlist h' l ys ∧ ys ≡ₚ xs ∧
    StronglySorted (le less) ys ∧
    (∀ x, filter (λ c, equiv less x c) ys = filter (λ c, equiv less x c) xs) ∧
    agree_off (nodes l xs) h h'.
Proof.
  intros Hdl Hw. destruct (list_sort_run less l h xs Hdl Hw) as (ys & h' & ? & ? & ? & [? ?] & ?).
  exists ys, h'. auto 10.
Qed.

Lemma list_sort_ok_witness :
  dlist (demo [2007; 2013; 2023; 2001]) 1000 [2007; 2013; 2023; 2001] ∧
  ∃ ys h', list_sort digit_less 1000 (demo [2007; 2013; 2023; 2001]) = Ok (tt, h') ∧
    dlist h' 1000 ys ∧ ys ≡ₚ [2007; 2013; 2023; 2001].
Proof.
  assert (dlist (demo [2007; 2013; 2023; 2001]) 1000 [2007; 2013; 2023; 2001]) as Hdl
    by by_decide.
  split; [exact Hdl|].
  destruct (list_sort_ok digit_less _ _ _ Hdl) as (ys & h' & H1 & H2 & H3 & _); [reflexivity|].
  exists ys, h'. split_and!; assumption.
Defined.

(** Property C38.  Any sequence of insertions, removals, pops, reversals and size queries
    that respects the contract of list.h runs without a fault or a failed assertion on the
    linked structure, returns what the same operations return on the sequence of
    elements, and leaves a well-formed list of the resulting sequence. *)
Theorem list_ops_refine h l xs os rs ys :
  dlist h l xs → spec_ops l xs os = Some (rs, ys) →
  ∃ h', exec_ops l os h = Ok (rs, h') ∧ dlist h' l ys.
Proof.
  revert h xs rs. induction os as [|o os IH]; intros h xs rs Hdl; cbn [spec_ops exec_ops].
  - intros [= <- <-]. by exists h.
  - destruct (spec_op l xs o) as [[r xs']|] eqn:Ho; [|done].
    destruct (spec_ops l xs' os) as [[rs' ys']|] eqn:Hos; [|done]. intros [= <- <-].
    destruct (exec_op_ok h l xs o r xs' Hdl Ho) as (h1 & Hr1 & Hd1).
    destruct (IH h1 xs' rs' Hd1 Hos) as (h2 & Hr2 & Hd2). exists h2. split; [|done].
    by rewrite (bind_Ok _ _ _ _ _ Hr1), (bind_Ok _ _ _ _ _ Hr2).
Qed.

Lemma list_ops_refine_witness :
  let os := [PushFront 2004; Before 2003 2008; Reverse; PopFront; Remove 2008; Size; PopBack] in
  dlist (demo [2001; 2003]) 1000 [2001; 2003] ∧
  spec_ops 1000 [2001; 2003] os = Some ([0; 0; 0; 2003; 0; 2; 2004], [2001]) ∧
  ∃ h', exec_ops 1000 os (demo [2001; 2003]) = Ok ([0; 0; 0; 2003; 0; 2; 2004], h') ∧
        dlist h' 1000 [2001].
Proof.
  intros os. assert (dlist (demo [2001; 2003]) 1000 [2001; 2003]) as Hdl
    by by_decide.
  assert (spec_ops 1000 [2001; 2003] os = Some ([0; 0; 0; 2003; 0; 2; 2004], [2001])) as Hs
    by (vm_compute; reflexivity).
  split; [exact Hdl|]. split; [exact Hs|].
  exact (list_ops_refine _ _ _ _ _ _ Hdl Hs).
Defined.

(** [list_insert_ordered] into a sorted list gives a sorted list of the old
    elements and the new one, with the new one behind every element equivalent to it. *)
Theorem list_insert_ordered_ok less `{StrictWeak less} h l xs e :
  dlist h l xs → StronglySorted (le less) xs → e ≠ NULL → e ∉ nodes l xs →
  ∃ ys h', list_insert_ordered less l e h = Ok (tt, h') ∧ dlist h' l ys ∧ ys ≡ₚ e :: xs ∧
    StronglySorted (le less) ys ∧
    (∀ x, filter (λ c, equiv less x c) ys = filter (λ c, equiv less x c) (xs ++ [e])).
Proof.
  intros Hdl Hs He Hf. destruct (list_insert_ordered_run less l h xs e Hdl He Hf) as (h' & ? & ? & _).
  exists (insert_ordered less e xs), h'.
  split_and!; [done..|apply insert_ordered_perm|by apply insert_ordered_sorted|].
  intros x. by apply insert_ordered_stable.
Qed.

Lemma list_insert_ordered_ok_witness :
  dlist (demo [2001; 2013; 2025]) 1000 [2001; 2013; 2025] ∧
  ∃ ys h', list_insert_ordered digit_less 1000 3003 (demo [2001; 2013; 2025]) = Ok (tt, h') ∧
    dlist h' 1000 ys ∧ ys ≡ₚ [3003; 2001; 2013; 2025].
Proof.
  assert (dlist (demo [2001; 2013; 2025]) 1000 [2001; 2013; 2025]) as Hdl
    by by_decide.
  split; [exact Hdl|].
  destruct (list_insert_ordered_ok digit_less _ _ _ 3003 Hdl) as (ys & h' & H1 & H2 & H3 & _).
  - repeat constructor.
  - done.
  - by_decide.
  - exists ys, h'. split_and!; assumption.
Defined.

Lemma unique_perm less a xs : (unique less a xs).1 ++ (unique less a xs).2 ≡ₚ xs.
Proof.
  revert a. induction xs as [|x xs IH]; intros a; [done|]. cbn [unique]. case_match.
  - specialize (IH a). destruct (unique less a xs). cbn in *. rewrite <- IH. solve_Permutation.
  - specialize (IH x). destruct (unique less x xs). cbn in *. by rewrite IH.
Qed.

Lemma unique_strict less `{SW : StrictWeak less} a xs :
  StronglySorted (le less) (a :: xs) →
  StronglySorted (λ x y, less x y = true) (a :: (unique less a xs).1).
Proof.
  revert a. induction xs as [|x xs IH]; intros a Hs; [by repeat constructor|].
  inversion Hs as [|?? Hxs Ha]; subst. inversion Ha as [|?? Hax Haxs]; subst. cbn [unique].
  destruct (negb (less a x) && negb (less x a)) eqn:E.
  - destruct (unique less a xs) as [k d] eqn:Eu. cbn [fst]. specialize (IH a). rewrite Eu in IH.
    apply IH. inversion Hxs; subst. by constructor.
  - specialize (IH x Hxs). destruct (unique less x xs) as [k d]. cbn [fst] in *.
    assert (less a x = true) as Hlt.
    { unfold le in Hax. rewrite Hax in E. by destruct (less a x). }
    constructor; [done|]. inversion IH as [|?? _ Hk]; subst. constructor; [done|].
    eapply Forall_impl; [exact Hk|]. intros c Hc. cbn in *. apply less_asym in Hc.
    destruct (less a c) eqn:E2; [done|]. rewrite (nless_trans x c a) in Hlt; done.
Qed.

Lemma unique_equiv less a xs y :
  y ∈ (unique less a xs).2 → ∃ x, x ∈ a :: (unique less a xs).1 ∧ equiv less x y = true.
Proof.
  revert a. induction xs as [|x xs IH]; intros a; [intros []%not_elem_of_nil|]. cbn [unique].
  destruct (negb (less a x) && negb (less x a)) eqn:E.
  - specialize (IH a). destruct (unique less a xs) as [k d]. cbn [fst snd] in *.
    intros [->|Hin]%elem_of_cons; [|by apply IH]. exists a. split; [by left|done].
  - specialize (IH x). destruct (unique less x xs) as [k d]. cbn [fst snd] in *.
    intros Hin. destruct (IH Hin) as (z & Hz & ?). exists z. split; [by right|done].
Qed.

(** [list_unique] on a sorted list keeps a strictly increasing selection of
    the elements and appends the others, each equivalent to a kept one, to the list of
    duplicates; the two lists stay well formed and disjoint. *)
Theorem list_unique_ok less `{StrictWeak less} h l d a xs ds :
  dlist h l (a :: xs) → dlist h d ds → (∀ c, c ∈ nodes d ds → c ∉ nodes l (a :: xs)) →
  StronglySorted (le less) (a :: xs) →
  ∃ ks es h', list_unique less l d h = Ok (tt, h') ∧ dlist h' l ks ∧ dlist h' d (ds ++ es) ∧
    ks ++ es ≡ₚ a :: xs ∧ StronglySorted (λ x y, less x y = true) ks ∧
    (∀ y, y ∈ es → ∃ x, x ∈ ks ∧ equiv less x y = true).
Proof.
  intros Hdl Hd Hdis Hs.
  destruct (list_unique_run less l d h a xs ds Hdl) as (h' & Hr & Hk & He); [by right|].
  exists (a :: (unique less a xs).1), (unique less a xs).2, h'. split_and!; [done..| | | |].
  - destruct He as [->|[He _]]; [|done]. by apply list_nonnull in Hd.
  - cbn. by rewrite unique_perm.
  - by apply unique_strict.
  - intros y. apply unique_equiv.
Qed.

(** Two lists, at 1000 and 5000. *)
Definition demo2 (xs ys : list Z) : heap :=
  match (list_init 5000 ;; exec_ops 5000 (PushBack <$> ys)) (demo xs) with
  | Ok (_, h) => h
  | Err _ => demo xs
  end.

Lemma list_unique_ok_witness :
  let h := demo2 [2001; 2003; 2013; 2005] [4004] in
  dlist h 1000 [2001; 2003; 2013; 2005] ∧ dlist h 5000 [4004] ∧
  ∃ ks es h', list_unique digit_less 1000 5000 h = Ok (tt, h') ∧ dlist h' 1000 ks ∧
    dlist h' 5000 ([4004] ++ es) ∧ ks ++ es ≡ₚ [2001; 2003; 2013; 2005].
Proof.
  intros h.
  assert (dlist h 1000 [2001; 2003; 2013; 2005]) as Hdl by by_decide.
  assert (dlist h 5000 [4004]) as Hd by by_decide.
  split; [exact Hdl|]. split; [exact Hd|].
  destruct (list_unique_ok digit_less h 1000 5000 2001 [2003; 2013; 2005] [4004] Hdl Hd)
    as (ks & es & h' & H1 & H2 & H3 & H4 & _).
  - apply Forall_forall. by_decide.
  - repeat constructor.
  - exists ks, es, h'. split_and!; assumption.
Defined.

(** [list_max] returns the first of the greatest elements. *)
Theorem list_max_ok less `{StrictWeak less} h l x xs :
  dlist h l (x :: xs) →
  ∃ m ps qs, list_max less l h = Ok (m, h) ∧ x :: xs = ps ++ m :: qs ∧
    Forall (λ c, less c m = true) ps ∧ Forall (λ c, less m c = false) qs.
Proof.
  intros Hdl. destruct (pick_max_first less xs x) as (ps & qs & ? & ? & ?).
  exists (pick_max less x xs), ps, qs. split_and!; [by apply list_max_run|done..].
Qed.

Lemma list_max_ok_witness :
  dlist (demo [2003; 2017; 2007]) 1000 [2003; 2017; 2007] ∧
  ∃ m ps qs, list_max digit_less 1000 (demo [2003; 2017; 2007]) = Ok (m, demo [2003; 2017; 2007]) ∧
    [2003; 2017; 2007] = ps ++ m :: qs.
Proof.
  assert (dlist (demo [2003; 2017; 2007]) 1000 [2003; 2017; 2007]) as Hdl by by_decide.
  split; [exact Hdl|].
  destruct (list_max_ok digit_less _ _ _ _ Hdl) as (m & ps & qs & H1 & H2 & _).
  exists m, ps, qs. split_and!; assumption.
Defined.
