(* ===== verification/Hash.v ===== *)
(** * Hash tables

    lib/kernel/hash.c: a table of buckets, each an intrusive list of elements.  A
    bucket is the sequence of element addresses that [DList] shows the linked
    structure to represent.  The hash and comparison functions are the client's;
    what hash.h requires of them is the interface class [HashLaws].  [malloc] may
    refuse the new bucket array of a rehash, so that answer is an argument. *)

From S2P Require Import Prelude Bytes Vaddr DList DListSort.
Local Open Scope c_scope.

(** ** Hash functions *)

Definition FNV_32_PRIME : Z := 16777619.
Definition FNV_32_BASIS : Z := 2166136261.

Definition hash_bytes (buf : list Z) : Z :=
  foldl (λ hash c, Z.lxor (u32 (hash * FNV_32_PRIME)) c) FNV_32_BASIS buf.

(** The bytes of the string up to its terminator. *)
Fixpoint hash_string_from (hash : Z) (s : list Z) : res Z :=
  match s with
  | [] => Err Fault
  | c :: s =>
      if c =? 0 then Ok hash
      else hash_string_from (Z.lxor (u32 (hash * FNV_32_PRIME)) c) s
  end.
Definition hash_string (s : list Z) : res Z := hash_string_from FNV_32_BASIS s.

Definition hash_int (i : Z) : Z := hash_bytes (le32 (u32 i)).

(** ** The table *)

Record hash := { h_elem_cnt : Z; h_bucket_cnt : Z; h_buckets : list (list Z) }.

Definition turn_off_least_1bit (x : Z) : Z := Z.land x (u32 (x - 1)).
Definition is_power_of_2 (x : Z) : bool := negb (x =? 0) && (turn_off_least_1bit x =? 0).

Definition MIN_ELEMS_PER_BUCKET : Z := 1.
Definition BEST_ELEMS_PER_BUCKET : Z := 2.
Definition MAX_ELEMS_PER_BUCKET : Z := 4.

Section Table.
(** [h->hash] and [h->less], already applied to [h->aux]. *)
Context (hashf : Z → Z) (less : Z → Z → bool).

(** The index of the bucket [find_bucket] points at. *)
Definition find_bucket (e : Z) (h : hash) : res Z :=
  let bucket_idx := Z.land (hashf e) (u32 (h.(h_bucket_cnt) - 1)) in
  if bucket_idx <? zlen h.(h_buckets) then Ok bucket_idx else Err Fault.

Definition bucket_at (h : hash) (i : Z) : list Z := default [] (h.(h_buckets) !! Z.to_nat i).

(** The first element of the bucket equal to [e]; [None] is the null pointer. *)
Definition find_elem (bucket : list Z) (e : Z) : option Z :=
  head (filter (λ hi, negb (less hi e) && negb (less e hi)) bucket).

Definition set_bucket (h : hash) (i : Z) (b : list Z) : hash :=
  {| h_elem_cnt := h.(h_elem_cnt); h_bucket_cnt := h.(h_bucket_cnt);
     h_buckets := <[Z.to_nat i := b]> h.(h_buckets) |}.

Definition insert_elem (h : hash) (i : Z) (e : Z) : hash :=
  set_bucket {| h_elem_cnt := u32 (h.(h_elem_cnt) + 1); h_bucket_cnt := h.(h_bucket_cnt);
                h_buckets := h.(h_buckets) |} i (e :: bucket_at h i).

(** [list_remove] unlinks the element from the bucket that holds it. *)
Definition remove_elem (h : hash) (e : Z) : res hash :=
  if bool_decide (e ∈ concat h.(h_buckets)) then
    Ok {| h_elem_cnt := u32 (h.(h_elem_cnt) - 1); h_bucket_cnt := h.(h_bucket_cnt);
          h_buckets := filter (λ x, x ≠ e) <$> h.(h_buckets) |}
  else Err Fault.

(** The [while] loop that reduces a bucket count to a power of two. *)
Fixpoint power_of_2_below (fuel : nat) (n : Z) : res Z :=
  if is_power_of_2 n then Ok n
  else match fuel with
       | O => Err OutOfFuel
       | S fuel => power_of_2_below fuel (turn_off_least_1bit n)
       end.

Definition new_bucket_count (elem_cnt : Z) : res Z :=
  let n := elem_cnt `div` BEST_ELEMS_PER_BUCKET in
  power_of_2_below 32 (if n <? 4 then 4 else n).

(** Moves one element to the front of its new bucket. *)
Definition move_elem (r : res hash) (e : Z) : res hash :=
  let* h := r in
  let* i := find_bucket e h in
  Ok (set_bucket h i (e :: bucket_at h i)).

Definition rehash (mem : bool) (h : hash) : res hash :=
  let* new_bucket_cnt := new_bucket_count h.(h_elem_cnt) in
  if new_bucket_cnt =? h.(h_bucket_cnt) then Ok h
  else if negb mem then Ok h
  else
    foldl move_elem
      (Ok {| h_elem_cnt := h.(h_elem_cnt); h_bucket_cnt := new_bucket_cnt;
             h_buckets := replicate (Z.to_nat new_bucket_cnt) [] |})
      (concat h.(h_buckets)).

Definition hash_clear {D} (destructor : option (Z → M D unit)) (h : hash) : M D hash :=
  (match destructor with
   | Some f => foldr (λ e k, f e ;; k) (ret tt) (concat h.(h_buckets))
   | None => ret tt
   end) ;;
  ret {| h_elem_cnt := 0; h_bucket_cnt := h.(h_bucket_cnt);
         h_buckets := (λ _, []) <$> h.(h_buckets) |}.

(** [mem] is whether [malloc] found room for the four buckets. *)
Definition hash_init {D} (mem : bool) : M D (option hash) :=
  if mem then
    h <- hash_clear None {| h_elem_cnt := 0; h_bucket_cnt := 4; h_buckets := replicate 4 [] |} ;;
    ret (Some h)
  else ret None.

Definition hash_destroy {D} (destructor : option (Z → M D unit)) (h : hash) : M D unit :=
  match destructor with
  | Some _ => hash_clear destructor h ;; ret tt
  | None => ret tt
  end.

Definition hash_insert (mem : bool) (new : Z) (h : hash) : res (option Z * hash) :=
  let* bucket := find_bucket new h in
  let old := find_elem (bucket_at h bucket) new in
  let h := match old with None => insert_elem h bucket new | Some _ => h end in
  let* h := rehash mem h in
  Ok (old, h).

Definition hash_replace (mem : bool) (new : Z) (h : hash) : res (option Z * hash) :=
  let* bucket := find_bucket new h in
  let old := find_elem (bucket_at h bucket) new in
  let* h := match old with Some o => remove_elem h o | None => Ok h end in
  let h := insert_elem h bucket new in
  let* h := rehash mem h in
  Ok (old, h).

Definition hash_find (e : Z) (h : hash) : res (option Z) :=
  let* bucket := find_bucket e h in
  Ok (find_elem (bucket_at h bucket) e).

Definition hash_delete (mem : bool) (e : Z) (h : hash) : res (option Z * hash) :=
  let* bucket := find_bucket e h in
  let found := find_elem (bucket_at h bucket) e in
  match found with
  | Some o =>
      let* h := remove_elem h o in
      let* h := rehash mem h in
      Ok (found, h)
  | None => Ok (found, h)
  end.

Definition hash_apply {D} (action : Z → M D unit) (h : hash) : M D unit :=
  foldr (λ b k, foldr (λ e k, action e ;; k) (ret tt) b ;; k) (ret tt) h.(h_buckets).

Definition hash_size (h : hash) : Z := h.(h_elem_cnt).
Definition hash_empty (h : hash) : bool := h.(h_elem_cnt) =? 0.
End Table.

(** ** Iterators: the bucket index and where in the bucket the iterator stands *)

Inductive cursor := AtHead | AtElem (e : Z) | AtNull.
Record hash_iterator := { it_bucket : Z; it_elem : cursor }.

Definition hash_first (h : hash) : hash_iterator := {| it_bucket := 0; it_elem := AtHead |}.

(** [list_next]: the element after the cursor; [None] is [list_end]. *)
Fixpoint after (b : list Z) (e : Z) : option (option Z) :=
  match b with
  | [] => None
  | x :: b' => if x =? e then Some (head b') else after b' e
  end.
Definition cursor_next (b : list Z) (c : cursor) : res (option Z) :=
  match c with
  | AtHead => Ok (head b)
  | AtElem e => match after b e with Some n => Ok n | None => Err Fault end
  | AtNull => Err Fault
  end.

(** The [while] loop of [hash_next], with the elements of the buckets it may enter. *)
Fixpoint next_bucket (fuel : nat) (h : hash) (i : Z) (n : option Z) : res hash_iterator :=
  match n with
  | Some e => Ok {| it_bucket := i; it_elem := AtElem e |}
  | None =>
      match fuel with
      | O => Err OutOfFuel
      | S fuel =>
          if h.(h_bucket_cnt) <=? i + 1 then Ok {| it_bucket := i + 1; it_elem := AtNull |}
          else next_bucket fuel h (i + 1) (head (bucket_at h (i + 1)))
      end
  end.

Definition hash_next (h : hash) (i : hash_iterator) : res hash_iterator :=
  let* n := cursor_next (bucket_at h i.(it_bucket)) i.(it_elem) in
  next_bucket (S (Z.to_nat h.(h_bucket_cnt))) h i.(it_bucket) n.

Definition hash_cur (i : hash_iterator) : cursor := i.(it_elem).

(** ** Powers of two *)

Lemma odd_part y : 0 < y → ∃ t m, 0 ≤ t ∧ 0 ≤ m ∧ y = 2 ^ t * (2 * m + 1).
Proof.
  destruct y as [|p|p]; try lia. intros _. induction p as [p IH|p IH|].
  - exists 0, (Zpos p). lia.
  - destruct IH as (t & m & Ht & Hm & E). exists (t + 1), m. split_and!; [lia..|].
    rewrite Z.pow_add_r by lia. change (2 ^ 1) with 2. lia.
  - exists 0, 0. lia.
Qed.

Lemma turn_off_eq t m :
  0 ≤ t → 0 ≤ m → 2 ^ t * (2 * m + 1) < W32 →
  turn_off_least_1bit (2 ^ t * (2 * m + 1)) = 2 ^ (t + 1) * m.
Proof.
  intros Ht Hm HW. assert (0 < 2 ^ t) as Hp by (apply Z.pow_pos_nonneg; lia).
  assert (2 ^ (t + 1) = 2 * 2 ^ t) as E2 by (rewrite Z.pow_add_r by lia; change (2 ^ 1) with 2; lia).
  set (A := 2 ^ (t + 1) * m).
  assert (2 ^ t * (2 * m + 1) = A + 2 ^ t) as E by (unfold A; rewrite E2; ring).
  rewrite E in *. assert (0 ≤ A) by (unfold A; apply Z.mul_nonneg_nonneg; lia).
  assert (A `mod` 2 ^ (t + 1) = 0) as HA by (unfold A; rewrite Z.mul_comm; apply Z.mod_mul; lia).
  unfold turn_off_least_1bit. rewrite u32_small by (unfold is_u32; lia).
  replace (A + 2 ^ t - 1) with (A + (2 ^ t - 1)) by lia.
  rewrite <- (lor_add A (2 ^ t) (t + 1)), <- (lor_add A (2 ^ t - 1) (t + 1)) by lia.
  rewrite <- Z.lor_land_distr_r, land_low, Z.mod_same by lia. apply Z.lor_0_r.
Qed.

Lemma is_power_of_2_iff t m :
  0 ≤ t → 0 ≤ m → 2 ^ t * (2 * m + 1) < W32 →
  is_power_of_2 (2 ^ t * (2 * m + 1)) = true ↔ m = 0.
Proof.
  intros Ht Hm HW. assert (0 < 2 ^ t) as Hp by (apply Z.pow_pos_nonneg; lia).
  assert (0 < 2 ^ (t + 1)) as Hp1 by (apply Z.pow_pos_nonneg; lia).
  unfold is_power_of_2. rewrite turn_off_eq by done.
  rewrite andb_true_iff, negb_true_iff, Z.eqb_neq, Z.eqb_eq. split; [nia|].
  intros ->. split; nia.
Qed.

(** The loop ends within 32 steps at a power of two that is at least 4. *)
Lemma power_of_2_below_ok n j x :
  (32 ≤ Z.of_nat n + j) → 0 ≤ j → 4 ≤ x < W32 → (2 ^ j | x) →
  ∃ k, power_of_2_below n x = Ok (2 ^ k) ∧ 2 ≤ k < 32 ∧ 2 ^ k ≤ x.
Proof.
  revert j x. induction n as [|n IH]; intros j x Hn Hj Hx Hd.
  { exfalso. destruct Hd as [q ->]. assert (2 ^ 32 ≤ 2 ^ j) by (apply Z.pow_le_mono_r; lia).
    change (2 ^ 32) with W32 in *. destruct (decide (q ≤ 0)); nia. }
  destruct (odd_part x) as (t & m & Ht & Hm & E); [lia|].
  assert (0 < 2 ^ t) as Hp by (apply Z.pow_pos_nonneg; lia).
  destruct (is_power_of_2 x) eqn:Ep.
  - rewrite E in Ep. apply is_power_of_2_iff in Ep as ->; [|lia..].
    rewrite Z.mul_0_r, Z.mul_1_r in E. exists t.
    assert (2 ≤ t) by (apply (Z.pow_le_mono_r_iff 2); lia).
    assert (t < 32) by (apply (Z.pow_lt_mono_r_iff 2); [lia..|]; change (2 ^ 32) with W32; lia).
    split_and!; [|lia..]. cbn [power_of_2_below].
    replace (is_power_of_2 x) with true; [by rewrite E|].
    symmetry. rewrite E. replace (2 ^ t) with (2 ^ t * (2 * 0 + 1)) by lia.
    apply is_power_of_2_iff; lia.
  - assert (m ≠ 0) as Hm0.
    { intros ->. rewrite E in Ep. assert (is_power_of_2 (2 ^ t * (2 * 0 + 1)) = true); [|congruence].
      apply is_power_of_2_iff; lia. }
    cbn [power_of_2_below]. rewrite Ep, E, turn_off_eq by lia.
    assert (2 ^ (t + 1) = 2 * 2 ^ t) as E2 by (rewrite Z.pow_add_r by lia; change (2 ^ 1) with 2; lia).
    assert (j ≤ t) as Hjt.
    { destruct (decide (j ≤ t)) as [|Hlt]; [done|]. exfalso. destruct Hd as [q Hq].
      assert (2 ^ j = 2 ^ t * (2 * 2 ^ (j - t - 1))) as Ej.
      { replace j with (t + (1 + (j - t - 1))) at 1 by lia. rewrite !Z.pow_add_r by lia. done. }
      rewrite E, Ej in Hq. assert (2 * m + 1 = 2 * (q * 2 ^ (j - t - 1))) by nia. lia. }
    assert (2 * x ≤ 2 ^ (t + 1) * m * 3) by (rewrite E, E2; nia).
    destruct (IH (t + 1) (2 ^ (t + 1) * m)) as (k & Hk & Hk2 & Hk3); [lia..| |by exists m; lia|].
    { split; [|nia]. destruct (decide (x = 4)); [|lia].
      subst x. destruct (decide (t = 0)) as [->|]; [lia|]. destruct (decide (t = 1)) as [->|]; [lia|].
      assert (4 ≤ 2 ^ t) by (apply (Z.pow_le_mono_r 2 2); lia). nia. }
    exists k. split_and!; [done|lia..|nia].
Qed.

(** ** What a client's hash and comparison functions promise *)

Class HashLaws (hashf : Z → Z) (less : Z → Z → bool) : Prop := {
  hl_order : StrictWeak less;
  hl_u32 e : is_u32 (hashf e);
  hl_equal a b : equiv less a b = true → hashf a = hashf b;
}.
#[export] Existing Instance hl_order.

Lemma equiv_sym less a b : equiv less a b = equiv less b a.
Proof. unfold equiv. apply andb_comm. Qed.

Lemma equiv_trans less `{StrictWeak less} a b c :
  equiv less a b = true → equiv less b c = true → equiv less a c = true.
Proof.
  unfold equiv. rewrite !andb_true_iff, !negb_true_iff. intros [H1 H2] [H3 H4]. split.
  - by apply (nless_trans c b a).
  - by apply (nless_trans a b c).
Qed.

Lemma concat_insert {A} (bs : list (list A)) i b b' :
  bs !! i = Some b →
  ∃ p q, concat bs = p ++ b ++ q ∧ concat (<[i := b']> bs) = p ++ b' ++ q.
Proof.
  intros Hi. exists (concat (take i bs)), (concat (drop (S i) bs)). split.
  - rewrite <- (take_drop_middle bs i b Hi) at 1. by rewrite concat_app.
  - rewrite insert_take_drop by (by eapply lookup_lt_Some). by rewrite concat_app.
Qed.

Lemma concat_filter {A} (P : A → Prop) `{∀ x, Decision (P x)} (bs : list (list A)) :
  concat (filter P <$> bs) = filter P (concat bs).
Proof. induction bs as [|b bs IH]; [done|]. cbn. by rewrite filter_app, IH. Qed.

Lemma filter_ne_id (o : Z) (xs : list Z) : o ∉ xs → filter (λ x, x ≠ o) xs = xs.
Proof.
  induction xs as [|x xs IH]; [done|]. intros [H1 H2]%not_elem_of_cons.
  rewrite filter_cons, decide_True by congruence. by rewrite IH.
Qed.

Lemma concat_replicate_nil {A} n : concat (replicate n (@nil A)) = [].
Proof. by induction n. Qed.

Lemma elem_of_concat_at {A} (bs : list (list A)) x :
  x ∈ concat bs ↔ ∃ i b, bs !! i = Some b ∧ x ∈ b.
Proof.
  split.
  - induction bs as [|b bs IH]; cbn; [by intros ?%not_elem_of_nil|].
    intros [Hx|Hx]%elem_of_app; [by exists 0%nat, b|].
    destruct (IH Hx) as (i & b' & Hi & ?). by exists (S i), b'.
  - intros (i & b & Hi & Hx). revert i Hi. induction bs as [|b' bs IH]; intros [|i] Hi; try done; cbn.
    + injection Hi as ->. apply elem_of_app. by left.
    + apply elem_of_app. right. by apply (IH i).
Qed.

Section Invariant.
Context (hashf : Z → Z) (less : Z → Z → bool) `{HL : HashLaws hashf less}.

Definition contents (h : hash) : list Z := concat h.(h_buckets).
Definition slot (h : hash) (e : Z) : Z := hashf e `mod` h.(h_bucket_cnt).

(** Every element sits in the bucket its hash selects. *)
Record shape (h : hash) : Prop := {
  sh_pow : ∃ k, 2 ≤ k < 32 ∧ h.(h_bucket_cnt) = 2 ^ k;
  sh_len : zlen h.(h_buckets) = h.(h_bucket_cnt);
  sh_place i b e : h.(h_buckets) !! i = Some b → e ∈ b → Z.of_nat i = slot h e;
}.

(** No two distinct elements are equal for the client. *)
Definition keys (xs : list Z) : Prop :=
  NoDup xs ∧ ∀ x y, x ∈ xs → y ∈ xs → equiv less x y = true → x = y.

Record hwf (h : hash) : Prop := {
  hw_shape : shape h;
  hw_keys : keys (contents h);
  hw_cnt : h.(h_elem_cnt) = zlen (contents h);
  hw_small : zlen (contents h) < W32;
}.

Lemma keys_perm xs ys : xs ≡ₚ ys → keys xs → keys ys.
Proof.
  intros Hp [H1 H2]. split; [by rewrite <- Hp|]. intros x y Hx Hy. rewrite <- Hp in Hx, Hy. auto.
Qed.

Lemma shape_cnt h : shape h → 4 ≤ h.(h_bucket_cnt) < W32.
Proof.
  intros [(k & Hk & ->) _ _]. split; [apply (Z.pow_le_mono_r 2 2); lia|].
  apply (Z.pow_lt_mono_r 2 _ 32); lia.
Qed.

Lemma find_bucket_ok h e :
  shape h → find_bucket hashf e h = Ok (slot h e) ∧ 0 ≤ slot h e < h.(h_bucket_cnt).
Proof.
  intros Hs. pose proof (shape_cnt h Hs) as Hc. pose proof (@hl_u32 hashf less HL e) as Hu.
  assert (0 ≤ slot h e < h.(h_bucket_cnt)) as Hr by (apply Z.mod_pos_bound; lia).
  split; [|done]. unfold find_bucket.
  assert (Z.land (hashf e) (u32 (h.(h_bucket_cnt) - 1)) = slot h e) as ->.
  { rewrite u32_small by mlia. unfold slot. destruct Hs as [(k & Hk & ->) _ _].
    apply land_low. lia. }
  rewrite (sh_len h Hs). destruct (Z.ltb_spec (slot h e) h.(h_bucket_cnt)); [done|lia].
Qed.

Lemma slot_bucket h e :
  shape h → h.(h_buckets) !! Z.to_nat (slot h e) = Some (bucket_at h (slot h e)).
Proof.
  intros Hs. destruct (find_bucket_ok h e Hs) as [_ Hr]. pose proof (sh_len h Hs).
  unfold bucket_at. destruct (lookup_lt_is_Some_2 h.(h_buckets) (Z.to_nat (slot h e))) as [b Hb]; [lia|].
  by rewrite Hb.
Qed.

(** The answer to a search for [e] among [xs]. *)
Definition is_found (xs : list Z) (e : Z) (r : option Z) : Prop :=
  match r with
  | Some o => o ∈ xs ∧ equiv less o e = true
  | None => ∀ x, x ∈ xs → equiv less x e = false
  end.

Lemma is_found_fun xs e r r' : keys xs → is_found xs e r → is_found xs e r' → r = r'.
Proof.
  intros [_ Hk]. destruct r as [o|], r' as [o'|]; cbn; intros H1 H2; [..|done].
  - f_equal. apply Hk; [tauto..|]. apply (equiv_trans less o e o'); [apply H1|]. rewrite equiv_sym. apply H2.
  - destruct H1 as [H1 H1']. apply H2 in H1. congruence.
  - destruct H2 as [H2 H2']. apply H1 in H2. congruence.
Qed.

Lemma find_elem_found h e :
  shape h → is_found (contents h) e (find_elem less (bucket_at h (slot h e)) e).
Proof.
  intros Hs. pose proof (slot_bucket h e Hs) as Hb. unfold find_elem.
  destruct (filter _ _) as [|o os] eqn:E; cbn.
  - intros x Hx. apply elem_of_concat_at in Hx as (i & b & Hi & Hx).
    destruct (equiv less x e) eqn:Eq; [|done]. exfalso.
    pose proof (sh_place h Hs i b x Hi Hx) as Hpl. unfold slot in Hpl.
    rewrite (@hl_equal hashf less HL x e Eq) in Hpl. fold (slot h e) in Hpl.
    assert (b = bucket_at h (slot h e)) as Hb'.
    { assert (i = Z.to_nat (slot h e)) as Ei by lia. rewrite <- Ei, Hi in Hb. by injection Hb. }
    assert (x ∈ filter (λ hi, negb (less hi e) && negb (less e hi)) (bucket_at h (slot h e))) as Hin.
    { apply list_elem_of_filter. rewrite <- Hb'. split; [by apply Is_true_true|done]. }
    rewrite E in Hin. by apply not_elem_of_nil in Hin.
  - assert (o ∈ o :: os) as Hin by (by left). rewrite <- E in Hin.
    apply list_elem_of_filter in Hin as [Ho Hin]. apply Is_true_true in Ho. split; [|done].
    apply elem_of_concat_at. eauto.
Qed.

Lemma set_bucket_shape h e b' :
  shape h → (∀ x, x ∈ b' → x = e ∨ x ∈ bucket_at h (slot h e)) →
  shape (set_bucket h (slot h e) b').
Proof.
  intros Hs Hb'. pose proof (slot_bucket h e Hs) as Hb. destruct (find_bucket_ok h e Hs) as [_ Hr].
  pose proof Hs as [H1 H2 H3]. split; cbn.
  - done.
  - by rewrite length_insert.
  - intros i b x Hi Hx. apply list_lookup_insert_Some in Hi as [(<- & <- & _)|[_ Hi]]; [|by eapply H3].
    change (slot (set_bucket h (slot h e) b') x) with (slot h x). rewrite Z2Nat.id by lia.
    apply Hb' in Hx as [->|Hx]; [done|]. rewrite <- (H3 _ _ _ Hb Hx). lia.
Qed.

Lemma push_contents h e :
  shape h → contents (set_bucket h (slot h e) (e :: bucket_at h (slot h e))) ≡ₚ e :: contents h.
Proof.
  intros Hs. destruct (concat_insert h.(h_buckets) _ _ (e :: bucket_at h (slot h e)) (slot_bucket h e Hs))
    as (p & q & E1 & E2).
  unfold contents. cbn [h_buckets set_bucket]. rewrite E1, E2. solve_Permutation.
Qed.

Lemma insert_elem_ok h e :
  shape h →
  shape (insert_elem h (slot h e) e) ∧ contents (insert_elem h (slot h e) e) ≡ₚ e :: contents h.
Proof.
  intros Hs. set (h1 := {| h_elem_cnt := u32 (h_elem_cnt h + 1); h_bucket_cnt := h_bucket_cnt h;
    h_buckets := h_buckets h |}).
  assert (shape h1) as Hs1 by (by destruct Hs).
  change (insert_elem h (slot h e) e) with (set_bucket h1 (slot h1 e) (e :: bucket_at h1 (slot h1 e))).
  split; [|by apply (push_contents h1)]. apply set_bucket_shape; [done|]. intros x. rewrite elem_of_cons.
  done.
Qed.

Lemma remove_elem_ok h o :
  hwf h → o ∈ contents h →
  ∃ h', remove_elem h o = Ok h' ∧ shape h' ∧ o :: contents h' ≡ₚ contents h ∧
    h_bucket_cnt h' = h_bucket_cnt h ∧ h_elem_cnt h' = zlen (contents h').
Proof.
  intros [[H1 H2 H3] [Hnd _] Hcnt Hsm] Ho. unfold remove_elem. rewrite bool_decide_eq_true_2 by done.
  eexists. split; [done|].
  assert (o :: filter (λ x, x ≠ o) (contents h) ≡ₚ contents h) as Hp.
  { apply list_elem_of_split in Ho as (p & q & E). rewrite E in *. apply NoDup_app in Hnd as (Hp & Hd & Hq).
    apply NoDup_cons in Hq as [Hq _]. rewrite filter_app, filter_cons, decide_False by tauto.
    rewrite !filter_ne_id; [solve_Permutation|done|]. intros Hx. apply (Hd o Hx). by left. }
  split_and!; [|unfold contents; cbn [h_buckets]; by rewrite concat_filter|done|].
  - split; cbn; [done|by rewrite length_fmap|]. intros i b e Hi Hx.
    apply list_lookup_fmap_Some in Hi as (b0 & -> & Hb). apply list_elem_of_filter in Hx as [_ Hx].
    by eapply H3.
  - cbn [h_elem_cnt]. unfold contents. cbn [h_buckets]. rewrite concat_filter. fold (contents h).
    apply Permutation_length in Hp. cbn in Hp. rewrite Hcnt. rewrite u32_small; [lia|].
    unfold is_u32. lia.
Qed.
End Invariant.

Section Refinement.
Context (hashf : Z → Z) (less : Z → Z → bool) `{HL : HashLaws hashf less}.

Lemma move_all es : ∀ h,
  shape hashf h →
  ∃ h', foldl (move_elem hashf) (Ok h) es = Ok h' ∧ shape hashf h' ∧
    contents h' ≡ₚ es ++ contents h ∧ h_elem_cnt h' = h_elem_cnt h.
Proof.
  induction es as [|e es IH]; intros h Hs; [by exists h|]. cbn [foldl].
  destruct (find_bucket_ok hashf less h e Hs) as [Hf _].
  set (h1 := set_bucket h (slot hashf h e) (e :: bucket_at h (slot hashf h e))).
  assert (move_elem hashf (Ok h) e = Ok h1) as ->.
  { unfold move_elem. cbn [rbind]. by rewrite Hf. }
  assert (shape hashf h1) as Hs1.
  { apply (set_bucket_shape hashf less); [done|]. intros x. by rewrite elem_of_cons. }
  destruct (IH h1 Hs1) as (h' & Hr & Hs' & Hp & Hc). exists h'. split_and!; [done..| |done].
  rewrite Hp. unfold h1. rewrite (push_contents hashf less) by done. solve_Permutation.
Qed.

Lemma rehash_ok mem h :
  shape hashf h → 0 ≤ h_elem_cnt h < W32 →
  ∃ h', rehash hashf mem h = Ok h' ∧ shape hashf h' ∧ contents h' ≡ₚ contents h ∧
    h_elem_cnt h' = h_elem_cnt h.
Proof.
  intros Hs Hc. unfold rehash, new_bucket_count, BEST_ELEMS_PER_BUCKET.
  destruct (power_of_2_below_ok 32 0 (if h_elem_cnt h `div` 2 <? 4 then 4 else h_elem_cnt h `div` 2))
    as (k & -> & Hk & _); [lia..| |apply Z.divide_1_l|].
  { zcase; dm_lia. }
  cbn [rbind]. destruct (2 ^ k =? h_bucket_cnt h); [by exists h|].
  destruct mem; cbn [negb]; [|by exists h].
  destruct (move_all (concat (h_buckets h)) {| h_elem_cnt := h_elem_cnt h; h_bucket_cnt := 2 ^ k;
    h_buckets := replicate (Z.to_nat (2 ^ k)) [] |}) as (h' & Hr & Hs' & Hp & Hc').
  { split; cbn; [by exists k|rewrite length_replicate; apply Z2Nat.id, Z.pow_nonneg; lia|].
    intros i b e [-> _]%lookup_replicate. by intros ?%not_elem_of_nil. }
  exists h'. split_and!; [done..| |done]. rewrite Hp. unfold contents at 1. cbn [h_buckets].
  rewrite concat_replicate_nil. by rewrite app_nil_r.
Qed.

(** ** The table as a set of elements up to equality *)

Inductive hop := HInsert (e : Z) | HReplace (e : Z) | HFind (e : Z) | HDelete (e : Z) | HSize.
Inductive hret := RElem (o : option Z) | RSize (n : Z).

Definition exec_hop (mem : bool) (o : hop) (h : hash) : res (hret * hash) :=
  match o with
  | HInsert e => let* r := hash_insert hashf less mem e h in Ok (RElem r.1, r.2)
  | HReplace e => let* r := hash_replace hashf less mem e h in Ok (RElem r.1, r.2)
  | HFind e => let* r := hash_find hashf less e h in Ok (RElem r, h)
  | HDelete e => let* r := hash_delete hashf less mem e h in Ok (RElem r.1, r.2)
  | HSize => Ok (RSize (hash_size h), h)
  end.

Definition spec_find (xs : list Z) (e : Z) : option Z := head (filter (λ x, equiv less x e) xs).
Definition drop_elem (xs : list Z) (o : option Z) : list Z :=
  match o with Some o => filter (λ x, x ≠ o) xs | None => xs end.

(** [None]: the element is already linked into the table, or the table is full. *)
Definition spec_hop (xs : list Z) (o : hop) : option (hret * list Z) :=
  match o with
  | HInsert e =>
      if bool_decide (e ∈ xs) || (W32 - 1 <=? zlen xs) then None
      else Some (RElem (spec_find xs e),
                 match spec_find xs e with Some _ => xs | None => e :: xs end)
  | HReplace e =>
      if bool_decide (e ∈ xs) || (W32 - 1 <=? zlen xs) then None
      else Some (RElem (spec_find xs e), e :: drop_elem xs (spec_find xs e))
  | HFind e => Some (RElem (spec_find xs e), xs)
  | HDelete e => Some (RElem (spec_find xs e), drop_elem xs (spec_find xs e))
  | HSize => Some (RSize (zlen xs), xs)
  end.

Lemma spec_find_found xs e : is_found less xs e (spec_find xs e).
Proof.
  unfold spec_find. destruct (filter _ xs) as [|o os] eqn:E; cbn.
  - intros x Hx. destruct (equiv less x e) eqn:Eq; [|done]. exfalso.
    assert (x ∈ filter (λ x, equiv less x e) xs) as Hin.
    { apply list_elem_of_filter. split; [by apply Is_true_true|done]. }
    rewrite E in Hin. by apply not_elem_of_nil in Hin.
  - assert (o ∈ o :: os) as Hin by (by left). rewrite <- E in Hin.
    apply list_elem_of_filter in Hin as [Ho Hin]. by apply Is_true_true in Ho.
Qed.

Lemma table_find h xs e :
  hwf hashf less h → contents h ≡ₚ xs →
  find_elem less (bucket_at h (slot hashf h e)) e = spec_find xs e.
Proof.
  intros Hh Hp. apply (is_found_fun hashf less xs e); [by eapply keys_perm; [|apply Hh]| |apply spec_find_found].
  pose proof (find_elem_found hashf less h e (hw_shape _ _ _ Hh)) as Hf.
  destruct (find_elem _ _ _); cbn in *; [by rewrite <- Hp|]. intros x Hx. apply Hf. by rewrite Hp.
Qed.

Lemma hwf_intro h xs :
  shape hashf h → contents h ≡ₚ xs → keys less xs → zlen xs < W32 → h_elem_cnt h = zlen xs →
  hwf hashf less h.
Proof.
  intros Hs Hp Hk Hl Hc. apply Permutation_length in Hp as Hlen.
  split; [done|by eapply keys_perm; [symmetry|]|by rewrite Hlen|by rewrite Hlen].
Qed.

Lemma keys_cons xs e : keys less xs → e ∉ xs → is_found less xs e None → keys less (e :: xs).
Proof.
  intros [H1 H2] He Hn. split; [by constructor|]. intros x y Hx Hy Heq.
  apply elem_of_cons in Hx as [->|Hx], Hy as [->|Hy]; [done|..|by apply H2].
  - rewrite equiv_sym, Hn in Heq; done.
  - rewrite Hn in Heq; done.
Qed.

Lemma drop_elem_perm xs o : NoDup xs → o ∈ xs → o :: drop_elem xs (Some o) ≡ₚ xs.
Proof.
  intros Hnd Ho. apply list_elem_of_split in Ho as (p & q & ->). apply NoDup_app in Hnd as (Hp & Hd & Hq).
  apply NoDup_cons in Hq as [Hq _]. cbn. rewrite filter_app, filter_cons, decide_False by tauto.
  rewrite !filter_ne_id; [solve_Permutation|done|]. intros Hx. apply (Hd o Hx). by left.
Qed.

Lemma keys_drop xs o :
  keys less (o :: xs) → keys less xs ∧ ∀ e, equiv less o e = true → is_found less xs e None.
Proof.
  intros [H1 H2]. apply NoDup_cons in H1 as [Ho Hnd]. split.
  - split; [done|]. intros x y Hx Hy. apply H2; by right.
  - intros e He x Hx. destruct (equiv less x e) eqn:E; [|done]. exfalso. apply Ho.
    rewrite <- (H2 x o); [done|by right|by left|]. apply (equiv_trans less x e o); [done|].
    by rewrite equiv_sym.
Qed.

Lemma remove_found h xs o e :
  hwf hashf less h → contents h ≡ₚ xs → spec_find xs e = Some o →
  ∃ h1, remove_elem h o = Ok h1 ∧ shape hashf h1 ∧ contents h1 ≡ₚ drop_elem xs (Some o) ∧
    slot hashf h1 e = slot hashf h e ∧ h_elem_cnt h1 = zlen (drop_elem xs (Some o)) ∧
    keys less (drop_elem xs (Some o)) ∧ is_found less (drop_elem xs (Some o)) e None ∧
    (length (drop_elem xs (Some o)) < length xs)%nat.
Proof.
  intros Hh Hp Hf. pose proof (spec_find_found xs e) as Hfo. rewrite Hf in Hfo. destruct Hfo as [Ho Heq].
  assert (keys less xs) as Hk by (eapply keys_perm; [exact Hp|apply Hh]).
  destruct (remove_elem_ok hashf less h o Hh) as (h1 & Hr & Hs1 & Hp1 & Hb1 & Hc1); [by rewrite Hp|].
  pose proof (drop_elem_perm xs o (proj1 Hk) Ho) as Hd.
  assert (contents h1 ≡ₚ drop_elem xs (Some o)) as Hp1'.
  { apply (Permutation_cons_inv (a := o)). by rewrite Hp1, Hd, Hp. }
  assert (keys less (o :: drop_elem xs (Some o))) as Hkd by (eapply keys_perm; [symmetry; exact Hd|done]).
  apply keys_drop in Hkd as [Hk1 Hnone].
  apply Permutation_length in Hp1' as Hl. apply Permutation_length in Hd as Hl2. cbn [length] in Hl2.
  exists h1. split_and!; [done..|unfold slot; by rewrite Hb1|by rewrite Hc1, Hl|done|by apply Hnone|lia].
Qed.

Lemma add_new h xs e :
  shape hashf h → contents h ≡ₚ xs → keys less xs → e ∉ xs → is_found less xs e None →
  h_elem_cnt h = zlen xs → zlen xs < W32 - 1 →
  let h1 := insert_elem h (slot hashf h e) e in
  shape hashf h1 ∧ contents h1 ≡ₚ e :: xs ∧ keys less (e :: xs) ∧ h_elem_cnt h1 = zlen (e :: xs).
Proof.
  intros Hs Hp Hk He Hn Hc Hl h1. destruct (insert_elem_ok hashf less h e Hs) as [Hs1 Hp1].
  split_and!; [done|unfold h1; by rewrite Hp1, Hp|by apply keys_cons|].
  cbn. rewrite Hc, u32_small by (unfold is_u32; lia). lia.
Qed.

(** The rehash that ends an update. *)
Lemma finish mem h xs r :
  shape hashf h → contents h ≡ₚ xs → keys less xs → h_elem_cnt h = zlen xs → zlen xs < W32 →
  ∃ h', (let* h := rehash hashf mem h in Ok (r : option Z, h))%C = Ok (r, h') ∧
    hwf hashf less h' ∧ contents h' ≡ₚ xs.
Proof.
  intros Hs Hp Hk Hc Hl. destruct (rehash_ok mem h Hs) as (h' & Hr & Hs' & Hp' & Hc'); [lia|].
  exists h'. rewrite Hr. split_and!; [done| |by rewrite Hp', Hp].
  apply (hwf_intro h' xs); [done|by rewrite Hp', Hp|done..|congruence].
Qed.

Lemma exec_hop_ok mem o h xs r ys :
  hwf hashf less h → contents h ≡ₚ xs → spec_hop xs o = Some (r, ys) →
  ∃ h', exec_hop mem o h = Ok (r, h') ∧ hwf hashf less h' ∧ contents h' ≡ₚ ys.
Proof.
  intros Hh Hp. pose proof (hw_shape _ _ _ Hh) as Hs.
  assert (keys less xs) as Hk by (eapply keys_perm; [exact Hp|apply Hh]).
  apply Permutation_length in Hp as Hlen.
  assert (h_elem_cnt h = zlen xs) as Hc by (rewrite <- Hlen; exact (hw_cnt _ _ _ Hh)).
  assert (zlen xs < W32) as HW by (rewrite <- Hlen; exact (hw_small _ _ _ Hh)).
  destruct o as [e|e|e|e|]; cbn [spec_hop exec_hop];
    unfold hash_insert, hash_replace, hash_find, hash_delete;
    try (destruct (find_bucket_ok hashf less h e Hs) as [-> _]; cbn [rbind];
         rewrite (table_find h xs e Hh Hp); pose proof (spec_find_found xs e) as Hf).
  - destruct (bool_decide_reflect (e ∈ xs)) as [|He]; [done|]. cbn [orb].
    destruct (Z.leb_spec (W32 - 1) (zlen xs)) as [|Hl]; [done|]. intros [= <- <-].
    destruct (spec_find xs e) as [o|] eqn:Ef.
    + destruct (finish mem h xs (Some o)) as (h' & -> & ? & ?); [done..|]. by exists h'.
    + destruct (add_new h xs e) as (? & ? & ? & ?); [done..|].
      edestruct (finish mem) as (h' & -> & ? & ?); [done..|cbn [length]; lia|]. by exists h'.
  - destruct (bool_decide_reflect (e ∈ xs)) as [|He]; [done|]. cbn [orb].
    destruct (Z.leb_spec (W32 - 1) (zlen xs)) as [|Hl]; [done|]. intros [= <- <-].
    destruct (spec_find xs e) as [o|] eqn:Ef.
    + destruct (remove_found h xs o e Hh Hp Ef) as (h1 & -> & Hs1 & Hp1 & Hsl & Hc1 & Hk1 & Hn1 & Hl1).
      cbn [rbind]. rewrite <- Hsl.
      destruct (add_new h1 (drop_elem xs (Some o)) e) as (? & ? & ? & ?); [done..| |done|done|lia|].
      { intros [_ ?]%list_elem_of_filter. done. }
      edestruct (finish mem) as (h' & -> & ? & ?); [done..|cbn [length]; lia|]. by exists h'.
    + cbn [rbind drop_elem]. destruct (add_new h xs e) as (? & ? & ? & ?); [done..|].
      edestruct (finish mem) as (h' & -> & ? & ?); [done..|cbn [length]; lia|]. by exists h'.
  - intros [= <- <-]. by exists h.
  - intros [= <- <-]. destruct (spec_find xs e) as [o|] eqn:Ef; [|by exists h].
    destruct (remove_found h xs o e Hh Hp Ef) as (h1 & -> & Hs1 & Hp1 & Hsl & Hc1 & Hk1 & Hn1 & Hl1).
    cbn [rbind]. edestruct (finish mem) as (h' & -> & ? & ?); [exact Hs1|exact Hp1|done..|lia|].
    by exists h'.
  - intros [= <- <-]. exists h. unfold hash_size. by rewrite Hc.
Qed.

Fixpoint exec_hops (os : list (bool * hop)) (h : hash) : res (list hret * hash) :=
  match os with
  | [] => Ok ([], h)
  | (mem, o) :: os =>
      let* r := exec_hop mem o h in
      let* rs := exec_hops os r.2 in
      Ok (r.1 :: rs.1, rs.2)
  end.

Fixpoint spec_hops (xs : list Z) (os : list (bool * hop)) : option (list hret * list Z) :=
  match os with
  | [] => Some ([], xs)
  | (_, o) :: os =>
      match spec_hop xs o with
      | None => None
      | Some (r, xs') =>
          match spec_hops xs' os with Some (rs, ys) => Some (r :: rs, ys) | None => None end
      end
  end.
End Refinement.

Lemma hash_init_ok hashf less {D} (d : D) :
  ∃ h, hash_init true d = Ok (Some h, d) ∧ hwf hashf less h ∧ contents h = [].
Proof.
  eexists. split; [reflexivity|]. cbn [fmap list_fmap replicate]. split; [|done].
  split; [|split; [constructor|by intros ? ? ?%not_elem_of_nil]|done|done].
  split; [by exists 2|done|]. intros i b e Hi. cbn in Hi.
  do 4 (destruct i as [|i]; [injection Hi as <-; by intros ?%not_elem_of_nil|]). done.
Qed.

(** ** Iteration *)

Lemma after_app b1 e b2 : e ∉ b1 → after (b1 ++ e :: b2) e = Some (head b2).
Proof.
  induction b1 as [|x b1 IH]; cbn; [by rewrite Z.eqb_refl|].
  intros [H1 H2]%not_elem_of_cons. destruct (Z.eqb_spec x e); [congruence|auto].
Qed.

(** Where an iterator stands after some elements have been visited: in bucket [i],
    with [todo] still to come. *)
Definition stands (h : hash) (it : hash_iterator) (todo : list Z) : Prop :=
  ∃ i b1 b2, it_bucket it = Z.of_nat i ∧ h_buckets h !! i = Some (b1 ++ b2) ∧
    todo = b2 ++ concat (drop (S i) (h_buckets h)) ∧
    it_elem it = match last b1 with Some e => AtElem e | None => AtHead end.

Lemma next_bucket_ok h n : ∀ fuel i,
  zlen (h_buckets h) = h_bucket_cnt h → (i < length (h_buckets h))%nat →
  (length (h_buckets h) - i < fuel)%nat →
  ∃ it, next_bucket fuel h (Z.of_nat i) n = Ok it ∧
    match n with
    | Some e => it = {| it_bucket := Z.of_nat i; it_elem := AtElem e |}
    | None =>
        match concat (drop (S i) (h_buckets h)) with
        | [] => it_elem it = AtNull
        | e :: todo => it_elem it = AtElem e ∧ stands h it todo
        end
    end.
Proof.
  intros fuel. revert n. induction fuel as [|fuel IH]; intros n i Hl Hi Hf; [lia|].
  destruct n as [e|]; [by eexists|]. cbn [next_bucket].
  destruct (Z.leb_spec (h_bucket_cnt h) (Z.of_nat i + 1)) as [Hge|Hlt].
  { eexists. split; [done|]. rewrite drop_ge by lia. done. }
  replace (Z.of_nat i + 1) with (Z.of_nat (S i)) by lia.
  destruct (lookup_lt_is_Some_2 (h_buckets h) (S i)) as [b Hb]; [lia|].
  destruct (IH (head (bucket_at h (Z.of_nat (S i)))) (S i)) as (it & Hr & Hit); [done|lia..|].
  exists it. split; [done|]. unfold bucket_at in *. rewrite Nat2Z.id, Hb in *. cbn in Hit.
  rewrite (drop_S _ _ _ Hb). cbn [concat]. destruct b as [|e b]; cbn in *; [done|].
  subst it. split; [done|]. by exists (S i), [e], b.
Qed.

Lemma hash_next_ok h it todo :
  zlen (h_buckets h) = h_bucket_cnt h → NoDup (contents h) → stands h it todo →
  ∃ it', hash_next h it = Ok it' ∧
    match todo with
    | [] => hash_cur it' = AtNull
    | e :: todo => hash_cur it' = AtElem e ∧ stands h it' todo
    end.
Proof.
  intros Hl Hnd (i & b1 & b2 & Ei & Hb & -> & Ee).
  pose proof (lookup_lt_Some _ _ _ Hb) as Hi. unfold hash_next. rewrite Ei.
  unfold bucket_at. rewrite Nat2Z.id, Hb. cbn [from_option id].
  assert (cursor_next (b1 ++ b2) (it_elem it) = Ok (head b2)) as ->.
  { rewrite Ee. destruct b1 as [|x b1 _] using rev_ind; [done|]. rewrite last_snoc. cbn.
    rewrite <- app_assoc. cbn. rewrite after_app; [done|].
    destruct (concat_insert (h_buckets h) i _ [] Hb) as (p & q & Ec & _).
    unfold contents in Hnd. rewrite Ec in Hnd. apply NoDup_app in Hnd as (_ & _ & Hnd).
    apply NoDup_app in Hnd as (Hnd & _ & _). rewrite <- app_assoc in Hnd.
    apply NoDup_app in Hnd as (_ & Hnd & _). intros Hx. apply (Hnd x Hx). by left. }
  cbn [rbind]. destruct (next_bucket_ok h (head b2) (S (Z.to_nat (h_bucket_cnt h))) i) as (it' & Hr & Hit);
    [done..|lia|].
  exists it'. split; [done|]. destruct b2 as [|e b2]; cbn in *; [done|]. subst it'. split; [done|].
  exists i, (b1 ++ [e]), b2. rewrite <- app_assoc, last_snoc. done.
Qed.

(** [hash_next] called until it answers null, collecting the elements. *)
Fixpoint iterate (fuel : nat) (h : hash) (it : hash_iterator) : res (list Z) :=
  match fuel with
  | O => Err OutOfFuel
  | S fuel =>
      let* it := hash_next h it in
      match hash_cur it with
      | AtElem e => let* es := iterate fuel h it in Ok (e :: es)
      | _ => Ok []
      end
  end.

Lemma iterate_ok h todo : ∀ it fuel,
  zlen (h_buckets h) = h_bucket_cnt h → NoDup (contents h) → stands h it todo →
  (length todo < fuel)%nat → iterate fuel h it = Ok todo.
Proof.
  induction todo as [|e todo IH]; intros it fuel Hl Hnd Hst Hf;
    destruct fuel as [|fuel]; try (cbn in Hf; lia);
    destruct (hash_next_ok h it _ Hl Hnd Hst) as (it' & Hr & Hc); cbn [iterate]; rewrite Hr; cbn [rbind].
  - by rewrite Hc.
  - destruct Hc as [-> Hst']. rewrite (IH it'); [done..|cbn in Hf; lia].
Qed.

Lemma hash_bytes_u32 buf : Forall is_u8 buf → is_u32 (hash_bytes buf).
Proof.
  unfold hash_bytes. assert (is_u32 FNV_32_BASIS) as Hb by (unfold FNV_32_BASIS; mlia).
  revert Hb. generalize FNV_32_BASIS. intros acc Hacc Hb. revert acc Hacc.
  induction Hb as [|c buf Hc _ IH]; intros acc Hacc; [done|]. cbn. apply IH.
  apply lxor_u32; [apply u32_range|mlia].
Qed.

Lemma hash_int_u32 i : is_u32 (hash_int i).
Proof. apply hash_bytes_u32, le32_bytes. Qed.

(** Elements hashed by their address, as the supplemental page table hashes pages. *)
#[export] Instance int_hash_laws : HashLaws hash_int Z.ltb.
Proof.
  split; [apply _|apply hash_int_u32|]. intros a b. unfold equiv.
  rewrite andb_true_iff, !negb_true_iff, !Z.ltb_ge. intros [H1 H2]. f_equal. lia.
Qed.

(** Property C40.  A hash table is a set of elements up to the client's equality: any
    sequence of insertions, replacements, searches, deletions and size queries returns
    what the abstract set returns and keeps the table well formed, whether or not
    [malloc] grants the bucket arrays the rehashing asks for. *)
Theorem hash_ops_refine hashf less `{HashLaws hashf less} h xs os rs ys :
  hwf hashf less h → contents h ≡ₚ xs → spec_hops less xs os = Some (rs, ys) →
  ∃ h', exec_hops hashf less os h = Ok (rs, h') ∧ hwf hashf less h' ∧ contents h' ≡ₚ ys.
Proof.
  revert h xs rs. induction os as [|[mem o] os IH]; intros h xs rs Hh Hp; cbn [spec_hops exec_hops].
  - intros [= <- <-]. by exists h.
  - destruct (spec_hop less xs o) as [[r xs']|] eqn:Ho; [|done].
    destruct (spec_hops less xs' os) as [[rs' ys']|] eqn:Hos; [|done]. intros [= <- <-].
    destruct (exec_hop_ok hashf less mem o h xs r xs' Hh Hp Ho) as (h1 & -> & Hh1 & Hp1).
    cbn [rbind fst snd]. destruct (IH h1 xs' rs' Hh1 Hp1 Hos) as (h2 & -> & ? & ?). by exists h2.
Qed.

(** A small element set and its table. *)
Definition demo_hops : list (bool * hop) :=
  [(true, HInsert 10); (false, HInsert 20); (true, HFind 10); (true, HDelete 10);
   (true, HFind 10); (true, HSize)].

Lemma hash_ops_refine_witness :
  ∃ h h', hwf hash_int Z.ltb h ∧
    exec_hops hash_int Z.ltb demo_hops h
    = Ok ([RElem None; RElem None; RElem (Some 10); RElem (Some 10); RElem None; RSize 1], h') ∧
    contents h' ≡ₚ [20].
Proof.
  destruct (hash_init_ok hash_int Z.ltb tt) as (h & _ & Hh & Hc).
  exists h. destruct (hash_ops_refine hash_int Z.ltb h [] demo_hops
    [RElem None; RElem None; RElem (Some 10); RElem (Some 10); RElem None; RSize 1] [20])
    as (h' & H1 & H2 & H3).
  - exact Hh.
  - rewrite Hc. reflexivity.
  - vm_compute. reflexivity.
  - exists h'. split; [exact Hh|]. split; [exact H1|exact H3].
Defined.

(** Iterating a well-formed table from [hash_first] with [hash_next] visits
    every element exactly once and then answers null. *)
Theorem hash_iterate_all hashf less h :
  hwf hashf less h →
  ∃ es, iterate (S (length (contents h))) h (hash_first h) = Ok es ∧ es = contents h ∧ NoDup es.
Proof.
  intros [Hs [Hnd _] _ _]. pose proof (sh_len _ _ Hs) as Hl. pose proof (shape_cnt hashf h Hs) as Hc.
  exists (contents h). split_and!; [|done..]. apply iterate_ok; [done..| |lia].
  destruct (h_buckets h) as [|b bs] eqn:E; [cbn in Hl; lia|].
  exists 0%nat, [], b. unfold contents. rewrite E. done.
Qed.

Lemma hash_iterate_all_witness :
  ∃ h, hwf hash_int Z.ltb h ∧ contents h ≡ₚ [20] ∧
    ∃ es, iterate (S (length (contents h))) h (hash_first h) = Ok es ∧ es = contents h.
Proof.
  destruct (hash_init_ok hash_int Z.ltb tt) as (h0 & _ & Hh0 & Hc0).
  destruct (exec_hop_ok hash_int Z.ltb true (HInsert 20) h0 [] (RElem None) [20] Hh0)
    as (h & _ & Hh & Hp); [rewrite Hc0; reflexivity|vm_compute; reflexivity|].
  exists h. split; [exact Hh|]. split; [exact Hp|].
  destruct (hash_iterate_all hash_int Z.ltb h Hh) as (es & H1 & H2 & _). exists es. split; assumption.
Defined.
