(* ===== verification/Palloc.v ===== *)
(** * The page allocator

    threads/palloc.c over the bitmaps of lib/kernel/bitmap.c.  A pool is its bitmap
    and its base address; the page frames themselves are the byte memory [ram], into
    which the zero fill and the 0xcc fill of the code write.  The invariant ties the
    bitmap of each pool to the blocks that are handed out, and the main theorem is a
    forward simulation against an allocator whose state is the set of these blocks. *)

From S2P Require Import Prelude Vaddr Bytes Bitmap Str.
Local Open Scope c_scope.

(** ** State *)

Record pool := Pool { used_map : bitmap; base : Z }.

Record pages := Pages { kernel_pool : pool; user_pool : pool; ram : mem }.

Definition PAL_ASSERT : Z := 1.
Definition PAL_ZERO : Z := 2.
Definition PAL_USER : Z := 4.

Definition flag (flags bit : Z) : bool := negb (Z.land flags bit =? 0).

Definition pool_of (user : bool) (σ : pages) : pool :=
  if user then σ.(user_pool) else σ.(kernel_pool).

Definition set_pool (user : bool) (p : pool) (σ : pages) : pages :=
  if user then Pages σ.(kernel_pool) p σ.(ram) else Pages p σ.(user_pool) σ.(ram).

(** A bitmap operation on the map of a pool. *)
Definition on_map {A} (user : bool) (c : M bitmap A) : M pages A := λ σ,
  let p := pool_of user σ in
  let* r := c p.(used_map) in
  Ok (r.1, set_pool user (Pool r.2 p.(base)) σ).

(** A memory operation on the page frames. *)
Definition on_ram {A} (c : M mem A) : M pages A := λ σ,
  let* r := c σ.(ram) in
  Ok (r.1, Pages σ.(kernel_pool) σ.(user_pool) r.2).

(** ** Operations *)

Definition page_from_pool (p : pool) (page : Z) : bool :=
  let page_no := pg_no page in
  let start_page := pg_no p.(base) in
  let end_page := u32 (start_page + p.(used_map).(bit_cnt)) in
  (start_page <=? page_no) && (page_no <? end_page).

Definition palloc_get_multiple (flags page_cnt : Z) : M pages Z :=
  let user := flag flags PAL_USER in
  if page_cnt =? 0 then ret NULL else
  page_idx <- on_map user (bitmap_scan_and_flip 0 page_cnt false) ;;
  σ <- get ;;
  let ptr := if negb (page_idx =? BITMAP_ERROR)
             then u32 ((pool_of user σ).(base) + u32 (PGSIZE * page_idx)) else NULL in
  if negb (ptr =? NULL) then
    (if flag flags PAL_ZERO then on_ram (memset ptr 0 (u32 (PGSIZE * page_cnt))) ;; ret tt else ret tt) ;;
    ret ptr
  else if flag flags PAL_ASSERT then ret NULL
  else ret ptr.

Definition palloc_get_page (flags : Z) : M pages Z := palloc_get_multiple flags 1.

Definition palloc_free_multiple (ptr page_cnt : Z) : M pages unit :=
  assert (pg_ofs ptr =? 0) ;;
  if (ptr =? NULL) || (page_cnt =? 0) then ret tt else
  σ <- get ;;
  user <- (if page_from_pool σ.(kernel_pool) ptr then ret false
           else if page_from_pool σ.(user_pool) ptr then ret true
           else fail Panic) ;;
  let page_idx := u32 (pg_no ptr - pg_no (pool_of user σ).(base)) in
  on_ram (memset ptr 204 (u32 (PGSIZE * page_cnt))) ;;
  all <- on_map user (bitmap_all page_idx page_cnt) ;;
  assert all ;;
  on_map user (bitmap_set_multiple page_idx page_cnt false).

Definition palloc_free_page (page : Z) : M pages unit := palloc_free_multiple page 1.

(** The words of the map are what the buffer behind the header holds. *)
Definition init_pool (m : mem) (base_ page_cnt : Z) : res pool :=
  let bm_pages := DIV_ROUND_UP (bitmap_buf_size page_cnt) PGSIZE in
  if page_cnt <? bm_pages then Err Panic else
  let page_cnt := u32 (page_cnt - bm_pages) in
  let store := bytes_words (block m (base_ + 8) (4 * elem_cnt page_cnt)) in
  let* map := bitmap_create_in_buf page_cnt store (u32 (bm_pages * PGSIZE)) in
  Ok (Pool map (u32 (base_ + u32 (bm_pages * PGSIZE)))).

Definition palloc_init (_end ram_pages user_page_limit : Z) (m : mem) : res pages :=
  let free_start := pg_round_up _end in
  let* free_end := ptov (u32 (ram_pages * PGSIZE)) in
  let free_pages := u32 (Z.quot (s32 (free_end - free_start)) PGSIZE) in
  let user_pages := free_pages `div` 2 in
  let user_pages := if user_page_limit <? user_pages then user_page_limit else user_pages in
  let kernel_pages := u32 (free_pages - user_pages) in
  let* kp := init_pool m free_start kernel_pages in
  let* up := init_pool m (u32 (free_start + u32 (kernel_pages * PGSIZE))) user_pages in
  Ok (Pages kp up m).

(** ** The blocks that are handed out

    A block is its address with its number of pages. *)

Notation blocks := (gmap Z Z).

(** Page [i] of the pool is in a block. *)
Definition in_block (B : blocks) (a : Z) : Prop :=
  ∃ b n, B !! b = Some n ∧ b ≤ a < b + 4096 * n.

Definition apart (B : blocks) (a n : Z) : Prop :=
  ∀ b k, B !! b = Some k → a + 4096 * n ≤ b ∨ b + 4096 * k ≤ a.

Record pool_ok (p : pool) (m : mem) (B : blocks) : Prop := {
  po_wf : wf p.(used_map);
  po_base : p.(base) `mod` 4096 = 0 ∧ PHYS_BASE ≤ p.(base);
  po_end : p.(base) + 4096 * p.(used_map).(bit_cnt) ≤ W32;
  po_ram : mapped m p.(base) (4096 * p.(used_map).(bit_cnt));
  po_block : ∀ a n, B !! a = Some n →
    0 < n ∧ ∃ i, a = p.(base) + 4096 * i ∧ 0 ≤ i ∧ i + n ≤ p.(used_map).(bit_cnt);
  po_used : ∀ i, 0 ≤ i < p.(used_map).(bit_cnt) →
    bit p.(used_map) i = true ↔ in_block B (p.(base) + 4096 * i);
  po_apart : ∀ a n, B !! a = Some n → apart (delete a B) a n;
}.

(** Marking a free run adds it as a block. *)
Lemma pool_ok_insert p m B n i b' :
  pool_ok p m B → 0 < n → 0 ≤ i → i + n ≤ p.(used_map).(bit_cnt) → apart B (p.(base) + 4096 * i) n →
  updated p.(used_map) b' (in_range i n) true →
  pool_ok (Pool b' p.(base)) m (<[p.(base) + 4096 * i := n]> B).
Proof.
  intros [Hwf Hb He Hr HB Hu Hd] Hn Hi Hin Hap (Hwf' & Hc & Hbits).
  split; cbn [used_map base]; rewrite ?Hc; [done..| | |].
  - intros a k [[<- <-]|[_ Ha]]%lookup_insert_Some; [|by apply HB]. split; [done|]. by exists i.
  - intros j Hj. rewrite Hbits by lia. unfold in_range.
    destruct (Z.leb_spec i j), (Z.ltb_spec j (i + n)); cbn [andb].
    { split; [|done]. intros _. exists (p.(base) + 4096 * i), n. rewrite lookup_insert_eq. split; [done|lia]. }
    all: rewrite Hu by done; split; intros (b & k & Hbk & Hin').
    all: try (apply lookup_insert_Some in Hbk as [[<- <-]|[_ Hbk]]; [lia|by exists b, k]).
    all: exists b, k; rewrite lookup_insert_ne; [done|]; intros <-; specialize (Hap _ _ Hbk);
      destruct (HB _ _ Hbk); lia.
  - intros a k Ha b l [Hne' Hbl]%lookup_delete_Some.
    apply lookup_insert_Some in Ha as [[<- <-]|[Hne1 Ha]], Hbl as [[<- <-]|[Hne2 Hbl]]; [done|by apply Hap| |].
    + destruct (Hap _ _ Ha); lia.
    + apply (Hd a k Ha b l). by rewrite lookup_delete_ne.
Qed.

(** The free run the first fit picks becomes a block of its own. *)
Lemma pool_get p m B n :
  pool_ok p m B → 0 < n →
  ∃ i b', bitmap_scan_and_flip 0 n false p.(used_map) = Ok (i, b') ∧
  if i =? BITMAP_ERROR then
    b' = p.(used_map) ∧
    ∀ j, 0 ≤ j → j + n ≤ p.(used_map).(bit_cnt) → ∃ k, j ≤ k < j + n ∧ in_block B (p.(base) + 4096 * k)
  else 0 ≤ i ∧ i + n ≤ p.(used_map).(bit_cnt) ∧ b'.(bit_cnt) = p.(used_map).(bit_cnt) ∧
    apart B (p.(base) + 4096 * i) n ∧
    pool_ok (Pool b' p.(base)) m (<[p.(base) + 4096 * i := n]> B).
Proof.
  intros Hp Hn. pose proof Hp as [Hwf Hb He Hr HB Hu Hd]. pose proof (wf_cnt _ Hwf).
  destruct (bitmap_scan_and_flip_run p.(used_map) 0 n false Hwf) as (i & b' & Hrun & Hff & Hres); [lia..|].
  exists i, b'. split; [done|]. destruct (Z.eqb_spec i BITMAP_ERROR) as [->|Hne].
  - split; [done|]. intros j Hj0 Hj. destruct Hff as [[_ Hno]|Hff].
    2:{ unfold BITMAP_ERROR in Hff. mlia. }
    destruct (decide (Forall (λ k, bit p.(used_map) k = false) (seqZ j n))) as [Hall|Hex].
    { destruct (Hno j Hj0 Hj). intros k Hk. rewrite Forall_forall in Hall. apply Hall. apply elem_of_seqZ. lia. }
    apply not_Forall_Exists, Exists_exists in Hex as (k & Hk & Hbit); [|apply _]. apply elem_of_seqZ in Hk.
    exists k. split; [lia|]. apply Hu; [lia|]. cbn in Hbit. by destruct (bit p.(used_map) k).
  - destruct Hff as [[? _]|(Hi & Hin & Hall & _)]; [done|]. pose proof (proj1 (proj2 Hres)) as Hc.
    assert (apart B (p.(base) + 4096 * i) n) as Hap.
    { intros b k Hbk. destruct (HB _ _ Hbk) as (Hk & l & -> & Hl0 & Hl).
      destruct (decide (i + n ≤ l)); [lia|]. destruct (decide (l + k ≤ i)); [lia|]. exfalso.
      assert (bit p.(used_map) (Z.max i l) = true) as Ht; [|rewrite Hall in Ht by lia; done].
      apply Hu; [lia|]. exists (p.(base) + 4096 * l), k. split; [done|lia]. }
    split_and!; [done..|]. by apply pool_ok_insert.
Qed.

(** Clearing the run of a block removes it. *)
Lemma pool_ok_delete p m B n i b' :
  pool_ok p m B → B !! (p.(base) + 4096 * i) = Some n →
  updated p.(used_map) b' (in_range i n) false →
  pool_ok (Pool b' p.(base)) m (delete (p.(base) + 4096 * i) B).
Proof.
  intros [Hwf Hb He Hr HB Hu Hd] Hi (Hwf' & Hc & Hbits).
  split; cbn [used_map base]; rewrite ?Hc; [done..| | |].
  - intros a k [_ Ha]%lookup_delete_Some. by apply HB.
  - intros j Hj. rewrite Hbits by lia. unfold in_range.
    destruct (Z.leb_spec i j), (Z.ltb_spec j (i + n)); cbn [andb].
    { split; [done|]. intros (b & k & Hbk & Hin). destruct (Hd _ _ Hi _ _ Hbk); lia. }
    all: rewrite Hu by done; split; intros (b & k & Hbk & Hin').
    all: try (apply lookup_delete_Some in Hbk as [_ Hbk]; by exists b, k).
    all: exists b, k; rewrite lookup_delete_ne; [done|]; intros <-; rewrite Hi in Hbk; injection Hbk as <-; lia.
  - intros a k [_ Ha]%lookup_delete_Some b l [Hne [_ Hbl]%lookup_delete_Some]%lookup_delete_Some.
    apply (Hd a k Ha b l). by rewrite lookup_delete_ne.
Qed.

Lemma pool_ok_ram p m B v ptr : pool_ok p m B → pool_ok p (store m ptr v) B.
Proof. intros []. split; try done. by apply mapped_store. Qed.

(** ** Both pools *)

(** The blocks of the kernel pool ([false]) and of the user pool ([true]). *)
Notation live := (bool → blocks).

Definition set_live (user : bool) (b : blocks) (B : live) : live :=
  λ u, if bool_decide (u = user) then b else B u.

Record allocator (σ : pages) (B : live) : Prop := {
  al_pool : ∀ u, pool_ok (pool_of u σ) σ.(ram) (B u);
  al_sep : σ.(kernel_pool).(base) + 4096 * σ.(kernel_pool).(used_map).(bit_cnt) ≤ σ.(user_pool).(base);
}.

Definition same_place (p p' : pool) : Prop :=
  p'.(base) = p.(base) ∧ p'.(used_map).(bit_cnt) = p.(used_map).(bit_cnt).

Lemma allocator_pool σ B u p b :
  allocator σ B → same_place (pool_of u σ) p → pool_ok p σ.(ram) b →
  allocator (set_pool u p σ) (set_live u b B).
Proof.
  intros [Hp Hs] [Hb Hc] Hok. destruct u; cbn in *.
  - split; [|cbn; by rewrite Hb]. intros [|]; cbn; [done|apply (Hp false)].
  - split; [|cbn; by rewrite Hb, Hc]. intros [|]; cbn; [apply (Hp true)|done].
Qed.

Definition set_ram (m : mem) (σ : pages) : pages := Pages σ.(kernel_pool) σ.(user_pool) m.

Lemma allocator_store σ B ptr v : allocator σ B → allocator (set_ram (store σ.(ram) ptr v) σ) B.
Proof.
  intros [Hp Hs]. split; [|done]. intros u. apply (pool_ok_ram _ _ _ v ptr).
  specialize (Hp u). by destruct u.
Qed.

Lemma on_map_ok {A} u (c : M bitmap A) σ r b :
  c (pool_of u σ).(used_map) = Ok (r, b) →
  on_map u c σ = Ok (r, set_pool u (Pool b (pool_of u σ).(base)) σ).
Proof. unfold on_map, rbind. by intros ->. Qed.

Lemma on_map_read {A} u (c : M bitmap A) σ r :
  c (pool_of u σ).(used_map) = Ok (r, (pool_of u σ).(used_map)) → on_map u c σ = Ok (r, σ).
Proof. intros H. rewrite (on_map_ok _ _ _ _ _ H). by destruct u, σ as [[] [] ?]. Qed.

Lemma on_ram_ok {A} (c : M mem A) σ r m : c σ.(ram) = Ok (r, m) → on_ram c σ = Ok (r, set_ram m σ).
Proof. unfold on_ram, rbind. by intros ->. Qed.

Lemma pool_set u p σ : pool_of u (set_pool u p σ) = p.
Proof. by destruct u. Qed.
Lemma ram_set u p σ : (set_pool u p σ).(ram) = σ.(ram).
Proof. by destruct u. Qed.

(** ** What the allocator promises *)

Inductive request :=
  | Get (flags page_cnt : Z)
  | Free (ptr page_cnt : Z).

Definition serve (q : request) : M pages Z :=
  match q with
  | Get flags page_cnt => palloc_get_multiple flags page_cnt
  | Free ptr page_cnt => palloc_free_multiple ptr page_cnt ;; ret NULL
  end.

Definition inside (p : pool) (r n : Z) : Prop :=
  r `mod` 4096 = 0 ∧ p.(base) ≤ r ∧ r + 4096 * n ≤ p.(base) + 4096 * p.(used_map).(bit_cnt).

(** Every run of [n] pages of the pool meets a block. *)
Definition crowded (p : pool) (b : blocks) (n : Z) : Prop :=
  ∀ j, 0 ≤ j → j + n ≤ p.(used_map).(bit_cnt) → ∃ k, j ≤ k < j + n ∧ in_block b (p.(base) + 4096 * k).

(** [legal]: only a block that is handed out is freed, as a whole. *)
Definition legal (B : live) (q : request) : Prop :=
  match q with
  | Get _ page_cnt => 0 ≤ page_cnt
  | Free ptr page_cnt => ∃ u, B u !! ptr = Some page_cnt
  end.

(** The abstract allocator: from the blocks [B] it answers a request and has [B'] after. *)
Inductive serves (pool : bool → pool) (B : live) : request → Z → live → Prop :=
  | serves_none flags n :
      n = 0 ∨ crowded (pool (flag flags PAL_USER)) (B (flag flags PAL_USER)) n →
      serves pool B (Get flags n) NULL B
  | serves_block flags n r :
      let u := flag flags PAL_USER in
      0 < n → r ≠ NULL → inside (pool u) r n → apart (B u) r n →
      serves pool B (Get flags n) r (set_live u (<[r := n]> (B u)) B)
  | serves_free ptr n u :
      B u !! ptr = Some n →
      serves pool B (Free ptr n) NULL (set_live u (delete ptr (B u)) B).

(** What a request does to the page frames: a zero fill, a 0xcc fill or nothing. *)
Definition filled (q : request) (r : Z) (m : mem) : mem :=
  match q with
  | Get flags n =>
      if flag flags PAL_ZERO && negb (r =? NULL) then store m r (replicate (Z.to_nat (4096 * n)) 0) else m
  | Free ptr n => store m ptr (replicate (Z.to_nat (4096 * n)) 204)
  end.

Lemma get_serves σ B flags n :
  allocator σ B → 0 ≤ n →
  ∃ r σ' B', palloc_get_multiple flags n σ = Ok (r, σ') ∧
    serves (λ u, pool_of u σ) B (Get flags n) r B' ∧ allocator σ' B' ∧
    σ'.(ram) = filled (Get flags n) r σ.(ram) ∧ ∀ u, same_place (pool_of u σ) (pool_of u σ').
Proof.
  intros Ha Hn. unfold palloc_get_multiple. set (u := flag flags PAL_USER).
  destruct (Z.eqb_spec n 0) as [->|Hn0].
  { exists NULL, σ, B. split_and!; [done|apply serves_none; by left|done| |done].
    cbn [filled]. by rewrite Z.eqb_refl, andb_false_r. }
  pose proof (al_pool _ _ Ha u) as Hp. pose proof Hp as [Hwf [Hb1 Hb2] He Hm _ _ _].
  destruct (pool_get _ _ _ n Hp) as (i & b' & Hrun & Hi); [lia|].
  rewrite (bind_Ok _ _ _ _ _ (on_map_ok _ _ _ _ _ Hrun)). unfold bind at 1, get. cbv beta iota.
  rewrite pool_set. cbn [base]. destruct (Z.eqb_spec i BITMAP_ERROR) as [->|Hne]; cbn [negb].
  - destruct Hi as [-> Hc]. exists NULL, σ, B. split_and!; [|apply serves_none; by right|done| |done].
    + rewrite Z.eqb_refl. cbn [negb]. destruct u, σ as [[] [] ?]; by destruct (flag flags PAL_ASSERT).
    + cbn [filled]. by rewrite Z.eqb_refl, andb_false_r.
  - destruct Hi as (Hi0 & Hin & Hc & Hap & Hok'). pose proof (wf_cnt _ Hwf).
    set (r := (pool_of u σ).(base) + 4096 * i) in *. unfold PHYS_BASE, LOADER_PHYS_BASE, PGSIZE in *.
    rewrite (u32_small (4096 * i)), (u32_small (_ + _)), (u32_small (4096 * n)) by (subst r; mlia). fold r.
    assert (r ≠ NULL) as Hr by (subst r; mlia). rewrite (proj2 (Z.eqb_neq _ _) Hr). cbn [negb].
    set (σ1 := set_pool u (Pool b' (pool_of u σ).(base)) σ).
    assert (allocator σ1 (set_live u (<[r := n]> (B u)) B)) as Ha1 by by apply allocator_pool.
    assert (serves (λ u, pool_of u σ) B (Get flags n) r (set_live u (<[r := n]> (B u)) B)) as Hs.
    { apply serves_block; [lia|done| |done]. split_and!; fold u; unfold r; [dm_lia|mlia..]. }
    assert (∀ v, same_place (pool_of v σ) (pool_of v σ1)) as Hsp by (by intros v; subst σ1; destruct u, v).
    cbn [filled]. destruct (flag flags PAL_ZERO); cbn [andb].
    + exists r, (set_ram (store σ1.(ram) r (replicate (Z.to_nat (4096 * n)) 0)) σ1), (set_live u (<[r := n]> (B u)) B).
      split_and!; [|done|by apply allocator_store| |].
      * erewrite bind_Ok; [reflexivity|]. erewrite bind_Ok; [reflexivity|]. apply on_ram_ok.
        apply memset_ok; [|mlia|lia|done]. subst σ1. rewrite ram_set. intros a Ha2. apply Hm. subst r. lia.
      * cbn. subst σ1. rewrite ram_set. by rewrite (proj2 (Z.eqb_neq _ _) Hr).
      * intros v. specialize (Hsp v). by destruct v.
    + exists r, σ1, (set_live u (<[r := n]> (B u)) B). split_and!; try done. subst σ1. by rewrite ram_set.
Qed.

Lemma page_from_pool_ok p m B r :
  pool_ok p m B → is_u32 r → r `mod` 4096 = 0 →
  page_from_pool p r = true ↔ p.(base) ≤ r < p.(base) + 4096 * p.(used_map).(bit_cnt).
Proof.
  intros [Hwf [Hb1 Hb2] He _ _ _ _] Hr Hm. pose proof (wf_cnt _ Hwf). unfold page_from_pool.
  rewrite !pg_no_div. unfold PHYS_BASE, LOADER_PHYS_BASE in *. rewrite u32_small by dm_lia.
  rewrite andb_true_iff, Z.leb_le, Z.ltb_lt. dm_lia.
Qed.

Lemma free_serves σ B u ptr n :
  allocator σ B → B u !! ptr = Some n →
  ∃ σ', palloc_free_multiple ptr n σ = Ok (tt, σ') ∧ allocator σ' (set_live u (delete ptr (B u)) B) ∧
    σ'.(ram) = filled (Free ptr n) NULL σ.(ram) ∧ ∀ v, same_place (pool_of v σ) (pool_of v σ').
Proof.
  intros Ha HB. pose proof (al_pool _ _ Ha u) as Hp. pose proof Hp as [Hwf [Hb1 Hb2] He Hm Hblk Hu _].
  destruct (Hblk _ _ HB) as (Hn & i & Hptr & Hi & Hin). unfold PHYS_BASE, LOADER_PHYS_BASE in *.
  pose proof (wf_cnt _ Hwf). assert (is_u32 ptr) by mlia. assert (ptr `mod` 4096 = 0) as Hmod by dm_lia.
  unfold palloc_free_multiple. rewrite bind_assert by (rewrite pg_ofs_mod; lia).
  rewrite (proj2 (Z.eqb_neq ptr NULL)), (proj2 (Z.eqb_neq n 0)) by mlia. cbn [orb].
  unfold bind at 1, get. cbv beta iota.
  rewrite (bind_Ok _ _ σ u σ).
  2:{ destruct (page_from_pool σ.(kernel_pool) ptr) eqn:E.
      - apply (page_from_pool_ok _ _ _ _ (al_pool _ _ Ha false)) in E; [|done..].
        destruct u; [|done]. pose proof (al_sep _ _ Ha). cbn [pool_of] in *. lia.
      - destruct u; [|apply not_true_iff_false in E; destruct E; apply (page_from_pool_ok _ _ _ _ Hp); [done..|];
          cbn [pool_of] in *; lia].
        replace (page_from_pool σ.(user_pool) ptr) with true; [done|symmetry].
        apply (page_from_pool_ok _ _ _ _ Hp); [done..|]. cbn [pool_of] in *. lia. }
  rewrite !pg_no_div. replace (u32 (_ - _)) with i.
  2:{ rewrite u32_small; [dm_lia|]. mc_unfold. dm_lia. }
  unfold PGSIZE. rewrite (u32_small (4096 * n)) by mlia.
  set (m' := store σ.(ram) ptr (replicate (Z.to_nat (4096 * n)) 204)).
  rewrite (bind_Ok _ _ σ ptr (set_ram m' σ)).
  2:{ apply on_ram_ok, memset_ok; [|mlia..]. intros a Ha2. apply Hm. lia. }
  set (σ1 := set_ram m' σ). assert (pool_of u σ1 = pool_of u σ) as E1 by (by destruct u).
  assert (allocator σ1 B) as Ha1 by (by apply allocator_store).
  destruct (bitmap_all_ok (pool_of u σ).(used_map) i n) as (all & Hall & Hiff); [done|lia..|].
  rewrite (bind_Ok _ _ σ1 all σ1) by (apply on_map_read; by rewrite E1).
  rewrite bind_assert.
  2:{ apply Hiff. intros j Hj. apply Hu; [lia|]. exists ptr, n. split; [done|lia]. }
  destruct (bitmap_set_multiple_ok (pool_of u σ).(used_map) i n false) as (b' & Hset & Hup); [done|lia..|].
  rewrite (on_map_ok u _ σ1 tt b') by (by rewrite E1). rewrite E1.
  eexists. split_and!; [done| |by rewrite ram_set|].
  - subst ptr. apply allocator_pool; [done|rewrite E1; split; [done|apply Hup]|].
    apply (pool_ok_delete _ _ _ n); [|done..]. subst σ1 m'. by apply pool_ok_ram.
  - intros v. pose proof (proj1 (proj2 Hup)). by destruct u, v.
Qed.

(** Property C36.  The page allocator implements the abstract allocator of blocks: in
    a state whose bitmaps describe the blocks [B] handed out so far, a legal request
    succeeds, no assertion fails, and its answer is one the abstract allocator gives: a
    page-aligned block inside the pool the flags name that meets no other block, or a
    null pointer and then only if no run of that many free pages is left (also with
    [PAL_ASSERT]); freeing gives the block back.  The bitmaps afterwards describe the
    new blocks, the pools stay in place, and exactly the zero fill and the 0xcc fill
    change the memory. *)
Theorem palloc_refines σ B q :
  allocator σ B → legal B q →
  ∃ r σ' B', serve q σ = Ok (r, σ') ∧ serves (λ u, pool_of u σ) B q r B' ∧ allocator σ' B' ∧
    σ'.(ram) = filled q r σ.(ram) ∧ ∀ u, same_place (pool_of u σ) (pool_of u σ').
Proof.
  intros Ha. destruct q as [flags n|ptr n]; cbn [legal serve].
  - by apply get_serves.
  - intros [u HB]. destruct (free_serves σ B u ptr n Ha HB) as (σ' & Hr & Ha' & Hm & Hs).
    exists NULL, σ', (set_live u (delete ptr (B u)) B). rewrite (bind_Ok _ _ _ _ _ Hr).
    split_and!; try done. by apply serves_free.
Qed.

(** ** Boot *)

Definition map_pages (page_cnt : Z) : Z := (8 + 4 * ((page_cnt + 31) `div` 32) + 4095) `div` 4096.

Lemma fresh_pool p m :
  wf p.(used_map) → p.(base) `mod` 4096 = 0 → PHYS_BASE ≤ p.(base) →
  p.(base) + 4096 * p.(used_map).(bit_cnt) ≤ W32 → mapped m p.(base) (4096 * p.(used_map).(bit_cnt)) →
  all_are p.(used_map) 0 p.(used_map).(bit_cnt) false → pool_ok p m ∅.
Proof.
  intros. split; try done. intros i Hi. rewrite H4 by lia. split; [done|]. by intros (? & ? & ? & _).
Qed.

Lemma init_pool_ok m base_ page_cnt :
  0 < page_cnt → base_ `mod` 4096 = 0 → PHYS_BASE ≤ base_ → base_ + 4096 * page_cnt < W32 →
  mapped m base_ (4096 * page_cnt) → bytes_only m →
  ∃ p, init_pool m base_ page_cnt = Ok p ∧ pool_ok p m ∅ ∧
    p.(base) = base_ + 4096 * map_pages page_cnt ∧ p.(used_map).(bit_cnt) = page_cnt - map_pages page_cnt ∧
    0 < map_pages page_cnt ≤ page_cnt.
Proof.
  intros Hc Hb Hk He Hm Hu. unfold PHYS_BASE, LOADER_PHYS_BASE in *.
  assert (0 < map_pages page_cnt ≤ page_cnt) as Hmp by (unfold map_pages; dm_lia).
  assert (DIV_ROUND_UP (bitmap_buf_size page_cnt) PGSIZE = map_pages page_cnt) as Hd.
  { unfold bitmap_buf_size, byte_cnt, DIV_ROUND_UP, PGSIZE. rewrite elem_cnt_eq by mlia.
    rewrite (u32_small (4 * _)), (u32_small (8 + _)), u32_small by dm_lia. unfold map_pages. f_equal. lia. }
  unfold init_pool. rewrite Hd. destruct (Z.ltb_spec page_cnt (map_pages page_cnt)); [lia|].
  unfold PGSIZE. rewrite (u32_small (page_cnt - _)), (u32_small (_ * 4096)), (u32_small (base_ + _)) by mlia.
  set (n := page_cnt - map_pages page_cnt). assert (0 ≤ n ≤ 262144) as Hn by (subst n; mlia).
  pose proof (elem_cnt_eq n ltac:(lia)) as Hec. assert (0 ≤ elem_cnt n) by dm_lia.
  assert (8 + 4 * elem_cnt n ≤ 4096 * map_pages page_cnt) as Hfit by (unfold map_pages in *; subst n; dm_lia).
  destruct (bytes_words_wf (Z.to_nat (elem_cnt n)) (block m (base_ + 8) (4 * elem_cnt n))) as [Hl Hw].
  { pose proof (block_length m (base_ + 8) (4 * elem_cnt n)). lia. }
  { apply block_u8; [|done]. intros a Ha. apply Hm. lia. }
  set (words := bytes_words _) in *.
  destruct (bitmap_create_in_buf_ok n words (map_pages page_cnt * 4096)) as (b & Hr & Hwf & Hbc & Hall);
    [lia|lia|done|unfold bitmap_buf_size, byte_cnt; rewrite (u32_small (4 * _)), (u32_small (8 + _)) by mlia; mlia|].
  unfold rbind. rewrite Hr. eexists. split; [done|]. cbn [base used_map]. rewrite Hbc.
  split_and!; [|lia..]. apply fresh_pool; cbn [base used_map]; rewrite ?Hbc; [done|..|done].
  - dm_lia.
  - unfold PHYS_BASE, LOADER_PHYS_BASE. lia.
  - lia.
  - intros a Ha. apply Hm. lia.
Qed.

(** Booting lays out the two pools: all page frames from the end of the
    kernel to the end of memory are split between them, half each unless the limit on
    user pages says less; each pool gives up the pages its own bitmap needs, starts out
    with every other page free, and the kernel pool ends where the map of the user pool
    starts.  No page is handed out, so the allocator's invariant holds with no blocks. *)
Theorem palloc_init_ok _end ram_pages user_page_limit m :
  PHYS_BASE ≤ _end → 0 ≤ user_page_limit → ram_pages < 262144 →
  let start := - ((- _end) `div` 4096) * 4096 in
  let free_pages := ram_pages - (start - PHYS_BASE) `div` 4096 in
  let user_pages := Z.min user_page_limit (free_pages `div` 2) in
  0 < user_pages → mapped m start (4096 * free_pages) → bytes_only m →
  ∃ σ, palloc_init _end ram_pages user_page_limit m = Ok σ ∧ allocator σ (λ _, ∅) ∧
    σ.(ram) = m ∧
    σ.(kernel_pool).(base) = start + 4096 * map_pages (free_pages - user_pages) ∧
    σ.(kernel_pool).(used_map).(bit_cnt) = free_pages - user_pages - map_pages (free_pages - user_pages) ∧
    σ.(user_pool).(base) = start + 4096 * (free_pages - user_pages + map_pages user_pages) ∧
    σ.(user_pool).(used_map).(bit_cnt) = user_pages - map_pages user_pages.
Proof.
  intros Hend Hlim Hram start free_pages user_pages Hup Hm Hu. unfold PHYS_BASE, LOADER_PHYS_BASE in *.
  assert (start `mod` 4096 = 0 ∧ _end ≤ start < _end + 4096) as [Hs1 Hs2] by (subst start; dm_lia).
  assert (free_pages * 4096 = 3221225472 + ram_pages * 4096 - start) as Hfp by (subst free_pages; dm_lia).
  assert (0 < free_pages) by (subst user_pages; dm_lia).
  unfold palloc_init. rewrite pg_round_up_eq by mlia. destruct (Z.leb_spec _end 4294963200); [|mlia].
  fold start. unfold PGSIZE, ptov, rassert, PHYS_BASE, LOADER_PHYS_BASE.
  rewrite (u32_small (ram_pages * 4096)) by mlia.
  destruct (Z.ltb_spec (ram_pages * 4096) 3221225472); [|lia]. cbn [rbind].
  rewrite (u32_small (ram_pages * 4096 + _)), s32_small by mlia.
  replace (u32 (Z.quot _ 4096)) with free_pages.
  2:{ replace (ram_pages * 4096 + 3221225472 - start) with (free_pages * 4096) by lia.
      rewrite Z.quot_mul by lia. by rewrite u32_small by mlia. }
  replace (if _ <? _ then _ else _) with user_pages by (subst user_pages; zcase; lia).
  assert (user_pages < free_pages) by (subst user_pages; dm_lia).
  rewrite (u32_small (free_pages - user_pages)), (u32_small (_ * 4096)), (u32_small (start + _)) by mlia.
  destruct (init_pool_ok m start (free_pages - user_pages)) as (kp & Hk & Hkok & Hkb & Hkc & Hkm);
    [lia|done|unfold PHYS_BASE, LOADER_PHYS_BASE; lia|mlia|intros a Ha; apply Hm; lia|done|].
  destruct (init_pool_ok m (start + (free_pages - user_pages) * 4096) user_pages)
    as (up & Hu' & Huok & Hub & Huc & Hum);
    [lia|dm_lia|unfold PHYS_BASE, LOADER_PHYS_BASE; lia|mlia|intros a Ha; apply Hm; lia|done|].
  rewrite Hk. cbn [rbind]. rewrite Hu'. cbn [rbind]. eexists. split; [done|]. cbn.
  split_and!; [|done|lia..]. split; [|cbn; lia]. by intros [|].
Qed.

(** ** Witnesses: sixteen kilobytes of memory behind the kernel *)

Definition frames (start n : Z) : mem := store ∅ start (replicate (Z.to_nat (4096 * n)) 0).

Lemma frames_mapped start n q k : start ≤ q → q + k ≤ start + 4096 * n → mapped (frames start n) q k.
Proof.
  intros Hq Hk a Ha. unfold frames. rewrite store_lookup, length_replicate.
  destruct (Z.leb_spec start a), (Z.ltb_spec a (start + Z.of_nat (Z.to_nat (4096 * n)))); try lia. cbn [andb].
  rewrite lookup_replicate_2 by lia. done.
Qed.

Lemma frames_bytes start n : bytes_only (frames start n).
Proof.
  intros a b. unfold frames. rewrite store_lookup. case_match; [|done].
  intros [-> _]%lookup_replicate. done.
Qed.

Definition two_pools : pages :=
  {| kernel_pool := Pool {| bit_cnt := 2; bits := [0] |} 3222274048;
     user_pool := Pool {| bit_cnt := 2; bits := [0] |} 3222282240;
     ram := frames 3222274048 4 |}.

Lemma two_pools_ok : allocator two_pools (λ _, ∅).
Proof.
  split; [|by cbn]. intros u. apply fresh_pool.
  - destruct u; (split; [by cbn|by cbn|]); cbn; constructor; by constructor.
  - by destruct u.
  - by destruct u.
  - by destruct u.
  - destruct u; apply frames_mapped; cbn; lia.
  - intros i Hi. destruct u; cbn in *; (assert (i = 0 ∨ i = 1) as [-> | ->] by lia; done).
Qed.

Lemma palloc_refines_witness :
  ∃ r σ' B', serve (Get (Z.lor PAL_USER PAL_ZERO) 2) two_pools = Ok (r, σ') ∧
    serves (λ u, pool_of u two_pools) (λ _, ∅) (Get (Z.lor PAL_USER PAL_ZERO) 2) r B' ∧ allocator σ' B' ∧
    σ'.(ram) = filled (Get (Z.lor PAL_USER PAL_ZERO) 2) r two_pools.(ram) ∧
    ∀ u, same_place (pool_of u two_pools) (pool_of u σ').
Proof. apply palloc_refines; [apply two_pools_ok|cbn; lia]. Defined.

Lemma palloc_init_ok_witness :
  ∃ σ, palloc_init 3222273000 260 4294967295 (frames 3222274048 4) = Ok σ ∧ allocator σ (λ _, ∅) ∧
    σ.(kernel_pool).(used_map).(bit_cnt) = 1 ∧ σ.(user_pool).(base) = 3222274048 + 3 * 4096.
Proof.
  destruct (palloc_init_ok 3222273000 260 4294967295 (frames 3222274048 4))
    as (σ & Hr & Ha & _ & _ & Hk & Hu & _); [done..| | |].
  - by apply frames_mapped; vm_compute.
  - apply frames_bytes.
  - exists σ. split_and!; [exact Hr|exact Ha|rewrite Hk; reflexivity|rewrite Hu; reflexivity].
Defined.

(** ** What clients of the allocator rely on

    The interface between the page allocator and the allocators built on it: pages come
    from the kernel pool ([flags] is 0), and a page frame is plain memory. *)

Class PageAlloc (P : Type) := {
  pa_get : Z → M P Z;
  pa_free : Z → Z → M P unit;
  pa_ram : P → mem;
  pa_set_ram : mem → P → P;
  pa_live : P → blocks → Prop;
  pa_get_ok p B n :
    pa_live p B → 0 ≤ n →
    ∃ r p', pa_get n p = Ok (r, p') ∧ pa_ram p' = pa_ram p ∧
      (r = NULL ∧ pa_live p' B ∨ r ≠ NULL ∧ 0 < n ∧ apart B r n ∧ pa_live p' (<[r := n]> B));
  pa_free_ok p B a n :
    pa_live p B → B !! a = Some n →
    ∃ p', pa_free a n p = Ok (tt, p') ∧ pa_live p' (delete a B) ∧
      pa_ram p' = store (pa_ram p) a (replicate (Z.to_nat (4096 * n)) 204);
  pa_block p B a n :
    pa_live p B → B !! a = Some n →
    0 < n ∧ a `mod` 4096 = 0 ∧ PHYS_BASE ≤ a ∧ a + 4096 * n ≤ W32 ∧
    mapped (pa_ram p) a (4096 * n) ∧ apart (delete a B) a n;
  pa_set p B a v : pa_live p B → pa_live (pa_set_ram (store (pa_ram p) a v) p) B;
  pa_ram_set m p : pa_ram (pa_set_ram m p) = m;
}.

#[export] Instance allocator_proper σ : Proper (pointwise_relation bool eq ==> iff) (allocator σ).
Proof.
  intros B B' HB. split; intros [Hp Hs]; (split; [|done]); intros u.
  - rewrite <- (HB u). apply Hp.
  - rewrite (HB u). apply Hp.
Qed.

(** The two pools with the blocks [K] and [U]. *)
Definition both (K U : blocks) : live := λ u, if u then U else K.

Lemma set_live_kernel K U b : pointwise_relation bool eq (set_live false b (both K U)) (both b U).
Proof. by intros [|]. Qed.

(** The page allocator of the program implements the interface. *)
#[export, refine] Instance palloc_client : PageAlloc pages := {|
  pa_get := palloc_get_multiple 0;
  pa_free := palloc_free_multiple;
  pa_ram := ram;
  pa_set_ram := set_ram;
  pa_live σ K := ∃ U, allocator σ (both K U);
|}.
Proof.
  - intros σ K n [U Ha] Hn. destruct (get_serves _ _ 0 n Ha Hn) as (r & σ' & B' & Hr & Hs & Ha' & Hm & _).
    exists r, σ'. split_and!; [done..|]. inversion Hs; subst.
    + left. split; [done|]. by exists U.
    + right. split_and!; [done..|]. exists U. by rewrite <- set_live_kernel.
  - intros σ K a n [U Ha] HK. destruct (free_serves _ _ false a n Ha HK) as (σ' & Hr & Ha' & Hm & _).
    exists σ'. split_and!; [done| |done]. exists U. by rewrite <- set_live_kernel.
  - intros σ K a n [U Ha] HK. destruct (al_pool _ _ Ha false) as [Hwf [Hb1 Hb2] He Hm Hblk _ Hap].
    destruct (Hblk _ _ HK) as (Hn & i & -> & Hi & Hin).
    split_and!; [done|dm_lia|lia|lia| |by apply Hap]. intros x Hx. apply Hm. cbn in *. lia.
  - intros σ K a v [U Ha]. exists U. by apply allocator_store.
  - done.
Defined.
