(* ===== verification/Malloc.v ===== *)
(** * The block allocator

    threads/malloc.c on top of any page allocator with the interface [PageAlloc].  The
    arena headers are a map from page addresses to [arena]s: a page without an entry does
    not carry the magic number.  The free list of a descriptor is the list of the
    addresses of its blocks; the links the free blocks hold are this list.  The contents
    of the blocks are the memory of the page frames.  The invariant accounts for every
    block of every arena, and the theorems give [malloc], [calloc], [realloc] and [free]
    the meaning their callers rely on. *)

From S2P Require Import Prelude Vaddr Str Palloc.
Local Open Scope c_scope.

Definition ARENA_MAGIC : Z := 2589232877.

(** [sizeof (struct arena)]: three words. *)
Definition ARENA_SIZE : Z := 12.

Record desc := Desc { desc_block_size : Z; blocks_per_arena : Z; free_list : list Z }.

(** [adesc] is the index of the owning descriptor, nothing for a big block. *)
Record arena := Arena { magic : Z; adesc : option nat; free_cnt : Z }.

Section malloc.
Context {P : Type} `{PA : PageAlloc P}.

Record heap := Heap { descs : list desc; arenas : gmap Z arena; frames_of : P }.

(** ** Access to the state *)

Definition pages_op {A} (c : M P A) : M heap A := λ h,
  let* r := c h.(frames_of) in
  Ok (r.1, Heap h.(descs) h.(arenas) r.2).

Definition ram_op {A} (c : M mem A) : M heap A := λ h,
  let* r := c (pa_ram h.(frames_of)) in
  Ok (r.1, Heap h.(descs) h.(arenas) (pa_set_ram r.2 h.(frames_of))).

Definition get_desc (d : nat) : M heap desc := λ h,
  match h.(descs) !! d with Some x => Ok (x, h) | None => Err Fault end.

Definition set_free (d : nat) (f : list Z → list Z) : M heap unit := λ h,
  match h.(descs) !! d with
  | Some x =>
      Ok (tt, Heap (<[d := Desc x.(desc_block_size) x.(blocks_per_arena) (f x.(free_list))]> h.(descs))
                h.(arenas) h.(frames_of))
  | None => Err Fault
  end.

(** [ASSERT (a->magic == ARENA_MAGIC)], and the header that passes it. *)
Definition get_arena (a : Z) : M heap arena := λ h,
  match h.(arenas) !! a with
  | Some ar => if ar.(magic) =? ARENA_MAGIC then Ok (ar, h) else Err AssertFail
  | None => Err AssertFail
  end.

Definition set_arena (a : Z) (ar : arena) : M heap unit := λ h,
  Ok (tt, Heap h.(descs) (<[a := ar]> h.(arenas)) h.(frames_of)).

(** Giving the pages back fills them with 0xcc, so the header is gone. *)
Definition free_pages (a n : Z) : M heap unit :=
  pages_op (pa_free a n) ;;
  λ h, Ok (tt, Heap h.(descs) (delete a h.(arenas)) h.(frames_of)).

(** ** Operations *)

(** The descriptors are appended: [desc_cnt] is their number. *)
Definition malloc_init : M heap unit :=
  iter 11 (λ block_size,
    if block_size <? PGSIZE / 2 then
      h <- get ;;
      let h' := Heap (h.(descs) ++ [Desc block_size ((PGSIZE - ARENA_SIZE) `div` block_size) []])
                  h.(arenas) h.(frames_of) in
      assert (zlen h'.(descs) <=? 10) ;;
      put h' ;;
      ret (inl (u32 (block_size * 2)))
    else ret (inr tt)) 16.

Definition block_to_arena (b : Z) : M heap Z :=
  let a := pg_round_down b in
  assert (negb (a =? NULL)) ;;
  ar <- get_arena a ;;
  match ar.(adesc) with
  | Some d =>
      x <- get_desc d ;;
      assert (u32 (pg_ofs b - ARENA_SIZE) `mod` x.(desc_block_size) =? 0) ;;
      ret a
  | None =>
      assert (pg_ofs b =? ARENA_SIZE) ;;
      ret a
  end.

Definition arena_to_block (a idx : Z) : M heap Z :=
  assert (negb (a =? NULL)) ;;
  ar <- get_arena a ;;
  match ar.(adesc) with
  | Some d =>
      x <- get_desc d ;;
      assert (idx <? x.(blocks_per_arena)) ;;
      ret (u32 (a + ARENA_SIZE + u32 (idx * x.(desc_block_size))))
  | None => fail Fault
  end.

(** The first descriptor from index [i] on whose blocks have at least [size] bytes. *)
Fixpoint find_desc (ds : list desc) (size : Z) (i : nat) : option nat :=
  match ds with
  | [] => None
  | x :: ds => if size <=? x.(desc_block_size) then Some i else find_desc ds size (S i)
  end.

Definition list_push_back_free (d : nat) (b : Z) : M heap unit := set_free d (λ l, l ++ [b]).
Definition list_push_front_free (d : nat) (b : Z) : M heap unit := set_free d (λ l, b :: l).

Definition list_pop_front_free (d : nat) : M heap Z :=
  x <- get_desc d ;;
  match x.(free_list) with
  | b :: l => set_free d (λ _, l) ;; ret b
  | [] => fail AssertFail
  end.

Definition list_remove_free (d : nat) (b : Z) : M heap unit :=
  x <- get_desc d ;;
  if bool_decide (b ∈ x.(free_list)) then set_free d (filter (λ c, c ≠ b)) else fail Fault.

(** A new arena for descriptor [d]; false if there is no page for it. *)
Definition new_arena (d : nat) : M heap bool :=
  a <- pages_op (pa_get 1) ;;
  if a =? NULL then ret false else
  x <- get_desc d ;;
  set_arena a (Arena ARENA_MAGIC (Some d) x.(blocks_per_arena)) ;;
  for_upto x.(blocks_per_arena) (λ i, b <- arena_to_block a i ;; list_push_back_free d b) ;;
  ret true.

Definition malloc_big (size : Z) : M heap Z :=
  let page_cnt := DIV_ROUND_UP (u32 (size + ARENA_SIZE)) PGSIZE in
  a <- pages_op (pa_get page_cnt) ;;
  if a =? NULL then ret NULL else
  set_arena a (Arena ARENA_MAGIC None page_cnt) ;;
  ret (u32 (a + ARENA_SIZE)).

(** A block of descriptor [d] from its free list. *)
Definition take_block (d : nat) : M heap Z :=
  b <- list_pop_front_free d ;;
  a <- block_to_arena b ;;
  ar <- get_arena a ;;
  set_arena a (Arena ar.(magic) ar.(adesc) (u32 (ar.(free_cnt) - 1))) ;;
  ret b.

Definition malloc (size : Z) : M heap Z :=
  if size =? 0 then ret NULL else
  h <- get ;;
  match find_desc h.(descs) size 0 with
  | None => malloc_big size
  | Some d =>
      x <- get_desc d ;;
      ok <- (match x.(free_list) with [] => new_arena d | _ :: _ => ret true end) ;;
      if ok then take_block d else ret NULL
  end.

Definition calloc (a b : Z) : M heap Z :=
  let size := u32 (a * b) in
  if (size <? a) || (size <? b) then ret NULL else
  p <- malloc size ;;
  (if negb (p =? NULL) then ram_op (memset p 0 size) ;; ret tt else ret tt) ;;
  ret p.

Definition block_size (block : Z) : M heap Z :=
  a <- block_to_arena block ;;
  ar <- get_arena a ;;
  match ar.(adesc) with
  | Some d => x <- get_desc d ;; ret x.(desc_block_size)
  | None => ret (u32 (PGSIZE * ar.(free_cnt) - pg_ofs block))
  end.

Definition free (p : Z) : M heap unit :=
  if p =? NULL then ret tt else
  a <- block_to_arena p ;;
  ar <- get_arena a ;;
  match ar.(adesc) with
  | Some d =>
      x <- get_desc d ;;
      ram_op (memset p 204 x.(desc_block_size)) ;;
      list_push_front_free d p ;;
      let cnt := u32 (ar.(free_cnt) + 1) in
      set_arena a (Arena ar.(magic) ar.(adesc) cnt) ;;
      if x.(blocks_per_arena) <=? cnt then
        assert (cnt =? x.(blocks_per_arena)) ;;
        for_upto x.(blocks_per_arena) (λ i, b <- arena_to_block a i ;; list_remove_free d b) ;;
        free_pages a 1
      else ret tt
  | None => free_pages a ar.(free_cnt)
  end.

Definition realloc (old_block new_size : Z) : M heap Z :=
  if new_size =? 0 then free old_block ;; ret NULL else
  new_block <- malloc new_size ;;
  (if negb (old_block =? NULL) && negb (new_block =? NULL) then
     old_size <- block_size old_block ;;
     let min_size := if new_size <? old_size then new_size else old_size in
     ram_op (memcpy new_block old_block min_size) ;;
     free old_block
   else ret tt) ;;
  ret new_block.

(** ** The invariant *)

(** Block size and number of blocks of descriptor [d], and block [i] of arena [a]. *)
Definition bs (d : nat) : Z := 16 * 2 ^ Z.of_nat d.
Definition bpa (d : nat) : Z := 4084 `div` bs d.
Definition slot (a : Z) (d : nat) (i : Z) : Z := a + 12 + i * bs d.
Definition slots (a : Z) (d : nat) (n : Z) : list Z := slot a d <$> seqZ 0 n.

Definition fl (h : heap) (d : nat) : list Z := from_option free_list [] (h.(descs) !! d).

Definition owned (h : heap) (d : nat) (b : Z) : Prop :=
  ∃ a ar i, h.(arenas) !! a = Some ar ∧ ar.(adesc) = Some d ∧ 0 ≤ i < bpa d ∧ b = slot a d i.

Definition page_of (b : Z) : Z := b - b `mod` 4096.

(** The pages of the arenas. *)
Definition arena_pages (h : heap) : blocks :=
  (λ ar, match ar.(adesc) with Some _ => 1 | None => ar.(free_cnt) end) <$> h.(arenas).

(** [L] maps every block in use to its size. *)
Inductive in_use (h : heap) (b : Z) : Z → Prop :=
  | in_use_big a ar :
      h.(arenas) !! a = Some ar → ar.(adesc) = None → b = a + 12 → in_use h b (4096 * ar.(free_cnt) - 12)
  | in_use_small d : owned h d b → b ∉ fl h d → in_use h b (bs d).

(** The descriptors are those [malloc_init] makes. *)
Definition sized (h : heap) : Prop :=
  (λ x, (x.(desc_block_size), x.(blocks_per_arena))) <$> h.(descs) = (λ d, (bs d, bpa d)) <$> seq 0 7.

(** [O] holds the pages the page allocator gave to others. *)
Record heap_ok (h : heap) (O : blocks) (L : gmap Z Z) : Prop := {
  ho_descs : sized h;
  ho_pages : pa_live h.(frames_of) (O ∪ arena_pages h);
  ho_others : O ##ₘ arena_pages h;
  ho_bytes : bytes_only (pa_ram h.(frames_of));
  ho_arena : ∀ a ar, h.(arenas) !! a = Some ar →
    ar.(magic) = ARENA_MAGIC ∧ ∀ d, ar.(adesc) = Some d → (d < 7)%nat;
  ho_free : ∀ d b, b ∈ fl h d → owned h d b;
  ho_nodup : ∀ d, NoDup (fl h d);
  ho_cnt : ∀ a ar d, h.(arenas) !! a = Some ar → ar.(adesc) = Some d →
    ar.(free_cnt) = zlen (filter (λ b, page_of b = a) (fl h d));
  ho_live : ∀ b sz, L !! b = Some sz ↔ in_use h b sz;
}.

(** ** Arithmetic of blocks *)

Lemma bs_cases d : (d < 7)%nat →
  bs d = 16 ∧ bpa d = 255 ∨ bs d = 32 ∧ bpa d = 127 ∨ bs d = 64 ∧ bpa d = 63 ∨ bs d = 128 ∧ bpa d = 31 ∨
  bs d = 256 ∧ bpa d = 15 ∨ bs d = 512 ∧ bpa d = 7 ∨ bs d = 1024 ∧ bpa d = 3.
Proof. intros Hd. do 7 (destruct d as [|d]; [vm_compute; tauto|]). lia. Qed.

Lemma bs_bounds d : (d < 7)%nat → 16 ≤ bs d ≤ 1024 ∧ 0 < bpa d ≤ 255 ∧ bpa d * bs d ≤ 4084.
Proof. intros Hd. pose proof (bs_cases d Hd) as H. destruct_or! H; destruct H as [-> ->]; lia. Qed.

Lemma slot_fits d i : (d < 7)%nat → 0 ≤ i < bpa d → 0 ≤ i * bs d ∧ i * bs d + bs d ≤ 4084.
Proof. intros Hd Hi. destruct (bs_bounds d Hd) as (? & ? & ?). nia. Qed.

Lemma slot_page a d i : (d < 7)%nat → 0 ≤ i < bpa d → a `mod` 4096 = 0 → page_of (slot a d i) = a.
Proof. intros Hd Hi Ha. pose proof (slot_fits d i Hd Hi). pose proof (bs_bounds d Hd). unfold page_of, slot.
  generalize dependent (i * bs d). intros. dm_lia. Qed.

Lemma slot_inj d a i j : (d < 7)%nat → slot a d i = slot a d j → i = j.
Proof. intros Hd H. unfold slot in H. destruct (bs_bounds d Hd) as (? & _ & _). nia. Qed.

Lemma elem_slots a d n b : b ∈ slots a d n ↔ ∃ i, 0 ≤ i < n ∧ b = slot a d i.
Proof.
  unfold slots. rewrite list_elem_of_fmap. setoid_rewrite elem_of_seqZ.
  split; intros (i & ? & ?); exists i; split; done || lia.
Qed.

Lemma slots_nodup a d n : (d < 7)%nat → NoDup (slots a d n).
Proof.
  intros Hd. unfold slots. apply NoDup_fmap_2_strong; [|apply NoDup_seqZ]. intros i j _ _. by apply slot_inj.
Qed.

Lemma slots_snoc a d i : 0 ≤ i → slots a d (i + 1) = slots a d i ++ [slot a d i].
Proof.
  intros Hi. unfold slots. rewrite seqZ_app, fmap_app by lia. done.
Qed.

Lemma slots_length a d n : 0 ≤ n → zlen (slots a d n) = n.
Proof. intros. unfold slots. rewrite length_fmap, length_seqZ. lia. Qed.

(** ** What the invariant gives *)

Lemma desc_at h d : sized h → (d < 7)%nat → h.(descs) !! d = Some (Desc (bs d) (bpa d) (fl h d)).
Proof.
  intros He Hd. apply (f_equal (.!! d)) in He.
  rewrite !list_lookup_fmap, lookup_seq_lt in He by done. unfold fl.
  destruct (h.(descs) !! d) as [[x y l]|]; [|done]. cbn in He. injection He as -> ->. done.
Qed.

Lemma desc_cnt h : sized h → length h.(descs) = 7%nat.
Proof. intros He%(f_equal length). rewrite !length_fmap in He. done. Qed.

Section facts.
Context {h : heap} {O : blocks} {L : gmap Z Z} (OK : heap_ok h O L).

Lemma fl_out d : (7 ≤ d)%nat → fl h d = [].
Proof. intros Hd. unfold fl. by rewrite lookup_ge_None_2 by (rewrite desc_cnt; [done|apply OK]). Qed.

(** The page of an arena. *)
Lemma arena_page a ar :
  h.(arenas) !! a = Some ar →
  let n := match ar.(adesc) with Some _ => 1 | None => ar.(free_cnt) end in
  (O ∪ arena_pages h) !! a = Some n ∧ O !! a = None ∧
  0 < n ∧ a `mod` 4096 = 0 ∧ PHYS_BASE ≤ a ∧ a + 4096 * n ≤ W32 ∧ mapped (pa_ram h.(frames_of)) a (4096 * n).
Proof.
  intros Ha n. assert (arena_pages h !! a = Some n) as Hp by (unfold arena_pages; by rewrite lookup_fmap, Ha).
  assert ((O ∪ arena_pages h) !! a = Some n) as Hu by (apply lookup_union_Some; [apply OK|by right]).
  destruct (pa_block _ _ _ _ (ho_pages _ _ _ OK) Hu) as (? & ? & ? & ? & ? & _).
  split_and!; try done. destruct (O !! a) as [x|] eqn:E; [|done].
  by destruct (map_disjoint_spec O (arena_pages h)) as [Hd _]; destruct (Hd (ho_others _ _ _ OK) a x n).
Qed.

Lemma arenas_apart a ar a' ar' :
  h.(arenas) !! a = Some ar → h.(arenas) !! a' = Some ar' → a ≠ a' →
  let n := match ar.(adesc) with Some _ => 1 | None => ar.(free_cnt) end in
  let n' := match ar'.(adesc) with Some _ => 1 | None => ar'.(free_cnt) end in
  a + 4096 * n ≤ a' ∨ a' + 4096 * n' ≤ a.
Proof.
  intros Ha Ha' Hne n n'. destruct (arena_page _ _ Ha) as (Hu & _). destruct (arena_page _ _ Ha') as (Hu' & _).
  destruct (pa_block _ _ _ _ (ho_pages _ _ _ OK) Hu) as (_ & _ & _ & _ & _ & Hap).
  apply Hap. by rewrite lookup_delete_ne.
Qed.

Lemma owned_desc d b : owned h d b → (d < 7)%nat.
Proof. intros (a & ar & i & Ha & Hd & _). by apply (ho_arena _ _ _ OK a ar). Qed.

(** Every block in use lies in the pages of its arena, behind the header. *)
Lemma in_use_page b sz :
  in_use h b sz → ∃ a ar, h.(arenas) !! a = Some ar ∧
    let n := match ar.(adesc) with Some _ => 1 | None => ar.(free_cnt) end in
    a + 12 ≤ b ∧ b + sz ≤ a + 4096 * n ∧ 0 < sz ∧ page_of b = a.
Proof.
  destruct 1 as [a ar Ha Hd ->|d (a & ar & i & Ha & Hd & Hi & ->) Hn]; exists a, ar; (split; [done|]);
    destruct (arena_page _ _ Ha) as (_ & _ & Hn0 & Hm & _); rewrite Hd in *.
  - split_and!; try lia. unfold page_of. dm_lia.
  - destruct (ho_arena _ _ _ OK _ _ Ha) as [_ Hd7]. specialize (Hd7 _ Hd).
    pose proof (slot_fits d i Hd7 Hi). pose proof (bs_bounds d Hd7). rewrite slot_page by done.
    unfold slot. split_and!; lia.
Qed.

(** Blocks in use do not overlap. *)
Lemma in_use_apart b sz b' sz' :
  in_use h b sz → in_use h b' sz' → b ≠ b' → b + sz ≤ b' ∨ b' + sz' ≤ b.
Proof.
  intros Hb Hb' Hne. destruct (in_use_page _ _ Hb) as (a & ar & Ha & Hr). destruct (in_use_page _ _ Hb') as (a' & ar' & Ha' & Hr').
  destruct (decide (a = a')) as [<-|Hna]; [|destruct (arenas_apart _ _ _ _ Ha Ha' Hna); cbn in *; lia].
  rewrite Ha in Ha'. injection Ha' as <-.
  destruct (ho_arena _ _ _ OK _ _ Ha) as [_ Hd7]. destruct (arena_page _ _ Ha) as (_ & _ & _ & Hm & _).
  destruct Hb as [a1 ar1 Ha1 Hd1 ->|d (a1 & ar1 & i & Ha1 & Hd1 & Hi & ->) _];
    destruct Hb' as [a2 ar2 Ha2 Hd2 ->|d' (a2 & ar2 & j & Ha2 & Hd2 & Hj & ->) _].
  all: destruct (arena_page _ _ Ha1) as (_ & _ & _ & Hm1 & _), (arena_page _ _ Ha2) as (_ & _ & _ & Hm2 & _).
  all: pose proof (proj2 (ho_arena _ _ _ OK _ _ Ha1)) as H1; pose proof (proj2 (ho_arena _ _ _ OK _ _ Ha2)) as H2.
  all: repeat match goal with
    | Hd : adesc ?x = Some ?d, H : ∀ d, adesc ?x = Some d → _ |- _ => specialize (H _ Hd)
    | Hr : context [page_of (slot ?a ?d ?i)] |- _ => rewrite (slot_page a d i) in Hr by done
    | Hr : context [page_of (?a + 12)] |- _ => replace (page_of (a + 12)) with a in Hr by (unfold page_of; dm_lia)
    end.
  all: destruct Hr as (_ & _ & _ & ->), Hr' as (_ & _ & _ & ->); rewrite Ha1 in *; simplify_eq.
  all: cbn in *; try congruence. destruct (bs_bounds d H1) as (? & _ & _). unfold slot in *.
  assert (i ≠ j) by (by intros ->). destruct (decide (i < j)); [left|right]; nia.
Qed.
End facts.

(** ** Steps on the state *)

Definition with_free (d : nat) (l : list Z) (h : heap) : heap :=
  Heap (<[d := Desc (bs d) (bpa d) l]> h.(descs)) h.(arenas) h.(frames_of).
Definition with_arena (a : Z) (ar : arena) (h : heap) : heap :=
  Heap h.(descs) (<[a := ar]> h.(arenas)) h.(frames_of).
Definition with_frames (p : P) (h : heap) : heap := Heap h.(descs) h.(arenas) p.

Lemma sized_free h d l : sized h → (d < 7)%nat → sized (with_free d l h).
Proof.
  unfold sized. intros Hs Hd. cbn [with_free descs]. rewrite list_fmap_insert, Hs. cbn [desc_block_size blocks_per_arena].
  apply list_insert_id. by rewrite list_lookup_fmap, lookup_seq_lt.
Qed.

Lemma fl_free h d l d' : sized h → (d < 7)%nat →
  fl (with_free d l h) d' = if bool_decide (d' = d) then l else fl h d'.
Proof.
  intros Hs Hd. unfold fl. cbn. case_bool_decide as E; [subst d'|].
  - rewrite list_lookup_insert_eq by (rewrite desc_cnt; [lia|done]). done.
  - by rewrite list_lookup_insert_ne.
Qed.

Lemma get_desc_ok h d : sized h → (d < 7)%nat → get_desc d h = Ok (Desc (bs d) (bpa d) (fl h d), h).
Proof. intros Hs Hd. unfold get_desc. by rewrite desc_at. Qed.

Lemma set_free_ok h d f : sized h → (d < 7)%nat → set_free d f h = Ok (tt, with_free d (f (fl h d)) h).
Proof. intros Hs Hd. unfold set_free. by rewrite desc_at. Qed.

Lemma with_free_free h d l l' : with_free d l (with_free d l' h) = with_free d l h.
Proof. unfold with_free. cbn. by rewrite list_insert_insert_eq. Qed.

Definition placed (a : Z) : Prop := a `mod` 4096 = 0 ∧ PHYS_BASE ≤ a ∧ a + 4096 ≤ W32.

(** Arena [a] is one of descriptor [d]. *)
Record arena_of (h : heap) (a : Z) (d : nat) (c : Z) : Prop := {
  ao_sized : sized h;
  ao_desc : (d < 7)%nat;
  ao_placed : placed a;
  ao_arena : h.(arenas) !! a = Some (Arena ARENA_MAGIC (Some d) c);
}.

Lemma get_arena_ok h a ar : h.(arenas) !! a = Some ar → ar.(magic) = ARENA_MAGIC → get_arena a h = Ok (ar, h).
Proof. intros Ha Hm. unfold get_arena. by rewrite Ha, Hm, Z.eqb_refl. Qed.

Lemma arena_to_block_ok h a d c i :
  arena_of h a d c → 0 ≤ i < bpa d → arena_to_block a i h = Ok (slot a d i, h).
Proof.
  intros [Hs Hd (Hm & Hp & He) Ha] Hi. unfold PHYS_BASE, LOADER_PHYS_BASE in *. unfold arena_to_block.
  rewrite bind_assert by (rewrite (proj2 (Z.eqb_neq a NULL)); mlia).
  erewrite bind_Ok by by apply get_arena_ok. cbn [adesc].
  rewrite (bind_Ok _ _ _ _ _ (get_desc_ok h d Hs Hd)). cbn [blocks_per_arena desc_block_size].
  rewrite bind_assert by lia. pose proof (slot_fits d i Hd Hi). pose proof (bs_bounds d Hd).
  unfold ARENA_SIZE. rewrite (u32_small (i * bs d)), u32_small by mlia. done.
Qed.

Lemma block_to_arena_ok h a d c i :
  arena_of h a d c → 0 ≤ i < bpa d → block_to_arena (slot a d i) h = Ok (a, h).
Proof.
  intros [Hs Hd (Hm & Hp & He) Ha] Hi. unfold PHYS_BASE, LOADER_PHYS_BASE in *. unfold block_to_arena.
  pose proof (slot_fits d i Hd Hi). pose proof (bs_bounds d Hd). pose proof (slot_page a d i Hd Hi Hm) as Hpg.
  rewrite pg_round_down_eq by (unfold slot; mlia). fold (page_of (slot a d i)). rewrite Hpg.
  rewrite bind_assert by (rewrite (proj2 (Z.eqb_neq a NULL)); mlia).
  erewrite bind_Ok by by apply get_arena_ok. cbn [adesc].
  rewrite (bind_Ok _ _ _ _ _ (get_desc_ok h d Hs Hd)). cbn [desc_block_size].
  rewrite bind_assert; [done|]. apply Z.eqb_eq. rewrite pg_ofs_mod. unfold page_of in Hpg.
  replace (slot a d i `mod` 4096 - ARENA_SIZE) with (i * bs d) by (unfold slot, ARENA_SIZE in *; lia).
  rewrite u32_small by mlia. apply Z.mod_mul. lia.
Qed.

Lemma page_kind {h O L a ar d} :
  heap_ok h O L → h.(arenas) !! a = Some ar → ar.(adesc) = Some d → arena_of h a d ar.(free_cnt).
Proof.
  intros OK Ha Hd. destruct (arena_page OK _ _ Ha) as (_ & _ & _ & ? & ? & He & _). rewrite Hd in He.
  destruct (ho_arena _ _ _ OK _ _ Ha) as [Hm H7]. destruct ar as [m x c]; cbn in *. subst.
  split; [apply OK|by apply H7|split_and!; [done..|lia]|done].
Qed.

(** ** How the invariant moves *)

Lemma heap_ok_frames h O L p :
  heap_ok h O L → pa_live p (O ∪ arena_pages h) → bytes_only (pa_ram p) → heap_ok (with_frames p h) O L.
Proof.
  intros [] Hp Hb. split; try done. intros b sz. rewrite ho_live0. split.
  - destruct 1; [by eapply in_use_big|by apply in_use_small].
  - destruct 1; [by eapply in_use_big|by apply in_use_small].
Qed.

Definition page_cnt_in (a : Z) (l : list Z) : Z := zlen (filter (λ b, page_of b = a) l).

(** The free list of [d] and the count of arena [a] change. *)
Definition update (a : Z) (d : nat) (l : list Z) (c : Z) (h : heap) : heap :=
  with_free d l (with_arena a (Arena ARENA_MAGIC (Some d) c) h).

Section update.
Context {h : heap} {a : Z} {d : nat} {c : Z} (l : list Z) (c' : Z) (AO : arena_of h a d c).

Lemma update_pages : arena_pages (update a d l c' h) = arena_pages h.
Proof.
  unfold arena_pages, update. cbn. rewrite fmap_insert. cbn. apply insert_id. by rewrite lookup_fmap, (ao_arena _ _ _ _ AO).
Qed.

Lemma update_owned d' b : owned (update a d l c' h) d' b ↔ owned h d' b.
Proof.
  pose proof (ao_arena _ _ _ _ AO) as Ha. split; intros (a' & ar & i & Ha' & Hd' & Hi & ->).
  - cbn in Ha'. apply lookup_insert_Some in Ha' as [[<- <-]|[_ Ha']]; [|by exists a', ar, i].
    injection Hd' as <-. by eexists a, _, i.
  - destruct (decide (a' = a)) as [->|].
    + rewrite Ha in Ha'. injection Ha' as <-. injection Hd' as <-. eexists a, _, i. cbn. by rewrite lookup_insert_eq.
    + exists a', ar, i. cbn. by rewrite lookup_insert_ne.
Qed.

Lemma update_fl d' : fl (update a d l c' h) d' = if bool_decide (d' = d) then l else fl h d'.
Proof. unfold update. rewrite fl_free; [done|apply AO..]. Qed.

(** A block of arena [a]'s page is one of its blocks. *)
Lemma owned_here O L d' b : heap_ok h O L → owned h d' b → page_of b = a → d' = d ∧ owned h d b.
Proof.
  intros OK (a' & ar & i & Ha' & Hd' & Hi & ->) E. pose proof (ao_arena _ _ _ _ AO) as Ha.
  destruct (arena_page OK _ _ Ha') as (_ & _ & _ & Hm & _).
  rewrite slot_page in E by (done || by apply (ho_arena _ _ _ OK _ _ Ha')). subst a'.
  rewrite Ha in Ha'. injection Ha' as <-. injection Hd' as <-. split; [done|]. by eexists a, _, i.
Qed.

Lemma big_elsewhere O L a' ar b :
  heap_ok h O L → h.(arenas) !! a' = Some ar → ar.(adesc) = None → b = a' + 12 → page_of b ≠ a.
Proof.
  intros OK Ha' Hd' -> E. destruct (arena_page OK _ _ Ha') as (_ & _ & _ & Hm & _).
  replace (page_of (a' + 12)) with a' in E by (unfold page_of; dm_lia). subst a'.
  rewrite (ao_arena _ _ _ _ AO) in Ha'. by injection Ha' as <-.
Qed.

Lemma in_use_here O L b sz :
  heap_ok h O L → page_of b = a → in_use h b sz ↔ owned h d b ∧ b ∉ fl h d ∧ sz = bs d.
Proof.
  intros OK E. split.
  - destruct 1 as [a' ar Ha' Hd' Hb|d' How Hnot]; [by destruct (big_elsewhere O L a' ar b OK Ha' Hd' Hb)|].
    by destruct (owned_here O L d' b OK How E) as [-> ?].
  - intros (? & ? & ->). by apply in_use_small.
Qed.

Lemma update_in_use O L b sz :
  heap_ok h O L → (∀ b, page_of b ≠ a → b ∈ l ↔ b ∈ fl h d) →
  in_use (update a d l c' h) b sz ↔
  page_of b ≠ a ∧ in_use h b sz ∨ page_of b = a ∧ owned h d b ∧ b ∉ l ∧ sz = bs d.
Proof.
  intros OK Hout. split.
  - destruct 1 as [a' ar Ha' Hd' Hb|d' How%update_owned Hnot].
    + cbn in Ha'. apply lookup_insert_Some in Ha' as [[_ <-]|[Hne Ha']]; [done|].
      left. split; [by eapply big_elsewhere|by eapply in_use_big].
    + rewrite update_fl in Hnot. destruct (decide (page_of b = a)) as [E|E]; [right|left].
      * destruct (owned_here _ _ _ _ OK How E) as [-> ?]. by rewrite bool_decide_eq_true_2 in Hnot.
      * split; [done|]. apply in_use_small; [done|]. revert Hnot. case_bool_decide; [subst; by rewrite Hout|done].
  - intros [[Hpg Hin]|(Hpg & How & Hnot & ->)].
    + destruct Hin as [a' ar Ha' Hd' Hb|d' How Hnot].
      * eapply in_use_big; [|done..]. cbn. rewrite lookup_insert_ne; [done|].
        intros <-. rewrite (ao_arena _ _ _ _ AO) in Ha'. by injection Ha' as <-.
      * apply in_use_small; [by apply update_owned|]. rewrite update_fl. case_bool_decide; [subst; by rewrite Hout|done].
    + apply in_use_small; [by apply update_owned|]. rewrite update_fl. by rewrite bool_decide_eq_true_2.
Qed.
End update.

Lemma heap_ok_update h O L L' a d c l :
  heap_ok h O L → arena_of h a d c → NoDup l → (∀ b, b ∈ l → owned h d b) →
  (∀ a', a' ≠ a → page_cnt_in a' l = page_cnt_in a' (fl h d)) →
  (∀ b, page_of b ≠ a → b ∈ l ↔ b ∈ fl h d) →
  (∀ b sz, L' !! b = Some sz ↔
     page_of b ≠ a ∧ L !! b = Some sz ∨ page_of b = a ∧ owned h d b ∧ b ∉ l ∧ sz = bs d) →
  heap_ok (update a d l (page_cnt_in a l) h) O L'.
Proof.
  intros OK AO Hnd Hl Hcnt Hout HL. pose proof OK as [Hs Hp Ho Hb Har Hf Hn Hc Hlive].
  split; rewrite ?(update_pages _ _ AO); try done.
  - apply sized_free; [done|apply AO].
  - intros a' ar Ha'. cbn in Ha'. apply lookup_insert_Some in Ha' as [[_ <-]|[_ Ha']]; [|by apply (Har a')]. split; [done|].
    cbn. intros ? [= <-]. apply AO.
  - intros d' b. rewrite (update_fl _ _ AO), (update_owned _ _ AO). case_bool_decide; [subst; apply Hl|apply Hf].
  - intros d'. rewrite (update_fl _ _ AO). case_bool_decide; [done|apply Hn].
  - intros a' ar d' Ha' Hd'. rewrite (update_fl _ _ AO). cbn in Ha'.
    apply lookup_insert_Some in Ha' as [[<- <-]|[Hne Ha']].
    + injection Hd' as <-. by rewrite bool_decide_eq_true_2.
    + rewrite (Hc _ _ _ Ha' Hd'). case_bool_decide; [subst|done]. symmetry. by apply Hcnt.
  - intros b sz. rewrite HL, (update_in_use _ _ AO _ _ _ _ OK Hout), Hlive. done.
Qed.

(** ** Arenas come and go *)

Definition kind_pages (ar : arena) : Z := match ar.(adesc) with Some _ => 1 | None => ar.(free_cnt) end.

Lemma owned_page h O L d b :
  heap_ok h O L → owned h d b → ∃ ar, h.(arenas) !! page_of b = Some ar ∧ ar.(adesc) = Some d.
Proof.
  intros OK (a & ar & i & Ha & Hd & Hi & ->). exists ar. rewrite slot_page; [done| |done|].
  - by apply (ho_arena _ _ _ OK _ _ Ha).
  - by destruct (arena_page OK _ _ Ha) as (_ & _ & _ & ? & _).
Qed.

Lemma fresh_page h O L a n :
  heap_ok h O L → apart (O ∪ arena_pages h) a n → 0 < n → O !! a = None ∧ h.(arenas) !! a = None.
Proof.
  intros OK Hap Hn. assert ((O ∪ arena_pages h) !! a = None) as Hu.
  { destruct ((O ∪ arena_pages h) !! a) as [k|] eqn:E; [|done]. pose proof (Hap _ _ E).
    destruct (pa_block _ _ _ _ (ho_pages _ _ _ OK) E) as (? & _). lia. }
  apply lookup_union_None in Hu as [? Hu]. split; [done|]. unfold arena_pages in Hu.
  rewrite lookup_fmap in Hu. by destruct (h.(arenas) !! a).
Qed.

Lemma added_pages (h h' : heap) O a ar :
  h'.(arenas) = <[a := ar]> h.(arenas) → O !! a = None →
  O ∪ arena_pages h' = <[a := kind_pages ar]> (O ∪ arena_pages h) ∧
  (O ##ₘ arena_pages h → O ##ₘ arena_pages h').
Proof.
  intros E HO. unfold arena_pages. rewrite E, fmap_insert. fold (arena_pages h) (kind_pages ar). split.
  - by rewrite insert_union_r.
  - intros Hd. by apply map_disjoint_insert_r_2.
Qed.

Lemma dropped_pages (h h' : heap) O a :
  h'.(arenas) = delete a h.(arenas) → O !! a = None →
  O ∪ arena_pages h' = delete a (O ∪ arena_pages h) ∧ (O ##ₘ arena_pages h → O ##ₘ arena_pages h').
Proof.
  intros E HO. unfold arena_pages. rewrite E, fmap_delete. fold (arena_pages h). split.
  - by rewrite delete_union, (delete_id O).
  - intros Hd. by apply map_disjoint_delete_r.
Qed.

Lemma owned_added (h h' : heap) a ar d b :
  h'.(arenas) = <[a := ar]> h.(arenas) → h.(arenas) !! a = None →
  owned h' d b ↔ owned h d b ∨ ar.(adesc) = Some d ∧ b ∈ slots a d (bpa d).
Proof.
  intros E Ha. rewrite elem_slots. unfold owned. rewrite E. split.
  - intros (a' & ar' & i & Ha' & Hd' & Hi & ->). apply lookup_insert_Some in Ha' as [[<- <-]|[_ Ha']].
    + right. split; [done|]. by exists i.
    + left. by exists a', ar', i.
  - intros [(a' & ar' & i & Ha' & Hd' & Hi & ->)|[Hd (i & Hi & ->)]].
    + exists a', ar', i. rewrite lookup_insert_ne; [done|]. intros <-. by rewrite Ha in Ha'.
    + exists a, ar, i. by rewrite lookup_insert_eq.
Qed.

Lemma owned_dropped (h h' : heap) O L a d b :
  heap_ok h O L → h'.(arenas) = delete a h.(arenas) → owned h' d b ↔ owned h d b ∧ page_of b ≠ a.
Proof.
  intros OK E. split.
  - intros (a' & ar & i & Ha' & Hd & Hi & ->). rewrite E in Ha'. apply lookup_delete_Some in Ha' as [Hne Ha'].
    split; [by exists a', ar, i|]. rewrite slot_page; [done| |done|].
    + by apply (ho_arena _ _ _ OK _ _ Ha').
    + by destruct (arena_page OK _ _ Ha') as (_ & _ & _ & ? & _).
  - intros [How Hpg]. pose proof How as (a' & ar & i & Ha' & Hd & Hi & ->).
    exists a', ar, i. rewrite E, lookup_delete_ne; [done|]. intros <-. destruct Hpg. apply slot_page; [|done|].
    + by apply (ho_arena _ _ _ OK _ _ Ha').
    + by destruct (arena_page OK _ _ Ha') as (_ & _ & _ & ? & _).
Qed.

(** A new arena: all its blocks are free. *)
Lemma heap_ok_new h O L a d p :
  heap_ok h O L → (d < 7)%nat → fl h d = [] → apart (O ∪ arena_pages h) a 1 →
  pa_live p (<[a := 1]> (O ∪ arena_pages h)) → pa_ram p = pa_ram h.(frames_of) →
  heap_ok (update a d (slots a d (bpa d)) (bpa d) (with_frames p h)) O L.
Proof.
  intros OK Hd Hfl Hap Hp Hram. destruct (fresh_page _ _ _ _ _ OK Hap) as [HO Ha]; [done|].
  destruct (pa_block p _ a 1 Hp) as (_ & Hm & _); [by rewrite lookup_insert_eq|].
  pose proof OK as [Hs _ Ho Hb Har Hf Hn Hc Hlive]. set (h' := update _ _ _ _ _).
  destruct (added_pages h h' O a (Arena ARENA_MAGIC (Some d) (bpa d))) as [Ep Eo]; [done..|].
  assert (∀ d', fl h' d' = if bool_decide (d' = d) then slots a d (bpa d) else fl h d') as Efl.
  { intros d'. apply (fl_free (with_arena _ _ (with_frames _ _))); done. }
  assert (∀ d' b, owned h' d' b ↔ owned h d' b ∨ Some d = Some d' ∧ b ∈ slots a d' (bpa d')) as Eown.
  { intros d' b. by apply (owned_added h h' a (Arena ARENA_MAGIC (Some d) (bpa d))). }
  assert (∀ b, b ∈ slots a d (bpa d) → page_of b = a) as Hpg.
  { intros b (i & Hi & ->)%elem_slots. by apply slot_page. }
  split; rewrite ?Ep; auto.
  - by apply (sized_free (with_arena _ _ (with_frames _ _))).
  - cbn. by rewrite Hram.
  - intros a' ar Ha'. cbn in Ha'. apply lookup_insert_Some in Ha' as [[_ <-]|[_ Ha']]; [|by apply (Har a')].
    split; [done|]. cbn. by intros ? [= <-].
  - intros d' b. rewrite Efl, Eown. case_bool_decide; [subst; by right|]. intros Hin. left. by apply Hf.
  - intros d'. rewrite Efl. case_bool_decide; [by apply slots_nodup|apply Hn].
  - intros a' ar d' Ha' Hd'. rewrite Efl. cbn in Ha'. apply lookup_insert_Some in Ha' as [[<- <-]|[Hne Ha']].
    + injection Hd' as <-. rewrite bool_decide_eq_true_2 by done. cbn [free_cnt].
      rewrite list_filter_all by done. rewrite slots_length; [done|]. by apply Z.div_pos; [|apply bs_bounds in Hd; lia].
    + rewrite (Hc _ _ _ Ha' Hd'). case_bool_decide; [subst d'|done]. rewrite Hfl.
      rewrite (list_filter_none _ (slots _ _ _)); [done|]. intros b Hb' E. apply Hpg in Hb'. congruence.
  - intros b sz. rewrite Hlive. split.
    + destruct 1 as [a' ar Ha' Hd' Hb'|d' How Hnot].
      * eapply in_use_big; [|done..]. cbn. rewrite lookup_insert_ne; [done|]. intros <-. by rewrite Ha in Ha'.
      * apply in_use_small; [by apply Eown; left|]. rewrite Efl. case_bool_decide; [|done].
        intros Hin%Hpg. destruct (owned_page _ _ _ _ _ OK How) as (ar & Ha' & _). rewrite Hin, Ha in Ha'. done.
    + destruct 1 as [a' ar Ha' Hd' Hb'|d' [How|[[= <-] Hin]]%Eown Hnot]; try rewrite Efl in Hnot.
      * cbn in Ha'. apply lookup_insert_Some in Ha' as [[<- <-]|[Hne Ha']]; [done|]. by eapply in_use_big.
      * apply in_use_small; [done|]. revert Hnot. case_bool_decide; [subst; rewrite Hfl; by set_solver|done].
      * by rewrite bool_decide_eq_true_2 in Hnot.
Qed.

(** A big block is an arena of its own. *)
Lemma heap_ok_big h O L a n p :
  heap_ok h O L → 0 < n → apart (O ∪ arena_pages h) a n →
  pa_live p (<[a := n]> (O ∪ arena_pages h)) → pa_ram p = pa_ram h.(frames_of) →
  heap_ok (with_arena a (Arena ARENA_MAGIC None n) (with_frames p h)) O (<[a + 12 := 4096 * n - 12]> L) ∧
  L !! (a + 12) = None.
Proof.
  intros OK Hn Hap Hp Hram. destruct (fresh_page _ _ _ _ _ OK Hap) as [HO Ha]; [done|].
  destruct (pa_block p _ a n Hp) as (_ & Hm & _); [by rewrite lookup_insert_eq|].
  pose proof OK as [Hs _ Ho Hb Har Hf Hnd Hc Hlive]. set (h' := with_arena _ _ _).
  destruct (added_pages h h' O a (Arena ARENA_MAGIC None n)) as [Ep Eo]; [done..|].
  assert (∀ d b, owned h' d b ↔ owned h d b) as Eown.
  { intros d b. rewrite (owned_added h h' a (Arena ARENA_MAGIC None n)) by done. naive_solver. }
  assert (page_of (a + 12) = a) as Epg by (unfold page_of; dm_lia).
  assert (∀ sz, ¬ in_use h (a + 12) sz) as Hnew.
  { intros sz Hin. destruct (in_use_page OK _ _ Hin) as (a' & ar & Ha' & _ & _ & _ & Hpg).
    rewrite Epg in Hpg. subst a'. by rewrite Ha in Ha'. }
  split.
  2:{ destruct (L !! (a + 12)) as [sz|] eqn:E; [|done]. apply Hlive in E. by apply Hnew in E. }
  split; rewrite ?Ep; auto.
  - cbn. by rewrite Hram.
  - intros a' ar Ha'. cbn in Ha'. apply lookup_insert_Some in Ha' as [[_ <-]|[_ Ha']]; [done|by apply (Har a')].
  - intros d b Hin. apply Eown. by apply Hf.
  - intros a' ar d Ha' Hd. cbn in Ha'. apply lookup_insert_Some in Ha' as [[_ <-]|[_ Ha']]; [done|by apply (Hc a')].
  - intros b sz. rewrite lookup_insert_Some, Hlive. split.
    + intros [[<- <-]|[_ [a' ar Ha' Hd' Hb'|d How Hnot]]].
      * eapply (in_use_big h' _ a (Arena ARENA_MAGIC None n)); [|done..]. cbn. by rewrite lookup_insert_eq.
      * eapply in_use_big; [|done..]. cbn. rewrite lookup_insert_ne; [done|]. intros <-. by rewrite Ha in Ha'.
      * apply in_use_small; [by apply Eown|done].
    + destruct 1 as [a' ar Ha' Hd' ->|d How%Eown Hnot].
      * cbn in Ha'. apply lookup_insert_Some in Ha' as [[<- <-]|[Hne Ha']]; [by left|].
        right. split; [lia|]. by eapply in_use_big.
      * assert (in_use h b (bs d)) as Hin by by apply in_use_small.
        right. split; [|done]. intros <-. by apply Hnew in Hin.
Qed.

(** The page of an arena all of whose blocks are free goes back. *)
Lemma heap_ok_drop h O L a ar d l p :
  heap_ok h O L → h.(arenas) !! a = Some ar → ar.(adesc) = Some d →
  (∀ i, 0 ≤ i < bpa d → slot a d i ∈ fl h d) → l = filter (λ b, page_of b ≠ a) (fl h d) →
  pa_live p (delete a (O ∪ arena_pages h)) → bytes_only (pa_ram p) →
  heap_ok (Heap (<[d := Desc (bs d) (bpa d) l]> h.(descs)) (delete a h.(arenas)) p) O L.
Proof.
  intros OK Ha Hd Hall El Hp Hbytes. destruct (arena_page OK _ _ Ha) as (_ & HO & _ & Hm & _).
  pose proof OK as [Hs _ Ho _ Har Hf Hnd Hc Hlive]. assert (d < 7)%nat as Hd7 by by apply (Har a ar).
  set (h' := Heap _ _ _). destruct (dropped_pages h h' O a) as [Ep Eo]; [done..|].
  assert (h'.(arenas) = delete a h.(arenas)) as Ea by done.
  assert (∀ d b, owned h' d b ↔ owned h d b ∧ page_of b ≠ a) as Eown by (intros; by apply (owned_dropped h h' O L)).
  assert (∀ d', fl h' d' = if bool_decide (d' = d) then l else fl h d') as Efl by (intros; by apply fl_free).
  assert (∀ d' b, owned h d' b → page_of b = a → d' = d ∧ b ∈ fl h d) as Hhere.
  { intros d' b How Hpg. pose proof How as (a' & ar' & i & Ha' & Hd' & Hi & ->).
    destruct (owned_page _ _ _ _ _ OK How) as (ar2 & Ha2 & Hd2). rewrite Hpg, Ha in Ha2.
    assert (d' = d) as -> by congruence. split; [done|]. rewrite slot_page in Hpg; [subst; by apply Hall|done..|].
    by destruct (arena_page OK _ _ Ha') as (_ & _ & _ & ? & _). }
  assert (∀ d' b, d' ≠ d → b ∈ fl h d' → page_of b ≠ a) as Hother.
  { intros d' b Hne Hin E. destruct (Hhere d' b); [by apply Hf|done|done]. }
  split; rewrite ?Ep; auto.
  - by apply sized_free.
  - intros a' ar'. rewrite Ea. intros [_ Ha']%lookup_delete_Some. by apply (Har a').
  - intros d' b. rewrite Efl, Eown. case_bool_decide; [subst d' l|]; intros Hin.
    + apply list_elem_of_filter in Hin as [? ?]. split; [by apply Hf|done].
    + split; [by apply Hf|by apply (Hother d')].
  - intros d'. rewrite Efl. case_bool_decide; [subst l; by apply NoDup_filter|done].
  - intros a' ar' d'. rewrite Ea. intros [Hne Ha']%lookup_delete_Some Hd'. rewrite (Hc _ _ _ Ha' Hd'), Efl.
    case_bool_decide; [subst d' l|done]. rewrite list_filter_filter. do 2 f_equal. apply list_filter_iff.
    intros b. split; [|tauto]. intros <-. done.
  - intros b sz. rewrite Hlive. split.
    + destruct 1 as [a' ar' Ha' Hd' Hb'|d' How Hnot].
      * eapply in_use_big; [|done..]. cbn. rewrite lookup_delete_ne; [done|]. intros <-. congruence.
      * assert (page_of b ≠ a) by (intros E; by destruct (Hhere d' b) as [-> ?]).
        apply in_use_small; [by apply Eown|]. rewrite Efl. case_bool_decide; [subst|done].
        intros [_ ?]%list_elem_of_filter. done.
    + destruct 1 as [a' ar' Ha' Hd' Hb'|d' [How Hpg]%Eown Hnot].
      { rewrite Ea in Ha'. apply lookup_delete_Some in Ha' as [_ Ha']. by eapply in_use_big. }
      apply in_use_small; [done|]. intros Hin. destruct Hnot. rewrite Efl. case_bool_decide; [subst|done].
      by apply list_elem_of_filter.
Qed.

Lemma heap_ok_drop_big h O L a ar p :
  heap_ok h O L → h.(arenas) !! a = Some ar → ar.(adesc) = None →
  pa_live p (delete a (O ∪ arena_pages h)) → bytes_only (pa_ram p) →
  heap_ok (Heap h.(descs) (delete a h.(arenas)) p) O (delete (a + 12) L).
Proof.
  intros OK Ha Hd Hp Hbytes. destruct (arena_page OK _ _ Ha) as (_ & HO & _ & Hm & _).
  pose proof OK as [Hs _ Ho _ Har Hf Hnd Hc Hlive].
  set (h' := Heap _ _ _). destruct (dropped_pages h h' O a) as [Ep Eo]; [done..|].
  assert (h'.(arenas) = delete a h.(arenas)) as Ea by done.
  assert (∀ d b, owned h d b → page_of b ≠ a) as Hel.
  { intros d b How <-. destruct (owned_page _ _ _ _ _ OK How) as (ar2 & Ha2 & ?). congruence. }
  assert (∀ d b, owned h' d b ↔ owned h d b) as Eown.
  { intros d b. rewrite (owned_dropped h h' O L) by done. split; [tauto|]. split; [done|by apply (Hel d)]. }
  assert (page_of (a + 12) = a) as Epg by (unfold page_of; dm_lia).
  split; rewrite ?Ep; auto.
  - intros a' ar'. rewrite Ea. intros [_ Ha']%lookup_delete_Some. by apply (Har a').
  - intros d b Hin. apply Eown. by apply Hf.
  - intros a' ar' d'. rewrite Ea. intros [_ Ha']%lookup_delete_Some Hd'. by apply (Hc a').
  - intros b sz. rewrite lookup_delete_Some, Hlive. split.
    + intros [Hne [a' ar' Ha' Hd' ->|d How Hnot]]; [|by apply in_use_small; [apply Eown|]].
      eapply in_use_big; [|done..]. cbn. rewrite lookup_delete_ne; [done|lia].
    + destruct 1 as [a' ar' Ha' Hd' ->|d How%Eown Hnot].
      * rewrite Ea in Ha'. apply lookup_delete_Some in Ha' as [? Ha']. split; [lia|]. by eapply in_use_big.
      * split; [|by apply in_use_small]. intros <-. by destruct (Hel _ _ How).
Qed.

(** ** The operations *)

Lemma pages_op_ok {A} (c : M P A) h r p :
  c h.(frames_of) = Ok (r, p) → pages_op c h = Ok (r, with_frames p h).
Proof. unfold pages_op, rbind. by intros ->. Qed.

Lemma ram_op_ok {A} (c : M mem A) h r m :
  c (pa_ram h.(frames_of)) = Ok (r, m) → ram_op c h = Ok (r, with_frames (pa_set_ram m h.(frames_of)) h).
Proof. unfold ram_op, rbind. by intros ->. Qed.

(** The memory [L] leaves to its owners. *)
Notation ram_of h := (pa_ram (frames_of h)).

Lemma new_arena_loop h a d c :
  arena_of h a d c → fl h d = [] →
  for_upto (bpa d) (λ i, b <- arena_to_block a i ;; list_push_back_free d b) h =
  Ok (tt, with_free d (slots a d (bpa d)) h).
Proof.
  intros AO Hfl. pose proof AO as [Hs Hd Hpl Ha]. pose proof (bs_bounds d Hd).
  edestruct (for_upto_ind (λ i h1, h1 = with_free d (slots a d i) h) (bpa d)) as (h1 & Hr & Hh1);
    [..|by rewrite Hr, Hh1].
  - lia.
  - change (slots a d 0) with (@nil Z). unfold with_free. rewrite <- Hfl, list_insert_id by by apply desc_at. by destruct h.
  - intros i h1 Hi ->.
    assert (arena_of (with_free d (slots a d i) h) a d c) as AO' by (split; [by apply sized_free|done..]).
    eexists. rewrite (bind_Ok _ _ _ _ _ (arena_to_block_ok _ _ _ _ i AO' Hi)).
    unfold list_push_back_free. rewrite set_free_ok by (done || apply AO').
    rewrite fl_free, with_free_free by done. rewrite bool_decide_eq_true_2 by done. by rewrite slots_snoc by lia.
Qed.

Lemma new_arena_ok h O L d :
  heap_ok h O L → (d < 7)%nat → fl h d = [] →
  ∃ r h', new_arena d h = Ok (r, h') ∧ heap_ok h' O L ∧ ram_of h' = ram_of h ∧
    (r = true → fl h' d ≠ []).
Proof.
  intros OK Hd Hfl. unfold new_arena.
  destruct (pa_get_ok _ _ 1 (ho_pages _ _ _ OK)) as (a & p & Hr & Hram & Hres); [lia|].
  rewrite (bind_Ok _ _ _ _ _ (pages_op_ok _ _ _ _ Hr)).
  destruct Hres as [[-> Hl]|(Hnn & _ & Hap & Hl)].
  { exists false. eexists. split_and!; [done|by apply heap_ok_frames; [..|rewrite Hram; apply OK]|done|done]. }
  rewrite (proj2 (Z.eqb_neq _ _) Hnn). pose proof (ho_descs _ _ _ OK) as Hs.
  rewrite (bind_Ok _ _ _ _ _ (get_desc_ok (with_frames p h) d Hs Hd)). cbn [blocks_per_arena].
  unfold bind at 1, set_arena at 1. cbv beta iota.
  destruct (pa_block p _ a 1 Hl) as (_ & Hm & Hpl & He & _); [by rewrite lookup_insert_eq|].
  assert (arena_of (with_arena a (Arena ARENA_MAGIC (Some d) (bpa d)) (with_frames p h)) a d (bpa d)) as AO.
  { split; [done..| |cbn; by rewrite lookup_insert_eq]. split_and!; [done..|lia]. }
  rewrite (bind_Ok _ _ _ _ _ (new_arena_loop _ a d _ AO Hfl)).
  eexists true, _. split_and!; [done|by apply heap_ok_new|done|]. intros _.
  rewrite fl_free by done. rewrite bool_decide_eq_true_2 by done. intros E%(f_equal length).
  pose proof (slots_length a d (bpa d)). pose proof (bs_bounds d Hd). cbn in E. lia.
Qed.

Lemma page_cnt_cons a b l :
  page_cnt_in a (b :: l) = (if bool_decide (page_of b = a) then 1 else 0) + page_cnt_in a l.
Proof. unfold page_cnt_in. rewrite filter_cons. case_decide; case_bool_decide; try done; cbn; lia. Qed.

(** There are no more free blocks in a page than blocks. *)
Lemma page_cnt_bound h O L a d c l :
  heap_ok h O L → arena_of h a d c → NoDup l → (∀ b, b ∈ l → owned h d b) →
  page_cnt_in a l ≤ bpa d ∧ (page_cnt_in a l = bpa d → ∀ i, 0 ≤ i < bpa d → slot a d i ∈ l).
Proof.
  intros OK AO Hnd Hl. pose proof (bs_bounds d (ao_desc _ _ _ _ AO)).
  assert (filter (λ b, page_of b = a) l ⊆+ slots a d (bpa d)) as Hsub.
  { apply NoDup_submseteq; [by apply NoDup_filter|]. intros b [Hpg Hin]%list_elem_of_filter.
    destruct (Hl b Hin) as (a' & ar & i & Ha' & Hd' & Hi & ->). apply elem_slots. exists i. split; [done|].
    rewrite slot_page in Hpg; [by subst|apply AO|done|].
    by destruct (arena_page OK _ _ Ha') as (_ & _ & _ & ? & _). }
  pose proof (submseteq_length _ _ Hsub). pose proof (slots_length a d (bpa d)). unfold page_cnt_in. split; [lia|].
  intros E i Hi. assert (slot a d i ∈ filter (λ b, page_of b = a) l) as Hin; [|by apply list_elem_of_filter in Hin as [_ ?]].
  rewrite (submseteq_length_Permutation _ _ Hsub) by lia. apply elem_slots. by exists i.
Qed.

Lemma take_block_ok h O L d :
  heap_ok h O L → (d < 7)%nat → fl h d ≠ [] →
  ∃ b h', take_block d h = Ok (b, h') ∧ heap_ok h' O (<[b := bs d]> L) ∧ L !! b = None ∧ ram_of h' = ram_of h.
Proof.
  intros OK Hd Hne. destruct (fl h d) as [|b l] eqn:Hfl; [done|]. pose proof (ho_descs _ _ _ OK) as Hs.
  assert (owned h d b) as How by (apply (ho_free _ _ _ OK); rewrite Hfl; by left).
  pose proof (ho_nodup _ _ _ OK d) as Hnd. rewrite Hfl in Hnd. apply NoDup_cons in Hnd as [Hbl Hnd].
  pose proof How as (a & ar & i & Ha & Had & Hi & Hb). pose proof (page_kind OK Ha Had) as AO.
  assert (page_of b = a) as Hpg by (subst b; apply slot_page; [done..|apply AO]).
  pose proof (ho_cnt _ _ _ OK _ _ _ Ha Had) as Hc. fold (page_cnt_in a (fl h d)) in Hc.
  destruct (page_cnt_bound _ _ _ _ _ _ (fl h d) OK AO) as [Hmax _]; [apply OK|apply OK|].
  rewrite Hfl, page_cnt_cons, bool_decide_eq_true_2 in Hc, Hmax by done. pose proof (bs_bounds d Hd).
  assert (0 ≤ page_cnt_in a l) by (unfold page_cnt_in; lia).
  exists b, (update a d l (page_cnt_in a l) h). split_and!.
  - unfold take_block, list_pop_front_free. rewrite (bind_Ok _ _ h b (with_free d l h)).
    2:{ rewrite (bind_Ok _ _ _ _ _ (get_desc_ok h d Hs Hd)). cbn [free_list]. rewrite Hfl.
        by rewrite (bind_Ok _ _ _ _ _ (set_free_ok h d _ Hs Hd)). }
    assert (arena_of (with_free d l h) a d ar.(free_cnt)) as AO' by (destruct AO; split; [by apply sized_free|done..]).
    subst b. rewrite (bind_Ok _ _ _ _ _ (block_to_arena_ok _ _ _ _ i AO' Hi)).
    erewrite bind_Ok by (apply get_arena_ok; [apply AO'|done]). cbn [magic adesc free_cnt].
    unfold bind, set_arena, ret. rewrite Hc. replace (u32 _) with (page_cnt_in a l); [done|].
    rewrite u32_small; mlia.
  - apply (heap_ok_update h O L _ a d ar.(free_cnt)); [done..| | | |].
    + intros c Hc'. apply (ho_free _ _ _ OK). rewrite Hfl. by right.
    + intros a' Hne'. rewrite Hfl, page_cnt_cons, bool_decide_eq_false_2 by congruence. lia.
    + intros c Hc'. rewrite Hfl, elem_of_cons. split; [by right|]. intros [-> |]; done.
    + intros c sz. rewrite lookup_insert_Some, (ho_live _ _ _ OK).
      destruct (decide (page_of c = a)) as [E|E]; [|naive_solver congruence].
      rewrite (in_use_here AO O L c sz OK E), Hfl, not_elem_of_cons.
      destruct (decide (c = b)) as [->|Hcb]; naive_solver.
  - destruct (L !! b) as [sz|] eqn:E; [|done].
    apply (ho_live _ _ _ OK), (in_use_here AO O L b sz OK Hpg) in E as (_ & Hnot & _).
    destruct Hnot. rewrite Hfl. by left.
  - done.
Qed.

Lemma find_desc_ok ds size : ∀ i,
  match find_desc ds size i with
  | Some d => ∃ j x, d = (i + j)%nat ∧ ds !! j = Some x ∧ size ≤ x.(desc_block_size) ∧
      ∀ k y, (k < j)%nat → ds !! k = Some y → y.(desc_block_size) < size
  | None => ∀ x, x ∈ ds → x.(desc_block_size) < size
  end.
Proof.
  induction ds as [|x ds IH]; intros i; cbn [find_desc]; [by intros ? ?%elem_of_nil|].
  destruct (Z.leb_spec size x.(desc_block_size)) as [Hle|Hlt].
  { exists 0%nat, x. split_and!; [lia|done|done|lia]. }
  specialize (IH (S i)). destruct (find_desc ds size (S i)) as [d|].
  - destruct IH as (j & y & -> & Hj & Hle & Hmin). exists (S j), y. split_and!; [lia|done|done|].
    intros [|k] z Hk Hz; cbn in Hz; [by injection Hz as <-|apply (Hmin k z); [lia|done]].
  - intros y [-> |Hy]%elem_of_cons; [done|by apply IH].
Qed.

(** The descriptor [malloc] picks has the smallest blocks that are large enough. *)
Lemma find_desc_size h size :
  sized h → 0 < size →
  match find_desc h.(descs) size 0 with
  | Some d => (d < 7)%nat ∧ size ≤ bs d ∧ (bs d = 16 ∨ bs d < 2 * size)
  | None => 1024 < size
  end.
Proof.
  intros Hs H0. pose proof (find_desc_ok h.(descs) size 0) as Hf. destruct (find_desc h.(descs) size 0) as [d|].
  - destruct Hf as (j & x & -> & Hj & Hle & Hmin). cbn [Nat.add] in *.
    assert (j < 7)%nat as Hj7 by (rewrite <- (desc_cnt h Hs); by apply lookup_lt_Some in Hj).
    rewrite desc_at in Hj by done. injection Hj as <-. cbn in Hle. split_and!; [done..|].
    destruct j as [|j]; [by left|right]. specialize (Hmin j _ ltac:(lia) (desc_at h j Hs ltac:(lia))). cbn in Hmin.
    unfold bs in *. replace (Z.of_nat (S j)) with (Z.of_nat j + 1) in * by lia. rewrite Z.pow_add_r in * by lia. lia.
  - apply (Hf (Desc (bs 6) (bpa 6) (fl h 6))). apply list_elem_of_lookup. exists 6%nat. apply desc_at; [done|lia].
Qed.

(** What [malloc] answers for a request of [size] bytes. *)
Definition granted (O : blocks) (L : gmap Z Z) (size r : Z) (h' : heap) : Prop :=
  r = NULL ∧ heap_ok h' O L ∨
  ∃ sz, r ≠ NULL ∧ 0 < size ≤ sz ∧ (sz = 16 ∨ sz < 2 * size ∨ sz < size + 4096) ∧
    L !! r = None ∧ heap_ok h' O (<[r := sz]> L).

Lemma malloc_big_ok h O L size :
  heap_ok h O L → 0 < size ≤ W32 - 12 →
  ∃ r h', malloc_big size h = Ok (r, h') ∧ ram_of h' = ram_of h ∧ granted O L size r h'.
Proof.
  intros OK Hsz. unfold malloc_big. remember (DIV_ROUND_UP (u32 (size + ARENA_SIZE)) PGSIZE) as n eqn:En.
  assert (n = if size + 12 + 4095 <? W32 then (size + 12 + 4095) `div` 4096 else 0) as Hn.
  { rewrite En. unfold DIV_ROUND_UP, ARENA_SIZE, PGSIZE, u32. zcase; dm_lia. }
  assert (0 ≤ n) by (rewrite Hn; zcase; dm_lia).
  destruct (pa_get_ok _ _ n (ho_pages _ _ _ OK)) as (a & p & Hr & Hram & Hres); [done|].
  rewrite (bind_Ok _ _ _ _ _ (pages_op_ok _ _ _ _ Hr)).
  destruct Hres as [[-> Hl]|(Hnn & Hn0 & Hap & Hl)].
  { exists NULL. eexists. split_and!; [done..|]. left. split; [done|].
    apply heap_ok_frames; [done..|]. rewrite Hram. apply OK. }
  rewrite (proj2 (Z.eqb_neq _ _) Hnn). destruct (pa_block p _ a n Hl) as (_ & Hm & Hpl & He & _); [by rewrite lookup_insert_eq|].
  unfold PHYS_BASE, LOADER_PHYS_BASE in *. unfold bind, set_arena, ret, ARENA_SIZE. rewrite u32_small by mlia.
  destruct (heap_ok_big h O L a n p) as [OK' Hnone]; [done..|].
  exists (a + 12). eexists. split_and!; [done..|]. right. exists (4096 * n - 12).
  destruct (Z.ltb_spec (size + 12 + 4095) W32); [|lia]. split_and!; [mlia|lia|dm_lia|dm_lia|done..].
Qed.

Lemma malloc_run h O L size :
  heap_ok h O L → 0 ≤ size ≤ W32 - 12 →
  ∃ r h', malloc size h = Ok (r, h') ∧ ram_of h' = ram_of h ∧ granted O L size r h'.
Proof.
  intros OK Hsz. unfold malloc. destruct (Z.eqb_spec size 0) as [->|Hne].
  { exists NULL, h. split_and!; [done..|]. by left. }
  unfold bind at 1, get. cbv beta iota. pose proof (ho_descs _ _ _ OK) as Hs.
  pose proof (find_desc_size h size Hs ltac:(lia)) as Hfd.
  destruct (find_desc h.(descs) size 0) as [d|]; [|apply malloc_big_ok; [done|lia]].
  destruct Hfd as (Hd & Hle & Hmin). rewrite (bind_Ok _ _ _ _ _ (get_desc_ok h d Hs Hd)). cbn [free_list].
  assert (∃ ok h1, (match fl h d with [] => new_arena d | _ :: _ => ret true end) h = Ok (ok, h1) ∧
    heap_ok h1 O L ∧ ram_of h1 = ram_of h ∧ (ok = true → fl h1 d ≠ [])) as (ok & h1 & Hr & OK1 & Hram & Hfl).
  { destruct (fl h d) as [|b l] eqn:E; [by apply new_arena_ok|]. exists true, h. split_and!; [done..|].
    intros _. by rewrite E. }
  rewrite (bind_Ok _ _ _ _ _ Hr). destruct ok.
  - destruct (take_block_ok h1 O L d OK1 Hd) as (b & h2 & Hr2 & OK2 & Hnone & Hram2); [by apply Hfl|].
    exists b, h2. split_and!; [done|congruence|]. right. exists (bs d). split_and!; try done; [|lia|destruct Hmin; tauto].
    assert (in_use h2 b (bs d)) as Hin by (apply (ho_live _ _ _ OK2); by rewrite lookup_insert_eq).
    destruct (in_use_page OK2 _ _ Hin) as (a & ar & Ha & Hr3). destruct (arena_page OK2 _ _ Ha) as (_ & _ & _ & _ & Hpl & _).
    unfold PHYS_BASE, LOADER_PHYS_BASE in *. mlia.
  - exists NULL, h1. split_and!; [done..|]. by left.
Qed.

(** ** Giving blocks back *)

Lemma bytes_only_fill m p n v : bytes_only m → is_u8 v → bytes_only (store m p (replicate n v)).
Proof.
  intros Hm Hv a b. rewrite store_lookup. case_match; [|by apply Hm]. intros [-> _]%lookup_replicate. done.
Qed.

Lemma fill_outside m p n v x : ¬ (p ≤ x < p + Z.of_nat n) → store m p (replicate n v) !! x = m !! x.
Proof.
  intros Hx. rewrite store_lookup, length_replicate.
  destruct (Z.leb_spec p x), (Z.ltb_spec x (p + Z.of_nat n)); cbn [andb]; done || lia.
Qed.

Lemma remove_loop h a d c :
  arena_of h a d c → (∀ i, 0 ≤ i < bpa d → slot a d i ∈ fl h d) →
  for_upto (bpa d) (λ i, b <- arena_to_block a i ;; list_remove_free d b) h =
  Ok (tt, with_free d (filter (λ b, b ∉ slots a d (bpa d)) (fl h d)) h).
Proof.
  intros AO Hall. pose proof AO as [Hs Hd Hpl Ha]. pose proof (bs_bounds d Hd).
  edestruct (for_upto_ind (λ i h1, h1 = with_free d (filter (λ b, b ∉ slots a d i) (fl h d)) h) (bpa d))
    as (h1 & Hr & Hh1); [..|by rewrite Hr, Hh1].
  - lia.
  - rewrite list_filter_all by (intros x _; apply not_elem_of_nil).
    unfold with_free. rewrite list_insert_id by by apply desc_at. by destruct h.
  - intros i h1 Hi ->. set (l := filter _ _).
    assert (arena_of (with_free d l h) a d c) as AO' by (split; [by apply sized_free|done..]).
    eexists. rewrite (bind_Ok _ _ _ _ _ (arena_to_block_ok _ _ _ _ i AO' Hi)).
    unfold list_remove_free. erewrite bind_Ok by (apply get_desc_ok; [apply AO'|done]). cbn [free_list].
    rewrite fl_free by done. rewrite (bool_decide_eq_true_2 (d = d)) by done. rewrite bool_decide_eq_true_2.
    + rewrite set_free_ok by (done || apply AO'). rewrite fl_free, with_free_free by done.
      rewrite (bool_decide_eq_true_2 (d = d)) by done. split; [done|]. do 2 f_equal. unfold l.
      rewrite list_filter_filter. apply list_filter_iff. intros x. rewrite slots_snoc by lia. set_solver.
    + apply list_elem_of_filter. split; [|by apply Hall]. intros (j & Hj & E%slot_inj)%elem_slots; [lia|done].
Qed.

(** The memory of the other blocks stays as it is. *)
Definition keeps (L : gmap Z Z) (h h' : heap) : Prop :=
  ∀ b sz x, L !! b = Some sz → b ≤ x < b + sz → ram_of h' !! x = ram_of h !! x.

Lemma free_pages_ok h O L a ar :
  heap_ok h O L → h.(arenas) !! a = Some ar →
  ∃ p, free_pages a (kind_pages ar) h = Ok (tt, Heap h.(descs) (delete a h.(arenas)) p) ∧
    pa_live p (delete a (O ∪ arena_pages h)) ∧ bytes_only (pa_ram p) ∧
    ∀ x, ¬ (a ≤ x < a + 4096 * kind_pages ar) → pa_ram p !! x = ram_of h !! x.
Proof.
  intros OK Ha. destruct (arena_page OK _ _ Ha) as (Hu & _ & Hn & _). fold (kind_pages ar) in *.
  destruct (pa_free_ok _ _ _ _ (ho_pages _ _ _ OK) Hu) as (p & Hr & Hl & Hram).
  exists p. unfold free_pages. rewrite (bind_Ok _ _ _ _ _ (pages_op_ok _ _ _ _ Hr)). split_and!; [done..| |].
  - rewrite Hram. apply bytes_only_fill; [apply OK|mlia].
  - intros x Hx. rewrite Hram. apply fill_outside. lia.
Qed.

(** [x] in a block of another arena is outside the pages of [a]. *)
Lemma elsewhere h O L a ar b sz x :
  heap_ok h O L → h.(arenas) !! a = Some ar → in_use h b sz → page_of b ≠ a → b ≤ x < b + sz →
  ¬ (a ≤ x < a + 4096 * kind_pages ar).
Proof.
  intros OK Ha Hin Hne Hx. destruct (in_use_page OK _ _ Hin) as (a' & ar' & Ha' & Hr). cbn zeta in Hr.
  destruct (arenas_apart OK _ _ _ _ Ha Ha') as [H|H]; [by intros ->; apply Hne; lia|..]; unfold kind_pages; lia.
Qed.

Lemma free_big_ok h O L a ar :
  heap_ok h O L → h.(arenas) !! a = Some ar → ar.(adesc) = None →
  ∃ h', free (a + 12) h = Ok (tt, h') ∧ heap_ok h' O (delete (a + 12) L) ∧ keeps (delete (a + 12) L) h h'.
Proof.
  intros OK Ha Hd. destruct (free_pages_ok _ _ _ _ _ OK Ha) as (p & Hr & Hl & Hb & Hram).
  destruct (arena_page OK _ _ Ha) as (_ & _ & Hn & Hm & Hpl & He & _). rewrite Hd in *.
  unfold PHYS_BASE, LOADER_PHYS_BASE in *. pose proof (heap_ok_drop_big _ _ _ _ _ _ OK Ha Hd Hl Hb) as OK'.
  exists (Heap h.(descs) (delete a h.(arenas)) p). split_and!; [|done|].
  - unfold free. rewrite (proj2 (Z.eqb_neq (a + 12) NULL)) by mlia. unfold block_to_arena.
    rewrite pg_round_down_eq by mlia. replace (a + 12 - (a + 12) `mod` 4096) with a by dm_lia.
    assert (get_arena a h = Ok (ar, h)) as Hga by (apply get_arena_ok; [done|by apply (ho_arena _ _ _ OK a)]).
    rewrite (bind_Ok _ _ h a h).
    2:{ rewrite bind_assert by (rewrite (proj2 (Z.eqb_neq a NULL)); mlia). rewrite (bind_Ok _ _ _ _ _ Hga), Hd.
        rewrite bind_assert by (rewrite pg_ofs_mod; unfold ARENA_SIZE; apply Z.eqb_eq; dm_lia). done. }
    rewrite (bind_Ok _ _ _ _ _ Hga), Hd. unfold kind_pages in Hr. by rewrite Hd in Hr.
  - intros b sz x Hin Hx. cbn. apply Hram.
    assert (in_use h b sz) as Hin' by (apply (ho_live _ _ _ OK); by apply lookup_delete_Some in Hin as [_ ?]).
    apply (ho_live _ _ _ OK') in Hin. destruct (in_use_page OK' _ _ Hin) as (a' & ar' & Ha' & _ & _ & _ & Hpg).
    apply (elsewhere h O L a ar b sz); try done. cbn in Ha'. apply lookup_delete_Some in Ha' as [? _]. congruence.
Qed.

(** The block goes back to the free list: the invariant holds without it. *)
Lemma heap_ok_push h O L a ar d b :
  heap_ok h O L → h.(arenas) !! a = Some ar → ar.(adesc) = Some d → owned h d b → b ∉ fl h d → page_of b = a →
  heap_ok (update a d (b :: fl h d) (page_cnt_in a (b :: fl h d)) h) O (delete b L) ∧
  page_cnt_in a (b :: fl h d) = ar.(free_cnt) + 1 ∧ 0 ≤ ar.(free_cnt) < bpa d.
Proof.
  intros OK Ha Hd How Hnot Hpg. pose proof (page_kind OK Ha Hd) as AO.
  pose proof (ho_cnt _ _ _ OK _ _ _ Ha Hd) as Hc. fold (page_cnt_in a (fl h d)) in Hc.
  assert (NoDup (b :: fl h d)) as Hnd by (apply NoDup_cons; split; [done|apply OK]).
  assert (∀ c, c ∈ b :: fl h d → owned h d c) as Hall.
  { intros c [-> |Hin]%elem_of_cons; [done|]. by apply (ho_free _ _ _ OK). }
  destruct (page_cnt_bound _ _ _ _ _ _ _ OK AO Hnd Hall) as [Hmax _].
  assert (page_cnt_in a (b :: fl h d) = ar.(free_cnt) + 1) as Hcnt.
  { rewrite page_cnt_cons, bool_decide_eq_true_2 by done. lia. }
  split_and!; [|done|rewrite Hc; unfold page_cnt_in; lia|lia].
  apply (heap_ok_update h O L _ a d ar.(free_cnt)); [done..| | |].
  - intros a' Hne. rewrite page_cnt_cons, bool_decide_eq_false_2 by congruence. lia.
  - intros c Hc'. rewrite elem_of_cons. split; [|by right]. intros [-> |]; done.
  - intros c sz. rewrite lookup_delete_Some, (ho_live _ _ _ OK), not_elem_of_cons.
    destruct (decide (page_of c = a)) as [E|E]; [|naive_solver congruence].
    rewrite (in_use_here AO O L c sz OK E). naive_solver.
Qed.

(** An arena whose blocks are all free is given up. *)
Lemma release_ok h O L a d :
  heap_ok h O L → arena_of h a d (bpa d) →
  ∃ h', (for_upto (bpa d) (λ i, b <- arena_to_block a i ;; list_remove_free d b) ;; free_pages a 1) h = Ok (tt, h') ∧
    heap_ok h' O L ∧ keeps L h h'.
Proof.
  intros OK AO. pose proof AO as [Hs Hd Hpl Ha]. pose proof (ho_cnt _ _ _ OK _ _ _ Ha eq_refl) as Hc.
  destruct (page_cnt_bound h O L a d _ (fl h d) OK AO) as [_ Hall]; [apply OK|apply OK|].
  specialize (Hall (eq_sym Hc)). rewrite (bind_Ok _ _ _ _ _ (remove_loop h a d _ AO Hall)).
  destruct (free_pages_ok h O L a _ OK Ha) as (p & Hr & Hl & Hby & Hram).
  assert (filter (λ b, b ∉ slots a d (bpa d)) (fl h d) = filter (λ b, page_of b ≠ a) (fl h d)) as ->.
  { apply list_filter_ext. intros c Hc'. rewrite elem_slots.
    destruct (ho_free _ _ _ OK d c Hc') as (a2 & ar2 & j & Ha2 & Hd2 & Hj & ->).
    rewrite slot_page by (done || by destruct (arena_page OK _ _ Ha2) as (_ & _ & _ & ? & _)).
    split; intros Hx; contradict Hx; [subst; by exists j|]. destruct Hx as (k & Hk & E).
    rewrite <- (slot_page a2 d j), E by (done || by destruct (arena_page OK _ _ Ha2) as (_ & _ & _ & ? & _)).
    apply slot_page; [done..|apply Hpl]. }
  set (l := filter _ _). pose proof (heap_ok_drop h O L a _ d l p OK Ha eq_refl Hall eq_refl Hl Hby) as OK'.
  eexists. split_and!; [|exact OK'|].
  - unfold free_pages, pages_op, rbind, bind in Hr |- *. cbn [kind_pages adesc] in Hr. cbn [with_free frames_of].
    destruct (pa_free a 1 (frames_of h)) as [[[] p']|]; [|done]. cbn in Hr |- *. injection Hr as ->. done.
  - intros c sz x Hc' Hx. cbn. apply Hram.
    pose proof (proj1 (ho_live _ _ _ OK c sz) Hc') as Hu. pose proof (proj1 (ho_live _ _ _ OK' c sz) Hc') as Hu'.
    apply (elsewhere h O L a _ c sz); try done. destruct (in_use_page OK' _ _ Hu') as (a' & ar' & Ha' & _ & _ & _ & Hpg).
    cbn in Ha'. apply lookup_delete_Some in Ha' as [? _]. congruence.
Qed.

Lemma free_small_ok h O L d b :
  heap_ok h O L → owned h d b → b ∉ fl h d →
  ∃ h', free b h = Ok (tt, h') ∧ heap_ok h' O (delete b L) ∧ keeps (delete b L) h h'.
Proof.
  intros OK How Hnot. assert (in_use h b (bs d)) as Huse by by apply in_use_small.
  pose proof How as (a & ar & i & Ha & Hd & Hi & Hb). pose proof (page_kind OK Ha Hd) as AO.
  pose proof AO as [Hs Hd7 (Hm & Hpl & He) Ha']. unfold PHYS_BASE, LOADER_PHYS_BASE in *.
  assert (page_of b = a) as Hpg by (subst b; by apply slot_page).
  pose proof (bs_bounds d Hd7). pose proof (slot_fits d i Hd7 Hi).
  assert (a + 12 ≤ b ∧ b + bs d ≤ a + 4096) as Hin by (subst b; unfold slot; lia).
  set (m := store (ram_of h) b (replicate (Z.to_nat (bs d)) 204)). set (h1 := with_frames (pa_set_ram m h.(frames_of)) h).
  assert (heap_ok h1 O L) as OK1.
  { apply heap_ok_frames; [done|apply pa_set, OK|]. rewrite pa_ram_set. apply bytes_only_fill; [apply OK|mlia]. }
  destruct (heap_ok_push h1 O L a ar d b) as (OK2 & Hcnt & Hfree); [done..|].
  set (h2 := update _ _ _ _ _) in *. set (cnt := ar.(free_cnt) + 1) in *.
  assert (keeps (delete b L) h h2) as Hk.
  { intros c sz x [Hne Hc]%lookup_delete_Some Hx. cbn. rewrite pa_ram_set. apply fill_outside.
    apply (ho_live _ _ _ OK) in Hc. destruct (in_use_apart OK _ _ _ _ Hc Huse); [congruence|lia..]. }
  unfold free. rewrite (proj2 (Z.eqb_neq b NULL)) by mlia.
  rewrite (bind_Ok _ _ h a h) by (subst b; by apply (block_to_arena_ok _ _ _ _ i AO Hi)).
  rewrite (bind_Ok _ _ _ _ _ (get_arena_ok h a ar Ha (proj1 (ho_arena _ _ _ OK _ _ Ha)))), Hd.
  rewrite (bind_Ok _ _ _ _ _ (get_desc_ok h d Hs Hd7)). cbn [desc_block_size blocks_per_arena].
  rewrite (bind_Ok _ _ h b h1).
  2:{ apply ram_op_ok, memset_ok; [|mlia..]. destruct (arena_page OK _ _ Ha) as (_ & _ & _ & _ & _ & _ & Hmap).
      rewrite Hd in Hmap. intros x Hx. apply Hmap. lia. }
  unfold list_push_front_free. rewrite (bind_Ok _ _ _ _ _ (set_free_ok h1 d _ Hs Hd7)).
  unfold bind at 1, set_arena. cbv beta iota. rewrite u32_small by mlia. fold cnt.
  replace (Heap _ _ _) with h2.
  2:{ unfold h2, update, with_free, with_arena. cbn. rewrite Hcnt. f_equal. by rewrite (proj1 (ho_arena _ _ _ OK _ _ Ha)). }
  destruct (Z.leb_spec (bpa d) cnt) as [Hfull|]; [|by exists h2].
  rewrite bind_assert by lia.
  destruct (release_ok h2 O (delete b L) a d) as (h3 & Hr & OK3 & Hk3); [done| |].
  { split; [apply OK2|done|done|]. cbn. rewrite Hcnt, lookup_insert_eq. do 2 f_equal. lia. }
  exists h3. split_and!; [done..|]. intros c sz x Hc Hx. by rewrite (Hk3 c sz x Hc Hx), (Hk c sz x Hc Hx).
Qed.

Lemma free_run h O L b sz :
  heap_ok h O L → L !! b = Some sz →
  ∃ h', free b h = Ok (tt, h') ∧ heap_ok h' O (delete b L) ∧ keeps (delete b L) h h'.
Proof.
  intros OK Hb. apply (ho_live _ _ _ OK) in Hb as [a ar Ha Hd ->|d How Hnot].
  - by eapply free_big_ok.
  - by eapply free_small_ok.
Qed.

(** A block in use is plain memory at an address that is not null. *)
Lemma live_memory h O L b sz :
  heap_ok h O L → L !! b = Some sz → b ≠ NULL ∧ 0 < sz < W32 ∧ mapped (ram_of h) b sz.
Proof.
  intros OK Hb. apply (ho_live _ _ _ OK) in Hb. destruct (in_use_page OK _ _ Hb) as (a & ar & Ha & Hin & Hend & Hsz & _).
  destruct (arena_page OK _ _ Ha) as (_ & _ & _ & _ & Hpl & He & Hmap). unfold PHYS_BASE, LOADER_PHYS_BASE in *.
  split_and!; [mlia..|]. intros x Hx. apply Hmap. lia.
Qed.

Lemma block_size_ok h O L b sz : heap_ok h O L → L !! b = Some sz → block_size b h = Ok (sz, h).
Proof.
  intros OK Hb. apply (ho_live _ _ _ OK) in Hb as [a ar Ha Hd ->|d (a & ar & i & Ha & Hd & Hi & ->) Hnot].
  - destruct (arena_page OK _ _ Ha) as (_ & _ & Hn & Hm & Hpl & He & _). rewrite Hd in *.
    unfold PHYS_BASE, LOADER_PHYS_BASE in *. unfold block_size, block_to_arena.
    rewrite pg_round_down_eq by mlia. replace (a + 12 - (a + 12) `mod` 4096) with a by dm_lia.
    pose proof (get_arena_ok h a ar Ha (proj1 (ho_arena _ _ _ OK _ _ Ha))) as Hga.
    rewrite (bind_Ok _ _ h a h).
    2:{ rewrite bind_assert by (rewrite (proj2 (Z.eqb_neq a NULL)); mlia). rewrite (bind_Ok _ _ _ _ _ Hga), Hd.
        rewrite bind_assert by (rewrite pg_ofs_mod; unfold ARENA_SIZE; apply Z.eqb_eq; dm_lia). done. }
    rewrite (bind_Ok _ _ _ _ _ Hga), Hd, pg_ofs_mod. unfold PGSIZE.
    replace ((a + 12) `mod` 4096) with 12 by dm_lia. by rewrite u32_small by mlia.
  - pose proof (page_kind OK Ha Hd) as AO. unfold block_size.
    rewrite (bind_Ok _ _ _ _ _ (block_to_arena_ok _ _ _ _ i AO Hi)).
    rewrite (bind_Ok _ _ _ _ _ (get_arena_ok h a ar Ha (proj1 (ho_arena _ _ _ OK _ _ Ha)))), Hd.
    by rewrite (bind_Ok _ _ _ _ _ (get_desc_ok h d (ao_sized _ _ _ _ AO) (ao_desc _ _ _ _ AO))).
Qed.

(** Writing bytes into the frames keeps the heap. *)
Lemma heap_ok_write h O L b v :
  heap_ok h O L → Forall is_u8 v →
  heap_ok (with_frames (pa_set_ram (store (ram_of h) b v) h.(frames_of)) h) O L.
Proof.
  intros OK Hv. apply heap_ok_frames; [done|apply pa_set, OK|]. rewrite pa_ram_set.
  intros x y. rewrite store_lookup. case_match; [|by apply (ho_bytes _ _ _ OK)].
  intros Hy. rewrite Forall_forall in Hv. apply Hv. apply list_elem_of_lookup. eauto.
Qed.

(** ** Correctness *)

(** Property C37.  [malloc] with a request of up to 2^32 - 12 bytes either answers a null
    pointer and keeps the heap, or answers a block of at least that many bytes.  The block
    is new, it overlaps no block in use, it wastes less than half of its bytes, a page or
    the smallest block, and no byte of memory changes.  The free lists and the counts of
    all arenas stay consistent ([heap_ok]), for any page allocator with the interface. *)
Theorem malloc_ok h O L size :
  heap_ok h O L → 0 ≤ size ≤ W32 - 12 →
  ∃ r h', malloc size h = Ok (r, h') ∧ ram_of h' = ram_of h ∧ granted O L size r h' ∧
    ∀ sz b s, r ≠ NULL → in_use h' r sz → L !! b = Some s → r + sz ≤ b ∨ b + s ≤ r.
Proof.
  intros OK Hs. destruct (malloc_run h O L size OK Hs) as (r & h' & Hr & Hram & Hg). exists r, h'. split_and!; [done..|].
  intros sz b s Hnn Hin Hb. destruct Hg as [[? _]|(sz' & _ & _ & _ & Hnone & OK')]; [done|].
  apply (in_use_apart OK'); [done| |congruence]. apply (ho_live _ _ _ OK'). rewrite lookup_insert_ne; [done|congruence].
Qed.

(** [free] of a block in use succeeds, whatever its kind: no assertion
    fails, the block is no longer in use, the heap stays consistent (an arena without
    blocks in use goes back to the page allocator), and the contents of every other block
    in use stay as they are. *)
Theorem free_ok h O L b sz :
  heap_ok h O L → L !! b = Some sz →
  ∃ h', free b h = Ok (tt, h') ∧ heap_ok h' O (delete b L) ∧ keeps (delete b L) h h'.
Proof. apply free_run. Qed.

(** [realloc] of a block in use to a size that is not zero either answers a
    null pointer, and then the old block is still in use with its contents, or moves the
    block: the new block has the new size at least, starts with the bytes of the old one,
    as many as both have, the old block is no longer in use, and all other blocks keep
    their contents. *)
Theorem realloc_ok h O L old osz new_size :
  heap_ok h O L → L !! old = Some osz → 0 < new_size ≤ W32 - 12 →
  ∃ r h', realloc old new_size h = Ok (r, h') ∧
    (r = NULL ∧ heap_ok h' O L ∧ ram_of h' = ram_of h ∨
     ∃ sz, r ≠ NULL ∧ new_size ≤ sz ∧ L !! r = None ∧ heap_ok h' O (<[r := sz]> (delete old L)) ∧
       (∀ i, 0 ≤ i < Z.min new_size osz → ram_of h' !! (r + i) = ram_of h !! (old + i)) ∧
       keeps (delete old L) h h').
Proof.
  intros OK Hold Hsz. unfold realloc. rewrite (proj2 (Z.eqb_neq new_size 0)) by lia.
  destruct (malloc_run h O L new_size OK) as (r & h1 & Hr & Hram & Hg); [lia|].
  rewrite (bind_Ok _ _ _ _ _ Hr). destruct (live_memory h O L old osz OK Hold) as (Hnn & Hosz & Hmap).
  rewrite (proj2 (Z.eqb_neq old NULL)) by done. cbn [negb andb].
  destruct Hg as [[-> OK1]|(sz & Hr0 & Hle & _ & Hnone & OK1)].
  { exists NULL, h1. split; [done|]. by left. }
  rewrite (proj2 (Z.eqb_neq r NULL)) by done. cbn [negb].
  assert (old ≠ r) as Hor by congruence.
  assert (<[r := sz]> L !! old = Some osz) as Hold1 by (rewrite lookup_insert_ne; congruence).
  assert (<[r := sz]> L !! r = Some sz) as Hr1 by by rewrite lookup_insert_eq.
  destruct (live_memory _ _ _ _ _ OK1 Hr1) as (_ & Hsz' & Hmap').
  set (n := Z.min new_size osz). set (m := moved (ram_of h1) r old n).
  assert (r + sz ≤ old ∨ old + osz ≤ r) as Hdis by (apply (in_use_apart OK1); [apply (ho_live _ _ _ OK1)..|]; done).
  assert (mapped (ram_of h1) old n) as Hmold by (rewrite Hram; intros x Hx; apply Hmap; lia).
  set (h2 := with_frames (pa_set_ram m h1.(frames_of)) h1).
  assert (heap_ok h2 O (<[r := sz]> L)) as OK2.
  { apply heap_ok_write; [done|]. apply block_u8; [done|apply OK1]. }
  assert (∀ x, ram_of h2 !! x = if (r <=? x) && (x <? r + n) then ram_of h !! (old + (x - r)) else ram_of h !! x) as Hm2.
  { intros x. cbn. rewrite pa_ram_set. unfold m. rewrite moved_lookup by (done || lia). by rewrite Hram. }
  destruct (free_run h2 O _ old osz OK2 Hold1) as (h3 & Hf & OK3 & Hk3).
  rewrite delete_insert_ne in OK3, Hk3 by done.
  exists r, h3. split.
  - erewrite bind_Ok; [reflexivity|]. rewrite (bind_Ok _ _ _ _ _ (block_size_ok _ _ _ _ _ OK1 Hold1)).
    replace (if new_size <? osz then new_size else osz) with n by (subst n; zcase; lia).
    rewrite (bind_Ok _ _ h1 r h2); [done|]. apply ram_op_ok, memcpy_ok; [lia|done| |apply OK1|done..|lia].
    intros x Hx. apply Hmap'. lia.
  - right. exists sz. split_and!; [done|lia|done..| |].
    + intros i Hi. rewrite (Hk3 r sz) by (rewrite ?lookup_insert_eq; done || lia). rewrite Hm2.
      destruct (Z.leb_spec r (r + i)), (Z.ltb_spec (r + i) (r + n)); try lia. cbn [andb]. f_equal. lia.
    + intros b s x [Hne Hb]%lookup_delete_Some Hx.
      assert (b ≠ r) as Hbr by congruence.
      rewrite (Hk3 b s); [|rewrite lookup_insert_ne, lookup_delete_ne by done; done|done]. rewrite Hm2.
      assert (r + sz ≤ b ∨ b + s ≤ r) as Hd2.
      { apply (in_use_apart OK1); [apply (ho_live _ _ _ OK1)..|done]; [done|by rewrite lookup_insert_ne]. }
      destruct (Z.leb_spec r x), (Z.ltb_spec x (r + n)); cbn [andb]; done || lia.
Qed.

(** [calloc (a, b)] refuses a request whose product, reduced to 32 bits, is
    below one of the factors.  Every other request is served as one of that many bytes:
    the block is new, large enough for the reduced product and zero-filled, and the
    contents of all other blocks stay.  The product of 65537 and 65537 passes the test
    although it does not fit in 32 bits, and is served with 131073 bytes. *)
Theorem calloc_ok h O L a b :
  heap_ok h O L → is_u32 a → is_u32 b → u32 (a * b) ≤ W32 - 12 →
  let size := u32 (a * b) in
  ∃ r h', calloc a b h = Ok (r, h') ∧ granted O L size r h' ∧
    (size < a ∨ size < b → r = NULL ∧ h' = h) ∧
    (r ≠ NULL → (∀ i, 0 ≤ i < size → ram_of h' !! (r + i) = Some 0) ∧ keeps L h h').
Proof.
  intros OK Ha Hb Hs size. unfold calloc. fold size. pose proof (u32_range (a * b)) as Hu. fold size in Hu.
  destruct ((size <? a) || (size <? b)) eqn:E.
  { exists NULL, h. split_and!; [done|by left|done|done]. }
  apply orb_false_iff in E as [E1%Z.ltb_ge E2%Z.ltb_ge].
  destruct (malloc_run h O L size OK) as (r & h1 & Hr & Hram & Hg); [mlia|]. rewrite (bind_Ok _ _ _ _ _ Hr).
  destruct (decide (r = NULL)) as [->|Hnn].
  { exists NULL, h1. split_and!; [done..|lia|done]. }
  rewrite (proj2 (Z.eqb_neq r NULL)) by done. cbn [negb].
  destruct Hg as [[? _]|(sz & _ & Hle & Hw & Hnone & OK1)]; [done|].
  destruct (live_memory _ _ _ r sz OK1) as (_ & Hsz & Hmap); [by rewrite lookup_insert_eq|].
  set (h2 := with_frames (pa_set_ram (store (ram_of h1) r (replicate (Z.to_nat size) 0)) h1.(frames_of)) h1).
  exists r, h2. split_and!.
  - erewrite bind_Ok; [reflexivity|]. rewrite (bind_Ok _ _ h1 r h2); [done|].
    apply ram_op_ok, memset_ok; [|mlia|mlia|done]. intros x Hx. apply Hmap. lia.
  - right. exists sz. split_and!; try done; [lia..|]. apply heap_ok_write; [done|]. apply Forall_replicate. mlia.
  - lia.
  - intros _. cbn. rewrite pa_ram_set. split.
    + intros i Hi. rewrite store_lookup, length_replicate.
      destruct (Z.leb_spec r (r + i)), (Z.ltb_spec (r + i) (r + Z.of_nat (Z.to_nat size))); try lia. cbn [andb].
      apply lookup_replicate_2. lia.
    + intros c s x Hc Hx. cbn. rewrite pa_ram_set, fill_outside, Hram; [done|].
      assert (r + sz ≤ c ∨ c + s ≤ r) as Hd; [|lia]. assert (c ≠ r) by congruence.
      apply (in_use_apart OK1); [apply (ho_live _ _ _ OK1)..|done]; [by rewrite lookup_insert_eq|by rewrite lookup_insert_ne].
Qed.

(** A request of more than 2^32 - 12 bytes wraps around when the header is
    added: whenever the page allocator has a page left, [malloc] answers a block of 4084
    bytes for a request of almost 4 GB. *)
Theorem malloc_wraps h O L size :
  heap_ok h O L → W32 - 12 < size < W32 →
  ∃ r h', malloc size h = Ok (r, h') ∧
    (r = NULL ∧ (∀ a p, pa_get 1 h.(frames_of) = Ok (a, p) → a = NULL) ∨
     r ≠ NULL ∧ in_use h' r 4084 ∧ heap_ok h' O (<[r := 4084]> L)).
Proof.
  intros OK Hs. unfold malloc. rewrite (proj2 (Z.eqb_neq size 0)) by mlia.
  unfold bind at 1, get. cbv beta iota. pose proof (find_desc_size h size (ho_descs _ _ _ OK) ltac:(mlia)) as Hfd.
  destruct (find_desc h.(descs) size 0) as [d|].
  { destruct Hfd as (Hd & ? & _). pose proof (bs_bounds d Hd). mlia. }
  unfold malloc_big. replace (DIV_ROUND_UP _ _) with 1.
  2:{ unfold DIV_ROUND_UP, ARENA_SIZE, PGSIZE, u32. dm_lia. }
  destruct (pa_get_ok _ _ 1 (ho_pages _ _ _ OK)) as (a & p & Hr & Hram & Hres); [done|].
  rewrite (bind_Ok _ _ _ _ _ (pages_op_ok _ _ _ _ Hr)).
  destruct Hres as [[-> Hl]|(Hnn & Hn0 & Hap & Hl)].
  { exists NULL. eexists. split; [done|]. left. split; [done|]. intros a' p' Hr'. congruence. }
  rewrite (proj2 (Z.eqb_neq _ _) Hnn). destruct (pa_block p _ a 1 Hl) as (_ & Hm & Hpl & He & _); [by rewrite lookup_insert_eq|].
  unfold PHYS_BASE, LOADER_PHYS_BASE in *. unfold bind, set_arena, ret, ARENA_SIZE. rewrite u32_small by mlia.
  destruct (heap_ok_big h O L a 1 p) as [OK' _]; [done..|].
  exists (a + 12). eexists. split; [done|]. right. split_and!; [mlia| |done].
  apply (ho_live _ _ _ OK'). by rewrite lookup_insert_eq.
Qed.

(** ** Start *)

Lemma malloc_init_run p : ∃ h, malloc_init (Heap [] ∅ p) = Ok (tt, h) ∧
  h = Heap ((λ d, Desc (bs d) (bpa d) []) <$> seq 0 7) ∅ p.
Proof. eexists. split; reflexivity. Qed.

(** The descriptors [malloc_init] makes describe a heap without blocks. *)
Lemma malloc_init_ok p O :
  pa_live p O → bytes_only (pa_ram p) →
  ∃ h, malloc_init (Heap [] ∅ p) = Ok (tt, h) ∧ heap_ok h O ∅ ∧ h.(frames_of) = p.
Proof.
  intros Hp Hb. destruct (malloc_init_run p) as (h & Hr & ->). eexists. split_and!; [done| |done].
  assert (arena_pages (Heap ((λ d, Desc (bs d) (bpa d) []) <$> seq 0 7) ∅ p) = ∅) as Ep by apply fmap_empty.
  assert (∀ d, fl (Heap ((λ d, Desc (bs d) (bpa d) []) <$> seq 0 7) ∅ p) d = []) as Efl.
  { intros d. unfold fl. cbn [descs]. rewrite list_lookup_fmap. by destruct (seq 0 7 !! d). }
  split; rewrite ?Ep; try done.
  - by rewrite (right_id_L ∅ (∪)).
  - apply map_disjoint_empty_r.
  - intros d b. rewrite Efl. by intros ?%elem_of_nil.
  - intros d. rewrite Efl. constructor.
  - intros b sz. rewrite lookup_empty. split; [done|].
    destruct 1 as [a ar Ha _ _|d (a & ar & i & Ha & _) _]; cbn in Ha; by rewrite lookup_empty in Ha.
Qed.
End malloc.

(** ** Witnesses: a heap over the two pools of [two_pools] *)

Definition demo_heap : heap (P := pages) :=
  Heap ((λ d, Desc (bs d) (bpa d) []) <$> seq 0 7) ∅ two_pools.

Lemma demo_heap_ok : heap_ok demo_heap ∅ ∅.
Proof.
  destruct (malloc_init_ok two_pools ∅) as (h & Hr & OK & _).
  - exists ∅. apply (allocator_proper _ (λ _, ∅)); [by intros [|]|apply two_pools_ok].
  - apply frames_bytes.
  - destruct (malloc_init_run two_pools) as (h' & Hr' & ->). unfold demo_heap. congruence.
Qed.

(** One block of 128 bytes. *)
Lemma demo_block : ∃ h sz, malloc 100 demo_heap = Ok (3222274060, h) ∧ heap_ok h ∅ {[3222274060 := sz]}.
Proof.
  destruct (malloc_run demo_heap ∅ ∅ 100 demo_heap_ok) as (r & h & Hr & _ & Hg); [mlia|].
  assert (match malloc 100 demo_heap with Ok (r, _) => Some r | _ => None end = Some 3222274060) as Hv by (vm_compute; reflexivity).
  rewrite Hr in Hv. injection Hv as ->. exists h. destruct Hg as [[Hn _]|(sz & _ & _ & _ & _ & OK)]; [discriminate Hn|].
  exists sz. split; [exact Hr|]. rewrite <- insert_empty. exact OK.
Qed.

Lemma malloc_ok_witness : ∃ r h', malloc 100 demo_heap = Ok (r, h') ∧ granted ∅ ∅ 100 r h'.
Proof.
  destruct (malloc_ok demo_heap ∅ ∅ 100 demo_heap_ok) as (r & h' & Hr & _ & Hg & _).
  - split; discriminate.
  - exists r, h'. split; [exact Hr|exact Hg].
Defined.

Lemma free_ok_witness : ∃ h h', free 3222274060 h = Ok (tt, h') ∧ heap_ok (P := pages) h' ∅ ∅.
Proof.
  destruct demo_block as (h & sz & _ & OK).
  destruct (free_ok h ∅ _ 3222274060 sz OK) as (h' & Hr & OK' & _); [apply lookup_singleton_eq|].
  exists h, h'. split; [exact Hr|]. rewrite delete_singleton_eq in OK'. exact OK'.
Defined.

Lemma realloc_ok_witness :
  ∃ h r h', realloc 3222274060 200 h = Ok (r, h') ∧ ∃ sz, heap_ok (P := pages) h ∅ {[3222274060 := sz]}.
Proof.
  destruct demo_block as (h & sz & _ & OK).
  destruct (realloc_ok h ∅ _ 3222274060 sz 200 OK) as (r & h' & Hr & _);
    [apply lookup_singleton_eq|split; [reflexivity|discriminate]|].
  exists h, r, h'. split; [exact Hr|]. exists sz. exact OK.
Defined.

Lemma calloc_ok_witness : ∃ r h', calloc 65537 65537 demo_heap = Ok (r, h') ∧ granted ∅ ∅ 131073 r h'.
Proof.
  destruct (calloc_ok demo_heap ∅ ∅ 65537 65537 demo_heap_ok) as (r & h' & Hr & Hg & _).
  - split; [discriminate|reflexivity].
  - split; [discriminate|reflexivity].
  - vm_compute. discriminate.
  - exists r, h'. split; [exact Hr|exact Hg].
Defined.

Lemma malloc_wraps_witness : ∃ r h', malloc 4294967290 demo_heap = Ok (r, h').
Proof.
  destruct (malloc_wraps demo_heap ∅ ∅ 4294967290 demo_heap_ok) as (r & h' & Hr & _).
  - split; reflexivity.
  - exists r, h'. exact Hr.
Defined.
