(* ===== verification/Filesys.v ===== *)
(** * The file system

    filesys/inode.c, file.c, free-map.c, directory.c and filesys.c over a disk that is a
    list of 512-byte sectors.  Open inodes, files and directories are objects in a heap,
    named by their addresses, so that two openers of one file share its inode.  The block
    allocator is seen through its answers: each allocation gives a fresh address, or fails
    if the next element of [answers] says so.  Reads deliver their bytes as a list and
    writes get theirs as one. *)

From S2P Require Import Prelude Vaddr Bytes Bitmap.
Local Open Scope c_scope.

Definition DISK_SECTOR_SIZE : Z := 512.
Definition INODE_MAGIC : Z := 1229868868.
Definition FREE_MAP_SECTOR : Z := 0.
Definition ROOT_DIR_SECTOR : Z := 1.
Definition NAME_MAX : Z := 14.

(** ** State *)

Record inode_disk := InodeDisk { start : Z; length_ : Z; imagic : Z }.

Record inode := Inode {
  sector : Z;
  open_cnt : Z;
  removed : bool;
  deny_write_cnt : Z;
  idata : inode_disk;
}.

Record file := File { finode : Z; fpos : Z; deny_write : bool }.
Record dir := Dir { dinode : Z; dpos : Z }.

Record fs := Fs {
  disk : list (list Z);
  free_map : bitmap;
  free_map_file : Z;
  open_inodes : list Z;
  inodes : gmap Z inode;
  files : gmap Z file;
  dirs : gmap Z dir;
  next : Z;
  answers : list bool;
}.

Definition upd_disk f σ := Fs (f σ.(disk)) σ.(free_map) σ.(free_map_file) σ.(open_inodes) σ.(inodes) σ.(files)
  σ.(dirs) σ.(next) σ.(answers).
Definition upd_map f σ := Fs σ.(disk) (f σ.(free_map)) σ.(free_map_file) σ.(open_inodes) σ.(inodes) σ.(files)
  σ.(dirs) σ.(next) σ.(answers).
Definition upd_map_file f σ := Fs σ.(disk) σ.(free_map) (f σ.(free_map_file)) σ.(open_inodes) σ.(inodes) σ.(files)
  σ.(dirs) σ.(next) σ.(answers).
Definition upd_open f σ := Fs σ.(disk) σ.(free_map) σ.(free_map_file) (f σ.(open_inodes)) σ.(inodes) σ.(files)
  σ.(dirs) σ.(next) σ.(answers).
Definition upd_inodes f σ := Fs σ.(disk) σ.(free_map) σ.(free_map_file) σ.(open_inodes) (f σ.(inodes)) σ.(files)
  σ.(dirs) σ.(next) σ.(answers).
Definition upd_files f σ := Fs σ.(disk) σ.(free_map) σ.(free_map_file) σ.(open_inodes) σ.(inodes) (f σ.(files))
  σ.(dirs) σ.(next) σ.(answers).
Definition upd_dirs f σ := Fs σ.(disk) σ.(free_map) σ.(free_map_file) σ.(open_inodes) σ.(inodes) σ.(files)
  (f σ.(dirs)) σ.(next) σ.(answers).
Definition upd_heap n l σ := Fs σ.(disk) σ.(free_map) σ.(free_map_file) σ.(open_inodes) σ.(inodes) σ.(files)
  σ.(dirs) n l.

Definition modify (f : fs → fs) : M fs unit := λ σ, Ok (tt, f σ).

(** [malloc] and [calloc]: a fresh address or a null pointer. *)
Definition alloc : M fs Z := λ σ,
  match σ.(answers) with
  | false :: l => Ok (NULL, upd_heap σ.(next) l σ)
  | true :: l => Ok (σ.(next), upd_heap (σ.(next) + 1) l σ)
  | [] => Ok (σ.(next), upd_heap (σ.(next) + 1) [] σ)
  end.

Definition inode_at (i : Z) : M fs inode := λ σ,
  match σ.(inodes) !! i with Some x => Ok (x, σ) | None => Err Fault end.
Definition file_at (f : Z) : M fs file := λ σ,
  match σ.(files) !! f with Some x => Ok (x, σ) | None => Err Fault end.
Definition dir_at (d : Z) : M fs dir := λ σ,
  match σ.(dirs) !! d with Some x => Ok (x, σ) | None => Err Fault end.

Definition set_inode (i : Z) (x : inode) : M fs unit := modify (upd_inodes <[i := x]>).
Definition set_file (f : Z) (x : file) : M fs unit := modify (upd_files <[f := x]>).
Definition set_dir (d : Z) (x : dir) : M fs unit := modify (upd_dirs <[d := x]>).

Definition on_free_map {A} (c : M bitmap A) : M fs A := λ σ,
  let* r := c σ.(free_map) in
  Ok (r.1, upd_map (λ _, r.2) σ).

(** ** The disk, as [disk_read] and [disk_write] present it *)

Definition disk_size : M fs Z := λ σ, Ok (zlen σ.(disk), σ).

Definition disk_read (sec_no : Z) : M fs (list Z) :=
  σ <- get ;;
  assert ((sec_no <? zlen σ.(disk)) && (sec_no <? 268435456)) ;;
  match σ.(disk) !! Z.to_nat sec_no with Some b => ret b | None => fail Fault end.

Definition disk_write (sec_no : Z) (buffer : list Z) : M fs unit :=
  σ <- get ;;
  assert ((sec_no <? zlen σ.(disk)) && (sec_no <? 268435456)) ;;
  modify (upd_disk <[Z.to_nat sec_no := buffer]>).

(** ** inode.c: contents *)

Definition bytes_to_sectors (size : Z) : Z := u32 (Z.quot (s32 (size + (DISK_SECTOR_SIZE - 1))) DISK_SECTOR_SIZE).

Definition byte_to_sector (ino : inode) (pos : Z) : Z :=
  if pos <? ino.(idata).(length_) then u32 (ino.(idata).(start) + Z.quot pos DISK_SECTOR_SIZE) else u32 (-1).

Definition inode_length (i : Z) : M fs Z := x <- inode_at i ;; ret x.(idata).(length_).

(** The bytes of the sector, the place in it and the number of bytes of the next round. *)
Definition chunk (ino : inode) (size offset : Z) : Z * Z * Z :=
  let sector_idx := byte_to_sector ino offset in
  let sector_ofs := Z.rem offset DISK_SECTOR_SIZE in
  let inode_left := s32 (ino.(idata).(length_) - offset) in
  let sector_left := DISK_SECTOR_SIZE - sector_ofs in
  let min_left := if inode_left <? sector_left then inode_left else sector_left in
  let chunk_size := if size <? min_left then size else min_left in
  (sector_idx, sector_ofs, chunk_size).

(** The bounce buffer: allocated on first use. *)
Definition get_bounce (bounce : bool) : M fs bool :=
  if bounce then ret true else p <- alloc ;; ret (negb (p =? NULL)).

Definition read_round (i : Z) : Z * Z * list Z * bool → M fs (Z * Z * list Z * bool + list Z) :=
  λ '(size, offset, buffer, bounce),
    if 0 <? size then
      ino <- inode_at i ;;
      let '(sector_idx, sector_ofs, chunk_size) := chunk ino size offset in
      if chunk_size <=? 0 then ret (inr buffer) else
      if (sector_ofs =? 0) && (chunk_size =? DISK_SECTOR_SIZE) then
        b <- disk_read sector_idx ;;
        ret (inl (size - chunk_size, s32 (offset + chunk_size), buffer ++ b, bounce))
      else
        ok <- get_bounce bounce ;;
        if negb ok then ret (inr buffer) else
        b <- disk_read sector_idx ;;
        ret (inl (size - chunk_size, s32 (offset + chunk_size),
                  buffer ++ take (Z.to_nat chunk_size) (drop (Z.to_nat sector_ofs) b), true))
    else ret (inr buffer).

Definition inode_read_at (i size offset : Z) : M fs (list Z) :=
  iter (S (Z.to_nat size)) (read_round i) (size, offset, [], false).

(** [n] bytes of the caller's buffer. *)
Definition from_buffer (buffer : list Z) (ofs n : Z) : M fs (list Z) :=
  if ofs + n <=? zlen buffer then ret (take (Z.to_nat n) (drop (Z.to_nat ofs) buffer)) else fail Fault.

Definition write_round (i : Z) (buffer : list Z) : Z * Z * Z * bool → M fs (Z * Z * Z * bool + Z) :=
  λ '(size, offset, bytes_written, bounce),
    if 0 <? size then
      ino <- inode_at i ;;
      let '(sector_idx, sector_ofs, chunk_size) := chunk ino size offset in
      if chunk_size <=? 0 then ret (inr bytes_written) else
      if (sector_ofs =? 0) && (chunk_size =? DISK_SECTOR_SIZE) then
        b <- from_buffer buffer bytes_written chunk_size ;;
        disk_write sector_idx b ;;
        ret (inl (size - chunk_size, s32 (offset + chunk_size), bytes_written + chunk_size, bounce))
      else
        ok <- get_bounce bounce ;;
        if negb ok then ret (inr bytes_written) else
        old <- (if (0 <? sector_ofs) || (chunk_size <? DISK_SECTOR_SIZE - sector_ofs)
                then disk_read sector_idx else ret (replicate 512 0)) ;;
        b <- from_buffer buffer bytes_written chunk_size ;;
        disk_write sector_idx (splice old (Z.to_nat sector_ofs) b) ;;
        ret (inl (size - chunk_size, s32 (offset + chunk_size), bytes_written + chunk_size, true))
    else ret (inr bytes_written).

Definition inode_write_at (i : Z) (buffer : list Z) (size offset : Z) : M fs Z :=
  x <- inode_at i ;;
  if negb (x.(deny_write_cnt) =? 0) then ret 0 else
  iter (S (Z.to_nat size)) (write_round i buffer) (size, offset, 0, false).

(** ** file.c: reading and writing *)

Definition file_read_at (f size file_ofs : Z) : M fs (list Z) :=
  x <- file_at f ;; inode_read_at x.(finode) size file_ofs.

Definition file_write_at (f : Z) (buffer : list Z) (size file_ofs : Z) : M fs Z :=
  x <- file_at f ;; inode_write_at x.(finode) buffer size file_ofs.

Definition file_read (f size : Z) : M fs (list Z) :=
  x <- file_at f ;;
  b <- inode_read_at x.(finode) size x.(fpos) ;;
  set_file f (File x.(finode) (s32 (x.(fpos) + zlen b)) x.(deny_write)) ;;
  ret b.

Definition file_write (f : Z) (buffer : list Z) (size : Z) : M fs Z :=
  x <- file_at f ;;
  n <- inode_write_at x.(finode) buffer size x.(fpos) ;;
  set_file f (File x.(finode) (s32 (x.(fpos) + n)) x.(deny_write)) ;;
  ret n.

(** ** free-map.c: allocation *)

(** [bitmap_write (free_map, free_map_file)]. *)
Definition write_free_map : M fs bool := λ σ,
  bitmap_write (λ data, file_write_at σ.(free_map_file) data (zlen data) 0) σ.(free_map) σ.

Definition free_map_allocate (cnt : Z) : M fs (option Z) :=
  sector <- on_free_map (bitmap_scan_and_flip 0 cnt false) ;;
  σ <- get ;;
  sector <- (if negb (sector =? BITMAP_ERROR) && negb (σ.(free_map_file) =? NULL) then
               ok <- write_free_map ;;
               if ok then ret sector
               else on_free_map (bitmap_set_multiple sector cnt false) ;; ret BITMAP_ERROR
             else ret sector) ;;
  ret (if sector =? BITMAP_ERROR then None else Some sector).

Definition free_map_release (sector cnt : Z) : M fs unit :=
  all <- on_free_map (bitmap_all sector cnt) ;;
  assert all ;;
  on_free_map (bitmap_set_multiple sector cnt false) ;;
  write_free_map ;;
  ret tt.

(** ** inode.c: creating, opening, closing *)

Definition inode_init : M fs unit := modify (upd_open (λ _, [])).

(** The sector an on-disk inode fills: [unused] is zero. *)
Definition encode_inode (d : inode_disk) : list Z :=
  le32 d.(start) ++ le32 (u32 d.(length_)) ++ le32 d.(imagic) ++ replicate 500 0.

Definition decode_inode (b : list Z) : inode_disk :=
  match bytes_words b with
  | s :: l :: m :: _ => InodeDisk s (s32 l) m
  | _ => InodeDisk 0 0 0
  end.

Definition inode_create (sector length : Z) : M fs bool :=
  assert (0 <=? length) ;;
  p <- alloc ;;
  if p =? NULL then ret false else
  let sectors := bytes_to_sectors length in
  r <- free_map_allocate sectors ;;
  match r with
  | Some start =>
      disk_write sector (encode_inode (InodeDisk start length INODE_MAGIC)) ;;
      (if 0 <? sectors then for_upto sectors (λ i, disk_write (u32 (start + i)) (replicate 512 0)) else ret tt) ;;
      ret true
  | None => ret false
  end.

Definition inode_reopen (i : Z) : M fs Z :=
  if i =? NULL then ret i else
  x <- inode_at i ;;
  set_inode i (Inode x.(sector) (s32 (x.(open_cnt) + 1)) x.(removed) x.(deny_write_cnt) x.(idata)) ;;
  ret i.

(** The open inode with the given sector, in the order of the list. *)
Fixpoint find_open (l : list Z) (sec : Z) : M fs (option Z) :=
  match l with
  | [] => ret None
  | i :: l => x <- inode_at i ;; if x.(sector) =? sec then ret (Some i) else find_open l sec
  end.

Definition inode_open (sec : Z) : M fs Z :=
  σ <- get ;;
  r <- find_open σ.(open_inodes) sec ;;
  match r with
  | Some i => inode_reopen i
  | None =>
      i <- alloc ;;
      if i =? NULL then ret NULL else
      modify (upd_open (cons i)) ;;
      b <- disk_read sec ;;
      set_inode i (Inode sec 1 false 0 (decode_inode b)) ;;
      ret i
  end.

Definition inode_get_inumber (i : Z) : M fs Z := x <- inode_at i ;; ret x.(sector).

Definition inode_close (i : Z) : M fs unit :=
  if i =? NULL then ret tt else
  x <- inode_at i ;;
  let cnt := s32 (x.(open_cnt) - 1) in
  set_inode i (Inode x.(sector) cnt x.(removed) x.(deny_write_cnt) x.(idata)) ;;
  if cnt =? 0 then
    modify (upd_open (filter (λ j, j ≠ i))) ;;
    (if x.(removed) then
       free_map_release x.(sector) 1 ;;
       free_map_release x.(idata).(start) (bytes_to_sectors x.(idata).(length_))
     else ret tt) ;;
    modify (upd_inodes (delete i))
  else ret tt.

Definition inode_remove (i : Z) : M fs unit :=
  x <- inode_at i ;;
  set_inode i (Inode x.(sector) x.(open_cnt) true x.(deny_write_cnt) x.(idata)).

Definition inode_deny_write (i : Z) : M fs unit :=
  x <- inode_at i ;;
  let n := s32 (x.(deny_write_cnt) + 1) in
  set_inode i (Inode x.(sector) x.(open_cnt) x.(removed) n x.(idata)) ;;
  assert (n <=? x.(open_cnt)).

Definition inode_allow_write (i : Z) : M fs unit :=
  x <- inode_at i ;;
  assert (0 <? x.(deny_write_cnt)) ;;
  assert (x.(deny_write_cnt) <=? x.(open_cnt)) ;;
  set_inode i (Inode x.(sector) x.(open_cnt) x.(removed) (x.(deny_write_cnt) - 1) x.(idata)).

(** ** file.c: open files *)

Definition file_open (i : Z) : M fs Z :=
  f <- alloc ;;
  if negb (i =? NULL) && negb (f =? NULL) then
    set_file f (File i 0 false) ;;
    ret f
  else
    inode_close i ;;
    ret NULL.

Definition file_reopen (f : Z) : M fs Z :=
  x <- file_at f ;;
  i <- inode_reopen x.(finode) ;;
  file_open i.

Definition file_get_inode (f : Z) : M fs Z := x <- file_at f ;; ret x.(finode).

Definition file_deny_write (f : Z) : M fs unit :=
  assert (negb (f =? NULL)) ;;
  x <- file_at f ;;
  if negb x.(deny_write) then
    set_file f (File x.(finode) x.(fpos) true) ;;
    inode_deny_write x.(finode)
  else ret tt.

Definition file_allow_write (f : Z) : M fs unit :=
  assert (negb (f =? NULL)) ;;
  x <- file_at f ;;
  if x.(deny_write) then
    set_file f (File x.(finode) x.(fpos) false) ;;
    inode_allow_write x.(finode)
  else ret tt.

Definition file_close (f : Z) : M fs unit :=
  if f =? NULL then ret tt else
  file_allow_write f ;;
  x <- file_at f ;;
  inode_close x.(finode) ;;
  modify (upd_files (delete f)).

Definition file_length (f : Z) : M fs Z :=
  assert (negb (f =? NULL)) ;;
  x <- file_at f ;;
  inode_length x.(finode).

Definition file_seek (f new_pos : Z) : M fs unit :=
  assert (negb (f =? NULL)) ;;
  assert (0 <=? new_pos) ;;
  x <- file_at f ;;
  set_file f (File x.(finode) new_pos x.(deny_write)).

Definition file_tell (f : Z) : M fs Z :=
  assert (negb (f =? NULL)) ;;
  x <- file_at f ;;
  ret x.(fpos).

(** ** free-map.c: the map and its file *)

(** [block] and [store] are what [bitmap_create] gets from the block allocator. *)
Definition free_map_init (block : bool) (store : option (list Z)) : M fs unit :=
  n <- disk_size ;;
  match bitmap_create block store n with
  | Ok (Some b) =>
      modify (upd_map (λ _, b)) ;;
      on_free_map (bitmap_mark FREE_MAP_SECTOR) ;;
      on_free_map (bitmap_mark ROOT_DIR_SECTOR)
  | Ok None => fail Panic
  | Err e => fail e
  end.

Definition open_free_map_file : M fs unit :=
  i <- inode_open FREE_MAP_SECTOR ;;
  f <- file_open i ;;
  modify (upd_map_file (λ _, f)) ;;
  if f =? NULL then fail Panic else ret tt.

Definition free_map_open : M fs unit :=
  open_free_map_file ;;
  σ <- get ;;
  r <- bitmap_read (λ size, file_read_at σ.(free_map_file) size 0) σ.(free_map) ;;
  modify (upd_map (λ _, r.2)) ;;
  if negb r.1 then fail Panic else ret tt.

Definition free_map_close : M fs unit := σ <- get ;; file_close σ.(free_map_file).

Definition free_map_create : M fs unit :=
  size <- on_free_map bitmap_file_size ;;
  ok <- inode_create FREE_MAP_SECTOR size ;;
  if negb ok then fail Panic else
  open_free_map_file ;;
  ok <- write_free_map ;;
  if negb ok then fail Panic else ret tt.

(** ** directory.c

    A directory entry is 20 bytes: the sector, 15 bytes of name, and [in_use].  A name is
    the list of its bytes without the terminator. *)

Definition ENTRY_SIZE : Z := 20.

Definition e_sector (e : list Z) : Z :=
  match bytes_words (take 4 e) with w :: _ => w | [] => 0 end.
Definition e_name (e : list Z) : list Z := take 15 (drop 4 e).
Definition e_in_use (e : list Z) : bool := negb (default 0 (e !! 19%nat) =? 0).

(** [strcmp] on two byte arrays. *)
Fixpoint strcmp_bytes (a b : list Z) : res Z :=
  match a, b with
  | x :: a', y :: b' =>
      if negb (x =? 0) && (x =? y) then strcmp_bytes a' b'
      else Ok (if x <? y then -1 else if y <? x then 1 else 0)
  | _, _ => Err Fault
  end.

(** The string in a byte array. *)
Fixpoint c_string (a : list Z) : res (list Z) :=
  match a with
  | [] => Err Fault
  | x :: a' => if x =? 0 then Ok [] else let* s := c_string a' in Ok (x :: s)
  end.

(** [strlcpy (dst, src, size)] on the array [dst]. *)
Definition strlcpy_bytes (dst src : list Z) (size : Z) : list Z :=
  let n := Z.to_nat (if zlen src <? size - 1 then zlen src else size - 1) in
  splice dst 0 (take n src ++ [0]).

Definition lift {A} (r : res A) : M fs A := λ σ, let* a := r in Ok (a, σ).

Definition dir_create (sector entry_cnt : Z) : M fs bool := inode_create sector (s32 (u32 (entry_cnt * ENTRY_SIZE))).

Definition dir_open (i : Z) : M fs Z :=
  d <- alloc ;;
  if negb (i =? NULL) && negb (d =? NULL) then
    set_dir d (Dir i 0) ;;
    ret d
  else
    inode_close i ;;
    ret NULL.

Definition dir_open_root : M fs Z := i <- inode_open ROOT_DIR_SECTOR ;; dir_open i.

Definition dir_reopen (d : Z) : M fs Z :=
  x <- dir_at d ;;
  i <- inode_reopen x.(dinode) ;;
  dir_open i.

Definition dir_close (d : Z) : M fs unit :=
  if d =? NULL then ret tt else
  x <- dir_at d ;;
  inode_close x.(dinode) ;;
  modify (upd_dirs (delete d)).

Definition dir_get_inode (d : Z) : M fs Z := x <- dir_at d ;; ret x.(dinode).

(** One round per entry of the directory: its length bounds them. *)
Definition entry_fuel (i : Z) : M fs nat := x <- inode_at i ;; ret (S (S (Z.to_nat x.(idata).(length_)))).

Definition lookup (d : Z) (name : list Z) : M fs (option (list Z * Z)) :=
  assert (negb (d =? NULL)) ;;
  x <- dir_at d ;;
  fuel <- entry_fuel x.(dinode) ;;
  iter fuel (λ ofs,
    e <- inode_read_at x.(dinode) ENTRY_SIZE (s32 ofs) ;;
    if zlen e =? ENTRY_SIZE then
      c <- (if e_in_use e then lift (strcmp_bytes (name ++ [0]) (e_name e)) else ret 1) ;;
      if e_in_use e && (c =? 0) then ret (inr (Some (e, ofs))) else ret (inl (u32 (ofs + ENTRY_SIZE)))
    else ret (inr None)) 0.

(** The inode for [name], a null pointer if there is none. *)
Definition dir_lookup (d : Z) (name : list Z) : M fs Z :=
  assert (negb (d =? NULL)) ;;
  r <- lookup d name ;;
  match r with Some (e, _) => inode_open (e_sector e) | None => ret NULL end.

(** The first free slot from [ofs] on, and what is in the variable [e] by then. *)
Definition free_slot (i : Z) (junk : list Z) : M fs (Z * list Z) :=
  fuel <- entry_fuel i ;;
  iter fuel (λ '(ofs, e),
    b <- inode_read_at i ENTRY_SIZE ofs ;;
    let e := splice e 0 b in
    if zlen b =? ENTRY_SIZE then
      if e_in_use e then ret (inl (s32 (ofs + ENTRY_SIZE), e)) else ret (inr (ofs, e))
    else ret (inr (ofs, e))) (0, junk).

(** [junk] is what the local variable [e] holds when the call starts. *)
Definition dir_add (junk : list Z) (d : Z) (name : list Z) (inode_sector : Z) : M fs bool :=
  assert (negb (d =? NULL)) ;;
  if (zlen name =? 0) || (NAME_MAX <? zlen name) then ret false else
  r <- lookup d name ;;
  if bool_decide (is_Some r) then ret false else
  x <- dir_at d ;;
  s <- free_slot x.(dinode) junk ;;
  let '(ofs, e) := s in
  let e := le32 inode_sector ++ strlcpy_bytes (e_name e) name 15 ++ [1] in
  n <- inode_write_at x.(dinode) e ENTRY_SIZE ofs ;;
  ret (n =? ENTRY_SIZE).

Definition dir_remove (d : Z) (name : list Z) : M fs bool :=
  assert (negb (d =? NULL)) ;;
  r <- lookup d name ;;
  match r with
  | None => inode_close NULL ;; ret false
  | Some (e, ofs) =>
      i <- inode_open (e_sector e) ;;
      success <- (if i =? NULL then ret false else
                  x <- dir_at d ;;
                  n <- inode_write_at x.(dinode) (take 19 e ++ [0]) ENTRY_SIZE (s32 ofs) ;;
                  if negb (n =? ENTRY_SIZE) then ret false else
                  inode_remove i ;;
                  ret true) ;;
      inode_close i ;;
      ret success
  end.

(** The name of the next entry in use, nothing at the end. *)
Definition dir_readdir (d : Z) : M fs (option (list Z)) :=
  x <- dir_at d ;;
  fuel <- entry_fuel x.(dinode) ;;
  iter fuel (λ _,
    x <- dir_at d ;;
    e <- inode_read_at x.(dinode) ENTRY_SIZE x.(dpos) ;;
    if zlen e =? ENTRY_SIZE then
      set_dir d (Dir x.(dinode) (s32 (x.(dpos) + ENTRY_SIZE))) ;;
      if e_in_use e then
        s <- lift (c_string (e_name e)) ;;
        ret (inr (Some (take 14 s)))
      else ret (inl tt)
    else ret (inr None)) tt.

(** ** filesys.c *)

Definition do_format : M fs unit :=
  free_map_create ;;
  ok <- dir_create ROOT_DIR_SECTOR 16 ;;
  if negb ok then fail Panic else
  free_map_close.

(** The file system disk is present: [disk_get (0, 1)] found it. *)
Definition filesys_init (block : bool) (store : option (list Z)) (format : bool) : M fs unit :=
  inode_init ;;
  free_map_init block store ;;
  (if format then do_format else ret tt) ;;
  free_map_open.

Definition filesys_done : M fs unit := free_map_close.

Definition filesys_create (junk : list Z) (name : list Z) (initial_size : Z) : M fs bool :=
  d <- dir_open_root ;;
  r <- (if d =? NULL then ret (false, 0) else
        s <- free_map_allocate 1 ;;
        match s with
        | None => ret (false, 0)
        | Some inode_sector =>
            ok <- inode_create inode_sector initial_size ;;
            if ok then ok <- dir_add junk d name inode_sector ;; ret (ok, inode_sector)
            else ret (false, inode_sector)
        end) ;;
  let '(success, inode_sector) := r in
  (if negb success && negb (inode_sector =? 0) then free_map_release inode_sector 1 else ret tt) ;;
  dir_close d ;;
  ret success.

Definition filesys_open (name : list Z) : M fs Z :=
  d <- dir_open_root ;;
  i <- (if d =? NULL then ret NULL else dir_lookup d name) ;;
  dir_close d ;;
  file_open i.

Definition filesys_remove (name : list Z) : M fs bool :=
  d <- dir_open_root ;;
  success <- (if d =? NULL then ret false else dir_remove d name) ;;
  dir_close d ;;
  ret success.
