(* ===== verification/FsInode.v ===== *)
(** * Contents of inodes

    Reading and writing the bytes of an inode: [inode_read_at] delivers and
    [inode_write_at] replaces exactly the requested bytes of the file, sector by sector,
    as far as the file has them, and a failing allocation of the bounce buffer only cuts
    the transfer short. *)

From S2P Require Import Prelude Vaddr Bytes Bitmap Filesys.
Local Open Scope c_scope.

(** ** Bytes on the disk *)

(** Byte [p] of the file whose first data sector is [s]. *)
Definition byte (d : list (list Z)) (s p : Z) : option Z :=
  d !! Z.to_nat (s + p `div` 512) ≫= λ b, b !! Z.to_nat (p `mod` 512).

Definition data_sectors (len : Z) : Z := (len + 511) `div` 512.

(** The data sectors of the inode lie on the disk. *)
Record extent (d : list (list Z)) (x : inode_disk) : Prop := {
  ex_start : 0 ≤ x.(start);
  ex_len : 0 ≤ x.(length_) < 2147483648;
  ex_end : x.(start) + data_sectors x.(length_) ≤ zlen d;
  ex_disk : zlen d ≤ 268435456;
  ex_sectors : Forall (λ b, length b = 512%nat) d;
}.

(** ** What a call may change besides: the heap of the block allocator *)

Definition plenty (σ : fs) : Prop := false ∉ σ.(answers).

Definition heap_only (σ σ' : fs) : Prop :=
  ∃ n l, σ' = upd_heap n l σ ∧ σ.(next) ≤ n ∧ (plenty σ → plenty σ').

Lemma heap_only_refl σ : heap_only σ σ.
Proof. exists σ.(next), σ.(answers). split_and!; [by destruct σ|done|done]. Qed.

Lemma heap_only_trans σ1 σ2 σ3 : heap_only σ1 σ2 → heap_only σ2 σ3 → heap_only σ1 σ3.
Proof.
  intros (n & l & -> & Hn & Hp) (n' & l' & -> & Hn' & Hp'). exists n', l'. cbn in *.
  split_and!; [done|lia|auto].
Qed.

Lemma heap_only_disk σ σ' : heap_only σ σ' → σ'.(disk) = σ.(disk) ∧ σ'.(inodes) = σ.(inodes).
Proof. by intros (n & l & -> & _). Qed.

Lemma alloc_run σ :
  ∃ p σ', alloc σ = Ok (p, σ') ∧ heap_only σ σ' ∧ (p = NULL ∨ p = σ.(next) ∧ σ'.(next) = σ.(next) + 1) ∧
    (plenty σ → p = σ.(next) ∧ σ'.(next) = σ.(next) + 1).
Proof.
  unfold alloc, heap_only, plenty. destruct (σ.(answers)) as [|[|] l] eqn:E; eexists _, _; (split; [done|]).
  - split_and!; [|by right|done]. eexists _, _. split_and!; [done|lia|cbn; set_solver].
  - split_and!; [|by right|done]. eexists _, _. split_and!; [done|lia|cbn; set_solver].
  - split_and!; [|by left|set_solver]. eexists _, _. split_and!; [done|lia|cbn; set_solver].
Qed.

Lemma get_bounce_run σ bounce :
  0 < σ.(next) →
  ∃ ok σ', get_bounce bounce σ = Ok (ok, σ') ∧ heap_only σ σ' ∧ (plenty σ → ok = true).
Proof.
  intros Hn. destruct bounce; cbn.
  { exists true, σ. split_and!; [done|apply heap_only_refl|done]. }
  destruct (alloc_run σ) as (p & σ' & Hr & Hh & _ & Hp). rewrite (bind_Ok _ _ _ _ _ Hr).
  eexists _, σ'. split_and!; [done|done|]. intros [-> _]%Hp. apply negb_true_iff, Z.eqb_neq. mlia.
Qed.

(** ** The next round *)

Lemma chunk_run d (ino : inode) size offset :
  extent d ino.(idata) → 0 < size → 0 ≤ offset < ino.(idata).(length_) →
  ∃ n, chunk ino size offset = (ino.(idata).(start) + offset `div` 512, offset `mod` 512, n) ∧
    0 < n ≤ size ∧ n ≤ 512 - offset `mod` 512 ∧ offset + n ≤ ino.(idata).(length_) ∧
    (n = size ∨ n = ino.(idata).(length_) - offset ∨ n = 512 - offset `mod` 512) ∧
    0 ≤ ino.(idata).(start) + offset `div` 512 < zlen d.
Proof.
  intros [Hs Hl He Hd _] Hsize Ho. unfold chunk, byte_to_sector, DISK_SECTOR_SIZE, data_sectors in *.
  rewrite (proj2 (Z.ltb_lt _ _)) by lia. rewrite Z.quot_div_nonneg, Z.rem_mod_nonneg by lia.
  rewrite u32_small by dm_lia. rewrite s32_small by mlia.
  eexists. split; [reflexivity|].
  destruct (Z.ltb_spec (ino.(idata).(length_) - offset) (512 - offset `mod` 512)); zcase; dm_lia.
Qed.

Lemma chunk_end d (ino : inode) size offset :
  extent d ino.(idata) → 0 < size → ino.(idata).(length_) ≤ offset < 2147483648 →
  ∃ i o n, chunk ino size offset = (i, o, n) ∧ n ≤ 0.
Proof.
  intros [Hs Hl He Hd _] Hsize Ho. unfold chunk, DISK_SECTOR_SIZE.
  rewrite (s32_small (_ - _)) by mlia. rewrite Z.rem_mod_nonneg by lia.
  eexists _, _, _. split; [reflexivity|].
  destruct (Z.ltb_spec (ino.(idata).(length_) - offset) (512 - offset `mod` 512)); zcase; dm_lia.
Qed.

Lemma disk_read_run σ s b :
  0 ≤ s < zlen σ.(disk) → zlen σ.(disk) ≤ 268435456 → σ.(disk) !! Z.to_nat s = Some b → disk_read s σ = Ok (b, σ).
Proof.
  intros Hs Hd Hb. unfold disk_read, bind at 1, get. rewrite bind_assert by lia. by rewrite Hb.
Qed.

Lemma disk_write_run σ s b :
  0 ≤ s < zlen σ.(disk) → zlen σ.(disk) ≤ 268435456 →
  disk_write s b σ = Ok (tt, upd_disk <[Z.to_nat s := b]> σ).
Proof. intros Hs Hd. unfold disk_write, bind at 1, get. by rewrite bind_assert by lia. Qed.

Lemma sector_at (d : list (list Z)) s : Forall (λ b, length b = 512%nat) d → 0 ≤ s < zlen d →
  ∃ b, d !! Z.to_nat s = Some b ∧ length b = 512%nat.
Proof.
  intros Hd Hs. destruct (lookup_lt_is_Some_2 d (Z.to_nat s)) as [b Hb]; [lia|]. exists b. split; [done|].
  rewrite Forall_forall in Hd. apply Hd. apply list_elem_of_lookup. eauto.
Qed.

(** Bytes [ofs] to [ofs] + [n] of a sector. *)
Lemma byte_in_sector d s p b o :
  d !! Z.to_nat (s + o `div` 512) = Some b → o `mod` 512 ≤ o `mod` 512 + p < 512 →
  byte d s (o + p) = b !! Z.to_nat (o `mod` 512 + p).
Proof.
  intros Hb Hp. unfold byte. replace ((o + p) `div` 512) with (o `div` 512) by dm_lia.
  rewrite Hb. cbn. f_equal. dm_lia.
Qed.

(** ** Reading *)

(** Bytes [ofs] and on of the file are [bs]. *)
Definition reads (d : list (list Z)) (s ofs : Z) (bs : list Z) : Prop :=
  ∀ p, (p < length bs)%nat → bs !! p = byte d s (ofs + Z.of_nat p).

Lemma reads_app d s ofs bs cs : reads d s ofs bs → reads d s (ofs + zlen bs) cs → reads d s ofs (bs ++ cs).
Proof.
  intros Hb Hc p Hp. rewrite length_app in Hp. destruct (decide (p < length bs)%nat).
  - rewrite lookup_app_l by done. by apply Hb.
  - rewrite lookup_app_r, Hc by lia. f_equal. lia.
Qed.

Lemma reads_sector d s o n b :
  d !! Z.to_nat (s + o `div` 512) = Some b → length b = 512%nat → 0 ≤ n ≤ 512 - o `mod` 512 →
  let c := take (Z.to_nat n) (drop (Z.to_nat (o `mod` 512)) b) in zlen c = n ∧ reads d s o c.
Proof.
  intros Hb Hl Hn c. assert (0 ≤ o `mod` 512 < 512) by dm_lia.
  assert (zlen c = n) as Hc by (subst c; rewrite length_take, length_drop; lia). split; [done|]. intros p Hp.
  rewrite (byte_in_sector d s _ b) by (done || lia). subst c. rewrite lookup_take_lt, lookup_drop by lia. f_equal. lia.
Qed.

Section read.
Context {σ0 : fs} {i : Z} {ino : inode}.
Context (Hi : σ0.(inodes) !! i = Some ino) (Hex : extent σ0.(disk) ino.(idata)) (Hnext : 0 < σ0.(next)).
Notation len := ino.(idata).(length_).
Notation st := ino.(idata).(start).

Lemma inode_at_heap σ : heap_only σ0 σ → inode_at i σ = Ok (ino, σ).
Proof. intros [_ E]%heap_only_disk. unfold inode_at. by rewrite E, Hi. Qed.

Lemma read_round_more σ size offset acc bounce :
  heap_only σ0 σ → 0 < size → 0 ≤ offset < len →
  ∃ n σ', heap_only σ0 σ' ∧ 0 < n ≤ Z.min size (len - offset) ∧
    (read_round i (size, offset, acc, bounce) σ = Ok (inr acc, σ') ∧ ¬ plenty σ0 ∨
     ∃ b bounce', zlen b = n ∧ reads σ0.(disk) st offset b ∧
       read_round i (size, offset, acc, bounce) σ = Ok (inl (size - n, offset + n, acc ++ b, bounce'), σ')).
Proof.
  intros Hh Hs Ho. pose proof (heap_only_disk _ _ Hh) as [Ed _].
  destruct (chunk_run _ _ size offset Hex Hs Ho) as (n & Hc & Hn & Hn2 & Hn3 & _ & Hsec).
  destruct (sector_at _ _ (ex_sectors _ _ Hex) Hsec) as (b & Hb & Hlb).
  destruct (reads_sector _ _ offset n b Hb Hlb) as [Hlen Hrd]; [lia|].
  pose proof (ex_len _ _ Hex). pose proof (ex_disk _ _ Hex). exists n.
  unfold read_round. rewrite (proj2 (Z.ltb_lt 0 size)) by done.
  rewrite (bind_Ok _ _ _ _ _ (inode_at_heap σ Hh)), Hc. destruct (Z.leb_spec n 0); [lia|].
  rewrite s32_small by mlia.
  assert (∀ σ', heap_only σ0 σ' → disk_read (st + offset `div` 512) σ' = Ok (b, σ')) as Hdr.
  { intros σ' [E' _]%heap_only_disk. apply disk_read_run; by rewrite E'. }
  destruct ((offset `mod` 512 =? 0) && (n =? DISK_SECTOR_SIZE)) eqn:E.
  - apply andb_true_iff in E as [E1%Z.eqb_eq E2%Z.eqb_eq]. unfold DISK_SECTOR_SIZE in E2.
    exists σ. split_and!; [done|lia|lia|]. right. exists b, bounce.
    rewrite (bind_Ok _ _ _ _ _ (Hdr σ Hh)). rewrite E1, E2, drop_0, take_ge in Hrd by lia. split_and!; [lia|done|done].
  - destruct (get_bounce_run σ bounce) as (ok & σ1 & Hr & Hh1 & Hok).
    { destruct Hh as (n' & l & -> & ? & _). cbn. lia. }
    pose proof (heap_only_trans _ _ _ Hh Hh1) as Hh2. exists σ1. split_and!; [done|lia|lia|].
    rewrite (bind_Ok _ _ _ _ _ Hr). destruct ok; cbn [negb].
    + right. eexists _, true. rewrite (bind_Ok _ _ _ _ _ (Hdr σ1 Hh2)). split_and!; [exact Hlen|exact Hrd|done].
    + left. split; [done|]. intros Hp. destruct Hh as (n' & l & -> & _ & Hpl). by discriminate (Hok (Hpl Hp)).
Qed.

Lemma read_loop ofs : ∀ fuel σ size acc bounce,
  heap_only σ0 σ → 0 ≤ ofs → ofs + zlen acc < 2147483648 → (Z.to_nat size < fuel)%nat → reads σ0.(disk) st ofs acc →
  let want := zlen acc + Z.max 0 (Z.min size (len - (ofs + zlen acc))) in
  ∃ bs σ', iter fuel (read_round i) (size, ofs + zlen acc, acc, bounce) σ = Ok (bs, σ') ∧
    heap_only σ0 σ' ∧ reads σ0.(disk) st ofs bs ∧ zlen bs ≤ want ∧ (plenty σ0 → zlen bs = want).
Proof.
  induction fuel as [|fuel IH]; intros σ size acc bounce Hh Ho0 Ho Hf Hrd want; [lia|].
  pose proof (ex_len _ _ Hex).
  destruct (decide (0 < size)) as [Hs|Hs].
  2:{ rewrite (iter_break _ _ _ acc _ σ) by (unfold read_round; by rewrite (proj2 (Z.ltb_ge 0 size)) by lia).
      exists acc, σ. subst want. split_and!; [done..|lia|lia]. }
  destruct (decide (ofs + zlen acc < len)) as [Hlt|Hge].
  - destruct (read_round_more σ size (ofs + zlen acc) acc bounce Hh Hs) as (n & σ1 & Hh1 & Hn & Hres); [lia|].
    destruct Hres as [[Hr Hp]|(b & bounce' & Hb & Hrb & Hr)].
    + rewrite (iter_break _ _ _ _ _ _ Hr). exists acc, σ1. subst want. split_and!; [done..|lia|done].
    + rewrite (iter_continue _ _ _ _ _ _ Hr). replace (ofs + zlen acc + n) with (ofs + zlen (acc ++ b)).
      2:{ rewrite length_app. lia. }
      destruct (IH σ1 (size - n) (acc ++ b) bounce' Hh1) as (bs & σ2 & Hr2 & Hh2 & Hrd2 & Hle & Heq);
        [done|rewrite length_app; lia|lia|by apply reads_app|].
      exists bs, σ2. subst want. rewrite length_app in *. split_and!; [done..|lia|]. intros Hp. rewrite Heq by done. lia.
  - destruct (chunk_end _ _ size (ofs + zlen acc) Hex Hs) as (i' & o & n & Hc & Hn); [lia|].
    rewrite (iter_break _ _ _ acc _ σ).
    2:{ unfold read_round. rewrite (proj2 (Z.ltb_lt 0 size)) by done.
        rewrite (bind_Ok _ _ _ _ _ (inode_at_heap σ Hh)), Hc. by rewrite (proj2 (Z.leb_le n 0)). }
    exists acc, σ. subst want. split_and!; [done..|lia|lia].
Qed.

(** [inode_read_at] delivers the bytes of the file from [offset] on: as many as asked
    for and present, or fewer if the bounce buffer could not be allocated. *)
Lemma inode_read_at_run size offset :
  0 ≤ offset < 2147483648 →
  let want := Z.max 0 (Z.min size (len - offset)) in
  ∃ bs σ', inode_read_at i size offset σ0 = Ok (bs, σ') ∧ heap_only σ0 σ' ∧
    reads σ0.(disk) st offset bs ∧ zlen bs ≤ want ∧ (plenty σ0 → zlen bs = want).
Proof.
  intros Ho want. destruct (read_loop offset (S (Z.to_nat size)) σ0 size [] false (heap_only_refl σ0)) as (bs & σ' & Hr & H);
    [lia|cbn; lia|lia|by intros p Hp; cbn in Hp; lia|].
  exists bs, σ'. cbn [length Z.of_nat] in *. rewrite Z.add_0_r in *. split; [exact Hr|exact H].
Qed.
End read.

(** ** Writing *)

(** [d'] is [d] with the bytes [bs] at [ofs] of the file with data sectors [s] to [s + n]. *)
Record wrote (d d' : list (list Z)) (s n ofs : Z) (bs : list Z) : Prop := {
  wr_bytes : ∀ p, 0 ≤ p → byte d' s p =
    if (ofs <=? p) && (p <? ofs + zlen bs) then bs !! Z.to_nat (p - ofs) else byte d s p;
  wr_length : length d' = length d;
  wr_sectors : Forall (λ b, length b = 512%nat) d';
  wr_others : ∀ j, ¬ (s ≤ Z.of_nat j < s + n) → d' !! j = d !! j;
}.

Lemma wrote_nothing d s n ofs : Forall (λ b, length b = 512%nat) d → wrote d d s n ofs [].
Proof.
  intros Hd. split; try done. intros p Hp. destruct (Z.leb_spec ofs p), (Z.ltb_spec p (ofs + zlen (@nil Z))); done || (cbn in *; lia).
Qed.

Lemma wrote_sector d s n o b c :
  0 ≤ s → 0 ≤ o → Forall (λ b, length b = 512%nat) d → d !! Z.to_nat (s + o `div` 512) = Some b →
  o `mod` 512 + zlen c ≤ 512 → o `div` 512 < n →
  wrote d (<[Z.to_nat (s + o `div` 512) := splice b (Z.to_nat (o `mod` 512)) c]> d) s n o c.
Proof.
  intros Hs Ho Hd Hb Hc Hn. pose proof (lookup_lt_Some _ _ _ Hb) as Hlt.
  assert (length b = 512%nat) as Hlb.
  { rewrite Forall_forall in Hd. apply Hd. apply list_elem_of_lookup. eauto. }
  assert (0 ≤ o `mod` 512 < 512) by dm_lia. assert (0 ≤ o `div` 512) by dm_lia.
  split.
  - intros p Hp. unfold byte. assert (0 ≤ p `div` 512) by dm_lia. assert (0 ≤ p `mod` 512 < 512) by dm_lia.
    destruct (decide (p `div` 512 = o `div` 512)) as [E|E].
    + assert (p `mod` 512 - o `mod` 512 = p - o) by dm_lia.
      rewrite E, list_lookup_insert_eq, Hb by done. cbn.
      destruct (Z.leb_spec o p), (Z.ltb_spec p (o + zlen c)); cbn [andb]; try (apply splice_lookup_out; lia).
      rewrite splice_lookup_in by lia. f_equal. lia.
    + rewrite list_lookup_insert_ne by lia.
      destruct (Z.leb_spec o p), (Z.ltb_spec p (o + zlen c)); cbn [andb]; try done. exfalso. dm_lia.
  - apply length_insert.
  - apply Forall_insert; [done|]. rewrite splice_length; lia.
  - intros j Hj. apply list_lookup_insert_ne. lia.
Qed.

Lemma wrote_trans d1 d2 d3 s n ofs bs cs :
  wrote d1 d2 s n ofs bs → wrote d2 d3 s n (ofs + zlen bs) cs → wrote d1 d3 s n ofs (bs ++ cs).
Proof.
  intros [Hb Hl Hs Ho] [Hb' Hl' Hs' Ho']. split; [|congruence|done|].
  - intros p Hp. rewrite Hb', Hb, length_app by done.
    destruct (Z.leb_spec ofs p), (Z.leb_spec (ofs + zlen bs) p), (Z.ltb_spec p (ofs + zlen bs + zlen cs)),
      (Z.ltb_spec p (ofs + Z.of_nat (length bs + length cs))), (Z.ltb_spec p (ofs + zlen bs)); cbn [andb]; try lia; try done.
    + rewrite lookup_app_r by lia. f_equal. lia.
    + by rewrite lookup_app_l by lia.
  - intros j Hj. rewrite Ho', Ho by done. done.
Qed.

(** The state after writing: the disk is [d], the heap may have moved. *)
Definition disk_only (σ0 : fs) (d : list (list Z)) (σ : fs) : Prop :=
  ∃ σh, heap_only σ0 σh ∧ σ = upd_disk (λ _, d) σh.

Lemma disk_only_refl σ : disk_only σ σ.(disk) σ.
Proof. exists σ. split; [apply heap_only_refl|by destruct σ]. Qed.

Section write.
Context {σ0 : fs} {i : Z} {ino : inode} (buffer : list Z).
Context (Hi : σ0.(inodes) !! i = Some ino) (Hex : extent σ0.(disk) ino.(idata)) (Hnext : 0 < σ0.(next)).
Notation len := ino.(idata).(length_).
Notation st := ino.(idata).(start).
Notation upto n := (take (Z.to_nat n) buffer).

Lemma write_round_more d σ size offset w bounce :
  disk_only σ0 d σ → extent d ino.(idata) → 0 < size → 0 ≤ offset < len → 0 ≤ w → w + size ≤ zlen buffer →
  ∃ n d' σ', disk_only σ0 d' σ' ∧ 0 < n ≤ Z.min size (len - offset) ∧
    (write_round i buffer (size, offset, w, bounce) σ = Ok (inr w, σ') ∧ d' = d ∧ ¬ plenty σ0 ∨
     ∃ bounce', wrote d d' st (data_sectors len) offset (take (Z.to_nat n) (drop (Z.to_nat w) buffer)) ∧
       write_round i buffer (size, offset, w, bounce) σ = Ok (inl (size - n, offset + n, w + n, bounce'), σ')).
Proof.
  intros (σh & Hh & ->) Hexd Hs Ho Hw Hbuf.
  destruct (chunk_run _ _ size offset Hexd Hs Ho) as (n & Hc & Hn & Hn2 & Hn3 & _ & Hsec).
  destruct (sector_at _ _ (ex_sectors _ _ Hexd) Hsec) as (b & Hb & Hlb).
  set (c := take (Z.to_nat n) (drop (Z.to_nat w) buffer)).
  assert (zlen c = n) as Hlc by (subst c; rewrite length_take, length_drop; lia).
  pose proof (ex_len _ _ Hexd). pose proof (ex_disk _ _ Hexd). pose proof (ex_start _ _ Hexd).
  assert (wrote d (<[Z.to_nat (st + offset `div` 512) := splice b (Z.to_nat (offset `mod` 512)) c]> d) st
    (data_sectors len) offset c) as Hwr.
  { apply wrote_sector; [done|lia|apply Hexd|done|lia|unfold data_sectors; dm_lia]. }
  set (d' := <[Z.to_nat _ := _]> d) in *.
  assert (∀ σ, from_buffer buffer w n σ = Ok (c, σ)) as Hfb.
  { intros σ. unfold from_buffer. by rewrite (proj2 (Z.leb_le _ _)) by lia. }
  exists n. unfold write_round. rewrite (proj2 (Z.ltb_lt 0 size)) by done.
  assert (∀ σ', heap_only σ0 σ' → inode_at i (upd_disk (λ _, d) σ') = Ok (ino, upd_disk (λ _, d) σ')) as Hia.
  { intros σ' [_ E]%heap_only_disk. unfold inode_at. cbn. by rewrite E, Hi. }
  rewrite (bind_Ok _ _ _ _ _ (Hia σh Hh)), Hc. destruct (Z.leb_spec n 0); [lia|]. rewrite s32_small by mlia.
  destruct ((offset `mod` 512 =? 0) && (n =? DISK_SECTOR_SIZE)) eqn:E.
  - apply andb_true_iff in E as [E1%Z.eqb_eq E2%Z.eqb_eq]. unfold DISK_SECTOR_SIZE in E2.
    exists d', (upd_disk (λ _, d') σh). split_and!; [by exists σh|lia|lia|]. right. exists bounce. split; [done|].
    rewrite (bind_Ok _ _ _ _ _ (Hfb _)), (bind_Ok _ _ _ _ _ (disk_write_run (upd_disk (λ _, d) σh) _ _ Hsec ltac:(cbn; lia))).
    unfold d'. rewrite E1, splice_all by lia. done.
  - destruct (get_bounce_run (upd_disk (λ _, d) σh) bounce) as (ok & σ1 & Hr & (n1 & l1 & -> & Hn1 & Hp1) & Hok).
    { destruct Hh as (n' & l & -> & ? & _). cbn. lia. }
    set (σ1 := upd_heap n1 l1 σh).
    assert (heap_only σ0 σ1) as Hh1.
    { eapply heap_only_trans; [exact Hh|]. exists n1, l1. split_and!; [done..|]. intros Hpl. by apply Hp1. }
    rewrite (bind_Ok _ _ _ _ _ Hr). destruct ok; cbn [negb].
    + exists d', (upd_disk (λ _, d') σ1). split_and!; [by exists σ1|lia|lia|]. right. exists true. split; [done|].
      rewrite (bind_Ok _ _ _ b (upd_disk (λ _, d) σ1)).
      2:{ rewrite orb_true_intro; [by apply disk_read_run|]. unfold DISK_SECTOR_SIZE in *.
          destruct (decide (0 < offset `mod` 512)); [left; by apply Z.ltb_lt|right; apply Z.ltb_lt].
          apply andb_false_iff in E as [E%Z.eqb_neq|E%Z.eqb_neq]; dm_lia. }
      rewrite (bind_Ok _ _ _ _ _ (Hfb _)), (bind_Ok _ _ _ _ _ (disk_write_run (upd_disk (λ _, d) σ1) _ _ Hsec ltac:(cbn; lia))).
      done.
    + exists d, (upd_disk (λ _, d) σ1). split_and!; [by exists σ1|lia|lia|]. left. split_and!; [done..|].
      intros Hp. destruct Hh as (n' & l & -> & _ & Hpl). discriminate Hok. exact (Hpl Hp).
Qed.
Lemma extent_wrote d d' s n ofs bs x : extent d x → wrote d d' s n ofs bs → extent d' x.
Proof. intros [] []. split; try done; rewrite wr_length0; done. Qed.

Lemma take_more (w n : Z) :
  0 ≤ w → 0 ≤ n → w + n ≤ zlen buffer → upto (w + n) = upto w ++ take (Z.to_nat n) (drop (Z.to_nat w) buffer).
Proof. intros. rewrite Z2Nat.inj_add by done. by rewrite <- take_take_drop. Qed.

Lemma write_loop ofs : ∀ fuel d σ size w bounce,
  disk_only σ0 d σ → wrote σ0.(disk) d st (data_sectors len) ofs (upto w) →
  0 ≤ ofs → 0 ≤ w → ofs + w < 2147483648 → w + Z.max 0 size ≤ zlen buffer → (Z.to_nat size < fuel)%nat →
  let want := w + Z.max 0 (Z.min size (len - (ofs + w))) in
  ∃ m d' σ', iter fuel (write_round i buffer) (size, ofs + w, w, bounce) σ = Ok (m, σ') ∧
    disk_only σ0 d' σ' ∧ wrote σ0.(disk) d' st (data_sectors len) ofs (upto m) ∧
    w ≤ m ≤ want ∧ (plenty σ0 → m = want).
Proof.
  induction fuel as [|fuel IH]; intros d σ size w bounce Hd Hwr Ho0 Hw Ho Hbuf Hf want; [lia|].
  pose proof (ex_len _ _ Hex). pose proof (extent_wrote _ _ _ _ _ _ _ Hex Hwr) as Hexd.
  destruct (decide (0 < size)) as [Hs|Hs].
  2:{ rewrite (iter_break _ _ _ w _ σ) by (unfold write_round; by rewrite (proj2 (Z.ltb_ge 0 size)) by lia).
      exists w, d, σ. subst want. split_and!; [done..|lia|lia|lia]. }
  destruct (decide (ofs + w < len)) as [Hlt|Hge].
  - destruct (write_round_more d σ size (ofs + w) w bounce Hd Hexd Hs) as (n & d' & σ1 & Hd1 & Hn & Hres); [lia..|].
    destruct Hres as [(Hr & -> & Hp)|(bounce' & Hw' & Hr)].
    + rewrite (iter_break _ _ _ _ _ _ Hr). exists w, d, σ1. subst want. split_and!; [done..|lia|lia|done].
    + rewrite (iter_continue _ _ _ _ _ _ Hr). rewrite <- Z.add_assoc.
      destruct (IH d' σ1 (size - n) (w + n) bounce' Hd1) as (m & d2 & σ2 & Hr2 & Hd2 & Hwr2 & Hle & Heq); [|lia..|].
      { rewrite take_more by lia. eapply wrote_trans; [done|]. rewrite length_take.
        by replace (ofs + Z.of_nat (Z.to_nat w `min` length buffer)) with (ofs + w) by lia. }
      exists m, d2, σ2. subst want. split_and!; [done..|lia|lia|]. intros Hp. rewrite Heq by done. lia.
  - destruct (chunk_end _ _ size (ofs + w) Hexd Hs) as (i' & o & n & Hc & Hn); [lia|].
    rewrite (iter_break _ _ _ w _ σ).
    2:{ unfold write_round. rewrite (proj2 (Z.ltb_lt 0 size)) by done. destruct Hd as (σh & [_ E]%heap_only_disk & ->).
        rewrite (bind_Ok _ _ _ ino (upd_disk (λ _, d) σh)) by (unfold inode_at; cbn; by rewrite E, Hi).
        rewrite Hc. by rewrite (proj2 (Z.leb_le n 0)). }
    exists w, d, σ. subst want. split_and!; [done..|lia|lia|lia].
Qed.

(** [inode_write_at] replaces the bytes of the file from [offset] on: as many as given and
    as the file has, fewer only if the bounce buffer could not be allocated.  Nothing is
    written while writes are denied. *)
Lemma inode_write_at_run size offset :
  0 ≤ offset < 2147483648 → size ≤ zlen buffer →
  let want := if ino.(deny_write_cnt) =? 0 then Z.max 0 (Z.min size (len - offset)) else 0 in
  ∃ m d σ', inode_write_at i buffer size offset σ0 = Ok (m, σ') ∧ disk_only σ0 d σ' ∧
    wrote σ0.(disk) d st (data_sectors len) offset (upto m) ∧ 0 ≤ m ≤ want ∧ (plenty σ0 → m = want).
Proof.
  intros Ho Hs want. unfold inode_write_at. rewrite (bind_Ok _ _ _ ino σ0) by (unfold inode_at; by rewrite Hi).
  subst want. destruct (Z.eqb_spec ino.(deny_write_cnt) 0); cbn [negb].
  - destruct (write_loop offset (S (Z.to_nat size)) σ0.(disk) σ0 size 0 false) as (m & d & σ' & Hr & H).
    + apply disk_only_refl.
    + apply wrote_nothing, Hex.
    + lia.
    + lia.
    + lia.
    + lia.
    + lia.
    + exists m, d, σ'. rewrite Z.add_0_r in *. split; [exact Hr|exact H].
  - exists 0, σ0.(disk), σ0. split_and!; [done|apply disk_only_refl|apply wrote_nothing, Hex|done..].
Qed.
End write.

(** ** Contents *)

(** The bytes of the file. *)
Definition content (d : list (list Z)) (x : inode_disk) : list Z :=
  (λ p, default 0 (byte d x.(start) p)) <$> seqZ 0 x.(length_).

Lemma content_length d x : 0 ≤ x.(length_) → zlen (content d x) = x.(length_).
Proof. intros. unfold content. rewrite length_fmap, length_seqZ. lia. Qed.

Lemma byte_some d x p : extent d x → 0 ≤ p < x.(length_) → is_Some (byte d x.(start) p).
Proof.
  intros [Hs Hl He Hd H512] Hp. unfold byte, data_sectors in *.
  destruct (sector_at d (x.(start) + p `div` 512)) as (b & -> & Hb); [done|dm_lia|]. cbn.
  apply lookup_lt_is_Some_2. dm_lia.
Qed.

Lemma content_lookup d x p : extent d x → 0 ≤ p < x.(length_) → content d x !! Z.to_nat p = byte d x.(start) p.
Proof.
  intros Hx Hp. unfold content. rewrite list_lookup_fmap, lookup_seqZ_lt by lia. cbn.
  destruct (byte_some d x p Hx Hp) as [b Hb]. replace (0 + Z.of_nat (Z.to_nat p)) with p by lia. by rewrite Hb.
Qed.

Lemma content_eq d x c :
  extent d x → zlen c = x.(length_) →
  (∀ p, 0 ≤ p < x.(length_) → byte d x.(start) p = c !! Z.to_nat p) → content d x = c.
Proof.
  intros Hx Hc Hb. pose proof (ex_len _ _ Hx). apply list_eq_same_length with (length c); [done| |].
  { pose proof (content_length d x). lia. }
  intros k a b Hk Ha Hb'. pose proof (content_lookup d x (Z.of_nat k) Hx ltac:(lia)) as Hl.
  rewrite Nat2Z.id, Hb, Nat2Z.id in Hl by lia. congruence.
Qed.

Lemma reads_content d x ofs bs :
  extent d x → 0 ≤ ofs → ofs + zlen bs ≤ x.(length_) ∨ bs = [] → reads d x.(start) ofs bs →
  bs = take (length bs) (drop (Z.to_nat ofs) (content d x)).
Proof.
  intros Hx Ho Hl Hr. destruct Hl as [Hl| ->]; [|done]. pose proof (content_length d x (proj1 (ex_len _ _ Hx))).
  apply list_eq. intros k. destruct (decide (k < length bs)%nat).
  - rewrite Hr, lookup_take_lt, lookup_drop by done. rewrite <- content_lookup by (done || lia). f_equal. lia.
  - rewrite !lookup_ge_None_2; [done|rewrite length_take; lia|lia].
Qed.

(** Reading gives a prefix of what is asked for, all of it if memory suffices. *)
Lemma inode_read_content σ i ino size ofs :
  σ.(inodes) !! i = Some ino → extent σ.(disk) ino.(idata) → 0 < σ.(next) → 0 ≤ ofs < 2147483648 → 0 ≤ size →
  let want := take (Z.to_nat size) (drop (Z.to_nat ofs) (content σ.(disk) ino.(idata))) in
  ∃ bs σ', inode_read_at i size ofs σ = Ok (bs, σ') ∧ heap_only σ σ' ∧ bs `prefix_of` want ∧ (plenty σ → bs = want).
Proof.
  intros Hi Hx Hn Ho Hs want. destruct (inode_read_at_run Hi Hx Hn size ofs Ho) as (bs & σ' & Hr & Hh & Hrd & Hle & Heq).
  pose proof (content_length σ.(disk) ino.(idata) (proj1 (ex_len _ _ Hx))) as Hc.
  assert (bs = take (length bs) (drop (Z.to_nat ofs) (content σ.(disk) ino.(idata)))) as Hbs.
  { apply reads_content; [done|lia| |done]. destruct bs; [by right|left]. cbn [length] in *. lia. }
  exists bs, σ'. split_and!; [done..| |].
  - exists (drop (length bs) want). subst want. rewrite Hbs at 1.
    rewrite <- (take_drop (length bs) (take (Z.to_nat size) _)) at 1. f_equal. rewrite take_take. f_equal. lia.
  - intros Hp. subst want. rewrite Hbs. specialize (Heq Hp).
    destruct (decide (Z.to_nat size ≤ length (drop (Z.to_nat ofs) (content σ.(disk) ino.(idata))))%nat) as [E|E]; rewrite length_drop in E.
    + f_equal. lia.
    + rewrite !take_ge; [done|rewrite length_drop; lia|rewrite length_drop; lia].
Qed.

(** Two inodes share no data sector. *)
Definition far (x y : inode_disk) : Prop :=
  ∀ j, x.(start) ≤ j < x.(start) + data_sectors x.(length_) → y.(start) ≤ j < y.(start) + data_sectors y.(length_) → False.

Lemma content_other d d' x y ofs bs :
  extent d x → extent d y → far x y → wrote d d' x.(start) (data_sectors x.(length_)) ofs bs →
  content d' y = content d y.
Proof.
  intros Hx Hy Hfar Hw. unfold content. apply list_fmap_ext. intros k p [-> Hp]%lookup_seqZ. f_equal. unfold byte.
  pose proof (ex_start _ _ Hy). assert (0 ≤ (0 + Z.of_nat k) `div` 512) by dm_lia.
  rewrite (wr_others _ _ _ _ _ _ Hw); [done|]. intros Hj. rewrite Z2Nat.id in Hj by lia.
  apply (Hfar _ Hj). unfold data_sectors in *. dm_lia.
Qed.

Lemma content_wrote d d' x ofs bs :
  extent d x → 0 ≤ ofs → ofs + zlen bs ≤ x.(length_) ∨ bs = [] →
  wrote d d' x.(start) (data_sectors x.(length_)) ofs bs → content d' x = splice (content d x) (Z.to_nat ofs) bs.
Proof.
  intros Hx Ho Hl Hw. pose proof (content_length d x (proj1 (ex_len _ _ Hx))) as Hc.
  assert (ofs + zlen bs ≤ x.(length_) ∨ bs = [] ∧ x.(length_) < ofs) as Hl' by (destruct Hl as [?| ->]; [by left|destruct (decide (ofs ≤ x.(length_))); [left; cbn; lia|right; split; [done|lia]]]).
  assert (extent d' x) as Hx' by (by eapply extent_wrote).
  destruct Hl' as [Hle|[-> Hgt]].
  - apply content_eq; [done|rewrite splice_length; lia|]. intros p Hp. rewrite (wr_bytes _ _ _ _ _ _ Hw) by lia.
    destruct (Z.leb_spec ofs p), (Z.ltb_spec p (ofs + zlen bs)); cbn [andb];
      [rewrite splice_lookup_in by lia; f_equal; lia|..];
      (rewrite splice_lookup_out by lia; by rewrite content_lookup).
  - unfold splice. rewrite take_ge, drop_ge, !app_nil_r by (cbn; lia). apply content_eq; [done|done|].
    intros p Hp. rewrite (wr_bytes _ _ _ _ _ _ Hw) by lia. rewrite content_lookup by done.
    destruct (Z.leb_spec ofs p), (Z.ltb_spec p (ofs + zlen (@nil Z))); cbn [andb]; try done. cbn in *. lia.
Qed.

(** ** Correctness *)

(** [inode_read_at] never fails an assertion on an inode whose sectors lie on
    the disk.  It delivers a prefix of the requested part of the file, all of it up to the
    end of the file if the bounce buffer can be allocated, and changes no disk sector. *)
Theorem inode_read_at_ok σ i ino size ofs :
  σ.(inodes) !! i = Some ino → extent σ.(disk) ino.(idata) → 0 < σ.(next) → 0 ≤ ofs < 2147483648 → 0 ≤ size →
  let want := take (Z.to_nat size) (drop (Z.to_nat ofs) (content σ.(disk) ino.(idata))) in
  ∃ bs σ', inode_read_at i size ofs σ = Ok (bs, σ') ∧ σ'.(disk) = σ.(disk) ∧ bs `prefix_of` want ∧
    (plenty σ → bs = want).
Proof.
  intros Hi Hx Hn Ho Hs want. destruct (inode_read_content σ i ino size ofs Hi Hx Hn Ho Hs) as (bs & σ' & Hr & Hh & H).
  exists bs, σ'. split; [done|]. split; [by apply heap_only_disk in Hh as [? _]|done].
Qed.

(** [inode_write_at] answers a number [m] of bytes, overwrites the file from
    the given offset on with the first [m] bytes of the buffer and leaves the rest of the
    file and every other file as they are.  [m] is the number of bytes asked for, cut at
    the end of the file, or less if the bounce buffer cannot be allocated, and 0 while
    writes are denied. *)
Theorem inode_write_at_ok σ i ino buffer size ofs :
  σ.(inodes) !! i = Some ino → extent σ.(disk) ino.(idata) → 0 < σ.(next) → 0 ≤ ofs < 2147483648 →
  size ≤ zlen buffer →
  let want := if ino.(deny_write_cnt) =? 0 then Z.max 0 (Z.min size (ino.(idata).(length_) - ofs)) else 0 in
  ∃ m σ', inode_write_at i buffer size ofs σ = Ok (m, σ') ∧ 0 ≤ m ≤ want ∧ (plenty σ → m = want) ∧
    content σ'.(disk) ino.(idata) = splice (content σ.(disk) ino.(idata)) (Z.to_nat ofs) (take (Z.to_nat m) buffer) ∧
    ∀ y, extent σ.(disk) y → far ino.(idata) y → content σ'.(disk) y = content σ.(disk) y.
Proof.
  intros Hi Hx Hn Ho Hs want. destruct (inode_write_at_run buffer Hi Hx Hn size ofs Ho Hs) as (m & d & σ' & Hr & Hd & Hw & Hm & Hp).
  exists m, σ'. destruct Hd as (σh & _ & ->). cbn [disk upd_disk]. do 3 (split; [done|]). split.
  - apply content_wrote; [done|lia| |done]. rewrite length_take. subst want.
    destruct (decide (m = 0)) as [->|]; [by right|left].
    destruct (Z.eqb_spec ino.(deny_write_cnt) 0); lia.
  - intros y Hy Hfar. exact (content_other _ _ _ _ _ _ Hx Hy Hfar Hw).
Qed.

(** What is written to a file is read back: if writes are allowed, the bytes
    fit in the file and memory suffices, then [file_write_at] followed by [file_read_at] of
    the same place delivers the bytes written. *)
Theorem file_write_read σ f x ino buffer ofs :
  σ.(files) !! f = Some x → σ.(inodes) !! x.(finode) = Some ino → extent σ.(disk) ino.(idata) →
  0 < σ.(next) → plenty σ → ino.(deny_write_cnt) = 0 → 0 ≤ ofs → ofs + zlen buffer ≤ ino.(idata).(length_) →
  ∃ σ1 σ2, file_write_at f buffer (zlen buffer) ofs σ = Ok (zlen buffer, σ1) ∧
    file_read_at f (zlen buffer) ofs σ1 = Ok (buffer, σ2).
Proof.
  intros Hf Hi Hx Hn Hpl Hdeny Ho Hfit. pose proof (ex_len _ _ Hx).
  destruct (inode_write_at_run buffer Hi Hx Hn (zlen buffer) ofs) as (m & d & σ1 & Hr & Hd & Hw & Hm & Hp); [lia..|].
  rewrite Hdeny in *. cbn [Z.eqb] in *. rewrite (Hp Hpl) in *. rewrite Z.min_l, Z.max_r in * by lia.
  assert (extent d ino.(idata)) as Hx' by by eapply extent_wrote.
  destruct Hd as (σh & (n & l & -> & Hn' & Hpl') & ->). set (σ1 := upd_disk _ _) in *.
  destruct (inode_read_content σ1 x.(finode) ino (zlen buffer) ofs) as (bs & σ2 & Hr2 & _ & _ & Heq); [done|done|cbn; lia|lia..|].
  exists σ1, σ2. unfold file_write_at, file_read_at.
  rewrite (bind_Ok _ _ σ x σ) by (unfold file_at; by rewrite Hf). split; [done|].
  rewrite (bind_Ok _ _ σ1 x σ1) by (unfold file_at; cbn; by rewrite Hf). rewrite Hr2, Heq by by apply Hpl'.
  do 2 f_equal. cbn [disk σ1 upd_disk]. rewrite (content_wrote σ.(disk) d ino.(idata) ofs buffer); [|done|lia|lia|].
  - rewrite Nat2Z.id, splice_read; [done|]. pose proof (content_length σ.(disk) ino.(idata)). lia.
  - by rewrite Nat2Z.id, take_ge in Hw by lia.
Qed.

(** ** Witnesses: a file of 1000 bytes in sectors 2 and 3 of a disk of five *)

Definition small_fs : fs :=
  Fs (replicate 5 (replicate 512 7)) {| bit_cnt := 5; bits := [15] |} NULL [10]
    {[10 := Inode 1 1 false 0 (InodeDisk 2 1000 INODE_MAGIC)]} {[20 := File 10 0 false]} ∅ 30 [].

Lemma small_extent : extent small_fs.(disk) (InodeDisk 2 1000 INODE_MAGIC).
Proof. split; try (vm_compute; split; congruence || reflexivity); try (vm_compute; congruence). by repeat constructor. Qed.

Lemma inode_read_at_ok_witness :
  ∃ bs σ', inode_read_at 10 600 100 small_fs = Ok (bs, σ') ∧ zlen bs = 600.
Proof.
  destruct (inode_read_at_ok small_fs 10 (Inode 1 1 false 0 (InodeDisk 2 1000 INODE_MAGIC)) 600 100)
    as (bs & σ' & Hr & _ & _ & Heq); [done|apply small_extent|done..|].
  exists bs, σ'. split; [exact Hr|]. rewrite Heq by (by apply not_elem_of_nil). vm_compute. reflexivity.
Defined.

Lemma inode_write_at_ok_witness :
  ∃ m σ', inode_write_at 10 (replicate 600 1) 600 500 small_fs = Ok (m, σ') ∧ m = 500.
Proof.
  destruct (inode_write_at_ok small_fs 10 (Inode 1 1 false 0 (InodeDisk 2 1000 INODE_MAGIC)) (replicate 600 1) 600 500)
    as (m & σ' & Hr & _ & Heq & _); [done|apply small_extent|done..|].
  exists m, σ'. split; [exact Hr|]. rewrite Heq by (by apply not_elem_of_nil). reflexivity.
Defined.

Lemma file_write_read_witness :
  ∃ σ1 σ2, file_write_at 20 [1; 2; 3] 3 510 small_fs = Ok (3, σ1) ∧ file_read_at 20 3 510 σ1 = Ok ([1; 2; 3], σ2).
Proof.
  apply (file_write_read small_fs 20 (File 10 0 false) (Inode 1 1 false 0 (InodeDisk 2 1000 INODE_MAGIC)) [1; 2; 3] 510);
    [done|done|apply small_extent|done|by apply not_elem_of_nil|done..].
Defined.
