(* ===== verification/FsDir.v ===== *)
(** * Directories

    A directory is the sequence of 20-byte entries its inode holds.  [lookup], [dir_add],
    [dir_remove] and [dir_readdir] of directory.c are shown to search, extend, shrink and
    list the finite map from names to inode sectors these entries represent. *)

From S2P Require Import Prelude Vaddr Bytes Bitmap Filesys FsInode.
Local Open Scope c_scope.

(** ** Entries *)

Definition entry_cnt (c : list Z) : Z := zlen c `div` 20.
Definition entry (c : list Z) (k : Z) : list Z := take 20 (drop (Z.to_nat (20 * k)) c).

Lemma entry_length c k : 0 ≤ k < entry_cnt c → length (entry c k) = 20%nat.
Proof. intros Hk. unfold entry, entry_cnt in *. rewrite length_take, length_drop. dm_lia. Qed.

(** Entry [k] is in use and has the given name. *)
Record entry_is (c : list Z) (name : list Z) (k : Z) : Prop := {
  ei_range : 0 ≤ k < entry_cnt c;
  ei_used : e_in_use (entry c k) = true;
  ei_name : c_string (e_name (entry c k)) = Ok name;
}.

(** The directory has the name, for the inode in sector [s]. *)
Definition has (c : list Z) (name : list Z) (s : Z) : Prop := ∃ k, entry_is c name k ∧ e_sector (entry c k) = s.

(** Every entry in use has a terminated name, and no two have the same. *)
Record dir_wf (c : list Z) : Prop := {
  dw_name : ∀ k, 0 ≤ k < entry_cnt c → e_in_use (entry c k) = true → ∃ name, c_string (e_name (entry c k)) = Ok name;
  dw_unique : ∀ name j k, entry_is c name j → entry_is c name k → j = k;
}.

Lemma has_unique c name s s' : dir_wf c → has c name s → has c name s' → s = s'.
Proof. intros Hwf (k & Hk & <-) (k' & Hk' & <-). by rewrite (dw_unique _ Hwf _ _ _ Hk Hk'). Qed.

(** ** Strings in entries *)

Lemma strcmp_ok a : ∀ name s,
  0 ∉ name → c_string a = Ok s → ∃ r, strcmp_bytes (name ++ [0]) a = Ok r ∧ (r = 0 ↔ s = name).
Proof.
  induction a as [|y a IH]; intros name s Hn Hs; [done|]. cbn in Hs. destruct name as [|x name]; cbn [strcmp_bytes app].
  - cbn [Z.eqb negb andb]. eexists. split; [done|]. destruct (Z.eqb_spec y 0) as [->|Hy].
    + injection Hs as <-. done.
    + apply rbind_inv in Hs as (s' & _ & [= <-]). repeat zcase; split; intros; congruence || lia.
  - apply not_elem_of_cons in Hn as [Hx Hn]. rewrite (proj2 (Z.eqb_neq x 0)) by congruence. cbn [negb andb].
    destruct (Z.eqb_spec x y) as [<-|Hxy].
    + rewrite (proj2 (Z.eqb_neq x 0)) in Hs by congruence. apply rbind_inv in Hs as (s' & Hs' & [= <-]).
      destruct (IH name s' Hn Hs') as (r & Hr & Hiff). exists r. split; [done|]. rewrite Hiff. split; congruence.
    + eexists. split; [done|]. split; [repeat zcase; intros; lia|]. intros ->.
      destruct (Z.eqb_spec y 0); [done|]. apply rbind_inv in Hs as (s' & _ & [= -> _]). done.
Qed.

Lemma c_string_app name rest : 0 ∉ name → c_string (name ++ 0 :: rest) = Ok name.
Proof.
  induction name as [|x name IH]; [done|]. intros [Hx Hn]%not_elem_of_cons. cbn.
  rewrite (proj2 (Z.eqb_neq x 0)) by congruence. by rewrite IH.
Qed.

Lemma c_string_short a s : c_string a = Ok s → 0 ∉ s ∧ (length s < length a)%nat.
Proof.
  revert s. induction a as [|x a IH]; intros s Hs; [done|]. cbn in Hs. destruct (Z.eqb_spec x 0) as [->|Hx].
  - injection Hs as <-. split; [apply not_elem_of_nil|cbn; lia].
  - apply rbind_inv in Hs as (s' & Hs' & [= <-]). destruct (IH s' Hs'). split; [|cbn; lia].
    apply not_elem_of_cons. split; congruence.
Qed.

(** The entry [dir_add] writes. *)
Definition new_entry (old : list Z) (name : list Z) (s : Z) : list Z :=
  le32 s ++ strlcpy_bytes (e_name old) name 15 ++ [1].

Lemma new_entry_ok old name s :
  length old = 20%nat → 0 ∉ name → zlen name ≤ 14 → is_u32 s →
  let e := new_entry old name s in
  length e = 20%nat ∧ e_in_use e = true ∧ c_string (e_name e) = Ok name ∧ e_sector e = s.
Proof.
  intros Ho Hn Hl Hs e.
  assert (strlcpy_bytes (e_name old) name 15 = name ++ 0 :: drop (S (length name)) (e_name old)) as Hcpy.
  { unfold strlcpy_bytes, splice. replace (Z.to_nat _) with (length name) by (zcase; lia).
    rewrite take_0, (take_ge name) by lia. rewrite length_app. cbn. rewrite <- app_assoc. cbn. do 3 f_equal. lia. }
  assert (length (e_name old) = 15%nat) as Hen by (unfold e_name; rewrite length_take, length_drop; lia).
  assert (length (strlcpy_bytes (e_name old) name 15) = 15%nat) as Hlen.
  { rewrite Hcpy, length_app. cbn. rewrite length_drop. lia. }
  assert (e_name e = strlcpy_bytes (e_name old) name 15) as He.
  { unfold e_name at 1, e, new_entry. rewrite drop_app_length' by done. by rewrite take_app_length'. }
  split_and!.
  - unfold e, new_entry. rewrite !length_app, Hlen. done.
  - unfold e_in_use, e, new_entry. rewrite lookup_app_r, lookup_app_r by (rewrite ?Hlen; cbn; lia).
    rewrite Hlen. done.
  - rewrite He, Hcpy. by apply c_string_app.
  - unfold e_sector, e, new_entry. rewrite take_app_length' by done. cbn. by apply of_le32_le32.
Qed.

(** ** Replacing an entry *)

Lemma splice_entry c k e j :
  length e = 20%nat → 0 ≤ k < entry_cnt c → 0 ≤ j < entry_cnt c →
  let c' := splice c (Z.to_nat (20 * k)) e in
  entry_cnt c' = entry_cnt c ∧ entry c' j = if j =? k then e else entry c j.
Proof.
  intros He Hk Hj c'. unfold entry_cnt in *.
  assert (length c' = length c) as Hlen by (apply splice_length; dm_lia). split; [by rewrite Hlen|].
  destruct (Z.eqb_spec j k) as [->|Hne].
  - unfold entry, c'. rewrite <- He at 1. apply splice_read. dm_lia.
  - unfold entry. apply list_eq. intros p. destruct (decide (p < 20)%nat).
    + rewrite !lookup_take_lt, !lookup_drop by done. apply splice_lookup_out; dm_lia.
    + rewrite !lookup_ge_None_2; [done|..]; rewrite length_take; lia.
Qed.

Lemma splice_tail c b :
  (Z.to_nat (20 * entry_cnt c) + length b ≤ length c)%nat →
  let c' := splice c (Z.to_nat (20 * entry_cnt c)) b in
  entry_cnt c' = entry_cnt c ∧ ∀ j, 0 ≤ j < entry_cnt c → entry c' j = entry c j.
Proof.
  intros Hb c'. assert (length c' = length c) as Hlen by by apply splice_length. unfold entry_cnt in *.
  split; [by rewrite Hlen|]. intros j Hj. unfold entry. apply list_eq. intros p. destruct (decide (p < 20)%nat).
  - rewrite !lookup_take_lt, !lookup_drop by done. apply splice_lookup_out; [done|]. dm_lia.
  - rewrite !lookup_ge_None_2; [done|..]; rewrite length_take; lia.
Qed.

Lemma same_entries c c' :
  entry_cnt c' = entry_cnt c → (∀ j, 0 ≤ j < entry_cnt c → entry c' j = entry c j) →
  (∀ name k, entry_is c' name k ↔ entry_is c name k) ∧ (∀ name s, has c' name s ↔ has c name s) ∧ (dir_wf c → dir_wf c').
Proof.
  intros Ec Ee. assert (∀ name k, entry_is c' name k ↔ entry_is c name k) as Hi.
  { intros name k. split; intros [Hr Hu Hn]; split; rewrite ?Ec, ?Ee in *; try done; by rewrite <- Ee. }
  split_and!; [done|..].
  - intros name s. split; intros (k & Hk & <-); exists k; (split; [by apply Hi|]).
    + f_equal. symmetry. apply Ee. apply Hi in Hk. apply Hk.
    + f_equal. apply Ee. apply Hk.
  - intros [Hn Hu]. split.
    + intros k. rewrite Ec. intros Hk. rewrite Ee by done. by apply Hn.
    + intros name j k ?%Hi ?%Hi. by apply (Hu name).
Qed.

(** A new entry in a free slot. *)
Lemma add_entry c k e name s :
  dir_wf c → 0 ≤ k < entry_cnt c → e_in_use (entry c k) = false → (∀ j, ¬ entry_is c name j) →
  length e = 20%nat → e_in_use e = true → c_string (e_name e) = Ok name → e_sector e = s →
  let c' := splice c (Z.to_nat (20 * k)) e in
  dir_wf c' ∧ ∀ n' s', has c' n' s' ↔ has c n' s' ∨ n' = name ∧ s' = s.
Proof.
  intros Hwf Hk Hfree Hnew He Hu Hn Hs c'.
  assert (entry_cnt c' = entry_cnt c) as Ec by by apply (splice_entry c k e k).
  assert (∀ j, 0 ≤ j < entry_cnt c → entry c' j = if j =? k then e else entry c j) as Ee by (intros; by apply splice_entry).
  assert (∀ n' j, entry_is c' n' j ↔ entry_is c n' j ∨ n' = name ∧ j = k) as Hi.
  { intros n' j. split.
    - intros [Hr Hu' Hn']. rewrite Ec in Hr. rewrite Ee in Hu', Hn' by done.
      destruct (Z.eqb_spec j k) as [->|]; [right; split; congruence|left; by split].
    - intros [[Hr Hu' Hn']|[-> ->]].
      + assert (j ≠ k) by congruence. split; rewrite ?Ec, ?Ee by done; rewrite ?(proj2 (Z.eqb_neq j k)); done.
      + split; rewrite ?Ec, ?Ee by done; rewrite ?Z.eqb_refl; done. }
  split.
  - split.
    + intros j Hj. rewrite Ec in Hj. rewrite Ee by done. destruct (Z.eqb_spec j k); [eauto|by apply Hwf].
    + intros n' j j' [H1|[E1 ->]]%Hi [H2|[E2 ->]]%Hi; subst; [by apply (dw_unique _ Hwf n')|by destruct (Hnew j)| |done].
      by destruct (Hnew j').
  - intros n' s'. split.
    + intros (j & Hj & <-). pose proof (ei_range _ _ _ Hj) as Hr. rewrite Ec in Hr. rewrite Ee by done.
      apply Hi in Hj as [Hj|[-> ->]]; [left; exists j|right; by rewrite Z.eqb_refl].
      assert (j ≠ k) by (intros ->; destruct Hj; congruence). by rewrite (proj2 (Z.eqb_neq j k)).
    + intros [(j & Hj & <-)|[-> ->]].
      * exists j. split; [apply Hi; by left|]. rewrite Ee by apply Hj.
        assert (j ≠ k) by (intros ->; destruct Hj; congruence). by rewrite (proj2 (Z.eqb_neq j k)).
      * exists k. split; [apply Hi; by right|]. rewrite Ee by done. by rewrite Z.eqb_refl.
Qed.

(** Clearing [in_use] of an entry. *)
Lemma drop_entry c k name :
  dir_wf c → entry_is c name k →
  let c' := splice c (Z.to_nat (20 * k)) (take 19 (entry c k) ++ [0]) in
  dir_wf c' ∧ ∀ n' s', has c' n' s' ↔ has c n' s' ∧ n' ≠ name.
Proof.
  intros Hwf Hk c'. pose proof (ei_range _ _ _ Hk) as Hr. pose proof (entry_length c k Hr) as Hlen.
  set (e := take 19 (entry c k) ++ [0]). assert (length e = 20%nat) as He by (subst e; by rewrite length_app, length_take, Hlen).
  assert (e_in_use e = false) as Hu.
  { unfold e_in_use, e. rewrite lookup_app_r by (rewrite length_take; lia). rewrite length_take, Hlen. done. }
  assert (entry_cnt c' = entry_cnt c) as Ec by by apply (splice_entry c k e k).
  assert (∀ j, 0 ≤ j < entry_cnt c → entry c' j = if j =? k then e else entry c j) as Ee by (intros; by apply splice_entry).
  assert (∀ n' j, entry_is c' n' j ↔ entry_is c n' j ∧ n' ≠ name) as Hi.
  { intros n' j. split.
    - intros [Hr' Hu' Hn']. rewrite Ec in Hr'. rewrite Ee in Hu', Hn' by done.
      destruct (Z.eqb_spec j k) as [->|Hne]; [congruence|]. split; [by split|]. intros ->.
      apply Hne. apply (dw_unique _ Hwf name); [by split|done].
    - intros [[Hr' Hu' Hn'] Hne]. assert (j ≠ k) by (intros ->; destruct Hk; congruence).
      split; rewrite ?Ec, ?Ee by done; rewrite ?(proj2 (Z.eqb_neq j k)); done. }
  split.
  - split.
    + intros j Hj. rewrite Ec in Hj. rewrite Ee by done. destruct (Z.eqb_spec j k); [congruence|by apply Hwf].
    + intros n' j j' [H1 _]%Hi [H2 _]%Hi. by apply (dw_unique _ Hwf n').
  - intros n' s'. split.
    + intros (j & Hj & <-). pose proof (ei_range _ _ _ Hj) as Hr'. rewrite Ec in Hr'. apply Hi in Hj as [Hj Hne].
      assert (j ≠ k) by (intros ->; destruct Hk, Hj; congruence).
      split; [|done]. exists j. rewrite Ee by done. by rewrite (proj2 (Z.eqb_neq j k)).
    + intros [(j & Hj & <-) Hne]. assert (j ≠ k) by (intros ->; destruct Hk, Hj; congruence).
      exists j. split; [by apply Hi|]. rewrite Ee by apply Hj. by rewrite (proj2 (Z.eqb_neq j k)).
Qed.

(** ** Searching *)

Section dir.
Context {σ : fs} {i : Z} {ino : inode}.
Context (Hi : σ.(inodes) !! i = Some ino) (Hex : extent σ.(disk) ino.(idata)) (Hnext : 0 < σ.(next)) (Hpl : plenty σ).
Notation c := (content σ.(disk) ino.(idata)).

(** Reading an entry, or the rest behind the last one. *)
Lemma read_entry σ1 k :
  heap_only σ σ1 → 0 ≤ k ≤ entry_cnt c →
  ∃ σ2, inode_read_at i ENTRY_SIZE (20 * k) σ1 = Ok (entry c k, σ2) ∧ heap_only σ σ2 ∧
    (zlen (entry c k) =? ENTRY_SIZE) = (k <? entry_cnt c).
Proof.
  intros Hh Hk. pose proof (ex_len _ _ Hex). pose proof (content_length σ.(disk) ino.(idata)) as Hl.
  pose proof Hh as Hh0. destruct Hh0 as (n & l & -> & Hn & Hp).
  destruct (inode_read_content (upd_heap n l σ) i ino ENTRY_SIZE (20 * k)) as (bs & σ2 & Hr & Hh2 & _ & Heq);
    [done|done|cbn; lia|unfold entry_cnt in *; dm_lia|done|].
  exists σ2. rewrite Hr, Heq by by apply Hp. split_and!; [done|by eapply heap_only_trans|].
  unfold entry, ENTRY_SIZE, entry_cnt in *. rewrite length_take, length_drop.
  destruct (Z.ltb_spec k (zlen c `div` 20)); [apply Z.eqb_eq|apply Z.eqb_neq]; dm_lia.
Qed.

Lemma entries_fit : 20 * entry_cnt c ≤ ino.(idata).(length_) < 2147483648 ∧ 0 ≤ entry_cnt c.
Proof.
  pose proof (ex_len _ _ Hex). pose proof (content_length σ.(disk) ino.(idata)). unfold entry_cnt. dm_lia.
Qed.

Lemma lookup_loop name : ∀ fuel k σ1,
  0 ∉ name → dir_wf c → heap_only σ σ1 → 0 ≤ k ≤ entry_cnt c → (Z.to_nat (entry_cnt c - k) < fuel)%nat →
  (∀ j, entry_is c name j → k ≤ j) →
  ∃ r σ2, iter fuel (λ ofs,
    e <- inode_read_at i ENTRY_SIZE (s32 ofs) ;;
    if zlen e =? ENTRY_SIZE then
      x <- (if e_in_use e then lift (strcmp_bytes (name ++ [0]) (e_name e)) else ret 1) ;;
      if e_in_use e && (x =? 0) then ret (inr (Some (e, ofs))) else ret (inl (u32 (ofs + ENTRY_SIZE)))
    else ret (inr None)) (20 * k) σ1 = Ok (r, σ2) ∧ heap_only σ σ2 ∧
    match r with
    | Some (e, ofs) => ∃ k, ofs = 20 * k ∧ e = entry c k ∧ entry_is c name k
    | None => ∀ j, ¬ entry_is c name j
    end.
Proof.
  intros fuel k σ1 Hname Hwf. revert k σ1. induction fuel as [|fuel IH]; intros k σ1 Hh Hk Hf Hbelow; [lia|].
  pose proof entries_fit. destruct (read_entry σ1 k Hh Hk) as (σ2 & Hr & Hh2 & Hlen).
  assert (s32 (20 * k) = 20 * k) as Es by (apply s32_small; mlia).
  destruct (Z.ltb_spec k (entry_cnt c)) as [Hlt|Hge].
  2:{ exists None, σ2. rewrite (iter_break _ _ _ None _ σ2).
      - split_and!; [done..|]. intros j Hj. pose proof (ei_range _ _ _ Hj). specialize (Hbelow j Hj). lia.
      - rewrite Es, (bind_Ok _ _ _ _ _ Hr), Hlen. done. }
  destruct (e_in_use (entry c k)) eqn:Hu.
  - destruct (dw_name _ Hwf k ltac:(lia) Hu) as (s & Hs). destruct (strcmp_ok _ name s Hname Hs) as (x & Hx & Hiff).
    destruct (decide (x = 0)) as [->|Hx0].
    + exists (Some (entry c k, 20 * k)), σ2. rewrite (iter_break _ _ _ (Some (entry c k, 20 * k)) _ σ2).
      * split_and!; [done..|]. exists k. split_and!; [done..|]. split; [lia|done|]. by rewrite Hs, (proj1 Hiff).
      * rewrite Es, (bind_Ok _ _ _ _ _ Hr), Hlen, Hu. unfold lift, bind. by rewrite Hx.
    + rewrite (iter_continue _ _ _ (20 * (k + 1)) _ σ2).
      * apply IH; [done|lia|lia|]. intros j Hj. specialize (Hbelow j Hj). destruct (decide (j = k)) as [->|]; [|lia].
        destruct Hj as [_ _ Hj]. rewrite Hs in Hj. injection Hj as ->. by destruct Hx0; apply Hiff.
      * rewrite Es, (bind_Ok _ _ _ _ _ Hr), Hlen, Hu. unfold lift, bind. rewrite Hx. cbn [rbind].
        rewrite (proj2 (Z.eqb_neq x 0)) by done. cbn. unfold ret, ENTRY_SIZE. rewrite u32_small by mlia. do 3 f_equal. lia.
  - rewrite (iter_continue _ _ _ (20 * (k + 1)) _ σ2).
    + apply IH; [done|lia|lia|]. intros j Hj. specialize (Hbelow j Hj). destruct (decide (j = k)) as [->|]; [|lia].
      destruct Hj. congruence.
    + rewrite Es, (bind_Ok _ _ _ _ _ Hr), Hlen, Hu. unfold bind, ret, ENTRY_SIZE. cbn [andb].
      rewrite u32_small by mlia. do 3 f_equal. lia.
Qed.

Lemma dir_at_heap σ1 d x : heap_only σ σ1 → σ.(dirs) !! d = Some x → dir_at d σ1 = Ok (x, σ1).
Proof. intros (n & l & -> & _) Hd. unfold dir_at. cbn. by rewrite Hd. Qed.

Lemma entry_fuel_run σ1 :
  heap_only σ σ1 → entry_fuel i σ1 = Ok (S (S (Z.to_nat ino.(idata).(length_))), σ1).
Proof. intros (n & l & -> & _). unfold entry_fuel, bind, inode_at. cbn. by rewrite Hi. Qed.

(** [lookup] finds the entry with the name, and only that. *)
Lemma lookup_run d x name :
  0 ∉ name → dir_wf c → d ≠ NULL → σ.(dirs) !! d = Some x → x.(dinode) = i →
  ∃ r σ2, lookup d name σ = Ok (r, σ2) ∧ heap_only σ σ2 ∧
    match r with
    | Some (e, ofs) => ∃ k, ofs = 20 * k ∧ e = entry c k ∧ entry_is c name k
    | None => ∀ j, ¬ entry_is c name j
    end.
Proof.
  intros Hname Hwf Hd Hdx Hxi. pose proof entries_fit. unfold lookup.
  rewrite bind_assert by (by rewrite (proj2 (Z.eqb_neq d NULL))).
  rewrite (bind_Ok _ _ _ _ _ (dir_at_heap _ _ _ (heap_only_refl σ) Hdx)), Hxi.
  rewrite (bind_Ok _ _ _ _ _ (entry_fuel_run _ (heap_only_refl σ))).
  apply (lookup_loop name _ 0); [done|done|apply heap_only_refl|lia|lia|].
  intros j Hj. by destruct (ei_range _ _ _ Hj).
Qed.

Lemma free_slot_loop : ∀ fuel k e σ1,
  heap_only σ σ1 → 0 ≤ k ≤ entry_cnt c → (Z.to_nat (entry_cnt c - k) < fuel)%nat → length e = 20%nat →
  (∀ j, 0 ≤ j < k → e_in_use (entry c j) = true) →
  ∃ k' e' σ2, iter fuel (λ '(ofs, e),
    b <- inode_read_at i ENTRY_SIZE ofs ;;
    let e := splice e 0 b in
    if zlen b =? ENTRY_SIZE then
      if e_in_use e then ret (inl (s32 (ofs + ENTRY_SIZE), e)) else ret (inr (ofs, e))
    else ret (inr (ofs, e))) (20 * k, e) σ1 = Ok ((20 * k', e'), σ2) ∧ heap_only σ σ2 ∧ length e' = 20%nat ∧
    0 ≤ k' ≤ entry_cnt c ∧ (∀ j, 0 ≤ j < k' → e_in_use (entry c j) = true) ∧
    (k' < entry_cnt c → e_in_use (entry c k') = false).
Proof.
  induction fuel as [|fuel IH]; intros k e σ1 Hh Hk Hf He Hbelow; [lia|].
  pose proof entries_fit. destruct (read_entry σ1 k Hh Hk) as (σ2 & Hr & Hh2 & Hlen).
  destruct (Z.ltb_spec k (entry_cnt c)) as [Hlt|Hge].
  - pose proof (entry_length c k ltac:(lia)) as Hel.
    assert (splice e 0 (entry c k) = entry c k) as Esp by (apply splice_all; congruence).
    destruct (e_in_use (entry c k)) eqn:Hu.
    + rewrite (iter_continue _ _ _ (20 * (k + 1), entry c k) _ σ2).
      * apply IH; [done|lia|lia|done|]. intros j Hj. destruct (decide (j = k)) as [->|]; [done|]. apply Hbelow. lia.
      * rewrite (bind_Ok _ _ _ _ _ Hr). cbv zeta. rewrite Esp, Hlen, Hu. unfold ret, ENTRY_SIZE. rewrite s32_small by mlia.
        do 4 f_equal. lia.
    + exists k, (entry c k), σ2. rewrite (iter_break _ _ _ (20 * k, entry c k) _ σ2).
      * split_and!; [done..|lia|lia|done|done].
      * rewrite (bind_Ok _ _ _ _ _ Hr). cbv zeta. by rewrite Esp, Hlen, Hu.
  - exists k, (splice e 0 (entry c k)), σ2. rewrite (iter_break _ _ _ (20 * k, splice e 0 (entry c k)) _ σ2).
    + split_and!; [done..| |lia|lia|done|lia]. rewrite splice_length; [done|]. unfold entry. rewrite length_take. lia.
    + rewrite (bind_Ok _ _ _ _ _ Hr). cbv zeta. by rewrite Hlen.
Qed.
End dir.

(** ** Adding and listing *)

Lemma disk_only_heap σ σ1 d σ2 : heap_only σ σ1 → disk_only σ1 d σ2 → disk_only σ d σ2.
Proof. intros Hh (σh & Hh' & ->). exists σh. split; [by eapply heap_only_trans|done]. Qed.

Lemma disk_only_same σ σ1 : heap_only σ σ1 → disk_only σ σ.(disk) σ1.
Proof. intros Hh. exists σ1. split; [done|]. pose proof (heap_only_disk _ _ Hh) as [<- _]. by destruct σ1. Qed.

(** An open directory: its inode, which nobody denies writing. *)
Record open_dir (σ : fs) (d i : Z) (ino : inode) : Prop := {
  od_null : d ≠ NULL;
  od_dir : ∃ x, σ.(dirs) !! d = Some x ∧ x.(dinode) = i;
  od_inode : σ.(inodes) !! i = Some ino;
  od_extent : extent σ.(disk) ino.(idata);
  od_deny : ino.(deny_write_cnt) = 0;
  od_wf : dir_wf (content σ.(disk) ino.(idata));
  od_next : 0 < σ.(next);
  od_plenty : plenty σ;
}.

Definition bad_name (name : list Z) : Prop := name = [] ∨ 14 < zlen name.
Definition full (c : list Z) : Prop := ∀ k, 0 ≤ k < entry_cnt c → e_in_use (entry c k) = true.

(** What is written into the directory by [dir_add]. *)
Lemma dir_add_run σ d i ino junk name s :
  open_dir σ d i ino → length junk = 20%nat → 0 ∉ name → is_u32 s →
  let c := content σ.(disk) ino.(idata) in
  ∃ ok dk σ' ofs bs, dir_add junk d name s σ = Ok (ok, σ') ∧ disk_only σ dk σ' ∧
    wrote σ.(disk) dk ino.(idata).(start) (data_sectors ino.(idata).(length_)) ofs bs ∧
    let c' := content dk ino.(idata) in
    dir_wf c' ∧
    if ok then ¬ bad_name name ∧ (∀ s', ¬ has c name s') ∧ ∀ n' s', has c' n' s' ↔ has c n' s' ∨ n' = name ∧ s' = s
    else (bad_name name ∨ (∃ s', has c name s') ∨ full c) ∧ ∀ n' s', has c' n' s' ↔ has c n' s'.
Proof.
  intros [Hd (x & Hdx & Hxi) Hi Hex Hdeny Hwf Hnext Hpl] Hjunk Hname Hs c. unfold dir_add.
  rewrite bind_assert by (by rewrite (proj2 (Z.eqb_neq d NULL))).
  destruct ((zlen name =? 0) || (NAME_MAX <? zlen name)) eqn:Ebad.
  { exists false, σ.(disk), σ, 0, []. split_and!; [done|apply disk_only_refl|apply wrote_nothing, Hex|done| |done].
    left. apply orb_true_iff in Ebad as [E%Z.eqb_eq|E%Z.ltb_lt]; [left; by destruct name|by right]. }
  apply orb_false_iff in Ebad as [E0%Z.eqb_neq E14%Z.ltb_ge]. unfold NAME_MAX in E14.
  destruct (lookup_run Hi Hex Hnext Hpl d x name Hname Hwf Hd Hdx Hxi) as (r & σ1 & Hr & Hh1 & Hres).
  rewrite (bind_Ok _ _ _ _ _ Hr). destruct r as [[e ofs]|].
  { destruct Hres as (k & -> & -> & Hk). rewrite bool_decide_eq_true_2 by eauto.
    exists false, σ.(disk), σ1, 0, []. split_and!; [done|by apply disk_only_same|apply wrote_nothing, Hex|done| |done].
    right. left. eexists. exists k. done. }
  rewrite bool_decide_eq_false_2 by (by intros []).
  rewrite (bind_Ok _ _ _ _ _ (dir_at_heap _ _ _ Hh1 Hdx)), Hxi.
  destruct (free_slot_loop Hi Hex Hnext Hpl (S (S (Z.to_nat ino.(idata).(length_)))) 0 junk σ1 Hh1)
    as (k & e & σ2 & Hr2 & Hh2 & He & Hk & Hused & Hfree); [pose proof (entries_fit (σ := σ) Hex); lia|pose proof (entries_fit (σ := σ) Hex); lia|done|lia|].
  rewrite (bind_Ok _ _ σ1 (20 * k, e) σ2).
  2:{ unfold free_slot. rewrite (bind_Ok _ _ _ _ _ (entry_fuel_run Hi σ1 Hh1)). exact Hr2. }
  fold (new_entry e name s). destruct (new_entry_ok e name s He Hname E14 Hs) as (Hel & Heu & Hen & Hes).
  set (e' := new_entry e name s) in *. pose proof (entries_fit (σ := σ) Hex) as [Hfit _]. fold c in Hfit, Hk, Hused, Hfree.
  pose proof Hh2 as Hh2'. destruct Hh2' as (n & l & -> & Hn & Hp).
  destruct (inode_write_at_run (σ0 := upd_heap n l σ) e' Hi Hex ltac:(cbn; lia) ENTRY_SIZE (20 * k))
    as (m & dk & σ3 & Hr3 & Hd3 & Hw3 & _ & Hm); [lia|rewrite Hel; done|].
  specialize (Hm (Hp Hpl)). rewrite Hdeny in Hm. cbn [Z.eqb disk upd_heap] in Hm, Hw3. unfold ENTRY_SIZE in *.
  rewrite (bind_Ok _ _ _ _ _ Hr3). pose proof (content_length σ.(disk) ino.(idata)) as Hcl. fold c in Hcl.
  assert (content dk ino.(idata) = splice c (Z.to_nat (20 * k)) (take (Z.to_nat m) e')) as Hc'.
  { apply content_wrote; [done|lia| |done]. rewrite length_take. left. lia. }
  exists (m =? 20), dk, σ3, (20 * k), (take (Z.to_nat m) e'). split_and!; [done|by eapply disk_only_heap|done|..].
  - rewrite Hc'.
    destruct (decide (k < entry_cnt c)) as [Hlt|Hge].
    + replace m with 20 by lia. rewrite take_ge by (rewrite Hel; lia).
      apply (add_entry c k e' name s Hwf); try done; [lia|by apply Hfree].
    + assert (k = entry_cnt c) as -> by lia. assert (m = zlen c - 20 * entry_cnt c) as -> by (unfold entry_cnt in *; dm_lia).
      destruct (splice_tail c (take (Z.to_nat (zlen c - 20 * entry_cnt c)) e')) as [Ec Ee].
      { rewrite length_take. lia. }
      apply (same_entries _ _ Ec Ee). done.
  - rewrite Hc'.
    destruct (decide (k < entry_cnt c)) as [Hlt|Hge].
    + replace m with 20 by lia. rewrite Z.eqb_refl, take_ge by (rewrite Hel; lia).
      split_and!; [|by intros s' (j & Hj & _); destruct (Hres j)|].
      * intros [-> |]; [done|lia].
      * apply (add_entry c k e' name s Hwf); try done; [lia|by apply Hfree].
    + assert (k = entry_cnt c) as -> by lia. assert (m = zlen c - 20 * entry_cnt c) as -> by (unfold entry_cnt in *; dm_lia).
      rewrite (proj2 (Z.eqb_neq _ 20)) by (unfold entry_cnt; dm_lia). split; [right; right; exact Hused|].
      destruct (splice_tail c (take (Z.to_nat (zlen c - 20 * entry_cnt c)) e')) as [Ec Ee].
      { rewrite length_take. lia. }
      apply (same_entries _ _ Ec Ee).
Qed.
