(* ===== verification/FsMain.v ===== *)
(** * The file system as a whole

    The invariant of the mounted file system: the inodes on the disk own disjoint sets of
    sectors that the free map marks, the open inodes agree with the disk, the free map
    file holds the free map, and the root directory names existing inodes.
    [filesys_create] is proved to keep it and to add a name to the directory, or to fail
    and leave the files as they are. *)

From S2P Require Import Prelude Vaddr Bytes Bitmap Filesys FsInode FsDir.
Local Open Scope c_scope.

(** ** The invariant *)

(** Sector [j] is the header or a data sector of the inode [x] in sector [s]. *)
Definition owns (s : Z) (x : inode_disk) (j : Z) : Prop :=
  j = s ∨ x.(start) ≤ j < x.(start) + data_sectors x.(length_).

Record core (σ : fs) (X : gmap Z inode_disk) : Prop := {
  co_sectors : Forall (λ b, length b = 512%nat) σ.(disk);
  co_size : zlen σ.(disk) ≤ 268435456;
  co_map : wf σ.(free_map);
  co_cnt : σ.(free_map).(bit_cnt) = zlen σ.(disk);
  co_inode : ∀ s x, X !! s = Some x →
    0 ≤ s < zlen σ.(disk) ∧ σ.(disk) !! Z.to_nat s = Some (encode_inode x) ∧ extent σ.(disk) x ∧
    x.(imagic) = INODE_MAGIC ∧ ¬ x.(start) ≤ s < x.(start) + data_sectors x.(length_);
  co_marked : ∀ s x j, X !! s = Some x → owns s x j → bit σ.(free_map) j = true;
  co_apart : ∀ s x s' x' j, X !! s = Some x → X !! s' = Some x' → owns s x j → owns s' x' j → s = s';
  co_len : ∀ s x, X !! s = Some x → x.(length_) ≤ 2147483136;
  co_open : ∀ i, i ∈ σ.(open_inodes) → is_Some (σ.(inodes) !! i);
  co_nodup : NoDup σ.(open_inodes);
  co_table : ∀ i ino, i ∈ σ.(open_inodes) → σ.(inodes) !! i = Some ino →
    X !! ino.(sector) = Some ino.(idata) ∧ 0 < ino.(open_cnt) < 2147483648 ∧ 0 ≤ ino.(deny_write_cnt);
  co_one : ∀ i ino j jno, i ∈ σ.(open_inodes) → j ∈ σ.(open_inodes) →
    σ.(inodes) !! i = Some ino → σ.(inodes) !! j = Some jno → ino.(sector) = jno.(sector) → i = j;
  co_ids : ∀ i ino, σ.(inodes) !! i = Some ino → 0 < i < σ.(next);
  co_next : 0 < σ.(next);
  co_dirs : ∀ d x, σ.(dirs) !! d = Some x → d < σ.(next);
  co_files : ∀ f x, σ.(files) !! f = Some x → f < σ.(next);
}.

(** The free map file is open and as long as the map. *)
Record map_file (σ : fs) (jno : inode) : Prop := {
  mf_file : ∃ x, σ.(files) !! σ.(free_map_file) = Some x ∧ σ.(inodes) !! x.(finode) = Some jno ∧
    x.(finode) ∈ σ.(open_inodes);
  mf_null : σ.(free_map_file) ≠ NULL;
  mf_sector : jno.(sector) = FREE_MAP_SECTOR;
  mf_deny : jno.(deny_write_cnt) = 0;
  mf_length : jno.(idata).(length_) = byte_cnt σ.(free_map).(bit_cnt);
}.

(** ** Steps that leave the tables alone *)

Lemma fs_ext σ σ' :
  σ.(disk) = σ'.(disk) → σ.(free_map) = σ'.(free_map) → σ.(free_map_file) = σ'.(free_map_file) →
  σ.(open_inodes) = σ'.(open_inodes) → σ.(inodes) = σ'.(inodes) → σ.(files) = σ'.(files) → σ.(dirs) = σ'.(dirs) →
  σ.(next) = σ'.(next) → σ.(answers) = σ'.(answers) → σ = σ'.
Proof. destruct σ, σ'. cbn. by intros -> -> -> -> -> -> -> -> ->. Qed.

(** Only the disk, the free map and the heap of the block allocator change. *)
Definition touch (σ σ' : fs) : Prop :=
  ∃ d b n l, σ' = upd_disk (λ _, d) (upd_map (λ _, b) (upd_heap n l σ)) ∧ length d = length σ.(disk) ∧
    b.(bit_cnt) = σ.(free_map).(bit_cnt) ∧ σ.(next) ≤ n ∧ (plenty σ → plenty σ').

Lemma touch_refl σ : touch σ σ.
Proof. exists σ.(disk), σ.(free_map), σ.(next), σ.(answers). split_and!; try done. by destruct σ. Qed.

Lemma touch_trans σ1 σ2 σ3 : touch σ1 σ2 → touch σ2 σ3 → touch σ1 σ3.
Proof.
  intros (d & b & n & l & -> & Hd & Hb & Hn & Hp) (d' & b' & n' & l' & -> & Hd' & Hb' & Hn' & Hp'). cbn in *.
  exists d', b', n', l'. split_and!; [done|congruence|congruence|lia|]. intros Hp0. specialize (Hp' (Hp Hp0)). done.
Qed.

Lemma heap_touch σ σ' : heap_only σ σ' → touch σ σ'.
Proof.
  intros (n & l & -> & Hn & Hp). exists σ.(disk), σ.(free_map), n, l. split_and!; try done.
Qed.

Lemma disk_touch σ d σ' : disk_only σ d σ' → length d = length σ.(disk) → touch σ σ'.
Proof.
  intros (σh & (n & l & -> & Hn & Hp) & ->) Hd. exists d, σ.(free_map), n, l. split_and!; try done.
Qed.

Lemma touch_map_file σ σ' jno : touch σ σ' → map_file σ jno → map_file σ' jno.
Proof. intros (d & b & n & l & -> & Hd & Hb & _) [H1 H2 H3 H4 H5]. split; cbn; try done. by rewrite Hb. Qed.

(** ** The invariant under writes *)

(** The inodes in [X] keep their headers, and those but [s0] their contents. *)
Lemma core_wrote σ σ' X s0 x0 d ofs bs :
  core σ X → X !! s0 = Some x0 → disk_only σ d σ' →
  wrote σ.(disk) d x0.(start) (data_sectors x0.(length_)) ofs bs →
  core σ' X ∧ ∀ s x, X !! s = Some x → s ≠ s0 → content σ'.(disk) x = content σ.(disk) x.
Proof.
  intros HC Hx0 (σh & (n & l & -> & Hn & Hp) & ->) Hw. pose proof HC as [H1 H2 H3 H4 H5 H6 H7 Hcl H8 H9 H10 H11 Hids H12 H13 H14].
  cbn. split.
  - split; cbn; try done.
    + apply (wr_sectors _ _ _ _ _ _ Hw).
    + by rewrite (wr_length _ _ _ _ _ _ Hw).
    + by rewrite (wr_length _ _ _ _ _ _ Hw).
    + intros s x Hx. destruct (H5 s x Hx) as (Hs & Hd & He & Hm & Hself). rewrite (wr_length _ _ _ _ _ _ Hw).
      split_and!; [lia..| |by eapply extent_wrote|done|done]. rewrite (wr_others _ _ _ _ _ _ Hw); [done|].
      intros Hin. destruct (decide (s = s0)) as [->|Hne].
      * rewrite Hx in Hx0. injection Hx0 as ->. lia.
      * apply Hne. apply (H7 s x s0 x0 s Hx Hx0); [by left|right; lia].
    + intros i ino Hi. specialize (Hids i ino Hi). lia.
    + lia.
    + intros d' x Hd. specialize (H13 d' x Hd). lia.
    + intros f x Hf. specialize (H14 f x Hf). lia.
  - intros s x Hx Hne. apply (content_other σ.(disk) d x0 x ofs bs); [by apply (H5 s0)|by apply (H5 s)| |done].
    intros j Hj Hj'. apply Hne. apply (H7 s x s0 x0 j Hx Hx0); by right.
Qed.

(** ** The free map *)

(** The free map file holds the free map, up to the bits behind its end. *)
Definition synced (σ : fs) (jno : inode) : Prop :=
  ∃ b, wf b ∧ b.(bit_cnt) = σ.(free_map).(bit_cnt) ∧ content σ.(disk) jno.(idata) = words_bytes b.(bits) ∧
    ∀ j, 0 ≤ j < b.(bit_cnt) → bit b j = bit σ.(free_map) j.

(** All files but the free map file. *)
Definition others_kept (X : gmap Z inode_disk) (σ σ' : fs) : Prop :=
  ∀ s x, X !! s = Some x → s ≠ FREE_MAP_SECTOR → content σ'.(disk) x = content σ.(disk) x.

Lemma words_bytes_zlen ws : zlen (words_bytes ws) = 4 * zlen ws.
Proof. induction ws as [|w ws IH]; [done|]. unfold words_bytes in *. cbn [fmap list_fmap concat]. rewrite length_app. cbn. lia. Qed.

(** Changing the map in memory. *)
Lemma core_map_upd σ X X' b :
  core σ X → wf b → b.(bit_cnt) = σ.(free_map).(bit_cnt) → X' ⊆ X →
  (∀ s x j, X' !! s = Some x → owns s x j → bit b j = true) →
  (∀ i ino, i ∈ σ.(open_inodes) → σ.(inodes) !! i = Some ino → X' !! ino.(sector) = Some ino.(idata)) →
  core (upd_map (λ _, b) σ) X'.
Proof.
  intros [H1 H2 H3 H4 H5 H6 H7 Hcl H8 H9 H10 H11 Hids H12 H13 H14] Hwf Hcnt Hsub Hm Ht. split; cbn; try done.
  - congruence.
  - intros s x Hx. apply H5. by eapply lookup_weaken.
  - intros s x s' x' j Hx Hx'. apply H7; by eapply lookup_weaken.
  - intros s x Hx. apply (Hcl s). by eapply lookup_weaken.
  - intros i ino Ho Hi. destruct (H10 i ino Ho Hi) as (_ & ? & ?). split_and!; try done; try lia; by apply (Ht i).
Qed.

Lemma write_free_map_run σ X jno :
  core σ X → map_file σ jno → plenty σ →
  ∃ σ', write_free_map σ = Ok (true, σ') ∧ touch σ σ' ∧ σ'.(free_map) = σ.(free_map) ∧ core σ' X ∧
    synced σ' jno ∧ others_kept X σ σ'.
Proof.
  intros HC [(x & Hf & Hx & Ho) Hn Hs Hdeny Hlen] Hp. destruct (co_table _ _ HC _ _ Ho Hx) as (HX & _). rewrite Hs in HX.
  destruct (co_inode _ _ HC _ _ HX) as (_ & _ & Hex & _). destruct (byte_cnt_eq _ (co_map _ _ HC)) as [Hbc Hlt].
  pose proof (words_bytes_zlen σ.(free_map).(bits)) as Hwl. pose proof (co_size _ _ HC). pose proof (co_cnt _ _ HC).
  pose proof (wf_len _ (co_map _ _ HC)).
  unfold write_free_map, bitmap_write. rewrite Hbc, take_ge by lia.
  set (data := words_bytes σ.(free_map).(bits)) in *.
  destruct (inode_write_at_run data Hx Hex (co_next _ _ HC) (zlen data) 0) as (m & d & σ' & Hr & Hd & Hw & _ & Hm); [lia|done|].
  assert (m = zlen data) as -> by (rewrite Hm by done; rewrite Hdeny; cbn [Z.eqb]; lia).
  rewrite Nat2Z.id, take_ge in Hw by lia.
  destruct (core_wrote σ σ' X FREE_MAP_SECTOR jno.(idata) d 0 data HC HX Hd Hw) as [HC' Hoth].
  exists σ'. split_and!; [|by eapply disk_touch; [|apply Hw]| |done| |].
  - rewrite (bind_Ok _ _ σ (zlen data) σ').
    + unfold ret. by rewrite Hwl, Z.eqb_refl.
    + unfold file_write_at. by rewrite (bind_Ok _ _ σ x σ) by (unfold file_at; by rewrite Hf).
  - by destruct Hd as (? & (? & ? & -> & _) & ->).
  - exists σ.(free_map). split; [apply HC|]. destruct Hd as (? & (? & ? & -> & _) & ->). cbn. split_and!; try done.
    rewrite (content_wrote σ.(disk) d jno.(idata) 0 data Hex (Z.le_refl 0)); [|left; lia|done].
    fold data. apply splice_all. pose proof (content_length σ.(disk) jno.(idata)). lia.
  - intros s y Hy Hne. by apply (Hoth s).
Qed.

Lemma on_free_map_run {A} (c : M bitmap A) σ r b :
  c σ.(free_map) = Ok (r, b) → on_free_map c σ = Ok (r, upd_map (λ _, b) σ).
Proof. unfold on_free_map, rbind. by intros ->. Qed.

Lemma touch_upd_map σ b : b.(bit_cnt) = σ.(free_map).(bit_cnt) → touch σ (upd_map (λ _, b) σ).
Proof. intros Hb. exists σ.(disk), b, σ.(next), σ.(answers). by split_and!. Qed.

(** Before the map has a file it is not written. *)
Definition map_ready (σ : fs) (jno : inode) : Prop := σ.(free_map_file) = NULL ∨ map_file σ jno.

Lemma touch_map_ready σ σ' jno : touch σ σ' → map_ready σ jno → map_ready σ' jno.
Proof.
  intros Ht [E|HM]; [left; by destruct Ht as (? & ? & ? & ? & -> & _)|right; by eapply touch_map_file].
Qed.

Lemma free_map_allocate_run σ X jno cnt :
  core σ X → map_ready σ jno → plenty σ → 0 ≤ cnt →
  ∃ r σ', free_map_allocate cnt σ = Ok (r, σ') ∧ touch σ σ' ∧ core σ' X ∧ others_kept X σ σ' ∧
    (map_file σ jno → synced σ jno → synced σ' jno) ∧
    match r with
    | Some s => 0 ≤ s ∧ s + cnt ≤ zlen σ.(disk) ∧ (∀ j, s ≤ j < s + cnt → bit σ.(free_map) j = false) ∧
        ∀ j, 0 ≤ j → bit σ'.(free_map) j = if in_range s cnt j then true else bit σ.(free_map) j
    | None => σ' = σ ∧ ∀ s, 0 ≤ s → s + cnt ≤ zlen σ.(disk) → ¬ all_are σ.(free_map) s cnt false
    end.
Proof.
  intros HC HM Hp Hc. pose proof (co_size _ _ HC). pose proof (co_cnt _ _ HC) as Hcnt.
  destruct (bitmap_scan_and_flip_run σ.(free_map) 0 cnt false (co_map _ _ HC)) as (s & b & Hr & Hff & Hb); [lia..|].
  unfold free_map_allocate. rewrite (bind_Ok _ _ _ _ _ (on_free_map_run _ _ _ _ Hr)).
  unfold bind at 1, get. cbv beta iota. destruct (Z.eqb_spec s BITMAP_ERROR) as [->|Hne]; cbn [negb andb].
  - subst b. exists None, σ. replace (upd_map (λ _, σ.(free_map)) σ) with σ by by destruct σ.
    split_and!; [done|apply touch_refl|done|done|done|done|]. rewrite <- Hcnt.
    destruct Hff as [[_ H']|[? [? _]]]; [exact H'|]. unfold BITMAP_ERROR in *. mlia.
  - destruct Hff as [[? _]|(Hs0 & Hs1 & Hall & _)]; [done|]. destruct Hb as (Hwf & Hbc & Hbits). cbn [negb] in Hbits.
    set (σ1 := upd_map (λ _, b) σ). change (free_map_file σ1) with (free_map_file σ).
    assert (core σ1 X) as HC1.
    { apply (core_map_upd σ X X); [done..| |by intros i ino Ho Hi; apply (co_table _ _ HC i)].
      intros s' x j Hx Hj. destruct (co_inode _ _ HC s' x Hx) as (Hs' & _ & [? ? ? ? ?] & _).
      rewrite Hbits by (destruct Hj as [->|]; lia). rewrite (co_marked _ _ HC s' x j Hx Hj). by destruct (in_range s cnt j). }
    destruct HM as [E|HM].
    { rewrite E. cbn [Z.eqb NULL negb]. rewrite (bind_Ok _ _ σ1 s σ1) by done. exists (Some s), σ1.
      split_and!; [by unfold ret; rewrite (proj2 (Z.eqb_neq _ _) Hne)|by apply touch_upd_map|done|done| |lia|lia|done|done].
      intros [_ Hn _ _ _]. done. }
    rewrite (proj2 (Z.eqb_neq _ _) (mf_null _ _ HM)). cbn [negb].
    assert (map_file σ1 jno) as HM1 by by eapply touch_map_file; [apply touch_upd_map|].
    destruct (write_free_map_run σ1 X jno HC1 HM1) as (σ2 & Hr2 & Ht2 & Hm2 & HC2 & Hsync & Hoth); [done|].
    rewrite (bind_Ok _ _ σ1 s σ2) by (by rewrite (bind_Ok _ _ _ _ _ Hr2)).
    exists (Some s), σ2. split_and!; [by unfold ret; rewrite (proj2 (Z.eqb_neq _ _) Hne)| |done|done|done|lia|lia| |].
    + eapply touch_trans; [by apply touch_upd_map|done].
    + exact Hall.
    + intros j Hj. rewrite Hm2. by apply Hbits.
Qed.

Lemma free_map_release_run σ X X' jno s cnt :
  core σ X → map_file σ jno → plenty σ → 0 ≤ s → 0 ≤ cnt → s + cnt ≤ zlen σ.(disk) → X' ⊆ X →
  all_are σ.(free_map) s cnt true → (∀ s' x j, X' !! s' = Some x → owns s' x j → ¬ s ≤ j < s + cnt) →
  (∀ i ino, i ∈ σ.(open_inodes) → σ.(inodes) !! i = Some ino → X' !! ino.(sector) = Some ino.(idata)) →
  ∃ σ', free_map_release s cnt σ = Ok (tt, σ') ∧ touch σ σ' ∧ core σ' X' ∧ others_kept X' σ σ' ∧ synced σ' jno ∧
    ∀ j, 0 ≤ j → bit σ'.(free_map) j = if in_range s cnt j then false else bit σ.(free_map) j.
Proof.
  intros HC HM Hp Hs Hc Hsc Hsub Hall Hfree Ht. pose proof (co_cnt _ _ HC) as Hcnt.
  destruct (bitmap_all_ok σ.(free_map) s cnt (co_map _ _ HC)) as (r & Hr & Hiff); [lia..|].
  destruct (bitmap_set_multiple_ok σ.(free_map) s cnt false (co_map _ _ HC)) as (b & Hr2 & Hwf & Hbc & Hbits); [lia..|].
  unfold free_map_release. rewrite (bind_Ok _ _ _ _ _ (on_free_map_run _ _ _ _ Hr)).
  replace (upd_map (λ _, σ.(free_map)) σ) with σ by by destruct σ. rewrite bind_assert by by apply Hiff.
  rewrite (bind_Ok _ _ _ _ _ (on_free_map_run _ _ _ _ Hr2)). set (σ1 := upd_map (λ _, b) σ).
  assert (core σ1 X') as HC1.
  { apply (core_map_upd σ X X'); [done..| |done]. intros s' x j Hx Hj. pose proof (lookup_weaken _ _ _ _ Hx Hsub) as HxX.
    destruct (co_inode _ _ HC s' x HxX) as (Hs' & _ & [? ? ? ? ?] & _).
    rewrite Hbits by (destruct Hj as [->|]; lia). rewrite (co_marked _ _ HC s' x j HxX Hj).
    specialize (Hfree s' x j Hx Hj). unfold in_range. destruct (Z.leb_spec s j), (Z.ltb_spec j (s + cnt)); done || lia. }
  assert (map_file σ1 jno) as HM1 by by eapply touch_map_file; [apply touch_upd_map|].
  destruct (write_free_map_run σ1 X' jno HC1 HM1) as (σ2 & Hw & Ht2 & Hm2 & HC2 & Hsync & Hoth); [done|].
  exists σ2. rewrite (bind_Ok _ _ _ _ _ Hw). split_and!; [done| |done..|].
  - eapply touch_trans; [by apply touch_upd_map|done].
  - intros j Hj. rewrite Hm2. by apply Hbits.
Qed.

(** ** Creating an inode *)

Lemma bytes_to_sectors_eq len : 0 ≤ len ≤ 2147483136 → bytes_to_sectors len = data_sectors len.
Proof.
  intros H. unfold bytes_to_sectors, data_sectors, DISK_SECTOR_SIZE. replace (len + (512 - 1)) with (len + 511) by lia.
  rewrite s32_small by mlia. rewrite Z.quot_div_nonneg by lia. apply u32_small. dm_lia.
Qed.

Lemma bytes_to_sectors_big len : 2147483136 < len < 2147483648 → 268435456 < bytes_to_sectors len.
Proof.
  intros H. unfold bytes_to_sectors, DISK_SECTOR_SIZE.
  replace (s32 (len + (512 - 1))) with (len + 511 - W32).
  2:{ unfold s32, u32. replace ((len + (512 - 1)) `mod` W32) with (len + 511) by (symmetry; rewrite Z.mod_small; mlia).
      destruct (Z.ltb_spec (len + 511) 2147483648); lia. }
  unfold u32. mc_unfold. Z.quot_rem_to_equations. Z.div_mod_to_equations. lia.
Qed.

Lemma encode_length x : length (encode_inode x) = 512%nat.
Proof. done. Qed.

Lemma decode_encode x : is_u32 x.(start) → is_s32 x.(length_) → is_u32 x.(imagic) → decode_inode (encode_inode x) = x.
Proof.
  intros Hs Hl Hm. destruct x as [s len m]. cbn [start length_ imagic] in *. unfold decode_inode, encode_inode.
  cbn [start length_ imagic app le32 bytes_words]. rewrite !of_le32_le32 by (done || apply u32_range).
  f_equal. rewrite <- (s32_small len Hl) at 2. unfold s32. by rewrite (u32_small (u32 len)) by apply u32_range.
Qed.

(** The sectors from [st] on, [n] of them, are zeroed. *)
Lemma zero_sectors σ st n :
  0 ≤ st → 0 ≤ n → st + n ≤ zlen σ.(disk) → zlen σ.(disk) ≤ 268435456 →
  ∃ d, for_upto n (λ i, disk_write (u32 (st + i)) (replicate 512 0)) σ = Ok (tt, upd_disk (λ _, d) σ) ∧
    length d = length σ.(disk) ∧
    ∀ j, d !! j = if (st <=? Z.of_nat j) && (Z.of_nat j <? st + n) then Some (replicate 512 0) else σ.(disk) !! j.
Proof.
  intros Hst Hn Hend Hsz.
  destruct (for_upto_ind (λ i σ', ∃ d, σ' = upd_disk (λ _, d) σ ∧ length d = length σ.(disk) ∧
    ∀ j, d !! j = if (st <=? Z.of_nat j) && (Z.of_nat j <? st + i) then Some (replicate 512 0) else σ.(disk) !! j)
    n (λ i, disk_write (u32 (st + i)) (replicate 512 0)) σ) as (σ' & Hr & d & -> & Hl & Hd); [done|..|by exists d].
  - exists σ.(disk). split_and!; [by destruct σ|done|]. intros j.
    destruct (Z.leb_spec st (Z.of_nat j)), (Z.ltb_spec (Z.of_nat j) (st + 0)); cbn [andb]; done || lia.
  - intros i σ' Hi (d & -> & Hl & Hd). eexists. rewrite u32_small by mlia.
    rewrite disk_write_run by (cbn; lia). split; [done|]. exists (<[Z.to_nat (st + i) := replicate 512 0]> d).
    split_and!; [done|by rewrite length_insert|]. intros j. destruct (decide (j = Z.to_nat (st + i))) as [->|Hne].
    + rewrite list_lookup_insert_eq by lia.
      destruct (Z.leb_spec st (Z.of_nat (Z.to_nat (st + i)))), (Z.ltb_spec (Z.of_nat (Z.to_nat (st + i))) (st + (i + 1))); done || lia.
    + rewrite list_lookup_insert_ne by done. rewrite Hd.
      destruct (Z.leb_spec st (Z.of_nat j)), (Z.ltb_spec (Z.of_nat j) (st + i)), (Z.ltb_spec (Z.of_nat j) (st + (i + 1))); cbn [andb]; done || lia.
Qed.

(** A new inode in free sectors. *)
Lemma core_add σ X s x d :
  core σ X → 0 ≤ s < zlen σ.(disk) → 0 ≤ x.(start) → 0 ≤ x.(length_) ≤ 2147483136 →
  x.(start) + data_sectors x.(length_) ≤ zlen σ.(disk) → x.(imagic) = INODE_MAGIC →
  (∀ j, owns s x j → bit σ.(free_map) j = true) →
  (∀ s' x' j, X !! s' = Some x' → owns s' x' j → owns s x j → False) →
  ¬ x.(start) ≤ s < x.(start) + data_sectors x.(length_) → length d = length σ.(disk) →
  (∀ j, d !! j = if (x.(start) <=? Z.of_nat j) && (Z.of_nat j <? x.(start) + data_sectors x.(length_))
                 then Some (replicate 512 0) else <[Z.to_nat s := encode_inode x]> σ.(disk) !! j) →
  let σ' := upd_disk (λ _, d) σ in
  core σ' (<[s := x]> X) ∧ content d x = replicate (Z.to_nat x.(length_)) 0 ∧
  ∀ s' x', X !! s' = Some x' → content d x' = content σ.(disk) x'.
Proof.
  intros HC Hs Hst Hlen Hend Hmag Hmark Hfresh Hself Hl Hd σ'.
  pose proof HC as [H1 H2 H3 H4 H5 H6 H7 Hcl H8 H9 H10 H11 Hids H12 H13 H14].
  assert (∀ s' x' j, X !! s' = Some x' → owns s' x' (Z.of_nat j) → d !! j = σ.(disk) !! j) as Hkeep.
  { intros s' x' j Hx' Hj. rewrite Hd. pose proof (Hfresh s' x' (Z.of_nat j) Hx' Hj) as Hno.
    destruct (Z.leb_spec x.(start) (Z.of_nat j)), (Z.ltb_spec (Z.of_nat j) (x.(start) + data_sectors x.(length_))); cbn [andb];
      try (apply list_lookup_insert_ne; intros <-; apply Hno; left; lia). destruct Hno. by right. }
  assert (Forall (λ b, length b = 512%nat) d) as H512.
  { apply Forall_lookup. intros j b. rewrite Hd. case_match; [by intros [= <-]|].
    intros Hb. eapply (Forall_lookup_1 (λ b, length b = 512%nat)); [|exact Hb]. by apply Forall_insert. }
  assert (extent d x) as Hex by (split; [done|lia|by rewrite Hl|by rewrite Hl|done]).
  assert (∀ s' x', X !! s' = Some x' → extent d x') as HexX.
  { intros s' x' Hx'. destruct (H5 s' x' Hx') as (_ & _ & [? ? ? ? ?] & _). split; try done; by rewrite Hl. }
  assert (X !! s = None) as HsX.
  { destruct (X !! s) as [x'|] eqn:E; [|done]. destruct (Hfresh s x' s E); by left. }
  split_and!.
  - split; cbn; rewrite ?Hl; try done.
    + intros s' x' [[<- <-]|[Hne Hx']]%lookup_insert_Some.
      * split_and!; try done; try lia. rewrite Hd.
        replace ((x.(start) <=? Z.of_nat (Z.to_nat s)) && (Z.of_nat (Z.to_nat s) <? x.(start) + data_sectors x.(length_))) with false.
        { apply list_lookup_insert_eq. lia. }
        destruct (Z.leb_spec x.(start) (Z.of_nat (Z.to_nat s))), (Z.ltb_spec (Z.of_nat (Z.to_nat s)) (x.(start) + data_sectors x.(length_))); done || lia.
      * destruct (H5 s' x' Hx') as (Hs' & Hd' & _ & Hm' & Hself'). split_and!; try done; try lia; [|by apply (HexX s')].
        rewrite (Hkeep s' x') by (done || (left; lia)). done.
    + intros s' x' j [[<- <-]|[_ Hx']]%lookup_insert_Some; [by apply Hmark|by apply H6].
    + intros s1 x1 s2 x2 j [[<- <-]|[_ Hx1]]%lookup_insert_Some [[<- <-]|[_ Hx2]]%lookup_insert_Some Ho1 Ho2.
      * done.
      * by destruct (Hfresh s2 x2 j).
      * by destruct (Hfresh s1 x1 j).
      * by apply (H7 s1 x1 s2 x2 j).
    + intros s' x' [[<- <-]|[_ Hx']]%lookup_insert_Some; [lia|by apply (Hcl s')].
    + intros i ino Ho Hi. destruct (H10 i ino Ho Hi) as (HX & ? & ?). split_and!; try done; try lia.
      rewrite lookup_insert_ne; [done|]. intros ->. by rewrite HsX in HX.
  - apply content_eq; [done|rewrite length_replicate; lia|]. intros p Hp. rewrite lookup_replicate_2 by lia.
    unfold byte. rewrite Hd. unfold data_sectors. replace (_ && _) with true.
    { transitivity (replicate 512 0 !! Z.to_nat (p `mod` 512)); [done|]. apply lookup_replicate_2. dm_lia. }
    symmetry. apply andb_true_iff. rewrite Z.leb_le, Z.ltb_lt. dm_lia.
  - intros s' x' Hx'. destruct (H5 s' x' Hx') as (_ & _ & He & _). unfold content. apply list_fmap_ext.
    intros k p [-> Hp]%lookup_seqZ. f_equal. unfold byte. pose proof (ex_start _ _ He).
    rewrite (Hkeep s' x'); [done|done|]. right. unfold data_sectors. dm_lia.
Qed.

Lemma core_heap σ σ' X : heap_only σ σ' → core σ X → core σ' X.
Proof.
  intros (n & l & -> & Hn & _) [H1 H2 H3 H4 H5 H6 H7 Hcl H8 H9 H10 H11 Hids H12 H13 H14]. split; cbn; try done.
  - intros i ino Hi. specialize (Hids i ino Hi). lia.
  - lia.
  - intros d x Hd. specialize (H13 d x Hd). lia.
  - intros f x Hf. specialize (H14 f x Hf). lia.
Qed.

Lemma map_inode σ X jno : core σ X → map_file σ jno → X !! FREE_MAP_SECTOR = Some jno.(idata).
Proof.
  intros HC [(x & _ & Hx & Ho) _ Hs _ _]. destruct (co_table _ _ HC _ _ Ho Hx) as (HX & _). by rewrite Hs in HX.
Qed.

Definition marks_kept (σ σ' : fs) : Prop := ∀ j, 0 ≤ j → bit σ.(free_map) j = true → bit σ'.(free_map) j = true.

(** [inode_create] makes a file of zeros in an allocated sector, or leaves the inodes. *)
Lemma inode_create_run σ X jno s len :
  core σ X → map_ready σ jno → plenty σ → 0 ≤ s < zlen σ.(disk) → 0 ≤ len < 2147483648 →
  bit σ.(free_map) s = true → (∀ s' x', X !! s' = Some x' → ¬ owns s' x' s) →
  ∃ ok σ', inode_create s len σ = Ok (ok, σ') ∧ touch σ σ' ∧ (map_file σ jno → synced σ jno → synced σ' jno) ∧
    others_kept X σ σ' ∧ marks_kept σ σ' ∧
    if ok then ∃ x, x.(length_) = len ∧ core σ' (<[s := x]> X) ∧ content σ'.(disk) x = replicate (Z.to_nat len) 0 ∧
      (∀ j, x.(start) ≤ j < x.(start) + data_sectors len → bit σ.(free_map) j = false) ∧
      ∀ j, 0 ≤ j → bit σ'.(free_map) j = if in_range x.(start) (data_sectors len) j then true else bit σ.(free_map) j
    else core σ' X ∧ ∀ st, 0 ≤ st → st + bytes_to_sectors len ≤ zlen σ.(disk) → ¬ all_are σ.(free_map) st (bytes_to_sectors len) false.
Proof.
  intros HC HM Hp Hs Hlen Hbit Hfresh. unfold inode_create. rewrite bind_assert by lia.
  destruct (alloc_run σ) as (p & σ1 & Hr1 & Hh1 & _ & Hp1). rewrite (bind_Ok _ _ _ _ _ Hr1).
  destruct (Hp1 Hp) as [-> _]. pose proof (co_next _ _ HC). rewrite (proj2 (Z.eqb_neq _ NULL)) by mlia.
  pose proof (core_heap _ _ _ Hh1 HC) as HC1. pose proof (touch_map_ready _ _ _ (heap_touch _ _ Hh1) HM) as HM1.
  pose proof (heap_touch _ _ Hh1) as Ht1. assert (plenty σ1) as Hpl1 by (by destruct Hh1 as (? & ? & -> & _ & ?); auto).
  assert (σ1.(disk) = σ.(disk) ∧ σ1.(free_map) = σ.(free_map)) as [Ed1 Em1] by by destruct Hh1 as (? & ? & -> & _).
  assert (0 ≤ bytes_to_sectors len) by apply u32_range.
  destruct (free_map_allocate_run σ1 X jno (bytes_to_sectors len) HC1 HM1 Hpl1) as (r & σ2 & Hr2 & Ht2 & HC2 & Hoth & Hsync & Hres); [done|].
  rewrite (bind_Ok _ _ _ _ _ Hr2). rewrite Ed1, Em1 in Hres. unfold others_kept in Hoth. rewrite Ed1 in Hoth.
  assert (synced σ jno → synced σ1 jno) as Hsync1 by (unfold synced; by rewrite Ed1, Em1).
  destruct r as [st|].
  2:{ destruct Hres as [-> Hno]. exists false, σ1. split_and!; [done|done|done| | |done|done].
      - intros s' x' _ _. by rewrite Ed1.
      - intros j _. by rewrite Em1. }
  destruct Hres as (Hst0 & Hst1 & Hclear & Hbits). pose proof (co_size _ _ HC).
  assert (len ≤ 2147483136) as Hlen' by (destruct (decide (len ≤ 2147483136)); [done|pose proof (bytes_to_sectors_big len); lia]).
  rewrite (bytes_to_sectors_eq len) in * by lia. set (n := data_sectors len) in *. set (x := InodeDisk st len INODE_MAGIC).
  assert (zlen σ2.(disk) = zlen σ.(disk)) as Ed2.
  { destruct Ht2 as (? & ? & ? & ? & -> & Hl & _). rewrite Ed1 in Hl. cbn. lia. }
  rewrite (bind_Ok _ _ _ _ _ (disk_write_run σ2 s (encode_inode x) ltac:(lia) ltac:(lia))).
  set (σ3 := upd_disk _ σ2).
  assert (zlen σ3.(disk) = zlen σ.(disk)) as Ed3 by (cbn; rewrite length_insert; lia).
  assert (0 ≤ n) by (subst n; unfold data_sectors; dm_lia).
  destruct (zero_sectors σ3 st n) as (d & Hz & Hdl & Hdj); [lia..|].
  assert ((if 0 <? n then for_upto n (λ i, disk_write (u32 (st + i)) (replicate 512 0)) else ret tt) σ3 =
    Ok (tt, upd_disk (λ _, d) σ2)) as Hz'.
  { destruct (Z.ltb_spec 0 n); [exact Hz|]. unfold ret. do 2 f_equal. unfold σ3, upd_disk. cbn. f_equal.
    apply list_eq. intros j. rewrite Hdj. replace (_ && _) with false; [done|].
    destruct (Z.leb_spec st (Z.of_nat j)), (Z.ltb_spec (Z.of_nat j) (st + n)); cbn; done || lia. }
  rewrite (bind_Ok _ _ _ _ _ Hz').
  assert (¬ st ≤ s < st + n) as Hself by (intros Hin; rewrite Hclear in Hbit by done; done).
  destruct (core_add σ2 X s x d HC2) as (HC3 & Hzero & Hkeep); cbn [start length_ imagic x]; try done; fold n; try lia.
  { unfold owns. cbn [start length_ x]. fold n. intros j [->|Hj]; rewrite Hbits by lia; unfold in_range.
    - rewrite Hbit. by destruct ((st <=? s) && (s <? st + n)).
    - by rewrite (proj2 (Z.leb_le st j)), (proj2 (Z.ltb_lt j (st + n))) by lia. }
  { intros s' x' j Hx' Hj [->|Hj']; [by apply (Hfresh s' x')|]. cbn [start length_] in Hj'. fold n in Hj'.
    pose proof (co_marked _ _ HC s' x' j Hx' Hj) as Hm. rewrite Hclear in Hm by done. done. }
  exists true, (upd_disk (λ _, d) σ2). split_and!; [done|..].
  - eapply touch_trans; [exact Ht1|]. eapply touch_trans; [exact Ht2|]. exists d, σ2.(free_map), σ2.(next), σ2.(answers).
    split_and!; try done. rewrite Hdl. cbn. by rewrite length_insert.
  - intros HMf Hsy. unfold synced. cbn. rewrite (Hkeep FREE_MAP_SECTOR jno.(idata)) by by apply (map_inode σ X jno).
    apply Hsync; [by apply (touch_map_file _ _ _ Ht1)|by apply Hsync1].
  - intros s' x' Hx' Hne. cbn. rewrite (Hkeep s' x' Hx'). by apply (Hoth s').
  - intros j Hj Hb. cbn. rewrite Hbits, Hb by done. by destruct (in_range st n j).
  - exists x. split_and!; [done|exact HC3|exact Hzero|exact Hclear|exact Hbits].
Qed.

(** ** Opening and closing inodes *)

Lemma find_open_run σ X s l :
  core σ X → (∀ i, i ∈ l → i ∈ σ.(open_inodes)) →
  ∃ r, find_open l s σ = Ok (r, σ) ∧
    match r with
    | Some i => i ∈ l ∧ ∃ ino, σ.(inodes) !! i = Some ino ∧ ino.(sector) = s
    | None => ∀ i ino, i ∈ l → σ.(inodes) !! i = Some ino → ino.(sector) ≠ s
    end.
Proof.
  intros HC. induction l as [|i l IH]; intros Hl; cbn [find_open].
  { exists None. split; [done|]. by intros i ino ?%elem_of_nil. }
  destruct (co_open _ _ HC i) as [ino Hi]; [apply Hl; left|].
  rewrite (bind_Ok _ _ σ ino σ) by (unfold inode_at; by rewrite Hi).
  destruct (Z.eqb_spec ino.(sector) s) as [E|E]; [exists (Some i); split_and!; [done|left|by exists ino]|].
  destruct IH as (r & Hr & Hres); [intros j Hj; apply Hl; by right|]. exists r. split; [done|].
  destruct r as [j|]; [destruct Hres; split; [by right|done]|]. intros j jno [-> |Hj]%elem_of_cons Hjno; [congruence|by apply (Hres j)].
Qed.

Definition more (ino : inode) : inode :=
  Inode ino.(sector) (ino.(open_cnt) + 1) ino.(removed) ino.(deny_write_cnt) ino.(idata).
Definition less (ino : inode) : inode :=
  Inode ino.(sector) (ino.(open_cnt) - 1) ino.(removed) ino.(deny_write_cnt) ino.(idata).

(** [inode_open] counts one opener more or makes a table entry. *)
Inductive opened (s : Z) (x : inode_disk) (σ : fs) (i : Z) : fs → Prop :=
  | opened_again ino :
      i ∈ σ.(open_inodes) → σ.(inodes) !! i = Some ino → ino.(sector) = s →
      opened s x σ i (upd_inodes <[i := more ino]> σ)
  | opened_new n l :
      (∀ j jno, j ∈ σ.(open_inodes) → σ.(inodes) !! j = Some jno → jno.(sector) ≠ s) → σ.(next) ≤ i < n → (plenty σ → false ∉ l) →
      opened s x σ i (upd_inodes <[i := Inode s 1 false 0 x]> (upd_open (cons i) (upd_heap n l σ))).

(** No inode is about to run out of its open counter. *)
Definition few_openers (σ : fs) : Prop := ∀ i ino, i ∈ σ.(open_inodes) → σ.(inodes) !! i = Some ino → ino.(open_cnt) < 2147483647.

(** The same for the inode in one sector. *)
Definition few_of (s : Z) (σ : fs) : Prop :=
  ∀ i ino, i ∈ σ.(open_inodes) → σ.(inodes) !! i = Some ino → ino.(sector) = s → ino.(open_cnt) < 2147483647.

Lemma few_openers_of s σ : few_openers σ → few_of s σ.
Proof. intros H i ino Ho Hi _. by apply (H i). Qed.

Lemma inode_open_run σ X s x :
  core σ X → X !! s = Some x → plenty σ → few_of s σ →
  ∃ i σ', inode_open s σ = Ok (i, σ') ∧ opened s x σ i σ'.
Proof.
  intros HC Hx Hp Hfew. unfold inode_open, bind at 1, get. cbv beta iota.
  destruct (find_open_run σ X s σ.(open_inodes) HC) as (r & Hr & Hres); [done|]. rewrite (bind_Ok _ _ _ _ _ Hr).
  destruct r as [i|].
  - destruct Hres as (Ho & ino & Hi & Hs). destruct (co_table _ _ HC _ _ Ho Hi) as (_ & Hcnt & _).
    pose proof (co_ids _ _ HC _ _ Hi) as Hi0. exists i, (upd_inodes <[i := more ino]> σ). split; [|by apply opened_again]. unfold inode_reopen.
    rewrite (proj2 (Z.eqb_neq i NULL)) by mlia. rewrite (bind_Ok _ _ σ ino σ) by (unfold inode_at; by rewrite Hi).
    specialize (Hfew i ino Ho Hi Hs). unfold set_inode, modify, bind, ret. rewrite s32_small by mlia. done.
  - destruct (alloc_run σ) as (p & σ1 & Hr1 & (n & l & -> & Hn & Hp1) & _ & Hp2). rewrite (bind_Ok _ _ _ _ _ Hr1).
    destruct (Hp2 Hp) as [-> Hnx]. cbn in Hnx. pose proof (co_next _ _ HC). rewrite (proj2 (Z.eqb_neq _ NULL)) by mlia.
    destruct (co_inode _ _ HC s x Hx) as (Hs & Hd & He & Hm & _). pose proof (co_size _ _ HC).
    unfold bind at 1, modify at 1. cbv beta iota.
    rewrite (bind_Ok _ _ _ _ _ (disk_read_run (upd_open (cons σ.(next)) (upd_heap n l σ)) s _ Hs ltac:(done) Hd)).
    rewrite decode_encode.
    + eexists _, _. split; [reflexivity|]. apply opened_new; [|lia|exact Hp1].
      intros j jno Ho Hj. by apply (Hres j).
    + destruct He as [? ? ? ? _]. unfold data_sectors in *. mc_unfold. dm_lia.
    + destruct He. mlia.
    + by rewrite Hm.
Qed.

(** A table entry can change its counters and its flag. *)
Lemma core_set σ X i ino ino' :
  core σ X → i ∈ σ.(open_inodes) → σ.(inodes) !! i = Some ino → ino'.(sector) = ino.(sector) → ino'.(idata) = ino.(idata) →
  0 < ino'.(open_cnt) < 2147483648 → 0 ≤ ino'.(deny_write_cnt) → core (upd_inodes <[i := ino']> σ) X.
Proof.
  intros [H1 H2 H3 H4 H5 H6 H7 Hcl H8 H9 H10 H11 Hids H12 H13 H14] Ho Hi Es Ex Hc Hd. destruct (H10 i ino Ho Hi) as (HX & _).
  split; cbn; try done.
  - intros j Hj. destruct (decide (j = i)) as [->|]; [by rewrite lookup_insert_eq|rewrite lookup_insert_ne by done; by apply H8].
  - intros j jno Hj [[<- <-]|[_ Hj']]%lookup_insert_Some; [|by apply (H10 j)]. rewrite Es, Ex. done.
  - intros j1 jno1 j2 jno2 Ho1 Ho2 [[<- <-]|[? Hj1]]%lookup_insert_Some [[<- <-]|[? Hj2]]%lookup_insert_Some; rewrite ?Es; intros E.
    + done.
    + by apply (H11 i ino j2 jno2).
    + by apply (H11 j1 jno1 i ino).
    + by apply (H11 j1 jno1 j2 jno2).
  - intros j jno [[<- <-]|[_ Hj]]%lookup_insert_Some; [by apply (Hids i ino)|by apply (Hids j jno)].
Qed.

(** Under [opened] everything but the table entry of [i] stays. *)
Lemma opened_facts s x σ i σ' X :
  core σ X → X !! s = Some x → few_of s σ → opened s x σ i σ' →
  core σ' X ∧ i ≠ NULL ∧ (plenty σ → plenty σ') ∧ σ'.(disk) = σ.(disk) ∧ σ'.(free_map) = σ.(free_map) ∧
  σ'.(files) = σ.(files) ∧ σ'.(dirs) = σ.(dirs) ∧ σ'.(free_map_file) = σ.(free_map_file) ∧ σ.(next) ≤ σ'.(next) ∧
  (∃ ino, σ'.(inodes) !! i = Some ino ∧ ino.(sector) = s ∧ ino.(idata) = x) ∧
  (∀ j, j ≠ i → σ'.(inodes) !! j = σ.(inodes) !! j).
Proof.
  intros HC Hx Hfew Ho. pose proof HC as [H1 H2 H3 H4 H5 H6 H7 Hcl H8 H9 H10 H11 Hids H12 H13 H14].
  destruct Ho as [ino Ho Hi Hs|n l Hno Hn Hpl].
  - destruct (H10 i ino Ho Hi) as (HX & Hc & Hdn). specialize (Hfew i ino Ho Hi Hs). pose proof (Hids i ino Hi) as Hi0.
    assert (ino.(idata) = x) as Hid by congruence.
    split_and!; cbn; try done; [|mlia| |by intros j Hj; rewrite lookup_insert_ne].
    + apply (core_set _ _ _ ino); try done; cbn; lia.
    + exists (more ino). by rewrite lookup_insert_eq.
  - assert (σ.(inodes) !! i = None) as Hi.
    { destruct (σ.(inodes) !! i) as [ino|] eqn:E; [|done]. specialize (Hids i ino E). lia. }
    assert (i ∉ σ.(open_inodes)) as Hio by (intros Hio; destruct (H8 i Hio); congruence).
    split_and!; cbn; try done; [|mlia|lia| |by intros j Hj; rewrite lookup_insert_ne].
    2:{ eexists. by rewrite lookup_insert_eq. }
    split; cbn; try done.
    + intros j [-> |Hj]%elem_of_cons; [by rewrite lookup_insert_eq|]. rewrite lookup_insert_ne by congruence. by apply H8.
    + by apply NoDup_cons.
    + intros j jno Hj [[<- <-]|[? Hj']]%lookup_insert_Some; [cbn; split_and!; try done; lia|].
      apply elem_of_cons in Hj as [->|Hj]; [done|]. by apply (H10 j).
    + intros j1 jno1 j2 jno2 Ho1 Ho2 [[<- <-]|[? Hj1]]%lookup_insert_Some [[<- <-]|[? Hj2]]%lookup_insert_Some; cbn; intros E.
      * done.
      * apply elem_of_cons in Ho2 as [|Ho2]; [done|]. by destruct (Hno j2 jno2 Ho2 Hj2).
      * apply elem_of_cons in Ho1 as [|Ho1]; [done|]. by destruct (Hno j1 jno1 Ho1 Hj1).
      * apply elem_of_cons in Ho1 as [|Ho1]; [done|]. apply elem_of_cons in Ho2 as [|Ho2]; [done|].
        by apply (H11 j1 jno1 j2 jno2).
    + intros j jno [[<- <-]|[_ Hj]]%lookup_insert_Some; [lia|]. specialize (Hids j jno Hj). lia.
    + lia.
    + intros d y Hd. specialize (H13 d y Hd). lia.
    + intros f y Hf. specialize (H14 f y Hf). lia.
Qed.

(** The entry of [i] leaves the table. *)
Definition drop_inode (i : Z) (σ : fs) : fs := upd_inodes (delete i) (upd_open (filter (λ j, j ≠ i)) σ).

Lemma inode_close_again σ X i ino :
  core σ X → i ∈ σ.(open_inodes) → σ.(inodes) !! i = Some ino → 1 < ino.(open_cnt) →
  inode_close i σ = Ok (tt, upd_inodes <[i := less ino]> σ).
Proof.
  intros HC Ho Hi Hc. destruct (co_table _ _ HC _ _ Ho Hi) as (_ & Hcnt & _). pose proof (co_ids _ _ HC _ _ Hi).
  unfold inode_close. rewrite (proj2 (Z.eqb_neq i NULL)) by mlia.
  rewrite (bind_Ok _ _ σ ino σ) by (unfold inode_at; by rewrite Hi).
  rewrite s32_small by mlia. unfold set_inode, modify, bind at 1. cbv beta iota.
  by rewrite (proj2 (Z.eqb_neq _ 0)) by lia.
Qed.

Lemma inode_close_last σ X i ino :
  core σ X → σ.(inodes) !! i = Some ino → ino.(open_cnt) = 1 → ino.(removed) = false →
  inode_close i σ = Ok (tt, drop_inode i σ).
Proof.
  intros HC Hi Hc Hr. pose proof (co_ids _ _ HC _ _ Hi). unfold inode_close.
  rewrite (proj2 (Z.eqb_neq i NULL)) by mlia. rewrite (bind_Ok _ _ σ ino σ) by (unfold inode_at; by rewrite Hi).
  rewrite Hc, Hr. change (s32 (1 - 1)) with 0. unfold set_inode, modify, bind, ret. cbn.
  unfold drop_inode, upd_inodes, upd_open. cbn. by rewrite delete_insert_eq.
Qed.

(** The invariant does not mind entries that are not in the list. *)
Lemma core_entry σ X i ino :
  core σ X → i ∉ σ.(open_inodes) → 0 < i < σ.(next) → core (upd_inodes <[i := ino]> σ) X.
Proof.
  intros [H1 H2 H3 H4 H5 H6 H7 Hcl H8 H9 H10 H11 Hids H12 H13 H14] Hi Hn. split; cbn; try done.
  - intros j Hj. rewrite lookup_insert_ne by congruence. by apply H8.
  - intros j jno Hj. rewrite lookup_insert_ne by congruence. by apply H10.
  - intros j1 jno1 j2 jno2 Ho1 Ho2. rewrite !lookup_insert_ne by congruence. by apply H11.
  - intros j jno [[<- <-]|[_ Hj]]%lookup_insert_Some; [done|by apply (Hids j jno)].
Qed.

Lemma core_drop σ X i : core σ X → core (drop_inode i σ) X.
Proof.
  intros [H1 H2 H3 H4 H5 H6 H7 Hcl H8 H9 H10 H11 Hids H12 H13 H14]. split; cbn; try done.
  - intros j [Hne Hj]%list_elem_of_filter. rewrite lookup_delete_ne by done. by apply H8.
  - by apply NoDup_filter.
  - intros j jno [Hne Hj]%list_elem_of_filter [_ Hj']%lookup_delete_Some. by apply (H10 j).
  - intros j1 jno1 j2 jno2 [_ Ho1]%list_elem_of_filter [_ Ho2]%list_elem_of_filter
      [_ Hj1]%lookup_delete_Some [_ Hj2]%lookup_delete_Some. by apply H11.
  - intros j jno [_ Hj]%lookup_delete_Some. by apply (Hids j jno).
Qed.

Lemma core_less σ X i ino :
  core σ X → i ∈ σ.(open_inodes) → σ.(inodes) !! i = Some ino → 1 < ino.(open_cnt) →
  core (upd_inodes <[i := less ino]> σ) X.
Proof.
  intros HC Ho Hi Hc. destruct (co_table _ _ HC i ino Ho Hi) as (_ & ? & ?). apply (core_set _ _ _ ino); try done; cbn; lia.
Qed.

Lemma core_unentry σ X i : core σ X → i ∉ σ.(open_inodes) → core (upd_inodes (delete i) σ) X.
Proof.
  intros [H1 H2 H3 H4 H5 H6 H7 Hcl H8 H9 H10 H11 Hids H12 H13 H14] Hi. split; cbn; try done.
  - intros j Hj. rewrite lookup_delete_ne by congruence. by apply H8.
  - intros j jno Hj. rewrite lookup_delete_ne by congruence. by apply H10.
  - intros j1 jno1 j2 jno2 Ho1 Ho2. rewrite !lookup_delete_ne by congruence. by apply H11.
  - intros j jno [_ Hj]%lookup_delete_Some. by apply (Hids j jno).
Qed.

(** Closing the last opener of a removed inode frees its sectors. *)
Lemma inode_close_removed σ X jno i ino :
  core σ X → map_file σ jno → plenty σ → i ∈ σ.(open_inodes) → σ.(inodes) !! i = Some ino →
  ino.(open_cnt) = 1 → ino.(removed) = true → ino.(sector) ≠ FREE_MAP_SECTOR →
  ∃ σ', inode_close i σ = Ok (tt, σ') ∧ touch (drop_inode i σ) σ' ∧ core σ' (delete ino.(sector) X) ∧
    map_file σ' jno ∧ synced σ' jno ∧ others_kept (delete ino.(sector) X) σ σ' ∧
    ∀ j, 0 ≤ j → bit σ'.(free_map) j = true ↔ bit σ.(free_map) j = true ∧ ¬ owns ino.(sector) ino.(idata) j.
Proof.
  intros HC HM Hp Ho Hi Hc Hr Hs0. destruct (co_table _ _ HC _ _ Ho Hi) as (HX & _). pose proof (co_ids _ _ HC _ _ Hi) as Hi0.
  destruct (co_inode _ _ HC _ _ HX) as (Hs & _ & [Hst Hlen Hend Hsz _] & _ & Hself).
  set (s := ino.(sector)) in *. set (x := ino.(idata)) in *. set (ns := data_sectors x.(length_)) in *.
  pose proof (co_len _ _ HC _ _ HX) as Hlen'. assert (0 ≤ ns) as Hns by (subst ns; unfold data_sectors in *; dm_lia).
  assert (i ∉ (drop_inode i σ).(open_inodes)) as Hni by (cbn; rewrite list_elem_of_filter; tauto).
  set (σ1 := upd_inodes <[i := less ino]> (drop_inode i σ)).
  assert (core σ1 X) as HC1 by (apply core_entry; [by apply core_drop|done|done]).
  assert (map_file σ1 jno) as HM1.
  { destruct HM as [(y & Hf & Hy & Hyo) Hn0 Hjs Hjd Hjl].
    assert (y.(finode) ≠ i) by (intros E; rewrite E, Hi in Hy; injection Hy as <-; done).
    split; cbn; try done. exists y. rewrite lookup_insert_ne, lookup_delete_ne, list_elem_of_filter by done. done. }
  assert (∀ s' x' j, delete s X !! s' = Some x' → owns s' x' j → owns s x j → False) as Hfree.
  { intros s' x' j [Hne Hx']%lookup_delete_Some Hj Hj'. apply Hne. by apply (co_apart _ _ HC s x s' x' j). }
  assert (∀ j y, j ∈ σ1.(open_inodes) → σ1.(inodes) !! j = Some y → delete s X !! y.(sector) = Some y.(idata)) as Htab.
  { intros j y Hj Hy. cbn in Hj, Hy. apply list_elem_of_filter in Hj as [Hji Hj].
    rewrite lookup_insert_ne, lookup_delete_ne in Hy by done. rewrite lookup_delete_ne; [by apply (co_table _ _ HC j)|].
    intros E. apply Hji. by apply (co_one _ _ HC j y i ino). }
  destruct (free_map_release_run σ1 X (delete s X) jno s 1 HC1 HM1 Hp) as (σ2 & Hr2 & Ht2 & HC2 & Hk2 & _ & Hb2);
    [lia..|cbn; lia|apply delete_subseteq| | |done|].
  { intros j Hj. replace j with s by lia. apply (co_marked _ _ HC s x); [done|by left]. }
  { intros s' x' j Hx' Hj Hin. apply (Hfree s' x' j Hx' Hj). left. lia. }
  pose proof (touch_map_file _ _ _ Ht2 HM1) as HM2.
  assert (zlen σ2.(disk) = zlen σ.(disk) ∧ σ2.(open_inodes) = σ1.(open_inodes) ∧ σ2.(inodes) = σ1.(inodes) ∧ plenty σ2) as (Ed2 & Eo2 & Ei2 & Hp2).
  { destruct Ht2 as (? & ? & ? & ? & -> & Hl & _ & _ & Hp'). cbn in *. split_and!; [lia|done|done|by apply Hp']. }
  destruct (free_map_release_run σ2 (delete s X) (delete s X) jno x.(start) ns HC2 HM2 Hp2) as (σ3 & Hr3 & Ht3 & HC3 & Hk3 & Hsy3 & Hb3);
    [lia|lia|lia|done| | |by rewrite Eo2, Ei2|].
  { intros j Hj. rewrite Hb2 by lia. unfold in_range. destruct (Z.leb_spec s j), (Z.ltb_spec j (s + 1)); cbn [andb]; try lia;
      apply (co_marked _ _ HC s x); by try right. }
  { intros s' x' j Hx' Hj Hin. apply (Hfree s' x' j Hx' Hj). by right. }
  assert (i ∉ σ3.(open_inodes)) as Hni3 by by destruct Ht3 as (? & ? & ? & ? & -> & _); cbn; rewrite Eo2.
  exists (upd_inodes (delete i) σ3). split_and!.
  - unfold inode_close. rewrite (proj2 (Z.eqb_neq i NULL)) by mlia.
    rewrite (bind_Ok _ _ σ ino σ) by (unfold inode_at; by rewrite Hi). rewrite Hc, Hr. change (s32 (1 - 1)) with 0.
    unfold set_inode, modify. unfold bind at 1. cbv beta iota. cbn [Z.eqb]. unfold bind at 1. cbv beta iota.
    replace (upd_open _ _) with σ1.
    2:{ unfold σ1, drop_inode, upd_inodes, upd_open, less. cbn. f_equal. rewrite insert_delete_eq, Hc, Hr. done. }
    rewrite (bind_Ok _ _ σ1 tt σ3); [done|]. rewrite (bind_Ok _ _ _ _ _ Hr2).
    fold x. rewrite bytes_to_sectors_eq by lia. exact Hr3.
  - destruct (touch_trans _ _ _ Ht2 Ht3) as (d & b & n & l & -> & Hd & Hb & Hn & Hpl). exists d, b, n, l.
    split_and!; try done. unfold upd_inodes, upd_disk, upd_map, upd_heap, σ1, drop_inode, upd_open. cbn. f_equal.
    rewrite delete_insert_eq. by rewrite delete_delete_eq.
  - by apply core_unentry.
  - pose proof (touch_map_file _ _ _ Ht3 HM2) as [(y & Hf & Hy & Hyo) Hn0 Hjs Hjd Hjl].
    assert (y.(finode) ≠ i) by congruence. split; cbn; try done. exists y. by rewrite lookup_delete_ne.
  - exact Hsy3.
  - intros s' x' Hx' Hne. cbn. rewrite (Hk3 s' x' Hx' Hne). by apply (Hk2 s').
  - intros j Hj. cbn. rewrite Hb3, Hb2 by done. unfold in_range, owns. cbn [free_map].
    destruct (Z.leb_spec x.(start) j), (Z.ltb_spec j (x.(start) + ns)), (Z.leb_spec s j), (Z.ltb_spec j (s + 1)); cbn [andb];
      (split; [intros E; first [done|split; [done|lia]]|intros [E Hno]; first [done|exfalso; apply Hno; lia]]).
Qed.

(** ** The root directory, opened for the time of a call *)

Lemma core_dirs σ X f : core σ X → (∀ d x, f σ.(dirs) !! d = Some x → d < σ.(next)) → core (upd_dirs f σ) X.
Proof. intros [] Hd. by split. Qed.

(** [d] is a new handle on the inode [i] of the root. *)
Record rooted (rx : inode_disk) (σ : fs) (d i : Z) (σ' : fs) : Prop := {
  ro_opened : ∃ σ1 n l, opened ROOT_DIR_SECTOR rx σ i σ1 ∧ σ' = upd_dirs <[d := Dir i 0]> (upd_heap n l σ1) ∧
    σ1.(next) ≤ d < n ∧ (plenty σ1 → false ∉ l);
}.

Lemma dir_open_root_run σ X rx :
  core σ X → X !! ROOT_DIR_SECTOR = Some rx → plenty σ → few_openers σ →
  ∃ d i σ', dir_open_root σ = Ok (d, σ') ∧ rooted rx σ d i σ'.
Proof.
  intros HC Hx Hp Hfew%(few_openers_of ROOT_DIR_SECTOR). destruct (inode_open_run σ X _ rx HC Hx Hp Hfew) as (i & σ1 & Hr & Ho).
  destruct (opened_facts _ _ _ _ _ X HC Hx Hfew Ho) as (HC1 & Hi0 & Hp1 & _).
  destruct (alloc_run σ1) as (p & σ2 & Hr2 & (n & l & -> & Hn & Hp2) & _ & Hp3). destruct (Hp3 (Hp1 Hp)) as [-> Hnx].
  cbn in Hnx. pose proof (co_next _ _ HC1). exists σ1.(next), i. eexists. split.
  - unfold dir_open_root. rewrite (bind_Ok _ _ _ _ _ Hr). unfold dir_open. rewrite (bind_Ok _ _ _ _ _ Hr2).
    rewrite (proj2 (Z.eqb_neq i NULL)), (proj2 (Z.eqb_neq _ NULL)) by (done || mlia). reflexivity.
  - split. exists σ1, n, l. split_and!; [done|done|lia|lia|exact Hp2].
Qed.

Lemma rooted_facts rx σ d i σ' X :
  core σ X → X !! ROOT_DIR_SECTOR = Some rx → few_openers σ → rooted rx σ d i σ' →
  core σ' X ∧ (plenty σ → plenty σ') ∧ σ'.(disk) = σ.(disk) ∧ σ'.(free_map) = σ.(free_map) ∧
  σ'.(files) = σ.(files) ∧ σ'.(free_map_file) = σ.(free_map_file) ∧ d ≠ NULL ∧ σ'.(dirs) = <[d := Dir i 0]> σ.(dirs) ∧
  σ.(dirs) !! d = None ∧ i ∈ σ'.(open_inodes) ∧
  (∃ ino, σ'.(inodes) !! i = Some ino ∧ ino.(sector) = ROOT_DIR_SECTOR ∧ ino.(idata) = rx) ∧
  (∀ j, j ≠ i → σ'.(inodes) !! j = σ.(inodes) !! j) ∧ (∀ j, j ∈ σ.(open_inodes) → j ∈ σ'.(open_inodes)).
Proof.
  intros HC Hx Hfew%(few_openers_of ROOT_DIR_SECTOR) [(σ1 & n & l & Ho & -> & Hd & Hl)].
  destruct (opened_facts _ _ _ _ _ X HC Hx Hfew Ho) as (HC1 & Hi0 & Hp1 & Ed & Em & Ef & Edi & Eff & Hnx & Hino & Hj).
  pose proof (co_next _ _ HC). cbn.
  assert (σ.(dirs) !! d = None) as Hdn.
  { destruct (σ.(dirs) !! d) as [y|] eqn:E; [|done]. pose proof (co_dirs _ _ HC d y E). lia. }
  split_and!; try done; [|by intros; apply Hl, Hp1|mlia|by rewrite Edi| |by destruct Ho; cbn; [|by intros j; right]].
  - apply core_dirs.
    + apply (core_heap σ1); [|done]. exists n, l. split_and!; [done|lia|exact Hl].
    + cbn. intros d' y [[<- <-]|[_ Hy]]%lookup_insert_Some; [lia|]. pose proof (co_dirs _ _ HC1 d' y Hy). lia.
  - destruct Ho; cbn; [done|left].
Qed.

(** The tables after the handle is closed again. *)
Definition unroot (d i : Z) (ino : inode) (σ : fs) : fs :=
  upd_dirs (delete d) (if ino.(open_cnt) =? 1 then drop_inode i σ else upd_inodes <[i := less ino]> σ).

Lemma dir_close_run σ X d i ino :
  core σ X → d ≠ NULL → σ.(dirs) !! d = Some (Dir i 0) → i ∈ σ.(open_inodes) → σ.(inodes) !! i = Some ino →
  ino.(removed) = false → dir_close d σ = Ok (tt, unroot d i ino σ) ∧ core (unroot d i ino σ) X.
Proof.
  intros HC Hd Hdi Ho Hi Hr. destruct (co_table _ _ HC _ _ Ho Hi) as (_ & Hc & _). unfold dir_close.
  rewrite (proj2 (Z.eqb_neq d NULL)) by done. rewrite (bind_Ok _ _ σ (Dir i 0) σ) by (unfold dir_at; by rewrite Hdi).
  unfold unroot. cbn [dinode]. destruct (Z.eqb_spec ino.(open_cnt) 1) as [E|E].
  - rewrite (bind_Ok _ _ _ _ _ (inode_close_last _ _ _ _ HC Hi E Hr)). split; [done|].
    apply core_dirs; [by apply core_drop|]. cbn. intros d' y [_ Hy]%lookup_delete_Some. by apply (co_dirs _ _ HC d' y).
  - rewrite (bind_Ok _ _ _ _ _ (inode_close_again _ _ _ _ HC Ho Hi ltac:(lia))). split; [done|].
    apply core_dirs; [apply core_less; [done..|lia]|]. cbn. intros d' y [_ Hy]%lookup_delete_Some.
    by apply (co_dirs _ _ HC d' y).
Qed.

(** Open, change nothing but the disk and the map, close: the tables are as before. *)
Lemma unroot_touch rx σ d i σ' σ2 X ino :
  core σ X → X !! ROOT_DIR_SECTOR = Some rx → few_openers σ → rooted rx σ d i σ' → touch σ' σ2 →
  σ2.(inodes) !! i = Some ino → touch σ (unroot d i ino σ2).
Proof.
  intros HC Hx Hfew Hro (dk & b & n2 & l2 & -> & Hdk & Hb & Hn2 & Hp2) Hi. cbn in Hi.
  pose proof (rooted_facts _ _ _ _ _ _ HC Hx Hfew Hro) as (_ & Hp' & Ed & Em & _ & _ & _ & _ & Hdn & _).
  destruct Hro as [(σ1 & n & l & Ho & -> & Hd & Hl)]. cbn in *.
  exists dk, b, n2, l2. rewrite <- Ed, <- Em. split_and!; [|done|done| |].
  - destruct Ho as [ino0 Hio Hi0 Hs|n1 l1 Hno Hn1 Hl1]; cbn in Hi; rewrite lookup_insert_eq in Hi; injection Hi as <-;
      unfold unroot; cbn [open_cnt more].
    + destruct (co_table _ _ HC _ _ Hio Hi0) as (_ & Hc & _). rewrite (proj2 (Z.eqb_neq _ 1)) by lia.
      apply fs_ext; try reflexivity.
      * change (<[i := less (more ino0)]> (<[i := more ino0]> σ.(inodes)) = σ.(inodes)).
        rewrite insert_insert_eq. apply insert_id. rewrite Hi0. destruct ino0; cbn. unfold less. cbn. do 2 f_equal. lia.
      * by apply (delete_insert_id σ.(dirs)).
    + change (1 =? 1) with true. cbv iota. apply fs_ext; try reflexivity.
      * change (filter (λ j, j ≠ i) (i :: σ.(open_inodes)) = σ.(open_inodes)). rewrite filter_cons_False by tauto. apply list_filter_all. intros j Hj ->.
        destruct (co_open _ _ HC i Hj) as [y Hy]. pose proof (co_ids _ _ HC _ _ Hy). lia.
      * apply (delete_insert_id σ.(inodes)). destruct (σ.(inodes) !! i) as [y|] eqn:E; [|done].
        pose proof (co_ids _ _ HC _ _ E). lia.
      * by apply (delete_insert_id σ.(dirs)).
  - destruct Ho; cbn in *; lia.
  - intros Hpl. unfold unroot. specialize (Hp2 (Hp' Hpl)). unfold plenty in *. by case_match.
Qed.

(** ** The mounted file system *)

Record mounted (σ : fs) (X : gmap Z inode_disk) (rx : inode_disk) (jno : inode) : Prop := {
  mo_core : core σ X;
  mo_tidy : ∀ i ino, σ.(inodes) !! i = Some ino → i ∈ σ.(open_inodes);
  mo_map : map_file σ jno;
  mo_synced : synced σ jno;
  mo_root : X !! ROOT_DIR_SECTOR = Some rx;
  mo_dir : dir_wf (content σ.(disk) rx);
  mo_flags : ∀ i ino, σ.(inodes) !! i = Some ino → ino.(sector) = ROOT_DIR_SECTOR →
    ino.(removed) = false ∧ ino.(deny_write_cnt) = 0;
  mo_named : ∀ n s, has (content σ.(disk) rx) n s → is_Some (X !! s) ∧ s ≠ FREE_MAP_SECTOR ∧ s ≠ ROOT_DIR_SECTOR;
  mo_inj : ∀ n n' s, has (content σ.(disk) rx) n s → has (content σ.(disk) rx) n' s → n = n';
  mo_removed : ∀ i ino, σ.(inodes) !! i = Some ino → ino.(removed) = true →
    ino.(sector) ≠ FREE_MAP_SECTOR ∧ ∀ n, ¬ has (content σ.(disk) rx) n ino.(sector);
}.

Section root.
Context {σ σ1 : fs} {X : gmap Z inode_disk} {rx : inode_disk} {jno : inode} {d i : Z}.
Context (MO : mounted σ X rx jno) (Hfew : few_openers σ) (Hp : plenty σ) (RO : rooted rx σ d i σ1).

Lemma root_inode : ∃ ino, σ1.(inodes) !! i = Some ino ∧ ino.(sector) = ROOT_DIR_SECTOR ∧ ino.(idata) = rx ∧
  ino.(removed) = false ∧ ino.(deny_write_cnt) = 0.
Proof.
  destruct RO as [(σ' & n & l & Ho & -> & _)]. pose proof (mo_core _ _ _ _ MO) as HC.
  destruct Ho as [ino0 Hio Hi0 Hs|n1 l1 Hno Hn1 Hl1]; cbn.
  - exists (more ino0). rewrite lookup_insert_eq. destruct (mo_flags _ _ _ _ MO _ _ Hi0 Hs) as [Hr Hd].
    split_and!; try done. destruct (co_table _ _ HC _ _ Hio Hi0) as (HX & _). rewrite Hs, (mo_root _ _ _ _ MO) in HX.
    injection HX as ->. done.
  - eexists. rewrite lookup_insert_eq. done.
Qed.

Lemma root_core : core σ1 X.
Proof. apply (rooted_facts _ _ _ _ _ _ (mo_core _ _ _ _ MO) (mo_root _ _ _ _ MO) Hfew RO). Qed.

Lemma root_same : σ1.(disk) = σ.(disk) ∧ σ1.(free_map) = σ.(free_map) ∧ plenty σ1.
Proof.
  destruct (rooted_facts _ _ _ _ _ _ (mo_core _ _ _ _ MO) (mo_root _ _ _ _ MO) Hfew RO) as (_ & Hp1 & ? & ? & _).
  split_and!; auto.
Qed.

Lemma root_map : map_file σ1 jno ∧ synced σ1 jno.
Proof.
  destruct (rooted_facts _ _ _ _ _ _ (mo_core _ _ _ _ MO) (mo_root _ _ _ _ MO) Hfew RO)
    as (_ & _ & Ed & Em & Ef & Eff & _ & _ & _ & _ & (ino & Hi & Hs & _) & Hj & Hoj).
  split; [|unfold synced; rewrite Ed, Em; apply MO].
  destruct (mo_map _ _ _ _ MO) as [(x & Hf & Hx & Ho) Hn Hjs Hjd Hjl].
  assert (x.(finode) ≠ i).
  { intros E. destruct (rooted_facts _ _ _ _ _ _ (mo_core _ _ _ _ MO) (mo_root _ _ _ _ MO) Hfew RO) as (HC1 & _).
    destruct RO as [(σ' & n & l & Hop & -> & _)]. subst i. destruct Hop as [ino0 Hio Hi0 Hs0|n1 l1 Hno Hn1 Hl1].
    - rewrite Hx in Hi0. injection Hi0 as <-. rewrite Hjs in Hs0. done.
    - pose proof (co_ids _ _ (mo_core _ _ _ _ MO) _ _ Hx). lia. }
  split; try done.
  - exists x. rewrite Ef, Eff, Hj by done. auto.
  - by rewrite Eff.
  - by rewrite Em.
Qed.

(** Closing the handle after changes to the disk and the map only. *)
Lemma finish_root X' σ2 :
  touch σ1 σ2 → core σ2 X' →
  ∃ σ3, dir_close d σ2 = Ok (tt, σ3) ∧ touch σ σ3 ∧ core σ3 X' ∧ σ3.(disk) = σ2.(disk) ∧ σ3.(free_map) = σ2.(free_map).
Proof.
  intros Ht HC2. destruct root_inode as (ino & Hi & Hs & Hx & Hr & Hd).
  destruct (rooted_facts _ _ _ _ _ _ (mo_core _ _ _ _ MO) (mo_root _ _ _ _ MO) Hfew RO)
    as (_ & _ & _ & _ & _ & _ & Hdn & Edirs & _ & Ho & _).
  assert (σ2.(inodes) !! i = Some ino ∧ i ∈ σ2.(open_inodes) ∧ σ2.(dirs) !! d = Some (Dir i 0)) as (Hi2 & Ho2 & Hd2).
  { destruct Ht as (? & ? & ? & ? & -> & _). cbn. rewrite Edirs, lookup_insert_eq. done. }
  destruct (dir_close_run σ2 X' d i ino HC2 Hdn Hd2 Ho2 Hi2 Hr) as [Hc HC3].
  exists (unroot d i ino σ2). split_and!; [done| |done|..].
  - by apply (unroot_touch rx σ d i σ1 σ2 X ino (mo_core _ _ _ _ MO) (mo_root _ _ _ _ MO) Hfew RO Ht).
  - unfold unroot. by case_match.
  - unfold unroot. by case_match.
Qed.

(** The handle as a directory to work on, while the root's contents stay. *)
Lemma root_dir σ2 X' :
  touch σ1 σ2 → core σ2 X' → X' !! ROOT_DIR_SECTOR = Some rx → content σ2.(disk) rx = content σ.(disk) rx →
  ∃ ino, open_dir σ2 d i ino ∧ ino.(idata) = rx.
Proof.
  intros Ht HC2 Hx' Hc. destruct root_inode as (ino & Hi & Hs & Hx & Hr & Hd). exists ino. split; [|done].
  destruct (rooted_facts _ _ _ _ _ _ (mo_core _ _ _ _ MO) (mo_root _ _ _ _ MO) Hfew RO)
    as (_ & Hp1 & _ & _ & _ & _ & Hdn & Edirs & _ & Ho & _).
  destruct Ht as (dk & b & n & l & -> & Hl & _ & _ & Hp2). split; try done.
  - exists (Dir i 0). cbn. by rewrite Edirs, lookup_insert_eq.
  - rewrite Hx. by apply (co_inode _ _ HC2 ROOT_DIR_SECTOR).
  - rewrite Hx, Hc. apply MO.
  - apply (co_next _ _ HC2).
  - apply Hp2, Hp1, Hp.
Qed.
End root.

Lemma mounted_keep σ σ' X rx jno :
  mounted σ X rx jno → touch σ σ' → core σ' X → synced σ' jno → dir_wf (content σ'.(disk) rx) →
  (∀ n s, has (content σ'.(disk) rx) n s ↔ has (content σ.(disk) rx) n s) → mounted σ' X rx jno.
Proof.
  intros [H1 H2 H3 H4 H5 H6 H7 H8 H9 H10] Ht HC Hsy Hwf Hhas.
  assert (σ'.(inodes) = σ.(inodes) ∧ σ'.(open_inodes) = σ.(open_inodes)) as [Ei Eo] by by destruct Ht as (? & ? & ? & ? & -> & _).
  split; rewrite ?Ei, ?Eo; try done.
  - by eapply touch_map_file.
  - intros n s Hn%Hhas. by apply (H8 n).
  - intros n n' s Hn%Hhas Hn'%Hhas. by apply (H9 n n' s).
  - intros i ino Hi Hr. destruct (H10 i ino Hi Hr) as [? Hno]. split; [done|]. intros n Hn%Hhas. by apply (Hno n).
Qed.

Lemma mounted_add σ σ' X rx jno s x name :
  mounted σ X rx jno → touch σ σ' → core σ' (<[s := x]> X) → X !! s = None → s ≠ FREE_MAP_SECTOR → s ≠ ROOT_DIR_SECTOR →
  synced σ' jno → dir_wf (content σ'.(disk) rx) → (∀ s', ¬ has (content σ.(disk) rx) name s') →
  (∀ n s', has (content σ'.(disk) rx) n s' ↔ has (content σ.(disk) rx) n s' ∨ n = name ∧ s' = s) →
  mounted σ' (<[s := x]> X) rx jno.
Proof.
  intros [H1 H2 H3 H4 H5 H6 H7 H8 H9 H10] Ht HC Hs Hs0 Hs1 Hsy Hwf Hnew Hhas.
  assert (σ'.(inodes) = σ.(inodes) ∧ σ'.(open_inodes) = σ.(open_inodes)) as [Ei Eo] by by destruct Ht as (? & ? & ? & ? & -> & _).
  assert (∀ n, ¬ has (content σ.(disk) rx) n s) as Hfresh.
  { intros n Hn. destruct (H8 n s Hn) as [[y Hy] _]. congruence. }
  split; rewrite ?Ei, ?Eo; try done.
  - by eapply touch_map_file.
  - by rewrite lookup_insert_ne.
  - intros n s' [Hn|[-> ->]]%Hhas; [|by rewrite lookup_insert_eq]. destruct (H8 n s' Hn) as (Hy & ?).
    split; [|done]. destruct (decide (s' = s)) as [->|]; [by rewrite lookup_insert_eq|by rewrite lookup_insert_ne].
  - intros n n' s' Hn%Hhas Hn'%Hhas. destruct Hn as [Hn|[-> ->]], Hn' as [Hn'|[E E']]; subst.
    + by apply (H9 n n' s').
    + by destruct (Hfresh n).
    + by destruct (Hfresh n').
    + done.
  - intros i ino Hi Hr. destruct (H10 i ino Hi Hr) as [? Hno]. split; [done|].
    intros n [Hn|[-> E]]%Hhas; [by apply (Hno n)|].
    destruct (co_table _ _ H1 i ino (H2 i ino Hi) Hi) as (HX & _). rewrite E in HX. congruence.
Qed.

(** What happens between opening and closing the root: the sector is 0 if none was
    allocated. *)
Definition create_in (junk : list Z) (d : Z) (name : list Z) (size : Z) : M fs (bool * Z) :=
  s <- free_map_allocate 1 ;;
  match s with
  | None => ret (false, 0)
  | Some inode_sector =>
      ok <- inode_create inode_sector size ;;
      if ok then ok <- dir_add junk d name inode_sector ;; ret (ok, inode_sector)
      else ret (false, inode_sector)
  end.

(** Files but the root and the free map stay as they are. *)
Definition files_kept (X : gmap Z inode_disk) (d d' : list (list Z)) : Prop :=
  ∀ s x, X !! s = Some x → s ≠ FREE_MAP_SECTOR → s ≠ ROOT_DIR_SECTOR → content d' x = content d x.

Section create.
Context {σ σ1 : fs} {X : gmap Z inode_disk} {rx : inode_disk} {jno : inode} {d i : Z}.
Context (MO : mounted σ X rx jno) (Hfew : few_openers σ) (Hp : plenty σ) (RO : rooted rx σ d i σ1).
Notation c := (content σ.(disk) rx).

Lemma create_in_run junk name size :
  length junk = 20%nat → 0 ∉ name → 0 ≤ size < 2147483648 →
  ∃ ok s σ2, create_in junk d name size σ1 = Ok ((ok, s), σ2) ∧ touch σ1 σ2 ∧ synced σ2 jno ∧
    files_kept X σ.(disk) σ2.(disk) ∧ dir_wf (content σ2.(disk) rx) ∧
    (s = 0 ∧ ok = false ∧ core σ2 X ∧ content σ2.(disk) rx = c ∨
     s ≠ 0 ∧ s ≠ 1 ∧ X !! s = None ∧ (∀ s' x', X !! s' = Some x' → ¬ owns s' x' s) ∧ 0 ≤ s < zlen σ2.(disk) ∧
     bit σ2.(free_map) s = true ∧
     (ok = false ∧ core σ2 X ∧ content σ2.(disk) rx = c ∨
      ∃ x, x.(length_) = size ∧ core σ2 (<[s := x]> X) ∧ content σ2.(disk) x = replicate (Z.to_nat size) 0 ∧
        if ok then ¬ bad_name name ∧ (∀ s', ¬ has c name s') ∧
          ∀ n s', has (content σ2.(disk) rx) n s' ↔ has c n s' ∨ n = name ∧ s' = s
        else ∀ n s', has (content σ2.(disk) rx) n s' ↔ has c n s')).
Proof.
  intros Hj Hname Hsize. pose proof (root_core MO Hfew RO) as HC1. destruct (root_map MO Hfew RO) as [HM1 Hsy1].
  destruct (root_same MO Hfew Hp RO) as (Ed1 & Em1 & Hp1). pose proof (mo_root _ _ _ _ MO) as Hrx.
  destruct (free_map_allocate_run σ1 X jno 1 HC1 (or_intror HM1) Hp1) as (r & σ2 & Hr2 & Ht2 & HC2 & Hk2 & Hsy2 & Hres); [lia|].
  unfold create_in. rewrite (bind_Ok _ _ _ _ _ Hr2). rewrite Ed1, Em1 in Hres. unfold others_kept in Hk2. rewrite Ed1 in Hk2.
  assert (content σ2.(disk) rx = c) as Hrc by (by apply (Hk2 ROOT_DIR_SECTOR)).
  destruct r as [s|].
  2:{ exists false, 0, σ2. split_and!; [done|done|auto| |by rewrite Hrc; apply MO|by left].
      intros s x Hx Hs0 _. by apply (Hk2 s). }
  destruct Hres as (Hs0 & Hs1 & Hclear & Hbits). specialize (Hclear s ltac:(lia)).
  assert (∀ s' x', X !! s' = Some x' → ¬ owns s' x' s) as Hfresh.
  { intros s' x' Hx' Ho. by rewrite (co_marked _ _ (mo_core _ _ _ _ MO) s' x' s Hx' Ho) in Hclear. }
  assert (X !! s = None) as HsX by (destruct (X !! s) as [y|] eqn:E; [by destruct (Hfresh s y E); left|done]).
  assert (s ≠ 0) as Hsn0.
  { intros ->. pose proof (map_inode _ _ _ (mo_core _ _ _ _ MO) (mo_map _ _ _ _ MO)) as E. unfold FREE_MAP_SECTOR in E. congruence. }
  assert (s ≠ 1) as Hsn1 by (intros ->; unfold ROOT_DIR_SECTOR in Hrx; congruence).
  assert (zlen σ2.(disk) = zlen σ.(disk)) as Ed2.
  { destruct Ht2 as (? & ? & ? & ? & -> & Hl & _). rewrite Ed1 in Hl. cbn. lia. }
  assert (bit σ2.(free_map) s = true) as Hb2.
  { rewrite Hbits by lia. unfold in_range. by rewrite (proj2 (Z.leb_le s s)), (proj2 (Z.ltb_lt s (s + 1))) by lia. }
  assert (plenty σ2) as Hp2 by (destruct Ht2 as (? & ? & ? & ? & -> & _ & _ & _ & Hpl); auto).
  destruct (inode_create_run σ2 X jno s size HC2 (or_intror (touch_map_file _ _ _ Ht2 HM1)) Hp2 ltac:(lia) Hsize Hb2 Hfresh)
    as (ok & σ3 & Hr3 & Ht3 & Hsy3 & Hk3 & Hm3 & Hres3).
  rewrite (bind_Ok _ _ _ _ _ Hr3).
  specialize (Hsy3 (touch_map_file _ _ _ Ht2 HM1)). specialize (Hsy2 HM1).
  pose proof (touch_trans _ _ _ Ht2 Ht3) as Ht13. pose proof (Hm3 s Hs0 Hb2) as Hb3.
  assert (zlen σ3.(disk) = zlen σ.(disk)) as Ed3 by (destruct Ht3 as (? & ? & ? & ? & -> & Hl & _); cbn; lia).
  assert (content σ3.(disk) rx = c) as Hrc3 by (by rewrite (Hk3 ROOT_DIR_SECTOR rx Hrx)).
  assert (files_kept X σ.(disk) σ3.(disk)) as Hfk3.
  { intros s' x' Hx' Hn0 _. rewrite (Hk3 s' x' Hx' Hn0). by apply (Hk2 s'). }
  destruct ok.
  2:{ exists false, s, σ3. split_and!; [done|done|auto|done|by rewrite Hrc3; apply MO|].
      right. split_and!; [done..|lia|lia|done|]. left. split_and!; [done|apply Hres3|done]. }
  destruct Hres3 as (x & Hxl & HC3 & Hzero & _).
  assert (<[s := x]> X !! ROOT_DIR_SECTOR = Some rx) as Hrx3 by (by rewrite lookup_insert_ne).
  destruct (root_dir MO Hfew Hp RO σ3 _ Ht13 HC3 Hrx3 Hrc3) as (ino & OD & Hino).
  assert (is_u32 s) as Hsu by (pose proof (co_size _ _ HC3); mlia).
  destruct (dir_add_run σ3 d i ino junk name s OD Hj Hname Hsu) as (ok & dk & σ4 & ofs & bs & Hr4 & Hd4 & Hw4 & Hwf4 & Hres4).
  rewrite (bind_Ok _ _ _ _ _ Hr4). rewrite Hino in *. rewrite Hrc3 in Hres4.
  destruct (core_wrote σ3 σ4 _ ROOT_DIR_SECTOR rx dk ofs bs HC3 Hrx3 Hd4 Hw4) as [HC4 Hk4].
  assert (disk σ4 = dk) as Edk by by destruct Hd4 as (? & _ & ->).
  assert (σ4.(free_map) = σ3.(free_map)) as Em4 by by destruct Hd4 as (? & (? & ? & -> & _) & ->).
  pose proof (disk_touch _ _ _ Hd4 (wr_length _ _ _ _ _ _ Hw4)) as Ht4. rewrite <- Edk in *.
  exists ok, s, σ4. split_and!; [done|by eapply touch_trans| | |done|].
  - unfold synced. rewrite Em4, (Hk4 FREE_MAP_SECTOR jno.(idata)); [by apply Hsy3, Hsy2| |done].
    rewrite lookup_insert_ne by (by unfold FREE_MAP_SECTOR). apply (map_inode σ); apply MO.
  - intros s' x' Hx' Hn0 Hn1. rewrite (Hk4 s' x'); [by apply (Hfk3 s')| |done]. rewrite lookup_insert_ne; [done|congruence].
  - right. split_and!; [done..|lia| |by rewrite Em4|].
    { destruct Ht4 as (? & ? & ? & ? & -> & Hl & _). cbn in *. lia. }
    right. exists x. split_and!; [done..| |].
    + rewrite (Hk4 s x); [done|by rewrite lookup_insert_eq|done].
    + destruct ok; [done|by apply Hres4].
Qed.
End create.

(** ** Correctness *)

