(* ===== verification/FsOps.v ===== *)
(** * Opening and removing files

    [filesys_open] and [filesys_remove] on the mounted file system of FsMain: both keep its
    invariant, opening finds exactly the named files and shares their inodes, and removing
    takes the name away at once but keeps the sectors while the file is open. *)

From S2P Require Import Prelude Vaddr Bytes Bitmap Filesys FsInode FsDir FsMain.
Local Open Scope c_scope.

(** ** Opening a file *)

Lemma mounted_heap σ σ' X rx jno : mounted σ X rx jno → heap_only σ σ' → mounted σ' X rx jno.
Proof.
  intros MO Hh. pose proof MO as [H1 H2 H3 H4 H5 H6 H7 H8 H9 H10].
  assert (σ'.(disk) = σ.(disk) ∧ σ'.(free_map) = σ.(free_map)) as [Ed Em] by by destruct Hh as (? & ? & -> & _).
  apply (mounted_keep σ); [done|by apply heap_touch|by apply (core_heap σ)|unfold synced; by rewrite Ed, Em|by rewrite Ed|by rewrite Ed].
Qed.

Lemma opened_ids σ X s x i σ' :
  core σ X → opened s x σ i σ' → i ∈ σ'.(open_inodes) ∧ ∀ j, j ∈ σ'.(open_inodes) → j = i ∨ j ∈ σ.(open_inodes).
Proof.
  intros HC [ino Ho Hi Hs|n l Hno Hn Hl]; cbn; [split; [done|by right]|]. split; [left|]. by intros j [->|]%elem_of_cons; [left|right].
Qed.

Lemma map_file_opened σ X jno s x i σ' :
  core σ X → map_file σ jno → s ≠ FREE_MAP_SECTOR → opened s x σ i σ' → map_file σ' jno.
Proof.
  intros HC [(y & Hf & Hy & Hyo) Hn0 Hjs Hjd Hjl] Hs Ho. assert (y.(finode) ≠ i) as Hne.
  { intros E. destruct Ho as [ino0 Ho0 Hi00 Hs00|n l Hno Hn Hl]; subst i.
    - rewrite Hy in Hi00. injection Hi00 as <-. congruence.
    - pose proof (co_ids _ _ HC _ _ Hy). lia. }
  split; try done; [|by destruct Ho|by destruct Ho].
  exists y. destruct Ho; cbn; rewrite lookup_insert_ne by done; split_and!; try done. by right.
Qed.

Lemma mounted_opened σ X rx jno s x i σ' :
  mounted σ X rx jno → X !! s = Some x → s ≠ FREE_MAP_SECTOR → s ≠ ROOT_DIR_SECTOR → few_of s σ →
  opened s x σ i σ' → mounted σ' X rx jno.
Proof.
  intros MO Hx Hs0 Hs1 Hfew Ho. pose proof MO as [H1 H2 H3 H4 H5 H6 H7 H8 H9 H10].
  destruct (opened_facts _ _ _ _ _ X H1 Hx Hfew Ho) as (HC & Hi0 & _ & Ed & Em & Ef & Edi & Eff & Hnx & (ino & Hi & His & Hix) & Hj).
  destruct (opened_ids _ _ _ _ _ _ H1 Ho) as [Hio Hoj].
  assert (∀ j, j ∈ σ.(open_inodes) → j ∈ σ'.(open_inodes)) as Hoj' by (destruct Ho; cbn; [done|by right]).
  assert (∀ j y, σ'.(inodes) !! j = Some y → j ≠ i → σ.(inodes) !! j = Some y) as Hback by (intros j y Hy Hne; by rewrite <- Hj).
  split; rewrite ?Ed; try done.
  - intros j y Hy. destruct (decide (j = i)) as [->|]; [done|]. apply Hoj'. apply (H2 j y). by apply Hback.
  - by apply (map_file_opened _ _ _ _ _ _ _ H1 H3 Hs0 Ho).
  - unfold synced. by rewrite Ed, Em.
  - intros j y Hy Hys. destruct (decide (j = i)) as [->|]; [congruence|]. apply (H7 j); auto.
  - intros j y Hy Hr. destruct (decide (j = i)) as [->|]; [|by apply (H10 j); auto].
    rewrite Hi in Hy. injection Hy as <-. rewrite His.
    destruct Ho as [ino0 Ho0 Hi00 Hs00|n l Hno Hn Hl]; cbn in Hi; rewrite lookup_insert_eq in Hi; injection Hi as <-; cbn in *.
    + destruct (H10 i ino0 Hi00 Hr) as [_ Hnn]. rewrite <- Hs00. split; [congruence|done].
    + done.
Qed.

(** The tables after the root is closed again, whatever else was opened meanwhile. *)
Lemma unroot_tables rx σ d i σ1 σ2 X l rno :
  core σ X → X !! ROOT_DIR_SECTOR = Some rx → few_openers σ → rooted rx σ d i σ1 →
  σ2.(dirs) = σ1.(dirs) → σ1.(inodes) !! i = Some rno → σ2.(open_inodes) = l ++ σ1.(open_inodes) → i ∉ l →
  (unroot d i rno σ2).(dirs) = σ.(dirs) ∧ (unroot d i rno σ2).(open_inodes) = l ++ σ.(open_inodes) ∧
  (unroot d i rno σ2).(inodes) !! i = σ.(inodes) !! i ∧
  ∀ j, j ≠ i → (unroot d i rno σ2).(inodes) !! j = σ2.(inodes) !! j.
Proof.
  intros HC Hrx Hfew RO Edirs Hi El Hil.
  pose proof (rooted_facts _ _ _ _ _ _ HC Hrx Hfew RO) as (_ & _ & _ & _ & _ & _ & _ & _ & Hdn & _).
  destruct RO as [(σ' & n1 & l1 & Hop & -> & _)].
  assert (dirs σ' = σ.(dirs)) as Ed by by destruct Hop.
  assert (delete d σ2.(dirs) = σ.(dirs)) as Edd by (rewrite Edirs; cbn; rewrite Ed; by apply delete_insert_id).
  destruct Hop as [r0 Hr0o Hr0 Hr0s|n0 l0 Hrno Hrn Hrl]; cbn in Hi, El; rewrite lookup_insert_eq in Hi; injection Hi as <-;
    unfold unroot; cbn [open_cnt more].
  - destruct (co_table _ _ HC _ _ Hr0o Hr0) as (_ & Hc & _). rewrite (proj2 (Z.eqb_neq _ 1)) by lia. cbn.
    split_and!; [done|done| |by intros j Hj; rewrite lookup_insert_ne]. rewrite lookup_insert_eq, Hr0.
    destruct r0; unfold less; cbn. do 2 f_equal. lia.
  - assert (σ.(inodes) !! i = None) as Hn by (destruct (σ.(inodes) !! i) as [y|] eqn:E; [pose proof (co_ids _ _ HC _ _ E); lia|done]).
    cbn. split_and!; [done| |by rewrite lookup_delete_eq|by intros j Hj; rewrite lookup_delete_ne].
    rewrite El, filter_app, filter_cons_False by tauto. f_equal; apply list_filter_all; intros k Hk ->; [done|].
    destruct (co_open _ _ HC i Hk). congruence.
Qed.

(** Opening another inode while the root is open, then closing the root. *)
Lemma unroot_opened rx σ d i σ1 σ2 s x j σ3 X rno :
  core σ X → X !! ROOT_DIR_SECTOR = Some rx → few_openers σ → rooted rx σ d i σ1 → heap_only σ1 σ2 → opened s x σ2 j σ3 →
  s ≠ ROOT_DIR_SECTOR → σ1.(inodes) !! i = Some rno → i ≠ j ∧ σ3.(inodes) !! i = Some rno ∧
  ∃ σo, opened s x σ j σo ∧ heap_only σo (unroot d i rno σ3).
Proof.
  intros HC Hrx Hfew RO Hh Ho Hs Hri.
  pose proof (rooted_facts _ _ _ _ _ _ HC Hrx Hfew RO)
    as (HC1 & Hp1 & Ed1 & Em1 & Ef1 & Eff1 & Hdn & Edirs & _ & Hio & (ino1 & Hi1 & His1 & _) & Hj1 & Hoj1).
  rewrite Hri in Hi1. injection Hi1 as <-. destruct Hh as (n2 & l2 & -> & Hn2 & Hp2).
  assert (σ.(next) ≤ n2 ∧ ∀ k, k ≠ i → k ∈ σ1.(open_inodes) → k ∈ σ.(open_inodes)) as [Hnx Hback].
  { destruct RO as [(σ' & ? & ? & Hop & -> & ? & _)]. destruct Hop; cbn in *; (split; [lia|]); [done|].
    by intros k Hk [|]%elem_of_cons. }
  assert (i ≠ j ∧ σ3.(inodes) !! i = Some rno) as [Hij Hri3].
  { assert (i ≠ j) as Hij; [|split; [done|destruct Ho; cbn; by rewrite lookup_insert_ne]].
    intros <-. destruct Ho as [jn Hjo Hj Hjs|n3 l3 Hno Hn3 Hl3]; cbn in *; [congruence|].
    pose proof (co_ids _ _ HC1 _ _ Hri). lia. }
  split; [done|]. split; [done|].
  destruct Ho as [jn Hjo Hj Hjs|n3 l3 Hno Hn3 Hl3]; cbn in Hjo, Hj || cbn in Hno, Hn3, Hl3.
  - rewrite Hj1 in Hj by done. exists (upd_inodes <[j := more jn]> σ). split; [by apply opened_again; [apply Hback|..]|].
    exists n2, l2. split_and!; [|done|by intros Hpl; specialize (Hp2 (Hp1 Hpl)); unfold plenty, unroot in *; case_match].
    destruct (unroot_tables rx σ d i σ1 (upd_inodes <[j := more jn]> (upd_heap n2 l2 σ1)) X [] rno) as (T1 & T2 & T3 & T4);
      [done..|set_solver|].
    apply fs_ext; try done; try (unfold unroot; case_match; done).
    apply map_eq. intros k. destruct (decide (k = i)) as [->|]; [rewrite T3; cbn; by rewrite lookup_insert_ne|].
    rewrite T4 by done. cbn. destruct (decide (k = j)) as [->|]; [by rewrite !lookup_insert_eq|].
    rewrite !lookup_insert_ne by done. by apply Hj1.
  - exists (upd_inodes <[j := Inode s 1 false 0 x]> (upd_open (cons j) (upd_heap n3 l3 σ))). split.
    { apply opened_new; [|lia|by intros ?; apply Hl3, Hp2, Hp1]. intros k kno Hk Hkn.
      destruct (decide (k = i)) as [->|]; [|by apply (Hno k); [apply Hoj1|rewrite Hj1]].
      destruct RO as [(σ' & n1 & l1 & Hop & -> & _)]. destruct Hop as [r0 Hr0o Hr0 Hr0s|n0 l0 Hrno Hrn Hrl]; [congruence|].
      pose proof (co_ids _ _ HC _ _ Hkn). lia. }
    exists n3, l3. split_and!; [|done|by intros Hpl; unfold plenty, unroot in *; case_match].
    destruct (unroot_tables rx σ d i σ1 (upd_inodes <[j := Inode s 1 false 0 x]> (upd_open (cons j) (upd_heap n3 l3 (upd_heap n2 l2 σ1)))) X [j] rno)
      as (T1 & T2 & T3 & T4); [done..|set_solver|].
    apply fs_ext; try done; try (unfold unroot; case_match; done).
    apply map_eq. intros k. destruct (decide (k = i)) as [->|]; [rewrite T3; cbn; by rewrite lookup_insert_ne|].
    rewrite T4 by done. cbn. destruct (decide (k = j)) as [->|]; [by rewrite !lookup_insert_eq|].
    rewrite !lookup_insert_ne by done. by apply Hj1.
Qed.

Lemma touch_heap σ σ' : touch σ σ' → σ'.(disk) = σ.(disk) → σ'.(free_map) = σ.(free_map) → heap_only σ σ'.
Proof. intros (d & b & n & l & -> & _ & _ & Hn & Hp) Ed Em. cbn in *. subst. by exists n, l. Qed.

Lemma mounted_file σ X rx jno f y :
  mounted σ X rx jno → σ.(files) !! f = None → f < σ.(next) → mounted (upd_files <[f := y]> σ) X rx jno.
Proof.
  intros [HC H2 [(z & Hf & Hz) Hn0 Hjs Hjd Hjl] H4 H5 H6 H7 H8 H9 H10] Hfn Hlt. split; try done.
  - pose proof (co_files _ _ HC) as Hcf. destruct HC. split; try done. cbn.
    intros f' z' [[<- _]|[_ Hz']]%lookup_insert_Some; [done|by apply (Hcf f' z')].
  - split; try done. exists z. cbn. rewrite lookup_insert_ne by congruence. done.
Qed.

Lemma dir_lookup_run σ X d i ino name :
  open_dir σ d i ino → core σ X → 0 ∉ name →
  (∀ s, has (content σ.(disk) ino.(idata)) name s → is_Some (X !! s) ∧ few_of s σ) →
  let c := content σ.(disk) ino.(idata) in
  ∃ j σ2, dir_lookup d name σ = Ok (j, σ2) ∧
    (j = NULL ∧ heap_only σ σ2 ∧ (∀ s, ¬ has c name s) ∨
     j ≠ NULL ∧ ∃ s x σh, has c name s ∧ X !! s = Some x ∧ heap_only σ σh ∧ opened s x σh j σ2).
Proof.
  intros [Hd (y & Hdx & Hxi) Hi Hex Hdeny Hwf Hnext Hpl] HC Hname Hin c. unfold dir_lookup.
  rewrite bind_assert by (by rewrite (proj2 (Z.eqb_neq d NULL))).
  destruct (lookup_run Hi Hex Hnext Hpl d y name Hname Hwf Hd Hdx Hxi) as (r & σ1 & Hr & Hh1 & Hres).
  rewrite (bind_Ok _ _ _ _ _ Hr). destruct r as [[e ofs]|].
  - destruct Hres as (k & -> & -> & Hk). set (s := e_sector _). fold c in s.
    assert (has c name s) as Hhas by (by exists k). destruct (Hin s Hhas) as [[x Hx] Hfew].
    assert (few_of s σ1) as Hfew1 by by destruct Hh1 as (? & ? & -> & _).
    assert (plenty σ1) as Hp1 by (destruct Hh1 as (? & ? & -> & _ & H); auto).
    destruct (inode_open_run σ1 X s x (core_heap _ _ _ Hh1 HC) Hx Hp1 Hfew1) as (j & σ2 & Hr2 & Ho).
    destruct (opened_facts _ _ _ _ _ X (core_heap _ _ _ Hh1 HC) Hx Hfew1 Ho) as (_ & Hj0 & _).
    exists j, σ2. split; [done|]. right. split; [done|]. by exists s, x, σ1.
  - exists NULL, σ1. split; [done|]. left. split_and!; [done..|]. intros s (k & Hk & _). by destruct (Hres k).
Qed.

(** Named files can be opened once more while the root is open. *)
Lemma rooted_few rx σ X d i σ1 s :
  core σ X → X !! ROOT_DIR_SECTOR = Some rx → few_openers σ → rooted rx σ d i σ1 → s ≠ ROOT_DIR_SECTOR → few_of s σ1.
Proof.
  intros HC Hrx Hfew RO Hs k kno Hko Hk Hks.
  pose proof (rooted_facts _ _ _ _ _ _ HC Hrx Hfew RO) as (_ & _ & _ & _ & _ & _ & _ & _ & _ & _ & (ino & Hi & His & _) & Hj & _).
  assert (k ≠ i) by congruence. rewrite Hj in Hk by done. apply (Hfew k); [|done].
  destruct RO as [(σ' & n & l & Ho & -> & _)]. destruct Ho; cbn in Hko; [done|]. by apply elem_of_cons in Hko as [|].
Qed.

Lemma file_open_run σ j :
  plenty σ → 0 < σ.(next) → j ≠ NULL →
  ∃ σ', file_open j σ = Ok (σ.(next), σ') ∧ ∃ n l, σ' = upd_files <[σ.(next) := File j 0 false]> (upd_heap n l σ) ∧
    σ.(next) < n ∧ false ∉ l.
Proof.
  intros Hp Hn Hj. destruct (alloc_run σ) as (p & σ1 & Hr & (n & l & -> & Hn1 & Hp1) & _ & Hp2).
  destruct (Hp2 Hp) as [-> E]. cbn in E. unfold file_open. rewrite (bind_Ok _ _ _ _ _ Hr).
  rewrite (proj2 (Z.eqb_neq j NULL)), (proj2 (Z.eqb_neq _ NULL)) by (done || mlia). cbn [negb andb].
  eexists. split; [done|]. exists n, l. split_and!; [done|lia|by apply Hp1].
Qed.

Lemma file_open_null σ : plenty σ → ∃ σ', file_open NULL σ = Ok (NULL, σ') ∧ heap_only σ σ'.
Proof.
  intros Hp. destruct (alloc_run σ) as (p & σ1 & Hr & Hh & _). unfold file_open. rewrite (bind_Ok _ _ _ _ _ Hr).
  by exists σ1.
Qed.

(** Property C7.  [filesys_open] on a mounted file system gives a file exactly if the root
    directory has the name, and a null pointer otherwise.  The file is a new one at
    position 0 for the inode in the sector that the directory names; that inode is shared
    with whoever has it open already, with one opener more, or is read from its sector.
    The disk, the free map and all other open files stay as they are, the handle of the
    root directory is gone, and the file system stays consistent. *)
Theorem filesys_open_ok σ X rx jno name :
  mounted σ X rx jno → plenty σ → few_openers σ → 0 ∉ name →
  let c := content σ.(disk) rx in
  ∃ f σ', filesys_open name σ = Ok (f, σ') ∧ mounted σ' X rx jno ∧ plenty σ' ∧
    if f =? NULL then heap_only σ σ' ∧ ∀ s, ¬ has c name s
    else ∃ s x j σo, has c name s ∧ X !! s = Some x ∧ opened s x σ j σo ∧ σo.(files) !! f = None ∧
      heap_only (upd_files <[f := File j 0 false]> σo) σ'.
Proof.
  intros MO Hp Hfew Hname c. pose proof (mo_core _ _ _ _ MO) as HC. pose proof (mo_root _ _ _ _ MO) as Hrx.
  destruct (dir_open_root_run σ X rx HC Hrx Hp Hfew) as (d & i & σ1 & Hr1 & RO).
  pose proof (root_core MO Hfew RO) as HC1. destruct (root_same MO Hfew Hp RO) as (Ed1 & Em1 & Hp1).
  destruct (root_dir MO Hfew Hp RO σ1 X (touch_refl σ1) HC1 Hrx) as (ino & OD & Hino); [by rewrite Ed1|].
  destruct (dir_lookup_run σ1 X d i ino name OD HC1 Hname) as (j & σ2 & Hr2 & Hres).
  { rewrite Hino, Ed1. intros s Hs. destruct (mo_named _ _ _ _ MO name s Hs) as (Hx & _ & Hs1). split; [done|].
    by apply (rooted_few rx σ X d i). }
  rewrite Hino, Ed1 in Hres. unfold filesys_open. rewrite (bind_Ok _ _ _ _ _ Hr1).
  rewrite (proj2 (Z.eqb_neq d NULL)) by apply OD. rewrite (bind_Ok _ _ _ _ _ Hr2).
  destruct Hres as [(-> & Hh & Hno)|(Hj0 & s & x & σh & Hhas & Hx & Hh & Ho)].
  - destruct (finish_root MO Hfew RO X σ2 (heap_touch _ _ Hh) (core_heap _ _ _ Hh HC1)) as (σ3 & Hr3 & Ht3 & _ & Ed3 & Em3).
    assert (heap_only σ σ3) as Hh3.
    { apply touch_heap; [done|rewrite Ed3, <- Ed1|rewrite Em3, <- Em1]; by destruct Hh as (? & ? & -> & _). }
    assert (plenty σ3) as Hp3 by (destruct Hh3 as (? & ? & -> & _ & H); auto).
    rewrite (bind_Ok _ _ _ _ _ Hr3). destruct (file_open_null σ3 Hp3) as (σ4 & Hr4 & Hh4).
    pose proof (heap_only_trans _ _ _ Hh3 Hh4) as Hh'.
    exists NULL, σ4. split_and!; [done|by eapply mounted_heap|by destruct Hh' as (? & ? & -> & _ & H); auto|by split].
  - destruct (mo_named _ _ _ _ MO name s Hhas) as (_ & Hs0 & Hs1).
    destruct (unroot_opened rx σ d i σ1 σh s x j σ2 X ino HC Hrx Hfew RO Hh Ho Hs1 (od_inode _ _ _ _ OD)) as (Hij & Hri & σo & Ho' & Hh').
    assert (few_of s σh) as Hfh by (pose proof (rooted_few rx σ X d i σ1 s HC Hrx Hfew RO Hs1); by destruct Hh as (? & ? & -> & _)).
    destruct (opened_facts _ _ _ _ _ X (core_heap _ _ _ Hh HC1) Hx Hfh Ho) as (HC2 & _ & _ & _ & _ & _ & Edi & _).
    destruct (root_inode MO RO) as (ino' & Hi' & _ & _ & Hrem & _). rewrite (od_inode _ _ _ _ OD) in Hi'. injection Hi' as <-.
    destruct (dir_close_run σ2 X d i ino HC2) as [Hr3 _]; try done; [apply OD| | |].
    + rewrite Edi. destruct Hh as (? & ? & -> & _). destruct RO as [(? & ? & ? & ? & -> & _)]. cbn. by rewrite lookup_insert_eq.
    + destruct (rooted_facts _ _ _ _ _ _ HC Hrx Hfew RO) as (_ & _ & _ & _ & _ & _ & _ & _ & _ & Ho1 & _).
      destruct Hh as (? & ? & -> & _). destruct Ho; cbn; [done|by right].
    + rewrite (bind_Ok _ _ _ _ _ Hr3).
      pose proof (mounted_heap _ _ _ _ _ (mounted_opened _ _ _ _ _ _ _ _ MO Hx Hs0 Hs1 (few_openers_of s σ Hfew) Ho') Hh') as MO4.
      destruct (opened_facts _ _ _ _ _ X HC Hx (few_openers_of s σ Hfew) Ho') as (_ & _ & Hpo & _ & _ & Efo & _).
      set (σ4 := unroot d i ino σ2) in *.
      assert (plenty σ4) as Hp4 by (destruct Hh' as (? & ? & -> & _ & H); auto).
      pose proof (co_next _ _ (mo_core _ _ _ _ MO4)) as Hn4.
      destruct (file_open_run σ4 j Hp4 Hn4 Hj0) as (σ5 & Hr5 & n & l & -> & Hn & Hl).
      assert (σ4.(files) !! σ4.(next) = None) as Hfn.
      { destruct (σ4.(files) !! σ4.(next)) as [z|] eqn:E; [|done].
        pose proof (co_files _ _ (mo_core _ _ _ _ MO4) _ _ E). lia. }
      eexists _, _. split_and!; [exact Hr5| |exact Hl|].
      * apply mounted_file; [|done|done]. apply (mounted_heap σ4); [done|]. exists n, l. split_and!; [done|lia|done].
      * rewrite (proj2 (Z.eqb_neq _ NULL)) by mlia. destruct Hh' as (n' & l' & E & Hn' & Hl'). rewrite E in *.
        exists s, x, j, σo. split_and!; try done. exists n, l. split_and!; [done|cbn in *; lia|done].
Qed.

(** ** Removing a file *)

Definition gone (ino : inode) : inode :=
  Inode ino.(sector) ino.(open_cnt) true ino.(deny_write_cnt) ino.(idata).

Lemma map_file_set σ jno j ino :
  map_file σ jno → (∀ y, σ.(inodes) !! j = Some y → y.(sector) ≠ FREE_MAP_SECTOR) →
  map_file (upd_inodes <[j := ino]> σ) jno.
Proof.
  intros [(y & Hf & Hy & Hyo) Hn0 Hjs Hjd Hjl] Hj. assert (y.(finode) ≠ j).
  { intros E. apply (Hj jno); congruence. }
  split; try done. exists y. cbn. by rewrite lookup_insert_ne.
Qed.

(** The name is erased: the part of [dir_remove] between opening the inode and closing it. *)
Lemma erase_run σ d i ino name k :
  open_dir σ d i ino → entry_is (content σ.(disk) ino.(idata)) name k →
  let c := content σ.(disk) ino.(idata) in
  ∃ dk σ', inode_write_at i (take 19 (entry c k) ++ [0]) ENTRY_SIZE (s32 (20 * k)) σ = Ok (ENTRY_SIZE, σ') ∧
    disk_only σ dk σ' ∧ wrote σ.(disk) dk ino.(idata).(start) (data_sectors ino.(idata).(length_)) (20 * k) (take 19 (entry c k) ++ [0]) ∧
    dir_wf (content dk ino.(idata)) ∧ ∀ n s, has (content dk ino.(idata)) n s ↔ has c n s ∧ n ≠ name.
Proof.
  intros [Hd (y & Hdx & Hxi) Hi Hex Hdeny Hwf Hnext Hpl] Hk c.
  pose proof (ei_range _ _ _ Hk) as Hr. fold c in Hr. pose proof (entries_fit (σ := σ) Hex) as [Hfit _]. fold c in Hfit.
  pose proof (content_length σ.(disk) ino.(idata)) as Hcl. fold c in Hcl. pose proof (entry_length c k Hr) as Hel.
  assert (20 * k + 20 ≤ ino.(idata).(length_)) as Hin by lia.
  assert (ino.(idata).(length_) < 2147483648) by (destruct Hex; mlia). rewrite s32_small by mlia.
  set (e := take 19 (entry c k) ++ [0]). assert (length e = 20%nat) as He by (subst e; by rewrite length_app, length_take, Hel).
  destruct (inode_write_at_run (σ0 := σ) e Hi Hex Hnext ENTRY_SIZE (20 * k))
    as (m & dk & σ3 & Hr3 & Hd3 & Hw3 & _ & Hm); [lia|rewrite He; done|].
  specialize (Hm Hpl). rewrite Hdeny in Hm. cbn [Z.eqb] in Hm. unfold ENTRY_SIZE in *.
  replace m with 20 in * by lia. rewrite take_ge in Hw3 by (rewrite He; lia).
  assert (content dk ino.(idata) = splice c (Z.to_nat (20 * k)) e) as Hc'.
  { apply content_wrote; [done|lia| |done]. left. lia. }
  exists dk, σ3. rewrite Hc'. split_and!; [done..|apply (drop_entry c k name Hwf Hk)|apply (drop_entry c k name Hwf Hk)].
Qed.

(** What is left when the name is gone: the inode marked for removal while somebody has it
    open, nothing at all otherwise. *)
Definition removed_from (σ : fs) (X : gmap Z inode_disk) (s : Z) (x : inode_disk) (σ' : fs) (X' : gmap Z inode_disk) : Prop :=
  (∃ j jn, j ∈ σ.(open_inodes) ∧ σ.(inodes) !! j = Some jn ∧ jn.(sector) = s ∧ X' = X ∧
     touch (upd_inodes <[j := gone jn]> σ) σ' ∧ content σ'.(disk) x = content σ.(disk) x) ∨
  (∀ j jn, j ∈ σ.(open_inodes) → σ.(inodes) !! j = Some jn → jn.(sector) ≠ s) ∧ X' = delete s X ∧ touch σ σ' ∧
  ∀ b, 0 ≤ b → bit σ'.(free_map) b = true ↔ bit σ.(free_map) b = true ∧ ¬ owns s x b.

(** An entry that was made and dropped again leaves no trace. *)
Lemma drop_touch σ σ2 σ3 j a g n l :
  σ.(next) ≤ n → (plenty σ → false ∉ l) → σ.(inodes) !! j = None → j ∉ σ.(open_inodes) →
  touch (upd_inodes <[j := a]> (upd_open (cons j) (upd_heap n l σ))) σ2 →
  touch (drop_inode j (upd_inodes <[j := g]> σ2)) σ3 → touch σ σ3.
Proof.
  intros Hn Hl Hj Hjo (d2 & b2 & n2 & l2 & -> & Hd2 & Hb2 & Hn2 & Hp2) (d3 & b3 & n3 & l3 & -> & Hd3 & Hb3 & Hn3 & Hp3).
  exists d3, b3, n3, l3. split_and!.
  - apply fs_ext; try reflexivity.
    + change (filter (λ k, k ≠ j) (j :: σ.(open_inodes)) = σ.(open_inodes)). rewrite filter_cons_False by tauto.
      apply list_filter_all. by intros k Hk ->.
    + change (delete j (<[j := g]> (<[j := a]> σ.(inodes))) = σ.(inodes)). rewrite insert_insert_eq. by apply delete_insert_id.
  - exact (eq_trans Hd3 Hd2).
  - exact (eq_trans Hb3 Hb2).
  - exact (Z.le_trans _ _ _ Hn (Z.le_trans _ _ _ Hn2 Hn3)).
  - intros Hp. exact (Hp3 (Hp2 (Hl Hp))).
Qed.

Section remove_inode.
Context {σ : fs} {X : gmap Z inode_disk} {jno : inode} {s j : Z} {x : inode_disk} {σ1 σ2 : fs}.
Context (HC : core σ X) (Hx : X !! s = Some x) (Hfew : few_of s σ) (Hp : plenty σ) (HM : map_file σ jno)
  (Hs0 : s ≠ FREE_MAP_SECTOR) (Ho : opened s x σ j σ1) (Ht : touch σ1 σ2) (HC2 : core σ2 X) (Hsy : synced σ2 jno)
  (Em : σ2.(free_map) = σ.(free_map)).

(** [inode_remove] and [inode_close] of an inode just opened. *)
Lemma remove_inode_run :
  ∃ σ3 X', (inode_remove j ;; inode_close j) σ2 = Ok (tt, σ3) ∧ core σ3 X' ∧ synced σ3 jno ∧
    others_kept (delete s X) σ2 σ3 ∧ (content σ2.(disk) x = content σ.(disk) x → removed_from σ X s x σ3 X').
Proof.
  destruct (opened_facts _ _ _ _ _ X HC Hx Hfew Ho) as (HC1 & Hj0 & Hp1 & Ed & Em1 & Ef & Edi & Eff & Hnx & (jn & Hj & Hjs & Hjx) & Hjo).
  destruct (opened_ids _ _ _ _ _ _ HC Ho) as [Hjin _].
  assert (σ2.(inodes) !! j = Some jn ∧ j ∈ σ2.(open_inodes) ∧ plenty σ2) as (Hj2 & Hjo2 & Hp2).
  { destruct Ht as (? & ? & ? & ? & -> & _ & _ & _ & Hpl). split_and!; auto. }
  destruct (co_table _ _ HC2 _ _ Hjo2 Hj2) as (_ & Hcnt & Hdn).
  set (σ2' := upd_inodes <[j := gone jn]> σ2).
  assert (core σ2' X) as HC2' by (by apply (core_set _ _ _ jn)).
  assert (map_file σ2' jno) as HM2.
  { apply map_file_set; [|intros y Hy; congruence]. apply (touch_map_file _ _ _ Ht), (map_file_opened _ _ _ _ _ _ _ HC HM Hs0 Ho). }
  assert (σ2'.(inodes) !! j = Some (gone jn)) as Hj2' by (cbn; by rewrite lookup_insert_eq).
  rewrite (bind_Ok _ _ σ2 tt σ2') by (unfold inode_remove, bind, inode_at, set_inode, modify; by rewrite Hj2).
  destruct Ho as [jn0 Hjo0 Hj00 Hjs0|n l Hno Hn Hl]; cbn in Hj; rewrite lookup_insert_eq in Hj; injection Hj as <-.
  - destruct (co_table _ _ HC _ _ Hjo0 Hj00) as (_ & Hc0 & _). exists (upd_inodes <[j := gone jn0]> σ2), X.
    assert (upd_inodes <[j := less (gone (more jn0))]> σ2' = upd_inodes <[j := gone jn0]> σ2) as E.
    { unfold σ2', upd_inodes. cbn. f_equal. rewrite insert_insert_eq. do 2 f_equal. unfold less, gone, more. cbn. f_equal. lia. }
    rewrite <- E. split_and!.
    + apply (inode_close_again _ X); try done. cbn. lia.
    + apply core_less; try done. cbn. lia.
    + exact Hsy.
    + done.
    + intros Hk. left. exists j, jn0. split_and!; try done. rewrite E. destruct Ht as (dk & b & n & l & -> & Hdk & Hb & Hnl & Hpl).
      exists dk, b, n, l. split_and!; try done. unfold upd_inodes, upd_disk, upd_map, upd_heap. cbn. f_equal. apply insert_insert_eq.
  - destruct (inode_close_removed σ2' X jno j (gone (Inode s 1 false 0 x)) HC2' HM2 Hp2 Hjo2 Hj2' eq_refl eq_refl Hs0)
      as (σ3 & Hr3 & Ht3 & HC3 & HM3 & Hsy3 & Hk3 & Hb3). cbn in HC3, Hk3, Hb3.
    exists σ3, (delete s X). split_and!; try done. intros _. right. split_and!; try done; [|by rewrite <- Em].
    apply (drop_touch σ σ2 σ3 j (Inode s 1 false 0 x) (gone (Inode s 1 false 0 x)) n l); [lia|exact Hl| | |exact Ht|exact Ht3].
    + destruct (σ.(inodes) !! j) as [y|] eqn:E; [pose proof (co_ids _ _ HC _ _ E); lia|done].
    + intros Hk. destruct (co_open _ _ HC j Hk) as [y Hy]. pose proof (co_ids _ _ HC _ _ Hy). lia.
Qed.
End remove_inode.

Lemma removed_from_heap σ σ1 X s x σ' X' : heap_only σ σ1 → removed_from σ1 X s x σ' X' → removed_from σ X s x σ' X'.
Proof.
  intros Hh Hr. pose proof (heap_touch _ _ Hh) as Ht. destruct Hh as (n & l & -> & Hn & Hp).
  destruct Hr as [(j & jn & H1 & H2 & H3 & H4 & H5 & H6)|(H1 & H2 & H3 & H4)].
  - left. exists j, jn. split_and!; try done. eapply touch_trans; [|exact H5]. apply heap_touch. by exists n, l.
  - right. split_and!; try done. by eapply touch_trans.
Qed.

Lemma dir_remove_run σ X d i ino jno name :
  open_dir σ d i ino → core σ X → map_file σ jno → synced σ jno → i ∈ σ.(open_inodes) → ino.(sector) = ROOT_DIR_SECTOR → 0 ∉ name →
  (∀ s, has (content σ.(disk) ino.(idata)) name s → is_Some (X !! s) ∧ few_of s σ ∧ s ≠ FREE_MAP_SECTOR ∧ s ≠ ROOT_DIR_SECTOR) →
  let c := content σ.(disk) ino.(idata) in
  ∃ ok σ', dir_remove d name σ = Ok (ok, σ') ∧
    if ok then ∃ s x X', has c name s ∧ X !! s = Some x ∧ core σ' X' ∧ synced σ' jno ∧ removed_from σ X s x σ' X' ∧
      files_kept (delete s X) σ.(disk) σ'.(disk) ∧ dir_wf (content σ'.(disk) ino.(idata)) ∧
      ∀ n s', has (content σ'.(disk) ino.(idata)) n s' ↔ has c n s' ∧ n ≠ name
    else heap_only σ σ' ∧ ∀ s, ¬ has c name s.
Proof.
  intros OD HC HM Hsy Hio Hroot Hname Hin c. pose proof OD as [Hd (y & Hdx & Hxi) Hi Hex Hdeny Hwf Hnext Hpl]. unfold dir_remove.
  destruct (co_table _ _ HC _ _ Hio Hi) as (HXr & _). rewrite Hroot in HXr.
  rewrite bind_assert by (by rewrite (proj2 (Z.eqb_neq d NULL))).
  destruct (lookup_run Hi Hex Hnext Hpl d y name Hname Hwf Hd Hdx Hxi) as (r & σ1 & Hr & Hh1 & Hres).
  rewrite (bind_Ok _ _ _ _ _ Hr). destruct r as [[e ofs]|].
  2:{ exists false, σ1. split; [done|]. split; [done|]. intros s (k & Hk & _). by destruct (Hres k). }
  destruct Hres as (k & -> & -> & Hk). set (s := e_sector _). fold c in s.
  assert (has c name s) as Hhas by (by exists k). destruct (Hin s Hhas) as ([x Hx] & Hfew & Hs0 & Hs1).
  assert (few_of s σ1 ∧ plenty σ1 ∧ map_file σ1 jno) as (Hfew1 & Hp1 & HM1).
  { split_and!; [..|by apply (touch_map_file σ); [apply heap_touch|]]; destruct Hh1 as (? & ? & -> & _ & Hpl'); auto. }
  pose proof (core_heap _ _ _ Hh1 HC) as HC1.
  destruct (inode_open_run σ1 X s x HC1 Hx Hp1 Hfew1) as (j & σ2 & Hr2 & Ho). rewrite (bind_Ok _ _ _ _ _ Hr2).
  destruct (opened_facts _ _ _ _ _ X HC1 Hx Hfew1 Ho) as (HC2 & Hj0 & Hp2 & Ed2 & Em2 & _ & Edi2 & _ & _ & (jn & Hj & Hjs & _) & Hjo).
  rewrite (proj2 (Z.eqb_neq j NULL)) by done.
  assert (σ1.(disk) = σ.(disk) ∧ σ1.(inodes) !! i = Some ino ∧ σ1.(dirs) = σ.(dirs) ∧ σ1.(free_map) = σ.(free_map) ∧ i ∈ σ1.(open_inodes))
    as (Ed1 & Hi1 & Edi1 & Em1 & Hio1) by (by destruct Hh1 as (? & ? & -> & _)).
  assert (i ≠ j) as Hij.
  { intros <-. destruct Ho as [jn0 _ Hj00 Hjs0|n l _ Hn _]; [congruence|]. pose proof (co_ids _ _ HC1 _ _ Hi1). lia. }
  assert (open_dir σ2 d i ino) as OD2.
  { split; try done; rewrite ?Ed2, ?Ed1; try done; [exists y; by rewrite Edi2, Edi1|by rewrite Hjo|apply HC2|auto]. }
  pose proof (erase_run σ2 d i ino name k OD2) as Her. rewrite Ed2, Ed1 in Her.
  destruct (Her Hk) as (dk & σ3 & Hr3 & Hd3 & Hw3 & Hwf3 & Hhas3). fold c in Hr3, Hw3, Hhas3.
  rewrite <- Ed1, <- Ed2 in Hw3. destruct (core_wrote σ2 σ3 X ROOT_DIR_SECTOR ino.(idata) dk _ _ HC2 HXr Hd3 Hw3) as [HC3 Hk3].
  assert (disk σ3 = dk) as Edk by by destruct Hd3 as (? & _ & ->).
  assert (σ3.(free_map) = σ2.(free_map)) as Em3 by by destruct Hd3 as (? & (? & ? & -> & _) & ->).
  pose proof (disk_touch _ _ _ Hd3 (wr_length _ _ _ _ _ _ Hw3)) as Ht3. rewrite Ed2, Ed1 in Hk3. rewrite <- Edk in *.
  assert (synced σ3 jno) as Hsy3.
  { unfold synced. rewrite Em3, Em2, Em1, (Hk3 FREE_MAP_SECTOR); [done| |done]. by apply (map_inode σ). }
  destruct (remove_inode_run HC1 Hx Hfew1 Hp1 HM1 Hs0 Ho Ht3 HC3 Hsy3) as (σ4 & X' & Hr4 & HC4 & Hsy4 & Hk4 & Hrem); [congruence|].
  destruct (bind_inv _ _ _ _ _ Hr4) as ([] & σ3' & Hr4a & Hr4b).
  assert (removed_from σ X s x σ4 X') as Hrem' by (apply (removed_from_heap _ _ _ _ _ _ _ Hh1), Hrem; rewrite Ed1; by apply (Hk3 s)).
  exists true, σ4. split.
  - rewrite (bind_Ok _ _ σ2 true σ3'); [by rewrite (bind_Ok _ _ _ _ _ Hr4b)|].
    rewrite (bind_Ok _ _ σ2 y σ2) by (unfold dir_at; by rewrite Edi2, Edi1, Hdx). rewrite Hxi, (bind_Ok _ _ _ _ _ Hr3).
    rewrite Z.eqb_refl. cbn [negb]. by rewrite (bind_Ok _ _ _ _ _ Hr4a).
  - exists s, x, X'. assert (content σ4.(disk) ino.(idata) = content σ3.(disk) ino.(idata)) as ->.
    { apply (Hk4 ROOT_DIR_SECTOR); [|done]. by rewrite lookup_delete_ne. }
    split_and!; try done. intros s' x' [Hne Hx']%lookup_delete_Some Hn0 Hn1.
    rewrite (Hk4 s' x'); [by apply (Hk3 s')|by rewrite lookup_delete_ne|done].
Qed.

(** The name [name] for sector [s] is gone. *)
Section mounted_less.
Context {σ σ' : fs} {X X' : gmap Z inode_disk} {rx : inode_disk} {jno : inode} {name : list Z} {s : Z} {x : inode_disk}.
Notation c := (content σ.(disk) rx).
Notation c' := (content σ'.(disk) rx).
Context (MO : mounted σ X rx jno) (Hhas : has c name s) (Hx : X !! s = Some x) (HC : core σ' X') (Hsy : synced σ' jno)
  (Hwf : dir_wf c') (Hless : ∀ n s', has c' n s' ↔ has c n s' ∧ n ≠ name).

Lemma mounted_less : removed_from σ X s x σ' X' → mounted σ' X' rx jno.
Proof.
  destruct MO as [H1 H2 H3 H4 H5 H6 H7 H8 H9 H10]. destruct (H8 name s Hhas) as (_ & Hs0 & Hs1).
  assert (∀ n, ¬ has c' n s) as Hnone by (intros n [Hn Hne]%Hless; apply Hne; by apply (H9 n name s)).
  assert (∀ n n' s', has c' n s' → has c' n' s' → n = n') as Hinj by (intros n n' s' [Hn _]%Hless [Hn' _]%Hless; by apply (H9 n n' s')).
  intros [(j & jn & Hjo & Hj & Hjs & -> & Ht & _)|(Hno & -> & Ht & _)].
  - assert (σ'.(inodes) = <[j := gone jn]> σ.(inodes) ∧ σ'.(open_inodes) = σ.(open_inodes)) as [Ei Eo]
      by by destruct Ht as (? & ? & ? & ? & -> & _).
    assert (map_file σ' jno) as HM.
    { apply (touch_map_file _ _ _ Ht), map_file_set; [done|]. intros y Hy. congruence. }
    split; rewrite ?Ei, ?Eo; try done.
    + intros k kn [[<- _]|[_ Hk]]%lookup_insert_Some; [done|by apply (H2 k kn)].
    + intros k kn [[<- <-]|[_ Hk]]%lookup_insert_Some; [cbn; congruence|by apply (H7 k)].
    + intros n s' [Hn _]%Hless. by apply (H8 n).
    + intros k kn [[<- <-]|[_ Hk]]%lookup_insert_Some Hr; [cbn; by rewrite Hjs|].
      destruct (H10 k kn Hk Hr) as [? Hnn]. split; [done|]. intros n [Hn _]%Hless. by apply (Hnn n).
  - assert (σ'.(inodes) = σ.(inodes) ∧ σ'.(open_inodes) = σ.(open_inodes)) as [Ei Eo] by by destruct Ht as (? & ? & ? & ? & -> & _).
    split; rewrite ?Ei, ?Eo; try done.
    + by eapply touch_map_file.
    + by rewrite lookup_delete_ne.
    + intros n s' Hn. assert (s' ≠ s) by (intros ->; by apply (Hnone n)). apply Hless in Hn as [Hn _].
      rewrite lookup_delete_ne by done. by apply (H8 n).
    + intros k kn Hk Hr. destruct (H10 k kn Hk Hr) as [? Hnn]. split; [done|]. intros n [Hn _]%Hless. by apply (Hnn n).
Qed.
End mounted_less.

(** Closing the root after [dir_remove]. *)
Lemma finish_remove σ X rx jno d i σ1 s x σ2 X' :
  mounted σ X rx jno → few_openers σ → rooted rx σ d i σ1 → s ≠ ROOT_DIR_SECTOR → core σ2 X' → removed_from σ1 X s x σ2 X' →
  ∃ σ3, dir_close d σ2 = Ok (tt, σ3) ∧ core σ3 X' ∧ removed_from σ X s x σ3 X' ∧
    σ3.(disk) = σ2.(disk) ∧ σ3.(free_map) = σ2.(free_map).
Proof.
  intros MO Hfew RO Hs HC2 Hrem. pose proof (mo_core _ _ _ _ MO) as HC. pose proof (mo_root _ _ _ _ MO) as Hrx.
  destruct (rooted_facts _ _ _ _ _ _ HC Hrx Hfew RO) as (HC1 & Hp1 & Ed1 & Em1 & _ & _ & Hdn & Edirs & _ & Hio & _ & Hjo & Hoo).
  destruct (root_inode MO RO) as (ino & Hi & His & _ & Hrm & _).
  destruct Hrem as [(j & jn & Hjo1 & Hj & Hjs & -> & Ht & Hcon)|(Hno & -> & Ht & Hb)].
  - assert (j ≠ i) as Hji by congruence. destruct Ht as (dk & b & n & l & E & Hdk & Hb & Hn & Hpl).
    assert (σ2.(inodes) !! i = Some ino ∧ i ∈ σ2.(open_inodes) ∧ σ2.(dirs) !! d = Some (Dir i 0)) as (Hi2 & Ho2 & Hd2).
    { rewrite E. cbn. rewrite Edirs, lookup_insert_eq, lookup_insert_ne by done. done. }
    destruct (dir_close_run σ2 X d i ino HC2 Hdn Hd2 Ho2 Hi2 Hrm) as [Hc HC3].
    exists (unroot d i ino σ2). split_and!; [done|done| |by unfold unroot; case_match|by unfold unroot; case_match].
    destruct (unroot_tables rx σ d i σ1 σ2 X [] ino HC Hrx Hfew RO) as (T1 & T2 & T3 & T4);
      [by rewrite E|done|by rewrite E|set_solver|].
    assert (σ.(inodes) !! j = Some jn) as Hj' by (by rewrite <- Hjo).
    left. exists j, jn. split_and!; try done; [by apply (mo_tidy _ _ _ _ MO j jn)| |].
    + cbn in Hdk, Hb, Hn. rewrite Ed1 in Hdk. rewrite Em1 in Hb. exists dk, b, n, l. split_and!; [|done|done| |].
      * apply fs_ext; try done; try (unfold unroot; rewrite E; case_match; by destruct RO as [(? & ? & ? & Hop & -> & _)]; destruct Hop).
        apply map_eq. intros k. destruct (decide (k = i)) as [->|]; [rewrite T3; cbn; by rewrite lookup_insert_ne|].
        rewrite T4, E by done. cbn. destruct (decide (k = j)) as [->|]; [by rewrite !lookup_insert_eq|].
        rewrite !lookup_insert_ne by done. by apply Hjo.
      * destruct RO as [(? & ? & ? & Hop & -> & ? & _)]. destruct Hop; cbn in *; lia.
      * intros Hp. specialize (Hpl (Hp1 Hp)). unfold plenty, unroot in *. by case_match.
    + rewrite <- Ed1. rewrite <- Hcon. unfold unroot. by case_match.
  - destruct (finish_root MO Hfew RO _ σ2 Ht HC2) as (σ3 & Hr & Ht3 & HC3 & Ed & Em).
    exists σ3. split_and!; try done. right. split_and!; try done; [|by rewrite Em, <- Em1].
    intros j jn Hjo0 Hj. destruct (decide (j = i)) as [->|]; [|by apply (Hno j); [apply Hoo|rewrite Hjo]].
    destruct RO as [(σ' & n1 & l1 & Hop & -> & _)]. destruct Hop as [r0 Hr0o Hr0 Hr0s|n0 l0 Hrno Hrn Hrl].
    + congruence.
    + pose proof (co_ids _ _ HC _ _ Hj). lia.
Qed.

