(* ===== verification/FsMount.v ===== *)
(** * Formatting and mounting

    [filesys_init] on a blank disk with formatting makes a consistent file system with an
    empty root directory, and without formatting it brings back a consistent file system
    from the disk alone: the free map, the directory and the files are those of the
    system that was shut down. *)

From S2P Require Import Prelude Vaddr Bytes Bitmap Filesys FsInode FsDir FsMain FsOps.
Local Open Scope c_scope.

(** ** Consistent disks *)

(** The disk holds the inodes [X], the free map [b] and the root directory [rx]. *)
Record image (σ : fs) (b : bitmap) (X : gmap Z inode_disk) (rx : inode_disk) : Prop := {
  im_core : core (upd_map (λ _, b) σ) X;
  im_map : ∃ x, X !! FREE_MAP_SECTOR = Some x ∧ x.(length_) = byte_cnt b.(bit_cnt) ∧
    content σ.(disk) x = words_bytes b.(bits);
  im_root : X !! ROOT_DIR_SECTOR = Some rx;
  im_dir : dir_wf (content σ.(disk) rx);
  im_named : ∀ n s, has (content σ.(disk) rx) n s → is_Some (X !! s) ∧ s ≠ FREE_MAP_SECTOR ∧ s ≠ ROOT_DIR_SECTOR;
  im_inj : ∀ n n' s, has (content σ.(disk) rx) n s → has (content σ.(disk) rx) n' s → n = n';
}.

Lemma core_files_upd σ X f : core σ X → (∀ p x, f σ.(files) !! p = Some x → p < σ.(next)) → core (upd_files f σ) X.
Proof. intros [] Hd. by split. Qed.

Lemma core_map_file σ X f : core σ X → core (upd_map_file f σ) X.
Proof. intros []. by split. Qed.

(** Nothing is open. *)
Definition closed (σ : fs) : Prop := σ.(open_inodes) = [] ∧ σ.(inodes) = ∅.

Section mount.
Context {σ : fs} {b : bitmap} {X : gmap Z inode_disk} {rx x : inode_disk}.
Context (HC : core (upd_map (λ _, b) σ) X) (Hcl : closed σ) (Hp : plenty σ) (Hx : X !! FREE_MAP_SECTOR = Some x).

Lemma open_map_run :
  ∃ i f n l, open_free_map_file σ =
    Ok (tt, upd_map_file (λ _, f) (upd_files <[f := File i 0 false]> (upd_inodes <[i := Inode FREE_MAP_SECTOR 1 false 0 x]>
      (upd_open (cons i) (upd_heap n l σ))))) ∧ σ.(next) = i ∧ i < f < n ∧ false ∉ l.
Proof.
  destruct Hcl as [Ho Hi]. pose proof (co_next _ _ HC) as Hn. cbn in Hn.
  destruct (alloc_run σ) as (p & σ1 & Hr1 & (n1 & l1 & -> & Hn1 & Hp1) & _ & Hp1').
  destruct (Hp1' Hp) as [-> E1]. cbn in E1. subst n1.
  destruct (co_inode _ _ HC _ _ Hx) as (Hs & Hd & He & Hm & _). pose proof (co_size _ _ HC). cbn [disk upd_map] in Hs, Hd, He.
  set (i := σ.(next)) in *.
  assert (inode_open FREE_MAP_SECTOR σ = Ok (i, upd_inodes <[i := Inode FREE_MAP_SECTOR 1 false 0 x]> (upd_open (cons i) (upd_heap (i + 1) l1 σ)))) as Hr2.
  { unfold inode_open, bind at 1, get. cbv beta iota. rewrite Ho. cbn [find_open].
    rewrite (bind_Ok _ _ σ None σ) by done. rewrite (bind_Ok _ _ _ _ _ Hr1), (proj2 (Z.eqb_neq _ NULL)) by mlia.
    unfold bind at 1, modify at 1. cbv beta iota.
    rewrite (bind_Ok _ _ _ _ _ (disk_read_run (upd_open (cons i) (upd_heap (i + 1) l1 σ)) _ _ Hs ltac:(done) Hd)).
    rewrite decode_encode; [done| | |by rewrite Hm].
    - destruct He as [? ? ? ? _]. unfold data_sectors in *. mc_unfold. dm_lia.
    - destruct He. mlia. }
  unfold open_free_map_file. rewrite (bind_Ok _ _ _ _ _ Hr2).
  match type of Hr2 with _ = Ok (_, ?s2) => destruct (file_open_run s2 i) as (σ3 & Hr3 & n & l & -> & Hn3 & Hl); [by apply Hp1|cbn; lia|mlia|] end.
  rewrite (bind_Ok _ _ _ _ _ Hr3). cbn [next upd_inodes upd_open upd_heap] in *.
  exists i, (i + 1), n, l. split_and!; [|done|lia|lia|done].
  unfold modify, bind. rewrite (proj2 (Z.eqb_neq _ NULL)) by mlia. done.
Qed.

(** The state in which the free map file is open, with the map [b'] in memory. *)
Definition map_open (i f n : Z) (l : list bool) (b' : bitmap) : fs :=
  upd_map_file (λ _, f) (upd_files <[f := File i 0 false]> (upd_inodes <[i := Inode FREE_MAP_SECTOR 1 false 0 x]>
    (upd_open (cons i) (upd_heap n l (upd_map (λ _, b') σ))))).

Lemma map_open_core i f n l :
  σ.(next) = i → i < f < n → false ∉ l → core (map_open i f n l b) X.
Proof.
  intros Hi Hf Hl. destruct Hcl as [Ho Hin].
  apply core_map_file, core_files_upd.
  - refine (proj1 (opened_facts FREE_MAP_SECTOR x _ i _ X HC Hx _ (opened_new _ _ _ _ n l _ _ _))).
    + intros j jno Hj. cbn in Hj. rewrite Ho in Hj. by apply not_elem_of_nil in Hj.
    + intros j jno Hj. cbn in Hj. rewrite Ho in Hj. by apply not_elem_of_nil in Hj.
    + cbn. lia.
    + done.
  - cbn. intros p y [[<- _]|[_ Hy]]%lookup_insert_Some; [lia|]. pose proof (co_files _ _ HC p y Hy) as Hlt. cbn in Hlt. lia.
Qed.

Lemma map_open_file i f n l :
  0 < f → x.(length_) = byte_cnt b.(bit_cnt) → map_file (map_open i f n l b) (Inode FREE_MAP_SECTOR 1 false 0 x).
Proof.
  intros Hf Hlen. split; try done; [|cbn; mlia]. exists (File i 0 false). cbn. rewrite !lookup_insert_eq. split_and!; try done. left.
Qed.

Context (IM : image σ b X rx).

(** With the right map in memory the opened image is mounted. *)
Lemma map_open_mounted i f n l b' :
  σ.(next) = i → i < f < n → false ∉ l → wf b' → b'.(bit_cnt) = b.(bit_cnt) →
  (∀ j, 0 ≤ j < b.(bit_cnt) → bit b' j = bit b j) → x.(length_) = byte_cnt b.(bit_cnt) →
  content σ.(disk) x = words_bytes b.(bits) →
  mounted (map_open i f n l b') X rx (Inode FREE_MAP_SECTOR 1 false 0 x).
Proof.
  intros Hi Hf Hl Hwf Hbc Hbits Hlen Hcon. pose proof (map_open_core i f n l Hi Hf Hl) as HC1.
  destruct Hcl as [Ho Hin]. pose proof HC as HC0. pose proof (co_next _ _ HC0) as Hn. cbn in Hn.
  pose proof (co_cnt _ _ HC0) as Hcnt. cbn in Hcnt.
  assert (∀ k kn, (map_open i f n l b').(inodes) !! k = Some kn → k = i ∧ kn = Inode FREE_MAP_SECTOR 1 false 0 x) as Hone.
  { cbn. rewrite Hin. intros k kn [[<- <-]|[_ Hk]]%lookup_insert_Some; [done|]. by rewrite lookup_empty in Hk. }
  split; try apply IM.
  - apply (core_map_upd (map_open i f n l b) X X b' HC1 Hwf Hbc); [done| |by intros k kn Hk Hkn; apply (co_table _ _ HC1 k)].
    intros s y j Hy Hj. destruct (co_inode _ _ HC0 s y Hy) as (Hs & _ & [? ? ? ? _] & _). cbn in Hs.
    rewrite Hbits by (cbn in *; destruct Hj as [->|]; lia). by apply (co_marked _ _ HC0 s y).
  - intros k kn [-> _]%Hone. left.
  - pose proof (map_open_file i f n l ltac:(lia) Hlen) as [? ? ? ? ?]. split; try done. cbn. congruence.
  - exists b. split_and!; [apply HC0|done|done|]. intros j Hj. by rewrite <- Hbits.
  - by intros k kn [_ ->]%Hone.
  - by intros k kn [_ ->]%Hone.
Qed.

(** [free_map_open] mounts. *)
Lemma free_map_open_run :
  wf σ.(free_map) → σ.(free_map).(bit_cnt) = b.(bit_cnt) → x.(length_) = byte_cnt b.(bit_cnt) →
  content σ.(disk) x = words_bytes b.(bits) →
  ∃ σ' jno, free_map_open σ = Ok (tt, σ') ∧ mounted σ' X rx jno ∧ σ'.(disk) = σ.(disk) ∧ σ'.(dirs) = σ.(dirs) ∧
    plenty σ' ∧ few_openers σ' ∧ ∀ j, 0 ≤ j < b.(bit_cnt) → bit σ'.(free_map) j = bit b j.
Proof.
  intros Hwf Hbc Hlen Hcon. destruct open_map_run as (i & f & n & l & Hr & Hi & Hf & Hl).
  pose proof HC as HC0. pose proof (co_next _ _ HC0) as Hn. cbn in Hn.
  pose proof (co_cnt _ _ HC0) as Hcnt. pose proof (co_map _ _ HC0) as Hwfb. cbn in Hcnt, Hwfb.
  destruct (co_inode _ _ HC0 _ _ Hx) as (Hs & _ & Hex & _). cbn [disk upd_map] in Hs, Hex.
  destruct (byte_cnt_eq _ Hwfb) as [Hbyte _]. pose proof (words_bytes_zlen b.(bits)) as Hwl.
  set (σ1 := map_open i f n l σ.(free_map)). assert (open_free_map_file σ = Ok (tt, σ1)) as Hr1 by exact Hr.
  assert (σ1.(inodes) !! i = Some (Inode FREE_MAP_SECTOR 1 false 0 x)) as Hi1 by (cbn; by rewrite lookup_insert_eq).
  destruct (inode_read_content σ1 i _ (byte_cnt b.(bit_cnt)) 0 Hi1 Hex ltac:(cbn; lia) ltac:(done) ltac:(lia))
    as (bs & σ2 & Hr2 & (n2 & l2 & -> & Hn2 & Hp2) & _ & Hbs).
  specialize (Hbs Hl). cbn [disk σ1 map_open upd_map_file upd_files upd_inodes upd_open upd_heap upd_map idata] in Hbs.
  rewrite Hcon, drop_0, take_ge in Hbs by lia. subst bs.
  assert (0 < zlen σ.(disk)) as Hpos by lia.
  destruct (bitmap_read_ok (λ size, file_read_at f size 0) b σ.(free_map) σ1 (upd_heap n2 l2 σ1) Hwfb Hwf Hbc)
    as (b' & Hrd & Hwf' & Hbc' & Hbits); [|lia|].
  { unfold file_read_at. rewrite (bind_Ok _ _ σ1 (File i 0 false) σ1); [exact Hr2|]. unfold file_at. cbn. by rewrite lookup_insert_eq. }
  exists (map_open i f n2 l2 b'), (Inode FREE_MAP_SECTOR 1 false 0 x). split_and!; try done.
  - unfold free_map_open. rewrite (bind_Ok _ _ _ _ _ Hr1). unfold bind at 1, get. cbv beta iota.
    rewrite (bind_Ok _ _ _ _ _ Hrd). reflexivity.
  - apply map_open_mounted; try done; [cbn in Hn2; lia|by apply Hp2].
  - by apply Hp2.
  - intros k kn _ Hk. cbn in Hk. destruct Hcl as [_ Hin]. rewrite Hin in Hk.
    apply lookup_insert_Some in Hk as [[_ <-]|[_ Hk]]; [done|by rewrite lookup_empty in Hk].
Qed.
End mount.

(** ** [filesys_init] *)

Lemma free_map_init_run σ store :
  2 ≤ zlen σ.(disk) ≤ 268435456 → zlen store = elem_cnt (zlen σ.(disk)) → Forall is_u32 store →
  ∃ b, free_map_init true (Some store) σ = Ok (tt, upd_map (λ _, b) σ) ∧ wf b ∧ b.(bit_cnt) = zlen σ.(disk) ∧
    ∀ j, 0 ≤ j < zlen σ.(disk) → bit b j = (j <? 2).
Proof.
  intros Hn Hl Hu. destruct (bitmap_create_ok (zlen σ.(disk)) store) as (b & Hb & Hwf & Hc & Hall); [lia|done..|].
  unfold free_map_init. rewrite (bind_Ok _ _ σ (zlen σ.(disk)) σ) by done. rewrite Hb.
  rewrite (bind_Ok _ _ σ tt (upd_map (λ _, b) σ)) by done.
  destruct (bitmap_mark_ok b FREE_MAP_SECTOR Hwf) as (b1 & Hr1 & Hwf1 & Hc1 & Hb1); [unfold FREE_MAP_SECTOR; lia|].
  destruct (bitmap_mark_ok b1 ROOT_DIR_SECTOR Hwf1) as (b2 & Hr2 & Hwf2 & Hc2 & Hb2); [unfold ROOT_DIR_SECTOR; lia|].
  rewrite (bind_Ok _ _ _ _ _ (on_free_map_run (bitmap_mark FREE_MAP_SECTOR) (upd_map (λ _, b) σ) _ _ Hr1)).
  rewrite (on_free_map_run (bitmap_mark ROOT_DIR_SECTOR) (upd_map (λ _, b1) (upd_map (λ _, b) σ)) _ _ Hr2).
  exists b2. split_and!; [done|done|congruence|]. intros j Hj. rewrite Hb2, Hb1, Hall by lia.
  unfold FREE_MAP_SECTOR, ROOT_DIR_SECTOR. repeat zcase; done || lia.
Qed.

(** A mounted file system can be found again on its disk. *)
Lemma mounted_image σ X rx jno m n l :
  mounted σ X rx jno → 0 < n →
  ∃ b, image (Fs σ.(disk) m NULL [] ∅ ∅ ∅ n l) b X rx ∧ ∀ j, 0 ≤ j < zlen σ.(disk) → bit b j = bit σ.(free_map) j.
Proof.
  intros [HC H2 H3 (b & Hwf & Hbc & Hcon & Hbits) H5 H6 H7 H8 H9 H10] Hn. pose proof (co_cnt _ _ HC) as Hcnt.
  exists b. split; [|intros j Hj; apply Hbits; lia]. split; try done.
  - pose proof HC as [C1 C2 C3 C4 C5 C6 C7 Ccl C8 C9 C10 C11 Cids C12 C13 C14]. split; cbn; try done;
      try (intros ? Hin; by apply not_elem_of_nil in Hin); try (intros ? ? Hin; by apply not_elem_of_nil in Hin);
      try (intros ? ? Hin; by rewrite lookup_empty in Hin).
    + congruence.
    + intros s x j Hx Hj. destruct (C5 s x Hx) as (? & _ & [? ? ? ? _] & _).
      rewrite Hbits by (destruct Hj as [->|]; lia). by apply (C6 s x).
    + apply NoDup_nil_2.
  - exists jno.(idata). split_and!; [by apply (map_inode σ)|rewrite Hbc; apply H3|exact Hcon].
Qed.

(** ** Formatting *)

Lemma core_blank σ b :
  Forall (λ s, length s = 512%nat) σ.(disk) → zlen σ.(disk) ≤ 268435456 → wf b → b.(bit_cnt) = zlen σ.(disk) →
  closed σ → σ.(dirs) = ∅ → σ.(files) = ∅ → 0 < σ.(next) → core (upd_map (λ _, b) σ) ∅.
Proof.
  intros H1 H2 H3 H4 [Ho Hi] Hd Hf Hn. split; cbn; rewrite ?Ho, ?Hi, ?Hd, ?Hf; try done;
    try (intros ? Hin; by apply not_elem_of_nil in Hin); try (intros ? ? Hin; by apply not_elem_of_nil in Hin).
  apply NoDup_nil_2.
Qed.

(** A directory of zeros has no entries. *)
Lemma zero_dir n : dir_wf (replicate n 0) ∧ ∀ name s, ¬ has (replicate n 0) name s.
Proof.
  assert (∀ k, e_in_use (entry (replicate n 0) k) = false) as Hu.
  { intros k. unfold e_in_use, entry. rewrite drop_replicate, take_replicate.
    destruct (replicate _ 0 !! 19%nat) as [v|] eqn:E; [|done]. by apply lookup_replicate in E as [-> _]. }
  split; [|by intros name s (k & [_ Hk _] & _); rewrite Hu in Hk]. split.
  - intros k _ Hk. by rewrite Hu in Hk.
  - intros name j k [_ Hk _]. by rewrite Hu in Hk.
Qed.

(** The map fits with room for one sector more. *)
Lemma map_sectors n :
  4 ≤ n → let len := 4 * ((n + 31) `div` 32) in 1 ≤ data_sectors len ∧ 3 + data_sectors len ≤ n ∧ 0 ≤ len ≤ n + 31.
Proof.
  intros Hn len. subst len. unfold data_sectors. set (w := (n + 31) `div` 32). assert (32 * w ≤ n + 31 ∧ n ≤ 32 * w) by (subst w; dm_lia).
  clearbody w. dm_lia.
Qed.

(** [free_map_create] on a blank disk: the map in its file, the file open. *)
Lemma free_map_create_run σ :
  core σ ∅ → closed σ → plenty σ → σ.(free_map_file) = NULL → 4 ≤ zlen σ.(disk) →
  (∀ j, 0 ≤ j < zlen σ.(disk) → bit σ.(free_map) j = (j <? 2)) →
  ∃ i f n l x σ', free_map_create σ = Ok (tt, σ') ∧
    (∃ σ1, σ1.(files) = σ.(files) ∧ σ1.(dirs) = σ.(dirs) ∧ closed σ1 ∧ touch (map_open (σ := σ1) (x := x) i f n l σ1.(free_map)) σ' ∧
       i < f < n ∧ σ1.(next) = i ∧ zlen σ1.(disk) = zlen σ.(disk)) ∧
    plenty σ' ∧ core σ' {[FREE_MAP_SECTOR := x]} ∧ map_file σ' (Inode FREE_MAP_SECTOR 1 false 0 x) ∧
    synced σ' (Inode FREE_MAP_SECTOR 1 false 0 x) ∧ 2 ≤ x.(start) ∧ ∃ k, 0 ≤ k ∧ 3 + k ≤ zlen σ.(disk) ∧
    ∀ j, 0 ≤ j < zlen σ.(disk) → bit σ'.(free_map) j = (j <? 2) || in_range x.(start) k j.
Proof.
  intros HC Hcl Hp Hnull Hn Hbits. pose proof (co_size _ _ HC). pose proof (co_cnt _ _ HC) as Hcnt.
  destruct (byte_cnt_eq _ (co_map _ _ HC)) as [Hbyte _]. rewrite (wf_len _ (co_map _ _ HC)), Hcnt in Hbyte.
  set (len := byte_cnt σ.(free_map).(bit_cnt)) in *. set (k := data_sectors len).
  destruct (map_sectors (zlen σ.(disk)) Hn) as (Hk0 & Hk & Hlen'). rewrite <- Hbyte, <- Hcnt in Hk0, Hk, Hlen'. fold len in Hk0, Hk, Hlen'. fold k in Hk0, Hk.
  rewrite Hcnt in Hk, Hlen'. assert (0 ≤ len ≤ 2147483136) as Hlen by lia.
  unfold free_map_create. rewrite (bind_Ok _ _ σ len σ) by (unfold on_free_map, bitmap_file_size; cbn; by destruct σ).
  destruct (inode_create_run σ ∅ (Inode 0 0 false 0 (InodeDisk 0 0 0)) FREE_MAP_SECTOR len HC (or_introl Hnull) Hp) as (ok & σ1 & Hr & Ht & _ & _ & Hm & Hres);
    [unfold FREE_MAP_SECTOR; lia|lia|by rewrite Hbits by (unfold FREE_MAP_SECTOR; lia)|done|].
  rewrite (bind_Ok _ _ _ _ _ Hr).
  assert (zlen σ1.(disk) = zlen σ.(disk) ∧ plenty σ1 ∧ closed σ1 ∧ σ1.(files) = σ.(files) ∧ σ1.(dirs) = σ.(dirs)) as (Ed1 & Hp1 & Hcl1 & Ef1 & Edi1).
  { destruct Ht as (? & ? & ? & ? & -> & Hl & _ & _ & Hpl). split_and!; try done; [cbn; lia|by apply Hpl]. }
  destruct ok.
  2:{ destruct Hres as [_ Hno]. destruct (Hno 2); [done|rewrite bytes_to_sectors_eq by lia; fold k; lia|].
      rewrite bytes_to_sectors_eq by lia. fold k. intros j Hj. rewrite Hbits by lia. apply Z.ltb_ge. lia. }
  destruct Hres as (x & Hxl & HC1 & _ & Hclear & Hb1). fold k in Hclear, Hb1.
  assert (core (upd_map (λ _, σ1.(free_map)) σ1) {[FREE_MAP_SECTOR := x]}) as HC1'
    by (replace (upd_map (λ _, σ1.(free_map)) σ1) with σ1 by (by destruct σ1); by rewrite insert_empty in HC1).
  assert (({[FREE_MAP_SECTOR := x]} : gmap Z inode_disk) !! FREE_MAP_SECTOR = Some x) as Hx by apply lookup_singleton_eq.
  destruct (open_map_run HC1' Hcl1 Hp1 Hx) as (i & f & n & l & Hr2 & Hi & Hf & Hl). cbn [negb]. rewrite (bind_Ok _ _ _ _ _ Hr2).
  set (σ2 := map_open (σ := σ1) (x := x) i f n l σ1.(free_map)). change (upd_map_file _ _) with σ2.
  pose proof (map_open_core HC1' Hcl1 Hx i f n l Hi Hf Hl) as HC2. fold σ2 in HC2.
  assert (σ1.(free_map).(bit_cnt) = σ.(free_map).(bit_cnt)) as Ebc by (by destruct Ht as (? & ? & ? & ? & -> & _ & Hb & _)).
  assert (map_file σ2 (Inode FREE_MAP_SECTOR 1 false 0 x)) as HM2.
  { pose proof (co_next _ _ HC1). apply map_open_file; [lia|]. by rewrite Hxl, Ebc. }
  destruct (write_free_map_run σ2 _ _ HC2 HM2 Hl) as (σ3 & Hr3 & Ht3 & Em3 & HC3 & Hsy3 & _).
  rewrite (bind_Ok _ _ _ _ _ Hr3). exists i, f, n, l, x, σ3. split_and!; [done| |..].
  - exists σ1. split_and!; done || lia.
  - destruct Ht3 as (? & ? & ? & ? & -> & _ & _ & _ & Hpl). by apply Hpl.
  - done.
  - by eapply touch_map_file.
  - done.
  - destruct (co_inode _ _ HC1 _ _ Hx) as (_ & _ & [? ? Hend Hsz _] & _).
    rewrite Hxl in Hend. fold k in Hend. specialize (Hclear x.(start) ltac:(lia)). rewrite Hbits in Hclear by lia.
    by apply Z.ltb_ge in Hclear.
  - exists k. split_and!; [lia..|]. intros j Hj. rewrite Em3. change (free_map σ2) with σ1.(free_map).
    rewrite Hb1, Hbits by lia. by destruct (j <? 2), (in_range _ _ _).
Qed.

Lemma core_map_same σ X b :
  core σ X → wf b → b.(bit_cnt) = σ.(free_map).(bit_cnt) → (∀ j, 0 ≤ j < b.(bit_cnt) → bit b j = bit σ.(free_map) j) →
  core (upd_map (λ _, b) σ) X.
Proof.
  intros HC Hwf Hbc Hb. pose proof (co_cnt _ _ HC) as Hcnt. apply (core_map_upd σ X X); try done; [|by intros k kn Hk Hkn; apply (co_table _ _ HC k)].
  intros s x j Hx Hj. destruct (co_inode _ _ HC s x Hx) as (? & _ & [? ? ? ? _] & _).
  rewrite Hb by (destruct Hj as [->|]; lia). by apply (co_marked _ _ HC s x).
Qed.

(** Closing the file of the free map when nothing else is open. *)
Lemma free_map_close_run σ σ1 X i f n l b x :
  closed σ1 → touch (map_open (σ := σ1) (x := x) i f n l b) σ → core σ X → f ≠ NULL →
  ∃ σ', free_map_close σ = Ok (tt, σ') ∧ closed σ' ∧ σ'.(disk) = σ.(disk) ∧ σ'.(free_map) = σ.(free_map) ∧
    σ'.(dirs) = σ1.(dirs) ∧ core σ' X ∧ (plenty σ → plenty σ').
Proof.
  intros [Ho Hi] Ht HC Hf. pose (jno := Inode FREE_MAP_SECTOR 1 false 0 x).
  assert (σ.(files) = <[f := File i 0 false]> σ1.(files) ∧ σ.(inodes) = {[i := jno]} ∧ σ.(open_inodes) = [i] ∧
    σ.(free_map_file) = f ∧ σ.(dirs) = σ1.(dirs)) as (Ef & Ei & Eo & Eff & Ed).
  { destruct Ht as (? & ? & ? & ? & -> & _). cbn. rewrite Ho, Hi. done. }
  assert (σ.(inodes) !! i = Some jno) as Hij by (rewrite Ei; apply lookup_singleton_eq).
  exists (upd_files (delete f) (drop_inode i σ)). split_and!; try done.
  - unfold free_map_close, bind at 1, get. cbv beta iota. rewrite Eff. unfold file_close.
    rewrite (proj2 (Z.eqb_neq f NULL)) by done.
    assert (file_at f σ = Ok (File i 0 false, σ)) as Hfa by (unfold file_at; by rewrite Ef, lookup_insert_eq).
    rewrite (bind_Ok _ _ σ tt σ).
    2:{ unfold file_allow_write. rewrite bind_assert by (by rewrite (proj2 (Z.eqb_neq f NULL))). by rewrite (bind_Ok _ _ _ _ _ Hfa). }
    rewrite (bind_Ok _ _ _ _ _ Hfa). by rewrite (bind_Ok _ _ _ _ _ (inode_close_last σ X i jno HC Hij eq_refl eq_refl)).
  - split; cbn; [rewrite Eo, filter_cons_False by tauto; done|rewrite Ei; apply delete_singleton_eq].
  - apply core_files_upd; [by apply core_drop|]. cbn. intros p y [_ Hy]%lookup_delete_Some. by apply (co_files _ _ HC p y).
Qed.

(** [do_format] leaves the image of an empty file system. *)
Lemma do_format_run σ :
  core σ ∅ → closed σ → plenty σ → σ.(free_map_file) = NULL → 4 ≤ zlen σ.(disk) →
  (∀ j, 0 ≤ j < zlen σ.(disk) → bit σ.(free_map) j = (j <? 2)) →
  ∃ σ' b x rx, do_format σ = Ok (tt, σ') ∧ closed σ' ∧ plenty σ' ∧ wf σ'.(free_map) ∧ σ'.(free_map).(bit_cnt) = b.(bit_cnt) ∧
    image σ' b (<[ROOT_DIR_SECTOR := rx]> {[FREE_MAP_SECTOR := x]}) rx ∧
    content σ'.(disk) rx = replicate 320 0 ∧ zlen σ'.(disk) = zlen σ.(disk).
Proof.
  intros HC Hcl Hp Hnull Hn Hbits.
  destruct (free_map_create_run σ HC Hcl Hp Hnull Hn Hbits) as (i & f & n & l & x & σ1 & Hr1 & (σ0 & Ef & Ed & Hcl0 & Ht1 & Hf & Hi & Edk) &
    Hp1 & HC1 & HM1 & Hsy1 & Hst & k & Hk0 & Hk & Hb1).
  set (jno := Inode FREE_MAP_SECTOR 1 false 0 x) in *.
  assert (zlen σ1.(disk) = zlen σ.(disk)) as Ed1 by (destruct Ht1 as (? & ? & ? & ? & -> & Hl & _); cbn in *; lia).
  assert (∃ p, 0 ≤ p ∧ p + 1 ≤ zlen σ1.(disk) ∧ all_are σ1.(free_map) p 1 false) as (p & Hp0 & Hpn & Hpf).
  { exists (if decide (x.(start) = 2) then 2 + k else 2). destruct (decide (x.(start) = 2)) as [E|]; (split_and!; [lia..|]);
      intros j Hj; rewrite Hb1 by lia; unfold in_range; rewrite ?E; repeat zcase; done || lia. }
  destruct (inode_create_run σ1 _ jno ROOT_DIR_SECTOR 320 HC1 (or_intror HM1) Hp1) as (ok & σ2 & Hr2 & Ht2 & Hsy2 & Hk2 & _ & Hres).
  { unfold ROOT_DIR_SECTOR. lia. }
  { lia. }
  { rewrite Hb1 by (unfold ROOT_DIR_SECTOR; lia). done. }
  { intros s' x' [<- <-]%lookup_singleton_Some [E|Hin]; [done|]. unfold ROOT_DIR_SECTOR in Hin. lia. }
  destruct ok; [|by destruct Hres as [_ Hno]; destruct (Hno p Hp0 Hpn)].
  destruct Hres as (rx & Hrl & HC2 & Hzero & _). specialize (Hsy2 HM1 Hsy1).
  pose proof (touch_trans _ _ _ Ht1 Ht2) as Ht12.
  destruct (free_map_close_run σ2 σ0 _ i f n l _ x Hcl0 Ht12 HC2) as (σ3 & Hr3 & Hcl3 & Ed3 & Em3 & _ & HC3 & Hp3).
  { intros E. apply (mf_null _ _ HM1). by destruct Ht1 as (? & ? & ? & ? & -> & _). }
  destruct Hsy2 as (b & Hwf & Hbc & Hcon & Hbits2). destruct (zero_dir 320) as [Hwz Hnz].
  exists σ3, b, x, rx. split_and!; try done.
  - unfold do_format. rewrite (bind_Ok _ _ _ _ _ Hr1). change (dir_create ROOT_DIR_SECTOR 16) with (inode_create ROOT_DIR_SECTOR 320).
    by rewrite (bind_Ok _ _ _ _ _ Hr2).
  - apply Hp3. destruct Ht2 as (? & ? & ? & ? & -> & _ & _ & _ & Hpl). by apply Hpl.
  - apply HC3.
  - by rewrite Em3.
  - split; rewrite ?Ed3, ?Hzero; try done.
    + apply core_map_same; rewrite ?Em3; done.
    + exists x. split_and!; [|rewrite Hbc|done].
      * rewrite lookup_insert_ne by done. apply lookup_singleton_eq.
      * apply (touch_map_file _ _ _ Ht2) in HM1. apply HM1.
    + intros n' s' Hn'. by destruct (Hnz n' s').
    + intros n' n'' s' Hn'. by destruct (Hnz n' s').
  - by rewrite Ed3.
  - rewrite Ed3. destruct Ht2 as (? & ? & ? & ? & -> & Hl & _). cbn in *. lia.
Qed.

(** A machine that has just booted, with the disk [d]: the free map is not yet allocated. *)
Definition boot (d : list (list Z)) (m : bitmap) (n : Z) (l : list bool) : fs := Fs d m NULL [] ∅ ∅ ∅ n l.

Lemma format_run d m store n l :
  Forall (λ s, length s = 512%nat) d → 4 ≤ zlen d ≤ 268435456 → zlen store = elem_cnt (zlen d) → Forall is_u32 store →
  0 < n → false ∉ l →
  ∃ σ x rx jno, filesys_init true (Some store) true (boot d m n l) = Ok (tt, σ) ∧
    mounted σ (<[ROOT_DIR_SECTOR := rx]> {[FREE_MAP_SECTOR := x]}) rx jno ∧ content σ.(disk) rx = replicate 320 0 ∧
    zlen σ.(disk) = zlen d ∧ plenty σ ∧ few_openers σ.
Proof.
  intros Hd Hn Hl Hu Hn0 Hp. destruct (free_map_init_run (boot d m n l) store) as (b & Hr1 & Hwf & Hbc & Hbits); [cbn; lia|done..|].
  cbn [disk boot] in Hbc, Hbits. set (σ1 := upd_map (λ _, b) (boot d m n l)) in *.
  assert (core σ1 ∅) as HC1 by (apply core_blank; cbn; done || lia).
  destruct (do_format_run σ1 HC1) as (σ2 & b2 & x & rx & Hr2 & Hcl2 & Hp2 & Hwf2 & Hbc2 & IM & Hzero & Ed); [done..|cbn; lia|done|].
  destruct (im_map _ _ _ _ IM) as (x' & Hx' & Hxl & Hcon).
  destruct (free_map_open_run (im_core _ _ _ _ IM) Hcl2 Hp2 Hx' IM Hwf2 Hbc2 Hxl Hcon) as (σ3 & jno & Hr3 & MO & Ed3 & _ & Hp3 & Hfew & _).
  exists σ3, x, rx, jno. split_and!; try done; [|by rewrite Ed3|by rewrite Ed3].
  unfold filesys_init. rewrite (bind_Ok _ _ _ tt (boot d m n l)) by done. rewrite (bind_Ok _ _ _ _ _ Hr1).
  by rewrite (bind_Ok _ _ _ _ _ Hr2).
Qed.

(** ** Correctness *)

(** Property C10.  [filesys_init] with formatting, on any disk with at least four sectors
    and whatever is on them, makes a consistent file system: the only inodes are the free
    map and the root directory, the directory has no entries, and the free map marks the
    sectors of both, in memory and in its file on the disk. *)
Theorem filesys_init_formats d m store n l :
  Forall (λ s, length s = 512%nat) d → 4 ≤ zlen d ≤ 268435456 → zlen store = elem_cnt (zlen d) → Forall is_u32 store →
  0 < n → false ∉ l →
  ∃ σ x rx jno, filesys_init true (Some store) true (boot d m n l) = Ok (tt, σ) ∧
    mounted σ (<[ROOT_DIR_SECTOR := rx]> {[FREE_MAP_SECTOR := x]}) rx jno ∧ ∀ name s, ¬ has (content σ.(disk) rx) name s.
Proof.
  intros Hd Hn Hl Hu Hn0 Hp. destruct (format_run d m store n l Hd Hn Hl Hu Hn0 Hp) as (σ & x & rx & jno & Hr & MO & Hz & _).
  exists σ, x, rx, jno. split_and!; [done..|]. rewrite Hz. apply zero_dir.
Qed.

(** Property C9.  What is on the disk is the whole file system: [filesys_init] without
    formatting, on a machine that boots with the disk of any mounted file system, mounts
    a consistent file system with the same inodes, the same root directory, the same
    contents of every file and the same free sectors, and writes nothing. *)
Theorem filesys_remount σ X rx jno m store n l :
  mounted σ X rx jno → zlen store = elem_cnt (zlen σ.(disk)) → Forall is_u32 store → 0 < n → false ∉ l →
  ∃ σ' jno', filesys_init true (Some store) false (boot σ.(disk) m n l) = Ok (tt, σ') ∧ mounted σ' X rx jno' ∧
    σ'.(disk) = σ.(disk) ∧ ∀ j, 0 ≤ j < zlen σ.(disk) → bit σ'.(free_map) j = bit σ.(free_map) j.
Proof.
  intros MO Hl Hu Hn Hp. pose proof (mo_core _ _ _ _ MO) as HC. pose proof (co_size _ _ HC).
  destruct (co_inode _ _ HC _ _ (mo_root _ _ _ _ MO)) as (Hroot & _). unfold ROOT_DIR_SECTOR in Hroot.
  destruct (free_map_init_run (boot σ.(disk) m n l) store) as (b1 & Hr1 & Hwf & Hbc & _); [cbn; lia|done..|].
  cbn [disk boot] in Hbc. set (σ1 := upd_map (λ _, b1) (boot σ.(disk) m n l)) in *.
  destruct (mounted_image σ X rx jno b1 n l MO Hn) as (b & IM & Hbits).
  destruct (im_map _ _ _ _ IM) as (x & Hx & Hxl & Hcon). pose proof (co_cnt _ _ (im_core _ _ _ _ IM)) as Hcnt. cbn in Hcnt.
  destruct (free_map_open_run (σ := σ1) (im_core _ _ _ _ IM) (conj eq_refl eq_refl) Hp Hx IM Hwf) as (σ3 & jno' & Hr3 & MO3 & Ed3 & _ & _ & _ & Hb3);
    [cbn; congruence|done..|].
  exists σ3, jno'. split_and!; try done.
  - unfold filesys_init. rewrite (bind_Ok _ _ _ tt (boot σ.(disk) m n l)) by done. rewrite (bind_Ok _ _ _ _ _ Hr1).
    by rewrite (bind_Ok _ _ σ1 tt σ1).
  - intros j Hj. rewrite Hb3 by lia. by apply Hbits.
Qed.

(** ** Witnesses: a disk of forty blank sectors *)

Definition blank : list (list Z) := replicate 40 (replicate 512 0).
Definition no_map : bitmap := {| bit_cnt := 0; bits := [] |}.

Lemma blank_ok :
  Forall (λ s, length s = 512%nat) blank ∧ 4 ≤ zlen blank ≤ 268435456 ∧ zlen [7; 7] = elem_cnt (zlen blank) ∧
  Forall is_u32 [7; 7] ∧ 0 < 100 ∧ false ∉ ([] : list bool).
Proof. split_and!; try done; [by repeat constructor|by repeat constructor|apply not_elem_of_nil]. Qed.

Lemma filesys_init_formats_witness :
  ∃ σ x rx jno, filesys_init true (Some [7; 7]) true (boot blank no_map 100 []) = Ok (tt, σ) ∧
    mounted σ (<[ROOT_DIR_SECTOR := rx]> {[FREE_MAP_SECTOR := x]}) rx jno.
Proof.
  destruct blank_ok as (H1 & H2 & H3 & H4 & H5 & H6).
  destruct (filesys_init_formats blank no_map [7; 7] 100 [] H1 H2 H3 H4 H5 H6) as (σ & x & rx & jno & Hr & MO & _).
  exists σ, x, rx, jno. split; [exact Hr|exact MO].
Defined.

(** The formatted disk, mounted. *)
Lemma formatted : ∃ σ X rx jno, filesys_init true (Some [7; 7]) true (boot blank no_map 100 []) = Ok (tt, σ) ∧
  mounted σ X rx jno ∧ zlen σ.(disk) = 40 ∧ plenty σ ∧ few_openers σ.
Proof.
  destruct blank_ok as (H1 & H2 & H3 & H4 & H5 & H6).
  destruct (format_run blank no_map [7; 7] 100 [] H1 H2 H3 H4 H5 H6) as (σ & x & rx & jno & Hr & MO & _ & Ed & Hp & Hf).
  exists σ, (<[ROOT_DIR_SECTOR := rx]> {[FREE_MAP_SECTOR := x]}), rx, jno. split_and!; [exact Hr|exact MO|exact Ed|exact Hp|exact Hf].
Qed.

Lemma words_ok : Forall is_u32 [9; 9].
Proof. by repeat constructor. Qed.

Lemma filesys_remount_witness :
  ∃ σ σ', filesys_init true (Some [7; 7]) true (boot blank no_map 100 []) = Ok (tt, σ) ∧
    filesys_init true (Some [9; 9]) false (boot σ.(disk) no_map 5 []) = Ok (tt, σ').
Proof.
  destruct formatted as (σ & X & rx & jno & Hr & MO & Ed & _).
  destruct (filesys_remount σ X rx jno no_map [9; 9] 5 [] MO) as (σ' & jno' & Hr' & _);
    [rewrite Ed; reflexivity|exact words_ok|reflexivity|apply not_elem_of_nil|].
  exists σ, σ'. split; [exact Hr|exact Hr'].
Defined.

Lemma name_ok : (0 : Z) ∉ [65; 66].
Proof. set_solver. Qed.

Lemma size_ok : 0 ≤ 600 < 2147483648.
Proof. lia. Qed.


Lemma filesys_open_ok_witness :
  ∃ σ f σ', filesys_init true (Some [7; 7]) true (boot blank no_map 100 []) = Ok (tt, σ) ∧
    filesys_open [65; 66] σ = Ok (f, σ').
Proof.
  destruct formatted as (σ & X & rx & jno & Hr & MO & _ & Hp & Hf).
  destruct (filesys_open_ok σ X rx jno [65; 66] MO Hp Hf name_ok) as (f & σ' & Hr' & _).
  exists σ, f, σ'. split; [exact Hr|exact Hr'].
Defined.


(** A file of 600 bytes is created twice under one name: the second call fails, and the two
    sectors it had allocated for the data stay marked without an inode that owns them. *)
Definition create_twice : res (bool * bool * list Z * list Z) :=
  let* s0 := filesys_init true (Some [7; 7]) true (boot blank no_map 100 []) in
  let* s1 := filesys_create (replicate 20 0) [65; 66] 600 s0.2 in
  let* s2 := filesys_create (replicate 20 0) [65; 66] 600 s1.2 in
  Ok (s1.1, s2.1, s1.2.(free_map).(bits), s2.2.(free_map).(bits)).

Lemma create_leaks : create_twice = Ok (true, false, [127; 0], [895; 0]).
Proof. vm_compute. reflexivity. Qed.
