(* ===== verification/VmPage.v ===== *)
(** * The supplemental page table as a hash table

    [page_hash] and [page_less] of vm/page.c order and hash supplemental entries by their
    user page.  With them the hash table of lib/kernel/hash.c is a map from user pages to
    entries, which is what Vm takes it to be. *)

From S2P Require Import Prelude Bytes Vaddr DList DListSort Hash.
Local Open Scope c_scope.

Section Pages.
(** The field [upage] of the entries. *)
Context (upage : Z → Z).

Definition page_hash (p : Z) : Z := hash_bytes (le32 (upage p)).
Definition page_less (a b : Z) : bool := upage a <? upage b.

#[export] Instance page_laws : HashLaws page_hash page_less.
Proof.
  split.
  - split; unfold page_less; intros a b; [rewrite Z.ltb_lt, Z.ltb_ge; lia|intros c; rewrite !Z.ltb_ge; lia].
  - intros e. apply hash_bytes_u32, le32_bytes.
  - intros a b. unfold equiv, page_less, page_hash. rewrite andb_true_iff, !negb_true_iff, !Z.ltb_ge. intros [H1 H2].
    do 2 f_equal. lia.
Qed.

Lemma page_equiv a b : equiv page_less a b = true ↔ upage a = upage b.
Proof. unfold equiv, page_less. rewrite andb_true_iff, !negb_true_iff, !Z.ltb_ge. lia. Qed.

(** The table [h] holds the entries of the map [S]. *)
Definition table_map (h : hash) (S : gmap Z Z) : Prop :=
  hwf page_hash page_less h ∧ ∀ u p, S !! u = Some p ↔ p ∈ contents h ∧ upage p = u.

Lemma map_find h S e : table_map h S → spec_find page_less (contents h) e = S !! upage e.
Proof.
  intros [Hh HS]. pose proof (spec_find_found page_less (contents h) e) as Hf.
  destruct (spec_find _ _ _) as [o|]; cbn in Hf.
  - destruct Hf as [Ho He%page_equiv]. symmetry. by apply HS.
  - destruct (S !! upage e) as [o|] eqn:E; [|done]. apply HS in E as [Ho He]. specialize (Hf o Ho).
    by rewrite (proj2 (page_equiv o e) He) in Hf.
Qed.

(** The operations the kernel performs on the supplemental page table. *)
Lemma map_insert mem h S p :
  table_map h S → p ∉ contents h → zlen (contents h) < W32 - 1 →
  ∃ h', hash_insert page_hash page_less mem p h = Ok (S !! upage p, h') ∧
    table_map h' (match S !! upage p with Some _ => S | None => <[upage p := p]> S end).
Proof.
  intros HM Hp Hl. pose proof HM as [Hh HS].
  destruct (exec_hop_ok page_hash page_less mem (HInsert p) h (contents h) (RElem (S !! upage p))
    (match S !! upage p with Some _ => contents h | None => p :: contents h end) Hh) as (h' & Hr & Hh' & Hp'); [done| |].
  { cbn [spec_hop]. rewrite bool_decide_eq_false_2 by done. rewrite (map_find h S) by done. zcase; [lia|done]. }
  cbn [exec_hop] in Hr. apply rbind_inv in Hr as ([r h2] & Hr & [= -> ->]). exists h'. split; [done|]. split; [done|].
  intros u q. setoid_rewrite Hp'. destruct (S !! upage p) as [o|] eqn:E; [apply HS|]. rewrite elem_of_cons.
  destruct (decide (u = upage p)) as [->|Hne].
  - rewrite lookup_insert_eq. split; [intros [= <-]; by split; [left|]|]. intros [[->|Hq] Hu]; [done|].
    assert (S !! upage p = Some q) by by apply HS. congruence.
  - rewrite lookup_insert_ne by done. rewrite HS. naive_solver.
Qed.

Lemma map_delete mem h S k :
  table_map h S →
  ∃ h', hash_delete page_hash page_less mem k h = Ok (S !! upage k, h') ∧ table_map h' (delete (upage k) S).
Proof.
  intros HM. pose proof HM as [Hh HS].
  destruct (exec_hop_ok page_hash page_less mem (HDelete k) h (contents h) (RElem (S !! upage k))
    (drop_elem (contents h) (S !! upage k)) Hh) as (h' & Hr & Hh' & Hp'); [done| |].
  { cbn [spec_hop]. by rewrite (map_find h S). }
  cbn [exec_hop] in Hr. apply rbind_inv in Hr as ([r h2] & Hr & [= -> ->]). exists h'. split; [done|]. split; [done|].
  intros u q. setoid_rewrite Hp'. rewrite lookup_delete_Some. destruct (S !! upage k) as [o|] eqn:E; cbn [drop_elem].
  - rewrite list_elem_of_filter. rewrite HS. apply HS in E as [Ho Hk]. split.
    + intros [Hne [Hq Hu]]. split_and!; [|done|done]. intros ->. congruence.
    + intros [[Hne Hq] Hu]. split; [|done]. intros <-. apply Hne.
      assert (S !! upage k = Some o) as H1 by by apply HS. assert (S !! upage k = Some q) as H2 by by apply HS. congruence.
  - rewrite HS. split; [naive_solver|]. intros [Hq Hu]. split; [|done]. intros <-.
    assert (S !! upage k = Some q) by by apply HS. congruence.
Qed.

(** Property C33.  With page_hash and page_less the hash table of a process is a map from
    user pages to supplemental entries: hash_insert keeps the entry a page already has
    and returns it, hash_find returns the entry of the page of the key and hash_delete
    removes it, with or without memory for the rehashing. *)
Theorem sup_page_table_is_map mem h S :
  table_map h S →
  (∀ k, hash_find page_hash page_less k h = Ok (S !! upage k)) ∧
  (∀ p, p ∉ contents h → zlen (contents h) < W32 - 1 →
     ∃ h', hash_insert page_hash page_less mem p h = Ok (S !! upage p, h') ∧
       table_map h' (match S !! upage p with Some _ => S | None => <[upage p := p]> S end)) ∧
  (∀ k, ∃ h', hash_delete page_hash page_less mem k h = Ok (S !! upage k, h') ∧ table_map h' (delete (upage k) S)).
Proof.
  intros HM. pose proof HM as [Hh _]. split_and!.
  - intros k. destruct (exec_hop_ok page_hash page_less mem (HFind k) h (contents h) (RElem (S !! upage k))
      (contents h) Hh) as (h' & Hr & _); [done|cbn [spec_hop]; by rewrite (map_find h S)|].
    cbn [exec_hop] in Hr. by apply rbind_inv in Hr as (r & Hr & [= -> _]).
  - intros p. by apply map_insert.
  - intros k. by apply map_delete.
Qed.
End Pages.

Lemma sup_page_table_is_map_witness :
  ∃ h, table_map Z.abs h ∅ ∧ hash_find (page_hash Z.abs) (page_less Z.abs) 4096 h = Ok None.
Proof.
  destruct (hash_init_ok (page_hash Z.abs) (page_less Z.abs) tt) as (h & _ & Hh & Hc).
  assert (table_map Z.abs h ∅) as HM.
  { split; [exact Hh|]. intros u p. rewrite Hc. split; [done|]. by intros [?%not_elem_of_nil _]. }
  exists h. split; [exact HM|]. exact (proj1 (sup_page_table_is_map Z.abs true h ∅ HM) 4096).
Defined.
