(* ===== verification/Vm.v ===== *)
(** * Virtual memory

    userprog/pagedir.c, vm/frame.c, vm/page.c and vm/swap.c over the page frames of
    threads/palloc.c.  Page directories and page tables are 32-bit words in the memory of
    the frames, as the processor walks them; the processor is its page directory base
    register and its translation lookaside buffer.  The frame table is the list of its
    entries; supplemental page table entries and swap slots are objects that several
    places point to.  The hash table of supplemental entries is the map from user pages
    that lib/kernel/hash.c implements for [page_hash] and [page_less].  The file system
    is the one of Filesys, whose block allocator serves this component too. *)

From S2P Require Import Prelude Vaddr Bytes Bitmap Str Palloc Filesys.
Local Open Scope c_scope.

(** ** State *)

Inductive fault_case := CASE_SWAP | CASE_FILESYS | CASE_ZERO.

(** [sp_case] is nothing until it is assigned. *)
Record sup_page_entry := SupPageEntry {
  sp_upage : Z;
  sp_kpage : Z;
  sp_valid : bool;
  sp_case : option fault_case;
  swap_address : Z;
  file_address : Z;
  file_pos : Z;
}.

Record frame_entry := FrameEntry { using_thread : Z; fe_pte : Z; fe_kpage : Z; fe_upage : Z }.

Record swap_entry := SwapEntry { is_used : bool; first_sec_no : Z }.

Record swap := Swap {
  swap_disk : option (list (list Z));
  swap_table : list Z;
  swap_entries : gmap Z swap_entry;
  swap_sema : Z;
}.

(** The fields of [struct thread] that this component and the processes use. *)
Record thread := Thread {
  pagedir : Z;
  sup_page_table : gmap Z Z;
  mapping_list : list Z;
  file_list : list Z;
  self_file : Z;
  exec_name : list Z;
  info : Z;
}.

(** The registers and buffers of the processor. *)
Record cpu := Cpu { cr3 : Z; tlb : gmap Z Z }.

(** [base_page_dir] and [ram_pages] of threads/init.c; [junk] is what a variable or a
    block holds before it is assigned. *)
Record consts := Consts { base_page_dir : Z; ram_pages : Z; junk : Z }.

Record vm := Vm {
  phys : pages;
  fsys : fs;
  proc : cpu;
  threads : gmap Z thread;
  current : Z;
  frame_table : list frame_entry;
  frame_sema : Z;
  sup_entries : gmap Z sup_page_entry;
  swaps : swap;
  con : consts;
}.

Definition upd_phys f σ := Vm (f σ.(phys)) σ.(fsys) σ.(proc) σ.(threads) σ.(current) σ.(frame_table) σ.(frame_sema)
  σ.(sup_entries) σ.(swaps) σ.(con).
Definition upd_fsys f σ := Vm σ.(phys) (f σ.(fsys)) σ.(proc) σ.(threads) σ.(current) σ.(frame_table) σ.(frame_sema)
  σ.(sup_entries) σ.(swaps) σ.(con).
Definition upd_proc f σ := Vm σ.(phys) σ.(fsys) (f σ.(proc)) σ.(threads) σ.(current) σ.(frame_table) σ.(frame_sema)
  σ.(sup_entries) σ.(swaps) σ.(con).
Definition upd_threads f σ := Vm σ.(phys) σ.(fsys) σ.(proc) (f σ.(threads)) σ.(current) σ.(frame_table) σ.(frame_sema)
  σ.(sup_entries) σ.(swaps) σ.(con).
Definition upd_frames f σ := Vm σ.(phys) σ.(fsys) σ.(proc) σ.(threads) σ.(current) (f σ.(frame_table)) σ.(frame_sema)
  σ.(sup_entries) σ.(swaps) σ.(con).
Definition upd_frame_sema f σ := Vm σ.(phys) σ.(fsys) σ.(proc) σ.(threads) σ.(current) σ.(frame_table) (f σ.(frame_sema))
  σ.(sup_entries) σ.(swaps) σ.(con).
Definition upd_sup f σ := Vm σ.(phys) σ.(fsys) σ.(proc) σ.(threads) σ.(current) σ.(frame_table) σ.(frame_sema)
  (f σ.(sup_entries)) σ.(swaps) σ.(con).
Definition upd_swaps f σ := Vm σ.(phys) σ.(fsys) σ.(proc) σ.(threads) σ.(current) σ.(frame_table) σ.(frame_sema)
  σ.(sup_entries) (f σ.(swaps)) σ.(con).

(** ** Access to the state *)

Definition change (f : vm → vm) : M vm unit := λ σ, Ok (tt, f σ).
Definition reads {A} (f : vm → A) : M vm A := λ σ, Ok (f σ, σ).
Definition pure {A} (r : res A) : M vm A := λ σ, let* a := r in Ok (a, σ).

Definition on_phys {A} (c : M pages A) : M vm A := λ σ,
  let* r := c σ.(phys) in Ok (r.1, upd_phys (λ _, r.2) σ).
Definition on_fs {A} (c : M fs A) : M vm A := λ σ,
  let* r := c σ.(fsys) in Ok (r.1, upd_fsys (λ _, r.2) σ).

Definition thread_at (t : Z) : M vm thread := λ σ,
  match σ.(threads) !! t with Some x => Ok (x, σ) | None => Err Fault end.
Definition set_thread (t : Z) (x : thread) : M vm unit := change (upd_threads <[t := x]>).
Definition sup_at (p : Z) : M vm sup_page_entry := λ σ,
  match σ.(sup_entries) !! p with Some x => Ok (x, σ) | None => Err Fault end.
Definition set_sup (p : Z) (x : sup_page_entry) : M vm unit := change (upd_sup <[p := x]>).
Definition slot_at (p : Z) : M vm swap_entry := λ σ,
  match σ.(swaps).(swap_entries) !! p with Some x => Ok (x, σ) | None => Err Fault end.
Definition set_slot (p : Z) (x : swap_entry) : M vm unit :=
  change (upd_swaps (λ w, Swap w.(swap_disk) w.(swap_table) (<[p := x]> w.(swap_entries)) w.(swap_sema))).

(** 32-bit words in memory. *)
Definition ldw (a : Z) : M mem Z :=
  b0 <- ldb a ;; b1 <- ldb (a + 1) ;; b2 <- ldb (a + 2) ;; b3 <- ldb (a + 3) ;;
  ret (of_le32 b0 b1 b2 b3).
Definition stw (a w : Z) : M mem unit :=
  stb a (w `mod` 256) ;; stb (a + 1) ((w `div` 256) `mod` 256) ;;
  stb (a + 2) ((w `div` 65536) `mod` 256) ;; stb (a + 3) ((w `div` 16777216) `mod` 256).

Definition load_word (a : Z) : M vm Z := on_phys (on_ram (ldw a)).
Definition store_word (a w : Z) : M vm unit := on_phys (on_ram (stw a w)).

(** The semaphores here guard a few instructions each. *)
Definition sema_down_frame : M vm unit :=
  v <- reads frame_sema ;;
  if 0 <? v then change (upd_frame_sema (λ _, v - 1)) else fail Deadlock.
Definition sema_up_frame : M vm unit := change (upd_frame_sema (λ v, v + 1)).
Definition set_swap_sema (f : Z → Z) : M vm unit :=
  change (upd_swaps (λ w, Swap w.(swap_disk) w.(swap_table) w.(swap_entries) (f w.(swap_sema)))).
Definition sema_down_swap : M vm unit :=
  w <- reads swaps ;;
  if 0 <? w.(swap_sema) then set_swap_sema (λ v, v - 1) else fail Deadlock.
Definition sema_up_swap : M vm unit := set_swap_sema (λ v, v + 1).

(** ** userprog/pagedir.c *)

Definition pagedir_create : M vm Z :=
  pd <- on_phys (palloc_get_page 0) ;;
  c <- reads con ;;
  (if negb (pd =? NULL) then on_phys (on_ram (memcpy pd c.(base_page_dir) PGSIZE)) ;; ret tt else ret tt) ;;
  ret pd.

Definition pagedir_destroy (pd : Z) : M vm unit :=
  if pd =? NULL then ret tt else
  c <- reads con ;;
  assert (negb (pd =? c.(base_page_dir))) ;;
  for_upto (pd_no PHYS_BASE) (λ i,
    pde <- load_word (pd + 4 * i) ;;
    if negb (Z.land pde PTE_P =? 0) then
      pt <- pure (pde_get_pt pde) ;;
      for_upto (PGSIZE / 4) (λ j,
        pte <- load_word (pt + 4 * j) ;;
        if negb (Z.land pte PTE_P =? 0) then
          page <- pure (pte_get_page pte) ;;
          on_phys (palloc_free_page page)
        else ret tt) ;;
      on_phys (palloc_free_page pt)
    else ret tt) ;;
  on_phys (palloc_free_page pd).

Definition lookup_page (pd vaddr : Z) (create : bool) : M vm Z :=
  assert (negb (pd =? NULL)) ;;
  assert (negb create || is_user_vaddr vaddr) ;;
  let pde := pd + 4 * pd_no vaddr in
  e <- load_word pde ;;
  found <- (if e =? 0 then
              if create then
                pt <- on_phys (palloc_get_page PAL_ZERO) ;;
                if pt =? NULL then ret false else
                e <- pure (pde_create pt) ;;
                store_word pde e ;;
                ret true
              else ret false
            else ret true) ;;
  if negb found then ret NULL else
  e <- load_word pde ;;
  pt <- pure (pde_get_pt e) ;;
  ret (pt + 4 * pt_no vaddr).

(** [frame_entry_set_pte] of vm/frame.c: the first entry for the frame. *)
Fixpoint set_pte (l : list frame_entry) (upage kpage pte : Z) : list frame_entry :=
  match l with
  | [] => []
  | f :: l => if f.(fe_kpage) =? kpage then FrameEntry f.(using_thread) pte f.(fe_kpage) upage :: l
              else f :: set_pte l upage kpage pte
  end.

Definition frame_entry_set_pte (upage kpage pte : Z) : M vm unit :=
  sema_down_frame ;;
  change (upd_frames (λ l, set_pte l upage kpage pte)) ;;
  sema_up_frame.

Definition pagedir_set_page (pd upage kpage : Z) (writable : bool) : M vm bool :=
  assert (pg_ofs upage =? 0) ;;
  assert (pg_ofs kpage =? 0) ;;
  assert (is_user_vaddr upage) ;;
  p <- pure (vtop kpage) ;;
  c <- reads con ;;
  assert (Z.shiftr p PTSHIFT <? c.(ram_pages)) ;;
  assert (negb (pd =? c.(base_page_dir))) ;;
  pte <- lookup_page pd upage true ;;
  if negb (pte =? NULL) then
    e <- load_word pte ;;
    assert (Z.land e PTE_P =? 0) ;;
    e <- pure (pte_create_user kpage writable) ;;
    store_word pte e ;;
    frame_entry_set_pte upage kpage pte ;;
    ret true
  else ret false.

Definition pagedir_get_page (pd uaddr : Z) : M vm Z :=
  assert (is_user_vaddr uaddr) ;;
  pte <- lookup_page pd uaddr false ;;
  if pte =? NULL then ret NULL else
  e <- load_word pte ;;
  if negb (Z.land e PTE_P =? 0) then
    page <- pure (pte_get_page e) ;;
    ret (u32 (page + pg_ofs uaddr))
  else ret NULL.

(** Loading the register empties the translation lookaside buffer. *)
Definition pagedir_activate (pd : Z) : M vm unit :=
  c <- reads con ;;
  let pd := if pd =? NULL then c.(base_page_dir) else pd in
  p <- pure (vtop pd) ;;
  change (upd_proc (λ _, Cpu p ∅)).

Definition active_pd : M vm Z :=
  p <- reads proc ;;
  pure (ptov p.(cr3)).

Definition invalidate_pagedir (pd : Z) : M vm unit :=
  a <- active_pd ;;
  if a =? pd then pagedir_activate pd else ret tt.

Definition pagedir_clear_page (pd upage : Z) : M vm unit :=
  assert (pg_ofs upage =? 0) ;;
  assert (is_user_vaddr upage) ;;
  pte <- lookup_page pd upage false ;;
  if pte =? NULL then ret tt else
  e <- load_word pte ;;
  if negb (Z.land e PTE_P =? 0) then
    store_word pte (Z.land e (not32 PTE_P)) ;;
    invalidate_pagedir pd
  else ret tt.

(** [pagedir_is_dirty] and [pagedir_is_accessed] test a bit. *)
Definition pagedir_test (bit pd vpage : Z) : M vm bool :=
  pte <- lookup_page pd vpage false ;;
  if pte =? NULL then ret false else
  e <- load_word pte ;;
  ret (negb (Z.land e bit =? 0)).

(** [pagedir_set_dirty], [pagedir_set_rw] and [pagedir_set_accessed] set or clear one. *)
Definition pagedir_assign (bit pd vpage : Z) (v : bool) : M vm unit :=
  pte <- lookup_page pd vpage false ;;
  if pte =? NULL then ret tt else
  e <- load_word pte ;;
  if v then store_word pte (Z.lor e bit)
  else
    store_word pte (Z.land e (not32 bit)) ;;
    invalidate_pagedir pd.

Definition pagedir_is_dirty : Z → Z → M vm bool := pagedir_test PTE_D.
Definition pagedir_is_accessed : Z → Z → M vm bool := pagedir_test PTE_A.
Definition pagedir_set_dirty : Z → Z → bool → M vm unit := pagedir_assign PTE_D.
Definition pagedir_set_rw : Z → Z → bool → M vm unit := pagedir_assign PTE_W.
Definition pagedir_set_accessed : Z → Z → bool → M vm unit := pagedir_assign PTE_A.

(** ** vm/page.c *)

(** [malloc] of a structure that is then assigned: a null pointer faults. *)
Definition new_object : M vm Z :=
  p <- on_fs alloc ;;
  if p =? NULL then fail Fault else ret p.

(** The hash table orders and hashes entries by their user page: an entry is only
    inserted if the table has none for the page. *)
Definition sup_page_entry_create (upage kpage file : Z) : M vm Z :=
  p <- new_object ;;
  c <- reads con ;;
  set_sup p (SupPageEntry upage kpage true None NULL file c.(junk)) ;;
  t <- reads current ;;
  x <- thread_at t ;;
  (match x.(sup_page_table) !! upage with
   | Some _ => ret tt
   | None => set_thread t (Thread x.(pagedir) (<[upage := p]> x.(sup_page_table)) x.(mapping_list) x.(file_list)
               x.(self_file) x.(exec_name) x.(info))
   end) ;;
  ret p.

(** The entry of a thread for a user page, or a null pointer. *)
Definition sup_page_table_lookup (t upage : Z) : M vm Z :=
  x <- thread_at t ;;
  ret (default NULL (x.(sup_page_table) !! upage)).

(** Looks for the page that the uninitialised field of the local entry holds. *)
Definition sup_page_table_file_lookup (t file : Z) : M vm Z :=
  c <- reads con ;;
  sup_page_table_lookup t c.(junk).

Definition sup_page_entry_delete (p : Z) : M vm unit :=
  s <- sup_at p ;;
  t <- reads current ;;
  x <- thread_at t ;;
  set_thread t (Thread x.(pagedir) (delete s.(sp_upage) x.(sup_page_table)) x.(mapping_list) x.(file_list)
    x.(self_file) x.(exec_name) x.(info)) ;;
  pagedir_clear_page x.(pagedir) s.(sp_upage) ;;
  (if negb (s.(swap_address) =? NULL)
   then change (upd_swaps (λ w, Swap w.(swap_disk) w.(swap_table) (delete s.(swap_address) w.(swap_entries)) w.(swap_sema)))
   else ret tt) ;;
  change (upd_sup (delete p)).

(** ** vm/swap.c *)

(** Bytes of the page frames. *)
Definition read_ram (a n : Z) : M vm (list Z) := λ σ,
  match mapM (λ i, σ.(phys).(ram) !! (a + i)) (seqZ 0 n) with Some bs => Ok (bs, σ) | None => Err Fault end.
Definition write_ram (a : Z) (bs : list Z) : M vm unit := λ σ,
  if forallb (λ i, bool_decide (is_Some (σ.(phys).(ram) !! (a + i)))) (seqZ 0 (zlen bs))
  then Ok (tt, upd_phys (λ p, Pages p.(kernel_pool) p.(user_pool) (store p.(ram) a bs)) σ) else Err Fault.

(** The swap disk, as [disk_read] and [disk_write] present it. *)
Definition swap_read (d : list (list Z)) (sec : Z) : res (list Z) :=
  let* _ := rassert ((sec <? zlen d) && (sec <? 268435456)) in
  match d !! Z.to_nat sec with Some b => Ok b | None => Err Fault end.
Definition swap_write (sec : Z) (b : list Z) : M vm unit := λ σ,
  match σ.(swaps).(swap_disk) with
  | Some d =>
      let* _ := rassert ((sec <? zlen d) && (sec <? 268435456)) in
      Ok (tt, upd_swaps (λ w, Swap (Some (<[Z.to_nat sec := b]> d)) w.(swap_table) w.(swap_entries) w.(swap_sema)) σ)
  | None => Err AssertFail
  end.

(** One slot for each page that starts on the disk. *)
Definition swap_init : M vm unit :=
  w <- reads swaps ;;
  match w.(swap_disk) with
  | None => fail AssertFail
  | Some d =>
      set_swap_sema (λ _, 1) ;;
      sema_down_swap ;;
      change (upd_swaps (λ w, Swap w.(swap_disk) [] w.(swap_entries) w.(swap_sema))) ;;
      iter (S (length d)) (λ i,
        if i <? zlen d then
          p <- new_object ;;
          set_slot p (SwapEntry false i) ;;
          change (upd_swaps (λ w, Swap w.(swap_disk) (w.(swap_table) ++ [p]) w.(swap_entries) w.(swap_sema))) ;;
          ret (inl (u32 (i + 8)))
        else ret (inr tt)) 0 ;;
      sema_up_swap
  end.

(** The first slot of the list that is not used. *)
Fixpoint find_slot (l : list Z) : M vm (option Z) :=
  match l with
  | [] => ret None
  | p :: l => se <- slot_at p ;; if se.(is_used) then find_slot l else ret (Some p)
  end.

Definition swap_out (f : frame_entry) : M vm unit :=
  sup_pte <- sup_page_table_lookup f.(using_thread) f.(fe_upage) ;;
  w <- reads swaps ;;
  match w.(swap_disk) with
  | None => ret tt
  | Some _ =>
      sema_down_swap ;;
      r <- find_slot w.(swap_table) ;;
      (match r with
       | None => ret tt
       | Some p =>
           se <- slot_at p ;;
           for_upto 8 (λ i,
             b <- read_ram (f.(fe_kpage) + i * DISK_SECTOR_SIZE) DISK_SECTOR_SIZE ;;
             swap_write (u32 (se.(first_sec_no) + i)) b) ;;
           set_slot p (SwapEntry true se.(first_sec_no)) ;;
           s <- sup_at sup_pte ;;
           set_sup sup_pte (SupPageEntry s.(sp_upage) s.(sp_kpage) s.(sp_valid) (Some CASE_SWAP) p s.(file_address) s.(file_pos))
       end) ;;
      sema_up_swap ;;
      x <- thread_at f.(using_thread) ;;
      pagedir_clear_page x.(pagedir) f.(fe_upage) ;;
      on_phys (palloc_free_page f.(fe_kpage))
  end.

(** ** vm/frame.c *)

Definition frame_init : M vm unit :=
  change (upd_frames (λ _, [])) ;;
  change (upd_frame_sema (λ _, 1)).

(** Makes room by giving up the frame at the head of the list. *)
Definition evict : M vm unit :=
  l <- reads frame_table ;;
  match l with
  | [] => fail AssertFail
  | victim_f :: l =>
      change (upd_frames (λ _, l)) ;;
      sup_pte <- sup_page_table_lookup victim_f.(using_thread) victim_f.(fe_upage) ;;
      s <- sup_at sup_pte ;;
      if s.(file_address) =? NULL then swap_out victim_f
      else
        x <- thread_at victim_f.(using_thread) ;;
        dirty <- pagedir_is_dirty x.(pagedir) victim_f.(fe_upage) ;;
        (if dirty then
           data <- read_ram victim_f.(fe_kpage) PGSIZE ;;
           on_fs (file_write_at s.(file_address) data PGSIZE s.(file_pos)) ;;
           ret tt
         else ret tt) ;;
        pagedir_clear_page x.(pagedir) victim_f.(fe_upage) ;;
        on_phys (palloc_free_page victim_f.(fe_kpage))
  end.

Definition frame_table_allocator (flags : Z) : M vm Z :=
  sema_down_frame ;;
  result <- on_phys (palloc_get_multiple flags 1) ;;
  result <- (if result =? NULL then evict ;; on_phys (palloc_get_multiple flags 1) else ret result) ;;
  new_object ;;
  t <- reads current ;;
  c <- reads con ;;
  change (upd_frames (λ l, l ++ [FrameEntry t c.(junk) result c.(junk)])) ;;
  sema_up_frame ;;
  ret result.

(** The list without the first entry for the frame, if there is one. *)
Fixpoint remove_frame (l : list frame_entry) (page : Z) : option (list frame_entry) :=
  match l with
  | [] => None
  | f :: l => if f.(fe_kpage) =? page then Some l else l' ← remove_frame l page; Some (f :: l')
  end.

Definition frame_table_free (page : Z) : M vm unit :=
  sema_down_frame ;;
  l <- reads frame_table ;;
  (match remove_frame l page with
   | Some l' =>
       change (upd_frames (λ _, l')) ;;
       on_phys (palloc_free_multiple page 1)
   | None => ret tt
   end) ;;
  sema_up_frame.

(** After the first entry of the thread is freed, [list_next] reads the freed element. *)
Definition free_frames (exiting_thread : Z) : M vm unit :=
  sema_down_frame ;;
  l <- reads frame_table ;;
  (match list_find (λ f, f.(using_thread) = exiting_thread) l with
   | None => ret tt
   | Some (n, f) =>
       change (upd_frames (λ l, take n l ++ drop (S n) l)) ;;
       on_phys (palloc_free_multiple f.(fe_kpage) 1) ;;
       fail Fault
   end) ;;
  sema_up_frame.

Definition swap_in (sup_pte : Z) (writable : bool) : M vm unit :=
  kpage <- frame_table_allocator PAL_USER ;;
  w <- reads swaps ;;
  (match w.(swap_disk) with
   | None => ret tt
   | Some d =>
       sema_down_swap ;;
       for_upto 8 (λ i,
         s <- sup_at sup_pte ;;
         se <- slot_at s.(swap_address) ;;
         b <- pure (swap_read d (u32 (se.(first_sec_no) + i))) ;;
         write_ram (kpage + i * DISK_SECTOR_SIZE) b) ;;
       s <- sup_at sup_pte ;;
       se <- slot_at s.(swap_address) ;;
       set_slot s.(swap_address) (SwapEntry false se.(first_sec_no)) ;;
       set_sup sup_pte (SupPageEntry s.(sp_upage) s.(sp_kpage) s.(sp_valid) (Some CASE_ZERO) s.(swap_address)
         s.(file_address) s.(file_pos)) ;;
       sema_up_swap
   end) ;;
  s <- sup_at sup_pte ;;
  t <- reads current ;;
  x <- thread_at t ;;
  pagedir_set_page x.(pagedir) s.(sp_upage) kpage writable ;;
  ret tt.
