(* ===== verification/VmPagedir.v ===== *)
(** * Page directories

    A page directory with its page tables represents a map from user pages to page table
    entries.  The operations of userprog/pagedir.c are proved to be operations on this
    map: the words of the directory and of its tables are where the processor looks for
    them, the tables come from the page allocator and belong to one directory only, and
    nothing else in memory changes. *)

From S2P Require Import Prelude Vaddr Bytes Bitmap Str Palloc Filesys Vm.
Local Open Scope c_scope.

(** ** Words in memory *)

Definition at_ (m : mem) (a : Z) : Z := default 0 (m !! a).
Definition word (m : mem) (a : Z) : Z := of_le32 (at_ m a) (at_ m (a + 1)) (at_ m (a + 2)) (at_ m (a + 3)).

Lemma ldb_at m a : is_Some (m !! a) → ldb a m = Ok (at_ m a, m).
Proof. intros [b Hb]. unfold ldb, at_. by rewrite Hb. Qed.

Lemma ldw_run m a : mapped m a 4 → ldw a m = Ok (word m a, m).
Proof.
  intros Hm. unfold ldw. rewrite (bind_Ok _ _ _ _ _ (ldb_at m a (Hm a ltac:(lia)))).
  rewrite (bind_Ok _ _ _ _ _ (ldb_at m (a + 1) (Hm (a + 1) ltac:(lia)))).
  rewrite (bind_Ok _ _ _ _ _ (ldb_at m (a + 2) (Hm (a + 2) ltac:(lia)))).
  by rewrite (bind_Ok _ _ _ _ _ (ldb_at m (a + 3) (Hm (a + 3) ltac:(lia)))).
Qed.

Lemma stb_run m a v : is_Some (m !! a) → is_u8 v → stb a v m = Ok (tt, <[a := v]> m).
Proof. intros [b Hb] Hv. unfold stb. by rewrite Hb, u8_small. Qed.

Lemma stw_run m a w : mapped m a 4 → stw a w m = Ok (tt, store m a (le32 w)).
Proof.
  intros Hm. unfold stw, le32. pose proof (le32_bytes w) as Hu. unfold le32 in Hu. rewrite !Forall_cons in Hu.
  destruct Hu as (H0 & H1 & H2 & H3 & _).
  rewrite (bind_Ok _ _ _ _ _ (stb_run m a _ (Hm a ltac:(lia)) H0)).
  assert (mapped (<[a := w `mod` 256]> m) a 4) as Hm1 by by apply mapped_insert.
  rewrite (bind_Ok _ _ _ _ _ (stb_run _ _ _ (Hm1 (a + 1) ltac:(lia)) H1)).
  set (m1 := <[a := _]> m) in *. assert (mapped (<[a + 1 := (w `div` 256) `mod` 256]> m1) a 4) as Hm2 by by apply mapped_insert.
  rewrite (bind_Ok _ _ _ _ _ (stb_run _ _ _ (Hm2 (a + 2) ltac:(lia)) H2)).
  set (m2 := <[a + 1 := _]> m1) in *. assert (mapped (<[a + 2 := (w `div` 65536) `mod` 256]> m2) a 4) as Hm3 by by apply mapped_insert.
  rewrite (stb_run _ _ _ (Hm3 (a + 3) ltac:(lia)) H3). cbn [store].
  replace (a + 1 + 1 + 1) with (a + 3) by lia. by replace (a + 1 + 1) with (a + 2) by lia.
Qed.

Lemma at_store m a bs b :
  at_ (store m a bs) b = if (a <=? b) && (b <? a + zlen bs) then default 0 (bs !! Z.to_nat (b - a)) else at_ m b.
Proof. unfold at_. rewrite store_lookup. by case_match. Qed.

Lemma word_store_eq m a w : is_u32 w → word (store m a (le32 w)) a = w.
Proof.
  intros Hw. unfold word. rewrite !at_store. cbn [length le32].
  repeat (zcase; try lia); cbn [andb].
  replace (Z.to_nat (a - a)) with 0%nat by lia. replace (Z.to_nat (a + 1 - a)) with 1%nat by lia.
  replace (Z.to_nat (a + 2 - a)) with 2%nat by lia. replace (Z.to_nat (a + 3 - a)) with 3%nat by lia.
  cbn. by apply of_le32_le32.
Qed.

Lemma word_store_out m a bs b : a + zlen bs ≤ b ∨ b + 4 ≤ a → word (store m a bs) b = word m b.
Proof. intros H. unfold word. rewrite !at_store. repeat (zcase; try lia); done. Qed.

Lemma word_zero m a zs b : Forall (eq 0) zs → a ≤ b → b + 4 ≤ a + zlen zs → word (store m a zs) b = 0.
Proof.
  intros Hz Ha Hb. unfold word. rewrite !at_store. repeat (zcase; try lia); cbn [andb].
  assert (∀ k, default 0 (zs !! k) = 0) as E; [|by rewrite !E].
  intros k. destruct (zs !! k) as [v|] eqn:E; [|done]. cbn. symmetry. by eapply (proj1 (Forall_lookup _ _) Hz).
Qed.

Lemma word_u32 m a : bytes_only m → is_u32 (word m a).
Proof.
  intros Hu. assert (∀ b, is_u8 (at_ m b)) as H.
  { intros b. unfold at_. destruct (m !! b) as [v|] eqn:E; [by apply (Hu b)|done]. }
  apply of_le32_range; apply H.
Qed.

Lemma bytes_only_store m a bs : bytes_only m → Forall is_u8 bs → bytes_only (store m a bs).
Proof.
  intros Hm Hb b v. rewrite store_lookup. case_match; [|apply Hm]. intros Hv. by eapply (proj1 (Forall_lookup _ _) Hb).
Qed.

(** ** Running on the memory of the machine *)

Definition set_mem (m : mem) (σ : vm) : vm := upd_phys (set_ram m) σ.

Lemma load_word_run σ a : mapped σ.(phys).(ram) a 4 → load_word a σ = Ok (word σ.(phys).(ram) a, σ).
Proof. intros Hm. unfold load_word, on_phys. rewrite (on_ram_ok _ _ _ _ (ldw_run _ _ Hm)). by destruct σ as [[] ? ? ? ? ? ? ? ? ?]. Qed.

Lemma store_word_run σ a w :
  mapped σ.(phys).(ram) a 4 → store_word a w σ = Ok (tt, set_mem (store σ.(phys).(ram) a (le32 w)) σ).
Proof. intros Hm. unfold store_word, on_phys. by rewrite (on_ram_ok _ _ _ _ (stw_run _ _ w Hm)). Qed.

Lemma on_phys_run {A} (c : M pages A) σ r p : c σ.(phys) = Ok (r, p) → on_phys c σ = Ok (r, upd_phys (λ _, p) σ).
Proof. unfold on_phys. by intros ->. Qed.

Lemma pure_run {A} (r : res A) (a : A) σ : r = Ok a → pure r σ = Ok (a, σ).
Proof. unfold pure. by intros ->. Qed.

(** ** The represented map *)

Record aspace (m : mem) (K : blocks) (pd : Z) (T : gmap Z Z) : Prop := {
  as_dir : K !! pd = Some 1;
  as_table : ∀ i pt, T !! i = Some pt → 0 ≤ i < 768 ∧ K !! pt = Some 1 ∧ pt ≠ pd;
  as_inj : ∀ i j pt, T !! i = Some pt → T !! j = Some pt → i = j;
  as_pde : ∀ i, 0 ≤ i < 768 →
    word m (pd + 4 * i) = match T !! i with Some pt => pt - PHYS_BASE + flags true true | None => 0 end;
}.

(** The page table entry for a user address, 0 if there is no table for it. *)
Definition entry (m : mem) (T : gmap Z Z) (v : Z) : Z :=
  match T !! pd_no v with Some pt => word m (pt + 4 * pt_no v) | None => 0 end.

Record paging (σ : vm) (B : live) (pd : Z) (T : gmap Z Z) : Prop := {
  pg_alloc : allocator σ.(phys) B;
  pg_space : aspace σ.(phys).(ram) (B false) pd T;
  pg_bytes : bytes_only σ.(phys).(ram);
}.

Definition in_space (pd : Z) (T : gmap Z Z) (a : Z) : Prop :=
  pd ≤ a < pd + 4096 ∨ ∃ i pt, T !! i = Some pt ∧ pt ≤ a < pt + 4096.

(** Nothing outside the directory and its tables changes. *)
Definition spares (pd : Z) (T : gmap Z Z) (m m' : mem) : Prop := ∀ a, ¬ in_space pd T a → m' !! a = m !! a.

Lemma page_block σ B u b :
  allocator σ B → B u !! b = Some 1 → kernel_page b ∧ mapped σ.(ram) b 4096 ∧ b + 4096 ≤ W32.
Proof.
  intros Ha Hb. pose proof (al_pool _ _ Ha u) as [_ [H1 H2] He Hm Hbl _ _].
  destruct (Hbl _ _ Hb) as (_ & i & -> & Hi0 & Hi1). unfold kernel_page, PHYS_BASE, LOADER_PHYS_BASE in *.
  split_and!; [mlia|lia|dm_lia| |mlia]. intros a Hra. apply Hm. lia.
Qed.

Lemma blocks_apart σ B u b c :
  allocator σ B → B u !! b = Some 1 → B u !! c = Some 1 → b ≠ c → b + 4096 ≤ c ∨ c + 4096 ≤ b.
Proof.
  intros Ha Hb Hc Hne. pose proof (po_apart _ _ _ (al_pool _ _ Ha u) b 1 Hb c 1) as H.
  rewrite lookup_delete_ne in H by done. specialize (H Hc). lia.
Qed.

Lemma user_indices v : 0 ≤ v < PHYS_BASE → 0 ≤ pd_no v < 768 ∧ 0 ≤ pt_no v < 1024.
Proof.
  unfold PHYS_BASE, LOADER_PHYS_BASE. intros H. rewrite pd_no_eq, pt_no_eq by mlia. dm_lia.
Qed.

(** Two user pages with the same indices are the same. *)
Lemma indices_inj u v :
  0 ≤ u < PHYS_BASE → 0 ≤ v < PHYS_BASE → u `mod` 4096 = 0 → v `mod` 4096 = 0 → pd_no u = pd_no v → pt_no u = pt_no v → u = v.
Proof.
  unfold PHYS_BASE, LOADER_PHYS_BASE. intros Hu Hv Hmu Hmv. rewrite !pd_no_eq, !pt_no_eq by mlia. dm_lia.
Qed.

(** ** Finding and making entries *)

Lemma aspace_store m K pd T a bs :
  aspace m K pd T → (∀ i, 0 ≤ i < 768 → a + zlen bs ≤ pd + 4 * i ∨ pd + 4 * i + 4 ≤ a) → aspace (store m a bs) K pd T.
Proof. intros [H1 H2 H3 H4] Ha. split; try done. intros i Hi. rewrite word_store_out by auto. by apply H4. Qed.

Lemma pde_get_pt_run pt : kernel_page pt → pde_get_pt (pt - PHYS_BASE + flags true true) = Ok pt.
Proof. intros Hp. unfold pde_get_pt. rewrite entry_flag by (done || (unfold flags, PTE_P; lia)). cbn. by apply entry_ptov. Qed.

Section find.
Context {σ : vm} {B : live} {pd : Z} {T : gmap Z Z} (PG : paging σ B pd T).

Lemma pd_page : kernel_page pd ∧ mapped σ.(phys).(ram) pd 4096 ∧ pd + 4096 ≤ W32.
Proof. apply (page_block _ B false); [apply PG|apply PG]. Qed.

Lemma pt_page i pt : T !! i = Some pt →
  kernel_page pt ∧ mapped σ.(phys).(ram) pt 4096 ∧ (pd + 4096 ≤ pt ∨ pt + 4096 ≤ pd).
Proof.
  intros Hi. destruct (as_table _ _ _ _ (pg_space _ _ _ _ PG) i pt Hi) as (_ & Hk & Hne).
  destruct (page_block _ B false pt (pg_alloc _ _ _ _ PG) Hk) as (? & ? & _). split_and!; try done.
  apply (blocks_apart σ.(phys) B false); [apply PG|apply PG|done|congruence].
Qed.

Lemma pt_pages_apart i j pt pt' : T !! i = Some pt → T !! j = Some pt' → i ≠ j → pt + 4096 ≤ pt' ∨ pt' + 4096 ≤ pt.
Proof.
  intros Hi Hj Hne. apply (blocks_apart σ.(phys) B false); [apply PG|..].
  - by apply (as_table _ _ _ _ (pg_space _ _ _ _ PG) i).
  - by apply (as_table _ _ _ _ (pg_space _ _ _ _ PG) j).
  - intros ->. apply Hne. by apply (as_inj _ _ _ _ (pg_space _ _ _ _ PG) i j pt').
Qed.

(** What the processor reads at the directory. *)
Lemma pde_run i : 0 ≤ i < 768 → load_word (pd + 4 * i) σ =
  Ok (match T !! i with Some pt => pt - PHYS_BASE + flags true true | None => 0 end, σ).
Proof.
  intros Hi. destruct pd_page as (_ & Hm & _). rewrite load_word_run by (intros a Ha; apply Hm; lia).
  by rewrite (as_pde _ _ _ _ (pg_space _ _ _ _ PG)).
Qed.

Lemma pde_nonzero pt : kernel_page pt → (pt - PHYS_BASE + flags true true =? 0) = false.
Proof. intros (_ & H & _). apply Z.eqb_neq. unfold flags, PHYS_BASE, LOADER_PHYS_BASE in *. lia. Qed.

Context {v : Z} (Hv : 0 ≤ v < PHYS_BASE).

Lemma pte_mapped pt : T !! pd_no v = Some pt → mapped σ.(phys).(ram) (pt + 4 * pt_no v) 4.
Proof.
  intros Hpt. destruct (pt_page _ _ Hpt) as (_ & Hm & _). destruct (user_indices v Hv). intros a Ha. apply Hm. lia.
Qed.

Lemma pte_nonnull pt : T !! pd_no v = Some pt → (pt + 4 * pt_no v =? NULL) = false.
Proof.
  intros Hpt. destruct (pt_page _ _ Hpt) as ((_ & H & _) & _ & _). destruct (user_indices v Hv). apply Z.eqb_neq.
  unfold PHYS_BASE, LOADER_PHYS_BASE in *. mlia.
Qed.

Lemma lookup_asserts {A} (c : bool) (k : M vm A) :
  (assert (negb (pd =? NULL)) ;; assert (negb c || is_user_vaddr v) ;; k) σ = k σ.
Proof.
  destruct pd_page as ((_ & H & _) & _). unfold PHYS_BASE, LOADER_PHYS_BASE in *.
  rewrite bind_assert by (rewrite (proj2 (Z.eqb_neq pd NULL)) by mlia; done).
  rewrite bind_assert; [done|]. unfold is_user_vaddr. rewrite (proj2 (Z.ltb_lt _ _)) by apply Hv. by rewrite orb_true_r.
Qed.

(** With a page table in place both kinds of lookup find the entry. *)
Lemma lookup_present c pt : T !! pd_no v = Some pt → lookup_page pd v c σ = Ok (pt + 4 * pt_no v, σ).
Proof.
  intros Hpt. destruct (user_indices v Hv) as [Hi _]. destruct (pt_page _ _ Hpt) as (Hk & _).
  unfold lookup_page. rewrite lookup_asserts. rewrite (bind_Ok _ _ _ _ _ (pde_run _ Hi)), Hpt, pde_nonzero by done.
  rewrite (bind_Ok _ _ σ true σ) by done. cbn [negb]. rewrite (bind_Ok _ _ _ _ _ (pde_run _ Hi)), Hpt.
  by rewrite (bind_Ok _ _ _ _ _ (pure_run _ _ σ (pde_get_pt_run _ Hk))).
Qed.

Lemma lookup_absent : T !! pd_no v = None → lookup_page pd v false σ = Ok (NULL, σ).
Proof.
  intros Hpt. destruct (user_indices v Hv) as [Hi _].
  unfold lookup_page. rewrite lookup_asserts. rewrite (bind_Ok _ _ _ _ _ (pde_run _ Hi)), Hpt. reflexivity.
Qed.

(** The entry and whether there is one, as reading code sees them. *)
Lemma entry_run pt : T !! pd_no v = Some pt → load_word (pt + 4 * pt_no v) σ = Ok (entry σ.(phys).(ram) T v, σ).
Proof. intros Hpt. rewrite load_word_run by by apply pte_mapped. unfold entry. by rewrite Hpt. Qed.
End find.

(** The directory may have got another table; the represented map is the same. *)
Record grown (pd : Z) (σ : vm) (B : live) (T : gmap Z Z) (σ' : vm) (B' : live) (T' : gmap Z Z) : Prop := {
  gr_paging : paging σ' B' pd T';
  gr_tables : T ⊆ T';
  gr_blocks : B false ⊆ B' false;
  gr_user : B' true = B true;
  gr_state : ∃ p, σ' = upd_phys (λ _, p) σ;
  gr_spares : spares pd T' σ.(phys).(ram) σ'.(phys).(ram);
  gr_place : ∀ u, same_place (pool_of u σ.(phys)) (pool_of u σ'.(phys));
  gr_fresh : ∀ i pt, T' !! i = Some pt → T !! i = Some pt ∨ B false !! pt = None;
  gr_entry : ∀ u, 0 ≤ u < PHYS_BASE → entry σ'.(phys).(ram) T' u = entry σ.(phys).(ram) T u;
}.

Lemma upd_phys_same σ : upd_phys (λ _, σ.(phys)) σ = σ.
Proof. by destruct σ. Qed.

Lemma grown_refl pd σ B T : paging σ B pd T → grown pd σ B T σ B T.
Proof. intros PG. split; try done; [|by left]. exists σ.(phys). by rewrite upd_phys_same. Qed.

(** A zeroed page becomes the page table with index [i]. *)
Lemma grown_table σ B pd T p i r zs :
  zlen zs = 4096 → Forall (eq 0) zs → paging σ B pd T → 0 ≤ i < 768 → T !! i = None → r ≠ NULL → apart (B false) r 1 →
  let B' := set_live false (<[r := 1]> (B false)) B in
  allocator p B' → p.(ram) = store σ.(phys).(ram) r zs →
  (∀ u, same_place (pool_of u σ.(phys)) (pool_of u p)) →
  let m := store p.(ram) (pd + 4 * i) (le32 (r - PHYS_BASE + flags true true)) in
  grown pd σ B T (upd_phys (λ _, set_ram m p) σ) B' (<[i := r]> T).
Proof.
  intros Hzl Hzs PG Hi HiT Hr Hap B' Ha Em Hsp m.
  assert (m = store p.(ram) (pd + 4 * i) (le32 (r - PHYS_BASE + flags true true))) as Hm by done. clearbody m. pose proof (pg_space _ _ _ _ PG) as AS.
  assert (B' false = <[r := 1]> (B false) ∧ B' true = B true) as [EB EBu] by done. clearbody B'.
  destruct (page_block p B' false r Ha) as (Hkr & Hmr & Hrw); [by rewrite EB, lookup_insert_eq|].
  assert (∀ b, B false !! b = Some 1 → b ≠ r ∧ (r + 4096 ≤ b ∨ b + 4096 ≤ r)) as Hnew.
  { intros b Hb. specialize (Hap b 1 Hb). split; [intros ->; lia|lia]. }
  assert (B false !! r = None) as Hfr.
  { destruct (B false !! r) as [k|] eqn:E; [|done]. specialize (Hap r k E).
    pose proof (po_block _ _ _ (al_pool _ _ (pg_alloc _ _ _ _ PG) false) r k E). lia. }
  destruct (Hnew pd (as_dir _ _ _ _ AS)) as [Hpr Hpd]. destruct (pd_page PG) as (Hkp & _).
  assert (is_u32 (r - PHYS_BASE + flags true true)) as Hew.
  { destruct Hkr as (? & ? & ?). unfold flags, PHYS_BASE, LOADER_PHYS_BASE in *. dm_lia. }
  assert (zlen (le32 (r - PHYS_BASE + flags true true)) = 4) as Hl4 by done.
  assert (∀ b, (r + 4096 ≤ b ∨ b + 4 ≤ r) → (pd + 4 * i + 4 ≤ b ∨ b + 4 ≤ pd + 4 * i) → word m b = word σ.(phys).(ram) b) as Hold.
  { intros b Hb1 Hb2. rewrite Hm. rewrite word_store_out, Em, word_store_out by lia. done. }
  split.
  - split; cbn [phys upd_phys].
    + rewrite Hm. by apply allocator_store.
    + split; cbn [ram set_ram]; rewrite ?EB.
      * rewrite lookup_insert_ne by congruence. apply AS.
      * intros j pt [[<- <-]|[_ Hj]]%lookup_insert_Some; [rewrite lookup_insert_eq; split_and!; [lia|lia|done|congruence]|].
        destruct (as_table _ _ _ _ AS j pt Hj) as (? & Hk & ?). split_and!; [lia|lia| |done].
        rewrite lookup_insert_ne; [done|]. intros ->. by destruct (Hnew pt Hk).
      * intros j k pt [[<- <-]|[_ Hj]]%lookup_insert_Some [[<- E]|[_ Hk]]%lookup_insert_Some; subst; try done.
        -- destruct (as_table _ _ _ _ AS k _ Hk) as (_ & Hb & _). by destruct (Hnew _ Hb).
        -- destruct (as_table _ _ _ _ AS j _ Hj) as (_ & Hb & _). by destruct (Hnew _ Hb).
        -- by apply (as_inj _ _ _ _ AS j k pt).
      * intros j Hj. destruct (decide (j = i)) as [->|Hne].
        -- rewrite lookup_insert_eq. rewrite Hm. by apply word_store_eq.
        -- rewrite lookup_insert_ne, Hold by (done || lia). by apply AS.
    + cbn [ram set_ram]. rewrite Hm, Em. apply bytes_only_store; [|apply le32_bytes].
      apply bytes_only_store; [apply PG|]. by eapply Forall_impl; [exact Hzs|]; intros ? <-.
  - by apply insert_subseteq.
  - rewrite EB. by apply insert_subseteq.
  - done.
  - by eexists.
  - intros a Ha'. cbn. rewrite Hm. rewrite store_lookup, Hl4, Em, store_lookup, Hzl.
    repeat (zcase; cbn [andb]; try done); destruct Ha'; first [by left; lia|right; exists i, r; rewrite lookup_insert_eq; split; [done|lia]].
  - intros u. specialize (Hsp u). by destruct u.
  - intros j pt [[<- <-]|[_ Hj]]%lookup_insert_Some; [by right|by left].
  - intros u Hu. cbn. unfold entry. destruct (user_indices u Hu) as [_ Hpt]. destruct (decide (pd_no u = i)) as [->|Hne].
    + rewrite lookup_insert_eq, HiT. rewrite Hm. rewrite word_store_out by (rewrite Hl4; lia). rewrite Em. apply word_zero; [done|lia..].
    + rewrite lookup_insert_ne by done. destruct (T !! pd_no u) as [pt|] eqn:E; [|done].
      destruct (as_table _ _ _ _ AS _ _ E) as (_ & Hk & _). destruct (Hnew pt Hk) as [_ Hd]. destruct (pt_page PG _ _ E) as (_ & _ & ?).
      apply Hold; lia.
Qed.

Lemma zero_page : zlen (replicate (Z.to_nat (4096 * 1)) 0) = 4096 ∧ Forall (eq 0) (replicate (Z.to_nat (4096 * 1)) 0).
Proof. split; [rewrite length_replicate; lia|by apply Forall_replicate]. Qed.

(** A zeroed page of the kernel pool. *)
Lemma get_zeroed σ B :
  allocator σ B →
  ∃ r p B', palloc_get_page PAL_ZERO σ = Ok (r, p) ∧ allocator p B' ∧ (∀ u, same_place (pool_of u σ) (pool_of u p)) ∧
    (r = NULL ∧ B' = B ∧ p.(ram) = σ.(ram) ∧ crowded (pool_of false σ) (B false) 1 ∨
     r ≠ NULL ∧ apart (B false) r 1 ∧ B' = set_live false (<[r := 1]> (B false)) B ∧
     ∃ zs, zlen zs = 4096 ∧ Forall (eq 0) zs ∧ p.(ram) = store σ.(ram) r zs).
Proof.
  intros Ha. destruct (get_serves σ B PAL_ZERO 1 Ha) as (r & p & B' & Hr & Hs & Ha' & Em & Hsp); [lia|].
  destruct zero_page as [Hz1 Hz2]. exists r, p, B'. split_and!; [exact Hr|exact Ha'|exact Hsp|].
  unfold filled in Em. revert Em Hz1 Hz2. generalize (replicate (Z.to_nat (4096 * 1)) 0). intros zs Em Hz1 Hz2.
  inversion Hs as [fl n Hcr|fl n r' u Hn Hr0 Hin Hap|]; subst.
  - left. split_and!; [done..|]. destruct Hcr as [?|Hcr]; [done|exact Hcr].
  - right. split_and!; [done..|]. exists zs. rewrite (proj2 (Z.eqb_neq _ _) Hr0) in Em. done.
Qed.

(** [lookup_page] that may make a table: the answer is null only without a free page. *)
Lemma lookup_create σ B pd T v :
  paging σ B pd T → 0 ≤ v < PHYS_BASE →
  ∃ a σ' B' T', lookup_page pd v true σ = Ok (a, σ') ∧ grown pd σ B T σ' B' T' ∧
    (a = NULL ∧ T' !! pd_no v = None ∧ crowded (pool_of false σ.(phys)) (B false) 1 ∨
     ∃ pt, T' !! pd_no v = Some pt ∧ a = pt + 4 * pt_no v).
Proof.
  intros PG Hv. destruct (T !! pd_no v) as [pt|] eqn:E.
  { exists (pt + 4 * pt_no v), σ, B, T. split_and!; [by apply (lookup_present PG)|by apply grown_refl|].
    right. by exists pt. }
  destruct (user_indices v Hv) as [Hi Hpt].
  destruct (get_zeroed σ.(phys) B (pg_alloc _ _ _ _ PG)) as (r & p & B' & Hr & Ha & Hsp & Hres).
  assert (on_phys (palloc_get_page PAL_ZERO) σ = Ok (r, upd_phys (λ _, p) σ)) as Hget by by apply on_phys_run.
  unfold lookup_page. rewrite (lookup_asserts PG Hv), (bind_Ok _ _ _ _ _ (pde_run PG _ Hi)), E. cbn [Z.eqb].
  destruct Hres as [(-> & -> & Em & Hcr)|(Hr0 & Hap & -> & zs & Hz1 & Hz2 & Em)].
  - exists NULL, (upd_phys (λ _, p) σ), B, T. split_and!.
    + by rewrite (bind_Ok _ _ σ false (upd_phys (λ _, p) σ)) by (by rewrite (bind_Ok _ _ _ _ _ Hget)).
    + split; cbn; rewrite ?Em; try done; [|by eexists|by left]. split; cbn; rewrite ?Em; try done; apply PG.
    + by left.
  - set (e := r - PHYS_BASE + flags true true). set (m := store p.(ram) (pd + 4 * pd_no v) (le32 e)).
    set (σ' := upd_phys (λ _, set_ram m p) σ).
    pose proof (grown_table σ B pd T p (pd_no v) r _ Hz1 Hz2 PG Hi E Hr0 Hap Ha Em Hsp) as G. cbv zeta in G. fold e in G. fold m in G. fold σ' in G.
    exists (r + 4 * pt_no v), σ', (set_live false (<[r := 1]> (B false)) B), (<[pd_no v := r]> T).
    assert (<[pd_no v := r]> T !! pd_no v = Some r) as Er by apply lookup_insert_eq.
    split_and!; [|done|right; by exists r].
    destruct (pt_page (gr_paging _ _ _ _ _ _ _ G) _ _ Er) as (Hk & _).
    rewrite (bind_Ok _ _ σ true σ').
    + cbn [negb]. rewrite (bind_Ok _ _ _ _ _ (pde_run (gr_paging _ _ _ _ _ _ _ G) _ Hi)), Er.
      by rewrite (bind_Ok _ _ _ _ _ (pure_run _ _ _ (pde_get_pt_run _ Hk))).
    + rewrite (bind_Ok _ _ _ _ _ Hget), (proj2 (Z.eqb_neq _ _) Hr0).
      rewrite (bind_Ok _ _ _ _ _ (pure_run _ _ _ (pde_create_ok _ Hk))). fold e.
      assert (mapped p.(ram) (pd + 4 * pd_no v) 4) as Hm.
      { rewrite Em. apply mapped_store. destruct (pd_page PG) as (_ & Hm & _). intros a Ha'. apply Hm. lia. }
      by rewrite (bind_Ok _ _ _ _ _ (store_word_run (upd_phys (λ _, p) σ) (pd + 4 * pd_no v) e Hm)).
Qed.

(** ** Changing an entry *)

Lemma paging_set σ B pd T v w pt :
  paging σ B pd T → 0 ≤ v < PHYS_BASE → T !! pd_no v = Some pt → is_u32 w →
  let σ' := set_mem (store σ.(phys).(ram) (pt + 4 * pt_no v) (le32 w)) σ in
  store_word (pt + 4 * pt_no v) w σ = Ok (tt, σ') ∧ paging σ' B pd T ∧ spares pd T σ.(phys).(ram) σ'.(phys).(ram) ∧
  entry σ'.(phys).(ram) T v = w ∧
  ∀ u, 0 ≤ u < PHYS_BASE → (pd_no u, pt_no u) ≠ (pd_no v, pt_no v) → entry σ'.(phys).(ram) T u = entry σ.(phys).(ram) T u.
Proof.
  intros PG Hv Hpt Hw σ'. destruct (user_indices v Hv) as [Hi Hj]. destruct (pt_page PG _ _ Hpt) as (_ & Hm & Hap).
  assert (zlen (le32 w) = 4) as Hl4 by done. split_and!.
  - apply store_word_run. by apply (pte_mapped PG Hv).
  - split; cbn [phys σ' set_mem upd_phys ram set_ram].
    + apply allocator_store, PG.
    + apply aspace_store; [apply PG|]. intros i' Hi'. lia.
    + apply bytes_only_store; [apply PG|apply le32_bytes].
  - intros a Ha. cbn [phys σ' set_mem upd_phys ram set_ram]. rewrite store_lookup. repeat (zcase; cbn [andb]; try done). destruct Ha. right. exists (pd_no v), pt. split; [done|lia].
  - unfold entry. rewrite Hpt. cbn [phys σ' set_mem upd_phys ram set_ram]. by apply word_store_eq.
  - intros u Hu Hne. unfold entry. destruct (user_indices u Hu) as [Hi' Hj']. destruct (decide (pd_no u = pd_no v)) as [E|E].
    + rewrite E, Hpt. cbn [phys σ' set_mem upd_phys ram set_ram]. rewrite word_store_out; [done|]. assert (pt_no u ≠ pt_no v) by congruence. lia.
    + destruct (T !! pd_no u) as [pt'|] eqn:E'; [|done]. cbn [phys σ' set_mem upd_phys ram set_ram]. rewrite word_store_out; [done|].
      destruct (pt_pages_apart PG _ _ _ _ E' Hpt E); lia.
Qed.
