(* ===== verification/VmSpace.v ===== *)
(** * Address spaces

    The operations of userprog/pagedir.c as operations on the map from user pages to
    page table entries, the isolation of the directories from each other, and the
    coherence of the translation lookaside buffer with the active directory. *)

From S2P Require Import Prelude Vaddr Bytes Bitmap Str Palloc Filesys Vm VmPagedir.
Local Open Scope c_scope.

(** ** Bits of an entry *)

Lemma bits_lt x n : 0 ≤ x → 0 ≤ n → (∀ i, n ≤ i → Z.testbit x i = false) → x < 2 ^ n.
Proof.
  intros Hx Hn Hb. destruct (decide (x = 0)) as [->|Hne]; [lia|].
  apply Z.log2_lt_pow2; [lia|]. destruct (decide (Z.log2 x < n)); [done|].
  specialize (Hb (Z.log2 x) ltac:(lia)). rewrite Z.bit_log2 in Hb by lia. done.
Qed.

Lemma lor_lt x y n : 0 ≤ n → 0 ≤ x < 2 ^ n → 0 ≤ y < 2 ^ n → 0 ≤ Z.lor x y < 2 ^ n.
Proof.
  intros Hn Hx Hy. assert (0 ≤ Z.lor x y) by (apply Z.lor_nonneg; lia). split; [done|].
  apply bits_lt; [done..|]. intros i Hi. rewrite Z.lor_spec.
  by rewrite (testbit_high x n n i), (testbit_high y n n i) by lia.
Qed.

Lemma land_lt x y n : 0 ≤ n → 0 ≤ x < 2 ^ n → 0 ≤ Z.land x y < 2 ^ n.
Proof.
  intros Hn Hx. assert (0 ≤ Z.land x y) by (apply Z.land_nonneg; lia). split; [done|].
  apply bits_lt; [done..|]. intros i Hi. rewrite Z.land_spec. by rewrite (testbit_high x n n i) by lia.
Qed.

Definition present (e : Z) : bool := negb (Z.land e PTE_P =? 0).

(** The kernel address of the frame of an entry. *)
Definition frame_of (e : Z) : Z := e - e `mod` 4096 + PHYS_BASE.

(** A cached entry grants at most what the entry in memory grants, for the same frame. *)
Definition cached_ok (e e' : Z) : Prop :=
  present e ∧ Z.land e e' = e ∧ Z.land e PTE_ADDR = Z.land e' PTE_ADDR.

Lemma cached_present e e' : cached_ok e e' → present e' = true.
Proof.
  intros (Hp & Hs & _). unfold present in *. destruct (Z.eqb_spec (Z.land e' PTE_P) 0) as [E|]; [|done].
  rewrite <- Hs, <- Z.land_assoc, E, Z.land_0_r in Hp. done.
Qed.

Lemma cached_more e e' bit : Z.land bit PTE_ADDR = 0 → cached_ok e e' → cached_ok e (Z.lor e' bit).
Proof.
  intros Hb (Hp & Hs & Ha). split_and!; [done| |].
  - apply Z.bits_inj'. intros i Hi. assert (Z.testbit (Z.land e e') i = Z.testbit e i) as E by by rewrite Hs.
    rewrite Z.land_spec in *. rewrite Z.lor_spec. by destruct (Z.testbit e i), (Z.testbit e' i).
  - by rewrite Z.land_lor_distr_l, Hb, Z.lor_0_r.
Qed.

(** ** The contract *)

Inductive access :=
  | SetPage (upage kpage : Z) (writable : bool)
  | GetPage (uaddr : Z)
  | ClearPage (upage : Z)
  | Test (bit vpage : Z)
  | Assign (bit vpage : Z) (v : bool).

Definition perform (pd : Z) (q : access) : M vm Z :=
  match q with
  | SetPage upage kpage writable => b <- pagedir_set_page pd upage kpage writable ;; ret (Z.b2z b)
  | GetPage uaddr => pagedir_get_page pd uaddr
  | ClearPage upage => pagedir_clear_page pd upage ;; ret 0
  | Test bit vpage => b <- pagedir_test bit pd vpage ;; ret (Z.b2z b)
  | Assign bit vpage v => pagedir_assign bit pd vpage v ;; ret 0
  end.

Definition put (E : Z → Z) (v w : Z) : Z → Z := λ u, if pg_no u =? pg_no v then w else E u.

Definition user_page (u : Z) : Prop := 0 ≤ u < PHYS_BASE ∧ u `mod` 4096 = 0.

(** What the code asserts or relies on. *)
Definition permitted (σ : vm) (pd : Z) (E : Z → Z) (q : access) : Prop :=
  match q with
  | SetPage upage kpage _ =>
      user_page upage ∧ kernel_page kpage ∧ (kpage - PHYS_BASE) `div` 4096 < σ.(con).(ram_pages) ∧
      pd ≠ σ.(con).(base_page_dir) ∧ present (E upage) = false ∧ 0 < σ.(frame_sema)
  | GetPage uaddr => 0 ≤ uaddr < PHYS_BASE
  | ClearPage upage => user_page upage ∧ 0 ≤ σ.(proc).(cr3) < 1073741824
  | Test bit vpage => 0 ≤ vpage < PHYS_BASE
  | Assign bit vpage _ => 0 ≤ vpage < PHYS_BASE ∧ bit ∈ [PTE_W; PTE_A; PTE_D] ∧ 0 ≤ σ.(proc).(cr3) < 1073741824
  end.

(** The abstract address space: a map from user addresses to entries. [full] says that
    a user page has no page table and no page is left for one.  Setting a bit where there is no entry may be lost. *)
Inductive behaves (full : Z → Prop) (E : Z → Z) : access → Z → (Z → Z) → Prop :=
  | ans_full upage kpage writable : full upage → behaves full E (SetPage upage kpage writable) 0 E
  | ans_set upage kpage writable :
      behaves full E (SetPage upage kpage writable) 1 (put E upage (kpage - PHYS_BASE + flags true writable))
  | ans_get uaddr :
      behaves full E (GetPage uaddr)
        (if present (E uaddr) then frame_of (E uaddr) + uaddr `mod` 4096 else NULL) E
  | ans_clear upage :
      behaves full E (ClearPage upage) 0
        (if present (E upage) then put E upage (Z.land (E upage) (not32 PTE_P)) else E)
  | ans_test bit vpage : behaves full E (Test bit vpage) (Z.b2z (negb (Z.land (E vpage) bit =? 0))) E
  | ans_assign bit vpage (v : bool) :
      behaves full E (Assign bit vpage v) 0
        (put E vpage (if v then Z.lor (E vpage) bit else Z.land (E vpage) (not32 bit)))
  | ans_lost bit vpage (v : bool) : E vpage = 0 → behaves full E (Assign bit vpage v) 0 E.

(** The frames of the entries are in the kernel's window on physical memory. *)
Definition frames_ok (E : Z → Z) : Prop := ∀ u, 0 ≤ u < PHYS_BASE → E u < 2 ^ 30.

Record space (σ : vm) (B : live) (pd : Z) (T : gmap Z Z) : Prop := {
  sp_paging : paging σ B pd T;
  sp_frames : frames_ok (entry σ.(phys).(ram) T);
}.

(** What is neither memory, the processor nor the frame table. *)
Definition rest (σ : vm) := (σ.(fsys), σ.(threads), σ.(current), σ.(frame_sema), σ.(sup_entries), σ.(swaps), σ.(con)).

Definition frames_after (pd : Z) (T : gmap Z Z) (q : access) (r : Z) (l : list frame_entry) : list frame_entry :=
  match q with
  | SetPage upage kpage _ =>
      if r =? 1 then set_pte l upage kpage (default 0 (T !! pd_no upage) + 4 * pt_no upage) else l
  | _ => l
  end.

(** The buffer is emptied where rights of the active directory are taken away. *)
Definition flushes (σ : vm) (pd : Z) (T : gmap Z Z) (E : Z → Z) (q : access) : bool :=
  match q with
  | ClearPage upage => present (E upage) && (σ.(proc).(cr3) =? pd - PHYS_BASE)
  | Assign _ vpage v => bool_decide (is_Some (T !! pd_no vpage)) && negb v && (σ.(proc).(cr3) =? pd - PHYS_BASE)
  | _ => false
  end.

Definition no_table (σ : vm) (B : live) (T : gmap Z Z) (u : Z) : Prop :=
  T !! pd_no u = None ∧ crowded (pool_of false σ.(phys)) (B false) 1.

Record effect (σ : vm) (B : live) (pd : Z) (T : gmap Z Z) (q : access) (r : Z)
    (σ' : vm) (B' : live) (T' : gmap Z Z) (E' : Z → Z) : Prop := {
  ef_space : space σ' B' pd T';
  ef_tables : T ⊆ T';
  ef_blocks : B false ⊆ B' false;
  ef_user : B' true = B true;
  ef_fresh : ∀ i pt, T' !! i = Some pt → T !! i = Some pt ∨ B false !! pt = None;
  ef_spares : spares pd T' σ.(phys).(ram) σ'.(phys).(ram);
  ef_place : ∀ u, same_place (pool_of u σ.(phys)) (pool_of u σ'.(phys));
  ef_answer : behaves (no_table σ B T) (entry σ.(phys).(ram) T) q r E';
  ef_entry : ∀ u, 0 ≤ u < PHYS_BASE → entry σ'.(phys).(ram) T' u = E' u;
  ef_table : σ'.(frame_table) = frames_after pd T' q r σ.(frame_table);
  ef_proc : σ'.(proc) = if flushes σ pd T (entry σ.(phys).(ram) T) q then Cpu σ.(proc).(cr3) ∅ else σ.(proc);
  ef_rest : rest σ' = rest σ;
}.

(** ** The operations *)

Lemma page_indices u v : 0 ≤ u < PHYS_BASE → 0 ≤ v < PHYS_BASE →
  (pg_no u =? pg_no v) = bool_decide ((pd_no u, pt_no u) = (pd_no v, pt_no v)).
Proof.
  unfold PHYS_BASE, LOADER_PHYS_BASE. intros Hu Hv. rewrite !pg_no_div, !pd_no_eq, !pt_no_eq by mlia.
  case_bool_decide as E; [injection E as E1 E2; apply Z.eqb_eq; dm_lia|apply Z.eqb_neq; intros Heq; apply E; f_equal; dm_lia].
Qed.

Section ops.
Context {σ : vm} {B : live} {pd : Z} {T : gmap Z Z} (SP : space σ B pd T).
Local Notation PG := (sp_paging _ _ _ _ SP).
Local Notation E := (entry σ.(phys).(ram) T).

Lemma entry_range v : 0 ≤ v < PHYS_BASE → 0 ≤ E v < 2 ^ 30.
Proof.
  intros Hv. split; [|by apply SP]. unfold entry. destruct (T !! pd_no v); [|done].
  apply word_u32, PG.
Qed.

(** Reading code first looks for the table. *)
Lemma with_entry {A} v (k1 : M vm A) (k2 : Z → Z → M vm A) : 0 ≤ v < PHYS_BASE →
  (pte <- lookup_page pd v false ;; if pte =? NULL then k1 else e <- load_word pte ;; k2 pte e) σ =
  match T !! pd_no v with Some pt => k2 (pt + 4 * pt_no v) (E v) σ | None => k1 σ end.
Proof.
  intros Hv. destruct (T !! pd_no v) as [pt|] eqn:Ht.
  - rewrite (bind_Ok _ _ _ _ _ (lookup_present PG Hv _ _ Ht)), (pte_nonnull PG Hv _ Ht).
    by rewrite (bind_Ok _ _ _ _ _ (entry_run PG Hv _ Ht)).
  - by rewrite (bind_Ok _ _ _ _ _ (lookup_absent PG Hv Ht)).
Qed.

Lemma entry_none v : T !! pd_no v = None → E v = 0.
Proof. intros H. unfold entry. by rewrite H. Qed.

Lemma effect_read q r :
  behaves (no_table σ B T) E q r E →
  frames_after pd T q r σ.(frame_table) = σ.(frame_table) → flushes σ pd T E q = false →
  effect σ B pd T q r σ B T E.
Proof. intros Ha Hf Hp. split; first [done|by left|by rewrite Hp]. Qed.

Lemma pte_get_page_run e : 0 ≤ e < 2 ^ 30 → pte_get_page e = Ok (frame_of e).
Proof.
  intros He. change (2 ^ 30) with 1073741824 in He. unfold pte_get_page. rewrite PTE_ADDR_eq by mlia.
  rewrite ptov_ok by dm_lia. done.
Qed.

Lemma get_page_effect uaddr : 0 ≤ uaddr < PHYS_BASE →
  ∃ r, perform pd (GetPage uaddr) σ = Ok (r, σ) ∧ effect σ B pd T (GetPage uaddr) r σ B T E.
Proof.
  intros Hu. exists (if present (E uaddr) then frame_of (E uaddr) + uaddr `mod` 4096 else NULL).
  split; [|apply effect_read; [constructor|done..]].
  cbn [perform]. unfold pagedir_get_page. rewrite bind_assert by (apply Z.ltb_lt, Hu).
  rewrite with_entry by done. destruct (T !! pd_no uaddr) as [pt|] eqn:Ht; [|by rewrite entry_none by done].
  fold (present (E uaddr)). destruct (present (E uaddr)); [|done].
  pose proof (entry_range uaddr Hu) as He. rewrite (bind_Ok _ _ _ _ _ (pure_run _ _ σ (pte_get_page_run _ He))).
  rewrite pg_ofs_mod, u32_small; [done|]. change (2 ^ 30) with 1073741824 in He.
  unfold frame_of, PHYS_BASE, LOADER_PHYS_BASE in *. mc_unfold. dm_lia.
Qed.

Lemma test_effect bit vpage : 0 ≤ vpage < PHYS_BASE →
  ∃ r, perform pd (Test bit vpage) σ = Ok (r, σ) ∧ effect σ B pd T (Test bit vpage) r σ B T E.
Proof.
  intros Hu. exists (Z.b2z (negb (Z.land (E vpage) bit =? 0))).
  split; [|apply effect_read; [constructor|done..]].
  cbn [perform]. unfold pagedir_test. 
  rewrite (bind_Ok _ _ σ (negb (Z.land (E vpage) bit =? 0)) σ); [done|].
  rewrite with_entry by done. destruct (T !! pd_no vpage) as [pt|] eqn:Ht; [done|by rewrite entry_none by done].
Qed.

Lemma space_phys σ' : σ'.(phys) = σ.(phys) → space σ' B pd T.
Proof. destruct SP as [[H1 H2 H3] H4]. intros E. split; [split|]; by rewrite E. Qed.
End ops.

(** A new value for an entry. *)
Lemma written σ B pd T v w pt :
  space σ B pd T → 0 ≤ v < PHYS_BASE → T !! pd_no v = Some pt → 0 ≤ w < 2 ^ 30 →
  ∃ m, store_word (pt + 4 * pt_no v) w σ = Ok (tt, set_mem m σ) ∧
    space (set_mem m σ) B pd T ∧ spares pd T σ.(phys).(ram) m ∧
    ∀ u, 0 ≤ u < PHYS_BASE → entry m T u = put (entry σ.(phys).(ram) T) v w u.
Proof.
  intros SP Hv Ht Hw. destruct (paging_set σ B pd T v w pt) as (Hr & Hp & Hs & He & Ho); [apply SP|done..| |].
  { change (2 ^ 30) with 1073741824 in Hw. mlia. }
  eexists. split; [exact Hr|]. set (m := store _ _ _) in *.
  assert (∀ u, 0 ≤ u < PHYS_BASE → entry m T u = put (entry σ.(phys).(ram) T) v w u) as Hput.
  { intros u Hu. unfold put. rewrite page_indices by done. case_bool_decide as Hd; [|by apply Ho].
    transitivity (entry m T v); [|exact He]. unfold entry. by injection Hd as -> ->. }
  split_and!; [|exact Hs|exact Hput]. split; [exact Hp|]. intros u Hu. change (entry m T u < 2 ^ 30).
  rewrite Hput by done. unfold put. case_match; [lia|by apply SP].
Qed.

Lemma set_mem_phys m σ : (set_mem m σ).(phys) = set_ram m σ.(phys).
Proof. done. Qed.

(** The effect of a write to the entry of a page that has a table. *)
Lemma effect_write σ B pd T q r v w m σ' :
  space (set_mem m σ) B pd T → spares pd T σ.(phys).(ram) m →
  (∀ u, 0 ≤ u < PHYS_BASE → entry m T u = put (entry σ.(phys).(ram) T) v w u) →
  behaves (no_table σ B T) (entry σ.(phys).(ram) T) q r (put (entry σ.(phys).(ram) T) v w) →
  σ'.(phys) = set_ram m σ.(phys) → σ'.(frame_table) = frames_after pd T q r σ.(frame_table) →
  σ'.(proc) = (if flushes σ pd T (entry σ.(phys).(ram) T) q then Cpu σ.(proc).(cr3) ∅ else σ.(proc)) →
  rest σ' = rest σ →
  effect σ B pd T q r σ' B T (put (entry σ.(phys).(ram) T) v w).
Proof.
  intros SP Hs He Ha Ep Ef Epr Er. split; rewrite ?Ep; first [done|by apply (space_phys SP)|by left|by intros []].
Qed.

Lemma invalidate_run σ B pd T : space σ B pd T → 0 ≤ σ.(proc).(cr3) < 1073741824 →
  invalidate_pagedir pd σ =
    Ok (tt, if σ.(proc).(cr3) =? pd - PHYS_BASE then upd_proc (λ _, Cpu σ.(proc).(cr3) ∅) σ else σ).
Proof.
  intros SP Hc. destruct (pd_page (sp_paging _ _ _ _ SP)) as ((Hk1 & Hk2 & _) & _).
  unfold invalidate_pagedir. rewrite (bind_Ok _ _ σ (σ.(proc).(cr3) + PHYS_BASE) σ).
  2:{ unfold active_pd. rewrite (bind_Ok _ _ σ σ.(proc) σ) by done. by apply pure_run, ptov_ok. }
  destruct (Z.eqb_spec σ.(proc).(cr3) (pd - PHYS_BASE)) as [E|Hne].
  - rewrite (proj2 (Z.eqb_eq _ _)) by lia. unfold pagedir_activate.
    rewrite (bind_Ok _ _ σ σ.(con) σ) by done. unfold PHYS_BASE, LOADER_PHYS_BASE in Hk2.
    rewrite (proj2 (Z.eqb_neq pd NULL)) by mlia.
    rewrite (bind_Ok _ _ _ _ _ (pure_run _ _ σ (vtop_ok pd Hk1 Hk2))). by rewrite E.
  - by rewrite (proj2 (Z.eqb_neq _ _)) by lia.
Qed.

Lemma clear_effect σ B pd T upage :
  space σ B pd T → permitted σ pd (entry σ.(phys).(ram) T) (ClearPage upage) →
  ∃ σ' E', perform pd (ClearPage upage) σ = Ok (0, σ') ∧ effect σ B pd T (ClearPage upage) 0 σ' B T E'.
Proof.
  intros SP [[Hu Hm] Hc]. set (E := entry σ.(phys).(ram) T). pose proof (entry_range SP upage Hu) as He. fold E in He.
  assert (∀ r s, pagedir_clear_page pd upage σ = Ok (r, s) → perform pd (ClearPage upage) σ = Ok (0, s)) as Hp.
  { intros r s H. cbn [perform]. by rewrite (bind_Ok _ _ _ _ _ H). }
  pose proof (ans_clear (no_table σ B T) E upage) as Ha.
  unfold pagedir_clear_page in Hp. rewrite bind_assert in Hp by (rewrite pg_ofs_mod; by apply Z.eqb_eq).
  rewrite bind_assert in Hp by (apply Z.ltb_lt, Hu). rewrite (with_entry SP) in Hp by done. fold E in Hp.
  fold (present (E upage)) in Hp. destruct (present (E upage)) eqn:Hpr.
  - destruct (T !! pd_no upage) as [pt|] eqn:Ht.
    2:{ unfold E, entry in Hpr. rewrite Ht in Hpr. done. }
    destruct (written σ B pd T upage (Z.land (E upage) (not32 PTE_P)) pt SP Hu Ht) as (m & Hw & SP' & Hs & Hput).
    { by apply land_lt. }
    rewrite (bind_Ok _ _ _ _ _ Hw), (invalidate_run _ B pd T SP' Hc) in Hp. change (proc (set_mem m σ)) with (proc σ) in Hp.
    eexists _, _. split; [exact (Hp _ _ eq_refl)|]. eapply effect_write; [exact SP'|exact Hs|exact Hput|exact Ha|by case_match..| |].
    + unfold flushes. fold E. rewrite Hpr. cbn [andb]. by case_match.
    + by case_match.
  - exists σ, E. split; [destruct (T !! pd_no upage); exact (Hp _ _ eq_refl)|]. apply effect_read; [done..|].
    unfold flushes. fold E. by rewrite Hpr.
Qed.

Lemma assign_effect σ B pd T bit vpage v :
  space σ B pd T → permitted σ pd (entry σ.(phys).(ram) T) (Assign bit vpage v) →
  ∃ σ' E', perform pd (Assign bit vpage v) σ = Ok (0, σ') ∧ effect σ B pd T (Assign bit vpage v) 0 σ' B T E'.
Proof.
  intros SP (Hu & Hbit & Hc). set (E := entry σ.(phys).(ram) T). pose proof (entry_range SP vpage Hu) as He. fold E in He.
  assert (∀ r s, pagedir_assign bit pd vpage v σ = Ok (r, s) → perform pd (Assign bit vpage v) σ = Ok (0, s)) as Hp.
  { intros r s H. cbn [perform]. by rewrite (bind_Ok _ _ _ _ _ H). }
  unfold pagedir_assign in Hp. rewrite (with_entry SP) in Hp by done. fold E in Hp.
  destruct (T !! pd_no vpage) as [pt|] eqn:Ht.
  2:{ exists σ, E. split; [exact (Hp _ _ eq_refl)|]. apply effect_read; [done|by apply ans_lost, entry_none|done|].
      unfold flushes. by rewrite Ht. }
  assert (0 ≤ bit < 2 ^ 30) as Hb.
  { revert Hbit. rewrite !elem_of_cons. by intros [->|[->|[->|?%elem_of_nil]]]. }
  destruct (written σ B pd T vpage (if v then Z.lor (E vpage) bit else Z.land (E vpage) (not32 bit)) pt SP Hu Ht)
    as (m & Hw & SP' & Hs & Hput).
  { destruct v; [by apply lor_lt|by apply land_lt]. }
  pose proof (ans_assign (no_table σ B T) E bit vpage v) as Ha.
  destruct v.
  - rewrite Hw in Hp. eexists _, _. split; [exact (Hp _ _ eq_refl)|].
    eapply effect_write; [exact SP'|exact Hs|exact Hput|exact Ha|done|done| |done].
    unfold flushes. rewrite Ht. by rewrite andb_false_r.
  - rewrite (bind_Ok _ _ _ _ _ Hw), (invalidate_run _ B pd T SP' Hc) in Hp. change (proc (set_mem m σ)) with (proc σ) in Hp.
    eexists _, _. split; [exact (Hp _ _ eq_refl)|]. eapply effect_write; [exact SP'|exact Hs|exact Hput|exact Ha|by case_match..| |by case_match].
    unfold flushes. rewrite Ht. cbn [andb negb bool_decide]. by case_match.
Qed.

Lemma frame_entry_set_pte_run σ upage kpage pte : 0 < σ.(frame_sema) →
  frame_entry_set_pte upage kpage pte σ = Ok (tt, upd_frames (λ l, set_pte l upage kpage pte) σ).
Proof.
  intros Hs. unfold frame_entry_set_pte, sema_down_frame.
  rewrite (bind_Ok _ _ σ tt (upd_frame_sema (λ _, σ.(frame_sema) - 1) σ)).
  - unfold sema_up_frame, change, bind, upd_frames, upd_frame_sema. cbn. by rewrite Z.sub_add.
  - rewrite (bind_Ok _ _ σ σ.(frame_sema) σ) by done. by rewrite (proj2 (Z.ltb_lt _ _) Hs).
Qed.

Lemma grown_space pd σ B T σ1 B1 T1 : space σ B pd T → grown pd σ B T σ1 B1 T1 → space σ1 B1 pd T1.
Proof.
  intros SP G. split; [apply G|]. intros u Hu. rewrite (gr_entry _ _ _ _ _ _ _ G) by done. by apply SP.
Qed.

Lemma set_asserts {A} σ pd upage kpage (k : M vm A) :
  user_page upage → kernel_page kpage → (kpage - PHYS_BASE) `div` 4096 < σ.(con).(ram_pages) →
  pd ≠ σ.(con).(base_page_dir) →
  (assert (pg_ofs upage =? 0) ;; assert (pg_ofs kpage =? 0) ;; assert (is_user_vaddr upage) ;;
   p <- pure (vtop kpage) ;; c <- reads con ;; assert (Z.shiftr p PTSHIFT <? c.(ram_pages)) ;;
   assert (negb (pd =? c.(base_page_dir))) ;; k) σ = k σ.
Proof.
  intros [Hu Hm] (Hk1 & Hk2 & Hk3) Hr Hb. rewrite !pg_ofs_mod.
  rewrite !bind_assert by (by apply Z.eqb_eq || apply Z.ltb_lt, Hu).
  rewrite (bind_Ok _ _ _ _ _ (pure_run _ _ σ (vtop_ok _ Hk1 Hk2))). rewrite (bind_Ok _ _ σ σ.(con) σ) by done.
  rewrite bind_assert, bind_assert; [done|by rewrite (proj2 (Z.eqb_neq _ _) Hb)|].
  apply Z.ltb_lt. change PTSHIFT with 12. by rewrite Z.shiftr_div_pow2.
Qed.

Lemma set_effect σ B pd T upage kpage w :
  space σ B pd T → permitted σ pd (entry σ.(phys).(ram) T) (SetPage upage kpage w) →
  ∃ r σ' B' T' E', perform pd (SetPage upage kpage w) σ = Ok (r, σ') ∧
    effect σ B pd T (SetPage upage kpage w) r σ' B' T' E'.
Proof.
  intros SP (Hu & Hk & Hr & Hb & Hpr & Hs). set (E := entry σ.(phys).(ram) T) in *.
  destruct (lookup_create σ B pd T upage (sp_paging _ _ _ _ SP) (proj1 Hu)) as (a & σ1 & B1 & T1 & Hl & G & Ha).
  destruct (gr_state _ _ _ _ _ _ _ G) as [p Ep]. cbn [perform]. unfold pagedir_set_page.
  destruct Ha as [(-> & Hn & Hc)|(pt & Ht & ->)].
  - exists 0, σ1, B1, T1, E. split.
    + rewrite (bind_Ok _ _ σ false σ1); [done|]. rewrite set_asserts by done. by rewrite (bind_Ok _ _ _ _ _ Hl).
    + split; try apply G; [by apply (grown_space _ σ B T)| |by rewrite Ep..].
      constructor. split; [|done]. by eapply lookup_weaken_None, G.
  - pose proof (grown_space _ _ _ _ _ _ _ SP G) as SP1. destruct Hu as [Hu Hm].
    assert (0 ≤ kpage - PHYS_BASE + flags true w < 2 ^ 30) as Hw.
    { destruct Hk as (? & ? & ?). change (2 ^ 30) with 1073741824. unfold PHYS_BASE, LOADER_PHYS_BASE in *. unfold flags in *; mc_unfold; destruct w; dm_lia. }
    destruct (written σ1 B1 pd T1 upage _ pt SP1 Hu Ht Hw) as (m & Hst & SP' & Hsp & Hput).
    set (σ' := upd_frames (λ l, set_pte l upage kpage (pt + 4 * pt_no upage)) (set_mem m σ1)).
    exists 1, σ', B1, T1, (put E upage (kpage - PHYS_BASE + flags true w)). split.
    + rewrite (bind_Ok _ _ σ true σ'); [done|]. rewrite set_asserts by done. rewrite (bind_Ok _ _ _ _ _ Hl).
      rewrite (pte_nonnull (sp_paging _ _ _ _ SP1) Hu _ Ht). cbn [negb].
      rewrite (bind_Ok _ _ _ _ _ (entry_run (sp_paging _ _ _ _ SP1) Hu _ Ht)).
      rewrite bind_assert.
      2:{ rewrite (gr_entry _ _ _ _ _ _ _ G) by done. fold E. unfold present in Hpr. by apply negb_false_iff. }
      rewrite (bind_Ok _ _ _ _ _ (pure_run _ _ σ1 (pte_create_user_ok _ w Hk))), (bind_Ok _ _ _ _ _ Hst).
      by rewrite (bind_Ok _ _ _ _ _ (frame_entry_set_pte_run (set_mem m σ1) upage kpage _ ltac:(rewrite Ep; exact Hs))).
    + split; try apply G; [by apply (space_phys SP')| |by constructor|..].
      * intros x Hx. change (m !! x = σ.(phys).(ram) !! x). rewrite (Hsp x Hx). by apply G.
      * intros u Hu'. change (entry m T1 u = put E upage (kpage - PHYS_BASE + flags true w) u).
        rewrite Hput by done. unfold put. case_match; [done|]. by apply G.
      * unfold frames_after. cbn [Z.eqb]. rewrite Ht. unfold σ'. by rewrite Ep.
      * unfold σ'. by rewrite Ep.
      * unfold σ'. by rewrite Ep.
Qed.

Lemma perform_ok σ B pd T q :
  space σ B pd T → permitted σ pd (entry σ.(phys).(ram) T) q →
  ∃ r σ' B' T' E', perform pd q σ = Ok (r, σ') ∧ effect σ B pd T q r σ' B' T' E'.
Proof.
  intros SP Hq. destruct q as [upage kpage w|uaddr|upage|bit vpage|bit vpage v].
  - by apply set_effect.
  - destruct (get_page_effect SP uaddr Hq) as (r & Hr & He). by eexists _, _, _, _, _.
  - destruct (clear_effect σ B pd T upage SP Hq) as (σ' & E' & Hr & He). by eexists _, _, _, _, _.
  - destruct (test_effect SP bit vpage Hq) as (r & Hr & He). by eexists _, _, _, _, _.
  - destruct (assign_effect σ B pd T bit vpage v SP Hq) as (σ' & E' & Hr & He). by eexists _, _, _, _, _.
Qed.

(** ** Several directories *)

(** An address space is kept where its pages are. *)
Section kept.
Context (σ σ' : vm) (B B' : live) (pd : Z) (T : gmap Z Z) (SP : space σ B pd T).
Context (Ha : allocator σ'.(phys) B') (Hb : bytes_only σ'.(phys).(ram)).
Context (Hdir : B' false !! pd = Some 1) (Htab : ∀ i pt, T !! i = Some pt → B' false !! pt = Some 1).
Context (Hm : ∀ a, in_space pd T a → σ'.(phys).(ram) !! a = σ.(phys).(ram) !! a).

Lemma word_kept a : (∀ b, a ≤ b < a + 4 → in_space pd T b) → word σ'.(phys).(ram) a = word σ.(phys).(ram) a.
Proof. intros H. unfold word, at_. rewrite !Hm by (apply H; lia). done. Qed.

Lemma entry_kept u : 0 ≤ u < PHYS_BASE → entry σ'.(phys).(ram) T u = entry σ.(phys).(ram) T u.
Proof.
  intros Hu. unfold entry. destruct (user_indices u Hu) as [_ Hj]. destruct (T !! pd_no u) as [pt|] eqn:E; [|done].
  apply word_kept. intros b Hb'. right. exists (pd_no u), pt. split; [done|lia].
Qed.

Lemma space_kept : space σ' B' pd T.
Proof.
  destruct SP as [[H1 [D1 D2 D3 D4] H3] H4]. split; [split; [done| |done]|].
  - split; [done| |done|].
    + intros i pt Hi. destruct (D2 i pt Hi) as (? & _ & ?). split_and!; [lia..|by eapply Htab|done].
    + intros i Hi. rewrite word_kept; [by apply D4|]. intros b Hb'. left. lia.
  - intros u Hu. rewrite entry_kept by done. by apply H4.
Qed.
End kept.

(** The entry of an allocated frame. *)
Lemma added_frame r w : kernel_page r →
  present (r - PHYS_BASE + flags true w) = true ∧ frame_of (r - PHYS_BASE + flags true w) = r.
Proof.
  intros Hk. split.
  - unfold present. rewrite entry_flag by (done || (destruct w; by cbn)). by destruct w.
  - destruct Hk as (H1 & H2 & H3). unfold frame_of, PHYS_BASE, LOADER_PHYS_BASE in *. unfold flags; mc_unfold; destruct w; dm_lia.
Qed.

(** Two directories have no page in common. *)
Definition apart_spaces (pd : Z) (T : gmap Z Z) (pa : Z) (Ta : gmap Z Z) : Prop :=
  pd ≠ pa ∧ (∀ i, Ta !! i ≠ Some pd) ∧ (∀ i, T !! i ≠ Some pa) ∧ ∀ i j pt, T !! i = Some pt → Ta !! j ≠ Some pt.

(** A page of the first directory is not one of the second. *)
Lemma pages_apart σ B pd T pa Ta σ' B' T' q r E' a :
  effect σ B pd T q r σ' B' T' E' → space σ B pa Ta → apart_spaces pd T pa Ta → in_space pa Ta a → ¬ in_space pd T' a.
Proof.
  intros EF SA (N1 & N2 & N3 & N4) Ia Id. pose proof (sp_paging _ _ _ _ (ef_space _ _ _ _ _ _ _ _ _ _ EF)) as PG'.
  assert (∃ y, y ≤ a < y + 4096 ∧ B false !! y = Some 1 ∧ (y = pa ∨ ∃ j, Ta !! j = Some y)) as (y & Hy & By & Ey).
  { pose proof (pg_space _ _ _ _ (sp_paging _ _ _ _ SA)) as AS. destruct Ia as [Ia|(j & y & Hj & Ia)].
    - exists pa. split_and!; [lia|lia|apply AS|by left].
    - exists y. split_and!; [lia|lia|by apply (as_table _ _ _ _ AS j)|right; by exists j]. }
  assert (∃ x, x ≤ a < x + 4096 ∧ B' false !! x = Some 1 ∧ (x = pd ∨ ∃ i, T' !! i = Some x)) as (x & Hx & Bx & Ex).
  { pose proof (pg_space _ _ _ _ PG') as AS. destruct Id as [Id|(j & x & Hj & Id)].
    - exists pd. split_and!; [lia|lia|apply AS|by left].
    - exists x. split_and!; [lia|lia|by apply (as_table _ _ _ _ AS j)|right; by exists j]. }
  assert (x = y) as ->.
  { destruct (decide (x = y)) as [|Hne]; [done|]. destruct (blocks_apart _ B' false x y (pg_alloc _ _ _ _ PG') Bx); [|done|lia..].
    eapply lookup_weaken; [exact By|apply EF]. }
  destruct Ex as [->|[i Hi]]; [destruct Ey as [->|[j Hj]]; [done|by eapply N2]|].
  destruct (ef_fresh _ _ _ _ _ _ _ _ _ _ EF i y Hi) as [Hi'|Hn]; [|congruence].
  destruct Ey as [->|[j Hj]]; [by eapply N3|by eapply N4].
Qed.

Lemma other_space σ B pd T pa Ta σ' B' T' q r E' :
  effect σ B pd T q r σ' B' T' E' → space σ B pa Ta → apart_spaces pd T pa Ta →
  space σ' B' pa Ta ∧ apart_spaces pd T' pa Ta ∧
  ∀ u, 0 ≤ u < PHYS_BASE → entry σ'.(phys).(ram) Ta u = entry σ.(phys).(ram) Ta u.
Proof.
  intros EF SA Hap. pose proof (pg_space _ _ _ _ (sp_paging _ _ _ _ SA)) as AS.
  pose proof (sp_paging _ _ _ _ (ef_space _ _ _ _ _ _ _ _ _ _ EF)) as PG'.
  assert (∀ a, in_space pa Ta a → σ'.(phys).(ram) !! a = σ.(phys).(ram) !! a) as Hm.
  { intros a Ha. apply (ef_spares _ _ _ _ _ _ _ _ _ _ EF). by eapply pages_apart. }
  split_and!.
  - apply (space_kept σ σ' B B'); [done|apply PG'|apply PG'|..|done].
    + eapply lookup_weaken; [apply AS|apply EF].
    + intros i pt Hi. eapply lookup_weaken; [by apply (as_table _ _ _ _ AS i)|apply EF].
  - pose proof Hap as (N1 & N2 & N3 & N4). split_and!; [done|done|..].
    + intros i Hi. destruct (ef_fresh _ _ _ _ _ _ _ _ _ _ EF i pa Hi) as [Hi'|Hn]; [by eapply N3|].
      rewrite (as_dir _ _ _ _ AS) in Hn. done.
    + intros i j pt Hi Hj. destruct (ef_fresh _ _ _ _ _ _ _ _ _ _ EF i pt Hi) as [Hi'|Hn]; [by eapply N4|].
      destruct (as_table _ _ _ _ AS j pt Hj) as (_ & Hk & _). congruence.
  - by apply (entry_kept σ σ' pa Ta).
Qed.

(** What the buffer holds is granted by the entries [E]. *)
Definition coherent (σ : vm) (E : Z → Z) : Prop :=
  ∀ page e, σ.(proc).(tlb) !! page = Some e → user_page page ∧ cached_ok e (E page).

Lemma coherent_kept σ σ' E E' :
  σ'.(proc) = σ.(proc) → (∀ u, 0 ≤ u < PHYS_BASE → ∀ e, cached_ok e (E u) → cached_ok e (E' u)) →
  coherent σ E → coherent σ' E'.
Proof.
  intros Ep HE Hc page e. rewrite Ep. intros H. destruct (Hc page e H) as [Hu Ho]. split; [done|].
  apply HE; [apply Hu|done].
Qed.

(** Nothing stays in the buffer that the operation takes away. *)
Lemma effect_coherent σ B pd T q r σ' B' T' E' :
  effect σ B pd T q r σ' B' T' E' → space σ B pd T → permitted σ pd (entry σ.(phys).(ram) T) q →
  σ.(proc).(cr3) = pd - PHYS_BASE →
  coherent σ (entry σ.(phys).(ram) T) → coherent σ' (entry σ'.(phys).(ram) T').
Proof.
  intros EF SP Hq Hcr Hc. set (E := entry σ.(phys).(ram) T) in *.
  pose proof (ef_proc _ _ _ _ _ _ _ _ _ _ EF) as Hp. fold E in Hp.
  destruct (flushes σ pd T E q) eqn:Hfl; [intros page e; by rewrite Hp|].
  apply (coherent_kept σ σ' E); [done| |done]. intros u Hu e Ho. rewrite (ef_entry _ _ _ _ _ _ _ _ _ _ EF) by done.
  pose proof (ef_answer _ _ _ _ _ _ _ _ _ _ EF) as Ha. fold E in Ha.
  inversion Ha; subst; try done; unfold put; cbn in Hfl; rewrite ?Hcr, ?Z.eqb_refl, ?andb_true_r in Hfl.
  - destruct (Z.eqb_spec (pg_no u) (pg_no upage)) as [Heq|]; [|done]. destruct Hq as ([Hv _] & _ & _ & _ & Hpr & _).
    apply Z.eqb_eq in Heq. rewrite page_indices in Heq by done. apply bool_decide_eq_true in Heq. injection Heq as Hi Hj.
    apply cached_present in Ho. unfold E, entry in Ho, Hpr. rewrite Hi, Hj in Ho. congruence.
  - by rewrite Hfl.
  - destruct (Z.eqb_spec (pg_no u) (pg_no vpage)) as [Heq|]; [|done]. destruct Hq as (Hv & Hbit & _).
    apply Z.eqb_eq in Heq. rewrite page_indices in Heq by done. apply bool_decide_eq_true in Heq. injection Heq as Hi Hj.
    assert (E u = E vpage) as EE by (unfold E, entry; by rewrite Hi, Hj). rewrite EE in Ho. destruct v.
    + apply cached_more; [|done]. revert Hbit. rewrite !elem_of_cons. by intros [->|[->|[->|?%elem_of_nil]]].
    + destruct (T !! pd_no vpage) eqn:Ht; [done|]. apply cached_present in Ho. unfold E, entry in Ho. by rewrite Ht in Ho.
Qed.

(** Property C30.  The operations of userprog/pagedir.c implement an abstract address
    space.  On a directory whose pages the kernel pool has handed out, every call that
    meets the assertions of the code succeeds and behaves as a map from user addresses to
    page table entries does: pagedir_set_page adds the frame with the right flags, or
    returns false, and then only because the kernel pool has no page for a table;
    pagedir_get_page returns the kernel address behind the user address; clearing takes
    exactly the present bit, and the accessors of the accessed, dirty and writable bits
    change exactly their bit.  Entries of other pages and memory outside the directory
    and its tables stay as they are, the only pages taken are new page tables, and the
    frame table records where the entry of a frame is. *)
Theorem pagedir_refines σ B pd T q :
  space σ B pd T → permitted σ pd (entry σ.(phys).(ram) T) q →
  ∃ r σ' B' T' E', perform pd q σ = Ok (r, σ') ∧ effect σ B pd T q r σ' B' T' E'.
Proof. apply perform_ok. Qed.

(** Property C31.  The directories of two processes are isolated, and the translation
    lookaside buffer never outlives the rights it was filled from.  Whichever directory
    is active, if the buffer only holds what its entries grant, then so it does after
    any operation on that or on another directory: taking a page or a right away empties
    the buffer, and an operation on another directory leaves the translations of the
    active one alone. *)
Theorem pagedir_coherent σ B pd T pa Ta q :
  space σ B pd T → space σ B pa Ta → pd = pa ∧ T = Ta ∨ apart_spaces pd T pa Ta →
  permitted σ pd (entry σ.(phys).(ram) T) q → σ.(proc).(cr3) = pa - PHYS_BASE →
  coherent σ (entry σ.(phys).(ram) Ta) →
  ∃ r σ' B' T' Ta', perform pd q σ = Ok (r, σ') ∧ space σ' B' pd T' ∧ space σ' B' pa Ta' ∧
    (pd = pa ∧ T' = Ta' ∨
     apart_spaces pd T' pa Ta' ∧
     ∀ u, 0 ≤ u < PHYS_BASE → entry σ'.(phys).(ram) Ta' u = entry σ.(phys).(ram) Ta u) ∧
    σ'.(proc).(cr3) = pa - PHYS_BASE ∧ coherent σ' (entry σ'.(phys).(ram) Ta').
Proof.
  intros SP SA Hd Hq Hcr Hc. destruct (perform_ok σ B pd T q SP Hq) as (r & σ' & B' & T' & E' & Hr & EF).
  pose proof (ef_proc _ _ _ _ _ _ _ _ _ _ EF) as Hp.
  assert (σ'.(proc).(cr3) = pa - PHYS_BASE) as Hcr' by (rewrite Hp; by case_match).
  destruct Hd as [[<- <-]|Hap].
  - exists r, σ', B', T', T'. split_and!; [done|apply EF|apply EF|by left|done|]. by eapply effect_coherent.
  - destruct (other_space _ _ _ _ _ _ _ _ _ _ _ _ EF SA Hap) as (SA' & Hap' & He).
    exists r, σ', B', T', Ta. split_and!; [done|apply EF|done|by right|done|].
    apply (coherent_kept σ σ' (entry σ.(phys).(ram) Ta)); [|intros u Hu e; by rewrite He|exact Hc].
    rewrite Hp. replace (flushes _ _ _ _ _) with false; [done|]. symmetry.
    assert ((σ.(proc).(cr3) =? pd - PHYS_BASE) = false) as E; [|by destruct q; cbn; rewrite ?E, ?andb_false_r].
    apply Z.eqb_neq. destruct Hap as [? _]. lia.
Qed.

(** ** Witnesses: two empty directories *)

Lemma zeroed_space σ B r m zs :
  allocator σ.(phys) B → B false !! r = Some 1 → bytes_only σ.(phys).(ram) →
  σ.(phys).(ram) = store m r zs → zlen zs = 4096 → Forall (eq 0) zs → space σ B r ∅.
Proof.
  intros Ha Hr Hb Em Hl Hz. split; [split; [done| |done]|].
  - split; [done|done|done|]. intros i Hi. rewrite lookup_empty, Em. apply word_zero; [done|lia..].
  - intros u Hu. unfold entry. rewrite lookup_empty. done.
Qed.

Definition small_pages : pages :=
  {| kernel_pool := Pool {| bit_cnt := 4; bits := [0] |} 3222274048;
     user_pool := Pool {| bit_cnt := 2; bits := [0] |} 3222290432;
     ram := frames 3222274048 6 |}.

Lemma small_pages_ok : allocator small_pages (λ _, ∅).
Proof.
  split; [|by cbn]. intros u. apply fresh_pool.
  - destruct u; (split; [by cbn|by cbn|]); cbn; constructor; by constructor.
  - by destruct u.
  - by destruct u.
  - by destruct u.
  - destruct u; apply frames_mapped; cbn; lia.
  - intros i Hi. destruct u; cbn in *; (assert (i = 0 ∨ i = 1 ∨ i = 2 ∨ i = 3) as [-> |[-> |[-> | ->]]] by lia; done).
Qed.

(** No file system, no processes. *)
Definition machine (p : pages) (b : fs) (c : Z) : vm :=
  Vm p b (Cpu c ∅) ∅ 0 [] 1 ∅ (Swap None [] ∅ 1) (Consts 0 300000 0).

(** Two directories in the kernel pool, the first one active. *)
Lemma two_spaces p0 b :
  allocator p0 (λ _, ∅) → bytes_only p0.(ram) → 3 ≤ p0.(kernel_pool).(used_map).(bit_cnt) →
  ∃ σ B pd pa, space σ B pd ∅ ∧ space σ B pa ∅ ∧ apart_spaces pd ∅ pa ∅ ∧
    (∃ p, σ = machine p b (pa - PHYS_BASE)) ∧ kernel_page pd ∧ kernel_page pa.
Proof.
  intros Ha0 Hfb H3. destruct (get_zeroed p0 _ Ha0) as (r & p & B & Hr & Ha & Hsp & Hres).
  destruct Hres as [(_ & _ & _ & Hcr)|(Hr0 & Hap & EB & zs & Hz1 & Hz2 & Em)].
  { destruct (Hcr 0 ltac:(lia) ltac:(cbn; lia)) as (k & _ & ? & ? & Hk & _). done. }
  assert (inside (pool_of false p) r 1) as Hin.
  { destruct (po_block _ _ _ (al_pool _ _ Ha false) r 1) as (_ & i & -> & Hi0 & Hi1); [rewrite EB; apply lookup_insert_eq|].
    pose proof (po_base _ _ _ (al_pool _ _ Ha false)). split_and!; [dm_lia|lia..]. }
  assert (B false = {[r := 1]}) as EB1 by by rewrite EB. clear EB.
  destruct (get_zeroed p B Ha) as (r' & p' & B' & Hr' & Ha' & Hsp' & Hres').
  destruct Hres' as [(_ & _ & _ & Hcr)|(Hr0' & Hap' & EB' & zs' & Hz1' & Hz2' & Em')].
  { destruct (Hsp false) as [Hb Hc]. cbn in Hb, Hc. rewrite EB1 in Hcr. unfold crowded in Hcr; cbn [pool_of] in Hcr. rewrite Hb, Hc in Hcr.
    destruct (Hcr 0) as (k & Hk & b0 & n0 & [<- <-]%lookup_singleton_Some & Hk'); [lia..|].
    destruct (Hcr 1) as (k1 & Hk1 & b1 & n1 & [<- <-]%lookup_singleton_Some & Hk1'); [lia..|].
    destruct (Hcr 2) as (k2 & Hk2 & b2 & n2 & [<- <-]%lookup_singleton_Some & Hk2'); [lia..|]. lia. }
  assert (B' false !! r = Some 1 ∧ B' false !! r' = Some 1) as [HB HB'].
  { assert (B' false = <[r' := 1]> {[r := 1]}) as -> by (rewrite EB', <- EB1; done).
    split; [|apply lookup_insert_eq]. rewrite lookup_insert_ne; [apply lookup_singleton_eq|].
    intros ->. specialize (Hap' r 1). rewrite EB1 in Hap'. specialize (Hap' (lookup_singleton_eq _ _)). lia. }
  assert (r + 4096 ≤ r' ∨ r' + 4096 ≤ r) as Hdis.
  { specialize (Hap' r 1). rewrite EB1 in Hap'. specialize (Hap' (lookup_singleton_eq _ _)). lia. }
  assert (∀ l, Forall (eq 0) l → Forall is_u8 l) as H0 by (intros l Hl; eapply Forall_impl; [exact Hl|by intros ? <-]).
  assert (bytes_only p'.(ram)) as Hbo by (rewrite Em', Em; repeat apply bytes_only_store; auto).
  set (σ := machine p' b (r' - PHYS_BASE)).
  assert (space σ B' r' ∅) as SA by (by apply (zeroed_space σ B' r' p.(ram) zs')).
  exists σ, B', r, r'. split_and!; [|done|split_and!; [intros ->; lia|done..]|by eexists|by apply (page_block _ _ false _ Ha')..].
  split; [split; [done| |done]|].
  - split; [done|done|done|]. intros i Hi. rewrite lookup_empty. change (word p'.(ram) (r + 4 * i) = 0).
    rewrite Em', word_store_out, Em by lia. apply word_zero; [done|lia..].
  - intros u Hu. unfold entry. rewrite lookup_empty. done.
Qed.

Definition no_files : fs := Fs [] {| bit_cnt := 0; bits := [] |} 0 [] ∅ ∅ ∅ 1 [].

Lemma set_permitted p c pd w : kernel_page pd →
  permitted (machine p no_files c) pd (entry p.(ram) ∅) (SetPage 134512640 3222290432 w).
Proof.
  intros (_ & H & _). unfold permitted. split_and!; [split; by_decide|by_decide|by vm_compute| |done|done].
  cbn. unfold PHYS_BASE, LOADER_PHYS_BASE in H. lia.
Qed.

Lemma pagedir_refines_witness :
  ∃ σ B pd, space σ B pd ∅ ∧ permitted σ pd (entry σ.(phys).(ram) ∅) (SetPage 134512640 3222290432 true) ∧
    ∃ r σ' B' T' E', perform pd (SetPage 134512640 3222290432 true) σ = Ok (r, σ') ∧
      effect σ B pd ∅ (SetPage 134512640 3222290432 true) r σ' B' T' E'.
Proof.
  destruct (two_spaces small_pages no_files small_pages_ok (frames_bytes _ _)) as (σ & B & pd & pa & SP & SA & Hap & [p ->] & Hk & _).
  { by vm_compute. }
  pose proof (set_permitted p (pa - PHYS_BASE) pd true Hk) as Hq.
  exists (machine p no_files (pa - PHYS_BASE)), B, pd. split_and!; [exact SP|exact Hq|].
  exact (pagedir_refines _ B pd ∅ _ SP Hq).
Defined.

Lemma pagedir_coherent_witness :
  ∃ σ B pd pa, space σ B pd ∅ ∧ space σ B pa ∅ ∧ apart_spaces pd ∅ pa ∅ ∧
    ∃ r σ' B' T' Ta', perform pd (SetPage 134512640 3222290432 true) σ = Ok (r, σ') ∧ space σ' B' pd T' ∧
      coherent σ' (entry σ'.(phys).(ram) Ta').
Proof.
  destruct (two_spaces small_pages no_files small_pages_ok (frames_bytes _ _)) as (σ & B & pd & pa & SP & SA & Hap & [p ->] & Hk & _).
  { by vm_compute. }
  exists (machine p no_files (pa - PHYS_BASE)), B, pd, pa. split_and!; [exact SP|exact SA|exact Hap|].
  destruct (pagedir_coherent _ B pd ∅ pa ∅ _ SP SA (or_intror Hap) (set_permitted p (pa - PHYS_BASE) pd true Hk) eq_refl)
    as (r & σ' & B' & T' & Ta' & Hr & SP' & _ & _ & _ & Hc); [intros page e H; discriminate H|].
  exists r, σ', B', T', Ta'. split_and!; [exact Hr|exact SP'|exact Hc].
Defined.

(** ** Witnesses: one page in an address space

    The kernel pool has four pages, of which the first two are the directory and a page
    table; the user pool has two pages, of which the first is mapped, at the page with
    the indices [i] and [j]. *)

Definition PD : Z := 3222274048.
Definition PT : Z := 3222278144.
Definition KP : Z := 3222290432.
Definition UP : Z := 134512640.

Definition one_page (m : mem) (i j : Z) : pages :=
  {| kernel_pool := Pool {| bit_cnt := 4; bits := [3] |} PD;
     user_pool := Pool {| bit_cnt := 2; bits := [1] |} KP;
     ram := store (store m (PD + 4 * i) (le32 (PT - PHYS_BASE + flags true true)))
              (PT + 4 * j) (le32 (KP - PHYS_BASE + flags true true)) |}.

Definition one_live : live := both {[PD := 1; PT := 1]} {[KP := 1]}.

Definition blank (m : mem) : Prop :=
  mapped m PD (4096 * 6) ∧ bytes_only m ∧ ∀ a, PD ≤ a → a + 4 ≤ PD + 4096 * 6 → word m a = 0.

Lemma frames_blank : blank (frames PD 6).
Proof.
  split_and!; [by apply frames_mapped|apply frames_bytes|]. intros a H1 H2. unfold frames.
  apply word_zero; [by apply Forall_replicate|lia|rewrite length_replicate; lia].
Qed.

Section one_page.
Context (m : mem) (Hb : blank m) (i j : Z) (Hi : 0 ≤ i < 768) (Hj : 0 ≤ j < 1024).
Local Notation p := (one_page m i j).

Lemma one_page_ok : allocator p one_live.
Proof.
  destruct Hb as (Hm & _ & _). split; [|by cbn]. intros u.
  assert (mapped p.(ram) PD (4096 * 6)) as Hmap by (by do 2 apply mapped_store).
  set (r := p.(ram)) in *. clearbody r. destruct u; cbn [pool_of one_page user_pool kernel_pool one_live both].
  - split; cbn [used_map base]; [|done|done| | | |].
    + split; [by cbn|by cbn|]. cbn. repeat constructor; done.
    + intros a Ha. apply Hmap. unfold KP, PD in *. cbn in Ha. lia.
    + intros a n [<- <-]%lookup_singleton_Some. split; [done|]. by exists 0.
    + intros k Hk. cbn in Hk. assert (k = 0 ∨ k = 1) as [-> | ->] by lia.
      * split; [|done]. intros _. by exists KP, 1.
      * split; [done|]. intros (b & n & [<- <-]%lookup_singleton_Some & H). unfold KP in H. lia.
    + intros a n [<- <-]%lookup_singleton_Some b k. rewrite delete_singleton_eq. done.
  - split; cbn [used_map base]; [|done|done| | | |].
    + split; [by cbn|by cbn|]. cbn. repeat constructor; done.
    + intros a Ha. apply Hmap. unfold PD in *. cbn in Ha. lia.
    + intros a n [[<- <-]|[_ [<- <-]%lookup_singleton_Some]]%lookup_insert_Some; (split; [done|]); [by exists 0|by exists 1].
    + intros k Hk. cbn in Hk. assert (k = 0 ∨ k = 1 ∨ k = 2 ∨ k = 3) as [-> |[-> |[-> | ->]]] by lia.
      * split; [|done]. intros _. by exists PD, 1.
      * split; [|done]. intros _. by exists PT, 1.
      * split; [done|]. intros (b & n & [[<- <-]|[_ [<- <-]%lookup_singleton_Some]]%lookup_insert_Some & H); unfold PD, PT in H; lia.
      * split; [done|]. intros (b & n & [[<- <-]|[_ [<- <-]%lookup_singleton_Some]]%lookup_insert_Some & H); unfold PD, PT in H; lia.
    + intros a n Ha b k Hbk. apply lookup_delete_Some in Hbk as [Hne Hbk].
      apply lookup_insert_Some in Ha as [[<- <-]|[_ [<- <-]%lookup_singleton_Some]],
        Hbk as [[<- <-]|[_ [<- <-]%lookup_singleton_Some]]; try done; unfold PD, PT; lia.
Qed.

Lemma one_page_words a : PD ≤ a → a + 4 ≤ PD + 4096 * 6 → (a - PD) `mod` 4 = 0 →
  word p.(ram) a =
    if a =? PT + 4 * j then KP - PHYS_BASE + flags true true
    else if a =? PD + 4 * i then PT - PHYS_BASE + flags true true else 0.
Proof.
  destruct Hb as (_ & _ & Hz). intros H1 H2 H3. cbn [one_page ram].
  assert (∀ w, zlen (le32 w) = 4) as Hl by done. destruct (Z.eqb_spec a (PT + 4 * j)) as [->|N1]; [by apply word_store_eq|].
  rewrite word_store_out by (rewrite Hl; unfold PT, PD in *; dm_lia).
  destruct (Z.eqb_spec a (PD + 4 * i)) as [->|N2]; [by apply word_store_eq|].
  rewrite word_store_out by (rewrite Hl; unfold PT, PD in *; dm_lia). by apply Hz.
Qed.

Lemma one_entry u : 0 ≤ u < PHYS_BASE →
  entry p.(ram) {[i := PT]} u = if bool_decide ((pd_no u, pt_no u) = (i, j)) then KP - PHYS_BASE + flags true true else 0.
Proof.
  intros Hu. destruct (user_indices u Hu) as [H1 H2]. unfold entry. destruct (decide (pd_no u = i)) as [E|Hne].
  - rewrite E, lookup_singleton_eq. rewrite one_page_words by (unfold PT, PD; dm_lia). case_bool_decide as Hd.
    + injection Hd as ->. by rewrite Z.eqb_refl.
    + rewrite (proj2 (Z.eqb_neq _ _)) by (intros Heq; apply Hd; f_equal; lia).
      by rewrite (proj2 (Z.eqb_neq _ _)) by (unfold PT, PD; lia).
  - rewrite lookup_singleton_ne by done. rewrite bool_decide_eq_false_2; [done|]. congruence.
Qed.

Lemma one_space σ : σ.(phys) = p → space σ one_live PD {[i := PT]}.
Proof.
  intros Ep. pose proof Hb as (Hm & Hu & _). split; [split|]; rewrite Ep.
  - by apply one_page_ok.
  - split.
    + done.
    + by intros k pt [<- <-]%lookup_singleton_Some.
    + by intros k l pt [<- <-]%lookup_singleton_Some [<- _]%lookup_singleton_Some.
    + intros k Hk. rewrite one_page_words by (unfold PD; dm_lia).
      rewrite (proj2 (Z.eqb_neq _ _)) by (unfold PD, PT; lia). destruct (Z.eqb_spec (PD + 4 * k) (PD + 4 * i)) as [E|E].
      * assert (k = i) as -> by lia. by rewrite lookup_singleton_eq.
      * by rewrite lookup_singleton_ne by lia.
  - cbn [one_page ram]. apply bytes_only_store; [apply bytes_only_store; [done|]|]; apply le32_bytes.
  - intros u Hu'. rewrite one_entry by done. by case_bool_decide.
Qed.
End one_page.

(** The machine with this one page, its directory active. *)
Definition one_machine (m : mem) : vm := machine (one_page m 32 72) no_files (PD - PHYS_BASE).
