(* ===== verification/VmLife.v ===== *)
(** * Making and destroying page directories

    [pagedir_create] and [pagedir_destroy] of userprog/pagedir.c: a new directory shares
    the kernel half of the initial one and is empty otherwise, and destroying a directory
    gives back exactly the pages that it owns. *)

From S2P Require Import Prelude Vaddr Bytes Bitmap Str Palloc Filesys Vm VmPagedir VmSpace.
Local Open Scope c_scope.

(** ** Destruction *)

Lemma any_apart p B u v b c :
  allocator p B → B u !! b = Some 1 → B v !! c = Some 1 → (u, b) ≠ (v, c) → b + 4096 ≤ c ∨ c + 4096 ≤ b.
Proof.
  intros Ha Hb Hc Hne. destruct (decide (u = v)) as [->|Hd].
  - apply (blocks_apart p B v); [done..|]. congruence.
  - pose proof (al_sep _ _ Ha).
    destruct (po_block _ _ _ (al_pool _ _ Ha u) b 1 Hb) as (_ & i & -> & Hi0 & Hi1).
    destruct (po_block _ _ _ (al_pool _ _ Ha v) c 1 Hc) as (_ & j & -> & Hj0 & Hj1).
    destruct u, v; try done; cbn [pool_of] in *; lia.
Qed.

Section freeing.
Context (σ : vm) (B : live) (Halloc : allocator σ.(phys) B).

(** The pages [O] of the pools have been freed, and nothing else has changed. *)
Record freed (O : bool → Z → Prop) (σ' : vm) (B' : live) : Prop := {
  fd_alloc : allocator σ'.(phys) B';
  fd_gone : ∀ u a, O u a → B' u !! a = None;
  fd_kept : ∀ u a, ¬ O u a → B' u !! a = B u !! a;
  fd_ram : ∀ a, (∀ u f, O u f → ¬ f ≤ a < f + 4096) → σ'.(phys).(ram) !! a = σ.(phys).(ram) !! a;
  fd_state : ∃ p, σ' = upd_phys (λ _, p) σ;
}.

Lemma freed_none : freed (λ _ _, False) σ B.
Proof. split; try done. exists σ.(phys). by rewrite upd_phys_same. Qed.

Lemma freed_ext (O O' : bool → Z → Prop) σ' B' : (∀ u a, O u a ↔ O' u a) → freed O σ' B' → freed O' σ' B'.
Proof. intros H [H1 H2 H3 H4 H5]. split; [done|..|done]; setoid_rewrite <- H; done. Qed.

Lemma free_step (O : bool → Z → Prop) σ' B' u f :
  freed O σ' B' → B u !! f = Some 1 → ¬ O u f →
  ∃ σ'' B'', on_phys (palloc_free_page f) σ' = Ok (tt, σ'') ∧ freed (λ v a, O v a ∨ v = u ∧ a = f) σ'' B''.
Proof.
  intros [Ha Hg Hk Hm [p ->]] Hb HO. rewrite <- Hk in Hb by done.
  destruct (free_serves _ _ _ _ _ Ha Hb) as (p' & Hr & Ha' & Em & _).
  exists (upd_phys (λ _, p') σ), (set_live u (delete f (B' u)) B'). split; [exact (on_phys_run (palloc_free_page f) _ _ _ Hr)|].
  unfold filled in Em. assert (zlen (replicate (Z.to_nat (4096 * 1)) 204) = 4096) as Hl by (rewrite length_replicate; lia).
  revert Em Hl. generalize (replicate (Z.to_nat (4096 * 1)) 204). intros zs Em Hl. cbn [phys upd_phys] in Em.
  split; cbn [phys upd_phys]; [done|..|by eexists].
  - intros v a Hv. unfold set_live. case_bool_decide as E; [subst v|].
    + destruct (decide (a = f)) as [->|Hne]; [apply lookup_delete_eq|]. rewrite lookup_delete_ne by done.
      apply Hg. by destruct Hv as [|[_ ?]].
    + apply Hg. by destruct Hv as [|[? _]].
  - intros v a Hv. unfold set_live. case_bool_decide as E; [subst v|apply Hk; tauto].
    rewrite lookup_delete_ne by (intros ->; apply Hv; by right). apply Hk. tauto.
  - intros a Hno. rewrite Em, store_lookup, Hl.
    destruct (Z.leb_spec f a), (Z.ltb_spec a (f + 4096)); cbn [andb].
    { destruct (Hno u f); [by right|lia]. }
    all: apply Hm; intros v g Hg'; apply (Hno v); by left.
Qed.

(** What has not been freed is read as before. *)
Lemma freed_read (O : bool → Z → Prop) σ' B' x k :
  freed O σ' B' → (∀ u a, O u a → B u !! a = Some 1) → B false !! x = Some 1 → ¬ O false x → 0 ≤ k < 1024 →
  load_word (x + 4 * k) σ' = Ok (word σ.(phys).(ram) (x + 4 * k), σ').
Proof.
  intros [Ha Hg Hk Hm _] Hown Hx HO Hr. rewrite load_word_run.
  - do 2 f_equal. unfold word, at_.
    rewrite !Hm; [done|..]; intros u f Hf; pose proof (any_apart _ B u false f x Halloc (Hown _ _ Hf) Hx) as Hd;
      (assert ((u, f) ≠ (false, x)) as Hne by congruence); specialize (Hd Hne); lia.
  - rewrite <- Hk in Hx by done. destruct (page_block _ _ _ _ Ha Hx) as (_ & Hmap & _). intros b Hb. apply Hmap. lia.
Qed.
End freeing.

(** The frames behind the present entries are user pages that nothing else points to. *)
Record owns (B : live) (E : Z → Z) : Prop := {
  ow_frame : ∀ u, user_page u → present (E u) = true → B true !! frame_of (E u) = Some 1;
  ow_inj : ∀ u v, user_page u → user_page v → present (E u) = true → present (E v) = true →
    frame_of (E u) = frame_of (E v) → u = v;
}.

Section destroy.
Context (σ : vm) (B : live) (pd : Z) (T : gmap Z Z) (SP : space σ B pd T).
Local Notation E := (entry σ.(phys).(ram) T).
Context (OW : owns B E).
Local Notation AS := (pg_space _ _ _ _ (sp_paging _ _ _ _ SP)).
Local Notation AL := (pg_alloc _ _ _ _ (sp_paging _ _ _ _ SP)).

(** The frames of the first [n] user pages and the first [i] page tables. *)
Definition gone (n i : Z) (user : bool) (a : Z) : Prop :=
  if user then ∃ u, user_page u ∧ u `div` 4096 < n ∧ present (E u) = true ∧ a = frame_of (E u)
  else ∃ k, k < i ∧ T !! k = Some a.

Lemma gone_own n i u a : gone n i u a → B u !! a = Some 1.
Proof.
  destruct u; cbn.
  - intros (u & Hu & _ & Hp & ->). by apply OW.
  - intros (k & _ & Hk). by apply (as_table _ _ _ _ AS k).
Qed.

(** The address of the user page with indices [i] and [j]. *)
Lemma page_at i j : 0 ≤ i < 768 → 0 ≤ j < 1024 →
  let u := (1024 * i + j) * 4096 in user_page u ∧ pd_no u = i ∧ pt_no u = j ∧ u `div` 4096 = 1024 * i + j.
Proof.
  intros Hi Hj u. unfold user_page, PHYS_BASE, LOADER_PHYS_BASE. subst u. rewrite pd_no_eq, pt_no_eq by mlia. dm_lia.
Qed.

Lemma gone_next i j : 0 ≤ i < 768 → 0 ≤ j < 1024 →
  let u := (1024 * i + j) * 4096 in
  ∀ v a, gone (1024 * i + (j + 1)) i v a ↔ gone (1024 * i + j) i v a ∨ v = true ∧ present (E u) = true ∧ a = frame_of (E u).
Proof.
  intros Hi Hj u v a. destruct (page_at i j Hi Hj) as (Hu & _ & _ & Hd). fold u in Hu, Hd.
  destruct v; cbn; [|naive_solver]. split.
  - intros (w & Hw & Hlt & Hp & ->). destruct (decide (w `div` 4096 < 1024 * i + j)); [left; by exists w|].
    assert (w = u) as ->; [|by right]. destruct Hu as [_ Hu], Hw as [_ Hw]. dm_lia.
  - intros [(w & Hw & Hlt & Hp & ->)|(_ & Hp & ->)]; [exists w|exists u]; split_and!; (done || lia).
Qed.

Lemma free_frames_of i pt σ1 B1 : 0 ≤ i < 768 → T !! i = Some pt → freed σ B (gone (1024 * i) i) σ1 B1 →
  ∃ σ2, for_upto (PGSIZE / 4) (λ j,
      pte <- load_word (pt + 4 * j) ;;
      if negb (Z.land pte PTE_P =? 0) then
        page <- pure (pte_get_page pte) ;;
        on_phys (palloc_free_page page)
      else ret tt) σ1 = Ok (tt, σ2) ∧
    ∃ B2, freed σ B (gone (1024 * (i + 1)) i) σ2 B2.
Proof.
  intros Hi Hpt F1. change (PGSIZE / 4) with 1024. destruct (as_table _ _ _ _ AS i pt Hpt) as (_ & Hk & _).
  edestruct (for_upto_ind (λ j s, ∃ B', freed σ B (gone (1024 * i + j) i) s B') 1024) as (σ2 & Hr & B2 & F2);
    [lia|exists B1; by rewrite Z.add_0_r| |eexists; split; [exact Hr|]; exists B2; by replace (1024 * (i + 1)) with (1024 * i + 1024) by lia].
  intros j s Hj [B' F]. destruct (page_at i j Hi Hj) as (Hu & Ei & Ej & Hd). set (u := (1024 * i + j) * 4096) in *.
  assert (word σ.(phys).(ram) (pt + 4 * j) = E u) as Ew by (unfold entry; by rewrite Ei, Hpt, Ej).
  rewrite (bind_Ok _ _ _ _ _ (freed_read σ B AL _ _ _ pt j F (gone_own _ _) Hk ltac:(intros (k & Hlt & Ek);
    pose proof (as_inj _ _ _ _ AS _ _ _ Hpt Ek); lia) Hj)), Ew. fold (present (E u)).
  pose proof (gone_next i j Hi Hj) as Hnext. cbv zeta in Hnext. fold u in Hnext. destruct (present (E u)) eqn:Hp.
  - rewrite (bind_Ok _ _ _ _ _ (pure_run _ _ s (pte_get_page_run _ (entry_range SP u (proj1 Hu))))).
    destruct (free_step σ B _ s B' true (frame_of (E u)) F) as (s' & B'' & Hr & F'); [by apply OW| |].
    + intros (w & Hw & Hlt & Hpw & Ef). rewrite (ow_inj _ _ OW u w) in Hd by done. lia.
    + exists s'. split; [exact Hr|]. exists B''. eapply freed_ext; [|exact F']. intros v a. rewrite Hnext. naive_solver.
  - exists s. split; [done|]. exists B'. eapply freed_ext; [|exact F]. intros v a. rewrite Hnext. naive_solver.
Qed.

Lemma gone_table i pt : 0 ≤ i → T !! i = Some pt →
  ∀ n v a, gone n (i + 1) v a ↔ gone n i v a ∨ v = false ∧ a = pt.
Proof.
  intros Hi Hpt n v a. destruct v; cbn; [naive_solver|]. split.
  - intros (k & Hk & Ek). destruct (decide (k = i)) as [->|]; [right; split; [done|congruence]|]. left. exists k. split; [lia|done].
  - intros [(k & Hk & Ek)|[_ ->]]; [exists k|exists i]; split; (done || lia).
Qed.

Lemma gone_skip i : 0 ≤ i < 768 → T !! i = None → ∀ v a, gone (1024 * (i + 1)) (i + 1) v a ↔ gone (1024 * i) i v a.
Proof.
  intros Hi Hn v a. destruct v; cbn; split.
  - intros (u & Hu & Hlt & Hp & ->). exists u. split_and!; try done.
    destruct (decide (u `div` 4096 < 1024 * i)); [done|]. assert (pd_no u = i) as Ei by (rewrite pd_no_eq; dm_lia).
    unfold entry in Hp. by rewrite Ei, Hn in Hp.
  - intros (u & Hu & Hlt & Hp & ->). exists u. split_and!; (done || lia).
  - intros (k & Hk & Ek). exists k. split; [|done]. assert (k ≠ i) by congruence. lia.
  - intros (k & Hk & Ek). exists k. split; [lia|done].
Qed.

(** One round of the outer loop. *)
Lemma destroy_round i σ1 B1 : 0 ≤ i < 768 → freed σ B (gone (1024 * i) i) σ1 B1 →
  ∃ σ2, (pde <- load_word (pd + 4 * i) ;;
    if negb (Z.land pde PTE_P =? 0) then
      pt <- pure (pde_get_pt pde) ;;
      for_upto (PGSIZE / 4) (λ j,
        pte <- load_word (pt + 4 * j) ;;
        if negb (Z.land pte PTE_P =? 0) then
          page <- pure (pte_get_page pte) ;;
          on_phys (palloc_free_page page)
        else ret tt) ;;
      on_phys (palloc_free_page pt)
    else ret tt) σ1 = Ok (tt, σ2) ∧ ∃ B2, freed σ B (gone (1024 * (i + 1)) (i + 1)) σ2 B2.
Proof.
  intros Hi F1. assert (¬ gone (1024 * i) i false pd) as Hpd.
  { intros (k & _ & Hk). by destruct (as_table _ _ _ _ AS k pd Hk) as (_ & _ & ?). }
  rewrite (bind_Ok _ _ _ _ _ (freed_read σ B AL _ _ _ pd i F1 (gone_own _ _) (as_dir _ _ _ _ AS) Hpd ltac:(lia))).
  rewrite (as_pde _ _ _ _ AS) by done. destruct (T !! i) as [pt|] eqn:Hpt.
  - destruct (pt_page (sp_paging _ _ _ _ SP) _ _ Hpt) as (Hk & _). rewrite entry_flag by (done || by cbn).
    change (negb (Z.land (flags true true) PTE_P =? 0)) with true. cbv iota.
    rewrite (bind_Ok _ _ _ _ _ (pure_run _ _ σ1 (pde_get_pt_run _ Hk))).
    destruct (free_frames_of i pt σ1 B1 Hi Hpt F1) as (σ2 & Hr & B2 & F2). rewrite (bind_Ok _ _ _ _ _ Hr).
    destruct (free_step σ B _ σ2 B2 false pt F2) as (σ3 & B3 & Hr3 & F3); [by apply (as_table _ _ _ _ AS i)| |].
    + intros (k & Hlt & Ek). pose proof (as_inj _ _ _ _ AS _ _ _ Hpt Ek). lia.
    + exists σ3. split; [exact Hr3|]. exists B3. eapply freed_ext; [|exact F3]. intros v a. by rewrite (gone_table i pt) by (done || lia).
  - exists σ1. split; [done|]. exists B1. eapply freed_ext; [|exact F1]. intros v a. by rewrite gone_skip.
Qed.

(** The pages of the address space: directory, tables and frames. *)
Definition pages_of (user : bool) (a : Z) : Prop :=
  if user then ∃ u, user_page u ∧ present (E u) = true ∧ a = frame_of (E u)
  else a = pd ∨ ∃ k, T !! k = Some a.

Lemma destroy_run : pd ≠ σ.(con).(base_page_dir) →
  ∃ σ' B', pagedir_destroy pd σ = Ok (tt, σ') ∧ freed σ B pages_of σ' B'.
Proof.
  intros Hb. destruct (pd_page (sp_paging _ _ _ _ SP)) as ((_ & Hk & _) & _). unfold PHYS_BASE, LOADER_PHYS_BASE in Hk.
  unfold pagedir_destroy. rewrite (proj2 (Z.eqb_neq pd NULL)) by mlia. rewrite (bind_Ok _ _ σ σ.(con) σ) by done.
  rewrite bind_assert by (by rewrite (proj2 (Z.eqb_neq _ _) Hb)). change (pd_no PHYS_BASE) with 768.
  edestruct (for_upto_ind (λ i s, ∃ B', freed σ B (gone (1024 * i) i) s B') 768) as (σ1 & Hr & B1 & F1); [lia| | |].
  - exists B. eapply freed_ext; [|apply freed_none, AL]. intros v a. split; [done|]. destruct v; cbn.
    + intros (u & [Hu _] & Hlt & _). dm_lia.
    + intros (k & Hlt & Hk'). destruct (as_table _ _ _ _ AS k a Hk'). lia.
  - intros i s Hi [B' F]. by eapply destroy_round.
  - rewrite (bind_Ok _ _ _ _ _ Hr). destruct (free_step σ B _ σ1 B1 false pd F1) as (σ2 & B2 & Hr2 & F2); [apply AS| |].
    { intros (k & _ & Hk'). by destruct (as_table _ _ _ _ AS k pd Hk') as (_ & _ & ?). }
    exists σ2, B2. split; [exact Hr2|]. eapply freed_ext; [|exact F2]. intros v a. destruct v; cbn; split.
    + intros [(u & Hu & _ & Hp & ->)|[? _]]; [by exists u|done].
    + intros (u & Hu & Hp & ->). left. exists u. split_and!; [done| |done..]. destruct Hu as [Hu _].
      unfold PHYS_BASE, LOADER_PHYS_BASE in Hu. dm_lia.
    + intros [(k & _ & Ek)|[_ ->]]; [right; by exists k|by left].
    + intros [->|[k Ek]]; [by right|]. left. exists k. split; [|done]. destruct (as_table _ _ _ _ AS k a Ek). lia.
Qed.
End destroy.

(** ** Creation *)

(** A page of the kernel pool, as it was left. *)
Lemma get_plain p B :
  allocator p B →
  ∃ r p' B', palloc_get_page 0 p = Ok (r, p') ∧ allocator p' B' ∧ p'.(ram) = p.(ram) ∧
    (r = NULL ∧ B' = B ∧ crowded (pool_of false p) (B false) 1 ∨
     r ≠ NULL ∧ apart (B false) r 1 ∧ B' = set_live false (<[r := 1]> (B false)) B).
Proof.
  intros Ha. destruct (get_serves p B 0 1 Ha) as (r & p' & B' & Hr & Hs & Ha' & Em & _); [lia|].
  exists r, p', B'. split_and!; [exact Hr|exact Ha'|exact Em|].
  inversion Hs as [fl n Hcr|fl n r' u Hn Hr0 Hin Hap|]; subst; [left|by right].
  split_and!; [done..|]. by destruct Hcr.
Qed.

Lemma apart_fresh p B u r : allocator p B → apart (B u) r 1 → B u !! r = None.
Proof.
  intros Ha Hap. destruct (B u !! r) as [k|] eqn:E; [|done]. specialize (Hap r k E).
  destruct (po_block _ _ _ (al_pool _ _ Ha u) r k E). lia.
Qed.

(** pagedir_create returns a null pointer only if the kernel pool has no
    free page.  Otherwise the new page is a directory of its own whose user half is empty
    and whose kernel half is that of the initial directory, and no other memory changes. *)
Theorem pagedir_create_ok σ B :
  space σ B σ.(con).(base_page_dir) ∅ →
  ∃ r σ' B', pagedir_create σ = Ok (r, σ') ∧
    (r = NULL ∧ crowded (pool_of false σ.(phys)) (B false) 1 ∧ allocator σ'.(phys) B ∧ σ'.(phys).(ram) = σ.(phys).(ram) ∨
     space σ' B' r ∅ ∧ B false !! r = None ∧ B' = set_live false (<[r := 1]> (B false)) B ∧
     (∀ i, 768 ≤ i < 1024 →
        word σ'.(phys).(ram) (r + 4 * i) = word σ.(phys).(ram) (σ.(con).(base_page_dir) + 4 * i)) ∧
     ∀ a, ¬ r ≤ a < r + 4096 → σ'.(phys).(ram) !! a = σ.(phys).(ram) !! a).
Proof.
  intros SP. set (base := σ.(con).(base_page_dir)) in *. pose proof (sp_paging _ _ _ _ SP) as PG.
  destruct (get_plain _ B (pg_alloc _ _ _ _ PG)) as (r & p & B' & Hr & Ha & Em & Hres). unfold pagedir_create.
  rewrite (bind_Ok _ _ _ _ _ (on_phys_run _ _ _ _ Hr)). set (σ1 := upd_phys (λ _, p) σ).
  rewrite (bind_Ok _ _ σ1 σ.(con) σ1) by done. fold base.
  destruct Hres as [(-> & -> & Hcr)|(Hr0 & Hap & EB)]; [exists NULL, σ1, B; split; [done|by left]|].
  rewrite (proj2 (Z.eqb_neq _ _) Hr0). cbn [negb].
  destruct (page_block p B' false r Ha) as (Hkr & Hmr & _); [rewrite EB; apply lookup_insert_eq|].
  destruct (pd_page PG) as ((_ & Hkb & _) & Hmb & _). pose proof (as_dir _ _ _ _ (pg_space _ _ _ _ PG)) as Hbase.
  assert (r + 4096 ≤ base ∨ base + 4096 ≤ r) as Hdis by (specialize (Hap base 1 Hbase); lia).
  rewrite <- Em in Hmb. assert (bytes_only p.(ram)) as Hbo by (rewrite Em; apply PG).
  assert (base ≠ NULL) as Hb0 by (unfold PHYS_BASE, LOADER_PHYS_BASE in Hkb; mlia).
  pose proof (memcpy_ok p.(ram) r base 4096 ltac:(lia) Hmb Hmr Hbo Hr0 Hb0 ltac:(lia)) as Hcp.
  set (m := moved p.(ram) r base 4096) in *. set (σ2 := upd_phys (λ _, set_ram m p) σ).
  assert (∀ a, m !! a = if (r <=? a) && (a <? r + 4096) then σ.(phys).(ram) !! (base + (a - r)) else σ.(phys).(ram) !! a) as Hm.
  { intros a. unfold m. rewrite moved_lookup by (done || lia). by rewrite Em. }
  assert (∀ k, 0 ≤ k < 1024 → word m (r + 4 * k) = word σ.(phys).(ram) (base + 4 * k)) as Hw.
  { intros k Hk. unfold word, at_. rewrite !Hm. repeat (zcase; try lia); cbn [andb].
    replace (base + (r + 4 * k - r)) with (base + 4 * k) by lia. replace (base + (r + 4 * k + 1 - r)) with (base + 4 * k + 1) by lia.
    replace (base + (r + 4 * k + 2 - r)) with (base + 4 * k + 2) by lia. by replace (base + (r + 4 * k + 3 - r)) with (base + 4 * k + 3) by lia. }
  exists r, σ2, B'. split.
  - rewrite (bind_Ok _ _ σ1 tt σ2); [done|].
    by rewrite (bind_Ok _ _ _ _ _ (on_phys_run _ σ1 _ _ (on_ram_ok _ p _ _ Hcp))).
  - right. split_and!; [|by apply (apart_fresh _ _ _ _ (pg_alloc _ _ _ _ PG))|done|..].
    + split; [split|].
      * by apply (allocator_store p B' r (block p.(ram) base 4096)).
      * split; [rewrite EB; apply lookup_insert_eq|done|done|]. intros i Hi. rewrite lookup_empty.
        change (word m (r + 4 * i) = 0). rewrite Hw by lia.
        rewrite (as_pde _ _ _ _ (pg_space _ _ _ _ PG)) by done. by rewrite lookup_empty.
      * apply (bytes_only_store p.(ram) r (block p.(ram) base 4096)); [done|]. by apply block_u8.
      * intros u Hu. unfold entry. rewrite lookup_empty. done.
    + intros i Hi. apply Hw; lia.
    + intros a Ha'. change (m !! a = σ.(phys).(ram) !! a). rewrite Hm. repeat (zcase; cbn [andb]; try done). lia.
Qed.

(** pagedir_destroy frees the directory, its page tables and the frames of
    its present pages, each once, and nothing else: no assertion of the allocator fails,
    exactly these pages are back in their pools, and memory outside them is unchanged. *)
Theorem pagedir_destroy_ok σ B pd T :
  space σ B pd T → owns B (entry σ.(phys).(ram) T) → pd ≠ σ.(con).(base_page_dir) →
  ∃ σ' B', pagedir_destroy pd σ = Ok (tt, σ') ∧ freed σ B (pages_of σ pd T) σ' B'.
Proof. intros SP OW Hb. by apply destroy_run. Qed.

(** ** Witnesses *)

Lemma one_owns m i j : blank m → 0 ≤ i < 768 → 0 ≤ j < 1024 → owns one_live (entry (one_page m i j).(ram) {[i := PT]}).
Proof.
  intros Hb Hi Hj. split.
  - intros u Hu. rewrite one_entry by (done || apply Hu). by case_bool_decide.
  - intros u v Hu Hv. rewrite !one_entry by (done || apply Hu || apply Hv).
    case_bool_decide as H1; [|done]. case_bool_decide as H2; [|done]. intros _ _ _.
    destruct Hu, Hv. apply indices_inj; congruence.
Qed.

Lemma pagedir_destroy_ok_witness :
  ∃ σ' B', pagedir_destroy PD (one_machine (frames PD 6)) = Ok (tt, σ') ∧
    freed (one_machine (frames PD 6)) one_live (pages_of (one_machine (frames PD 6)) PD {[32 := PT]}) σ' B'.
Proof.
  apply (pagedir_destroy_ok (one_machine (frames PD 6)) one_live PD {[32 := PT]}).
  - apply (one_space (frames PD 6) frames_blank 32 72); [lia|lia|reflexivity].
  - apply (one_owns (frames PD 6) 32 72 frames_blank); lia.
  - discriminate.
Defined.

(** The machine whose initial directory is [base]. *)
Definition booted (p : pages) (base : Z) : vm :=
  Vm p no_files (Cpu 0 ∅) ∅ 0 [] 1 ∅ (Swap None [] ∅ 1) (Consts base 300000 0).

Lemma pagedir_create_ok_witness :
  ∃ p B base, space (booted p base) B base ∅ ∧
    ∃ r σ', pagedir_create (booted p base) = Ok (r, σ') ∧
      (r = NULL ∨ ∃ B', space σ' B' r ∅).
Proof.
  destruct (two_spaces small_pages no_files small_pages_ok (frames_bytes _ _)) as (σ & B & pd & pa & SP & SA & Hap & [p ->] & Hk & _).
  { by vm_compute. }
  assert (space (booted p pa) B pa ∅) as SB by (exact (space_phys SA (booted p pa) eq_refl)).
  exists p, B, pa. split; [exact SB|].
  destruct (pagedir_create_ok (booted p pa) B SB) as (r & σ' & B' & Hr & Hres).
  exists r, σ'. split; [exact Hr|]. destruct Hres as [(Hn & _)|(Hs & _)]; [left; exact Hn|right; exists B'; exact Hs].
Defined.
