(* ===== verification/VmSwap.v ===== *)
(** * Swapping

    vm/swap.c with the frame table of vm/frame.c: a page that is swapped out is on the
    disk, unmapped and its frame free; swapping it in brings the same bytes back. *)

From S2P Require Import Prelude Vaddr Bytes Bitmap Str Palloc Filesys FsInode Vm VmPagedir VmSpace VmLife.
Local Open Scope c_scope.

(** ** Pages and sectors *)

Lemma read_ram_run σ a n : mapped σ.(phys).(ram) a n → read_ram a n σ = Ok (block σ.(phys).(ram) a n, σ).
Proof.
  intros Hm. unfold read_ram.
  assert (mapM (λ i, σ.(phys).(ram) !! (a + i)) (seqZ 0 n) = Some (block σ.(phys).(ram) a n)) as ->; [|done].
  apply mapM_Some_2. apply Forall2_same_length_lookup_2; [unfold block; by rewrite length_fmap, !length_seqZ|].
  intros i j b Hj Hb. unfold block in Hb. rewrite list_lookup_fmap in Hb.
  apply lookup_seqZ in Hj as [-> Hj]. rewrite lookup_seqZ_lt in Hb by lia. cbn in Hb. injection Hb as <-.
  rewrite Z.add_0_l. destruct (Hm (a + Z.of_nat i) ltac:(lia)) as [x ->]. done.
Qed.

Lemma write_ram_run σ a bs :
  mapped σ.(phys).(ram) a (zlen bs) → write_ram a bs σ = Ok (tt, set_mem (store σ.(phys).(ram) a bs) σ).
Proof.
  intros Hm. unfold write_ram.
  assert (forallb (λ i, bool_decide (is_Some (σ.(phys).(ram) !! (a + i)))) (seqZ 0 (zlen bs)) = true) as ->; [|done].
  apply Is_true_eq_true.
  apply forallb_True, Forall_forall. intros i Hi%elem_of_seqZ. apply bool_decide_pack. apply Hm. lia.
Qed.

Lemma store_app m p bs cs : store (store m p bs) (p + zlen bs) cs = store m p (bs ++ cs).
Proof.
  apply map_eq. intros a. rewrite !store_lookup, length_app.
  destruct (Z.leb_spec (p + zlen bs) a), (Z.ltb_spec a (p + zlen bs + zlen cs)), (Z.leb_spec p a),
    (Z.ltb_spec a (p + zlen bs)), (Z.ltb_spec a (p + Z.of_nat (length bs + length cs)));
    cbn [andb]; try lia; try done.
  - rewrite lookup_app_r by lia. f_equal. lia.
  - rewrite lookup_app_l by lia. done.
Qed.

Lemma block_app m p n k : 0 ≤ n → 0 ≤ k → block m p (n + k) = block m p n ++ block m (p + n) k.
Proof. intros Hn Hk. unfold block. rewrite seqZ_app by lia. by rewrite fmap_app. Qed.

Lemma block_ext m m' p n : (∀ a, p ≤ a < p + n → m !! a = m' !! a) → block m p n = block m' p n.
Proof. intros H. apply list_fmap_ext. intros i a Ha%lookup_seqZ. by rewrite H by lia. Qed.

Lemma block_store m p bs : block (store m p bs) p (zlen bs) = bs.
Proof.
  apply list_eq. intros i. unfold block. rewrite list_lookup_fmap. destruct (decide (i < length bs)%nat) as [Hi|Hi].
  - rewrite lookup_seqZ_lt by lia. cbn. rewrite store_lookup. repeat (zcase; cbn [andb]; try lia).
    replace (Z.to_nat _) with i by lia. by destruct (lookup_lt_is_Some_2 bs i Hi) as [b ->].
  - rewrite lookup_seqZ_ge by lia. symmetry. apply lookup_ge_None. lia.
Qed.

Lemma crowded_place p p' b n : same_place p p' → crowded p' b n → crowded p b n.
Proof. intros [E1 E2] Hc j Hj1 Hj2. rewrite <- E1. apply Hc; [done|by rewrite E2]. Qed.

(** The contents of a page, sector by sector. *)
Definition sector (m : mem) (kpage i : Z) : list Z := block m (kpage + i * DISK_SECTOR_SIZE) DISK_SECTOR_SIZE.

(** ** Slots *)

Definition set_disk (d : list (list Z)) (σ : vm) : vm :=
  upd_swaps (λ w, Swap (Some d) w.(swap_table) w.(swap_entries) w.(swap_sema)) σ.

Definition is_sector (s : list Z) : Prop := zlen s = DISK_SECTOR_SIZE ∧ Forall is_u8 s.

(** Every slot of the table has eight sectors of the disk of its own. *)
Record swap_ok (w : swap) (d : list (list Z)) : Prop := {
  sw_disk : w.(swap_disk) = Some d;
  sw_size : zlen d < 268435456;
  sw_sector : Forall is_sector d;
  sw_slot : ∀ p, p ∈ w.(swap_table) →
    ∃ se, w.(swap_entries) !! p = Some se ∧ 0 ≤ se.(first_sec_no) ∧ se.(first_sec_no) + 8 ≤ zlen d;
  sw_apart : ∀ p q se se', p ∈ w.(swap_table) → q ∈ w.(swap_table) → p ≠ q →
    w.(swap_entries) !! p = Some se → w.(swap_entries) !! q = Some se' →
    se.(first_sec_no) + 8 ≤ se'.(first_sec_no) ∨ se'.(first_sec_no) + 8 ≤ se.(first_sec_no);
}.

(** The first free slot of the table. *)
Fixpoint free_slot (w : gmap Z swap_entry) (l : list Z) : option Z :=
  match l with
  | [] => None
  | p :: l => match w !! p with Some se => if se.(is_used) then free_slot w l else Some p | None => None end
  end.

Lemma find_slot_run σ l : (∀ p, p ∈ l → is_Some (σ.(swaps).(swap_entries) !! p)) →
  find_slot l σ = Ok (free_slot σ.(swaps).(swap_entries) l, σ).
Proof.
  induction l as [|p l IH]; intros Hl; [done|]. destruct (Hl p) as [se Hse]; [by left|]. cbn [find_slot free_slot].
  rewrite (bind_Ok _ _ σ se σ) by (unfold slot_at; by rewrite Hse). rewrite Hse. destruct se.(is_used); [|done].
  apply IH. intros q Hq. apply Hl. by right.
Qed.

Lemma free_slot_spec w l p : free_slot w l = Some p → p ∈ l ∧ ∃ se, w !! p = Some se ∧ se.(is_used) = false.
Proof.
  induction l as [|q l IH]; [done|]. cbn. destruct (w !! q) as [se|] eqn:E; [|done]. destruct se.(is_used) eqn:Eu.
  - intros H. destruct (IH H) as [H1 H2]. split; [by right|done].
  - intros [= <-]. split; [by left|by exists se].
Qed.

(** ** Writing a page to a slot *)

Lemma page_to_disk σ d kpage first :
  σ.(swaps).(swap_disk) = Some d → mapped σ.(phys).(ram) kpage 4096 → 0 ≤ first → first + 8 ≤ zlen d → zlen d < 268435456 →
  ∃ d', for_upto 8 (λ i,
      b <- read_ram (kpage + i * DISK_SECTOR_SIZE) DISK_SECTOR_SIZE ;;
      swap_write (u32 (first + i)) b) σ = Ok (tt, set_disk d' σ) ∧
    length d' = length d ∧
    (∀ i, 0 ≤ i < 8 → d' !! Z.to_nat (first + i) = Some (sector σ.(phys).(ram) kpage i)) ∧
    ∀ k, 0 ≤ k → ¬ first ≤ k < first + 8 → d' !! Z.to_nat k = d !! Z.to_nat k.
Proof.
  intros Hd Hm Hf Hf8 Hz. set (body := λ i : Z, _).
  destruct (for_upto_ind (λ i s, ∃ d', s = set_disk d' σ ∧ length d' = length d ∧
    (∀ j, 0 ≤ j < i → d' !! Z.to_nat (first + j) = Some (sector σ.(phys).(ram) kpage j)) ∧
    ∀ k, 0 ≤ k → ¬ first ≤ k < first + i → d' !! Z.to_nat k = d !! Z.to_nat k) 8 body σ) as (s & Hr & d' & -> & Hl & Hin & Hout).
  - lia.
  - exists d. split_and!; [|done|lia|done]. destruct σ as [? ? ? ? ? ? ? ? [] ?]. cbn in Hd. by subst.
  - intros i s Hi (d' & -> & Hl & Hin & Hout). unfold body.
    rewrite (bind_Ok _ _ _ _ _ (read_ram_run (set_disk d' σ) (kpage + i * DISK_SECTOR_SIZE) DISK_SECTOR_SIZE
      ltac:(intros a Ha; apply Hm; unfold DISK_SECTOR_SIZE in Ha; lia))).
    rewrite u32_small by mlia. eexists. split.
    + unfold swap_write. cbn [swaps set_disk upd_swaps swap_disk]. rewrite (proj2 (Z.ltb_lt _ _)), (proj2 (Z.ltb_lt _ _)) by lia. reflexivity.
    + exists (<[Z.to_nat (first + i) := sector σ.(phys).(ram) kpage i]> d'). split_and!; [done|by rewrite length_insert|..].
      * intros j Hj. destruct (decide (j = i)) as [->|]; [rewrite list_lookup_insert_eq by lia; done|].
        rewrite list_lookup_insert_ne by lia. apply Hin. lia.
      * intros k Hk0 Hk. rewrite list_lookup_insert_ne by lia. apply Hout; lia.
  - exists d'. by split_and!.
Qed.

(** ** Giving up a frame *)

Lemma cleared_absent e : present (Z.land e (not32 PTE_P)) = false.
Proof. unfold present. by rewrite <- Z.land_assoc, Z.land_0_r. Qed.

Lemma cc_page : zlen (replicate (Z.to_nat (4096 * 1)) 204) = 4096 ∧ Forall is_u8 (replicate (Z.to_nat (4096 * 1)) 204).
Proof. split; [rewrite length_replicate; lia|by apply Forall_replicate]. Qed.

(** A frame of the user pool is freed: the address space is kept. *)
Lemma space_free σ B pd T kpage :
  space σ B pd T → B true !! kpage = Some 1 →
  let B' := set_live true (delete kpage (B true)) B in
  ∃ p, on_phys (palloc_free_page kpage) σ = Ok (tt, upd_phys (λ _, p) σ) ∧ space (upd_phys (λ _, p) σ) B' pd T ∧
    (∀ u, 0 ≤ u < PHYS_BASE → entry p.(ram) T u = entry σ.(phys).(ram) T u) ∧
    (∀ a, ¬ kpage ≤ a < kpage + 4096 → p.(ram) !! a = σ.(phys).(ram) !! a) ∧
    ∀ u, same_place (pool_of u σ.(phys)) (pool_of u p).
Proof.
  intros SP Hk B'. pose proof (sp_paging _ _ _ _ SP) as PG. pose proof (pg_space _ _ _ _ PG) as AS.
  destruct (free_serves _ _ true kpage 1 (pg_alloc _ _ _ _ PG) Hk) as (p & Hr & Ha & Em & Hsp). unfold filled in Em.
  destruct cc_page as [Hl Hu].
  revert Em Hl Hu. generalize (replicate (Z.to_nat (4096 * 1)) 204). intros zs Em Hl Hu.
  assert (∀ a, in_space pd T a → p.(ram) !! a = σ.(phys).(ram) !! a) as Hm.
  { intros a Hin. rewrite Em, store_lookup, Hl.
    assert (∃ x, B false !! x = Some 1 ∧ x ≤ a < x + 4096) as (x & Hx & Hax).
    { destruct Hin as [?|(i & x & Hi & ?)]; [exists pd; split; [apply AS|lia]|exists x].
      split; [by apply (as_table _ _ _ _ AS i)|lia]. }
    destruct (any_apart _ B false true x kpage (pg_alloc _ _ _ _ PG) Hx Hk); [congruence|..];
      repeat (zcase; cbn [andb]; try done); lia. }
  exists p. split_and!; [exact (on_phys_run (palloc_free_page kpage) _ _ _ Hr)|..].
  - apply (space_kept σ _ B B'); [done|exact Ha| |apply AS|intros i pt Hi; by apply (as_table _ _ _ _ AS i)|exact Hm].
    cbn. rewrite Em. by apply bytes_only_store; [apply PG|].
  - exact (entry_kept σ (upd_phys (λ _, p) σ) pd T Hm).
  - intros a Hna. rewrite Em, store_lookup, Hl. repeat (zcase; cbn [andb]; try done). lia.
  - exact Hsp.
Qed.

(** Unmapping a page and freeing its frame, as evicting does. *)
Lemma unmap_run σ B pd T t x upage kpage :
  space σ B pd T → σ.(threads) !! t = Some x → x.(pagedir) = pd → user_page upage →
  0 ≤ σ.(proc).(cr3) < 1073741824 → B true !! kpage = Some 1 →
  ∃ σ', (x <- thread_at t ;; pagedir_clear_page x.(pagedir) upage ;; on_phys (palloc_free_page kpage)) σ = Ok (tt, σ') ∧
    space σ' (set_live true (delete kpage (B true)) B) pd T ∧ rest σ' = rest σ ∧ σ'.(frame_table) = σ.(frame_table) ∧
    σ'.(proc).(cr3) = σ.(proc).(cr3) ∧ present (entry σ'.(phys).(ram) T upage) = false ∧
    (∀ u, user_page u → u ≠ upage → entry σ'.(phys).(ram) T u = entry σ.(phys).(ram) T u) ∧
    (∀ a, ¬ in_space pd T a → ¬ kpage ≤ a < kpage + 4096 → σ'.(phys).(ram) !! a = σ.(phys).(ram) !! a) ∧
    ∀ u, same_place (pool_of u σ.(phys)) (pool_of u σ'.(phys)).
Proof.
  intros SP Ht Hx Hu Hc Hk. destruct (clear_effect σ B pd T upage SP (conj Hu Hc)) as (σ1 & E1 & Hr & EF).
  cbn [perform] in Hr. apply bind_inv in Hr as ([] & s & Hr & [= ->]).
  destruct (space_free σ1 B pd T kpage (ef_space _ _ _ _ _ _ _ _ _ _ EF) Hk) as (p & Hf & SP' & He & Hm & Hsp).
  exists (upd_phys (λ _, p) σ1). pose proof (ef_answer _ _ _ _ _ _ _ _ _ _ EF) as Hb. pose proof (ef_entry _ _ _ _ _ _ _ _ _ _ EF) as Hent.
  inversion Hb; subst. destruct Hu as [Hu Hmod].
  split_and!; [|exact SP'|exact (ef_rest _ _ _ _ _ _ _ _ _ _ EF)|exact (ef_table _ _ _ _ _ _ _ _ _ _ EF)|..].
  - rewrite (bind_Ok _ _ σ x σ) by (unfold thread_at; by rewrite Ht). by rewrite (bind_Ok _ _ _ _ _ Hr).
  - change (cr3 (proc σ1) = cr3 (proc σ)). rewrite (ef_proc _ _ _ _ _ _ _ _ _ _ EF). by destruct (flushes _ _ _ _ _).
  - change (present (entry p.(ram) T upage) = false). rewrite He, Hent by done.
    destruct (present (entry (ram (phys σ)) T upage)) eqn:Ep; [|done]. unfold put. rewrite Z.eqb_refl. apply cleared_absent.
  - intros u [Hu' Hm'] Hne. change (entry p.(ram) T u = entry σ.(phys).(ram) T u). rewrite He, Hent by done.
    case_match; [|done]. unfold put. destruct (Z.eqb_spec (pg_no u) (pg_no upage)) as [E|]; [|done].
    rewrite !pg_no_div in E. exfalso. apply Hne. dm_lia.
  - intros a Ha1 Ha2. change (p.(ram) !! a = σ.(phys).(ram) !! a). rewrite Hm by done. by apply EF.
  - intros u. destruct (ef_place _ _ _ _ _ _ _ _ _ _ EF u) as [H1 H2], (Hsp u) as [H3 H4]. split; (etransitivity; [|eassumption]; done).
Qed.

(** ** Swapping out *)

(** The frame [f] holds a page of a thread that has a supplemental entry [s] for it. *)
Record swappable (σ : vm) (B : live) (pd : Z) (T : gmap Z Z) (f : frame_entry) (x : thread)
    (sp : Z) (s : sup_page_entry) (d : list (list Z)) : Prop := {
  ps_space : space σ B pd T;
  ps_thread : σ.(threads) !! f.(using_thread) = Some x;
  ps_dir : x.(pagedir) = pd;
  ps_page : user_page f.(fe_upage);
  ps_cr3 : 0 ≤ σ.(proc).(cr3) < 1073741824;
  ps_frame : B true !! f.(fe_kpage) = Some 1;
  ps_swap : swap_ok σ.(swaps) d;
  ps_sema : 0 < σ.(swaps).(swap_sema);
  ps_sup : x.(sup_page_table) !! f.(fe_upage) = Some sp;
  ps_entry : σ.(sup_entries) !! sp = Some s;
}.

Definition in_swap (s : sup_page_entry) (p : Z) : sup_page_entry :=
  SupPageEntry s.(sp_upage) s.(sp_kpage) s.(sp_valid) (Some CASE_SWAP) p s.(file_address) s.(file_pos).

(** The page is in the slot [p], and the supplemental entry says so. *)
Definition stored (p sp : Z) (s : sup_page_entry) (se : swap_entry) (d' : list (list Z)) (σ : vm) : vm :=
  upd_sup <[sp := in_swap s p]>
    (upd_swaps (λ w, Swap (Some d') w.(swap_table) (<[p := SwapEntry true se.(first_sec_no)]> w.(swap_entries)) w.(swap_sema)) σ).

Lemma swap_down σ : 0 < σ.(swaps).(swap_sema) →
  sema_down_swap σ = Ok (tt, upd_swaps (λ w, Swap w.(swap_disk) w.(swap_table) w.(swap_entries) (w.(swap_sema) - 1)) σ).
Proof.
  intros H. unfold sema_down_swap. rewrite (bind_Ok _ _ σ σ.(swaps) σ) by done. by rewrite (proj2 (Z.ltb_lt _ _) H).
Qed.

Lemma swap_ok_same w d b : swap_ok w d → swap_ok (Swap w.(swap_disk) w.(swap_table) w.(swap_entries) b) d.
Proof. intros []. by split. Qed.

(** Marking a slot does not move it. *)
Lemma swap_ok_mark w d p se u d' :
  swap_ok w d → w.(swap_entries) !! p = Some se → length d' = length d →
  Forall is_sector d' →
  swap_ok (Swap (Some d') w.(swap_table) (<[p := SwapEntry u se.(first_sec_no)]> w.(swap_entries)) w.(swap_sema)) d'.
Proof.
  intros [H1 H2 H3 H4 H5] Hp Hl Hs.
  assert (∀ q e, <[p := SwapEntry u se.(first_sec_no)]> w.(swap_entries) !! q = Some e →
    ∃ e', w.(swap_entries) !! q = Some e' ∧ e'.(first_sec_no) = e.(first_sec_no)) as Hq.
  { intros q e [[<- <-]|[_ He]]%lookup_insert_Some; [by exists se|by exists e]. }
  split; cbn; [done|lia|done|..].
  - intros q Hin. destruct (H4 q Hin) as (e & He & ? & ?). rewrite Hl. destruct (decide (p = q)) as [->|Hne].
    + rewrite lookup_insert_eq. assert (e = se) as -> by congruence. by eexists.
    + rewrite lookup_insert_ne by done. by exists e.
  - intros q r e e' Hin1 Hin2 Hne He He'. destruct (Hq _ _ He) as (? & ? & <-), (Hq _ _ He') as (? & ? & <-).
    by apply (H5 q r).
Qed.

Lemma disk_sectors d d' σ kpage first :
  mapped σ.(phys).(ram) kpage 4096 → bytes_only σ.(phys).(ram) → Forall is_sector d → length d' = length d →
  (∀ i, 0 ≤ i < 8 → d' !! Z.to_nat (first + i) = Some (sector σ.(phys).(ram) kpage i)) →
  (∀ k, 0 ≤ k → ¬ first ≤ k < first + 8 → d' !! Z.to_nat k = d !! Z.to_nat k) →
  Forall is_sector d'.
Proof.
  intros Hm Hb Hd Hl Hin Hout. apply Forall_lookup. intros n s Hn.
  destruct (decide (first ≤ Z.of_nat n < first + 8)) as [Hr|Hr].
  - specialize (Hin (Z.of_nat n - first) ltac:(lia)). replace (Z.to_nat _) with n in Hin by lia.
    rewrite Hn in Hin. injection Hin as ->. split; [by apply block_length|]. apply block_u8; [|done].
    unfold DISK_SECTOR_SIZE. intros a Ha. apply Hm. lia.
  - specialize (Hout (Z.of_nat n) ltac:(lia) Hr). rewrite Nat2Z.id, Hn in Hout. by eapply (proj1 (Forall_lookup _ _) Hd).
Qed.

(** The middle part of [swap_out], between the two semaphore operations. *)
Definition keep (f : frame_entry) (sup_pte : Z) (r : option Z) : M vm unit :=
  match r with
  | None => ret tt
  | Some p =>
      se <- slot_at p ;;
      for_upto 8 (λ i,
        b <- read_ram (f.(fe_kpage) + i * DISK_SECTOR_SIZE) DISK_SECTOR_SIZE ;;
        swap_write (u32 (se.(first_sec_no) + i)) b) ;;
      set_slot p (SwapEntry true se.(first_sec_no)) ;;
      s <- sup_at sup_pte ;;
      set_sup sup_pte (in_swap s p)
  end.

(** What is in the swap space afterwards. *)
Inductive kept_in (σ : vm) (f : frame_entry) (sp : Z) (s : sup_page_entry) (d : list (list Z)) :
    option Z → list (list Z) → vm → Prop :=
  | kept_none : kept_in σ f sp s d None d σ
  | kept_slot p se d' :
      p ∈ σ.(swaps).(swap_table) → σ.(swaps).(swap_entries) !! p = Some se → se.(is_used) = false → length d' = length d →
      (∀ i, 0 ≤ i < 8 → d' !! Z.to_nat (se.(first_sec_no) + i) = Some (sector σ.(phys).(ram) f.(fe_kpage) i)) →
      (∀ k, 0 ≤ k → ¬ se.(first_sec_no) ≤ k < se.(first_sec_no) + 8 → d' !! Z.to_nat k = d !! Z.to_nat k) →
      kept_in σ f sp s d (Some p) d' (stored p sp s se d' σ).

Lemma keep_run σ f sp s d kB :
  bytes_only σ.(phys).(ram) → swap_ok σ.(swaps) d → σ.(sup_entries) !! sp = Some s → allocator σ.(phys) kB → kB true !! f.(fe_kpage) = Some 1 →
  ∃ d' σ', keep f sp (free_slot σ.(swaps).(swap_entries) σ.(swaps).(swap_table)) σ = Ok (tt, σ') ∧
    kept_in σ f sp s d (free_slot σ.(swaps).(swap_entries) σ.(swaps).(swap_table)) d' σ' ∧
    swap_ok σ'.(swaps) d'.
Proof.
  intros Hbo SW Hs Ha Hk. destruct (free_slot _ _) as [p|] eqn:Ep; [|exists d, σ; split_and!; try done; by constructor].
  destruct (free_slot_spec _ _ _ Ep) as (Hin & se & Hse & Hu). destruct (sw_slot _ _ SW p Hin) as (se' & Hse' & Hf0 & Hf8).
  assert (se' = se) as -> by congruence. destruct (page_block _ _ _ _ Ha Hk) as (_ & Hm & _).
  destruct (page_to_disk σ d f.(fe_kpage) se.(first_sec_no)) as (d' & Hr & Hl & Hd1 & Hd2); [apply SW|done..|apply SW|].
  exists d', (stored p sp s se d' σ). split_and!.
  - unfold keep. rewrite (bind_Ok _ _ σ se σ) by (unfold slot_at; by rewrite Hse). rewrite (bind_Ok _ _ _ _ _ Hr).
    set (σ1 := upd_swaps (λ w, Swap (Some d') w.(swap_table) (<[p := SwapEntry true se.(first_sec_no)]> w.(swap_entries)) w.(swap_sema)) σ).
    rewrite (bind_Ok _ _ (set_disk d' σ) tt σ1) by done.
    rewrite (bind_Ok _ _ σ1 s σ1); [done|]. unfold sup_at. cbn. by rewrite Hs.
  - by constructor.
  - apply (swap_ok_mark _ d); [done..|]. by eapply (disk_sectors d d' σ f.(fe_kpage)); [exact Hm|done|apply SW|..].
Qed.

Definition sema_by (k : Z) (σ : vm) : vm :=
  upd_swaps (λ w, Swap w.(swap_disk) w.(swap_table) w.(swap_entries) (w.(swap_sema) + k)) σ.

Lemma sema_down_up σ : sema_by 1 (sema_by (-1) σ) = σ.
Proof. destruct σ as [? ? ? ? ? ? ? ? [] ?]. unfold sema_by, upd_swaps. cbn. by rewrite (ltac:(lia) : ∀ k, k + -1 + 1 = k). Qed.

Lemma kept_up σ f sp s d r d' σ' :
  kept_in (sema_by (-1) σ) f sp s d r d' σ' → kept_in σ f sp s d r d' (sema_by 1 σ').
Proof.
  intros H. inversion H as [|p se d2 Hp Hse Hu Hl H1 H2]; subst; [rewrite sema_down_up; constructor|].
  assert (sema_by 1 (stored p sp s se d' (sema_by (-1) σ)) = stored p sp s se d' σ) as ->; [|by constructor].
  unfold stored, sema_by, upd_swaps, upd_sup. cbn. by rewrite (ltac:(lia) : ∀ k, k + -1 + 1 = k).
Qed.

(** swap_out gives up a frame.  If a slot of the swap disk is free, the
    contents of the page are in its eight sectors, no other sector changes, the slot is
    marked used and the supplemental entry of the page points to it; if none is free, the
    contents are lost without a trace.  In both cases the page is no longer mapped, the
    other pages of the process are mapped as before, and the frame is back in the user
    pool. *)
Lemma swap_out_run σ B pd T f x sp s d :
  swappable σ B pd T f x sp s d →
  let slot := free_slot σ.(swaps).(swap_entries) σ.(swaps).(swap_table) in
  ∃ d' σ1 σ', swap_out f σ = Ok (tt, σ') ∧ kept_in σ f sp s d slot d' σ1 ∧ swap_ok σ'.(swaps) d' ∧
    rest σ' = rest σ1 ∧ σ'.(frame_table) = σ.(frame_table) ∧ σ'.(proc).(cr3) = σ.(proc).(cr3) ∧
    space σ' (set_live true (delete f.(fe_kpage) (B true)) B) pd T ∧
    present (entry σ'.(phys).(ram) T f.(fe_upage)) = false ∧
    (∀ u, user_page u → u ≠ f.(fe_upage) → entry σ'.(phys).(ram) T u = entry σ.(phys).(ram) T u) ∧
    ∀ u, same_place (pool_of u σ.(phys)) (pool_of u σ'.(phys)).
Proof.
  intros [SP Ht Hx Hu Hc Hk SW Hsema Hsup Hs] slot.
  destruct (keep_run (sema_by (-1) σ) f sp s d B) as (d' & σd & Hr & Hkept & SW');
    [apply (sp_paging _ _ _ _ SP)|by apply swap_ok_same|done|apply (sp_paging _ _ _ _ SP)|done|]. change (free_slot _ _) with slot in Hr, Hkept.
  apply kept_up in Hkept. set (σ1 := sema_by 1 σd) in *.
  assert (σ1.(phys) = σ.(phys) ∧ σ1.(threads) = σ.(threads) ∧ σ1.(proc) = σ.(proc) ∧ σ1.(frame_table) = σ.(frame_table)) as (Ep & Et & Epr & Ef)
    by (by inversion Hkept).
  destruct (unmap_run σ1 B pd T f.(using_thread) x f.(fe_upage) f.(fe_kpage)) as (σ' & Hun & SP' & Hrest & Hft & Hcr & Hpr & Hoth & _ & Hpl);
    [by apply (space_phys SP)|by rewrite Et|done|done|by rewrite Epr|done|].
  rewrite Ep in Hoth, Hpl. exists d', σ1, σ'. split_and!; try done; [|..|by rewrite Hft|by rewrite Hcr, Epr].
  - unfold swap_out. rewrite (bind_Ok _ _ σ sp σ).
    2:{ unfold sup_page_table_lookup. rewrite (bind_Ok _ _ σ x σ) by (unfold thread_at; by rewrite Ht). by rewrite Hsup. }
    rewrite (bind_Ok _ _ σ σ.(swaps) σ) by done. rewrite (sw_disk _ _ SW), (bind_Ok _ _ _ _ _ (swap_down σ Hsema)).
    rewrite (bind_Ok _ _ _ _ _ (find_slot_run (sema_by (-1) σ) _ (λ p Hp, match sw_slot _ _ SW p Hp with ex_intro _ se (conj H _) => ex_intro _ se H end))).
    change (free_slot _ _) with slot. rewrite (bind_Ok _ _ _ _ _ Hr). by rewrite (bind_Ok _ _ σd tt σ1).
  - assert (σ'.(swaps) = σ1.(swaps)) as -> by (by injection Hrest). by apply swap_ok_same.
Qed.

(** ** Swapping in *)

(** The state in which a frame can be had without evicting another. *)
Record roomy (σ : vm) (B : live) : Prop := {
  rm_alloc : allocator σ.(phys) B;
  rm_sema : 0 < σ.(frame_sema);
  rm_malloc : plenty σ.(fsys) ∧ 0 < σ.(fsys).(next);
  rm_free : ¬ crowded (pool_of true σ.(phys)) (B true) 1;
}.

(** A new object of the block allocator. *)
Lemma new_object_run σ :
  plenty σ.(fsys) → 0 < σ.(fsys).(next) →
  ∃ g, new_object σ = Ok (σ.(fsys).(next), upd_fsys (λ _, g) σ) ∧ heap_only σ.(fsys) g ∧ g.(next) = σ.(fsys).(next) + 1.
Proof.
  intros Hp Hn. destruct (alloc_run σ.(fsys)) as (p & g & Hr & Hh & _ & Hok). destruct (Hok Hp) as [-> Hg].
  exists g. split_and!; [|done|done]. unfold new_object.
  rewrite (bind_Ok _ _ σ σ.(fsys).(next) (upd_fsys (λ _, g) σ)) by (unfold on_fs; by rewrite Hr).
  by rewrite (proj2 (Z.eqb_neq _ _)) by mlia.
Qed.

(** A new frame at the end of the frame table. *)
Definition with_frame (r : Z) (p : pages) (g : fs) (σ : vm) : vm :=
  upd_frames (λ l, l ++ [FrameEntry σ.(current) σ.(con).(junk) r σ.(con).(junk)])
    (upd_fsys (λ _, g) (upd_phys (λ _, p) σ)).

Lemma frame_alloc_run σ B :
  roomy σ B →
  ∃ r p g, frame_table_allocator PAL_USER σ = Ok (r, with_frame r p g σ) ∧
    allocator p (set_live true (<[r := 1]> (B true)) B) ∧ p.(ram) = σ.(phys).(ram) ∧ apart (B true) r 1 ∧ r ≠ NULL ∧
    (∀ u, same_place (pool_of u σ.(phys)) (pool_of u p)) ∧ heap_only σ.(fsys) g.
Proof.
  intros [Ha Hs [Hm1 Hm2] Hfree]. destruct (get_serves _ B PAL_USER 1 Ha) as (r & p & B' & Hr & Hsv & Ha' & Em & Hsp); [lia|].
  inversion Hsv as [fl n Hcr|fl n r' u Hn Hr0 Hin Hap|]; subst; [destruct Hcr; [done|by destruct Hfree]|].
  set (σ1 := upd_frame_sema (λ _, σ.(frame_sema) - 1) σ). set (σ2 := upd_phys (λ _, p) σ1).
  destruct (new_object_run σ2 Hm1 Hm2) as (g & Hnew & Hh & _).
  exists r, p, g. split_and!; [|done..]. unfold frame_table_allocator.
  rewrite (bind_Ok _ _ σ tt σ1).
  2:{ unfold sema_down_frame. rewrite (bind_Ok _ _ σ σ.(frame_sema) σ) by done. by rewrite (proj2 (Z.ltb_lt _ _) Hs). }
  rewrite (bind_Ok _ _ _ _ _ (on_phys_run _ σ1 _ _ Hr)). fold σ2.
  rewrite (bind_Ok _ _ σ2 r σ2) by (by rewrite (proj2 (Z.eqb_neq _ _) Hr0)). rewrite (bind_Ok _ _ _ _ _ Hnew).
  unfold with_frame, change, reads, bind, sema_up_frame, upd_frames, upd_frame_sema. cbn. unfold upd_fsys, upd_phys. cbn.
  by rewrite Z.sub_add.
Qed.

(** The eight sectors of a slot into a page. *)
Lemma page_from_disk σ d sp s se r (bs : Z → list Z) :
  σ.(sup_entries) !! sp = Some s → σ.(swaps).(swap_entries) !! s.(swap_address) = Some se →
  0 ≤ se.(first_sec_no) → se.(first_sec_no) + 8 ≤ zlen d → zlen d < 268435456 → mapped σ.(phys).(ram) r 4096 →
  (∀ i, 0 ≤ i < 8 → d !! Z.to_nat (se.(first_sec_no) + i) = Some (bs i)) → (∀ i, 0 ≤ i < 8 → zlen (bs i) = 512) →
  for_upto 8 (λ i,
    s <- sup_at sp ;; se <- slot_at s.(swap_address) ;;
    b <- pure (swap_read d (u32 (se.(first_sec_no) + i))) ;;
    write_ram (r + i * DISK_SECTOR_SIZE) b) σ =
  Ok (tt, set_mem (store σ.(phys).(ram) r (concat (bs <$> seqZ 0 8))) σ).
Proof.
  intros Hs Hse Hf Hf8 Hz Hm Hbs Hlen. set (body := λ i : Z, _).
  assert (∀ i, 0 ≤ i ≤ 8 → zlen (concat (bs <$> seqZ 0 i)) = 512 * i) as Hl.
  { intros i Hi. assert (∀ n, (n ≤ 8)%nat → zlen (concat (bs <$> seqZ 0 (Z.of_nat n))) = 512 * Z.of_nat n) as H;
      [|specialize (H (Z.to_nat i)); rewrite Z2Nat.id in H by lia; apply H; lia].
    induction n as [|n IH]; intros Hn; [done|]. rewrite seqZ_S, fmap_app, concat_app, length_app by lia.
    cbn. rewrite app_nil_r, Z.add_0_l, Nat2Z.inj_add, IH, Hlen by lia. lia. }
  destruct (for_upto_ind (λ i s', s' = set_mem (store σ.(phys).(ram) r (concat (bs <$> seqZ 0 i))) σ) 8 body σ) as (σ' & Hr & ->).
  - lia.
  - unfold set_mem, upd_phys. by destruct σ as [[] ? ? ? ? ? ? ? ? ?].
  - intros i s' Hi ->. set (m := store _ _ _). unfold body.
    rewrite (bind_Ok _ _ _ s (set_mem m σ)) by (unfold sup_at; cbn; by rewrite Hs).
    rewrite (bind_Ok _ _ _ se (set_mem m σ)) by (unfold slot_at; cbn; by rewrite Hse).
    rewrite u32_small by mlia. rewrite (bind_Ok _ _ _ (bs i) (set_mem m σ)).
    2:{ apply pure_run. unfold swap_read. rewrite (proj2 (Z.ltb_lt _ _)), (proj2 (Z.ltb_lt _ _)) by lia. cbn. by rewrite Hbs. }
    eexists. split; [apply write_ram_run|].
    + cbn. apply mapped_store. rewrite Hlen by lia. unfold DISK_SECTOR_SIZE. intros a Ha. apply Hm. lia.
    + change (phys (set_mem m σ)).(ram) with m. change (set_mem ?m' (set_mem m σ)) with (set_mem m' σ). f_equal. unfold m.
      replace (r + i * DISK_SECTOR_SIZE) with (r + zlen (concat (bs <$> seqZ 0 i))) by (rewrite Hl; unfold DISK_SECTOR_SIZE; lia).
      rewrite store_app, seqZ_app by lia. change (seqZ (0 + i) 1) with [i].
      rewrite fmap_app, concat_app. cbn [fmap list_fmap concat]. by rewrite app_nil_r.
  - exact Hr.
Qed.

Lemma sectors_page m kpage : concat (sector m kpage <$> seqZ 0 8) = block m kpage 4096.
Proof.
  unfold sector, DISK_SECTOR_SIZE. change (seqZ 0 8) with [0; 1; 2; 3; 4; 5; 6; 7]. cbn [fmap list_fmap concat].
  rewrite app_nil_r.
  change 4096 with (512 + (512 + (512 + (512 + (512 + (512 + (512 + 512))))))) at 1.
  rewrite !block_app by lia. rewrite <- !Z.add_assoc. cbn [Z.add Z.mul]. by rewrite !Z.add_0_r.
Qed.

(** The page of the supplemental entry [s] is in the slot [se]. *)
Record swapped (σ : vm) (B : live) (pd : Z) (T : gmap Z Z) (x : thread) (sp : Z) (s : sup_page_entry)
    (se : swap_entry) (d : list (list Z)) (bs : Z → list Z) : Prop := {
  sd_space : space σ B pd T;
  sd_room : roomy σ B;
  sd_thread : σ.(threads) !! σ.(current) = Some x ∧ x.(pagedir) = pd;
  sd_sup : σ.(sup_entries) !! sp = Some s;
  sd_slot : s.(swap_address) ∈ σ.(swaps).(swap_table) ∧ σ.(swaps).(swap_entries) !! s.(swap_address) = Some se;
  sd_swap : swap_ok σ.(swaps) d;
  sd_sema : 0 < σ.(swaps).(swap_sema);
  sd_data : ∀ i, 0 ≤ i < 8 → d !! Z.to_nat (se.(first_sec_no) + i) = Some (bs i);
  sd_page : user_page s.(sp_upage) ∧ present (entry σ.(phys).(ram) T s.(sp_upage)) = false;
  sd_dir : pd ≠ σ.(con).(base_page_dir);
  sd_ram : σ.(phys).(user_pool).(base) + 4096 * σ.(phys).(user_pool).(used_map).(bit_cnt) ≤ PHYS_BASE + 4096 * σ.(con).(ram_pages);
}.

Definition from_swap (s : sup_page_entry) : sup_page_entry :=
  SupPageEntry s.(sp_upage) s.(sp_kpage) s.(sp_valid) (Some CASE_ZERO) s.(swap_address) s.(file_address) s.(file_pos).

(** The slot is free again and the page is to be zero if it faults once more. *)
Definition loaded (sp : Z) (s : sup_page_entry) (se : swap_entry) (σ : vm) : vm :=
  upd_sup <[sp := from_swap s]>
    (upd_swaps (λ w, Swap w.(swap_disk) w.(swap_table) (<[s.(swap_address) := SwapEntry false se.(first_sec_no)]> w.(swap_entries)) w.(swap_sema)) σ).

(** The part of [swap_in] that reads the disk. *)
Lemma load_run σ d sp s se r bs :
  σ.(sup_entries) !! sp = Some s → s.(swap_address) ∈ σ.(swaps).(swap_table) →
  σ.(swaps).(swap_entries) !! s.(swap_address) = Some se → swap_ok σ.(swaps) d → 0 < σ.(swaps).(swap_sema) →
  mapped σ.(phys).(ram) r 4096 → (∀ i, 0 ≤ i < 8 → d !! Z.to_nat (se.(first_sec_no) + i) = Some (bs i)) →
  (sema_down_swap ;;
   for_upto 8 (λ i,
     s <- sup_at sp ;; se <- slot_at s.(swap_address) ;;
     b <- pure (swap_read d (u32 (se.(first_sec_no) + i))) ;;
     write_ram (r + i * DISK_SECTOR_SIZE) b) ;;
   s <- sup_at sp ;; se <- slot_at s.(swap_address) ;;
   set_slot s.(swap_address) (SwapEntry false se.(first_sec_no)) ;;
   set_sup sp (from_swap s) ;; sema_up_swap) σ =
  Ok (tt, loaded sp s se (set_mem (store σ.(phys).(ram) r (concat (bs <$> seqZ 0 8))) σ)).
Proof.
  intros Hs Hin Hse SW Hsema Hm Hbs. rewrite (bind_Ok _ _ _ _ _ (swap_down σ Hsema)). set (σ1 := upd_swaps _ σ).
  destruct (sw_slot _ _ SW _ Hin) as (se' & Hse' & Hf0 & Hf8). assert (se' = se) as -> by congruence.
  rewrite (bind_Ok _ _ σ1 _ _ (page_from_disk σ1 d sp s se r bs Hs Hse Hf0 Hf8 (sw_size _ _ SW) Hm Hbs
    (λ i Hi, proj1 (proj1 (Forall_lookup _ _) (sw_sector _ _ SW) _ _ (Hbs i Hi))))).
  set (σ2 := set_mem _ σ1). rewrite (bind_Ok _ _ σ2 s σ2) by (unfold sup_at; cbn; by rewrite Hs).
  rewrite (bind_Ok _ _ σ2 se σ2) by (unfold slot_at; cbn; by rewrite Hse).
  unfold loaded, set_slot, set_sup, sema_up_swap, set_swap_sema, change, bind, upd_swaps, upd_sup, σ2, σ1. cbn. by rewrite Z.sub_add.
Qed.

(** Memory of a user frame is none of an address space. *)
Lemma user_frame_apart p B pd T r a :
  allocator p B → B true !! r = Some 1 → B false !! pd = Some 1 → (∀ i pt, T !! i = Some pt → B false !! pt = Some 1) →
  in_space pd T a → ¬ r ≤ a < r + 4096.
Proof.
  intros Ha Hr Hpd HT Hin Har.
  assert (∃ x, B false !! x = Some 1 ∧ x ≤ a < x + 4096) as (x & Hx & Hax).
  { destruct Hin as [?|(i & x & Hi & ?)]; [exists pd; split; [done|lia]|exists x]. split; [by eapply HT|lia]. }
  destruct (any_apart p B true false r x Ha Hr Hx); [congruence|lia..].
Qed.

Lemma page_data (bs : Z → list Z) :
  (∀ i, 0 ≤ i < 8 → is_sector (bs i)) → zlen (concat (bs <$> seqZ 0 8)) = 4096 ∧ Forall is_u8 (concat (bs <$> seqZ 0 8)).
Proof.
  intros H. change (seqZ 0 8) with [0; 1; 2; 3; 4; 5; 6; 7]. cbn [fmap list_fmap concat]. unfold is_sector, DISK_SECTOR_SIZE in H. split.
  - pose proof (proj1 (H 0 ltac:(lia))). pose proof (proj1 (H 1 ltac:(lia))). pose proof (proj1 (H 2 ltac:(lia))).
    pose proof (proj1 (H 3 ltac:(lia))). pose proof (proj1 (H 4 ltac:(lia))). pose proof (proj1 (H 5 ltac:(lia))).
    pose proof (proj1 (H 6 ltac:(lia))). pose proof (proj1 (H 7 ltac:(lia))). rewrite !length_app. cbn [length]. lia.
  - repeat (apply Forall_app; split; [by apply H|]). done.
Qed.

Lemma swap_in_run σ B pd T x sp s se d bs w :
  swapped σ B pd T x sp s se d bs →
  ∃ r σ' B' T', swap_in sp w σ = Ok (tt, σ') ∧ space σ' B' pd T' ∧
    B true !! r = None ∧ B' true = <[r := 1]> (B true) ∧
    (entry σ'.(phys).(ram) T' s.(sp_upage) = r - PHYS_BASE + flags true w ∨
     T !! pd_no s.(sp_upage) = None ∧ crowded (pool_of false σ.(phys)) (B false) 1) ∧
    block σ'.(phys).(ram) r 4096 = concat (bs <$> seqZ 0 8) ∧
    σ'.(swaps) = (loaded sp s se σ).(swaps) ∧ σ'.(sup_entries) = (loaded sp s se σ).(sup_entries).
Proof.
  intros [SP RM [Ht Hx] Hs [Hin Hse] SW Hsema Hbs [Hu Hpr] Hdir Hram]. pose proof (sp_paging _ _ _ _ SP) as PG.
  pose proof (pg_space _ _ _ _ PG) as AS. destruct (frame_alloc_run σ B RM) as (r & p & g & Hr & Ha & Em & Hap & Hr0 & Hsp & _).
  set (B1 := set_live true (<[r := 1]> (B true)) B) in *. set (σ1 := with_frame r p g σ) in *.
  assert (B1 true !! r = Some 1) as Hb1 by apply lookup_insert_eq.
  destruct (page_block p B1 true r Ha Hb1) as (Hkr & Hmr & Hrw).
  set (data := concat (bs <$> seqZ 0 8)). set (m := store p.(ram) r data). set (σ2 := loaded sp s se (set_mem m σ1)).
  assert (zlen data = 4096 ∧ Forall is_u8 data) as [Hdl Hdu].
  { apply page_data. intros i Hi. by eapply (proj1 (Forall_lookup _ _) (sw_sector _ _ SW)), Hbs. }
  assert (space σ2 B1 pd T ∧ ∀ u, 0 ≤ u < PHYS_BASE → entry m T u = entry σ.(phys).(ram) T u) as [SP2 He2].
  { assert (∀ a, in_space pd T a → m !! a = σ.(phys).(ram) !! a) as Hm.
    { intros a Hia. unfold m. rewrite store_lookup, Em, Hdl.
      assert (¬ r ≤ a < r + 4096) by (apply (user_frame_apart p B1 pd T); [done..|apply AS|intros i pt Hi; by apply (as_table _ _ _ _ AS i)|done]).
      repeat (zcase; cbn [andb]; try done). lia. }
    split; [|exact (entry_kept σ σ2 pd T Hm)].
    apply (space_kept σ σ2 B B1); [done|by apply (allocator_store p B1 r data)| |apply AS|intros i pt Hi; by apply (as_table _ _ _ _ AS i)|done].
    apply bytes_only_store; [rewrite Em; apply PG|done]. }
  destruct (set_effect σ2 B1 pd T s.(sp_upage) r w SP2) as (b & σ3 & B3 & T3 & E3 & Hset & EF).
  { split_and!; [apply Hu..|done| |done| |apply RM].
    - destruct (po_block _ _ _ (al_pool _ _ Ha true) r 1 Hb1) as (_ & i & Hi & Hi0 & Hi1). destruct (Hsp true) as [E1 E2].
      cbn [pool_of] in *. rewrite E1 in Hi. rewrite E2 in Hi1. change (con σ2) with (con σ).
      destruct (po_base _ _ _ (al_pool _ _ (rm_alloc _ _ RM) true)). cbn [pool_of] in *. dm_lia.
    - change (present (entry m T s.(sp_upage)) = false). rewrite He2 by apply Hu. done. }
  cbn [perform] in Hset. apply bind_inv in Hset as (b' & s3 & Hset & [= <- ->]).
  exists r, σ3, B3, T3. split_and!.
  - unfold swap_in. rewrite (bind_Ok _ _ _ _ _ Hr). fold σ1. rewrite (bind_Ok _ _ σ1 σ1.(swaps) σ1) by done.
    change (σ1.(swaps)) with σ.(swaps). rewrite (sw_disk _ _ SW).
    rewrite (bind_Ok _ _ _ _ _ (load_run σ1 d sp s se r bs Hs Hin Hse SW Hsema Hmr Hbs)).
    change (loaded sp s se _) with σ2. rewrite (bind_Ok _ _ σ2 (from_swap s) σ2).
    2:{ unfold sup_at. cbn. by rewrite lookup_insert_eq. }
    rewrite (bind_Ok _ _ σ2 σ.(current) σ2), (bind_Ok _ _ σ2 x σ2) by (done || (unfold thread_at; cbn; by rewrite Ht)).
    rewrite Hx. by rewrite (bind_Ok _ _ _ _ _ Hset).
  - apply EF.
  - by apply (apart_fresh σ.(phys) B true), Hap; apply RM.
  - rewrite (ef_user _ _ _ _ _ _ _ _ _ _ EF). done.
  - pose proof (ef_answer _ _ _ _ _ _ _ _ _ _ EF) as Hb. inversion Hb as [? ? ? [Hnt Hcr]| | | | | | ]; subst.
    + right. split; [done|]. by apply (crowded_place _ p.(kernel_pool)); [apply (Hsp false)|].
    + left. rewrite (ef_entry _ _ _ _ _ _ _ _ _ _ EF) by apply Hu. unfold put. by rewrite Z.eqb_refl.
  - rewrite <- (block_store p.(ram) r data), Hdl. apply block_ext. intros a Har. fold m. apply (ef_spares _ _ _ _ _ _ _ _ _ _ EF).
    intros Hia. pose proof (sp_paging _ _ _ _ (ef_space _ _ _ _ _ _ _ _ _ _ EF)) as PG3. pose proof (pg_space _ _ _ _ PG3) as AS3.
    destruct (user_frame_apart σ3.(phys) B3 pd T3 r a); [apply PG3| |apply AS3|intros i pt Hi; by apply (as_table _ _ _ _ AS3 i)|done|done].
    by rewrite (ef_user _ _ _ _ _ _ _ _ _ _ EF).
  - pose proof (ef_rest _ _ _ _ _ _ _ _ _ _ EF) as Hrest. by injection Hrest.
  - pose proof (ef_rest _ _ _ _ _ _ _ _ _ _ EF) as Hrest. by injection Hrest.
Qed.


(** A pool that has just got a page back has a free page. *)
Lemma freed_room p m b k p' :
  pool_ok p m b → b !! k = Some 1 → same_place p p' → ¬ crowded p' (delete k b) 1.
Proof.
  intros Hp Hk [E1 E2] Hc. destruct (po_block _ _ _ Hp k 1 Hk) as (_ & i & -> & Hi0 & Hi1).
  destruct (Hc i) as (j & Hj & c & n & Hcn & Hin); [lia|rewrite E2; lia|]. assert (j = i) as -> by lia. rewrite E1 in Hin.
  specialize (po_apart _ _ _ Hp _ 1 Hk c n Hcn). lia.
Qed.

(** Property C32.  A page that goes to the swap disk comes back unchanged.  swap_out of a
    mapped page with a free slot leaves the page unmapped, and swap_in of its
    supplemental entry then maps a frame with the same 4096 bytes at the same user page,
    with the permission asked for; the slot is free again. *)
Theorem swap_roundtrip σ B pd T f x sp s d p w :
  swappable σ B pd T f x sp s d →
  free_slot σ.(swaps).(swap_entries) σ.(swaps).(swap_table) = Some p →
  present (entry σ.(phys).(ram) T f.(fe_upage)) = true →
  s.(sp_upage) = f.(fe_upage) → σ.(current) = f.(using_thread) → 0 < σ.(frame_sema) →
  plenty σ.(fsys) → 0 < σ.(fsys).(next) → pd ≠ σ.(con).(base_page_dir) →
  σ.(phys).(user_pool).(base) + 4096 * σ.(phys).(user_pool).(used_map).(bit_cnt) ≤ PHYS_BASE + 4096 * σ.(con).(ram_pages) →
  ∃ σ1 σ2 B2 T2 r, swap_out f σ = Ok (tt, σ1) ∧ present (entry σ1.(phys).(ram) T f.(fe_upage)) = false ∧
    swap_in sp w σ1 = Ok (tt, σ2) ∧ space σ2 B2 pd T2 ∧ B2 true !! r = Some 1 ∧
    entry σ2.(phys).(ram) T2 f.(fe_upage) = r - PHYS_BASE + flags true w ∧
    block σ2.(phys).(ram) r 4096 = block σ.(phys).(ram) f.(fe_kpage) 4096 ∧
    option_map is_used (σ2.(swaps).(swap_entries) !! p) = Some false.
Proof.
  intros SWP Hslot Hpres Eu Ecur Hfs Hm1 Hm2 Hdir Hram.
  assert (is_Some (T !! pd_no f.(fe_upage))) as HT.
  { unfold entry in Hpres. destruct (T !! pd_no f.(fe_upage)); [done|]. cbn in Hpres. done. }
  destruct (swap_out_run σ B pd T f x sp s d SWP) as (d' & σd & σ1 & Hout & Hkept & SW' & Hrest & _ & _ & SP' & Hpr & _ & Hpl).
  rewrite Hslot in Hkept. inversion Hkept as [|? se ? Hin Hse Hu Hl Hd1 Hd2]; subst.
  injection Hrest as Efs Eth Ec Esema Esup Esw Econ. cbn in Efs, Eth, Ec, Esema, Econ.
  assert (swapped σ1 (set_live true (delete f.(fe_kpage) (B true)) B) pd T x sp (in_swap s p)
    (SwapEntry true se.(first_sec_no)) d' (sector σ.(phys).(ram) f.(fe_kpage))) as SD.
  { destruct SWP as [SP Ht Hx Hup Hc Hk SW Hsema Hsup Hs]. split.
    - exact SP'.
    - split; [apply (sp_paging _ _ _ _ SP')|by rewrite Esema|by rewrite Efs|].
      apply (freed_room (pool_of true σ.(phys)) σ.(phys).(ram)); [apply (sp_paging _ _ _ _ SP)|done|apply Hpl].
    - by rewrite Eth, Ec, Ecur.
    - rewrite Esup. apply lookup_insert_eq.
    - rewrite Esw. split; [done|]. apply lookup_insert_eq.
    - done.
    - by rewrite Esw.
    - done.
    - change (sp_upage (in_swap s p)) with (sp_upage s). by rewrite Eu.
    - by rewrite Econ.
    - destruct (Hpl true) as [E1 E2]. cbn in E1, E2. by rewrite Econ, E1, E2. }
  destruct (swap_in_run _ _ _ _ _ _ _ _ _ _ w SD) as (r & σ2 & B2 & T2 & Hr & SP2 & _ & HB & Hent & Hblk & Hsw & _).
  exists σ1, σ2, B2, T2, r. split_and!; try done.
  - rewrite HB. apply lookup_insert_eq.
  - cbn [in_swap sp_upage] in Hent. rewrite Eu in Hent. destruct Hent as [?|[Hn _]]; [done|]. rewrite Hn in HT. by destruct HT.
  - by rewrite Hblk, sectors_page.
  - rewrite Hsw. cbn. by rewrite lookup_insert_eq.
Qed.

(** When every slot of the swap disk is in use, swap_out reports nothing: it
    unmaps the page and frees its frame while the swap space and the supplemental entry
    stay as they were, so the contents of the page are gone. *)
Theorem swap_out_loses σ B pd T f x sp s d :
  swappable σ B pd T f x sp s d →
  free_slot σ.(swaps).(swap_entries) σ.(swaps).(swap_table) = None →
  ∃ σ', swap_out f σ = Ok (tt, σ') ∧ present (entry σ'.(phys).(ram) T f.(fe_upage)) = false ∧
    space σ' (set_live true (delete f.(fe_kpage) (B true)) B) pd T ∧
    σ'.(swaps) = σ.(swaps) ∧ σ'.(sup_entries) = σ.(sup_entries).
Proof.
  intros SWP Hslot.
  destruct (swap_out_run σ B pd T f x sp s d SWP) as (d' & σd & σ1 & Hout & Hkept & _ & Hrest & _ & _ & SP' & Hpr & _).
  rewrite Hslot in Hkept. inversion Hkept; subst. injection Hrest as _ _ _ _ Esup Esw _. by exists σ1.
Qed.

(** ** Witnesses: a disk with one slot *)

Definition swap_machine (m : mem) (d : list (list Z)) (used : bool) : vm :=
  Vm (one_page m 32 72) no_files (Cpu (PD - PHYS_BASE) ∅) {[1 := Thread PD {[UP := 5]} [] [] 0 [] 0]} 1
    [FrameEntry 1 (PT + 4 * 72) KP UP] 1 {[5 := SupPageEntry UP KP true None 0 0 0]}
    (Swap (Some d) [9] {[9 := SwapEntry used 0]} 1) (Consts 0 300000 0).

Definition empty_disk : list (list Z) := replicate 8 (replicate 512 0).

Lemma empty_disk_ok : zlen empty_disk = 8 ∧ Forall is_sector empty_disk.
Proof. split; [done|]. apply Forall_replicate. split; [done|by apply Forall_replicate]. Qed.

Lemma swap_machine_ok m d used : blank m → zlen d = 8 → Forall is_sector d →
  swappable (swap_machine m d used) one_live PD {[32 := PT]} (FrameEntry 1 (PT + 4 * 72) KP UP)
    (Thread PD {[UP := 5]} [] [] 0 [] 0) 5 (SupPageEntry UP KP true None 0 0 0) d.
Proof.
  intros Hb Hl Hs. split; cbn [swap_machine threads using_thread fe_upage fe_kpage proc cr3 swaps swap_sema sup_entries pagedir sup_page_table].
  - apply (one_space m Hb 32 72); [lia|lia|done].
  - apply lookup_singleton_eq.
  - done.
  - by_decide.
  - by_decide.
  - done.
  - split; cbn [swap_disk swap_table swap_entries]; [done|lia|done|..].
    + intros p ->%list_elem_of_singleton. exists (SwapEntry used 0). split; [apply lookup_singleton_eq|]. cbn. lia.
    + intros p q se se' ->%list_elem_of_singleton ->%list_elem_of_singleton. done.
  - done.
  - apply lookup_singleton_eq.
  - apply lookup_singleton_eq.
Qed.

Lemma swap_roundtrip_witness :
  ∃ σ1 σ2 r, swap_out (FrameEntry 1 (PT + 4 * 72) KP UP) (swap_machine (frames PD 6) empty_disk false) = Ok (tt, σ1) ∧
    swap_in 5 true σ1 = Ok (tt, σ2) ∧
    block σ2.(phys).(ram) r 4096 = block (one_page (frames PD 6) 32 72).(ram) KP 4096.
Proof.
  pose proof (one_entry (frames PD 6) frames_blank 32 72 ltac:(lia) ltac:(lia) UP ltac:(by_decide)) as He.
  destruct (swap_roundtrip _ _ _ _ _ _ _ _ _ 9 true
    (swap_machine_ok (frames PD 6) empty_disk false frames_blank (proj1 empty_disk_ok) (proj2 empty_disk_ok)))
    as (σ1 & σ2 & B2 & T2 & r & H1 & _ & H2 & _ & _ & _ & H3 & _).
  - reflexivity.
  - change (present (entry (one_page (frames PD 6) 32 72).(ram) {[32 := PT]} UP) = true). rewrite He. reflexivity.
  - reflexivity.
  - reflexivity.
  - reflexivity.
  - by_decide.
  - reflexivity.
  - discriminate.
  - cbn [swap_machine phys one_page user_pool base used_map bit_cnt con ram_pages]. by_decide.
  - exists σ1, σ2, r. split; [exact H1|split; [exact H2|exact H3]].
Defined.

Lemma swap_out_loses_witness :
  ∃ σ', swap_out (FrameEntry 1 (PT + 4 * 72) KP UP) (swap_machine (frames PD 6) empty_disk true) = Ok (tt, σ') ∧
    σ'.(swaps) = (swap_machine (frames PD 6) empty_disk true).(swaps).
Proof.
  destruct (swap_out_loses _ _ _ _ _ _ _ _ _
    (swap_machine_ok (frames PD 6) empty_disk true frames_blank (proj1 empty_disk_ok) (proj2 empty_disk_ok)))
    as (σ' & H1 & _ & _ & H2 & _); [reflexivity|].
  exists σ'. split; [exact H1|exact H2].
Defined.
