(* ===== verification/Process.v ===== *)
(** * User processes

    userprog/process.c, the page fault handler of userprog/exception.c and the parts of
    threads/thread.c that concern processes, over the virtual memory of Vm and the file
    system of Filesys.  The kernel touches user memory through the page tables of the
    active directory, as the processor does: an access to a page that is not there goes
    to the page fault handler, which may bring the page in or end the process. *)

From S2P Require Import Prelude Vaddr Bytes Bitmap Str Palloc Filesys Vm.
Local Open Scope c_scope.

(** ** State *)

(** [struct thread_info]: what a parent keeps of a child. *)
Record thread_info := ThreadInfo {
  ti_tid : Z;
  load_success : bool;
  exit_status : Z;
  wait_sema : Z;
  exec_sema : Z;
  is_waited : bool;
  is_killed : bool;
}.

(** Lines that the code prints with [printf], and buffers it prints as they are. *)
Inductive output :=
  | Exit_line (name : list Z) (status : Z)
  | Open_failed (name : list Z)
  | Error_loading (name : list Z)
  | Dying (vec_no : Z)
  | Unknown_segment (vec_no cs : Z)
  | Buffer (bytes : list Z).

(** [fds] and [mappings] are the fields [fd] and [mapping] of open files: [file_open]
    makes them zero.  [started] are the threads that [thread_create] has made, with the
    page that holds their command line; [page_fault_cnt] is the counter of exception.c. *)
Record sys := Sys {
  mach : vm;
  infos : gmap Z thread_info;
  children : gmap Z (list Z);
  fds : gmap Z Z;
  mappings : gmap Z Z;
  console : list output;
  holder : option Z;
  keys : list Z;
  next_tid : Z;
  started : list (Z * Z);
  eax : Z;
  page_fault_cnt : Z;
}.

Definition upd_mach f σ := Sys (f σ.(mach)) σ.(infos) σ.(children) σ.(fds) σ.(mappings) σ.(console) σ.(holder) σ.(keys)
  σ.(next_tid) σ.(started) σ.(eax) σ.(page_fault_cnt).
Definition upd_infos f σ := Sys σ.(mach) (f σ.(infos)) σ.(children) σ.(fds) σ.(mappings) σ.(console) σ.(holder) σ.(keys)
  σ.(next_tid) σ.(started) σ.(eax) σ.(page_fault_cnt).
Definition upd_children f σ := Sys σ.(mach) σ.(infos) (f σ.(children)) σ.(fds) σ.(mappings) σ.(console) σ.(holder) σ.(keys)
  σ.(next_tid) σ.(started) σ.(eax) σ.(page_fault_cnt).
Definition upd_fds f σ := Sys σ.(mach) σ.(infos) σ.(children) (f σ.(fds)) σ.(mappings) σ.(console) σ.(holder) σ.(keys)
  σ.(next_tid) σ.(started) σ.(eax) σ.(page_fault_cnt).
Definition upd_console f σ := Sys σ.(mach) σ.(infos) σ.(children) σ.(fds) σ.(mappings) (f σ.(console)) σ.(holder) σ.(keys)
  σ.(next_tid) σ.(started) σ.(eax) σ.(page_fault_cnt).
Definition upd_holder f σ := Sys σ.(mach) σ.(infos) σ.(children) σ.(fds) σ.(mappings) σ.(console) (f σ.(holder)) σ.(keys)
  σ.(next_tid) σ.(started) σ.(eax) σ.(page_fault_cnt).
Definition upd_keys f σ := Sys σ.(mach) σ.(infos) σ.(children) σ.(fds) σ.(mappings) σ.(console) σ.(holder) (f σ.(keys))
  σ.(next_tid) σ.(started) σ.(eax) σ.(page_fault_cnt).
Definition upd_started t n l σ := Sys σ.(mach) σ.(infos) (t σ.(children)) σ.(fds) σ.(mappings) σ.(console) σ.(holder) σ.(keys)
  (n σ.(next_tid)) (l σ.(started)) σ.(eax) σ.(page_fault_cnt).
Definition upd_eax f σ := Sys σ.(mach) σ.(infos) σ.(children) σ.(fds) σ.(mappings) σ.(console) σ.(holder) σ.(keys)
  σ.(next_tid) σ.(started) (f σ.(eax)) σ.(page_fault_cnt).
Definition upd_page_fault_cnt f σ := Sys σ.(mach) σ.(infos) σ.(children) σ.(fds) σ.(mappings) σ.(console) σ.(holder) σ.(keys)
  σ.(next_tid) σ.(started) σ.(eax) (f σ.(page_fault_cnt)).

(** ** Computations that may end the thread

    [None] means that the thread has exited: nothing after it runs. *)

Definition K (A : Type) : Type := M sys (option A).

Definition kret {A} (a : A) : K A := ret (Some a).
Definition kbind {A B} (c : K A) (k : A → K B) : K B :=
  bind c (λ x, match x with Some a => k a | None => ret None end).
Definition ended {A} : K A := ret None.

Declare Scope k_scope.
Delimit Scope k_scope with K.
Notation "x <- c ;; k" := (kbind c (λ x, k)) (at level 100, c at next level, right associativity) : k_scope.
Notation "c ;; k" := (kbind c (λ _, k)) (at level 100, right associativity) : k_scope.

Definition kfail {A} (e : err) : K A := fail e.
Definition kassert (b : bool) : K unit := if b then kret tt else kfail AssertFail.
Definition kmodify (f : sys → sys) : K unit := λ σ, Ok (Some tt, f σ).
Definition kreads {A} (f : sys → A) : K A := λ σ, Ok (Some (f σ), σ).

Definition onvm {A} (c : M vm A) : K A := λ σ,
  let* r := c σ.(mach) in Ok (Some r.1, upd_mach (λ _, r.2) σ).
Definition onfs {A} (c : M fs A) : K A := onvm (on_fs c).

(** A loop that runs at most [p] rounds. *)
Fixpoint rounds {A B} (p : positive) (body : A → K (A + B)) (a : A) : K (A + B) :=
  match p with
  | xH => body a
  | xO p => kbind (rounds p body a) (λ r, match r with inl a => rounds p body a | inr b => kret (inr b) end)
  | xI p => kbind (body a) (λ r, match r with
              | inl a => kbind (rounds p body a) (λ r, match r with inl a => rounds p body a | inr b => kret (inr b) end)
              | inr b => kret (inr b) end)
  end.

Local Open Scope k_scope.

Definition repeat_until {A B} (p : positive) (body : A → K (A + B)) (a : A) : K B :=
  r <- rounds p body a ;;
  match r with inl _ => kfail OutOfFuel | inr b => kret b end.

Definition print (o : output) : K unit := kmodify (upd_console (λ l, l ++ [o])).
Definition cur : K Z := kreads (λ σ, σ.(mach).(current)).
Definition cur_thread : K thread := t <- cur ;; onvm (thread_at t).
Definition info_at (p : Z) : K thread_info := λ σ,
  match σ.(infos) !! p with Some x => Ok (Some x, σ) | None => Err Fault end.
Definition set_info (p : Z) (x : thread_info) : K unit := kmodify (upd_infos <[p := x]>).

Fixpoint each {A} (l : list A) (f : A → K unit) : K unit :=
  match l with [] => kret tt | a :: l => f a ;; each l f end.

(** The fields of the thread that change. *)
Definition with_pagedir (pd : Z) (x : thread) : thread :=
  Thread pd x.(sup_page_table) x.(mapping_list) x.(file_list) x.(self_file) x.(exec_name) x.(info).
Definition with_mapping_list (l : list Z) (x : thread) : thread :=
  Thread x.(pagedir) x.(sup_page_table) l x.(file_list) x.(self_file) x.(exec_name) x.(info).
Definition with_file_list (l : list Z) (x : thread) : thread :=
  Thread x.(pagedir) x.(sup_page_table) x.(mapping_list) l x.(self_file) x.(exec_name) x.(info).
Definition with_self_file (f : Z) (x : thread) : thread :=
  Thread x.(pagedir) x.(sup_page_table) x.(mapping_list) x.(file_list) f x.(exec_name) x.(info).
Definition with_exec_name (s : list Z) (x : thread) : thread :=
  Thread x.(pagedir) x.(sup_page_table) x.(mapping_list) x.(file_list) x.(self_file) s x.(info).

Definition upd_cur (f : thread → thread) : K unit :=
  t <- cur ;; x <- onvm (thread_at t) ;; onvm (set_thread t (f x)).

(** ** Ending a process *)

(** The pages of a mapped file: dirty ones are written back, then all of them go.  The
    order in which the hash table lists the entries is that of the map.  The loop looks at
    the head of the first bucket as if it were an entry: what it takes for [file_address]
    there is a link of the third bucket, never a file. *)
Definition unmap_file (f : Z) : K unit :=
  x <- cur_thread ;;
  σ <- kreads (λ σ, σ.(mach).(sup_entries)) ;;
  let sptes := filter (λ p, file_address <$> σ !! p = Some f) (map_to_list x.(sup_page_table)).*2 in
  each sptes (λ p,
    s <- onvm (sup_at p) ;;
    dirty <- onvm (pagedir_is_dirty x.(pagedir) s.(sp_upage)) ;;
    if dirty then
      data <- onvm (read_ram s.(sp_kpage) PGSIZE) ;;
      onfs (file_write_at f data 4096 s.(file_pos)) ;;
      kret tt
    else kret tt) ;;
  each sptes (λ p,
    s <- onvm (sup_at p) ;;
    onvm (frame_table_free s.(sp_kpage)) ;;
    onvm (sup_page_entry_delete p)) ;;
  upd_cur (λ x, with_mapping_list (filter (λ g, g ≠ f) x.(mapping_list)) x).

Definition process_exit : K unit :=
  curr <- cur_thread ;;
  let pd := curr.(pagedir) in
  if pd =? NULL then kret tt else
  each curr.(mapping_list) unmap_file ;;
  each curr.(file_list) (λ f, onfs (file_close f)) ;;
  upd_cur (with_file_list []) ;;
  upd_cur (with_pagedir NULL) ;;
  onvm (pagedir_activate NULL) ;;
  onvm (pagedir_destroy pd).

(** The rest of [thread_exit] is the scheduler's: the thread never runs again. *)
Definition thread_exit {A} : K A :=
  process_exit ;;
  x <- cur_thread ;;
  onfs (file_close x.(self_file)) ;;
  i <- info_at x.(info) ;;
  set_info x.(info) (ThreadInfo i.(ti_tid) i.(load_success) i.(exit_status) (i.(wait_sema) + 1) (i.(exec_sema) + 1)
    i.(is_waited) i.(is_killed)) ;;
  ended.

(** The end of a process that did something wrong. *)
Definition die {A} : K A :=
  x <- cur_thread ;;
  print (Exit_line x.(exec_name) (-1)) ;;
  i <- info_at x.(info) ;;
  set_info x.(info) (ThreadInfo i.(ti_tid) i.(load_success) (-1) i.(wait_sema) i.(exec_sema) i.(is_waited) true) ;;
  thread_exit.

(** ** userprog/exception.c *)

Definition PF_P : Z := 1.
Definition PF_W : Z := 2.
Definition PF_U : Z := 4.
Definition SEL_KCSEG : Z := 8.
Definition SEL_UCSEG : Z := 27.

Definition kill {A} (cs vec_no : Z) : K A :=
  if cs =? SEL_UCSEG then print (Dying vec_no) ;; thread_exit
  else if cs =? SEL_KCSEG then kfail Panic
  else print (Unknown_segment vec_no cs) ;; thread_exit.

Definition set_kpage (p kpage : Z) : M vm unit := (
  s <- sup_at p ;;
  set_sup p (SupPageEntry s.(sp_upage) kpage s.(sp_valid) s.(sp_case) s.(swap_address) s.(file_address) s.(file_pos)))%C.

Definition page_fault (esp fault_addr error_code : Z) : K unit :=
  kmodify (upd_page_fault_cnt (λ n, s64 (n + 1))) ;;
  let not_present := Z.land error_code PF_P =? 0 in
  let write := negb (Z.land error_code PF_W =? 0) in
  t <- cur ;;
  sup_pte <- onvm (sup_page_table_lookup t (pg_round_down fault_addr)) ;;
  let is_stack_growth := (u32 (esp - 32) <=? fault_addr) && (u32 (PHYS_BASE - 8388608) <=? fault_addr)
                         && (fault_addr <? PHYS_BASE) && (sup_pte =? NULL) in
  let fault_addr := pg_round_down fault_addr in
  x <- cur_thread ;;
  if is_stack_growth then
    kpage <- onvm (frame_table_allocator PAL_USER) ;;
    onvm (sup_page_entry_create fault_addr kpage NULL) ;;
    onvm (pagedir_set_page x.(pagedir) fault_addr kpage write) ;;
    kret tt
  else if is_kernel_vaddr fault_addr || negb not_present || (sup_pte =? NULL) then die
  else
    s <- onvm (sup_at sup_pte) ;;
    if s.(file_address) =? NULL then onvm (swap_in sup_pte not_present)
    else
      kpage <- onvm (frame_table_allocator (Z.lor PAL_USER PAL_ZERO)) ;;
      onvm (pagedir_set_page x.(pagedir) s.(sp_upage) kpage not_present) ;;
      onvm (set_kpage sup_pte kpage) ;;
      data <- onfs (file_read_at s.(file_address) PGSIZE s.(file_pos)) ;;
      onvm (write_ram kpage data).

(** ** User memory *)

(** The processor's walk through the active directory in kernel mode, which sets the
    accessed and dirty bits: the kernel address of the byte, or nothing. *)
Definition walk (v : Z) (write : bool) : M vm (option Z) := (
  p <- reads proc ;;
  pd <- pure (ptov p.(cr3)) ;;
  pde <- load_word (pd + 4 * pd_no v) ;;
  if Z.land pde PTE_P =? 0 then ret None else
  pt <- pure (pde_get_pt pde) ;;
  let a := pt + 4 * pt_no v in
  pte <- load_word a ;;
  if (Z.land pte PTE_P =? 0) || (write && (Z.land pte PTE_W =? 0)) then ret None else
  store_word a (Z.lor pte (if write then Z.lor PTE_A PTE_D else PTE_A)) ;;
  page <- pure (pte_get_page pte) ;;
  ret (Some (page + pg_ofs v)))%C.

(** Whether there is a page at all decides the error code of the fault. *)
Definition mapped_page (v : Z) : M vm bool := (
  p <- reads proc ;;
  pd <- pure (ptov p.(cr3)) ;;
  pte <- lookup_page pd v false ;;
  if pte =? NULL then ret false else
  e <- load_word pte ;;
  ret (negb (Z.land e PTE_P =? 0)))%C.

(** A fault in kernel mode pushes no stack pointer: [esp] is what happens to be there. *)
Fixpoint access (n : nat) (v : Z) (write : bool) : K Z :=
  match n with
  | O => kfail OutOfFuel
  | S n =>
      a <- onvm (walk v write) ;;
      match a with
      | Some a => kret a
      | None =>
          c <- kreads (λ σ, σ.(mach).(con)) ;;
          p <- onvm (mapped_page v) ;;
          page_fault c.(junk) v (Z.lor (if p then PF_P else 0) (if write then PF_W else 0)) ;;
          access n v write
      end
  end.

Definition ld_user (v : Z) : K Z := a <- access 3 v false ;; onvm (on_phys (on_ram (ldb a))).
Definition st_user (v b : Z) : K unit := a <- access 3 v true ;; onvm (on_phys (on_ram (stb a b))).

Fixpoint ld_bytes (v : Z) (n : nat) : K (list Z) :=
  match n with O => kret [] | S n => b <- ld_user v ;; l <- ld_bytes (u32 (v + 1)) n ;; kret (b :: l) end.
Fixpoint st_bytes (v : Z) (bs : list Z) : K unit :=
  match bs with [] => kret tt | b :: bs => st_user v b ;; st_bytes (u32 (v + 1)) bs end.

Definition ld_word (v : Z) : K Z :=
  bs <- ld_bytes v 4 ;;
  match bs with [a; b; c; d] => kret (of_le32 a b c d) | _ => kfail Fault end.

(** The string at [v]: it ends before the address space does. *)
Definition ld_string (v : Z) : K (list Z) :=
  repeat_until 4294967296 (λ '(v, s),
    b <- ld_user v ;;
    kret (if b =? 0 then inr s else inl (u32 (v + 1), s ++ [b]))) (v, []).

(** ** userprog/process.c: executables *)

Definition MAX_CMD_SIZE : Z := 256.

(** The little-endian number in [n] bytes at [ofs]. *)
Definition le_at (b : list Z) (ofs n : nat) : Z := foldr (λ x acc, x + 256 * acc) 0 (take n (drop ofs b)).

Record Elf32_Ehdr := Ehdr {
  e_ident : list Z;
  e_type : Z; e_machine : Z; e_version : Z; e_entry : Z; e_phoff : Z; e_shoff : Z; e_flags : Z;
  e_ehsize : Z; e_phentsize : Z; e_phnum : Z; e_shentsize : Z; e_shnum : Z; e_shstrndx : Z;
}.

Record Elf32_Phdr := Phdr {
  p_type : Z; p_offset : Z; p_vaddr : Z; p_paddr : Z; p_filesz : Z; p_memsz : Z; p_flags : Z; p_align : Z;
}.

Definition ehdr_of (b : list Z) : Elf32_Ehdr :=
  Ehdr (take 16 b) (le_at b 16 2) (le_at b 18 2) (le_at b 20 4) (le_at b 24 4) (le_at b 28 4) (le_at b 32 4) (le_at b 36 4)
    (le_at b 40 2) (le_at b 42 2) (le_at b 44 2) (le_at b 46 2) (le_at b 48 2) (le_at b 50 2).

Definition phdr_of (b : list Z) : Elf32_Phdr :=
  Phdr (le_at b 0 4) (le_at b 4 4) (le_at b 8 4) (le_at b 12 4) (le_at b 16 4) (le_at b 20 4) (le_at b 24 4) (le_at b 28 4).

Definition PT_NULL : Z := 0.
Definition PT_LOAD : Z := 1.
Definition PT_DYNAMIC : Z := 2.
Definition PT_INTERP : Z := 3.
Definition PT_NOTE : Z := 4.
Definition PT_SHLIB : Z := 5.
Definition PT_PHDR : Z := 6.
Definition PT_STACK : Z := 1685382481.
(** [PF_W] of the program headers, not of the page faults. *)
Definition PF_W_seg : Z := 2.

Definition validate_segment (phdr : Elf32_Phdr) (file_length : Z) : bool :=
  if negb (Z.land phdr.(p_offset) PGMASK =? Z.land phdr.(p_vaddr) PGMASK) then false
  else if u32 file_length <? phdr.(p_offset) then false
  else if phdr.(p_memsz) <? phdr.(p_filesz) then false
  else if phdr.(p_memsz) =? 0 then false
  else if negb (is_user_vaddr phdr.(p_vaddr)) then false
  else if negb (is_user_vaddr (u32 (phdr.(p_vaddr) + phdr.(p_memsz)))) then false
  else if u32 (phdr.(p_vaddr) + phdr.(p_memsz)) <? phdr.(p_vaddr) then false
  else if phdr.(p_vaddr) <? PGSIZE then false
  else true.

(** What [load] makes of a loadable segment: the arguments of [load_segment]. *)
Definition segment_args (phdr : Elf32_Phdr) : Z * Z * Z * Z * bool :=
  let writable := negb (Z.land phdr.(p_flags) PF_W_seg =? 0) in
  let file_page := Z.land phdr.(p_offset) (not32 PGMASK) in
  let mem_page := Z.land phdr.(p_vaddr) (not32 PGMASK) in
  let page_offset := Z.land phdr.(p_vaddr) PGMASK in
  if 0 <? phdr.(p_filesz) then
    let read_bytes := u32 (page_offset + phdr.(p_filesz)) in
    let zero_bytes := u32 (ROUND_UP (u32 (page_offset + phdr.(p_memsz))) PGSIZE - read_bytes) in
    (file_page, mem_page, read_bytes, zero_bytes, writable)
  else
    (file_page, mem_page, 0, ROUND_UP (u32 (page_offset + phdr.(p_memsz))) PGSIZE, writable).

Definition cur_pagedir : M vm Z := (t <- reads current ;; x <- thread_at t ;; ret x.(pagedir))%C.

Definition install_page (upage kpage : Z) (writable : bool) : M vm bool := (
  pd <- cur_pagedir ;;
  p <- pagedir_get_page pd upage ;;
  if p =? NULL then pagedir_set_page pd upage kpage writable else ret false)%C.

(** One page of a segment; the state of the loop is the rest. *)
Definition load_page (file : Z) (writable : bool) : Z * Z * Z → M vm (Z * Z * Z + bool) := (
  λ '(upage, read_bytes, zero_bytes),
    if negb ((0 <? read_bytes) || (0 <? zero_bytes)) then ret (inr true) else
    let page_read_bytes := if read_bytes <? PGSIZE then read_bytes else PGSIZE in
    let page_zero_bytes := PGSIZE - page_read_bytes in
    kpage <- frame_table_allocator PAL_USER ;;
    if kpage =? NULL then ret (inr false) else
    data <- on_fs (file_read file page_read_bytes) ;;
    write_ram kpage data ;;
    if negb (zlen data =? page_read_bytes) then
      frame_table_free kpage ;; ret (inr false)
    else
      on_phys (on_ram (memset (u32 (kpage + page_read_bytes)) 0 page_zero_bytes)) ;;
      ok <- install_page upage kpage writable ;;
      if negb ok then
        frame_table_free kpage ;; ret (inr false)
      else
        sup_page_entry_create upage kpage NULL ;;
        ret (inl (u32 (upage + PGSIZE), u32 (read_bytes - page_read_bytes), u32 (zero_bytes - page_zero_bytes))))%C.

Definition load_segment (file ofs upage read_bytes zero_bytes : Z) (writable : bool) : M vm bool := (
  assert (u32 (read_bytes + zero_bytes) mod PGSIZE =? 0) ;;
  assert (pg_ofs upage =? 0) ;;
  assert (Z.rem ofs PGSIZE =? 0) ;;
  on_fs (file_seek file ofs) ;;
  iter (S (Z.to_nat ((read_bytes + zero_bytes) / PGSIZE))) (load_page file writable) (upage, read_bytes, zero_bytes))%C.

(** ** The initial stack *)

Definition SPACE : Z := 32.

(** Writes the strings from the last to the first, without their terminators. *)
Fixpoint push_strings (args : list (list Z)) (new_esp written_bytes : Z) (addrs : list Z) : K (Z * Z * list Z) :=
  match args with
  | [] => kret (new_esp, written_bytes, addrs)
  | a :: args =>
      let new_esp := u32 (new_esp - (zlen a + 1)) in
      st_bytes new_esp a ;;
      push_strings args new_esp (u32 (written_bytes + (zlen a + 1))) (new_esp :: addrs)
  end.

Fixpoint push_words (ws : list Z) (new_esp : Z) : K Z :=
  match ws with
  | [] => kret new_esp
  | w :: ws => st_bytes (u32 (new_esp - 4)) (le32 w) ;; push_words ws (u32 (new_esp - 4))
  end.

(** The loop over [strtok_r] finds the pieces between the spaces, in order. *)
Definition push_argument (file_name : list Z) (esp : Z) : K Z :=
  let arguments := pieces [SPACE] [] file_name in
  let argc := zlen arguments in
  if 128 <? argc then kfail Fault else
  r <- push_strings (reverse arguments) esp 0 [] ;;
  let '(new_esp, written_bytes, addrs) := r in
  let num_padding := (4 - written_bytes mod 4) mod 4 in
  let new_esp := u32 (new_esp - (num_padding + 4)) in
  new_esp <- push_words (reverse addrs) new_esp ;;
  new_esp <- push_words [new_esp] new_esp ;;
  new_esp <- push_words [argc] new_esp ;;
  kret (u32 (new_esp - 4)).

Definition setup_stack_arg (file_name : list Z) : K (option Z) :=
  kpage <- onvm (frame_table_allocator (Z.lor PAL_USER PAL_ZERO)) ;;
  if kpage =? NULL then kret None else
  success <- onvm (install_page (PHYS_BASE - PGSIZE) kpage true) ;;
  if success then
    onvm (sup_page_entry_create (PHYS_BASE - PGSIZE) kpage NULL) ;;
    esp <- push_argument file_name PHYS_BASE ;;
    kret (Some esp)
  else
    onvm (frame_table_free kpage) ;;
    kret None.

Definition grow_stack (esp : Z) : M vm bool := (
  kpage <- frame_table_allocator (Z.lor PAL_USER PAL_ZERO) ;;
  if kpage =? NULL then ret false else
  success <- install_page (u32 (esp - PGSIZE)) kpage true ;;
  (if success then sup_page_entry_create (u32 (esp - PGSIZE)) kpage NULL ;; ret tt else frame_table_free kpage) ;;
  ret success)%C.

(** ** Loading *)

(** [strlcpy (dst, src, size)] of a whole string into a buffer of [size] bytes. *)
Definition truncated (s : list Z) (size : Z) : list Z := take (Z.to_nat (size - 1)) s.

Definition process_activate : M vm unit := (pd <- cur_pagedir ;; pagedir_activate pd)%C.

Definition ELF_MAGIC : list Z := [127; 69; 76; 70; 1; 1; 1].

Definition ehdr_ok (b : list Z) : bool :=
  let ehdr := ehdr_of b in
  (zlen b =? 52) && bool_decide (take 7 ehdr.(e_ident) = ELF_MAGIC) && (ehdr.(e_type) =? 2) && (ehdr.(e_machine) =? 3)
  && (ehdr.(e_version) =? 1) && (ehdr.(e_phentsize) =? 32) && (ehdr.(e_phnum) <=? 1024).

(** One program header: whether loading goes on. *)
Definition load_header (file : Z) (phdr : Elf32_Phdr) : M vm bool := (
  if (phdr.(p_type) =? PT_DYNAMIC) || (phdr.(p_type) =? PT_INTERP) || (phdr.(p_type) =? PT_SHLIB) then ret false
  else if phdr.(p_type) =? PT_LOAD then
    len <- on_fs (file_length file) ;;
    if validate_segment phdr len then
      let '(file_page, mem_page, read_bytes, zero_bytes, writable) := segment_args phdr in
      load_segment file (s32 file_page) mem_page read_bytes zero_bytes writable
    else ret false
  else ret true)%C.

Fixpoint load_headers (n : nat) (file file_ofs : Z) : M vm bool := (
  match n with
  | O => ret true
  | S n =>
      len <- on_fs (file_length file) ;;
      if (file_ofs <? 0) || (len <? file_ofs) then ret false else
      on_fs (file_seek file file_ofs) ;;
      b <- on_fs (file_read file 32) ;;
      if negb (zlen b =? 32) then ret false else
      ok <- load_header file (phdr_of b) ;;
      if ok then load_headers n file (s32 (file_ofs + 32)) else ret false
  end)%C.

(** The entry point and the stack pointer, or nothing.  [strlen] asserts that there is a
    first word; the name is copied into the 32 bytes of [exec_name] whatever its length. *)
Definition load (file_name : list Z) : K (option (Z * Z)) :=
  onvm new_object ;;
  onvm new_object ;;
  let fn_copy := truncated file_name MAX_CMD_SIZE in
  pd <- onvm pagedir_create ;;
  upd_cur (with_pagedir pd) ;;
  if pd =? NULL then kret None else
  onvm process_activate ;;
  match pieces [SPACE] [] fn_copy with
  | [] => kfail AssertFail
  | token :: _ =>
      if 32 <=? zlen token then kfail Fault else
      upd_cur (with_exec_name token) ;;
      file <- onfs (filesys_open token) ;;
      if file =? NULL then print (Open_failed file_name) ;; kret None else
      b <- onfs (file_read file 52) ;;
      if negb (ehdr_ok b) then print (Error_loading file_name) ;; kret None else
      upd_cur (with_self_file file) ;;
      onfs (file_deny_write file) ;;
      let ehdr := ehdr_of b in
      ok <- onvm (load_headers (Z.to_nat ehdr.(e_phnum)) file (s32 ehdr.(e_phoff))) ;;
      if negb ok then kret None else
      esp <- setup_stack_arg fn_copy ;;
      match esp with
      | None => kret None
      | Some esp => kret (Some (ehdr.(e_entry), esp))
      end
  end.

(** The registers of the new process, if the program was loaded. *)
Definition start_process (file_name : Z) : K (Z * Z) :=
  s <- onvm (on_phys (on_ram (strlen file_name))) ;;
  name <- onvm (read_ram file_name s) ;;
  r <- load name ;;
  onvm (on_phys (palloc_free_page file_name)) ;;
  match r with
  | None =>
      x <- cur_thread ;;
      i <- info_at x.(info) ;;
      set_info x.(info) (ThreadInfo i.(ti_tid) false i.(exit_status) i.(wait_sema) i.(exec_sema) i.(is_waited) i.(is_killed)) ;;
      thread_exit
  | Some r => kret r
  end.

(** ** Parents and children *)

(** The part of [thread_create] that concerns processes. *)
Definition thread_create (aux : Z) : K Z :=
  t <- onvm (on_phys (palloc_get_page PAL_ZERO)) ;;
  if t =? NULL then kret (-1) else
  tid <- kreads next_tid ;;
  me <- cur ;;
  t_info <- onvm new_object ;;
  c <- kreads (λ σ, σ.(mach).(con)) ;;
  set_info t_info (ThreadInfo tid true c.(junk) 0 0 false false) ;;
  onvm (set_thread t (Thread NULL ∅ [] [] NULL [] t_info)) ;;
  kmodify (upd_started (λ m, <[me := default [] (m !! me) ++ [t_info]]> m) (λ n, n + 1) (λ l, l ++ [(t, aux)])) ;;
  kret tid.

Definition process_execute (file_name : Z) : K Z :=
  fn_copy <- onvm (on_phys (palloc_get_page 0)) ;;
  if fn_copy =? NULL then kret (-1) else
  name <- ld_string file_name ;;
  onvm (write_ram fn_copy (truncated name PGSIZE ++ [0])) ;;
  tid <- thread_create fn_copy ;;
  (if tid =? -1 then onvm (on_phys (palloc_free_page fn_copy)) else kret tt) ;;
  kret tid.

(** The first child information with the identifier, or a null pointer. *)
Fixpoint find_info (l : list Z) (tid : Z) : K Z :=
  match l with
  | [] => kret NULL
  | p :: l => i <- info_at p ;; if i.(ti_tid) =? tid then kret p else find_info l tid
  end.

Definition find_child_info_by_tid (tid : Z) : K Z :=
  me <- cur ;;
  l <- kreads (λ σ, default [] (σ.(children) !! me)) ;;
  find_info l tid.

(** [sema_down] on [wait_sema]: the caller waits while the child runs. *)
Definition down_wait (p : Z) : K unit :=
  i <- info_at p ;;
  if 0 <? i.(wait_sema) then
    set_info p (ThreadInfo i.(ti_tid) i.(load_success) i.(exit_status) (i.(wait_sema) - 1) i.(exec_sema) i.(is_waited) i.(is_killed))
  else kfail Deadlock.

Definition process_wait (child_tid : Z) : K Z :=
  p <- find_child_info_by_tid child_tid ;;
  if p =? NULL then kret (-1) else
  me <- cur ;;
  kmodify (upd_children (λ m, <[me := filter (λ q, q ≠ p) (default [] (m !! me))]> m)) ;;
  i <- info_at p ;;
  if i.(is_waited) || i.(is_killed) then kret (-1) else
  set_info p (ThreadInfo i.(ti_tid) i.(load_success) i.(exit_status) i.(wait_sema) i.(exec_sema) true i.(is_killed)) ;;
  down_wait p ;;
  i <- info_at p ;;
  kmodify (upd_infos (delete p)) ;;
  kret i.(exit_status).
