(* ===== verification/Syscall.v ===== *)
(** * System calls

    userprog/syscall.c: every handler, with the global file system lock, the descriptors
    of open files and the memory mappings.  [eax] is the register in which the result
    goes back to the process. *)

From S2P Require Import Prelude Vaddr Bytes Bitmap Str Palloc Filesys Vm Process.
Local Open Scope k_scope.

Definition set_eax (v : Z) : K unit := kmodify (upd_eax (λ _, u32 v)).

(** The global lock: whoever has it may not ask for it again, others wait. *)
Definition lock_acquire : K unit :=
  h <- kreads holder ;;
  me <- cur ;;
  match h with
  | None => kmodify (upd_holder (λ _, Some me))
  | Some t => if t =? me then kfail AssertFail else kfail Deadlock
  end.
Definition lock_release : K unit :=
  h <- kreads holder ;;
  me <- cur ;;
  kassert (bool_decide (h = Some me)) ;;
  kmodify (upd_holder (λ _, None)).

(** ** Descriptors *)

Definition fd_of (f : Z) : K Z := kreads (λ σ, default 0 (σ.(fds) !! f)).

(** One more than the descriptor at the end of the list. *)
Definition give_file_descriptor (file_pointer : Z) : K Z :=
  curr <- cur_thread ;;
  fd <- match last curr.(file_list) with
        | None => kret 2
        | Some f => fd <- fd_of f ;; kret (s32 (fd + 1))
        end ;;
  kmodify (upd_fds <[file_pointer := fd]>) ;;
  upd_cur (λ x, with_file_list (x.(file_list) ++ [file_pointer]) x) ;;
  kret fd.

Fixpoint find_fd (l : list Z) (fd : Z) : K Z :=
  match l with
  | [] => kret NULL
  | f :: l => g <- fd_of f ;; if g =? fd then kret f else find_fd l fd
  end.

Definition find_file_by_fd (fd : Z) : K Z := curr <- cur_thread ;; find_fd curr.(file_list) fd.

(** ** Checking pointers *)

Definition is_invalid (addr : Z) : K bool :=
  if (addr =? NULL) || is_kernel_vaddr addr then kret true else
  x <- cur_thread ;;
  p <- onvm (pagedir_get_page x.(pagedir) addr) ;;
  kret (p =? NULL).

Definition handle_invalid {A} : K A := set_eax (-1) ;; die.

(** [if (is_invalid (a) || ...) handle_invalid (f);] *)
Fixpoint check (addrs : list Z) : K unit :=
  match addrs with
  | [] => kret tt
  | a :: addrs => b <- is_invalid a ;; if b then handle_invalid else check addrs
  end.

(** ** Handlers *)

Definition handle_exit (esp : Z) : K unit :=
  b <- is_invalid (u32 (esp + 4)) ;;
  if b then handle_invalid else
  status <- ld_word (u32 (esp + 4)) ;;
  x <- cur_thread ;;
  i <- info_at x.(info) ;;
  set_info x.(info) (ThreadInfo i.(ti_tid) i.(load_success) (s32 status) i.(wait_sema) i.(exec_sema) i.(is_waited) i.(is_killed)) ;;
  print (Exit_line x.(exec_name) (s32 status)) ;;
  thread_exit.

(** [file_write] takes at most what fits before the end of the file from the buffer. *)
Definition write_from_user (f buffer size : Z) : K Z :=
  x <- onfs (file_at f) ;;
  len <- onfs (file_length f) ;;
  i <- onfs (inode_at x.(finode)) ;;
  let n := if negb (i.(deny_write_cnt) =? 0) then 0
           else Z.min size (Z.max 0 (len - x.(fpos))) in
  data <- ld_bytes buffer (Z.to_nat n) ;;
  onfs (file_write f data size).

Definition handle_write (esp : Z) : K unit :=
  size <- ld_word (u32 (esp + 12)) ;;
  buffer <- ld_word (u32 (esp + 8)) ;;
  fd <- ld_word (u32 (esp + 4)) ;;
  b <- is_invalid buffer ;;
  (if b then handle_invalid else kret tt) ;;
  if s32 fd =? 1 then
    data <- ld_bytes buffer (Z.to_nat size) ;;
    print (Buffer data)
  else if 1 <? s32 fd then
    found_file <- find_file_by_fd (s32 fd) ;;
    lock_acquire ;;
    (if found_file =? NULL then set_eax (-1) else
     x <- onfs (file_at found_file) ;;
     if x.(deny_write) then set_eax (-1)
     else
       result <- write_from_user found_file buffer (s32 size) ;;
       set_eax result) ;;
    lock_release
  else set_eax (-1).

Definition handle_halt : K unit := thread_exit.

Definition handle_create (esp : Z) : K unit :=
  check [u32 (esp + 4); u32 (esp + 8)] ;;
  file <- ld_word (u32 (esp + 4)) ;;
  initial_size <- ld_word (u32 (esp + 8)) ;;
  lock_acquire ;;
  b <- is_invalid file ;;
  (if b then handle_invalid else
   name <- ld_string file ;;
   if zlen name =? 0 then handle_invalid
   else if 14 <? zlen name then set_eax 0
   else
     f <- onfs (filesys_open name) ;;
     if negb (f =? NULL) then set_eax 0
     else
       c <- kreads (λ σ, σ.(mach).(con)) ;;
       result <- onfs (filesys_create (replicate 20 c.(junk)) name (s32 initial_size)) ;;
       set_eax (Z.b2z result)) ;;
  lock_release.

Definition handle_open (esp : Z) : K unit :=
  b <- is_invalid (u32 (esp + 4)) ;;
  if b then handle_invalid else
  file <- ld_word (u32 (esp + 4)) ;;
  b <- is_invalid file ;;
  if b then handle_invalid else
  lock_acquire ;;
  name <- ld_string file ;;
  open_file <- onfs (filesys_open name) ;;
  (if negb (open_file =? NULL) then
     result <- give_file_descriptor open_file ;;
     set_eax result
   else set_eax (-1)) ;;
  lock_release.

Definition handle_remove (esp : Z) : K unit :=
  file_name <- ld_word (u32 (esp + 4)) ;;
  lock_acquire ;;
  name <- ld_string file_name ;;
  onfs (filesys_remove name) ;;
  lock_release.

Definition handle_close (esp : Z) : K unit :=
  fd <- ld_word (u32 (esp + 4)) ;;
  f <- find_file_by_fd (s32 fd) ;;
  if negb (f =? NULL) then
    upd_cur (λ x, with_file_list (filter (λ g, g ≠ f) x.(file_list)) x) ;;
    onfs (file_close f)
  else
    x <- cur_thread ;;
    i <- info_at x.(info) ;;
    set_info x.(info) (ThreadInfo i.(ti_tid) i.(load_success) (-1) i.(wait_sema) i.(exec_sema) i.(is_waited) i.(is_killed)) ;;
    print (Exit_line x.(exec_name) (-1)) ;;
    thread_exit.

(** [input_getc] waits for a key. *)
Definition input_getc : K Z :=
  l <- kreads keys ;;
  match l with
  | [] => kfail Deadlock
  | k :: l => kmodify (upd_keys (λ _, l)) ;; kret k
  end.

Fixpoint read_keys (buffer : Z) (n : nat) : K unit :=
  match n with
  | O => kret tt
  | S n => k <- input_getc ;; st_user buffer k ;; read_keys (u32 (buffer + 1)) n
  end.

Definition handle_read (esp : Z) : K unit :=
  fd <- ld_word (u32 (esp + 4)) ;;
  buffer <- ld_word (u32 (esp + 8)) ;;
  size <- ld_word (u32 (esp + 12)) ;;
  check [u32 (esp + 4); u32 (esp + 8); u32 (esp + 12)] ;;
  lock_acquire ;;
  (if s32 fd =? 0 then
     read_keys buffer (Z.to_nat size) ;;
     set_eax size
   else if 1 <? s32 fd then
     read_file <- find_file_by_fd (s32 fd) ;;
     if read_file =? NULL then set_eax (-1)
     else
       data <- onfs (file_read read_file (s32 size)) ;;
       st_bytes buffer data ;;
       set_eax (zlen data)
   else set_eax (-1)) ;;
  lock_release.

Definition handle_filesize (esp : Z) : K unit :=
  fd <- ld_word (u32 (esp + 4)) ;;
  if 1 <? s32 fd then
    found_file <- find_file_by_fd (s32 fd) ;;
    if found_file =? NULL then set_eax (-1)
    else
      result <- onfs (file_length found_file) ;;
      set_eax result
  else set_eax (-1).

(** [sema_down] on [exec_sema]: the child lets the caller go on when it exits. *)
Definition down_exec (p : Z) : K unit :=
  i <- info_at p ;;
  if 0 <? i.(exec_sema) then
    set_info p (ThreadInfo i.(ti_tid) i.(load_success) i.(exit_status) i.(wait_sema) (i.(exec_sema) - 1) i.(is_waited) i.(is_killed))
  else kfail Deadlock.

(** What follows the creation of the child. *)
Definition exec_result (result : Z) : K Z :=
  child_info <- find_child_info_by_tid result ;;
  if child_info =? NULL then kret result else
  down_exec child_info ;;
  i <- info_at child_info ;;
  kret (if i.(load_success) then result else -1).

Definition handle_exec (esp : Z) : K unit :=
  check [u32 (esp + 4)] ;;
  cmd_line <- ld_word (u32 (esp + 4)) ;;
  check [cmd_line] ;;
  result <- process_execute cmd_line ;;
  result <- exec_result result ;;
  set_eax result.

Definition handle_wait (esp : Z) : K unit :=
  pid <- ld_word (u32 (esp + 4)) ;;
  result <- process_wait (s32 pid) ;;
  set_eax result.

Definition handle_seek (esp : Z) : K unit :=
  fd <- ld_word (u32 (esp + 4)) ;;
  position <- ld_word (u32 (esp + 8)) ;;
  file <- find_file_by_fd (s32 fd) ;;
  onfs (file_seek file (s32 position)).

Definition handle_tell (esp : Z) : K unit :=
  fd <- ld_word (u32 (esp + 4)) ;;
  file <- find_file_by_fd (s32 fd) ;;
  result <- onfs (file_tell file) ;;
  set_eax result.

(** ** Memory mapped files *)

Definition set_file_pos (p pos : Z) : M vm unit := (
  s <- sup_at p ;;
  set_sup p (SupPageEntry s.(sp_upage) s.(sp_kpage) s.(sp_valid) s.(sp_case) s.(swap_address) s.(file_address) pos))%C.

(** Whether a page of the region has an entry already. *)
Fixpoint any_mapped (t : Z) (upages : list Z) : M vm bool := (
  match upages with
  | [] => ret false
  | u :: upages =>
      p <- sup_page_table_lookup t u ;;
      if negb (p =? NULL) then ret true else any_mapped t upages
  end)%C.

Fixpoint map_pages (file : Z) (pages : list (Z * Z)) : M vm unit := (
  match pages with
  | [] => ret tt
  | (upage, pos) :: pages =>
      p <- sup_page_entry_create upage NULL file ;;
      set_file_pos p pos ;;
      map_pages file pages
  end)%C.

(** The user pages of the region with their positions in the file: the whole pages and
    the rest of the file. *)
Definition region (addr filesize : Z) : list (Z * Z) :=
  let page_num := Z.quot filesize PGSIZE in
  let page_remainder := filesize - PGSIZE * page_num in
  (λ i, (u32 (addr + PGSIZE * i), PGSIZE * i)) <$> seqZ 0 (if 0 <? page_remainder then page_num + 1 else page_num).

Definition mapping_of (f : Z) : K Z := kreads (λ σ, default 0 (σ.(mappings) !! f)).

Definition handle_mmap (esp : Z) : K unit :=
  fd <- ld_word (u32 (esp + 4)) ;;
  addr <- ld_word (u32 (esp + 8)) ;;
  if (s32 fd <? 2) || (addr =? NULL) || negb (pg_round_down addr =? addr) then set_eax (-1) else
  old_file <- find_file_by_fd (s32 fd) ;;
  (if old_file =? NULL then access 3 NULL false ;; kfail Fault else kret tt) ;;
  target_file <- onfs (file_reopen old_file) ;;
  filesize <- onfs (file_length target_file) ;;
  t <- cur ;;
  let pages := region addr filesize in
  taken <- onvm (any_mapped t pages.*1) ;;
  if taken then set_eax (-1) else
  onvm (map_pages target_file pages) ;;
  x <- cur_thread ;;
  new_mapping <- match last x.(mapping_list) with
                 | None => kret 0
                 | Some f => m <- mapping_of f ;; kret (s32 (m + 1))
                 end ;;
  upd_cur (λ x, with_mapping_list (x.(mapping_list) ++ [target_file]) x) ;;
  set_eax new_mapping.

Fixpoint find_mapping (l : list Z) (mapping : Z) : K (option Z) :=
  match l with
  | [] => kret None
  | f :: l => m <- mapping_of f ;; if m =? mapping then kret (Some f) else find_mapping l mapping
  end.

Definition handle_munmap (esp : Z) : K unit :=
  mapping <- ld_word (u32 (esp + 4)) ;;
  x <- cur_thread ;;
  r <- find_mapping x.(mapping_list) (s32 mapping) ;;
  match r with Some f => unmap_file f | None => kret tt end.

(** ** The dispatcher *)

Definition SYS_HALT : Z := 0.
Definition SYS_EXIT : Z := 1.
Definition SYS_EXEC : Z := 2.
Definition SYS_WAIT : Z := 3.
Definition SYS_CREATE : Z := 4.
Definition SYS_REMOVE : Z := 5.
Definition SYS_OPEN : Z := 6.
Definition SYS_FILESIZE : Z := 7.
Definition SYS_READ : Z := 8.
Definition SYS_WRITE : Z := 9.
Definition SYS_SEEK : Z := 10.
Definition SYS_TELL : Z := 11.
Definition SYS_CLOSE : Z := 12.
Definition SYS_MMAP : Z := 13.
Definition SYS_MUNMAP : Z := 14.

Definition syscall_handler (esp : Z) : K unit :=
  b <- is_invalid esp ;;
  if b then handle_invalid else
  n <- ld_word esp ;;
  let n := s32 n in
  if n =? SYS_EXIT then handle_exit esp
  else if n =? SYS_WRITE then handle_write esp
  else if n =? SYS_HALT then handle_halt
  else if n =? SYS_CREATE then handle_create esp
  else if n =? SYS_OPEN then handle_open esp
  else if n =? SYS_REMOVE then handle_remove esp
  else if n =? SYS_CLOSE then handle_close esp
  else if n =? SYS_READ then handle_read esp
  else if n =? SYS_FILESIZE then handle_filesize esp
  else if n =? SYS_EXEC then handle_exec esp
  else if n =? SYS_WAIT then handle_wait esp
  else if n =? SYS_SEEK then handle_seek esp
  else if n =? SYS_TELL then handle_tell esp
  else if n =? SYS_MMAP then handle_mmap esp
  else if n =? SYS_MUNMAP then handle_munmap esp
  else kret tt.
