(* ===== verification/ProcStack.v ===== *)
(** * The initial stack of a process

    [push_argument] of userprog/process.c writes through the page tables of the process:
    the theorem says where the arguments end up on the stack page, for every command
    line that [load] passes to it. *)

From S2P Require Import Prelude Vaddr Bytes Bitmap Str Palloc Filesys Vm VmPagedir VmSpace VmLife VmSwap Process.
Local Open Scope k_scope.

(** ** Running *)

Lemma kbind_Some {A B} (c : K A) (k : A → K B) σ a σ' :
  c σ = Ok (Some a, σ') → kbind c k σ = k a σ'.
Proof. intros H. unfold kbind, bind. by rewrite H. Qed.

Lemma onvm_run {A} (c : M vm A) σ a m : c σ.(mach) = Ok (a, m) → onvm c σ = Ok (Some a, upd_mach (λ _, m) σ).
Proof. unfold onvm. by intros ->. Qed.

(** ** The stack page *)

Definition STACK : Z := PHYS_BASE - 4096.

(** The page at the top of user memory is mapped to the frame [kp], whose bytes are
    [content], and the directory of the process is active. *)
Record stacked (σ : vm) (B : live) (pd : Z) (T : gmap Z Z) (kp : Z) (content : list Z) : Prop := {
  st_space : space σ B pd T;
  st_cr3 : σ.(proc).(cr3) = pd - PHYS_BASE;
  st_frame : B true !! kp = Some 1;
  st_entry : let e := entry σ.(phys).(ram) T STACK in
    present e = true ∧ Z.land e PTE_W ≠ 0 ∧ frame_of e = kp;
  st_bytes_of : content = block σ.(phys).(ram) kp 4096;
}.

(** What does not change: everything but the memory. *)
Definition same_but_ram (σ σ' : sys) : Prop := ∃ m, σ' = upd_mach (set_mem m) σ.

Lemma same_but_ram_refl σ : same_but_ram σ σ.
Proof. exists σ.(mach).(phys).(ram). destruct σ as [[[] ? ? ? ? ? ? ? ? ?] ? ? ? ? ? ? ? ? ? ?]. done. Qed.
Lemma same_but_ram_trans σ1 σ2 σ3 : same_but_ram σ1 σ2 → same_but_ram σ2 σ3 → same_but_ram σ1 σ3.
Proof. intros [m ->] [m' ->]. by exists m'. Qed.

(** The bits that an access sets. *)
Definition marks (write : bool) : Z := if write then Z.lor PTE_A PTE_D else PTE_A.

Lemma walk_fault_free σ B pd T v write :
  space σ B pd T → σ.(proc).(cr3) = pd - PHYS_BASE → 0 ≤ v < PHYS_BASE →
  let e := entry σ.(phys).(ram) T v in
  present e = true → (write = true → Z.land e PTE_W ≠ 0) →
  ∃ m, walk v write σ = Ok (Some (frame_of e + v `mod` 4096), set_mem m σ) ∧ space (set_mem m σ) B pd T ∧
    spares pd T σ.(phys).(ram) m ∧
    ∀ u, 0 ≤ u < PHYS_BASE → entry m T u = put (entry σ.(phys).(ram) T) v (Z.lor e (marks write)) u.
Proof.
  intros SP Hc Hv e Hp Hw. pose proof (sp_paging _ _ _ _ SP) as PG. destruct (user_indices v Hv) as [Hi _].
  destruct (pd_page PG) as ((Hk1 & Hk2 & _) & _). pose proof (entry_range SP v Hv) as He. fold e in He.
  destruct (T !! pd_no v) as [pt|] eqn:Ht; [|unfold e, entry in Hp; by rewrite Ht in Hp].
  destruct (pt_page PG _ _ Ht) as (Hkt & _).
  destruct (written σ B pd T v (Z.lor e (marks write)) pt SP Hv Ht) as (m & Hst & SP' & Hsp & Hput).
  { by destruct write; apply lor_lt. }
  exists m. split_and!; [|exact SP'|exact Hsp|exact Hput]. unfold walk.
  rewrite (bind_Ok _ _ σ σ.(proc) σ) by done. rewrite Hc. unfold PHYS_BASE, LOADER_PHYS_BASE in Hk2 |- *.
  rewrite (bind_Ok _ _ σ pd σ).
  2:{ apply pure_run. rewrite ptov_ok by mlia. f_equal. unfold PHYS_BASE, LOADER_PHYS_BASE. lia. }
  rewrite (bind_Ok _ _ _ _ _ (pde_run PG _ Hi)), Ht. rewrite entry_flag by (done || by cbn).
  change (Z.land (flags true true) PTE_P =? 0) with false. cbv iota.
  rewrite (bind_Ok _ _ _ _ _ (pure_run _ _ σ (pde_get_pt_run _ Hkt))).
  rewrite (bind_Ok _ _ _ _ _ (entry_run PG Hv _ Ht)). fold e.
  unfold present in Hp. apply negb_true_iff in Hp. rewrite Hp. cbn [orb].
  assert (write && (Z.land e PTE_W =? 0) = false) as ->.
  { destruct write; [|done]. by rewrite (proj2 (Z.eqb_neq _ _) (Hw eq_refl)). }
  fold (marks write). rewrite (bind_Ok _ _ _ _ _ Hst), (bind_Ok _ _ _ _ _ (pure_run _ _ _ (pte_get_page_run _ He))). by rewrite pg_ofs_mod.
Qed.

(** The accessed and dirty bits do not change what an entry grants. *)
Lemma touched e f : 0 ≤ e < 2 ^ 30 → 0 ≤ f < 4096 →
  frame_of (Z.lor e f) = frame_of e ∧ (present e = true → present (Z.lor e f) = true) ∧
  (Z.land e PTE_W ≠ 0 → Z.land (Z.lor e f) PTE_W ≠ 0).
Proof.
  intros He Hf. change (2 ^ 30) with 1073741824 in He.
  assert (∀ b, Z.land e b ≠ 0 → Z.land (Z.lor e f) b ≠ 0) as Hb.
  { intros b H1 H2. apply H1. rewrite Z.land_lor_distr_l in H2. apply Z.lor_eq_0_iff in H2. tauto. }
  split_and!; [|unfold present; rewrite !negb_true_iff, !Z.eqb_neq; apply Hb|apply Hb].
  assert (is_u32 (Z.lor e f)) by (apply lor_u32; mlia). unfold frame_of. f_equal.
  rewrite <- !PTE_ADDR_eq by (done || mlia). rewrite Z.land_lor_distr_l, (PTE_ADDR_eq f) by mlia.
  rewrite Z.mod_small, Z.sub_diag by lia. apply Z.lor_0_r.
Qed.

Lemma block_insert m p o b n : 0 ≤ o < n → block (<[p + o := b]> m) p n = <[Z.to_nat o := b]> (block m p n).
Proof.
  intros Ho. apply list_eq. intros i. pose proof (block_length m p n ltac:(lia)) as Hl. unfold block in *.
  destruct (decide (i = Z.to_nat o)) as [->|Hne].
  - rewrite list_lookup_insert_eq by lia. rewrite list_lookup_fmap, lookup_seqZ_lt by lia. cbn.
    replace (p + Z.of_nat (Z.to_nat o)) with (p + o) by lia. by rewrite lookup_insert_eq.
  - rewrite list_lookup_insert_ne by done. rewrite !list_lookup_fmap.
    destruct (seqZ p n !! i) as [a|] eqn:E; [|done]. apply lookup_seqZ in E as [-> Hi]. cbn.
    by rewrite lookup_insert_ne by lia.
Qed.

(** Writing to a user frame leaves the address spaces alone. *)
Lemma frame_write σ B pd T kp a bs :
  space σ B pd T → B true !! kp = Some 1 → kp ≤ a → a + zlen bs ≤ kp + 4096 → Forall is_u8 bs →
  space (set_mem (store σ.(phys).(ram) a bs) σ) B pd T ∧
  ∀ u, 0 ≤ u < PHYS_BASE → entry (store σ.(phys).(ram) a bs) T u = entry σ.(phys).(ram) T u.
Proof.
  intros SP Hk H1 H2 Hu. pose proof (sp_paging _ _ _ _ SP) as PG. pose proof (pg_space _ _ _ _ PG) as AS.
  set (σ' := set_mem _ σ).
  assert (∀ x, in_space pd T x → σ'.(phys).(ram) !! x = σ.(phys).(ram) !! x) as Hm.
  { intros x Hx. cbn. rewrite store_lookup.
    assert (¬ kp ≤ x < kp + 4096) by (apply (user_frame_apart σ.(phys) B pd T); [apply PG|done|apply AS|intros i pt Hi; by apply (as_table _ _ _ _ AS i)|done]).
    repeat (zcase; cbn [andb]; try done). lia. }
  split; [|exact (entry_kept σ σ' pd T Hm)].
  apply (space_kept σ σ' B B); [done| | |apply AS|intros i pt Hi; by apply (as_table _ _ _ _ AS i)|done].
  - apply (allocator_store σ.(phys) B a bs), PG.
  - apply bytes_only_store; [apply PG|done].
Qed.

Lemma access_run n σ B pd T kp content o :
  stacked σ.(mach) B pd T kp content → 0 ≤ o < 4096 →
  ∃ m, access (S n) (STACK + o) true σ = Ok (Some (kp + o), upd_mach (set_mem m) σ) ∧
    stacked (set_mem m σ.(mach)) B pd T kp content.
Proof.
  intros [SP Hc Hf (Hp & Hw & Efr) Hb] Ho. assert (0 ≤ STACK + o < PHYS_BASE) as Hv.
  { unfold STACK, PHYS_BASE, LOADER_PHYS_BASE. lia. }
  assert (∀ k, 0 ≤ k < 4096 → pg_no (STACK + k) = pg_no STACK) as Hpg.
  { intros k Hk. rewrite !pg_no_div. unfold STACK, PHYS_BASE, LOADER_PHYS_BASE. dm_lia. }
  assert (entry σ.(mach).(phys).(ram) T (STACK + o) = entry σ.(mach).(phys).(ram) T STACK) as Ee.
  { unfold entry. assert (pd_no (STACK + o) = pd_no STACK ∧ pt_no (STACK + o) = pt_no STACK) as [-> ->]; [|done].
    assert ((pg_no (STACK + o) =? pg_no STACK) = true) as Hx by (apply Z.eqb_eq; by apply Hpg).
    rewrite page_indices in Hx by (done || by_decide). apply bool_decide_eq_true in Hx. by injection Hx. }
  destruct (walk_fault_free σ.(mach) B pd T (STACK + o) true SP Hc Hv) as (m & Hr & SP' & Hsp & Hput); rewrite ?Ee; try done.
  rewrite Ee in Hr, Hput. exists m. split.
  - cbn [access]. rewrite (kbind_Some _ _ _ _ _ (onvm_run _ _ _ _ Hr)). unfold kret, ret. do 3 f_equal.
    rewrite Efr. f_equal. unfold STACK, PHYS_BASE, LOADER_PHYS_BASE. dm_lia.
  - assert (entry m T STACK = Z.lor (entry σ.(mach).(phys).(ram) T STACK) (Z.lor PTE_A PTE_D)) as Em.
    { rewrite Hput by by_decide. unfold put. rewrite (proj2 (Z.eqb_eq _ _)); [done|]. symmetry. by apply Hpg. }
    destruct (touched (entry σ.(mach).(phys).(ram) T STACK) (Z.lor PTE_A PTE_D)) as (E1 & E2 & E3);
      [apply (entry_range SP); by_decide|by cbn|].
    split; [done|done|done|..].
    + change (phys (set_mem m σ.(mach))).(ram) with m. cbv zeta. rewrite Em. split_and!; [by apply E2|by apply E3|by rewrite E1].
    + rewrite Hb. apply block_ext. intros a Ha. symmetry. apply Hsp.
      intros Hin. pose proof (sp_paging _ _ _ _ SP) as PG. pose proof (pg_space _ _ _ _ PG) as AS.
      apply (user_frame_apart σ.(mach).(phys) B pd T kp a); [apply PG|done|apply AS|intros i pt Hi; by apply (as_table _ _ _ _ AS i)|done|done].
Qed.

(** A byte of the stack page. *)
Lemma st_user_run σ B pd T kp content o b :
  stacked σ.(mach) B pd T kp content → 0 ≤ o < 4096 → is_u8 b →
  ∃ m, st_user (STACK + o) b σ = Ok (Some tt, upd_mach (set_mem m) σ) ∧
    stacked (set_mem m σ.(mach)) B pd T kp (<[Z.to_nat o := b]> content).
Proof.
  intros ST Ho Hu. destruct (access_run 2 σ B pd T kp content o ST Ho) as (m & Hr & ST').
  exists (<[kp + o := b]> m). pose proof ST' as [SP Hc Hf He Hb].
  destruct (page_block _ B true kp (pg_alloc _ _ _ _ (sp_paging _ _ _ _ SP)) Hf) as (_ & Hmap & _).
  destruct (frame_write _ B pd T kp (kp + o) [b] SP Hf) as [SP2 He2]; [lia|cbn; lia|by apply Forall_singleton|].
  split.
  - unfold st_user. rewrite (kbind_Some _ _ _ _ _ Hr).
    exact (onvm_run _ (upd_mach (set_mem m) σ) _ _ (on_phys_run _ (set_mem m σ.(mach)) _ _
      (on_ram_ok _ (set_ram m σ.(mach).(phys)) _ _ (stb_run m (kp + o) b (Hmap (kp + o) ltac:(lia)) Hu)))).
  - split; [exact SP2|done|done| |].
    + change (phys (set_mem (<[kp + o:=b]> m) σ.(mach))).(ram) with (store m (kp + o) [b]). cbv zeta.
      rewrite He2 by by_decide. exact He.
    + rewrite Hb. symmetry. by apply block_insert.
Qed.

(** ** Bytes on the stack *)

Lemma splice_cons {A} (mem : list A) ofs b bs : (ofs + S (length bs) ≤ length mem)%nat →
  splice mem ofs (b :: bs) = splice (<[ofs := b]> mem) (S ofs) bs.
Proof.
  intros H. apply list_eq. intros i.
  destruct (decide (i < ofs ∨ ofs + S (length bs) ≤ i)%nat) as [Ho|Hin].
  - rewrite !splice_lookup_out by (cbn; rewrite ?length_insert; lia). by rewrite list_lookup_insert_ne by lia.
  - rewrite splice_lookup_in by (cbn; lia). destruct (decide (i = ofs)) as [->|Hne].
    + rewrite splice_lookup_out by (rewrite ?length_insert; lia). by rewrite list_lookup_insert_eq, Nat.sub_diag by lia.
    + rewrite splice_lookup_in by (rewrite ?length_insert; lia). by replace (i - ofs)%nat with (S (i - S ofs)) by lia.
Qed.

Lemma stack_content_length σ B pd T kp content : stacked σ B pd T kp content → length content = 4096%nat.
Proof. intros [_ _ _ _ ->]. pose proof (block_length σ.(phys).(ram) kp 4096 ltac:(lia)). lia. Qed.

Lemma st_bytes_run bs : ∀ σ B pd T kp content o,
  stacked σ.(mach) B pd T kp content → 0 ≤ o → o + zlen bs ≤ 4096 → Forall is_u8 bs →
  ∃ σ', st_bytes (STACK + o) bs σ = Ok (Some tt, σ') ∧ same_but_ram σ σ' ∧
    stacked σ'.(mach) B pd T kp (splice content (Z.to_nat o) bs).
Proof.
  induction bs as [|b bs IH]; intros σ B pd T kp content o ST Ho Hl Hu.
  - exists σ. split_and!; [done|apply same_but_ram_refl|]. unfold splice. cbn [app length]. by rewrite Nat.add_0_r, take_drop.
  - apply Forall_cons in Hu as [Hb Hu]. cbn [length] in Hl.
    destruct (st_user_run σ B pd T kp content o b ST ltac:(lia) Hb) as (m & Hr & ST1).
    destruct (IH (upd_mach (set_mem m) σ) B pd T kp _ (o + 1) ST1) as (σ' & Hr' & Hs & ST'); [lia..|done|].
    exists σ'. split_and!.
    + cbn [st_bytes]. rewrite (kbind_Some _ _ _ _ _ Hr). rewrite u32_small.
      * by rewrite <- Z.add_assoc.
      * unfold STACK, PHYS_BASE, LOADER_PHYS_BASE. mlia.
    + eapply same_but_ram_trans; [|exact Hs]. by exists m.
    + pose proof (stack_content_length _ _ _ _ _ _ ST). rewrite splice_cons by lia.
      by replace (S (Z.to_nat o)) with (Z.to_nat (o + 1)) by lia.
Qed.

(** The bytes [bs] are at the user address [v] of the stack page. *)
Definition on_stack (content : list Z) (v : Z) (bs : list Z) : Prop :=
  ∀ i b, bs !! i = Some b → content !! (Z.to_nat (v - STACK) + i)%nat = Some b.

(** Below [v] the page is as it was: zero. *)
Definition zeros_below (content : list Z) (v : Z) : Prop :=
  ∀ a, STACK ≤ a < v → content !! Z.to_nat (a - STACK) = Some 0.

Section written.
Context (content : list Z) (v : Z) (bs : list Z).
Context (Hlen : length content = 4096%nat) (Hv : STACK ≤ v) (Hend : v + zlen bs ≤ PHYS_BASE).
Local Notation content' := (splice content (Z.to_nat (v - STACK)) bs).

Lemma fits : (Z.to_nat (v - STACK) + length bs ≤ length content)%nat.
Proof. rewrite Hlen. unfold STACK, PHYS_BASE in *. lia. Qed.

Lemma on_stack_new : on_stack content' v bs.
Proof.
  intros i b Hi. pose proof (lookup_lt_Some _ _ _ Hi). pose proof fits. rewrite splice_lookup_in by lia.
  by replace (Z.to_nat (v - STACK) + i - Z.to_nat (v - STACK))%nat with i by lia.
Qed.

Lemma on_stack_old w cs : v + zlen bs ≤ w → on_stack content w cs → on_stack content' w cs.
Proof.
  intros Hw H i b Hi. pose proof fits. rewrite splice_lookup_out by lia. by apply H.
Qed.

Lemma zeros_kept u : v ≤ u → zeros_below content u → zeros_below content' v.
Proof. intros Hu H a Ha. pose proof fits. rewrite splice_lookup_out by lia. apply H. lia. Qed.

(** Zero bytes behind what is written stay. *)
Lemma zeros_behind k u : zeros_below content u → v + zlen bs + zlen (replicate k 0) ≤ u → on_stack content' v (bs ++ replicate k 0).
Proof.
  intros H Hu i b Hi. pose proof fits. rewrite length_replicate in Hu. apply lookup_app_Some in Hi as [Hi|[Hi1 Hi]].
  - by apply on_stack_new.
  - apply lookup_replicate in Hi as [-> Hi]. rewrite splice_lookup_out by lia.
    replace (Z.to_nat (v - STACK) + i)%nat with (Z.to_nat (v + Z.of_nat i - STACK)) by lia. apply H. lia.
Qed.
End written.

(** ** The arguments *)

(** The bytes that the strings take, with their terminators. *)
Fixpoint total (args : list (list Z)) : Z :=
  match args with [] => 0 | a :: args => zlen a + 1 + total args end.

Lemma total_nonneg args : 0 ≤ total args.
Proof. induction args; cbn; lia. Qed.

Lemma total_app xs ys : total (xs ++ ys) = total xs + total ys.
Proof. induction xs as [|x xs IH]; cbn; [done|]. rewrite IH. lia. Qed.

Lemma total_reverse xs : total (reverse xs) = total xs.
Proof. induction xs as [|x xs IH]; [done|]. rewrite reverse_cons, total_app, IH. cbn. lia. Qed.

Lemma push_strings_run args : ∀ σ B pd T kp content e w addrs,
  stacked σ.(mach) B pd T kp content → zeros_below content e → Forall (Forall is_u8) args →
  STACK + total args ≤ e → e ≤ PHYS_BASE → 0 ≤ w → w + total args < W32 →
  ∃ σ' content' new, push_strings args e w addrs σ = Ok (Some (e - total args, w + total args, reverse new ++ addrs), σ') ∧
    same_but_ram σ σ' ∧ stacked σ'.(mach) B pd T kp content' ∧ zeros_below content' (e - total args) ∧
    Forall2 (λ a s, e - total args ≤ a ∧ a + zlen s + 1 ≤ e ∧ on_stack content' a (s ++ [0])) new args ∧
    ∀ v bs, e ≤ v → on_stack content v bs → on_stack content' v bs.
Proof.
  induction args as [|s args IH]; intros σ B pd T kp content e w addrs ST Hz Hu He1 He2 Hw1 Hw2.
  - exists σ, content, []. cbn [total] in *. rewrite Z.sub_0_r, Z.add_0_r. split_and!; try done. apply same_but_ram_refl.
  - apply Forall_cons in Hu as [Hs Hu]. change (total (s :: args)) with (zlen s + 1 + total args) in *.
    assert (0 ≤ total args) as Ht by apply total_nonneg.
    pose proof (stack_content_length _ _ _ _ _ _ ST) as Hlen. set (e1 := e - (zlen s + 1)).
    assert (is_u32 e1) as He32 by (unfold e1, STACK, PHYS_BASE, LOADER_PHYS_BASE in *; mlia).
    assert (STACK ≤ e1 ∧ e1 + zlen s ≤ PHYS_BASE) as [Hlo Hhi] by (unfold e1; lia).
    destruct (st_bytes_run s σ B pd T kp content (e1 - STACK) ST) as (σ1 & Hr & Hs1 & ST1); [lia|unfold STACK in *; lia|done|].
    replace (STACK + (e1 - STACK)) with e1 in Hr by lia.
    destruct (IH σ1 B pd T kp _ e1 (w + (zlen s + 1)) (e1 :: addrs) ST1) as (σ' & content' & new & Hr' & Hs' & ST' & Hz' & H2 & Hold);
      [|done|unfold e1; lia..|].
    { apply (zeros_kept content e1 s Hlen Hlo Hhi e); [unfold e1; lia|done]. }
    exists σ', content', (e1 :: new). replace (e - (zlen s + 1 + total args)) with (e1 - total args) by (unfold e1; lia).
    split_and!; [|by eapply same_but_ram_trans|done|done| |].
    + cbn [push_strings]. fold e1. rewrite (u32_small e1), (u32_small (w + _)) by (done || mlia). rewrite (kbind_Some _ _ _ _ _ Hr), Hr'.
      rewrite reverse_cons, <- app_assoc. cbn [app]. by replace (w + (zlen s + 1) + total args) with (w + (zlen s + 1 + total args)) by lia.
    + constructor; [|eapply Forall2_impl; [exact H2|]; cbn; intros a t (? & ? & ?); split_and!; [done|unfold e1 in *; lia|done]].
      split_and!; [lia|unfold e1; lia|]. apply Hold; [lia|].
      apply (zeros_behind content e1 s Hlen Hlo Hhi 1 e); [done|]. cbn. unfold e1. lia.
    + intros v bs Hv Hon. apply Hold; [unfold e1; lia|]. apply (on_stack_old content e1 s Hlen Hlo Hhi); [unfold e1; lia|done].
Qed.

(** Words that are pushed end up in reverse order. *)
Lemma push_words_run ws : ∀ σ B pd T kp content e,
  stacked σ.(mach) B pd T kp content → zeros_below content e →
  STACK + 4 * zlen ws ≤ e → e ≤ PHYS_BASE →
  ∃ σ' content', push_words ws e σ = Ok (Some (e - 4 * zlen ws), σ') ∧
    same_but_ram σ σ' ∧ stacked σ'.(mach) B pd T kp content' ∧ zeros_below content' (e - 4 * zlen ws) ∧
    on_stack content' (e - 4 * zlen ws) (words_bytes (reverse ws)) ∧
    ∀ v bs, e ≤ v → on_stack content v bs → on_stack content' v bs.
Proof.
  induction ws as [|x ws IH]; intros σ B pd T kp content e ST Hz He1 He2.
  - exists σ, content. cbn [length] in *. rewrite Z.mul_0_r, Z.sub_0_r. split_and!; try done. apply same_but_ram_refl.
  - cbn [length] in He1. pose proof (stack_content_length _ _ _ _ _ _ ST) as Hlen. set (e1 := e - 4).
    assert (is_u32 e1) as He32 by (unfold e1, STACK, PHYS_BASE, LOADER_PHYS_BASE in *; mlia).
    assert (zlen (le32 x) = 4) as Hl4 by done.
    assert (STACK ≤ e1 ∧ e1 + zlen (le32 x) ≤ PHYS_BASE) as [Hlo Hhi] by (unfold e1; lia).
    destruct (st_bytes_run (le32 x) σ B pd T kp content (e1 - STACK) ST) as (σ1 & Hr & Hs1 & ST1);
      [lia|unfold STACK in *; lia|apply le32_bytes|].
    replace (STACK + (e1 - STACK)) with e1 in Hr by lia.
    destruct (IH σ1 B pd T kp _ e1 ST1) as (σ' & content' & Hr' & Hs' & ST' & Hz' & Hon & Hold); [|unfold e1; lia..|].
    { apply (zeros_kept content e1 (le32 x) Hlen Hlo Hhi e); [unfold e1; lia|done]. }
    exists σ', content'. replace (e - 4 * zlen (x :: ws)) with (e1 - 4 * zlen ws) by (cbn [length]; unfold e1; lia).
    split_and!; [|by eapply same_but_ram_trans|done|done| |].
    + cbn [push_words]. fold e1. rewrite (u32_small e1) by done. by rewrite (kbind_Some _ _ _ _ _ Hr), Hr'.
    + rewrite reverse_cons. unfold words_bytes in *. rewrite fmap_app, concat_app. cbn [fmap list_fmap concat].
      rewrite app_nil_r. intros i b [Hi|[Hi1 Hi]]%lookup_app_Some; [by apply Hon|].
      assert (on_stack content' e1 (le32 x)) as Hx by (apply Hold; [lia|by apply on_stack_new]).
      specialize (Hx _ _ Hi). rewrite <- Hx. f_equal. fold (words_bytes (reverse ws)) in *.
      rewrite words_bytes_length, length_reverse in *. unfold e1, STACK in *. lia.
    + intros v bs Hv Hv'. apply Hold; [unfold e1; lia|].
      apply (on_stack_old content e1 (le32 x) Hlen Hlo Hhi); [unfold e1; lia|done].
Qed.

(** ** The size of a command line *)

Lemma pieces_total ds s : ∀ c, total (pieces ds c s) ≤ zlen c + zlen s + 1.
Proof.
  induction s as [|x s IH]; intros c; cbn [pieces].
  - destruct c; cbn [total length]; lia.
  - destruct (delim ds x).
    + specialize (IH []). destruct c; cbn [total length] in *; lia.
    + specialize (IH (c ++ [x])). rewrite length_app in IH. cbn [length] in *. lia.
Qed.

Lemma pieces_count ds s : ∀ c, 2 * zlen (pieces ds c s) ≤ total (pieces ds c s).
Proof.
  induction s as [|x s IH]; intros c; cbn [pieces].
  - destruct c; cbn [total length]; lia.
  - destruct (delim ds x); [|apply IH]. specialize (IH []). destruct c; cbn [total length] in *; lia.
Qed.

Lemma pieces_u8 ds s : ∀ c, Forall is_u8 c → Forall is_u8 s → Forall (Forall is_u8) (pieces ds c s).
Proof.
  induction s as [|x s IH]; intros c Hc Hs; cbn [pieces].
  - destruct c; [constructor|by apply Forall_singleton].
  - apply Forall_cons in Hs as [Hx Hs]. destruct (delim ds x).
    + destruct c; [by apply IH|]. constructor; [done|]. by apply IH.
    + apply IH; [|done]. apply Forall_app. split; [done|by apply Forall_singleton].
Qed.

(** Property C35.  The arguments of a new process are on its stack as the calling
    convention wants them.  For every command line that [load] passes on, up to 255
    bytes, [push_argument] stays within the arrays of 128 arguments and within the stack
    page; it ends with a stack pointer aligned to four bytes, above which are a return
    address, [argc], [argv], the pointers [argv[0]] to [argv[argc - 1]] to the words of
    the command line, in order and null-terminated, and the null pointer [argv[argc]]. *)
Theorem push_argument_ok σ B pd T kp content name :
  stacked σ.(mach) B pd T kp content → zeros_below content PHYS_BASE → zlen name ≤ 255 → Forall is_u8 name →
  let args := pieces [SPACE] [] name in
  let argc := zlen args in
  ∃ σ' content' esp argv, push_argument name PHYS_BASE σ = Ok (Some esp, σ') ∧
    same_but_ram σ σ' ∧ stacked σ'.(mach) B pd T kp content' ∧ esp `mod` 4 = 0 ∧ STACK ≤ esp ∧
    on_stack content' (esp + 4) (le32 argc) ∧
    on_stack content' (esp + 8) (le32 (esp + 12)) ∧
    on_stack content' (esp + 12) (words_bytes argv) ∧
    on_stack content' (esp + 12 + 4 * argc) (le32 NULL) ∧
    Forall2 (λ a s, esp + 12 + 4 * (argc + 1) ≤ a ∧ a + zlen s + 1 ≤ PHYS_BASE ∧ on_stack content' a (s ++ [0])) argv args.
Proof.
  intros ST Hz Hn Hu args argc. pose proof (pieces_total [SPACE] name []) as Htot. pose proof (pieces_count [SPACE] name []) as Hcnt.
  fold args in Htot, Hcnt. fold argc in Hcnt. cbn [length] in Htot. pose proof (total_nonneg args) as Ht0.
  assert (argc ≤ 128) as Hargc by lia. set (t := total args) in *.
  destruct (push_strings_run (reverse args) σ B pd T kp content PHYS_BASE 0 [] ST Hz) as (σ1 & c1 & new & Hr1 & Hs1 & ST1 & Hz1 & Hf1 & _);
    rewrite ?total_reverse; fold t; [apply Forall_reverse, pieces_u8; [constructor|done]|unfold STACK; lia|lia|lia|mlia|].
  rewrite total_reverse in *. fold t in Hr1, Hz1, Hf1. rewrite app_nil_r in Hr1. set (argv := reverse new) in *.
  apply Forall2_reverse in Hf1. rewrite reverse_involutive in Hf1. fold argv in Hf1.
  assert (zlen argv = argc) as Hla by (unfold argc; by rewrite (Forall2_length _ _ _ Hf1)).
  set (pad := (4 - t `mod` 4) `mod` 4). assert (0 ≤ pad < 4 ∧ (t + pad) `mod` 4 = 0) as [Hpad Hal] by (unfold pad; dm_lia).
  set (e2 := PHYS_BASE - t - (pad + 4)).
  assert (on_stack c1 e2 (le32 NULL)) as Hnull.
  { intros i b Hi. change (le32 NULL) with (replicate 4 0) in Hi. apply lookup_replicate in Hi as [-> Hi].
    replace (Z.to_nat (e2 - STACK) + i)%nat with (Z.to_nat (e2 + Z.of_nat i - STACK)) by (unfold e2, STACK; lia).
    apply Hz1. unfold e2, STACK. lia. }
  destruct (push_words_run (reverse argv) σ1 B pd T kp c1 e2 ST1) as (σ2 & c2 & Hr2 & Hs2 & ST2 & Hz2 & Hon2 & Hold2);
    rewrite ?length_reverse, ?Hla; [intros a Ha; apply Hz1; unfold e2 in *; lia|unfold e2, STACK; lia|unfold e2; lia|].
  rewrite length_reverse, Hla in *. rewrite reverse_involutive in Hon2. set (e3 := e2 - 4 * argc) in *.
  destruct (push_words_run [e3] σ2 B pd T kp c2 e3 ST2 Hz2) as (σ3 & c3 & Hr3 & Hs3 & ST3 & Hz3 & Hon3 & Hold3);
    [cbn [length]; unfold e3, e2, STACK; lia|unfold e3, e2; lia|]. change (e3 - 4 * zlen [e3]) with (e3 - 4) in *.
  destruct (push_words_run [argc] σ3 B pd T kp c3 (e3 - 4) ST3 Hz3) as (σ4 & c4 & Hr4 & Hs4 & ST4 & Hz4 & Hon4 & Hold4);
    [cbn [length]; unfold e3, e2, STACK; lia|unfold e3, e2; lia|]. change (e3 - 4 - 4 * zlen [argc]) with (e3 - 4 - 4) in *.
  assert (∀ v bs, e2 ≤ v → on_stack c1 v bs → on_stack c4 v bs) as Hup.
  { intros v bs Hv H. apply Hold4; [unfold e3 in *; lia|]. apply Hold3; [unfold e3 in *; lia|]. by apply Hold2. }
  exists σ4, c4, (e3 - 12), argv. split_and!.
  - unfold push_argument. fold args. fold argc. rewrite (proj2 (Z.ltb_ge _ _) Hargc).
    rewrite (kbind_Some _ _ _ _ _ Hr1). cbv beta iota. rewrite Z.add_0_l. fold pad. fold argv. fold e2.
    rewrite (u32_small e2) by (unfold e2, PHYS_BASE, LOADER_PHYS_BASE; mlia).
    rewrite (kbind_Some _ _ _ _ _ Hr2), (kbind_Some _ _ _ _ _ Hr3), (kbind_Some _ _ _ _ _ Hr4).
    rewrite u32_small by (unfold e3, e2, PHYS_BASE, LOADER_PHYS_BASE; mlia). unfold kret, ret. do 3 f_equal. lia.
  - eauto using same_but_ram_trans.
  - done.
  - unfold e3, e2, PHYS_BASE, LOADER_PHYS_BASE. dm_lia.
  - unfold e3, e2, STACK. lia.
  - replace (e3 - 12 + 4) with (e3 - 4 - 4) by lia. unfold words_bytes in Hon4. cbn in Hon4. exact Hon4.
  - replace (e3 - 12 + 8) with (e3 - 4) by lia. replace (e3 - 12 + 12) with e3 by lia. apply Hold4; [lia|]. exact Hon3.
  - replace (e3 - 12 + 12) with e3 by lia. apply Hold4; [lia|]. apply Hold3; [lia|]. exact Hon2.
  - replace (e3 - 12 + 12 + 4 * argc) with e2 by (unfold e3; lia). apply Hup; [lia|done].
  - eapply Forall2_impl; [exact Hf1|]. cbn. intros a s (H1 & H2 & H3). split_and!; [unfold e3, e2 in *; lia|lia|].
    apply Hup; [unfold e2; lia|done].
Qed.

(** ** Witness: the command line "ls -l" on a zeroed stack page *)

Definition stack_vm (m : mem) : vm := machine (one_page m 767 1023) no_files (PD - PHYS_BASE).
Definition stack_sys (m : mem) : sys := Sys (stack_vm m) ∅ ∅ ∅ ∅ [] None [] 3 [] 0 0.

Lemma stack_vm_ok m : blank m →
  stacked (stack_vm m) one_live PD {[767 := PT]} KP (block (one_page m 767 1023).(ram) KP 4096).
Proof.
  intros Hb. pose proof (one_entry m Hb 767 1023 ltac:(lia) ltac:(lia) STACK ltac:(by_decide)) as He.
  split; [apply (one_space m Hb 767 1023); [lia|lia|done]|done|done| |done].
  change ((stack_vm m).(phys)) with (one_page m 767 1023). cbv zeta. rewrite He. by vm_compute.
Qed.

Lemma stack_zero m : (∀ a, KP ≤ a < KP + 4096 → m !! a = Some 0) →
  zeros_below (block (one_page m 767 1023).(ram) KP 4096) PHYS_BASE.
Proof.
  intros Hm a Ha. unfold block. rewrite list_lookup_fmap, lookup_seqZ_lt by (unfold STACK in *; lia). cbn [fmap option_fmap option_map one_page ram].
  assert (∀ w, zlen (le32 w) = 4) as Hl by done. rewrite !store_lookup, !Hl.
  assert (PT + 4 * 1023 + 4 ≤ KP ∧ PD + 4 * 767 + 4 ≤ KP) as [H1 H2] by by_decide.
  repeat (zcase; cbn [andb]; try (unfold STACK in *; lia)); by rewrite Hm by (unfold STACK in *; lia).
Qed.

Lemma frames_zero a : PD ≤ a < PD + 24576 → frames PD 6 !! a = Some 0.
Proof.
  intros Ha. unfold frames. rewrite store_lookup, length_replicate.
  repeat (zcase; cbn [andb]; try lia). by rewrite lookup_replicate_2 by lia.
Qed.

Lemma push_argument_ok_witness :
  ∃ σ' content' esp argv, push_argument [108; 115; 32; 45; 108] PHYS_BASE (stack_sys (frames PD 6)) = Ok (Some esp, σ') ∧
    on_stack content' (esp + 4) (le32 2) ∧ on_stack content' (esp + 12) (words_bytes argv).
Proof.
  destruct (push_argument_ok (stack_sys (frames PD 6)) one_live PD {[767 := PT]} KP _ [108; 115; 32; 45; 108]
    (stack_vm_ok (frames PD 6) frames_blank)) as (σ' & content' & esp & argv & H1 & _ & _ & _ & _ & H2 & _ & H3 & _).
  - apply stack_zero. intros a Ha. apply frames_zero. unfold KP, PD in *. lia.
  - cbn. lia.
  - repeat constructor; mlia.
  - exists σ', content', esp, argv. split; [exact H1|split; [exact H2|exact H3]].
Defined.
