(* ===== verification/ProcLoad.v ===== *)
(** * Loading segments

    [validate_segment] and [load_segment] of userprog/process.c: what an accepted program
    header means for the address space, and what a loaded segment looks like. *)

From S2P Require Import Prelude Vaddr Bytes Bitmap Str Palloc Filesys FsInode Vm VmPagedir VmSpace VmLife VmSwap Process ProcStack.
Local Open Scope c_scope.

Lemma ROUND_UP_eq x : 0 ≤ x → x + 4095 < W32 → ROUND_UP x 4096 = (x + 4095) `div` 4096 * 4096.
Proof. intros H1 H2. unfold ROUND_UP. rewrite (u32_small (x + 4096 - 1)) by mlia. rewrite u32_small by dm_lia. do 2 f_equal. lia. Qed.

Definition phdr_words (p : Elf32_Phdr) : Prop :=
  is_u32 p.(p_offset) ∧ is_u32 p.(p_vaddr) ∧ is_u32 p.(p_filesz) ∧ is_u32 p.(p_memsz).

(** What the checks say, without wrap-around. *)
Lemma validate_facts p len :
  phdr_words p → 0 ≤ len < 2147483648 → validate_segment p len = true →
  p.(p_offset) `mod` 4096 = p.(p_vaddr) `mod` 4096 ∧ p.(p_offset) ≤ len ∧ p.(p_filesz) ≤ p.(p_memsz) ∧ 0 < p.(p_memsz) ∧
  4096 ≤ p.(p_vaddr) ∧ p.(p_vaddr) + p.(p_memsz) < PHYS_BASE.
Proof.
  intros (H1 & H2 & H3 & H4) Hl. unfold validate_segment, is_user_vaddr. rewrite (u32_small len) by mlia.
  change (Z.land ?x PGMASK) with (pg_ofs x). rewrite !pg_ofs_mod. unfold PGSIZE.
  repeat (case_match; try done). intros _.
  repeat match goal with
  | H : negb _ = false |- _ => apply negb_false_iff in H
  | H : (_ =? _) = true |- _ => apply Z.eqb_eq in H
  | H : (_ =? _) = false |- _ => apply Z.eqb_neq in H
  | H : (_ <? _) = true |- _ => apply Z.ltb_lt in H
  | H : (_ <? _) = false |- _ => apply Z.ltb_ge in H
  end.
  unfold PHYS_BASE, LOADER_PHYS_BASE, u32 in *. split_and!; [done|lia|lia|mlia|lia|dm_lia].
Qed.

(** A program header that validate_segment accepts stays inside user
    memory.  The arguments that [load] computes from it satisfy the assertions of
    load_segment, nothing wraps around, the pages begin above page 0 and end below the
    kernel, they cover the segment, and the bytes to read are the segment's bytes of the
    file behind a page boundary. *)
Theorem segment_args_ok p len :
  phdr_words p → 0 ≤ len < 2147483648 → validate_segment p len = true →
  let '(file_page, mem_page, read_bytes, zero_bytes, writable) := segment_args p in
  (read_bytes + zero_bytes) `mod` 4096 = 0 ∧ 0 ≤ read_bytes ∧ 0 ≤ zero_bytes ∧
  mem_page `mod` 4096 = 0 ∧ file_page `mod` 4096 = 0 ∧ 0 ≤ file_page ≤ len ∧
  4096 ≤ mem_page ≤ p.(p_vaddr) ∧
  p.(p_vaddr) + p.(p_memsz) ≤ mem_page + read_bytes + zero_bytes ≤ PHYS_BASE ∧
  (if 0 <? p.(p_filesz) then
     mem_page + read_bytes = p.(p_vaddr) + p.(p_filesz) ∧ file_page + read_bytes = p.(p_offset) + p.(p_filesz)
   else read_bytes = 0).
Proof.
  intros Hw Hl Hv. destruct (validate_facts p len Hw Hl Hv) as (E1 & E2 & E3 & E4 & E5 & E6).
  destruct Hw as (H1 & H2 & H3 & H4). unfold segment_args. change (not32 PGMASK) with PTE_ADDR.
  change (Z.land ?x PGMASK) with (pg_ofs x). rewrite !PTE_ADDR_eq, pg_ofs_mod by done. unfold PGSIZE.
  set (po := p.(p_vaddr) `mod` 4096) in *. assert (0 ≤ po < 4096) by (unfold po; dm_lia).
  assert ((p.(p_vaddr) - po) `mod` 4096 = 0) by (unfold po; dm_lia). unfold PHYS_BASE, LOADER_PHYS_BASE in *.
  rewrite (u32_small (po + p.(p_memsz))) by mlia. rewrite ROUND_UP_eq by mlia.
  set (k := (po + p.(p_memsz) + 4095) `div` 4096).
  assert (po + p.(p_memsz) ≤ k * 4096 ≤ po + p.(p_memsz) + 4095) as Hk by (unfold k; dm_lia).
  assert (p.(p_vaddr) - po + k * 4096 ≤ 3221225472) as Hend by dm_lia.
  assert (4096 ≤ p.(p_vaddr) - po) by (unfold po in *; dm_lia).
  destruct (Z.ltb_spec 0 p.(p_filesz)) as [Hf|Hf]; rewrite ?(u32_small (po + p.(p_filesz))) by mlia.
  - rewrite u32_small by mlia. rewrite E1. split_and!; try lia; clearbody po k; dm_lia.
  - rewrite E1. split_and!; try lia; clearbody po k; dm_lia.
Qed.

Lemma segment_args_ok_witness :
  let p := Phdr PT_LOAD 4196 134516836 0 5000 9000 6 4096 in
  validate_segment p 20000 = true ∧ segment_args p = (4096, 134516736, 5100, 7188, true) ∧
  134516736 + 5100 + 7188 ≤ PHYS_BASE.
Proof.
  split; [reflexivity|split; [reflexivity|]].
  pose proof (segment_args_ok (Phdr PT_LOAD 4196 134516836 0 5000 9000 6 4096) 20000) as H.
  assert (phdr_words (Phdr PT_LOAD 4196 134516836 0 5000 9000 6 4096)) as Hw by (unfold phdr_words; cbn; mlia).
  specialize (H Hw ltac:(lia) eq_refl). destruct H as (_ & _ & _ & _ & _ & _ & _ & [_ H] & _). exact H.
Defined.

(** ** Free pages of a pool *)

Definition free_pages (p : pool) : nat :=
  length (filter (λ i, bit p.(used_map) i = false) (seqZ 0 p.(used_map).(bit_cnt))).

Lemma free_not_crowded p m b : pool_ok p m b → (0 < free_pages p)%nat → ¬ crowded p b 1.
Proof.
  unfold free_pages. intros Hp Hf Hc. destruct (filter _ _) as [|i l] eqn:E; [cbn in Hf; lia|].
  assert (i ∈ i :: l) as Hi by by left. rewrite <- E in Hi. apply list_elem_of_filter in Hi as [Hb Hi%elem_of_seqZ].
  destruct (Hc i) as (k & Hk & Hin); [lia..|]. assert (k = i) as -> by lia.
  apply (po_used _ _ _ Hp) in Hin; [congruence|lia].
Qed.

(** Handing out one page takes one. *)
Lemma free_taken p m b p' m' r :
  pool_ok p m b → pool_ok p' m' (<[r := 1]> b) → same_place p p' → (free_pages p ≤ S (free_pages p'))%nat.
Proof.
  intros Hp Hp' [E1 E2]. unfold free_pages. rewrite E2. set (l := seqZ 0 p.(used_map).(bit_cnt)).
  destruct (po_block _ _ _ Hp' r 1) as (_ & i & Hr & Hi0 & Hi1); [apply lookup_insert_eq|].
  change (S (length ?x)) with (length (i :: x)). apply submseteq_length, NoDup_submseteq.
  { apply NoDup_filter, NoDup_seqZ. }
  intros j [Hj Hl]%list_elem_of_filter. apply elem_of_cons. destruct (decide (j = i)) as [->|Hne]; [by left|right].
  apply list_elem_of_filter. split; [|done]. apply elem_of_seqZ in Hl. apply not_true_iff_false. intros Hb.
  apply (po_used _ _ _ Hp') in Hb as (c & n & Hc & Hin); [|rewrite E2; lia].
  apply lookup_insert_Some in Hc as [[<- <-]|[_ Hc]]; [lia|].
  assert (bit p.(used_map) j = true); [|congruence]. apply (po_used _ _ _ Hp); [lia|]. exists c, n. rewrite <- E1. by split.
Qed.

(** ** One page of a segment *)

(** The part of the file system that loading reads. *)
Record open_file (g : fs) (f : Z) (x : file) (ino : inode) : Prop := {
  of_file : g.(files) !! f = Some x;
  of_inode : g.(inodes) !! x.(finode) = Some ino;
  of_extent : extent g.(disk) ino.(idata);
  of_plenty : plenty g ∧ 0 < g.(next);
}.

Lemma open_file_heap g g' f x ino : open_file g f x ino → heap_only g g' → open_file g' f x ino.
Proof. intros [H1 H2 H3 [H4 H5]] (n & l & -> & Hn & Hp). split; [done|done|done|]. cbn. split; [by apply Hp|lia]. Qed.

(** Reading the next [n] bytes. *)
Lemma file_read_run g f x ino n :
  open_file g f x ino → 0 ≤ n → 0 ≤ x.(fpos) → x.(fpos) + n < 2147483648 →
  let data := take (Z.to_nat n) (drop (Z.to_nat x.(fpos)) (content g.(disk) ino.(idata))) in
  ∃ g', file_read f n g = Ok (data, g') ∧ g'.(disk) = g.(disk) ∧
    open_file g' f (File x.(finode) (x.(fpos) + zlen data) x.(deny_write)) ino.
Proof.
  intros [Hf Hi Hx [Hp Hn]] H0 H1 H2 data.
  destruct (inode_read_content g x.(finode) ino n x.(fpos)) as (bs & g1 & Hr & Hh & _ & Hbs); [done|done|done|lia|lia|].
  specialize (Hbs Hp). fold data in Hbs. subst bs. assert (zlen data ≤ n) as Hl by (unfold data; rewrite length_take; lia).
  set (x' := File x.(finode) (x.(fpos) + zlen data) x.(deny_write)).
  destruct Hh as (k & l & -> & Hk & Hpl).
  exists (upd_files <[f := x']> (upd_heap k l g)). split_and!; [|done|].
  - unfold file_read. rewrite (bind_Ok _ _ g x g) by (unfold file_at; by rewrite Hf). rewrite (bind_Ok _ _ _ _ _ Hr).
    rewrite s32_small by (unfold is_s32; lia). done.
  - split; [apply lookup_insert_eq|done|done|]. split; [by apply Hpl|cbn; lia].
Qed.

(** The bytes of a page: some of the file, then zeros. *)
Definition page_bytes (file : list Z) (ofs n : Z) : list Z :=
  take (Z.to_nat n) (drop (Z.to_nat ofs) file) ++ replicate (Z.to_nat (4096 - n)) 0.

Lemma zero_fill m a n : mapped m a n → 0 ≤ n → a + n ≤ W32 → 0 < a →
  ∃ r, memset (u32 a) 0 n m = Ok (r, store m a (replicate (Z.to_nat n) 0)).
Proof.
  intros Hm Hn Ha Ha0. destruct (decide (n = 0)) as [->|Hne].
  - exists (u32 a). unfold memset, nonnull_or_empty. rewrite bind_assert by (by rewrite orb_true_r). done.
  - exists a. rewrite u32_small by mlia. apply memset_ok; [done|mlia|lia|mlia].
Qed.

(** A process that is being loaded from the open file [f]. *)
Record loader (σ : vm) (B : live) (pd : Z) (T : gmap Z Z) (f : Z) (x : file) (ino : inode) : Prop := {
  ld_space : space σ B pd T;
  ld_file : open_file σ.(fsys) f x ino;
  ld_thread : ∃ t, σ.(threads) !! σ.(current) = Some t ∧ t.(pagedir) = pd;
  ld_sema : 0 < σ.(frame_sema);
  ld_dir : pd ≠ σ.(con).(base_page_dir);
  ld_ram : σ.(phys).(user_pool).(base) + 4096 * σ.(phys).(user_pool).(used_map).(bit_cnt) ≤ PHYS_BASE + 4096 * σ.(con).(ram_pages);
}.

Section page.
Context (σ : vm) (B : live) (pd : Z) (T : gmap Z Z) (f : Z) (x : file) (ino : inode) (LD : loader σ B pd T f x ino).
Context (n : Z) (Hn : 0 ≤ n ≤ 4096) (Hpos : 0 ≤ x.(fpos)).
Local Notation file := (content σ.(fsys).(disk) ino.(idata)).
Context (Hdata : x.(fpos) + n ≤ zlen file).
Context (Hfree : (0 < free_pages σ.(phys).(user_pool))%nat).

(** The new frame after the page is filled. *)
Record filled_frame (r : Z) (σ' : vm) : Prop := {
  ff_fresh : B true !! r = None;
  ff_page : kernel_page r;
  ff_space : space σ' (set_live true (<[r := 1]> (B true)) B) pd T;
  ff_entry : ∀ u, 0 ≤ u < PHYS_BASE → entry σ'.(phys).(ram) T u = entry σ.(phys).(ram) T u;
  ff_block : block σ'.(phys).(ram) r 4096 = page_bytes file x.(fpos) n;
  ff_other : ∀ s, B true !! s = Some 1 → block σ'.(phys).(ram) s 4096 = block σ.(phys).(ram) s 4096;
  ff_file : open_file σ'.(fsys) f (File x.(finode) (x.(fpos) + n) x.(deny_write)) ino;
  ff_disk : σ'.(fsys).(disk) = σ.(fsys).(disk);
  ff_place : ∀ u, same_place (pool_of u σ.(phys)) (pool_of u σ'.(phys));
  ff_free : (free_pages σ.(phys).(user_pool) ≤ S (free_pages σ'.(phys).(user_pool)))%nat;
  ff_table : ∃ e, e ∈ σ'.(frame_table) ∧ e.(fe_kpage) = r;
  ff_same : (σ'.(threads), σ'.(current), σ'.(frame_sema), σ'.(con), σ'.(proc)) =
            (σ.(threads), σ.(current), σ.(frame_sema), σ.(con), σ.(proc));
}.

Lemma data_length : zlen (take (Z.to_nat n) (drop (Z.to_nat x.(fpos)) file)) = n.
Proof. rewrite length_take, length_drop. lia. Qed.

Lemma data_bytes : Forall is_u8 file → Forall is_u8 (page_bytes file x.(fpos) n).
Proof. intros Hu. unfold page_bytes. apply Forall_app. split; [by apply Forall_take, Forall_drop|by apply Forall_replicate]. Qed.

Lemma fill_frame : Forall is_u8 file → 
  ∃ r σ', filled_frame r σ' ∧
  ∀ {A} (k0 : M vm A) (k1 k : Z → M vm A),
    (kpage <- frame_table_allocator PAL_USER ;;
     if kpage =? NULL then k0 else
     data <- on_fs (file_read f n) ;;
     write_ram kpage data ;;
     if negb (zlen data =? n) then k1 kpage else
     on_phys (on_ram (memset (u32 (kpage + n)) 0 (4096 - n))) ;; k kpage) σ = k r σ'.
Proof.
  intros Hu8. destruct LD as [SP OF Hth Hs Hd Hram]. pose proof (sp_paging _ _ _ _ SP) as PG. pose proof (pg_space _ _ _ _ PG) as AS.
  assert (roomy σ B) as RM.
  { split; [apply PG|done|apply OF|]. apply (free_not_crowded _ σ.(phys).(ram)); [apply PG|done]. }
  destruct (frame_alloc_run σ B RM) as (r & p & g & Hr & Ha & Em & Hap & Hr0 & Hsp & Hh).
  set (B1 := set_live true (<[r := 1]> (B true)) B) in *.
  assert (B1 true !! r = Some 1) as Hb1 by apply lookup_insert_eq.
  destruct (page_block p B1 true r Ha Hb1) as (Hkr & Hmr & Hrw).
  pose proof (FsInode.content_length σ.(fsys).(disk) ino.(idata) (proj1 (ex_len _ _ (of_extent _ _ _ _ OF)))) as Hcl.
  pose proof (ex_len _ _ (of_extent _ _ _ _ OF)) as Hlen.
  assert (g.(disk) = σ.(fsys).(disk)) as Eg by (by apply heap_only_disk in Hh as [? _]).
  destruct (file_read_run g f x ino n (open_file_heap _ _ _ _ _ OF Hh)) as (g' & Hread & Eg' & OF'); [lia|lia|lia|].
  rewrite Eg in Hread, OF'. rewrite data_length in OF'.
  set (data := take (Z.to_nat n) (drop (Z.to_nat x.(fpos)) file)) in *. pose proof data_length as Hdl. fold data in Hdl.
  set (σ1 := with_frame r p g σ). set (σ2 := upd_fsys (λ _, g') σ1).
  assert (write_ram r data σ2 = Ok (tt, set_mem (store p.(ram) r data) σ2)) as Hwr.
  { apply write_ram_run. rewrite Hdl. intros a Ha'. apply Hmr. lia. }
  set (m1 := store p.(ram) r data) in *.
  assert (0 < r) as Hrpos by (destruct Hkr as (? & ? & ?); unfold PHYS_BASE, LOADER_PHYS_BASE in *; lia).
  destruct (zero_fill m1 (r + n) (4096 - n)) as (r2 & Hzf).
  { apply mapped_store. intros a Ha'. apply Hmr. lia. }
  { lia. } { lia. } { lia. }
  set (m2 := store m1 (r + n) (replicate (Z.to_nat (4096 - n)) 0)) in *. set (σ4 := set_mem m2 σ2).
  assert (m2 = store p.(ram) r (page_bytes file x.(fpos) n)) as Em2.
  { unfold m2, m1, page_bytes. fold data. rewrite <- Hdl at 1. apply store_app. }
  assert (zlen (page_bytes file x.(fpos) n) = 4096) as Hpl.
  { unfold page_bytes. fold data. rewrite length_app, Nat2Z.inj_add, Hdl, length_replicate. lia. }
  assert (∀ s, B true !! s = Some 1 → r + 4096 ≤ s ∨ s + 4096 ≤ r) as Hdis by (intros s Hss; specialize (Hap s 1 Hss); lia).
  assert (∀ a, in_space pd T a → m2 !! a = σ.(phys).(ram) !! a) as Hspace.
  { intros a Hia. rewrite Em2, store_lookup, Em, Hpl.
    assert (¬ r ≤ a < r + 4096) by (apply (user_frame_apart p B1 pd T); [done..|apply AS|intros i pt Hi; by apply (as_table _ _ _ _ AS i)|done]).
    repeat (zcase; cbn [andb]; try done). lia. }
  exists r, σ4. split.
  - split.
    + by apply (apart_fresh σ.(phys) B true); [apply PG|].
    + done.
    + apply (space_kept σ σ4 B B1); [done| | |apply AS|intros i pt Hi; by apply (as_table _ _ _ _ AS i)|exact Hspace].
      * change (allocator (set_ram m2 p) B1). rewrite Em2. by apply allocator_store.
      * change (bytes_only m2). rewrite Em2. apply bytes_only_store; [rewrite Em; apply PG|by apply data_bytes].
    + exact (entry_kept σ σ4 pd T Hspace).
    + change (block m2 r 4096 = page_bytes file x.(fpos) n). rewrite Em2, <- Hpl. apply block_store.
    + intros s Hss. change (block m2 s 4096 = block σ.(phys).(ram) s 4096). apply block_ext. intros a Ha'.
      rewrite Em2, store_lookup, Em, Hpl. specialize (Hdis s Hss). repeat (zcase; cbn [andb]; try done). lia.
    + exact OF'.
    + change (g'.(disk) = σ.(fsys).(disk)). by rewrite Eg'.
    + intros u. specialize (Hsp u). by destruct u.
    + apply (free_taken _ σ.(phys).(ram) (B true) _ p.(ram) r); [apply (al_pool _ _ (pg_alloc _ _ _ _ PG) true)|apply (al_pool _ _ Ha true)|apply (Hsp true)].
    + eexists. split; [apply elem_of_app; right; apply list_elem_of_singleton; reflexivity|done].
    + done.
  - intros A k0 k1 k. rewrite (bind_Ok _ _ _ _ _ Hr). rewrite (proj2 (Z.eqb_neq _ _) Hr0). fold σ1.
    rewrite (bind_Ok _ _ σ1 data σ2) by (unfold on_fs; change (fsys σ1) with g; by rewrite Hread).
    rewrite (bind_Ok _ _ _ _ _ Hwr), Hdl, Z.eqb_refl. cbn [negb].
    by rewrite (bind_Ok _ _ _ _ _ (on_phys_run _ (set_mem m1 σ2) _ _ (on_ram_ok _ (set_ram m1 p) _ _ Hzf))).
Qed.
End page.

(** Mapping a frame of the user pool at a page that has none. *)
Lemma set_fresh_page σ B pd T u r w :
  space σ B pd T → 0 < σ.(frame_sema) → pd ≠ σ.(con).(base_page_dir) →
  σ.(phys).(user_pool).(base) + 4096 * σ.(phys).(user_pool).(used_map).(bit_cnt) ≤ PHYS_BASE + 4096 * σ.(con).(ram_pages) →
  user_page u → present (entry σ.(phys).(ram) T u) = false → B true !! r = Some 1 →
  ∃ ok σ' B' T' E', pagedir_set_page pd u r w σ = Ok (ok, σ') ∧ effect σ B pd T (SetPage u r w) (Z.b2z ok) σ' B' T' E'.
Proof.
  intros SP Hs Hd Hram Hu Hpr Hr. pose proof (pg_alloc _ _ _ _ (sp_paging _ _ _ _ SP)) as Ha.
  destruct (page_block _ _ _ _ Ha Hr) as (Hk & _).
  destruct (set_effect σ B pd T u r w SP) as (b & σ' & B' & T' & E' & Hset & EF).
  { split_and!; [apply Hu..|done| |done|done|done].
    destruct (po_block _ _ _ (al_pool _ _ Ha true) r 1 Hr) as (_ & i & -> & Hi0 & Hi1). cbn [pool_of] in *.
    destruct (po_base _ _ _ (al_pool _ _ Ha true)). cbn [pool_of] in *. dm_lia. }
  cbn [perform] in Hset. apply bind_inv in Hset as (ok & s & Hset & [= <- ->]). by exists ok, σ', B', T', E'.
Qed.

Lemma install_run σ B pd T upage r w t :
  space σ B pd T → σ.(threads) !! σ.(current) = Some t → t.(pagedir) = pd → 0 < σ.(frame_sema) → pd ≠ σ.(con).(base_page_dir) →
  σ.(phys).(user_pool).(base) + 4096 * σ.(phys).(user_pool).(used_map).(bit_cnt) ≤ PHYS_BASE + 4096 * σ.(con).(ram_pages) →
  user_page upage → present (entry σ.(phys).(ram) T upage) = false → B true !! r = Some 1 →
  ∃ ok σ' B' T' E', install_page upage r w σ = Ok (ok, σ') ∧ effect σ B pd T (SetPage upage r w) (Z.b2z ok) σ' B' T' E'.
Proof.
  intros SP Ht Hpd Hs Hd Hram Hu Hpr Hr. destruct (set_fresh_page σ B pd T upage r w) as (ok & σ' & B' & T' & E' & Hset & EF); [done..|].
  exists ok, σ', B', T', E'. split; [|exact EF]. unfold install_page.
  rewrite (bind_Ok _ _ σ pd σ).
  2:{ unfold cur_pagedir. rewrite (bind_Ok _ _ σ σ.(current) σ) by done.
      rewrite (bind_Ok _ _ σ t σ) by (unfold thread_at; by rewrite Ht). by rewrite Hpd. }
  rewrite (bind_Ok _ _ σ NULL σ); [done|]. unfold pagedir_get_page. rewrite bind_assert by (apply Z.ltb_lt, Hu).
  rewrite (with_entry SP) by apply Hu. destruct (T !! pd_no upage) as [pt|] eqn:Hpt; [|done].
  unfold present in Hpr. by rewrite Hpr.
Qed.

(** Giving back a frame that is in the table. *)
Lemma remove_frame_some l r : (∃ e, e ∈ l ∧ e.(fe_kpage) = r) → is_Some (remove_frame l r).
Proof.
  induction l as [|f l IH]; intros (e & He & Hr); [by apply not_elem_of_nil in He|]. cbn.
  destruct (Z.eqb_spec f.(fe_kpage) r) as [|Hne]; [done|]. apply elem_of_cons in He as [->|He]; [done|].
  destruct IH as [l' ->]; [by exists e|done].
Qed.

Lemma frame_free_run σ B r :
  allocator σ.(phys) B → B true !! r = Some 1 → 0 < σ.(frame_sema) → (∃ e, e ∈ σ.(frame_table) ∧ e.(fe_kpage) = r) →
  ∃ σ', frame_table_free r σ = Ok (tt, σ').
Proof.
  intros Ha Hr Hs He. destruct (remove_frame_some _ _ He) as [l' Hl].
  destruct (free_serves _ _ true r 1 Ha Hr) as (p & Hp & _).
  set (σ1 := upd_frame_sema (λ _, σ.(frame_sema) - 1) σ). set (σ2 := upd_frames (λ _, l') σ1).
  exists (upd_frame_sema (λ v, v + 1) (upd_phys (λ _, p) σ2)). unfold frame_table_free.
  rewrite (bind_Ok _ _ σ tt σ1).
  2:{ unfold sema_down_frame. rewrite (bind_Ok _ _ σ σ.(frame_sema) σ) by done. by rewrite (proj2 (Z.ltb_lt _ _) Hs). }
  rewrite (bind_Ok _ _ σ1 σ.(frame_table) σ1) by done. rewrite Hl.
  rewrite (bind_Ok _ _ σ1 tt (upd_phys (λ _, p) σ2)); [done|].
  rewrite (bind_Ok _ _ σ1 tt σ2) by done. exact (on_phys_run (palloc_free_multiple r 1) σ2 _ _ Hp).
Qed.

(** A supplemental entry for a page that is in memory. *)
Lemma sup_create_run σ t upage kpage f :
  plenty σ.(fsys) → 0 < σ.(fsys).(next) → σ.(threads) !! σ.(current) = Some t →
  ∃ p σ', sup_page_entry_create upage kpage f σ = Ok (p, σ') ∧
    σ'.(phys) = σ.(phys) ∧ heap_only σ.(fsys) σ'.(fsys) ∧ σ'.(proc) = σ.(proc) ∧ σ'.(current) = σ.(current) ∧
    σ'.(frame_table) = σ.(frame_table) ∧ σ'.(frame_sema) = σ.(frame_sema) ∧ σ'.(con) = σ.(con) ∧ σ'.(swaps) = σ.(swaps) ∧
    ∃ t', σ'.(threads) !! σ.(current) = Some t' ∧ t'.(pagedir) = t.(pagedir) ∧
      t'.(sup_page_table) !! upage = Some (default p (t.(sup_page_table) !! upage)).
Proof.
  intros Hp Hn Ht. destruct (new_object_run σ Hp Hn) as (g & Hr & Hh & _). unfold sup_page_entry_create.
  rewrite (bind_Ok _ _ _ _ _ Hr). set (p := σ.(fsys).(next)). set (σ1 := upd_fsys (λ _, g) σ).
  rewrite (bind_Ok _ _ σ1 σ.(con) σ1) by done.
  set (σ2 := upd_sup <[p := SupPageEntry upage kpage true None NULL f σ.(con).(junk)]> σ1).
  rewrite (bind_Ok _ _ σ1 tt σ2), (bind_Ok _ _ σ2 σ.(current) σ2) by done.
  rewrite (bind_Ok _ _ σ2 t σ2) by (unfold thread_at; cbn; by rewrite Ht).
  destruct (t.(sup_page_table) !! upage) as [q|] eqn:E.
  - exists p, σ2. rewrite (bind_Ok _ _ σ2 tt σ2) by done. split_and!; try done. exists t. by rewrite E.
  - eexists p, _. rewrite bind_Ok with (a := tt) (s' := upd_threads <[σ.(current) := Thread t.(pagedir)
      (<[upage := p]> t.(sup_page_table)) t.(mapping_list) t.(file_list) t.(self_file) t.(exec_name) t.(info)]> σ2) by done.
    split_and!; try done. eexists. split_and!; [apply lookup_insert_eq|done|apply lookup_insert_eq].
Qed.

(** A page of the segment is in place. *)
Record page_loaded (σ : vm) (B : live) (pd : Z) (T : gmap Z Z) (f : Z) (x : file) (ino : inode) (n upage : Z) (w : bool) (r : Z)
    (σ' : vm) (B' : live) (T' : gmap Z Z) : Prop := {
  lp_loader : loader σ' B' pd T' f (File x.(finode) (x.(fpos) + n) x.(deny_write)) ino;
  lp_fresh : B true !! r = None;
  lp_user : B' true = <[r := 1]> (B true);
  lp_kernel : B false ⊆ B' false;
  lp_entry : entry σ'.(phys).(ram) T' upage = r - PHYS_BASE + flags true w;
  lp_block : block σ'.(phys).(ram) r 4096 = page_bytes (content σ.(fsys).(disk) ino.(idata)) x.(fpos) n;
  lp_others : ∀ u, user_page u → u ≠ upage → entry σ'.(phys).(ram) T' u = entry σ.(phys).(ram) T u;
  lp_frames : ∀ s, B true !! s = Some 1 → block σ'.(phys).(ram) s 4096 = block σ.(phys).(ram) s 4096;
  lp_disk : σ'.(fsys).(disk) = σ.(fsys).(disk);
  lp_place : ∀ u, same_place (pool_of u σ.(phys)) (pool_of u σ'.(phys));
  lp_free : (free_pages σ.(phys).(user_pool) ≤ S (free_pages σ'.(phys).(user_pool)))%nat;
}.

(** The user pool is not touched by the operations on a directory. *)
Lemma effect_user_pool σ B pd T q r σ' B' T' E' :
  effect σ B pd T q r σ' B' T' E' → space σ B pd T → free_pages σ'.(phys).(user_pool) = free_pages σ.(phys).(user_pool).
Proof.
  intros EF SP. pose proof (al_pool _ _ (pg_alloc _ _ _ _ (sp_paging _ _ _ _ SP)) true) as H1.
  pose proof (al_pool _ _ (pg_alloc _ _ _ _ (sp_paging _ _ _ _ (ef_space _ _ _ _ _ _ _ _ _ _ EF))) true) as H2.
  rewrite (ef_user _ _ _ _ _ _ _ _ _ _ EF) in H2. destruct (ef_place _ _ _ _ _ _ _ _ _ _ EF true) as [E1 E2].
  cbn [pool_of] in *. unfold free_pages. rewrite E2. f_equal. apply list_filter_ext. intros i Hi%elem_of_seqZ.
  pose proof (po_used _ _ _ H1 i ltac:(lia)) as H3. pose proof (po_used _ _ _ H2 i ltac:(lia)) as H4. rewrite E1 in H4.
  destruct (bit σ'.(phys).(user_pool).(used_map) i), (bit σ.(phys).(user_pool).(used_map) i); naive_solver.
Qed.

Lemma effect_frames σ B pd T q r σ' B' T' E' s :
  effect σ B pd T q r σ' B' T' E' → space σ B pd T → B true !! s = Some 1 →
  block σ'.(phys).(ram) s 4096 = block σ.(phys).(ram) s 4096.
Proof.
  intros EF SP Hs. pose proof (sp_paging _ _ _ _ (ef_space _ _ _ _ _ _ _ _ _ _ EF)) as PG. pose proof (pg_space _ _ _ _ PG) as AS.
  apply block_ext. intros a Ha. apply (ef_spares _ _ _ _ _ _ _ _ _ _ EF). intros Hin.
  apply (user_frame_apart σ'.(phys) B' pd T' s a); [apply PG|by rewrite (ef_user _ _ _ _ _ _ _ _ _ _ EF)|apply AS|
    intros i pt Hi; by apply (as_table _ _ _ _ AS i)|done|done].
Qed.

Lemma load_page_run σ B pd T f x ino upage rd zr w :
  loader σ B pd T f x ino → 0 ≤ rd → 0 ≤ zr → 4096 ≤ rd + zr → rd + zr < W32 →
  let n := if rd <? 4096 then rd else 4096 in
  0 ≤ x.(fpos) → x.(fpos) + n ≤ zlen (content σ.(fsys).(disk) ino.(idata)) → Forall is_u8 (content σ.(fsys).(disk) ino.(idata)) →
  (0 < free_pages σ.(phys).(user_pool))%nat →
  user_page upage → present (entry σ.(phys).(ram) T upage) = false →
  ∃ res σ', load_page f w (upage, rd, zr) σ = Ok (res, σ') ∧
    (res = inr false ∧ crowded (pool_of false σ.(phys)) (B false) 1 ∨
     res = inl (upage + 4096, rd - n, zr - (4096 - n)) ∧
     ∃ r B' T', page_loaded σ B pd T f x ino n upage w r σ' B' T').
Proof.
  intros LD Hrd Hzr Hsum Hw32 n Hpos Hdata Hu8 Hfree Hup Hpr.
  assert (0 ≤ n ≤ 4096 ∧ n ≤ rd ∧ 4096 - n ≤ zr) as (Hn & Hn2 & Hn3) by (unfold n; zcase; lia).
  destruct (fill_frame σ B pd T f x ino LD n Hn Hpos Hdata Hfree Hu8) as (r & σ1 & FF & Hrun).
  pose proof FF as [Hfresh Hkp SP1 He1 Hblk Hoth OF1 Hdk Hpl1 Hfr1 Htab Hsame].
  injection Hsame as Eth Ecur Esema Econ Eproc. destruct LD as [SP OF (t & Ht & Htpd) Hsema Hdir Hram].
  set (B1 := set_live true (<[r := 1]> (B true)) B) in *. assert (B1 true !! r = Some 1) as Hb1 by apply lookup_insert_eq.
  destruct (Hpl1 true) as [Epb Epc]. cbn [pool_of] in Epb, Epc.
  destruct (install_run σ1 B1 pd T upage r w t SP1) as (ok & σ2 & B2 & T2 & E2 & Hins & EF);
    [by rewrite Eth, Ecur|done|by rewrite Esema|by rewrite Econ|by rewrite Econ, Epb, Epc|done|rewrite He1 by apply Hup; done|done|].
  unfold load_page. rewrite (proj2 (orb_true_iff (0 <? rd) (0 <? zr))) by (rewrite !Z.ltb_lt; lia). cbn [negb]. unfold PGSIZE. fold n.
  rewrite Hrun. rewrite (bind_Ok _ _ _ _ _ Hins). pose proof (ef_rest _ _ _ _ _ _ _ _ _ _ EF) as Hrest.
  injection Hrest as Efs Eth2 Ecur2 Esema2 Esup Esw Econ2. destruct ok; cbn [negb].
  - destruct (sup_create_run σ2 t upage r NULL) as (p & σ3 & Hsup & Eph & Hh & Eproc3 & Ecur3 & Eft3 & Esema3 & Econ3 & Esw3 & t' & Ht' & Htp' & _);
      [rewrite Efs; apply OF1|rewrite Efs; apply OF1|by rewrite Eth2, Ecur2, Eth, Ecur|].
    rewrite (bind_Ok _ _ _ _ _ Hsup). eexists _, σ3. split; [reflexivity|]. right. split.
    { unfold PHYS_BASE, LOADER_PHYS_BASE, user_page in *. rewrite !u32_small; [done|mlia..|]. destruct Hup as [Hup _]. unfold PHYS_BASE, LOADER_PHYS_BASE in *. mlia. }
    exists r, B2, T2. pose proof (ef_answer _ _ _ _ _ _ _ _ _ _ EF) as Hans. inversion Hans; subst. split.
    + split.
      * exact (space_phys (ef_space _ _ _ _ _ _ _ _ _ _ EF) σ3 Eph).
      * rewrite <- Efs in OF1. by apply (open_file_heap _ _ _ _ _ OF1).
      * exists t'. rewrite Ecur3. split; [done|by rewrite Htp'].
      * by rewrite Esema3, Esema2, Esema.
      * by rewrite Econ3, Econ2, Econ.
      * destruct (ef_place _ _ _ _ _ _ _ _ _ _ EF true) as [E3 E4]. cbn [pool_of] in E3, E4. by rewrite Eph, Econ3, Econ2, Econ, E3, E4, Epb, Epc.
    + done.
    + by rewrite (ef_user _ _ _ _ _ _ _ _ _ _ EF).
    + exact (ef_blocks _ _ _ _ _ _ _ _ _ _ EF).
    + rewrite Eph, (ef_entry _ _ _ _ _ _ _ _ _ _ EF) by apply Hup. unfold put. by rewrite Z.eqb_refl.
    + rewrite Eph, (effect_frames _ _ _ _ _ _ _ _ _ _ r EF SP1 Hb1). exact Hblk.
    + intros u [Hu1 Hu2] Hne. rewrite Eph, (ef_entry _ _ _ _ _ _ _ _ _ _ EF) by done. unfold put.
      destruct (Z.eqb_spec (pg_no u) (pg_no upage)) as [E|]; [|by apply He1].
      rewrite !pg_no_div in E. destruct Hup. exfalso. apply Hne. dm_lia.
    + intros s Hs. rewrite Eph, (effect_frames _ _ _ _ _ _ _ _ _ _ s EF SP1); [by apply Hoth|].
      change (B1 true) with (<[r := 1]> (B true)). rewrite lookup_insert_ne; [done|]. congruence.
    + destruct Hh as (? & ? & -> & _). cbn. by rewrite Efs, Hdk.
    + intros u. rewrite Eph. destruct (ef_place _ _ _ _ _ _ _ _ _ _ EF u) as [E3 E4], (Hpl1 u) as [E5 E6]. split; congruence.
    + rewrite Eph, (effect_user_pool _ _ _ _ _ _ _ _ _ _ EF SP1). exact Hfr1.
  - pose proof (ef_answer _ _ _ _ _ _ _ _ _ _ EF) as Hans. inversion Hans as [? ? ? [_ Hcr]| | | | | | ]; subst.
    destruct (frame_free_run σ2 B2 r) as (σ3 & Hff).
    { apply (sp_paging _ _ _ _ (ef_space _ _ _ _ _ _ _ _ _ _ EF)). }
    { by rewrite (ef_user _ _ _ _ _ _ _ _ _ _ EF). }
    { by rewrite Esema2, Esema. }
    { by rewrite (ef_table _ _ _ _ _ _ _ _ _ _ EF). }
    rewrite (bind_Ok _ _ _ _ _ Hff). eexists _, σ3. split; [reflexivity|]. left. split; [done|].
    by apply (crowded_place _ σ1.(phys).(kernel_pool)); [apply (Hpl1 false)|].
Qed.

(** ** The whole segment *)

(** The frames [rs] are mapped at the pages from [upage] on and hold [data]; the rest of
    the address space is as it was. *)
Record segment_loaded (σ : vm) (B : live) (pd : Z) (T : gmap Z Z) (upage : Z) (w : bool) (data : list Z)
    (σ' : vm) (B' : live) (T' : gmap Z Z) (rs : list Z) : Prop := {
  sl_space : space σ' B' pd T';
  sl_data : concat ((λ r, block σ'.(phys).(ram) r 4096) <$> rs) = data;
  sl_entries : ∀ (j : nat) r, rs !! j = Some r →
    B' true !! r = Some 1 ∧ entry σ'.(phys).(ram) T' (upage + 4096 * Z.of_nat j) = r - PHYS_BASE + flags true w;
  sl_others : ∀ u, user_page u → ¬ upage ≤ u < upage + 4096 * zlen rs → entry σ'.(phys).(ram) T' u = entry σ.(phys).(ram) T u;
  sl_frames : ∀ s, B true !! s = Some 1 →
    B' true !! s = Some 1 ∧ s ∉ rs ∧ block σ'.(phys).(ram) s 4096 = block σ.(phys).(ram) s 4096;
}.

Lemma page_bytes_split file pos rd zr :
  let n := if rd <? 4096 then rd else 4096 in
  0 ≤ rd → 0 ≤ pos → 4096 - n ≤ zr →
  page_bytes file pos n ++ take (Z.to_nat (rd - n)) (drop (Z.to_nat (pos + n)) file) ++ replicate (Z.to_nat (zr - (4096 - n))) 0 =
  take (Z.to_nat rd) (drop (Z.to_nat pos) file) ++ replicate (Z.to_nat zr) 0.
Proof.
  intros n Hrd Hpos Hzr. unfold page_bytes. subst n. destruct (Z.ltb_spec rd 4096) as [H|H].
  - rewrite Z.sub_diag. change (Z.to_nat 0) with 0%nat. rewrite take_0. cbn [app]. rewrite <- app_assoc. f_equal.
    rewrite <- replicate_add. f_equal. lia.
  - rewrite Z.sub_diag. change (Z.to_nat 0) with 0%nat. cbn [replicate]. rewrite app_nil_r, Z.sub_0_r, app_assoc. f_equal.
    replace (Z.to_nat (pos + 4096)) with (Z.to_nat pos + Z.to_nat 4096)%nat by lia. rewrite <- drop_drop.
    replace (Z.to_nat rd) with (Z.to_nat 4096 + Z.to_nat (rd - 4096))%nat by lia. by rewrite take_take_drop.
Qed.

Lemma load_loop w pd f ino N : ∀ σ B T x upage rd zr,
  loader σ B pd T f x ino → 0 ≤ rd → 0 ≤ zr → rd + zr = 4096 * Z.of_nat N → rd + zr < W32 →
  let file := content σ.(fsys).(disk) ino.(idata) in
  0 ≤ x.(fpos) → x.(fpos) + rd ≤ zlen file → Forall is_u8 file → (N ≤ free_pages σ.(phys).(user_pool))%nat →
  0 ≤ upage → upage `mod` 4096 = 0 → upage + 4096 * Z.of_nat N ≤ PHYS_BASE →
  (∀ j, 0 ≤ j < Z.of_nat N → present (entry σ.(phys).(ram) T (upage + 4096 * j)) = false) →
  ∃ ok σ', iter (S N) (load_page f w) (upage, rd, zr) σ = Ok (ok, σ') ∧
    if ok then ∃ B' T' rs, length rs = N ∧
      segment_loaded σ B pd T upage w (take (Z.to_nat rd) (drop (Z.to_nat x.(fpos)) file) ++ replicate (Z.to_nat zr) 0) σ' B' T' rs
    else ∃ b, B false ⊆ b ∧ crowded (pool_of false σ.(phys)) b 1.
Proof.
  induction N as [|N IH]; intros σ B T x upage rd zr LD Hrd Hzr Hsum Hw32 file Hpos Hdata Hu8 Hfree Hup Hal Hend Habs.
  - exists true, σ. assert (rd = 0 ∧ zr = 0) as [-> ->] by lia. split; [done|]. exists B, T, []. split; [done|].
    split; try done; [apply LD|]. intros s Hs. split_and!; [done|apply not_elem_of_nil|done].
  - destruct (load_page_run σ B pd T f x ino upage rd zr w LD) as (res & σ1 & Hr & Hres);
      [lia|lia|lia|lia|done|fold file; zcase; lia|done|lia|split; [lia|done]|by specialize (Habs 0 ltac:(lia)); rewrite Z.mul_0_r, Z.add_0_r in Habs|].
    destruct Hres as [[-> Hcr]|(-> & r & B1 & T1 & PL)].
    { exists false, σ1. split; [by rewrite (iter_break _ _ _ _ _ _ Hr)|]. by exists (B false). }
    set (n := if rd <? 4096 then rd else 4096) in *. pose proof PL as [LD1 Hfr Huser Hker Hent Hblk Hoth Hfrm Hdisk Hplace Hfree1].
    assert (0 ≤ n ∧ n ≤ rd ∧ 4096 - n ≤ zr) as (Hn1 & Hn2 & Hn3) by (unfold n; zcase; lia).
    destruct (IH σ1 B1 T1 _ (upage + 4096) (rd - n) (zr - (4096 - n)) LD1) as (ok & σ2 & Hr2 & Hok); cbn [fpos]; rewrite ?Hdisk; fold file;
      [lia|lia|lia|lia|lia|lia|done|lia|lia|dm_lia|lia|..].
    { intros j Hj. rewrite Hoth; [|split; [lia|dm_lia]|lia]. specialize (Habs (j + 1) ltac:(lia)). by replace (upage + 4096 + 4096 * j) with (upage + 4096 * (j + 1)) by lia. }
    cbn [fpos] in Hok. rewrite Hdisk in Hok. fold file in Hok.
    exists ok, σ2. split; [by rewrite (iter_continue _ _ _ _ _ _ Hr)|]. destruct ok.
    2:{ destruct Hok as (b & Hb & Hcr). exists b. split; [by etransitivity|]. by apply (crowded_place _ σ1.(phys).(kernel_pool)); [apply (Hplace false)|]. }
    destruct Hok as (B2 & T2 & rs & Hlen & [S1 S2 S3 S4 S5]).
    assert (B1 true !! r = Some 1) as Hr1 by (rewrite Huser; apply lookup_insert_eq). destruct (S5 r Hr1) as (Hr2' & Hnin & Hrblk).
    exists B2, T2, (r :: rs). split; [cbn; lia|]. split.
    + done.
    + cbn [fmap list_fmap concat]. change (list_fmap _ _ ?g rs) with (g <$> rs). rewrite S2, Hrblk, Hblk. fold file. by apply page_bytes_split.
    + intros [|j] s Hj; cbn in Hj.
      * injection Hj as <-. split; [done|]. rewrite Z.mul_0_r, Z.add_0_r. rewrite S4; [done|split; [lia|done]|lia].
      * destruct (S3 j s Hj) as [H1 H2]. split; [done|]. rewrite <- H2. f_equal. lia.
    + intros u Hu Hout. cbn [length] in Hout. rewrite S4, Hoth; [done|done|lia|done|lia].
    + intros s Hs. assert (s ≠ r) as Hne by congruence.
      destruct (S5 s) as (H1 & H2 & H3); [rewrite Huser, lookup_insert_ne by done; done|].
      split_and!; [done|by apply not_elem_of_cons|]. rewrite H3. by apply Hfrm.
Qed.


(** ** Witness: a file of 1000 bytes behind the first page *)

Definition load_machine (m : mem) : vm :=
  Vm (one_page m 32 72) small_fs (Cpu (PD - PHYS_BASE) ∅) {[1 := Thread PD ∅ [] [] 0 [] 0]} 1 [] 1 ∅ (Swap None [] ∅ 1) (Consts 0 300000 0).

Lemma load_machine_ok m : blank m →
  loader (load_machine m) one_live PD {[32 := PT]} 20 (File 10 0 false) (Inode 1 1 false 0 (InodeDisk 2 1000 INODE_MAGIC)).
Proof.
  intros Hb. split; cbn [load_machine fsys threads current frame_sema con phys].
  - apply (one_space m Hb 32 72); [lia|lia|done].
  - split; [done|done|apply small_extent|]. split; [apply not_elem_of_nil|done].
  - exists (Thread PD ∅ [] [] 0 [] 0). split; [apply lookup_singleton_eq|done].
  - done.
  - done.
  - cbn [one_page user_pool base used_map bit_cnt ram_pages]. by_decide.
Qed.

Lemma load_machine_absent m u : blank m → user_page u → UP + 4096 ≤ u < UP + 4096 + 1000 + 3096 →
  present (entry (load_machine m).(phys).(ram) {[32 := PT]} u) = false.
Proof.
  intros Hb [Hu1 Hu2] Hu3. change (present (entry (one_page m 32 72).(ram) {[32 := PT]} u) = false).
  rewrite (one_entry m Hb 32 72) by lia. unfold UP in Hu3. assert (u = 134516736) as -> by dm_lia. by vm_compute.
Qed.

Lemma one_frame σ B pd T u w data σ' B' T' rs :
  segment_loaded σ B pd T u w data σ' B' T' rs → zlen rs = 1 → ∃ r, block σ'.(phys).(ram) r 4096 = data.
Proof.
  intros S Hl. destruct rs as [|r [|]]; [done| |cbn in Hl; lia]. exists r.
  pose proof (sl_data _ _ _ _ _ _ _ _ _ _ _ S) as Hd. cbn [fmap list_fmap concat] in Hd. by rewrite app_nil_r in Hd.
Qed.

