(* ===== verification/ProcUser.v ===== *)
(** * Reading user memory

    The kernel reads the arguments of a system call through the page tables of the
    process: if the pages are present it gets the bytes that the process sees there, and
    only the accessed bits of the entries change. *)

From S2P Require Import Prelude Vaddr Bytes Bitmap Str Palloc Filesys Vm VmPagedir VmSpace VmLife VmSwap Process Syscall ProcStack.
Local Open Scope k_scope.

(** ** What the process sees *)

Record process (σ : vm) (B : live) (pd : Z) (T : gmap Z Z) (x : thread) : Prop := {
  pr_space : space σ B pd T;
  pr_owns : owns B (entry σ.(phys).(ram) T);
  pr_cr3 : σ.(proc).(cr3) = pd - PHYS_BASE;
  pr_thread : σ.(threads) !! σ.(current) = Some x;
  pr_pagedir : x.(pagedir) = pd;
}.

Definition user_byte (m : mem) (T : gmap Z Z) (v : Z) : option Z :=
  if present (entry m T v) then m !! (frame_of (entry m T v) + v `mod` 4096) else None.

(** The bytes [bs] are at the user address [v]. *)
Definition in_user (m : mem) (T : gmap Z Z) (v : Z) (bs : list Z) : Prop :=
  0 ≤ v ∧ v + zlen bs ≤ PHYS_BASE ∧ ∀ i b, bs !! i = Some b → user_byte m T (v + Z.of_nat i) = Some b.

Definition user_word (m : mem) (T : gmap Z Z) (v w : Z) : Prop := is_u32 w ∧ in_user m T v (le32 w).

(** The same frames with the same contents behind the same pages. *)
Record same_view (B : live) (T : gmap Z Z) (m m' : mem) : Prop := {
  sv_present : ∀ u, 0 ≤ u < PHYS_BASE → present (entry m' T u) = present (entry m T u);
  sv_frame : ∀ u, 0 ≤ u < PHYS_BASE → frame_of (entry m' T u) = frame_of (entry m T u);
  sv_bytes : ∀ f a, B true !! f = Some 1 → f ≤ a < f + 4096 → m' !! a = m !! a;
}.

Lemma same_view_refl B T m : same_view B T m m.
Proof. by split. Qed.

Lemma same_view_trans B T m1 m2 m3 : same_view B T m1 m2 → same_view B T m2 m3 → same_view B T m1 m3.
Proof.
  intros [H1 H2 H3] [H4 H5 H6]. split.
  - intros u Hu. by rewrite H4, H1.
  - intros u Hu. by rewrite H5, H2.
  - intros f a Hf Ha. by rewrite (H6 f), (H3 f).
Qed.

Lemma entry_page m T v : 0 ≤ v < PHYS_BASE → entry m T (v - v `mod` 4096) = entry m T v.
Proof.
  intros Hv. assert (0 ≤ v - v `mod` 4096 < PHYS_BASE) as Hu by dm_lia. unfold entry.
  assert ((pg_no (v - v `mod` 4096) =? pg_no v) = true) as Hx by (apply Z.eqb_eq; rewrite !pg_no_div; dm_lia).
  rewrite page_indices in Hx by done. apply bool_decide_eq_true in Hx. by injection Hx as -> ->.
Qed.

(** The frame behind a present page is the process's own. *)
Lemma own_frame σ B pd T x v : process σ B pd T x → 0 ≤ v < PHYS_BASE →
  present (entry σ.(phys).(ram) T v) = true → B true !! frame_of (entry σ.(phys).(ram) T v) = Some 1.
Proof.
  intros PR Hv Hp. rewrite <- entry_page in * by done. apply (ow_frame _ _ (pr_owns _ _ _ _ _ PR)); [|done].
  split; dm_lia.
Qed.

Lemma view_byte σ B pd T x m v : process σ B pd T x → same_view B T σ.(phys).(ram) m → 0 ≤ v < PHYS_BASE →
  user_byte m T v = user_byte σ.(phys).(ram) T v.
Proof.
  intros PR [H1 H2 H3] Hv. unfold user_byte. rewrite H1, H2 by done. destruct (present _) eqn:Hp; [|done].
  apply (H3 (frame_of (entry σ.(phys).(ram) T v))); [by eapply own_frame|dm_lia].
Qed.

Lemma view_user σ B pd T x m v bs : process σ B pd T x → same_view B T σ.(phys).(ram) m →
  in_user σ.(phys).(ram) T v bs → in_user m T v bs.
Proof.
  intros PR SV (H1 & H2 & H3). split_and!; [done..|]. intros i b Hi. pose proof (lookup_lt_Some _ _ _ Hi).
  rewrite (view_byte _ _ _ _ _ _ _ PR SV) by lia. by apply H3.
Qed.

(** ** Reading *)

Lemma touch_process σ B pd T x m v write : process σ B pd T x → 0 ≤ v < PHYS_BASE →
  present (entry σ.(phys).(ram) T v) = true →
  space (set_mem m σ) B pd T → spares pd T σ.(phys).(ram) m →
  (∀ u, 0 ≤ u < PHYS_BASE →
    entry m T u = put (entry σ.(phys).(ram) T) v (Z.lor (entry σ.(phys).(ram) T v) (marks write)) u) →
  process (set_mem m σ) B pd T x ∧ same_view B T σ.(phys).(ram) m.
Proof.
  intros PR Hv Hp SP' Hs Hput. pose proof PR as [SP OW Hc Ht Hpd].
  assert (∀ u, 0 ≤ u < PHYS_BASE → pg_no u = pg_no v → entry σ.(phys).(ram) T u = entry σ.(phys).(ram) T v) as Hsame.
  { intros u Hu E. pose proof (page_indices u v Hu Hv) as Hi. rewrite (proj2 (Z.eqb_eq _ _) E) in Hi. symmetry in Hi.
    apply bool_decide_eq_true in Hi. unfold entry. by injection Hi as -> ->. }
  destruct (touched (entry σ.(phys).(ram) T v) (marks write)) as (E1 & E2 & _);
    [by apply (entry_range SP)|by destruct write|].
  assert (same_view B T σ.(phys).(ram) m) as SV.
  { split.
    - intros u Hu. rewrite Hput by done. unfold put. destruct (Z.eqb_spec (pg_no u) (pg_no v)); [|done].
      rewrite (Hsame u), Hp by done. by apply E2.
    - intros u Hu. rewrite Hput by done. unfold put. destruct (Z.eqb_spec (pg_no u) (pg_no v)); [|done].
      by rewrite (Hsame u) by done.
    - intros f a Hf Ha. apply Hs. intros Hin. pose proof (sp_paging _ _ _ _ SP) as PG. pose proof (pg_space _ _ _ _ PG) as AS.
      apply (user_frame_apart σ.(phys) B pd T f a); [apply PG|done|apply AS|intros i pt Hi; by apply (as_table _ _ _ _ AS i)|done|done]. }
  split; [|done]. destruct SV as [V1 V2 _]. split; [done| |done..]. change (owns B (entry m T)). split.
  - intros u [Hu Ha] Hpu. rewrite V1 in Hpu by done. rewrite V2 by done. by apply OW.
  - intros u w [Hu Ha] [Hw Hb] H1 H2. rewrite V1 in H1, H2 by done. rewrite !V2 by done. by apply OW.
Qed.

(** Computations that only touch entries: the process sees the same afterwards. *)
Definition looks {A} (c : K A) (σ : sys) (B : live) (pd : Z) (T : gmap Z Z) (x : thread) (a : A) : Prop :=
  ∃ m, c σ = Ok (Some a, upd_mach (set_mem m) σ) ∧ process (set_mem m σ.(mach)) B pd T x ∧
    same_view B T σ.(mach).(phys).(ram) m.

Lemma ld_user_run σ B pd T x v b : process σ.(mach) B pd T x → 0 ≤ v < PHYS_BASE →
  user_byte σ.(mach).(phys).(ram) T v = Some b → looks (ld_user v) σ B pd T x b.
Proof.
  intros PR Hv Hb. unfold user_byte in Hb. destruct (present _) eqn:Hp; [|done].
  pose proof PR as [SP OW Hc Ht Hpd].
  destruct (walk_fault_free σ.(mach) B pd T v false SP Hc Hv Hp ltac:(done)) as (m & Hr & SP' & Hs & Hput).
  destruct (touch_process _ _ _ _ _ m v false PR Hv Hp SP' Hs Hput) as [PR' SV].
  exists m. split_and!; [|done..]. unfold ld_user. cbn [access].
  rewrite (kbind_Some _ _ σ (frame_of (entry σ.(mach).(phys).(ram) T v) + v `mod` 4096) (upd_mach (set_mem m) σ)).
  2:{ by rewrite (kbind_Some _ _ _ _ _ (onvm_run _ _ _ _ Hr)). }
  rewrite <- (sv_bytes _ _ _ _ SV (frame_of (entry σ.(mach).(phys).(ram) T v))) in Hb; [|by eapply own_frame|dm_lia].
  set (a := frame_of _ + _) in *.
  assert (onvm (on_phys (on_ram (ldb a))) (upd_mach (set_mem m) σ) = Ok (Some b, upd_mach (set_mem m) σ)) as ->; [|done].
  unfold onvm, on_phys, on_ram. cbn. unfold ldb. by rewrite Hb.
Qed.

Lemma looks_kbind {A C} (c : K A) (k : A → K C) σ B pd T x a r :
  looks c σ B pd T x a →
  (∀ m, process (set_mem m σ.(mach)) B pd T x → same_view B T σ.(mach).(phys).(ram) m →
    looks (k a) (upd_mach (set_mem m) σ) B pd T x r) →
  looks (kbind c k) σ B pd T x r.
Proof.
  intros (m & Hr & PR & SV) Hk. destruct (Hk m PR SV) as (m' & Hr' & PR' & SV').
  exists m'. split_and!; [|done|by eapply same_view_trans]. by rewrite (kbind_Some _ _ _ _ _ Hr).
Qed.

Lemma looks_ret {A} σ B pd T x (a : A) : process σ.(mach) B pd T x → looks (kret a) σ B pd T x a.
Proof.
  intros PR. exists σ.(mach).(phys).(ram).
  assert (set_mem σ.(mach).(phys).(ram) σ.(mach) = σ.(mach)) as E by (by destruct σ.(mach) as [[]]).
  assert (upd_mach (set_mem σ.(mach).(phys).(ram)) σ = σ) as E' by (destruct σ; unfold upd_mach; cbn in *; by rewrite E).
  rewrite E, E'. split_and!; [done..|apply same_view_refl].
Qed.

Lemma ld_bytes_run bs : ∀ σ B pd T x v, process σ.(mach) B pd T x → in_user σ.(mach).(phys).(ram) T v bs →
  looks (ld_bytes v (length bs)) σ B pd T x bs.
Proof.
  induction bs as [|b bs IH]; intros σ B pd T x v PR IU; [by apply looks_ret|].
  pose proof IU as (H1 & H2 & H3). cbn [length] in H2. cbn [length ld_bytes].
  apply (looks_kbind _ _ _ _ _ _ _ b).
  { apply ld_user_run; [done|lia|]. specialize (H3 0%nat b eq_refl). by rewrite Z.add_0_r in H3. }
  intros m PR' SV. apply (looks_kbind _ _ _ _ _ _ _ bs).
  - rewrite u32_small by (unfold PHYS_BASE, LOADER_PHYS_BASE in *; mlia). apply IH; [done|].
    apply (view_user _ _ _ _ _ m v (b :: bs) PR SV) in IU as (H4 & H5 & H6). split_and!; [lia|lia|].
    intros i c Hi. replace (v + 1 + Z.of_nat i) with (v + Z.of_nat (S i)) by lia. by apply H6.
  - intros m' PR'' SV'. by apply looks_ret.
Qed.

Lemma ld_word_run σ B pd T x v w : process σ.(mach) B pd T x → user_word σ.(mach).(phys).(ram) T v w →
  looks (ld_word v) σ B pd T x w.
Proof.
  intros PR [Hw IU]. unfold ld_word. apply (looks_kbind _ _ _ _ _ _ _ (le32 w)).
  - exact (ld_bytes_run (le32 w) σ B pd T x v PR IU).
  - intros m PR' SV. unfold le32. cbv iota beta. rewrite of_le32_le32 by done. by apply looks_ret.
Qed.

Lemma onvm_same {A} (c : M vm A) σ a : c σ.(mach) = Ok (a, σ.(mach)) → onvm c σ = Ok (Some a, σ).
Proof. intros H. rewrite (onvm_run _ _ _ _ H). by destruct σ. Qed.

Lemma cur_thread_run σ x : σ.(mach).(threads) !! σ.(mach).(current) = Some x → cur_thread σ = Ok (Some x, σ).
Proof.
  intros H. unfold cur_thread. rewrite (kbind_Some _ _ σ σ.(mach).(current) σ) by done.
  apply onvm_same. unfold thread_at. by rewrite H.
Qed.

(** ** Checking pointers *)

(** [is_invalid] answers whether the process has no page there. *)
Definition bad_pointer (m : mem) (T : gmap Z Z) (v : Z) : bool :=
  (v =? NULL) || (PHYS_BASE <=? v) || negb (present (entry m T v)).

Lemma is_invalid_run σ B pd T x v : process σ.(mach) B pd T x → 0 ≤ v →
  is_invalid v σ = Ok (Some (bad_pointer σ.(mach).(phys).(ram) T v), σ).
Proof.
  intros PR Hv. pose proof PR as [SP OW Hc Ht Hpd]. unfold is_invalid, bad_pointer, is_kernel_vaddr.
  destruct (Z.eqb_spec v NULL) as [->|Hn]; [done|]. destruct (Z.leb_spec PHYS_BASE v) as [Hk|Hk]; [done|]. cbn [orb].
  rewrite (kbind_Some _ _ _ _ _ (cur_thread_run σ x Ht)), Hpd.
  destruct (get_page_effect SP v ltac:(lia)) as (r & Hr & Heff). cbn [perform] in Hr.
  rewrite (kbind_Some _ _ _ _ _ (onvm_same _ _ _ Hr)). unfold kret, ret. do 3 f_equal.
  pose proof (ef_answer _ _ _ _ _ _ _ _ _ _ Heff) as Ha. inversion Ha; subst.
  destruct (present (entry σ.(mach).(phys).(ram) T v)) eqn:Hp; [|done].
  destruct (page_block _ B true _ (pg_alloc _ _ _ _ (sp_paging _ _ _ _ SP)) (own_frame _ _ _ _ _ v PR ltac:(lia) Hp)) as ((_ & Hkp & _) & _).
  unfold PHYS_BASE, LOADER_PHYS_BASE in Hkp. apply Z.eqb_neq. unfold NULL. dm_lia.
Qed.

Lemma good_byte m T v b : 0 < v < PHYS_BASE → user_byte m T v = Some b → bad_pointer m T v = false.
Proof.
  intros Hv Hb. unfold user_byte in Hb. unfold bad_pointer. destruct (present _); [|done].
  rewrite (proj2 (Z.eqb_neq v NULL)), (proj2 (Z.leb_gt _ _)) by mlia. done.
Qed.
