(* ===== verification/ProcExit.v ===== *)
(** * The end of a process

    What [exit] and a bad pointer do to a process, up to the parent's [wait]: its files
    are closed, its pages go back to the pools, and the parent gets the status once. *)

From S2P Require Import Prelude Vaddr Bytes Bitmap Str Palloc Filesys Vm VmPagedir VmSpace VmLife VmSwap Process Syscall ProcStack ProcUser.
Local Open Scope k_scope.

(** ** Closing files *)

Fixpoint close_all (l : list Z) (g : fs) : res fs :=
  match l with [] => Ok g | f :: l => rbind (file_close f g) (λ r, close_all l r.2) end.

Lemma close_all_app l1 l2 g : close_all (l1 ++ l2) g = rbind (close_all l1 g) (close_all l2).
Proof.
  revert g. induction l1 as [|f l1 IH]; intros g; [done|]. cbn. destruct (file_close f g) as [[[] h]|]; [|done]. apply IH.
Qed.

Definition with_fs (g : fs) (σ : sys) : sys := upd_mach (upd_fsys (λ _, g)) σ.

Lemma with_fs_same σ : with_fs σ.(mach).(fsys) σ = σ.
Proof. by destruct σ as [[]]. Qed.

Lemma close_run f g' σ : file_close f σ.(mach).(fsys) = Ok (tt, g') → onfs (file_close f) σ = Ok (Some tt, with_fs g' σ).
Proof. intros H. apply onvm_run. unfold on_fs. by rewrite H. Qed.

Lemma close_each l : ∀ σ g, close_all l σ.(mach).(fsys) = Ok g →
  each l (λ f, onfs (file_close f)) σ = Ok (Some tt, with_fs g σ).
Proof.
  induction l as [|f l IH]; intros σ g H; cbn in H.
  - injection H as <-. by rewrite with_fs_same.
  - destruct (file_close f σ.(mach).(fsys)) as [[[] h]|] eqn:E; [|done]. cbn [each].
    rewrite (kbind_Some _ _ _ _ _ (close_run _ _ _ E)). exact (IH (with_fs h σ) g H).
Qed.

(** ** The address space *)

(** The machine when the process has given up its directory but not freed it. *)
Definition detached (σ : vm) (x : thread) (g : fs) : vm :=
  Vm σ.(phys) g (Cpu (σ.(con).(base_page_dir) - PHYS_BASE) ∅)
    (<[σ.(current) := Thread NULL x.(sup_page_table) [] [] x.(self_file) x.(exec_name) x.(info)]> σ.(threads))
    σ.(current) σ.(frame_table) σ.(frame_sema) σ.(sup_entries) σ.(swaps) σ.(con).

(** The process has nothing mapped from files, and its files can be closed. *)
Record leaving (σ : vm) (B : live) (pd : Z) (T : gmap Z Z) (x : thread) (g : fs) : Prop := {
  le_process : process σ B pd T x;
  le_mappings : x.(mapping_list) = [];
  le_files : close_all (x.(file_list) ++ [x.(self_file)]) σ.(fsys) = Ok g;
  le_base : pd ≠ σ.(con).(base_page_dir) ∧ kernel_page σ.(con).(base_page_dir);
}.

Lemma upd_cur_run f σ x : σ.(mach).(threads) !! σ.(mach).(current) = Some x →
  upd_cur f σ = Ok (Some tt, upd_mach (upd_threads <[σ.(mach).(current) := f x]>) σ).
Proof.
  intros H. unfold upd_cur. rewrite (kbind_Some _ _ σ σ.(mach).(current) σ) by done.
  rewrite (kbind_Some _ _ σ x σ) by (apply onvm_same; unfold thread_at; by rewrite H). by apply onvm_run.
Qed.

Lemma activate_base σ : kernel_page σ.(con).(base_page_dir) →
  pagedir_activate NULL σ = Ok (tt, upd_proc (λ _, Cpu (σ.(con).(base_page_dir) - PHYS_BASE) ∅) σ).
Proof.
  intros (H1 & H2 & _). unfold pagedir_activate. rewrite (bind_Ok _ _ σ σ.(con) σ) by done. cbn [Z.eqb NULL].
  by rewrite (bind_Ok _ _ _ _ _ (pure_run _ _ σ (vtop_ok _ H1 H2))).
Qed.

Lemma process_exit_run σ B pd T x g : leaving σ.(mach) B pd T x g →
  ∃ g1 m' B', process_exit σ = Ok (Some tt, upd_mach (λ _, m') σ) ∧
    freed (detached σ.(mach) x g1) B (pages_of σ.(mach) pd T) m' B' ∧ close_all [x.(self_file)] g1 = Ok g.
Proof.
  intros [PR Hm Hfs [Hb Hkb]]. pose proof PR as [SP OW Hc Ht Hpd]. rewrite close_all_app in Hfs.
  destruct (close_all x.(file_list) σ.(mach).(fsys)) as [g1|] eqn:E1; [|done]. cbn [rbind] in Hfs.
  destruct (destroy_run (detached σ.(mach) x g1) B pd T (space_phys SP (detached _ _ _) eq_refl) OW Hb) as (m' & B' & Hd & HF).
  exists g1, m', B'. split_and!; [|exact HF|exact Hfs].
  destruct (pd_page (sp_paging _ _ _ _ SP)) as ((_ & Hk & _) & _). unfold PHYS_BASE, LOADER_PHYS_BASE in Hk.
  unfold process_exit. rewrite (kbind_Some _ _ _ _ _ (cur_thread_run σ x Ht)), Hpd. rewrite (proj2 (Z.eqb_neq pd NULL)) by mlia.
  rewrite Hm. cbn [each]. rewrite (kbind_Some _ _ σ tt σ) by done. rewrite (kbind_Some _ _ _ _ _ (close_each _ _ _ E1)).
  rewrite (kbind_Some _ _ _ _ _ (upd_cur_run _ (with_fs g1 σ) x Ht)).
  erewrite (kbind_Some (upd_cur (with_pagedir NULL))) by (apply upd_cur_run; cbn; apply lookup_insert_eq).
  erewrite (kbind_Some (onvm (pagedir_activate NULL))) by (apply onvm_run, activate_base, Hkb).
  match goal with |- onvm _ ?s = _ => assert (s = upd_mach (λ _, detached σ.(mach) x g1) σ) as -> end.
  { unfold upd_mach, with_fs, upd_threads, upd_proc, detached, with_pagedir, with_file_list. cbn. rewrite insert_insert_eq. by rewrite Hm. }
  exact (onvm_run _ (upd_mach (λ _, detached σ.(mach) x g1) σ) _ _ Hd).
Qed.

(** ** The thread *)

(** What the parent finds in the child's record once the child is gone. *)
Definition signalled (i : thread_info) : thread_info :=
  ThreadInfo i.(ti_tid) i.(load_success) i.(exit_status) (i.(wait_sema) + 1) (i.(exec_sema) + 1) i.(is_waited) i.(is_killed).

(** The process is gone: its files are closed, its pages are free, its record says so. *)
Record gone_with (σ : sys) (B : live) (pd : Z) (T : gmap Z Z) (x : thread) (g : fs) (i : thread_info) (σ' : sys) : Prop := {
  gw_machine : ∃ g1 p B', σ'.(mach) = upd_phys (λ _, p) (detached σ.(mach) x g) ∧
    freed (detached σ.(mach) x g1) B (pages_of σ.(mach) pd T) (upd_phys (λ _, p) (detached σ.(mach) x g1)) B';
  gw_infos : σ'.(infos) = <[x.(info) := signalled i]> σ.(infos);
  gw_children : σ'.(children) = σ.(children);
  gw_console : σ'.(console) = σ.(console);
  gw_holder : σ'.(holder) = σ.(holder);
}.

Lemma info_at_run p i σ : σ.(infos) !! p = Some i → info_at p σ = Ok (Some i, σ).
Proof. intros H. unfold info_at. by rewrite H. Qed.

Lemma thread_exit_run {A} σ B pd T x g i : leaving σ.(mach) B pd T x g → σ.(infos) !! x.(info) = Some i →
  ∃ σ', thread_exit (A := A) σ = Ok (None, σ') ∧ gone_with σ B pd T x g i σ'.
Proof.
  intros LE Hi. destruct (process_exit_run σ B pd T x g LE) as (g1 & m' & B' & Hr & HF & Hg).
  destruct (fd_state _ _ _ _ _ HF) as [p ->]. cbn in Hg.
  destruct (file_close x.(self_file) g1) as [[[] h]|] eqn:Ec; [|done]. cbn in Hg. injection Hg as <-.
  unfold thread_exit. rewrite (kbind_Some _ _ _ _ _ Hr).
  erewrite (kbind_Some cur_thread) by (apply cur_thread_run; cbn; apply lookup_insert_eq).
  erewrite (kbind_Some (onfs _)) by (apply close_run; exact Ec).
  erewrite (kbind_Some (info_at _)) by (apply info_at_run; exact Hi).
  eexists. split; [reflexivity|]. split; try done. by exists g1, p, B'.
Qed.

Definition with_status (v : Z) (killed : bool) (i : thread_info) : thread_info :=
  ThreadInfo i.(ti_tid) i.(load_success) v i.(wait_sema) i.(exec_sema) i.(is_waited) killed.

(** A process is ended with the status [v]: the record is signalled, the line is on the
    console, the files are closed, and the pages of the process and no others are free. *)
Record ended_with (σ : sys) (B : live) (pd : Z) (T : gmap Z Z) (x : thread) (g : fs) (i : thread_info) (v : Z) (killed : bool)
    (σ' : sys) : Prop := {
  ew_infos : σ'.(infos) = <[x.(info) := signalled (with_status v killed i)]> σ.(infos);
  ew_children : σ'.(children) = σ.(children);
  ew_console : σ'.(console) = σ.(console) ++ [Exit_line x.(exec_name) v];
  ew_files : σ'.(mach).(fsys) = g;
  ew_pages : ∃ B', allocator σ'.(mach).(phys) B' ∧
    (∀ u a, pages_of σ.(mach) pd T u a → B' u !! a = None) ∧ (∀ u a, ¬ pages_of σ.(mach) pd T u a → B' u !! a = B u !! a);
  ew_directory : σ'.(mach).(proc).(cr3) = σ.(mach).(con).(base_page_dir) - PHYS_BASE;
}.

Lemma gone_ended σ σ1 B pd T x g i v killed σ' :
  gone_with σ1 B pd T x g (with_status v killed i) σ' →
  σ1.(infos) = <[x.(info) := with_status v killed i]> σ.(infos) → σ1.(children) = σ.(children) →
  σ1.(console) = σ.(console) ++ [Exit_line x.(exec_name) v] → σ1.(mach).(con) = σ.(mach).(con) →
  (∀ u a, pages_of σ1.(mach) pd T u a ↔ pages_of σ.(mach) pd T u a) →
  ended_with σ B pd T x g i v killed σ'.
Proof.
  intros [(g1 & p & B' & Em & HF) Ei Ech Eco _] E1 E2 E3 E4 Hp. split.
  - by rewrite Ei, E1, insert_insert_eq.
  - by rewrite Ech.
  - by rewrite Eco.
  - by rewrite Em.
  - destruct HF as [Ha Hg Hk _ _]. exists B'. rewrite Em. split_and!; [exact Ha|..].
    + intros u a H. by apply Hg, Hp.
    + intros u a H. apply Hk. by rewrite Hp.
  - rewrite Em. cbn. by rewrite E4.
Qed.

Lemma die_run {A} σ B pd T x g i : leaving σ.(mach) B pd T x g → σ.(infos) !! x.(info) = Some i →
  ∃ σ', die (A := A) σ = Ok (None, σ') ∧ ended_with σ B pd T x g i (-1) true σ'.
Proof.
  intros LE Hi. pose proof (pr_thread _ _ _ _ _ (le_process _ _ _ _ _ _ LE)) as Ht.
  unfold die. rewrite (kbind_Some _ _ _ _ _ (cur_thread_run σ x Ht)).
  set (σ1 := upd_console (λ l, l ++ [Exit_line x.(exec_name) (-1)]) σ). rewrite (kbind_Some _ _ σ tt σ1) by done.
  rewrite (kbind_Some _ _ _ _ _ (info_at_run _ i σ1 Hi)).
  set (σ2 := upd_infos <[x.(info) := with_status (-1) true i]> σ1). rewrite (kbind_Some _ _ σ1 tt σ2) by done.
  destruct (thread_exit_run (A := A) σ2 B pd T x g (with_status (-1) true i) LE) as (σ' & Hr & HG); [apply lookup_insert_eq|].
  exists σ'. split; [exact Hr|]. by apply (gone_ended _ _ _ _ _ _ _ _ _ _ _ HG).
Qed.

(** ** The exit system call *)

Lemma leaving_view σ B pd T x g m : leaving σ B pd T x g → process (set_mem m σ) B pd T x → leaving (set_mem m σ) B pd T x g.
Proof. intros [H1 H2 H3 H4] PR. by split. Qed.

Lemma pages_of_view σ B pd T m : same_view B T σ.(phys).(ram) m → ∀ u a, pages_of (set_mem m σ) pd T u a ↔ pages_of σ pd T u a.
Proof.
  intros [V1 V2 _] [] a; [|done]. cbn. split; intros (u & Hu & Hp & ->); exists u; pose proof Hu as [Hu' _].
  - rewrite V1 in Hp by done. by rewrite V2.
  - by rewrite V1, V2.
Qed.

(** The end that handle_exit and handle_close share. *)
Lemma status_exit_run {A} σ B pd T x g i v : leaving σ.(mach) B pd T x g → σ.(infos) !! x.(info) = Some i →
  ∃ σ', (x <- cur_thread ;;
    i <- info_at x.(info) ;;
    set_info x.(info) (ThreadInfo i.(ti_tid) i.(load_success) v i.(wait_sema) i.(exec_sema) i.(is_waited) i.(is_killed)) ;;
    print (Exit_line x.(exec_name) v) ;;
    thread_exit (A := A)) σ = Ok (None, σ') ∧ ended_with σ B pd T x g i v i.(is_killed) σ'.
Proof.
  intros LE Hi. pose proof (pr_thread _ _ _ _ _ (le_process _ _ _ _ _ _ LE)) as Ht.
  rewrite (kbind_Some _ _ _ _ _ (cur_thread_run σ x Ht)), (kbind_Some _ _ _ _ _ (info_at_run _ i σ Hi)).
  set (σ2 := upd_infos <[x.(info) := with_status v i.(is_killed) i]> σ). rewrite (kbind_Some _ _ σ tt σ2) by done.
  set (σ3 := upd_console (λ l, l ++ [Exit_line x.(exec_name) v]) σ2). rewrite (kbind_Some _ _ σ2 tt σ3) by done.
  destruct (thread_exit_run (A := A) σ3 B pd T x g (with_status v i.(is_killed) i) LE) as (σ' & Hr & HG); [apply lookup_insert_eq|].
  exists σ'. split; [exact Hr|]. by apply (gone_ended _ _ _ _ _ _ _ _ _ _ _ HG).
Qed.

Lemma ended_view σ B pd T x g i v k m σ' : same_view B T σ.(mach).(phys).(ram) m →
  ended_with (upd_mach (set_mem m) σ) B pd T x g i v k σ' → ended_with σ B pd T x g i v k σ'.
Proof.
  intros SV [H1 H2 H3 H4 (B' & H5 & H6 & H7) H8]. split; [done..| |done]. exists B'.
  pose proof (pages_of_view σ.(mach) B pd T m SV) as Hp. split_and!; [done|..]; intros u a H; [apply H6|apply H7]; by rewrite Hp.
Qed.

Lemma handle_exit_run σ B pd T x g i esp w :
  leaving σ.(mach) B pd T x g → σ.(infos) !! x.(info) = Some i → 0 ≤ esp → user_word σ.(mach).(phys).(ram) T (esp + 4) w →
  ∃ σ', handle_exit esp σ = Ok (None, σ') ∧ ended_with σ B pd T x g i (s32 w) i.(is_killed) σ'.
Proof.
  intros LE Hi He UW. pose proof (le_process _ _ _ _ _ _ LE) as PR. pose proof UW as [Hw (H1 & H2 & H3)].
  change (zlen (le32 w)) with 4 in H2. assert (is_u32 (esp + 4)) as Hu by (unfold PHYS_BASE, LOADER_PHYS_BASE in H2; mlia).
  specialize (H3 0%nat _ eq_refl). rewrite Z.add_0_r in H3.
  unfold handle_exit. rewrite u32_small by done. rewrite (kbind_Some _ _ _ _ _ (is_invalid_run _ _ _ _ _ (esp + 4) PR ltac:(lia))).
  rewrite (good_byte _ _ (esp + 4) _ ltac:(lia) H3).
  destruct (ld_word_run σ B pd T x (esp + 4) w PR UW) as (m & Hr & PR' & SV). rewrite (kbind_Some _ _ _ _ _ Hr).
  destruct (status_exit_run (A := unit) (upd_mach (set_mem m) σ) B pd T x g i (s32 w) (leaving_view _ _ _ _ _ _ _ LE PR') Hi)
    as (σ' & Hr' & EW).
  exists σ'. split; [exact Hr'|]. by eapply ended_view.
Qed.

(** ** Waiting *)

(** The records of the children of the running thread. *)
Record family (σ : sys) (l : list Z) : Prop := {
  fa_list : default [] (σ.(children) !! σ.(mach).(current)) = l;
  fa_distinct : NoDup l;
  fa_null : NULL ∉ l;
  fa_infos : ∀ p, p ∈ l → ∃ i, σ.(infos) !! p = Some i;
  fa_tids : ∀ p q i j, p ∈ l → q ∈ l → σ.(infos) !! p = Some i → σ.(infos) !! q = Some j →
    i.(ti_tid) = j.(ti_tid) → p = q;
}.

Definition child (σ : sys) (l : list Z) (tid p : Z) (i : thread_info) : Prop :=
  p ∈ l ∧ σ.(infos) !! p = Some i ∧ i.(ti_tid) = tid.

Lemma find_info_run σ tid : ∀ l, (∀ p, p ∈ l → ∃ i, σ.(infos) !! p = Some i) →
  (∃ p i, child σ l tid p i ∧ find_info l tid σ = Ok (Some p, σ)) ∨
  (∀ p i, ¬ child σ l tid p i) ∧ find_info l tid σ = Ok (Some NULL, σ).
Proof.
  induction l as [|q l IH]; intros Hl.
  - right. split; [|done]. intros p i (H & _). by apply elem_of_nil in H.
  - destruct (Hl q) as [j Hj]; [apply elem_of_cons; by left|]. cbn [find_info]. rewrite (kbind_Some _ _ _ _ _ (info_at_run _ _ _ Hj)).
    destruct (Z.eqb_spec j.(ti_tid) tid) as [E|Hne].
    + left. exists q, j. split; [|done]. split_and!; [apply elem_of_cons; by left|done|done].
    + destruct IH as [(p & i & (H1 & H2) & Hr)|[Hn Hr]]; [intros p Hp; apply Hl, elem_of_cons; by right|left|right].
      * exists p, i. split; [|done]. split; [apply elem_of_cons; by right|done].
      * split; [|done]. intros p i ([->|H1]%elem_of_cons & H2 & H3); [congruence|]. by apply (Hn p i).
Qed.

(** What is left after a wait for the child [p]. *)
Definition without (p : Z) (σ : sys) : sys :=
  upd_children <[σ.(mach).(current) := filter (λ q, q ≠ p) (default [] (σ.(children) !! σ.(mach).(current)))]> σ.

(** The four outcomes of a wait. *)
Inductive wait_outcome (σ : sys) (l : list Z) (tid : Z) : res (option Z * sys) → Prop :=
  | wait_stranger : (∀ p i, ¬ child σ l tid p i) → wait_outcome σ l tid (Ok (Some (-1), σ))
  | wait_killed p i : child σ l tid p i → i.(is_waited) || i.(is_killed) = true →
      wait_outcome σ l tid (Ok (Some (-1), without p σ))
  | wait_status p i : child σ l tid p i → i.(is_waited) || i.(is_killed) = false → 0 < i.(wait_sema) →
      wait_outcome σ l tid (Ok (Some i.(exit_status), upd_infos (delete p) (without p σ)))
  | wait_blocks p i : child σ l tid p i → i.(is_waited) || i.(is_killed) = false → i.(wait_sema) ≤ 0 →
      wait_outcome σ l tid (Err Deadlock).

Lemma find_child_run σ l tid : family σ l →
  (∃ p i, child σ l tid p i ∧ p ≠ NULL ∧ find_child_info_by_tid tid σ = Ok (Some p, σ)) ∨
  (∀ p i, ¬ child σ l tid p i) ∧ find_child_info_by_tid tid σ = Ok (Some NULL, σ).
Proof.
  intros [Hl _ Hn Hi _]. unfold find_child_info_by_tid. rewrite (kbind_Some _ _ σ σ.(mach).(current) σ) by done.
  rewrite (kbind_Some _ _ σ l σ) by (unfold kreads; by rewrite Hl).
  destruct (find_info_run σ tid l Hi) as [(p & i & Hc & Hr)|H]; [left|by right].
  exists p, i. split_and!; [done| |done]. intros ->. apply Hn, Hc.
Qed.

Lemma process_wait_run σ l tid : family σ l → wait_outcome σ l tid (process_wait tid σ).
Proof.
  intros FA. unfold process_wait. destruct (find_child_run σ l tid FA) as [(p & i & Hc & Hp & Hr)|[Hn Hr]]; rewrite (kbind_Some _ _ _ _ _ Hr).
  2:{ by constructor. }
  rewrite (proj2 (Z.eqb_neq _ _) Hp). rewrite (kbind_Some _ _ σ σ.(mach).(current) σ) by done.
  assert (kmodify (upd_children (λ m, <[σ.(mach).(current) := filter (λ q, q ≠ p) (default [] (m !! σ.(mach).(current)))]> m)) σ
    = Ok (Some tt, without p σ)) as E by done. rewrite (kbind_Some _ _ _ _ _ E).
  assert (infos (without p σ) !! p = Some i) as Hi by apply Hc. rewrite (kbind_Some _ _ _ _ _ (info_at_run _ _ _ Hi)).
  destruct (i.(is_waited) || i.(is_killed)) eqn:Hw; [by apply (wait_killed _ _ _ p i)|].
  set (j := ThreadInfo _ _ _ _ _ true _). rewrite (kbind_Some _ _ (without p σ) tt (upd_infos <[p := j]> (without p σ))) by done.
  unfold down_wait. unfold kbind at 1. unfold bind. unfold kbind at 1. unfold bind.
  rewrite (info_at_run p j) by apply lookup_insert_eq.
  change (wait_sema j) with (wait_sema i). destruct (Z.ltb_spec 0 i.(wait_sema)) as [Hs|Hs].
  - cbn [set_info kmodify]. unfold kbind, bind. rewrite (info_at_run p (ThreadInfo i.(ti_tid) i.(load_success) i.(exit_status) (i.(wait_sema) - 1)
      i.(exec_sema) true i.(is_killed))) by apply lookup_insert_eq.
    cbn [kmodify kret ret exit_status]. 
    assert (∀ (a b : thread_info) (m : gmap Z thread_info), delete p (<[p := a]> (<[p := b]> m)) = delete p m) as Hd.
    { intros a b m. by rewrite !delete_insert_eq. }
    unfold upd_infos. cbn. rewrite Hd. by apply (wait_status _ _ _ p i).
  - by apply (wait_blocks _ _ _ p i).
Qed.

Lemma child_unique σ l tid p q i j : family σ l → child σ l tid p i → child σ l tid q j → p = q ∧ i = j.
Proof.
  intros FA (H1 & H2 & H3) (H4 & H5 & H6). assert (p = q) as -> by (eapply (fa_tids _ _ FA); eauto; congruence).
  split; congruence.
Qed.

(** The family after a wait that returned. *)
Lemma family_without σ l tid p i (d : bool) : family σ l → child σ l tid p i →
  let σ' := if d then upd_infos (delete p) (without p σ) else without p σ in
  family σ' (filter (λ q, q ≠ p) l) ∧ process_wait tid σ' = Ok (Some (-1), σ').
Proof.
  intros FA HC σ'. pose proof FA as [Hl Hd Hn Hi Ht]. set (l' := filter (λ q, q ≠ p) l).
  assert (∀ q, q ∈ l' → q ∈ l ∧ σ'.(infos) !! q = σ.(infos) !! q) as Hq.
  { intros q [Hne Hq]%list_elem_of_filter. split; [done|]. unfold σ'. destruct d; cbn; [by rewrite lookup_delete_ne|done]. }
  assert (family σ' l') as FA'.
  { split.
    - assert (default [] (σ'.(children) !! σ'.(mach).(current)) = filter (λ q, q ≠ p) (default [] (σ.(children) !! σ.(mach).(current)))) as ->.
      { unfold σ'. destruct d; cbn; by rewrite lookup_insert_eq. }
      by rewrite Hl.
    - by apply NoDup_filter.
    - intros H. by apply Hn, Hq.
    - intros q H. destruct (Hq q H) as [H1 ->]. by apply Hi.
    - intros q r j k H1 H2. destruct (Hq q H1) as [H3 ->], (Hq r H2) as [H4 ->]. by apply Ht. }
  split; [done|]. destruct (process_wait_run σ' l' tid FA') as [Hns|q j HC'|q j HC'|q j HC']; [done|exfalso..].
  all: destruct HC' as (H1 & H2 & H3); destruct (Hq q H1) as [H4 H5]; rewrite H5 in H2.
  all: destruct (child_unique σ l tid q p j i FA) as [-> _]; [by split_and!|done|].
  all: by apply list_elem_of_filter in H1 as [? _].
Qed.

Lemma wait_answer σ l p i v : family σ l → p ∈ l → σ.(infos) !! p = Some i →
  (if i.(is_waited) || i.(is_killed) then v = -1 else 0 < i.(wait_sema) ∧ v = i.(exit_status)) →
  ∃ σ', process_wait i.(ti_tid) σ = Ok (Some v, σ') ∧ process_wait i.(ti_tid) σ' = Ok (Some (-1), σ').
Proof.
  intros FA Hp Hi Hv. assert (child σ l i.(ti_tid) p i) as HC by by split_and!.
  destruct (process_wait_run σ l i.(ti_tid) FA) as [Hns|q j HC' Hw|q j HC' Hw Hs|q j HC' Hw Hs].
  - by destruct (Hns p i).
  - destruct (child_unique _ _ _ _ _ _ _ FA HC HC') as [-> ->]. rewrite Hw in Hv. subst v.
    eexists. split; [done|]. exact (proj2 (family_without σ l j.(ti_tid) q j false FA HC')).
  - destruct (child_unique _ _ _ _ _ _ _ FA HC HC') as [-> ->]. rewrite Hw in Hv. destruct Hv as [_ ->].
    eexists. split; [done|]. exact (proj2 (family_without σ l j.(ti_tid) q j true FA HC')).
  - destruct (child_unique _ _ _ _ _ _ _ FA HC HC') as [-> ->]. rewrite Hw in Hv. lia.
Qed.

(** ** Theorems *)

(** process_wait answers -1 at once for a thread that is not a child and for
    a child that was killed, waits for a child that is still running, and answers the
    status of a child that has exited.  Whenever it returns, the child is no longer in the
    list of the parent and a second wait for it answers -1. *)
Theorem process_wait_ok σ l tid : family σ l →
  wait_outcome σ l tid (process_wait tid σ) ∧
  ∀ v σ', process_wait tid σ = Ok (Some v, σ') →
    (∃ l', family σ' l' ∧ ∀ p i, ¬ child σ' l' tid p i) ∧ process_wait tid σ' = Ok (Some (-1), σ').
Proof.
  intros FA. pose proof (process_wait_run σ l tid FA) as H. split; [done|]. intros v σ' E. rewrite E in H.
  assert (∀ p i d, child σ l tid p i → σ' = (if d : bool then upd_infos (delete p) (without p σ) else without p σ) →
    (∃ l', family σ' l' ∧ ∀ q j, ¬ child σ' l' tid q j) ∧ process_wait tid σ' = Ok (Some (-1), σ')) as Hgone.
  { intros p i d HC ->. destruct (family_without σ l tid p i d FA HC) as [FA' Hw]. split; [|exact Hw].
    exists (filter (λ q, q ≠ p) l). split; [exact FA'|]. intros q j ([Hne Hq]%list_elem_of_filter & Hj & Ht).
    apply Hne. eapply (child_unique σ l tid q p j i FA); [|exact HC]. split_and!; [done| |done].
    destruct d; cbn in Hj; [by rewrite lookup_delete_ne in Hj|done]. }
  inversion H as [Hns|p i HC Hw|p i HC Hw Hs|]; subst; [|by apply (Hgone p i false)|by apply (Hgone p i true)].
  split; [by exists l|exact E].
Qed.

(** Property C13.  The status that a process passes to exit is what its parent's wait
    answers.  exit ends the process: its files are closed, its page directory, page tables
    and frames are back in their pools and no other page is, and the processor runs on the
    kernel's directory.  Whenever the parent waits for it later, it gets the status,
    truncated to an int, and -1 if it waits again. *)
Theorem exit_then_wait σ B pd T x g i esp w :
  leaving σ.(mach) B pd T x g → σ.(infos) !! x.(info) = Some i → i.(is_waited) || i.(is_killed) = false → 0 ≤ i.(wait_sema) →
  0 ≤ esp → user_word σ.(mach).(phys).(ram) T (esp + 4) w →
  ∃ σ', handle_exit esp σ = Ok (None, σ') ∧ ended_with σ B pd T x g i (s32 w) false σ' ∧
    ∀ σp l, family σp l → x.(info) ∈ l → σp.(infos) !! x.(info) = σ'.(infos) !! x.(info) →
      ∃ σ'', process_wait i.(ti_tid) σp = Ok (Some (s32 w), σ'') ∧ process_wait i.(ti_tid) σ'' = Ok (Some (-1), σ'').
Proof.
  intros LE Hi Hw Hs He UW. destruct (handle_exit_run σ B pd T x g i esp w LE Hi He UW) as (σ' & Hr & EW).
  assert (i.(is_killed) = false) as Hk by (by destruct i.(is_waited)). rewrite Hk in EW. exists σ'. split_and!; [done..|].
  intros σp l FA Hin E. rewrite (ew_infos _ _ _ _ _ _ _ _ _ _ EW), lookup_insert_eq in E.
  eapply (wait_answer σp l x.(info) (signalled (with_status (s32 w) false i))); [done..|]. cbn.
  rewrite Hk in Hw. rewrite Hw. split; [lia|done].
Qed.


(** ** Witnesses: a process with one page, and its parent *)

Lemma blank_byte m a : blank m → PD ≤ a → a + 4 ≤ PD + 4096 * 6 → m !! a = Some 0.
Proof.
  intros (Hm & Hb & Hz) H1 H2. destruct (Hm a ltac:(lia)) as [b Hab]. specialize (Hz a H1 H2). unfold word, of_le32, at_ in Hz.
  rewrite Hab in Hz |- *. cbn [default] in Hz. f_equal. pose proof (Hb _ _ Hab).
  assert (∀ c, 0 ≤ default 0 (m !! c)) as Hc by (intros c; destruct (m !! c) as [d|] eqn:E; [apply (Hb _ _ E)|done]).
  pose proof (Hc (a + 1)). pose proof (Hc (a + 2)). pose proof (Hc (a + 3)). cbn in *. mlia.
Qed.

Definition exit_machine (m : mem) : vm :=
  Vm (one_page m 32 72) no_files (Cpu (PD - PHYS_BASE) ∅) {[1 := Thread PD ∅ [] [] 0 [] 7]} 1 [] 1 ∅ (Swap None [] ∅ 1)
    (Consts PHYS_BASE 300000 0).
Definition exit_sys (m : mem) : sys := Sys (exit_machine m) {[7 := ThreadInfo 4 true 0 0 0 false false]} {[2 := [7]]} ∅ ∅ [] None [] 5 [] 0 0.

Lemma exit_machine_ok m : blank m →
  leaving (exit_machine m) one_live PD {[32 := PT]} (Thread PD ∅ [] [] 0 [] 7) no_files.
Proof.
  intros Hb. split; cbn [exit_machine mapping_list file_list self_file fsys con base_page_dir].
  - split; [apply (one_space m Hb 32 72); [lia|lia|done]|apply (one_owns m 32 72 Hb); lia|done|apply lookup_singleton_eq|done].
  - done.
  - done.
  - split; [done|]. split_and!; [done|done|done].
Qed.

Lemma exit_machine_word m : blank m → user_word (exit_machine m).(phys).(ram) {[32 := PT]} (UP + 4) 0.
Proof.
  intros Hb. split; [by cbn|]. split_and!; [by cbn|by cbn|]. intros i b Hi.
  assert (i < 4)%nat as Hi4 by (apply (lookup_lt_Some (le32 0) i b Hi)).
  assert (b = 0) as -> by (do 4 (destruct i as [|i]; [by injection Hi as <-|]); lia).
  unfold user_byte. cbn [exit_machine phys]. rewrite (one_entry m Hb 32 72) by (unfold UP, PHYS_BASE, LOADER_PHYS_BASE; lia).
  rewrite bool_decide_eq_true_2.
  2:{ do 4 (destruct i as [|i]; [by vm_compute|]). lia. }
  change (present _) with true. cbv iota. change (frame_of _) with KP.
  replace ((UP + 4 + Z.of_nat i) `mod` 4096) with (4 + Z.of_nat i) by (unfold UP; dm_lia).
  cbn [one_page ram]. rewrite !store_lookup. change (zlen (le32 _)) with 4. unfold KP, PT, PD.
  repeat (zcase; cbn [andb]; try lia). apply blank_byte; [done|unfold PD; lia..].
Qed.

(** The parent is thread 2; its only child is thread 4, whose record is at 7. *)
Definition parent_sys (info : thread_info) : sys :=
  Sys (Vm small_pages no_files (Cpu 0 ∅) ∅ 2 [] 1 ∅ (Swap None [] ∅ 1) (Consts PHYS_BASE 300000 0)) {[7 := info]} {[2 := [7]]} ∅ ∅ [] None [] 5 [] 0 0.

Lemma parent_family i : family (parent_sys i) [7].
Proof.
  split; cbn [parent_sys children infos mach current].
  - by rewrite lookup_singleton_eq.
  - by repeat constructor; apply not_elem_of_nil.
  - by intros ?%list_elem_of_singleton.
  - intros p ->%list_elem_of_singleton. exists i. apply lookup_singleton_eq.
  - intros p q j k ->%list_elem_of_singleton ->%list_elem_of_singleton. done.
Qed.

Lemma process_wait_ok_witness :
  family (parent_sys (ThreadInfo 4 true 81 1 1 false false)) [7] ∧
  ∀ v σ', process_wait 4 (parent_sys (ThreadInfo 4 true 81 1 1 false false)) = Ok (Some v, σ') → process_wait 4 σ' = Ok (Some (-1), σ').
Proof.
  split; [exact (parent_family _)|]. intros v σ' H.
  exact (proj2 (proj2 (process_wait_ok _ [7] 4 (parent_family (ThreadInfo 4 true 81 1 1 false false))) v σ' H)).
Defined.

Lemma exit_then_wait_witness :
  ∃ σ', handle_exit UP (exit_sys (frames PD 6)) = Ok (None, σ') ∧
    ∃ σ'', process_wait 4 (parent_sys (ThreadInfo 4 true 0 1 1 false false)) = Ok (Some 0, σ'').
Proof.
  destruct (exit_then_wait (exit_sys (frames PD 6)) one_live PD {[32 := PT]} (Thread PD ∅ [] [] 0 [] 7) no_files
    (ThreadInfo 4 true 0 0 0 false false) UP 0 (exit_machine_ok _ frames_blank) eq_refl eq_refl ltac:(discriminate) ltac:(discriminate)
    (exit_machine_word _ frames_blank)) as (σ' & Hr & EW & Hw).
  exists σ'. split; [exact Hr|].
  destruct (Hw (parent_sys (ThreadInfo 4 true 0 1 1 false false)) [7] (parent_family _)) as (σ'' & H & _).
  - by apply list_elem_of_singleton.
  - rewrite (ew_infos _ _ _ _ _ _ _ _ _ _ EW). reflexivity.
  - exists σ''. exact H.
Defined.

