(* ===== verification/ProcFd.v ===== *)
(** * Descriptors of open files

    The list of open files of a process, with the numbers in the files, is a finite map
    from descriptors to files: give_file_descriptor, find_file_by_fd and the close system
    call of userprog/syscall.c are insertion, lookup and deletion. *)

From Stdlib Require Import Sorting.Sorted.
From S2P Require Import Prelude Vaddr Bytes Bitmap Str Palloc Filesys Vm VmPagedir VmSpace VmLife VmSwap Process Syscall ProcStack ProcUser ProcExit.
Local Open Scope k_scope.

(** ** The table *)

Definition fd_in (m : gmap Z Z) (f : Z) : Z := default 0 (m !! f).

Definition table (m : gmap Z Z) (l : list Z) : gmap Z Z := list_to_map ((λ f, (fd_in m f, f)) <$> l).

(** The descriptors rise along the list. *)
Record descriptors (σ : sys) (x : thread) (tab : gmap Z Z) : Prop := {
  de_files : NULL ∉ x.(file_list) ∧ NoDup x.(file_list);
  de_rising : StronglySorted Z.lt (fd_in σ.(fds) <$> x.(file_list));
  de_range : ∀ f, f ∈ x.(file_list) → 2 ≤ fd_in σ.(fds) f < 2147483648;
  de_table : tab = table σ.(fds) x.(file_list);
}.

Section table.
Context (m : gmap Z Z) (l : list Z) (Hs : StronglySorted Z.lt (fd_in m <$> l)).

Lemma table_keys : NoDup (((λ f, (fd_in m f, f)) <$> l).*1).
Proof.
  rewrite <- list_fmap_compose. change (fst ∘ _) with (fd_in m). clear -Hs. induction l as [|f k IH]; [constructor|].
  cbn in Hs |- *. apply StronglySorted_inv in Hs as [Hs Hf]. constructor; [|by apply IH].
  intros Hin. rewrite Forall_forall in Hf. specialize (Hf _ Hin). lia.
Qed.

Lemma table_lookup d f : table m l !! d = Some f ↔ f ∈ l ∧ fd_in m f = d.
Proof.
  unfold table. rewrite <- elem_of_list_to_map by apply table_keys. rewrite list_elem_of_fmap. naive_solver.
Qed.

Lemma table_none d : table m l !! d = None ↔ ∀ f, f ∈ l → fd_in m f ≠ d.
Proof.
  rewrite eq_None_not_Some. split.
  - intros H f Hf E. apply H. exists f. by apply table_lookup.
  - intros H [f [Hf E]%table_lookup]. by apply (H f).
Qed.
End table.

(** ** Lookup *)

Lemma fd_of_run f σ : fd_of f σ = Ok (Some (fd_in σ.(fds) f), σ).
Proof. done. Qed.

Lemma find_fd_run fd σ : ∀ l, StronglySorted Z.lt (fd_in σ.(fds) <$> l) →
  find_fd l fd σ = Ok (Some (default NULL (table σ.(fds) l !! fd)), σ).
Proof.
  induction l as [|f l IH]; intros Hs; [done|]. cbn [find_fd]. rewrite (kbind_Some _ _ _ _ _ (fd_of_run f σ)).
  unfold table. cbn [fmap list_fmap list_to_map foldr curry uncurry fst snd].
  destruct (Z.eqb_spec (fd_in σ.(fds) f) fd) as [->|Hne].
  - cbn. by rewrite lookup_insert_eq.
  - cbn. rewrite lookup_insert_ne by done. apply IH. by apply StronglySorted_inv in Hs as [? _].
Qed.

Lemma find_file_run σ x tab fd : σ.(mach).(threads) !! σ.(mach).(current) = Some x → descriptors σ x tab →
  find_file_by_fd fd σ = Ok (Some (default NULL (tab !! fd)), σ).
Proof.
  intros Ht [_ Hs _ ->]. unfold find_file_by_fd. rewrite (kbind_Some _ _ _ _ _ (cur_thread_run σ x Ht)). by apply find_fd_run.
Qed.

(** ** Insertion and deletion *)

Lemma sorted_snoc l d : StronglySorted Z.lt l → (∀ e, e ∈ l → e < d) → StronglySorted Z.lt (l ++ [d]).
Proof.
  induction l as [|a l IH]; intros Hs Hd; [by repeat constructor|]. apply StronglySorted_inv in Hs as [Hs Hf]. cbn. constructor.
  - apply IH; [done|]. intros e He. apply Hd, elem_of_cons. by right.
  - apply Forall_app. split; [done|]. apply Forall_singleton, Hd, elem_of_cons. by left.
Qed.

Lemma sorted_last l k : StronglySorted Z.lt l → last l = Some k → ∀ e, e ∈ l → e ≤ k.
Proof.
  induction l as [|a l IH]; intros Hs Hk e He; [done|]. apply StronglySorted_inv in Hs as [Hs Hf]. destruct l as [|b l].
  - cbn in Hk. injection Hk as ->. apply list_elem_of_singleton in He. lia.
  - change (last (b :: l) = Some k) in Hk. apply elem_of_cons in He as [->|He]; [|by apply IH].
    rewrite Forall_forall in Hf. pose proof (Hf b ltac:(apply elem_of_cons; by left)).
    pose proof (IH Hs Hk b ltac:(apply elem_of_cons; by left)). lia.
Qed.

Lemma sorted_filter (P : Z → Prop) `{∀ z, Decision (P z)} (g : Z → Z) l :
  StronglySorted Z.lt (g <$> l) → StronglySorted Z.lt (g <$> filter P l).
Proof.
  induction l as [|a l IH]; intros Hs; [done|]. cbn in Hs. apply StronglySorted_inv in Hs as [Hs Hf]. rewrite filter_cons.
  case_decide; [|by apply IH]. cbn. constructor; [by apply IH|]. rewrite Forall_forall in Hf |- *.
  intros e [c [-> [_ Hc]%list_elem_of_filter]]%list_elem_of_fmap. apply Hf, list_elem_of_fmap. by exists c.
Qed.

(** The number that follows the greatest one in use, or the first. *)
Definition fresh (tab : gmap Z Z) (d : Z) : Prop :=
  tab = ∅ ∧ d = 2 ∨ ∃ k, is_Some (tab !! k) ∧ d = k + 1 ∧ ∀ e, is_Some (tab !! e) → e ≤ k.

Lemma process_with σ B pd T x x' g : process σ B pd T x → x'.(pagedir) = pd →
  process (upd_fsys (λ _, g) (upd_threads <[σ.(current) := x']> σ)) B pd T x'.
Proof.
  intros [SP OW Hc Ht Hp] Hp'. split; [by apply (space_phys SP)|done|done|apply lookup_insert_eq|done].
Qed.

Lemma fd_in_insert m f g d : g ≠ f → fd_in (<[f := d]> m) g = fd_in m g.
Proof. intros H. unfold fd_in. by rewrite lookup_insert_ne. Qed.

Lemma next_fd σ x tab : descriptors σ x tab → (∀ e, is_Some (tab !! e) → e < 2147483647) →
  ∃ d, (match last x.(file_list) with None => kret 2 | Some f => fd <- fd_of f ;; kret (s32 (fd + 1)) end) σ = Ok (Some d, σ) ∧
    fresh tab d ∧ 2 ≤ d < 2147483648 ∧ ∀ f, f ∈ x.(file_list) → fd_in σ.(fds) f < d.
Proof.
  intros [_ Hs Hr ->] Hmax. destruct (last x.(file_list)) as [f|] eqn:El.
  - assert (f ∈ x.(file_list)) as Hf by (by apply last_Some_elem_of).
    assert (table σ.(fds) x.(file_list) !! fd_in σ.(fds) f = Some f) as Htab by (by apply table_lookup).
    pose proof (Hmax _ (mk_is_Some _ _ Htab)) as Hm. pose proof (Hr f Hf).
    assert (∀ g, g ∈ x.(file_list) → fd_in σ.(fds) g ≤ fd_in σ.(fds) f) as Hle.
    { intros g Hg. apply (sorted_last _ _ Hs); [by rewrite fmap_last, El|]. apply list_elem_of_fmap. by exists g. }
    exists (fd_in σ.(fds) f + 1). split_and!; [| |lia..|].
    + rewrite (kbind_Some _ _ _ _ _ (fd_of_run f σ)). rewrite s32_small; [done|]. split; lia.
    + right. exists (fd_in σ.(fds) f). split_and!; [by exists f|done|]. intros e [g [Hg <-]%table_lookup]; [|done]. by apply Hle.
    + intros g Hg. specialize (Hle g Hg). lia.
  - apply last_None in El. rewrite El. exists 2. split_and!; [done|by left|lia|lia|]. by intros f ?%elem_of_nil.
Qed.

(** A new file at the end of the list. *)
Lemma descriptors_snoc σ σ' x tab f d : descriptors σ x tab → f ≠ NULL → f ∉ x.(file_list) → 2 ≤ d < 2147483648 →
  (∀ g, g ∈ x.(file_list) → fd_in σ.(fds) g < d) → σ'.(fds) = <[f := d]> σ.(fds) →
  tab !! d = None ∧ descriptors σ' (with_file_list (x.(file_list) ++ [f]) x) (<[d := f]> tab).
Proof.
  intros [[Hn Hnd] Hs Hr ->] Hf0 Hf Hd Hlt E.
  assert (∀ g, g ∈ x.(file_list) → fd_in (<[f := d]> σ.(fds)) g = fd_in σ.(fds) g) as Hold.
  { intros g Hg. apply fd_in_insert. by intros ->. }
  assert (fd_in (<[f := d]> σ.(fds)) f = d) as Hnew by (unfold fd_in; by rewrite lookup_insert_eq).
  assert (StronglySorted Z.lt (fd_in (<[f := d]> σ.(fds)) <$> x.(file_list) ++ [f])) as Hs'.
  { rewrite fmap_app. cbn [fmap list_fmap]. rewrite Hnew. rewrite (list_fmap_ext _ (fd_in σ.(fds)) x.(file_list)).
    - apply sorted_snoc; [done|]. intros e [g [-> Hg]]%list_elem_of_fmap. by apply Hlt.
    - intros i g Hg. apply Hold. by eapply list_elem_of_lookup_2. }
  split; [apply table_none; [done|]; intros g Hg <-; specialize (Hlt g Hg); lia|]. split; rewrite ?E; cbn [file_list with_file_list].
  - split; [intros [?|?%list_elem_of_singleton]%elem_of_app; congruence|]. apply NoDup_app. split_and!; [done| |].
    + by intros g Hg ->%list_elem_of_singleton.
    + by repeat constructor; apply not_elem_of_nil.
  - exact Hs'.
  - intros g [Hg| ->%list_elem_of_singleton]%elem_of_app; [rewrite Hold by done; by apply Hr|by rewrite Hnew].
  - apply map_eq. intros k. apply option_eq. intros g. rewrite table_lookup by exact Hs'. rewrite elem_of_app, list_elem_of_singleton.
    destruct (decide (k = d)) as [->|Hk]; [rewrite lookup_insert_eq|rewrite lookup_insert_ne by done; rewrite table_lookup by done]; split.
    + intros [= <-]. by split; [right|].
    + intros [[Hg| ->] Eg]; [|done]. rewrite Hold in Eg by done. specialize (Hlt g Hg). lia.
    + intros [Hg Eg]. split; [by left|]. by rewrite Hold.
    + intros [[Hg| ->] Eg]; [by rewrite Hold in Eg|congruence].
Qed.

Lemma give_run σ B pd T x tab f : process σ.(mach) B pd T x → descriptors σ x tab →
  f ≠ NULL → f ∉ x.(file_list) → (∀ e, is_Some (tab !! e) → e < 2147483647) →
  let x' := with_file_list (x.(file_list) ++ [f]) x in
  ∃ d σ', give_file_descriptor f σ = Ok (Some d, σ') ∧ fresh tab d ∧ tab !! d = None ∧
    process σ'.(mach) B pd T x' ∧ descriptors σ' x' (<[d := f]> tab) ∧ σ'.(mach).(fsys) = σ.(mach).(fsys).
Proof.
  intros PR DE Hf0 Hf Hmax x'. destruct (next_fd σ x tab DE Hmax) as (d & Hd & Hfr & Hrange & Hlt).
  pose proof (pr_thread _ _ _ _ _ PR) as Ht. unfold give_file_descriptor.
  rewrite (kbind_Some _ _ _ _ _ (cur_thread_run σ x Ht)), (kbind_Some _ _ _ _ _ Hd).
  set (σ1 := upd_fds <[f := d]> σ). rewrite (kbind_Some _ _ σ tt σ1) by done.
  rewrite (kbind_Some _ _ _ _ _ (upd_cur_run _ σ1 x Ht)). eexists d, _. split; [reflexivity|].
  match goal with |- context [descriptors ?s] => destruct (descriptors_snoc σ s x tab f d DE Hf0 Hf Hrange Hlt eq_refl) as [Hnone DE'] end.
  split_and!; [done|done| |exact DE'|done].
  exact (process_with _ _ _ _ _ x' σ.(mach).(fsys) PR (pr_pagedir _ _ _ _ _ PR)).
Qed.

(** A file taken out of the list. *)
Lemma descriptors_delete σ σ' x tab fd f : descriptors σ x tab → tab !! fd = Some f → σ'.(fds) = σ.(fds) →
  descriptors σ' (with_file_list (filter (λ g, g ≠ f) x.(file_list)) x) (delete fd tab).
Proof.
  intros [[Hn Hnd] Hs Hr ->] Hf E. apply table_lookup in Hf as [Hf Efd]; [|done].
  assert (∀ g, g ∈ filter (λ g, g ≠ f) x.(file_list) → g ∈ x.(file_list)) as Hin by (by intros g [_ ?]%list_elem_of_filter).
  split; rewrite ?E; cbn [file_list with_file_list].
  - split; [by intros ?%Hin|by apply NoDup_filter].
  - by apply sorted_filter.
  - intros g ?%Hin. by apply Hr.
  - apply map_eq. intros k. apply option_eq. intros g. rewrite table_lookup by by apply sorted_filter.
    rewrite list_elem_of_filter, lookup_delete_Some, table_lookup by done. split.
    + intros (Hk & Hg & Eg). split_and!; [|done|done]. intros ->. congruence.
    + intros [[Hne Hg] Eg]. split_and!; [|done|done]. intros <-. apply Hne.
      assert (table σ.(fds) x.(file_list) !! fd = Some g) as H1 by (by apply table_lookup).
      assert (table σ.(fds) x.(file_list) !! fd = Some f) as H2 by (by apply table_lookup). congruence.
Qed.

(** ** The close system call *)

Lemma close_tail σ B pd T x tab fd f g : process σ.(mach) B pd T x → descriptors σ x tab → tab !! fd = Some f →
  file_close f σ.(mach).(fsys) = Ok (tt, g) →
  let x' := with_file_list (filter (λ g, g ≠ f) x.(file_list)) x in
  ∃ σ', (upd_cur (λ x, with_file_list (filter (λ g, g ≠ f) x.(file_list)) x) ;; onfs (file_close f)) σ = Ok (Some tt, σ') ∧
    process σ'.(mach) B pd T x' ∧ descriptors σ' x' (delete fd tab) ∧ σ'.(mach).(fsys) = g.
Proof.
  intros PR DE Hf Hg x'. rewrite (kbind_Some _ _ _ _ _ (upd_cur_run _ σ x (pr_thread _ _ _ _ _ PR))).
  eexists. split; [by apply close_run|]. split_and!; [|by eapply descriptors_delete|done].
  exact (process_with _ _ _ _ _ x' g PR (pr_pagedir _ _ _ _ _ PR)).
Qed.

Lemma handle_close_run σ B pd T x tab esp w f g :
  process σ.(mach) B pd T x → descriptors σ x tab → 0 ≤ esp → user_word σ.(mach).(phys).(ram) T (esp + 4) w →
  tab !! s32 w = Some f → file_close f σ.(mach).(fsys) = Ok (tt, g) →
  let x' := with_file_list (filter (λ g, g ≠ f) x.(file_list)) x in
  ∃ σ', handle_close esp σ = Ok (Some tt, σ') ∧
    process σ'.(mach) B pd T x' ∧ descriptors σ' x' (delete (s32 w) tab) ∧ σ'.(mach).(fsys) = g.
Proof.
  intros PR DE He UW Hf Hg x'. destruct (ld_word_run σ B pd T x _ w PR UW) as (m & Hr & PR' & SV).
  destruct UW as [_ (H1 & H2 & _)]. change (zlen (le32 w)) with 4 in H2.
  unfold handle_close. rewrite u32_small by (unfold PHYS_BASE, LOADER_PHYS_BASE in H2; mlia). rewrite (kbind_Some _ _ _ _ _ Hr).
  set (σ1 := upd_mach (set_mem m) σ). assert (descriptors σ1 x tab) as DE1 by (by destruct DE).
  rewrite (kbind_Some _ _ _ _ _ (find_file_run σ1 x tab _ (pr_thread _ _ _ _ _ PR') DE1)), Hf. change (default NULL (Some f)) with f.
  assert (f ≠ NULL) as Hf0.
  { destruct DE as [[Hn _] Hs _ ->]. apply table_lookup in Hf as [Hf _]; [|done]. by intros ->. }
  rewrite (proj2 (Z.eqb_neq _ _) Hf0). cbn [negb]. by apply close_tail.
Qed.

(** ** Refinement *)

(** What the handlers do with descriptors; [Close] finds its argument on the stack. *)
Inductive request :=
  | Give (f : Z)
  | Find (fd : Z)
  | Close (esp : Z).

Definition perform (q : request) : K Z :=
  match q with
  | Give f => give_file_descriptor f
  | Find fd => find_file_by_fd fd
  | Close esp => handle_close esp ;; kret 0
  end.

Definition permitted (σ : sys) (T : gmap Z Z) (x : thread) (tab : gmap Z Z) (q : request) : Prop :=
  match q with
  | Give f => f ≠ NULL ∧ f ∉ x.(file_list) ∧ ∀ e, is_Some (tab !! e) → e < 2147483647
  | Find _ => True
  | Close esp => 0 ≤ esp ∧ ∃ w f g, user_word σ.(mach).(phys).(ram) T (esp + 4) w ∧ tab !! s32 w = Some f ∧
      file_close f σ.(mach).(fsys) = Ok (tt, g)
  end.

(** The abstract table: a finite map. *)
Inductive serves (σ : sys) (T : gmap Z Z) (tab : gmap Z Z) : request → Z → gmap Z Z → Prop :=
  | ser_give f d : fresh tab d → tab !! d = None → serves σ T tab (Give f) d (<[d := f]> tab)
  | ser_find fd : serves σ T tab (Find fd) (default NULL (tab !! fd)) tab
  | ser_close esp w : user_word σ.(mach).(phys).(ram) T (esp + 4) w → serves σ T tab (Close esp) 0 (delete (s32 w) tab).

(** Property C15.  The descriptors of a process are a finite map from numbers to open files.
    Giving a descriptor inserts the file under a number that is not in use, 2 or one more
    than the greatest; looking one up answers the file under it or null; the close system
    call takes its argument from the stack of the process and deletes the number.  The map
    stays well formed, and a close of a number that is not in use ends the process with
    the status -1. *)
Theorem descriptors_refine σ B pd T x tab : process σ.(mach) B pd T x → descriptors σ x tab →
  (∀ q, permitted σ T x tab q →
    ∃ r σ' x' tab', perform q σ = Ok (Some r, σ') ∧ serves σ T tab q r tab' ∧
      process σ'.(mach) B pd T x' ∧ descriptors σ' x' tab') ∧
  ∀ g i esp w, leaving σ.(mach) B pd T x g → σ.(infos) !! x.(info) = Some i → 0 ≤ esp →
    user_word σ.(mach).(phys).(ram) T (esp + 4) w → tab !! s32 w = None →
    ∃ σ', handle_close esp σ = Ok (None, σ') ∧ ended_with σ B pd T x g i (-1) i.(is_killed) σ'.
Proof.
  intros PR DE. split.
  - intros [f|fd|esp]; cbn [permitted perform].
    + intros (Hf0 & Hf & Hmax). destruct (give_run σ B pd T x tab f PR DE Hf0 Hf Hmax) as (d & σ' & Hr & Hfr & Hn & PR' & DE' & _).
      eexists d, σ', _, _. split_and!; [exact Hr|by constructor|exact PR'|exact DE'].
    + intros _. eexists _, σ, x, tab. split_and!; [by apply (find_file_run _ x), DE; apply PR|constructor|done..].
    + intros (He & w & f & g & UW & Hf & Hg).
      destruct (handle_close_run σ B pd T x tab esp w f g PR DE He UW Hf Hg) as (σ' & Hr & PR' & DE' & _).
      eexists 0, σ', _, _. split_and!; [by rewrite (kbind_Some _ _ _ _ _ Hr)|by apply (ser_close _ _ _ _ w)|exact PR'|exact DE'].
  - intros g i esp w LE Hi He UW Hn. destruct (ld_word_run σ B pd T x _ w PR UW) as (m & Hr & PR' & SV).
    destruct UW as [_ (H1 & H2 & _)]. change (zlen (le32 w)) with 4 in H2.
    unfold handle_close. rewrite u32_small by (unfold PHYS_BASE, LOADER_PHYS_BASE in H2; mlia). rewrite (kbind_Some _ _ _ _ _ Hr).
    set (σ1 := upd_mach (set_mem m) σ). assert (descriptors σ1 x tab) as DE1 by (by destruct DE).
    rewrite (kbind_Some _ _ _ _ _ (find_file_run σ1 x tab _ (pr_thread _ _ _ _ _ PR') DE1)), Hn.
    change (negb (default NULL None =? NULL)) with false. cbv iota.
    destruct (status_exit_run (A := unit) σ1 B pd T x g i (-1) (leaving_view _ _ _ _ _ _ _ LE PR') Hi) as (σ' & Hr' & EW).
    exists σ'. split; [exact Hr'|]. by eapply ended_view.
Qed.

Lemma descriptors_refine_witness :
  ∃ r σ' x', perform (Give 20) (exit_sys (frames PD 6)) = Ok (Some r, σ') ∧ r = 2 ∧
    descriptors σ' x' {[2 := 20]} ∧ ∃ σ'', handle_close UP (exit_sys (frames PD 6)) = Ok (None, σ'').
Proof.
  assert (descriptors (exit_sys (frames PD 6)) (Thread PD ∅ [] [] 0 [] 7) ∅) as DE.
  { split; cbn [file_list]; [split; [apply not_elem_of_nil|constructor]|constructor|by intros f ?%elem_of_nil|reflexivity]. }
  pose proof (exit_machine_ok _ frames_blank) as LE.
  destruct (descriptors_refine (exit_sys (frames PD 6)) one_live PD {[32 := PT]} (Thread PD ∅ [] [] 0 [] 7) ∅
    (le_process _ _ _ _ _ _ LE) DE) as [H1 H2].
  destruct (H1 (Give 20)) as (r & σ' & x' & tab' & Hr & Hs & _ & DE').
  { split_and!; [discriminate|apply not_elem_of_nil|]. intros e [? He]. rewrite lookup_empty in He. discriminate. }
  destruct (H2 no_files (ThreadInfo 4 true 0 0 0 false false) UP 0 LE eq_refl ltac:(discriminate) (exit_machine_word _ frames_blank)
    (lookup_empty _)) as (σ'' & Hc & _).
  exists r, σ', x'. split; [exact Hr|]. inversion Hs as [f d Hfr| |]; subst. destruct Hfr as [[_ ->]|(k & [? Hk] & _)].
  - split_and!; [reflexivity|exact DE'|]. exists σ''. exact Hc.
  - rewrite lookup_empty in Hk. discriminate.
Defined.
