(* ===== verification/ProcFault.v ===== *)
(** * Page faults

    The handler of userprog/exception.c: the stack of a process grows, pages come back
    from the swap disk, and every other fault ends the process and nothing else. *)

From S2P Require Import Prelude Vaddr Bytes Bitmap Str Palloc Filesys FsInode Vm VmPagedir VmSpace VmLife VmSwap Process Syscall ProcStack ProcLoad ProcUser ProcExit.
Local Open Scope k_scope.

(** A machine on which the process can get another frame. *)
Record supplied (σ : vm) (B : live) (pd : Z) (T : gmap Z Z) (x : thread) : Prop := {
  su_process : process σ B pd T x;
  su_room : roomy σ B;
  su_dir : pd ≠ σ.(con).(base_page_dir);
  su_ram : σ.(phys).(user_pool).(base) + 4096 * σ.(phys).(user_pool).(used_map).(bit_cnt) ≤ PHYS_BASE + 4096 * σ.(con).(ram_pages);
}.

(** A new frame [r] is mapped at the page [u]; nothing else changes. *)
Record page_added (σ : vm) (B : live) (pd : Z) (T : gmap Z Z) (u r : Z) (w : bool) (σ' : vm) (B' : live) (T' : gmap Z Z) : Prop := {
  pa_fresh : B true !! r = None;
  pa_user : B' true = <[r := 1]> (B true);
  pa_entry : entry σ'.(phys).(ram) T' u = r - PHYS_BASE + flags true w;
  pa_others : ∀ v, user_page v → v ≠ u → entry σ'.(phys).(ram) T' v = entry σ.(phys).(ram) T v;
  pa_frames : ∀ s, B true !! s = Some 1 → block σ'.(phys).(ram) s 4096 = block σ.(phys).(ram) s 4096;
}.

Lemma round_down_user v : 0 ≤ v < PHYS_BASE → pg_round_down v = v - v `mod` 4096 ∧ user_page (pg_round_down v).
Proof.
  intros Hv. assert (pg_round_down v = v - v `mod` 4096) as E by (apply pg_round_down_eq; unfold PHYS_BASE, LOADER_PHYS_BASE in *; mlia).
  split; [done|]. rewrite E. split; dm_lia.
Qed.

(** The process after the new page. *)
Lemma added_process σ B pd T x u r w σ' B' T' x' :
  process σ B pd T x → user_page u → present (entry σ.(phys).(ram) T u) = false → kernel_page r →
  page_added σ B pd T u r w σ' B' T' → space σ' B' pd T' → σ'.(proc) = σ.(proc) →
  σ'.(threads) !! σ'.(current) = Some x' → x'.(pagedir) = pd →
  process σ' B' pd T' x'.
Proof.
  intros [SP OW Hc Ht Hp] Hu Hn Hk [P1 P2 P3 P4 P5] SP' Epr Ht' Hp'. destruct (added_frame r w Hk) as [Hpr Hfr].
  split; [done| |by rewrite Epr|done|done]. split.
  - intros v Hv. destruct (decide (v = u)) as [->|Hne].
    + intros _. rewrite P3, Hfr, P2. apply lookup_insert_eq.
    + rewrite P4, P2 by done. intros Hpv. pose proof (ow_frame _ _ OW v Hv Hpv) as Hb. by rewrite lookup_insert_ne by congruence.
  - intros v1 v2 H1 H2. destruct (decide (v1 = u)) as [->|N1], (decide (v2 = u)) as [->|N2]; [done|..]; rewrite ?P3, ?P4, ?Hfr by done.
    + intros _ Hp2 E. pose proof (ow_frame _ _ OW v2 H2 Hp2). congruence.
    + intros Hp1 _ E. pose proof (ow_frame _ _ OW v1 H1 Hp1). congruence.
    + by apply OW.
Qed.

(** ** Growing the stack *)

Lemma frame_space σ B pd T r p g : space σ B pd T → allocator p (set_live true (<[r := 1]> (B true)) B) → p.(ram) = σ.(phys).(ram) →
  space (with_frame r p g σ) (set_live true (<[r := 1]> (B true)) B) pd T.
Proof.
  intros SP Ha Em. pose proof (pg_space _ _ _ _ (sp_paging _ _ _ _ SP)) as AS.
  apply (space_kept σ (with_frame r p g σ) B); [done|done| |apply AS|intros i pt Hi; by apply (as_table _ _ _ _ AS i)|].
  - change (bytes_only p.(ram)). rewrite Em. apply SP.
  - intros a _. change (p.(ram) !! a = σ.(phys).(ram) !! a). by rewrite Em.
Qed.

(** The three calls that add a page: the frame, its supplemental entry, the mapping. *)
Lemma add_page σ B pd T x u w : supplied σ B pd T x → user_page u → present (entry σ.(phys).(ram) T u) = false →
  ∃ ok r σ' B' T', (kpage <- frame_table_allocator PAL_USER ;;
      sup_page_entry_create u kpage NULL ;; pagedir_set_page pd u kpage w)%C σ = Ok (ok, σ') ∧
    if ok then page_added σ B pd T u r w σ' B' T' ∧ block σ'.(phys).(ram) r 4096 = block σ.(phys).(ram) r 4096 ∧
      ∃ x', process σ' B' pd T' x' ∧ is_Some (x'.(sup_page_table) !! u)
    else T !! pd_no u = None ∧ crowded (pool_of false σ.(phys)) (B false) 1.
Proof.
  intros [PR RM Hd Hram] Hu Hn. pose proof PR as [SP OW Hc Ht _]. pose proof RM as [Hal Hs [Hm1 Hm2] _].
  destruct (frame_alloc_run σ B RM) as (r & p & g & Hr & Ha & Em & Hap & Hr0 & Hsp & Hh).
  set (B1 := set_live true (<[r := 1]> (B true)) B) in *. set (σ1 := with_frame r p g σ) in *.
  assert (B1 true !! r = Some 1) as Hb1 by apply lookup_insert_eq. destruct (page_block p B1 true r Ha Hb1) as (Hkr & _).
  pose proof (frame_space σ B pd T r p g SP Ha Em) as SP1. fold B1 σ1 in SP1.
  destruct Hh as (n & l & -> & Hn' & Hp').
  destruct (sup_create_run σ1 x u r NULL (Hp' Hm1) ltac:(cbn; lia) Ht)
    as (q & σ2 & Hq & Ephys & Efs & Eproc & Ecur & Eft & Esem & Econ & _ & x2 & Ht2 & Hx2 & Hsup).
  assert (space σ2 B1 pd T) as SP2 by (by apply (space_phys SP1)). destruct (Hsp true) as [Eb Ecnt]. cbn [pool_of] in Eb, Ecnt.
  assert (entry σ2.(phys).(ram) T = entry σ.(phys).(ram) T) as Ee by (rewrite Ephys; change (entry p.(ram) T = entry σ.(phys).(ram) T); by rewrite Em).
  destruct (set_fresh_page σ2 B1 pd T u r w SP2) as (ok & σ' & B' & T' & E' & Hset & EF);
    [rewrite Esem; exact Hs|rewrite Econ; exact Hd|rewrite Ephys, Econ; change (p.(user_pool).(base) + 4096 * p.(user_pool).(used_map).(bit_cnt) ≤ PHYS_BASE + 4096 * σ.(con).(ram_pages)); by rewrite Eb, Ecnt|
     done|by rewrite Ee|done|].
  exists ok, r, σ', B', T'. split; [by rewrite (bind_Ok _ _ _ _ _ Hr), (bind_Ok _ _ _ _ _ Hq)|].
  pose proof (ef_answer _ _ _ _ _ _ _ _ _ _ EF) as Hans. rewrite Ee in Hans.
  destruct ok; cbn [Z.b2z] in Hans; inversion Hans as [? ? ? Hfull|  | | | | |]; subst.
  2:{ destruct Hfull as [H1 H2]. split; [done|]. rewrite Ephys in H2. by apply (crowded_place _ (pool_of false p)); [apply (Hsp false)|]. }
  assert (page_added σ B pd T u r w σ' B' T') as PA.
  { split.
    - by apply (apart_fresh σ.(phys) B true).
    - by rewrite (ef_user _ _ _ _ _ _ _ _ _ _ EF).
    - rewrite (ef_entry _ _ _ _ _ _ _ _ _ _ EF) by apply Hu. unfold put. by rewrite Z.eqb_refl.
    - intros v [Hv Hva] Hne. rewrite (ef_entry _ _ _ _ _ _ _ _ _ _ EF) by done. unfold put.
      rewrite (proj2 (Z.eqb_neq _ _)); [done|]. rewrite !pg_no_div. destruct Hu as [_ Hua]. dm_lia.
    - intros s Hss. rewrite (effect_frames _ _ _ _ _ _ _ _ _ _ s EF SP2).
      + rewrite Ephys. change (block p.(ram) s 4096 = block σ.(phys).(ram) s 4096). by rewrite Em.
      + change (<[r := 1]> (B true) !! s = Some 1). rewrite lookup_insert_ne; [done|]. intros ->. by rewrite (apart_fresh σ.(phys) B true) in Hss. }
  split_and!; [exact PA| |].
  - rewrite (effect_frames _ _ _ _ _ _ _ _ _ _ r EF SP2 Hb1), Ephys. change (block p.(ram) r 4096 = block σ.(phys).(ram) r 4096). by rewrite Em.
  - pose proof (ef_rest _ _ _ _ _ _ _ _ _ _ EF) as Hrest. injection Hrest as _ Eth Ecu _ _ _ _.
    exists x2. split; [|by rewrite Hsup; eexists].
    eapply (added_process σ B pd T x u r w); [done|done|done|done|exact PA|apply EF| | |rewrite Hx2; exact (pr_pagedir _ _ _ _ _ PR)].
    + rewrite (ef_proc _ _ _ _ _ _ _ _ _ _ EF). cbn [flushes]. by rewrite Eproc.
    + by rewrite Eth, Ecu, Ecur.
Qed.

(** ** The handler *)

Definition counted (σ : sys) : sys := upd_page_fault_cnt (λ n, s64 (n + 1)) σ.

(** The address is one that a push may touch: not more than 32 bytes below the stack
    pointer and in the upper 8 MB of user memory. *)
Definition near_stack (esp v : Z) : Prop := u32 (esp - 32) ≤ v ∧ PHYS_BASE - 8388608 ≤ v < PHYS_BASE.

Definition access_of (write : bool) (code : Z) : Prop := negb (Z.land code PF_W =? 0) = write.

Lemma sup_lookup_run σ x u : σ.(threads) !! σ.(current) = Some x →
  sup_page_table_lookup σ.(current) u σ = Ok (default NULL (x.(sup_page_table) !! u), σ).
Proof. intros H. unfold sup_page_table_lookup. by rewrite (bind_Ok _ _ σ x σ) by (unfold thread_at; by rewrite H). Qed.

(** The handler after it has looked for the page. *)
Lemma page_fault_eq σ x esp v code : σ.(mach).(threads) !! σ.(mach).(current) = Some x →
  page_fault esp v code σ =
  (let not_present := Z.land code PF_P =? 0 in
   let write := negb (Z.land code PF_W =? 0) in
   let p := default NULL (x.(sup_page_table) !! pg_round_down v) in
   let u := pg_round_down v in
   if (u32 (esp - 32) <=? v) && (u32 (PHYS_BASE - 8388608) <=? v) && (v <? PHYS_BASE) && (p =? NULL) then
     kpage <- onvm (frame_table_allocator PAL_USER) ;;
     onvm (sup_page_entry_create u kpage NULL) ;;
     onvm (pagedir_set_page x.(pagedir) u kpage write) ;;
     kret tt
   else if is_kernel_vaddr u || negb not_present || (p =? NULL) then die
   else
     s <- onvm (sup_at p) ;;
     if s.(file_address) =? NULL then onvm (swap_in p not_present)
     else
       kpage <- onvm (frame_table_allocator (Z.lor PAL_USER PAL_ZERO)) ;;
       onvm (pagedir_set_page x.(pagedir) s.(sp_upage) kpage not_present) ;;
       onvm (set_kpage p kpage) ;;
       data <- onfs (file_read_at s.(file_address) PGSIZE s.(file_pos)) ;;
       onvm (write_ram kpage data)) (counted σ).
Proof.
  intros Ht. unfold page_fault. rewrite (kbind_Some _ _ σ tt (counted σ)) by done.
  rewrite (kbind_Some _ _ (counted σ) σ.(mach).(current) (counted σ)) by done.
  rewrite (kbind_Some _ _ _ _ _ (onvm_same _ (counted σ) _ (sup_lookup_run σ.(mach) x _ Ht))). cbv zeta.
  by rewrite (kbind_Some _ _ _ _ _ (cur_thread_run (counted σ) x Ht)).
Qed.

(** A computation of the machine in three steps. *)
Lemma onvm_three {A C D} (c : M vm A) (f : A → M vm C) (g : A → M vm D) σ r m' :
  (a <- c ;; f a ;; g a)%C σ.(mach) = Ok (r, m') →
  (a <- onvm c ;; onvm (f a) ;; onvm (g a) ;; kret tt) σ = Ok (Some tt, upd_mach (λ _, m') σ).
Proof.
  intros H. apply bind_inv in H as (a & m1 & H1 & H). apply bind_inv in H as (b & m2 & H2 & H3).
  rewrite (kbind_Some _ _ _ _ _ (onvm_run _ _ _ _ H1)).
  rewrite (kbind_Some _ _ _ _ _ (onvm_run _ (upd_mach (λ _, m1) σ) _ _ H2)).
  by rewrite (kbind_Some _ _ _ _ _ (onvm_run _ (upd_mach (λ _, m2) (upd_mach (λ _, m1) σ)) _ _ H3)).
Qed.


(** What the supplemental page table has for an address. *)
Definition sup_of (x : thread) (v : Z) : Z := default NULL (x.(sup_page_table) !! pg_round_down v).

Lemma growth_test esp v p : 0 ≤ v →
  (u32 (esp - 32) <=? v) && (u32 (PHYS_BASE - 8388608) <=? v) && (v <? PHYS_BASE) && (p =? NULL) = true ↔ near_stack esp v ∧ p = NULL.
Proof.
  intros Hv. change (u32 (PHYS_BASE - 8388608)) with (PHYS_BASE - 8388608). unfold near_stack.
  rewrite !andb_true_iff, !Z.leb_le, Z.ltb_lt, Z.eqb_eq. tauto.
Qed.

Lemma kernel_round_down v : is_u32 v → is_kernel_vaddr (pg_round_down v) = (PHYS_BASE <=? v).
Proof.
  intros Hv. unfold is_kernel_vaddr. rewrite pg_round_down_eq by done. unfold PHYS_BASE, LOADER_PHYS_BASE.
  destruct (Z.leb_spec 3221225472 v); [apply Z.leb_le|apply Z.leb_gt]; dm_lia.
Qed.


(** ** Witnesses *)

Lemma exit_supplied m : blank m → supplied (exit_machine m) one_live PD {[32 := PT]} (Thread PD ∅ [] [] 0 [] 7).
Proof.
  intros Hb. pose proof (exit_machine_ok m Hb) as LE. split.
  - exact (le_process _ _ _ _ _ _ LE).
  - assert (allocator (one_page m 32 72) one_live) as Ha by (by apply one_page_ok).
    split; [exact Ha|done|split; [apply not_elem_of_nil|done]|].
    apply (free_not_crowded _ (one_page m 32 72).(ram)); [apply (al_pool _ _ Ha true)|]. cbn [exit_machine phys one_page pool_of user_pool]. by_decide.
  - done.
  - cbn [exit_machine phys one_page user_pool base used_map bit_cnt con ram_pages]. by_decide.
Qed.

Lemma stack_absent m : blank m → present (entry (exit_machine m).(phys).(ram) {[32 := PT]} (PHYS_BASE - 16)) = false.
Proof. intros Hb. unfold entry. rewrite lookup_singleton_ne by (by vm_compute). done. Qed.


