(* ===== verification/Paging.v ===== *)
(** * The kernel's page tables

    [paging_init] of threads/init.c maps all of physical memory at [PHYS_BASE], the text of
    the kernel read-only, in the directory that every process later shares. *)

From S2P Require Import Prelude Vaddr Bytes Bitmap Str Palloc Filesys Vm VmPagedir VmSpace VmLife VmSwap ProcLoad.
Local Open Scope c_scope.

(** ** The code *)

Definition upd_con f σ := Vm σ.(phys) σ.(fsys) σ.(proc) σ.(threads) σ.(current) σ.(frame_table) σ.(frame_sema)
  σ.(sup_entries) σ.(swaps) (f σ.(con)).

(** One page of physical memory; [pt] is the table of the page before. *)
Definition map_page (_start _end_kernel_text pd ram_pages : Z) : Z * Z → M vm (Z * Z + unit) :=
  λ '(page, pt),
    if page <? ram_pages then
      let paddr := u32 (page * PGSIZE) in
      vaddr <- pure (ptov paddr) ;;
      let pde_idx := pd_no vaddr in
      let pte_idx := pt_no vaddr in
      let in_kernel_text := (_start <=? vaddr) && (vaddr <? _end_kernel_text) in
      e <- load_word (pd + 4 * pde_idx) ;;
      pt <- (if e =? 0 then
               pt <- on_phys (palloc_get_page (Z.lor PAL_ASSERT PAL_ZERO)) ;;
               e <- pure (pde_create pt) ;;
               store_word (pd + 4 * pde_idx) e ;;
               ret pt
             else ret pt) ;;
      e <- pure (pte_create_kernel vaddr (negb in_kernel_text)) ;;
      store_word (pt + 4 * pte_idx) e ;;
      ret (inl (page + 1, pt))
    else ret (inr tt).

(** The bounds of the kernel's text come from the linker. *)
Definition paging_init (_start _end_kernel_text : Z) : M vm unit :=
  pd <- on_phys (palloc_get_page (Z.lor PAL_ASSERT PAL_ZERO)) ;;
  change (upd_con (λ c, Consts pd c.(ram_pages) c.(junk))) ;;
  c <- reads con ;;
  iter (S (Z.to_nat c.(ram_pages))) (map_page _start _end_kernel_text pd c.(ram_pages)) (0, NULL) ;;
  p <- pure (vtop pd) ;;
  change (upd_proc (λ _, Cpu p ∅)).

(** ** The mapping *)

(** The entry for the page [q] of physical memory. *)
Definition kernel_entry (_start _end_kernel_text q : Z) : Z :=
  let v := PHYS_BASE + 4096 * q in
  4096 * q + flags false (negb ((_start <=? v) && (v <? _end_kernel_text))).

(** A zeroed page of the kernel pool while there is one. *)
Lemma get_kernel_page σ B : allocator σ B → (0 < free_pages σ.(kernel_pool))%nat →
  ∃ r p, palloc_get_page (Z.lor PAL_ASSERT PAL_ZERO) σ = Ok (r, p) ∧
    let B' := set_live false (<[r := 1]> (B false)) B in
    allocator p B' ∧ (∀ u, same_place (pool_of u σ) (pool_of u p)) ∧ apart (B false) r 1 ∧
    (free_pages σ.(kernel_pool) ≤ S (free_pages p.(kernel_pool)))%nat ∧
    ∃ zs, zlen zs = 4096 ∧ Forall (eq 0) zs ∧ p.(ram) = store σ.(ram) r zs.
Proof.
  intros Ha Hf. destruct (get_serves σ B (Z.lor PAL_ASSERT PAL_ZERO) 1 Ha) as (r & p & B' & Hr & Hs & Ha' & Em & Hsp); [lia|].
  destruct zero_page as [Hz1 Hz2]. unfold filled in Em. revert Em Hz1 Hz2. generalize (replicate (Z.to_nat (4096 * 1)) 0). intros zs Em Hz1 Hz2.
  inversion Hs as [fl n Hcr|fl n r' u Hn Hr0 Hin Hap|]; subst.
  - destruct Hcr as [?|Hcr]; [done|]. by destruct (free_not_crowded _ _ _ (al_pool _ _ Ha false) Hf).
  - exists r, p. split; [exact Hr|]. split_and!; [exact Ha'|exact Hsp|exact Hap| |].
    + by apply (free_taken _ σ.(ram) (B false) _ p.(ram) r); [apply (al_pool _ _ Ha false)|apply (al_pool _ _ Ha' false)|apply (Hsp false)].
    + exists zs. rewrite (proj2 (Z.eqb_neq _ _) Hr0) in Em. done.
Qed.

(** The first [n] pages of memory are mapped, with the page tables [pts]. *)
Record kernel_map (s e : Z) (m : mem) (K : blocks) (pd : Z) (pts : list Z) (n : Z) : Prop := {
  km_dir : K !! pd = Some 1;
  km_tables : Forall (λ pt, K !! pt = Some 1) pts;
  km_distinct : NoDup (pd :: pts);
  km_count : n ≤ 1024 * zlen pts ≤ 262144;
  km_pde : ∀ i, 0 ≤ i < 1024 → word m (pd + 4 * i) =
    match pts !! Z.to_nat (i - 768) with
    | Some pt => if 768 <=? i then pt - PHYS_BASE + flags true true else 0
    | None => 0
    end;
  km_pte : ∀ q pt, 0 ≤ q < n → pts !! Z.to_nat (q `div` 1024) = Some pt → word m (pt + 4 * (q `mod` 1024)) = kernel_entry s e q;
}.

(** The virtual address of a page of physical memory and its indices. *)
Lemma page_address q : 0 ≤ q < 262144 →
  let v := PHYS_BASE + 4096 * q in
  ptov (u32 (q * PGSIZE)) = Ok v ∧ kernel_page v ∧ pd_no v = 768 + q `div` 1024 ∧ pt_no v = q `mod` 1024.
Proof.
  intros Hq v. unfold v, PGSIZE. rewrite u32_small by mlia. rewrite ptov_ok by lia.
  unfold kernel_page, PHYS_BASE, LOADER_PHYS_BASE. rewrite pd_no_eq, pt_no_eq by mlia. split_and!; [f_equal; lia|mlia|lia|dm_lia..].
Qed.

Lemma pte_create_kernel_ok p w : kernel_page p → pte_create_kernel p w = Ok (p - PHYS_BASE + flags false w).
Proof.
  intros Hp. unfold pte_create_kernel, rassert. rewrite pg_ofs_mod, (proj2 (proj2 Hp)). cbn [Z.eqb rbind].
  rewrite <- (entry_value p w false) by done. destruct Hp as (? & ? & ?). rewrite vtop_ok by done. cbn [rbind]. by rewrite Z.lor_0_r.
Qed.

Section step.
Context (s e : Z) (p : pages) (B : live) (Ha : allocator p B) (pd : Z) (pts : list Z) (n : Z).
Context (Hn : 0 ≤ n < 262144) (KM : kernel_map s e p.(ram) (B false) pd pts n).

Lemma table_page i pt : pts !! i = Some pt → B false !! pt = Some 1 ∧ pt ≠ pd.
Proof.
  intros Hi. split; [by apply (proj1 (Forall_lookup _ _) (km_tables _ _ _ _ _ _ _ KM) i)|].
  intros ->. pose proof (km_distinct _ _ _ _ _ _ _ KM) as [Hnin _]%NoDup_cons. by apply Hnin, list_elem_of_lookup_2 with i.
Qed.

(** The entry of the next page. *)
Lemma entry_step pt : pts !! Z.to_nat (n `div` 1024) = Some pt →
  kernel_map s e (store p.(ram) (pt + 4 * (n `mod` 1024)) (le32 (kernel_entry s e n))) (B false) pd pts (n + 1).
Proof.
  intros Hpt. destruct (table_page _ _ Hpt) as [Hb Hne]. pose proof KM as [K1 K2 K3 K4 K5 K6].
  pose proof (lookup_lt_Some _ _ _ Hpt) as Hlt. assert (∀ w, zlen (le32 w) = 4) as Hl by done.
  split; [done|done|done|dm_lia|..].
  - intros i Hi. rewrite word_store_out; [by apply K5|]. rewrite Hl. destruct (blocks_apart p B false pt pd Ha Hb K1 Hne); dm_lia.
  - intros q pt' Hq Hpt'. destruct (decide (q = n)) as [->|Hqn].
    + rewrite Hpt in Hpt'. injection Hpt' as <-. apply word_store_eq. unfold kernel_entry, flags. mc_unfold. repeat case_match; lia.
    + rewrite word_store_out; [apply K6; [lia|done]|]. rewrite Hl. destruct (table_page _ _ Hpt') as [Hb' _].
      destruct (decide (pt' = pt)) as [->|Hd]; [|destruct (blocks_apart p B false pt pt' Ha Hb Hb' ltac:(done)); dm_lia].
      assert (q `div` 1024 = n `div` 1024) by (apply Z2Nat.inj; [dm_lia..|]; eapply (NoDup_lookup pts); [by apply NoDup_cons in K3 as [_ ?]|done|done]).
      dm_lia.
Qed.

(** A table for the next 1024 pages, in a fresh page [r] of zeros. *)
Lemma table_step r zs : apart (B false) r 1 → kernel_page r → zlen zs = 4096 → Forall (eq 0) zs → n = 1024 * zlen pts →
  kernel_map s e (store (store p.(ram) r zs) (pd + 4 * (768 + n `div` 1024)) (le32 (r - PHYS_BASE + flags true true)))
    (<[r := 1]> (B false)) pd (pts ++ [r]) n.
Proof.
  intros Hap Hk Hz1 Hz2 Hfull. pose proof KM as [K1 K2 K3 K4 K5 K6]. assert (∀ w, zlen (le32 w) = 4) as Hl by done.
  assert (∀ b, B false !! b = Some 1 → b ≠ r ∧ (r + 4096 ≤ b ∨ b + 4096 ≤ r)) as Hd.
  { intros b Hb. specialize (Hap b 1 Hb). split; lia. }
  assert (r ∉ pd :: pts) as Hnew.
  { intros [->|[i Hi]%list_elem_of_lookup]%elem_of_cons; [by destruct (Hd pd K1)|]. by destruct (Hd r (proj1 (table_page _ _ Hi))). }
  split.
  - rewrite lookup_insert_ne; [done|]. intros ->. apply Hnew, elem_of_cons. by left.
  - apply Forall_app. split; [|apply Forall_singleton, lookup_insert_eq]. apply Forall_forall. intros b [i Hi]%list_elem_of_lookup.
    destruct (table_page _ _ Hi) as [Hb _]. rewrite lookup_insert_ne; [done|]. by destruct (Hd b Hb).
  - rewrite app_comm_cons. apply NoDup_app. split_and!; [done| |by repeat constructor; apply not_elem_of_nil].
    by intros b Hb ->%list_elem_of_singleton.
  - rewrite length_app. cbn [length]. lia.
  - intros i Hi. destruct (decide (i = 768 + n `div` 1024)) as [->|Hne].
    + rewrite word_store_eq.
      * replace (Z.to_nat (768 + n `div` 1024 - 768)) with (length pts) by dm_lia. rewrite lookup_app_r, Nat.sub_diag by lia. cbn. zcase; [done|dm_lia].
      * destruct Hk as (? & ? & ?). unfold PHYS_BASE, LOADER_PHYS_BASE, flags in *. mc_unfold. lia.
    + rewrite word_store_out by (rewrite Hl; lia). rewrite word_store_out by (rewrite Hz1; destruct (Hd pd K1); lia). rewrite K5 by done.
      destruct (decide (i < 768)) as [Hu|Hu].
      { rewrite (proj2 (Z.leb_gt 768 i)) by lia. by do 2 case_match. }
      destruct (pts !! Z.to_nat (i - 768)) as [b|] eqn:E; [by rewrite lookup_app_l_Some with (x := b)|].
      rewrite lookup_app_r by (by apply lookup_ge_None in E). apply lookup_ge_None in E.
      rewrite lookup_ge_None_2; [done|]. cbn. dm_lia.
  - intros q b Hq Hb. assert (q `div` 1024 < zlen pts) by dm_lia. rewrite lookup_app_l in Hb by dm_lia.
    destruct (table_page _ _ Hb) as [Hb1 Hne]. destruct (blocks_apart p B false b pd Ha Hb1 K1 Hne), (Hd b Hb1) as [_ [?|?]];
      rewrite word_store_out, word_store_out by (rewrite ?Hl, ?Hz1; dm_lia); by apply K6.
Qed.
End step.

(** ** The loop *)

Section loop.
Context (s e : Z) (σ0 : vm) (B0 : live) (pd N : Z) (HN : 0 ≤ N ≤ 262144).

(** The state before the page [n]. *)
Record mapping (σ : vm) (B : live) (pts : list Z) (n pt : Z) : Prop := {
  ma_alloc : allocator σ.(phys) B;
  ma_bytes : bytes_only σ.(phys).(ram);
  ma_map : kernel_map s e σ.(phys).(ram) (B false) pd pts n;
  ma_count : zlen pts = (n + 1023) `div` 1024;
  ma_table : n `mod` 1024 ≠ 0 → pts !! Z.to_nat (n `div` 1024) = Some pt;
  ma_user : B true = B0 true;
  ma_free : (N + 1023) `div` 1024 ≤ Z.of_nat (free_pages σ.(phys).(kernel_pool)) + zlen pts;
  ma_state : ∃ p, σ = upd_phys (λ _, p) σ0;
}.

Lemma table_of σ B pts n pt : 0 ≤ n < N → mapping σ B pts n pt →
  ∃ pt' σ' B' pts', (e <- load_word (pd + 4 * (768 + n `div` 1024)) ;;
      if e =? 0 then
        pt <- on_phys (palloc_get_page (Z.lor PAL_ASSERT PAL_ZERO)) ;;
        e <- pure (pde_create pt) ;;
        store_word (pd + 4 * (768 + n `div` 1024)) e ;;
        ret pt
      else ret pt) σ = Ok (pt', σ') ∧
    kernel_map s e σ'.(phys).(ram) (B' false) pd pts' n ∧ pts' !! Z.to_nat (n `div` 1024) = Some pt' ∧
    zlen pts' = (n + 1 + 1023) `div` 1024 ∧
    allocator σ'.(phys) B' ∧ bytes_only σ'.(phys).(ram) ∧ B' true = B0 true ∧
    (N + 1023) `div` 1024 ≤ Z.of_nat (free_pages σ'.(phys).(kernel_pool)) + zlen pts' ∧ ∃ p, σ' = upd_phys (λ _, p) σ0.
Proof.
  intros Hn [Ha Hb KM Hc Ht Hu Hf [p0 Hs]]. pose proof KM as [K1 K2 K3 K4 K5 K6]. set (i := 768 + n `div` 1024).
  assert (0 ≤ i < 1024) as Hi by (unfold i; dm_lia). destruct (page_block _ _ _ _ Ha K1) as (_ & Hm & _).
  assert (mapped σ.(phys).(ram) (pd + 4 * i) 4) as Hmi by (intros a Hai; apply Hm; lia).
  rewrite (bind_Ok _ _ _ _ _ (load_word_run σ _ Hmi)), K5 by done. replace (i - 768) with (n `div` 1024) by (unfold i; lia).
  destruct (decide (n `mod` 1024 = 0)) as [E0|E0].
  - rewrite lookup_ge_None_2 by dm_lia. cbn [Z.eqb].
    destruct (get_kernel_page σ.(phys) B Ha) as (r & p & Hr & Ha' & Hsp & Hap & Hfr & zs & Hz1 & Hz2 & Em); [dm_lia|].
    set (B' := set_live false (<[r := 1]> (B false)) B) in *.
    assert (B' false !! r = Some 1) as Hr1 by apply lookup_insert_eq. destruct (page_block _ _ _ _ Ha' Hr1) as (Hk & _).
    rewrite (bind_Ok _ _ _ _ _ (on_phys_run _ σ _ _ Hr)), (bind_Ok _ _ _ _ _ (pure_run _ _ _ (pde_create_ok r Hk))).
    set (σ1 := upd_phys (λ _, p) σ). set (w := r - PHYS_BASE + flags true true).
    assert (mapped σ1.(phys).(ram) (pd + 4 * i) 4) as Hm1 by (change (mapped p.(ram) (pd + 4 * i) 4); rewrite Em; by apply mapped_store).
    rewrite (bind_Ok _ _ _ _ _ (store_word_run σ1 _ w Hm1)).
    exists r, (set_mem (store p.(ram) (pd + 4 * i) (le32 w)) σ1), B', (pts ++ [r]).
    assert (zlen (pts ++ [r]) = zlen pts + 1) as Hlen by (rewrite length_app; cbn [length]; lia).
    split_and!; [done| | |rewrite Hlen; dm_lia| | |done|rewrite Hlen; cbn; lia|].
    + change (kernel_map s e (store p.(ram) (pd + 4 * i) (le32 w)) (B' false) pd (pts ++ [r]) n). rewrite Em.
      apply (table_step s e σ.(phys) B Ha pd pts n ltac:(lia) KM r zs); [done..|dm_lia].
    + rewrite lookup_app_r by dm_lia. by replace (Z.to_nat (n `div` 1024) - length pts)%nat with 0%nat by dm_lia.
    + by apply (allocator_store p B').
    + apply bytes_only_store; [|apply le32_bytes]. change (bytes_only p.(ram)). rewrite Em. apply bytes_only_store; [done|].
      eapply Forall_impl; [exact Hz2|]. by intros ? <-.
    + unfold σ1. rewrite Hs. by eexists.
  - rewrite (Ht E0). rewrite (proj2 (Z.leb_le 768 i)) by (unfold i; dm_lia).
    destruct (table_page s e σ.(phys) B pd pts n KM _ _ (Ht E0)) as [Hb1 _]. destruct (page_block _ _ _ _ Ha Hb1) as (Hk & _).
    rewrite pde_nonzero by done. exists pt, σ, B, pts. split_and!; [done|done|by apply Ht|dm_lia|done|done|done|done|rewrite Hs; by eexists].
Qed.

Lemma map_page_run σ B pts n pt : 0 ≤ n < N → mapping σ B pts n pt →
  ∃ pt' σ' B' pts', map_page s e pd N (n, pt) σ = Ok (inl (n + 1, pt'), σ') ∧ mapping σ' B' pts' (n + 1) pt'.
Proof.
  intros Hn MA. destruct (table_of σ B pts n pt Hn MA) as (pt' & σ1 & B1 & pts1 & Hr & KM & Hpt & Hc & Ha & Hb & Hu & Hf & Hs).
  destruct (page_address n ltac:(lia)) as (Hv & Hk & Hd & Ht). set (v := PHYS_BASE + 4096 * n) in *.
  destruct (table_page s e σ1.(phys) B1 pd pts1 n KM _ _ Hpt) as [Hb1 _]. destruct (page_block _ _ _ _ Ha Hb1) as (_ & Hm & _).
  exists pt', (set_mem (store σ1.(phys).(ram) (pt' + 4 * (n `mod` 1024)) (le32 (kernel_entry s e n))) σ1), B1, pts1. split.
  - unfold map_page. rewrite (proj2 (Z.ltb_lt _ _)) by lia. rewrite (bind_Ok _ _ _ _ _ (pure_run _ _ σ Hv)), Hd, Ht.
    apply bind_inv in Hr as (w & σ' & Hl & Hr). rewrite (bind_Ok _ _ _ _ _ Hl), (bind_Ok _ _ _ _ _ Hr).
    rewrite (bind_Ok _ _ _ _ _ (pure_run _ _ _ (pte_create_kernel_ok v _ Hk))).
    replace (v - PHYS_BASE + flags false _) with (kernel_entry s e n) by (unfold kernel_entry; fold v; unfold v; f_equal; lia).
    assert (mapped σ1.(phys).(ram) (pt' + 4 * (n `mod` 1024)) 4) as Hm4 by (intros a Haa; apply Hm; dm_lia).
    by rewrite (bind_Ok _ _ _ _ _ (store_word_run σ1 _ _ Hm4)).
  - split; [by apply (allocator_store σ1.(phys) B1)|apply bytes_only_store; [done|apply le32_bytes]|by apply entry_step; [|lia|..]|done| |done|done|].
    + intros Hz. by replace ((n + 1) `div` 1024) with (n `div` 1024) by dm_lia.
    + destruct Hs as [p ->]. by eexists.
Qed.

Lemma map_loop k : ∀ σ B pts n pt, 0 ≤ n ≤ N → (Z.to_nat (N - n) < k)%nat → mapping σ B pts n pt →
  ∃ pt' σ' B' pts', iter k (map_page s e pd N) (n, pt) σ = Ok (tt, σ') ∧ mapping σ' B' pts' N pt'.
Proof.
  induction k as [|k IH]; intros σ B pts n pt Hn Hk MA; [lia|]. destruct (decide (n = N)) as [->|Hne].
  - exists pt, σ, B, pts. split; [|done]. rewrite (iter_break _ _ _ tt _ σ); [done|]. unfold map_page. by rewrite (proj2 (Z.ltb_ge _ _)) by lia.
  - destruct (map_page_run σ B pts n pt ltac:(lia) MA) as (pt1 & σ1 & B1 & pts1 & Hr & MA1).
    rewrite (iter_continue _ _ _ _ _ _ Hr). apply (IH _ B1 pts1); [lia..|done].
Qed.
End loop.

(** ** Translation *)

(** What the processor makes of an address: the physical address, whether it may be
    written to and whether user mode may use it. *)
Definition translate (m : mem) (pd v : Z) : option (Z * bool * bool) :=
  let pde := word m (pd + 4 * pd_no v) in
  if present pde then
    let pte := word m (frame_of pde + 4 * pt_no v) in
    if present pte then Some (pte - pte `mod` 4096 + v `mod` 4096, negb (Z.land pte PTE_W =? 0), negb (Z.land pte PTE_U =? 0))
    else None
  else None.

Definition in_text (s e q : Z) : bool := (s <=? PHYS_BASE + 4096 * q) && (PHYS_BASE + 4096 * q <? e).

Lemma kernel_translate s e m B p pd pts n a : allocator p B → p.(ram) = m → n ≤ 262144 →
  kernel_map s e m (B false) pd pts n → 0 ≤ a < 4096 * n →
  translate m pd (PHYS_BASE + a) = Some (a, negb (in_text s e (a `div` 4096)), false).
Proof.
  intros Ha Em Hn KM Hra. pose proof KM as [K1 K2 K3 K4 K5 K6]. set (q := a `div` 4096).
  assert (0 ≤ q < n) as Hq by (unfold q; dm_lia).
  assert (pd_no (PHYS_BASE + a) = 768 + q `div` 1024 ∧ pt_no (PHYS_BASE + a) = q `mod` 1024 ∧ (PHYS_BASE + a) `mod` 4096 = a `mod` 4096) as (Ed & Et & Eo).
  { unfold PHYS_BASE, LOADER_PHYS_BASE. rewrite pd_no_eq, pt_no_eq by mlia. unfold q. dm_lia. }
  destruct (lookup_lt_is_Some_2 pts (Z.to_nat (q `div` 1024))) as [pt Hpt]; [dm_lia|].
  assert (B false !! pt = Some 1) as Hb by (by apply (proj1 (Forall_lookup _ _) K2 (Z.to_nat (q `div` 1024)))).
  destruct (page_block _ _ _ _ Ha Hb) as (Hk & _). destruct (added_frame pt true Hk) as [Hp Hf].
  unfold translate. rewrite Ed, Et, Eo, K5 by dm_lia. replace (768 + q `div` 1024 - 768) with (q `div` 1024) by lia.
  rewrite Hpt, (proj2 (Z.leb_le _ _)) by dm_lia. rewrite Hp, Hf, (K6 q pt Hq Hpt). unfold kernel_entry. fold (in_text s e q).
  destruct (page_address q ltac:(lia)) as (_ & Hkv & _). set (v := PHYS_BASE + 4096 * q) in *.
  assert (4096 * q = v - PHYS_BASE) as Ev by (unfold v; lia). set (w := negb (in_text s e q)).
  assert (0 ≤ flags false w < 4096) as Hfl by (unfold flags; destruct w; lia).
  assert ((4096 * q + flags false w) `mod` 4096 = flags false w) as -> by dm_lia.
  unfold present. rewrite Ev, !entry_flag by done.
  assert (v - PHYS_BASE + flags false w - flags false w + a `mod` 4096 = a) as -> by (unfold v, q; dm_lia).
  by destruct w.
Qed.

(** Property C29.  paging_init gives the kernel a directory that maps the whole physical
    memory at PHYS_BASE: every byte of it has its address plus PHYS_BASE, the text of the
    kernel cannot be written to, user mode can use none of it, and there is nothing below
    PHYS_BASE.  The processor runs on it, and it is the initial directory that
    pagedir_create copies.  It needs one page for every 4 MB and one for the directory. *)
Theorem paging_init_ok σ B s e :
  allocator σ.(phys) B → bytes_only σ.(phys).(ram) → 0 ≤ σ.(con).(ram_pages) ≤ 262144 →
  (σ.(con).(ram_pages) + 1023) `div` 1024 < Z.of_nat (free_pages σ.(phys).(kernel_pool)) →
  ∃ pd σ' B', paging_init s e σ = Ok (tt, σ') ∧
    space σ' B' σ'.(con).(base_page_dir) ∅ ∧ σ'.(con) = Consts pd σ.(con).(ram_pages) σ.(con).(junk) ∧ σ'.(proc) = Cpu (pd - PHYS_BASE) ∅ ∧
    B' true = B true ∧
    (∀ a, 0 ≤ a < 4096 * σ.(con).(ram_pages) →
      translate σ'.(phys).(ram) pd (PHYS_BASE + a) = Some (a, negb (in_text s e (a `div` 4096)), false)) ∧
    (∀ v, 0 ≤ v < PHYS_BASE → translate σ'.(phys).(ram) pd v = None).
Proof.
  intros Ha Hb HN Hfree. set (N := σ.(con).(ram_pages)) in *.
  destruct (get_kernel_page σ.(phys) B Ha) as (pd & p & Hr & Ha1 & Hsp & Hap & Hfr & zs & Hz1 & Hz2 & Em); [dm_lia|].
  set (B1 := set_live false (<[pd := 1]> (B false)) B) in *. assert (B1 false !! pd = Some 1) as Hpd by apply lookup_insert_eq.
  destruct (page_block _ _ _ _ Ha1 Hpd) as ((Hk1 & Hk2 & Hk3) & _).
  set (σ1 := upd_con (λ c, Consts pd c.(ram_pages) c.(junk)) (upd_phys (λ _, p) σ)).
  assert (mapping s e σ1 B pd N σ1 B1 [] 0 NULL) as MA.
  { split; [done| | |done|done|done|change (zlen []) with 0; change (free_pages σ1.(phys).(kernel_pool)) with (free_pages p.(kernel_pool)); lia|by exists p].
    - change (bytes_only p.(ram)). rewrite Em. apply bytes_only_store; [done|]. eapply Forall_impl; [exact Hz2|]. by intros ? <-.
    - split; [done|done|by repeat constructor; apply not_elem_of_nil|cbn; lia| |intros q pt Hq; lia].
      intros i Hi. rewrite lookup_nil. change (word p.(ram) (pd + 4 * i) = 0). rewrite Em. apply word_zero; [done|lia|lia]. }
  destruct (map_loop s e σ1 B pd N HN (S (Z.to_nat N)) σ1 B1 [] 0 NULL ltac:(lia) ltac:(lia) MA) as (pt' & σ2 & B2 & pts & Hl & MA2).
  destruct MA2 as [A2 Y2 KM _ _ U2 _ [p2 S2]]. pose proof KM as [K1 K2 K3 K4 K5 K6].
  exists pd, (upd_proc (λ _, Cpu (pd - PHYS_BASE) ∅) σ2), B2. split_and!; [| |by rewrite S2|done|done|..].
  - unfold paging_init. rewrite (bind_Ok _ _ _ _ _ (on_phys_run _ σ _ _ Hr)), (bind_Ok _ _ _ tt σ1), (bind_Ok _ _ σ1 σ1.(con) σ1) by done.
    change (ram_pages (con σ1)) with N. rewrite (bind_Ok _ _ _ _ _ Hl). by rewrite (bind_Ok _ _ _ _ _ (pure_run _ _ _ (vtop_ok pd Hk1 Hk2))).
  - assert (base_page_dir (con (upd_proc (λ _, Cpu (pd - PHYS_BASE) ∅) σ2)) = pd) as -> by (by rewrite S2).
    split; [split; [done| |done]|]; [split; [done|done|done|]|by intros u Hu].
    intros i Hi. rewrite lookup_empty. change (word σ2.(phys).(ram) (pd + 4 * i) = 0). rewrite K5 by lia. rewrite (proj2 (Z.leb_gt 768 i)) by lia. by case_match.
  - intros a Hra. by apply (kernel_translate s e _ B2 σ2.(phys) pd pts N); [| |lia|..].
  - intros v Hv. destruct (user_indices v Hv) as [Hi _]. unfold translate. change (ram (phys _)) with σ2.(phys).(ram).
    assert (word σ2.(phys).(ram) (pd + 4 * pd_no v) = 0) as ->; [|done].
    rewrite K5 by lia. rewrite (proj2 (Z.leb_gt 768 (pd_no v))) by lia. by destruct (pts !! _).
Qed.

(** *** Witness: a machine with four free pages and eight of memory *)

Definition new_machine (n : Z) : vm := Vm small_pages no_files (Cpu 0 ∅) ∅ 0 [] 1 ∅ (Swap None [] ∅ 1) (Consts 0 n 0).

Lemma paging_init_ok_witness :
  allocator (new_machine 8).(phys) (λ _, ∅) ∧
  ∃ pd σ', paging_init (PHYS_BASE + 4096) (PHYS_BASE + 8192) (new_machine 8) = Ok (tt, σ') ∧
    translate σ'.(phys).(ram) pd (PHYS_BASE + 4100) = Some (4100, false, false).
Proof.
  split; [exact small_pages_ok|].
  destruct (paging_init_ok (new_machine 8) (λ _, ∅) (PHYS_BASE + 4096) (PHYS_BASE + 8192) small_pages_ok (frames_bytes _ _)) as (pd & σ' & B' & Hr & _ & _ & _ & _ & Ht & _).
  - split; [done|]. change (8 ≤ 262144). lia.
  - by vm_compute.
  - exists pd, σ'. split; [exact Hr|]. exact (Ht 4100 ltac:(change (ram_pages _) with 8; lia)).
Defined.
