(* ===== verification/Gates.v ===== *)
(** * Segments, gates and the interrupt controllers

    userprog/gdt.c, userprog/tss.c, the tables of threads/interrupt.c and the handlers
    that exception_init, syscall_init and the devices register.  Descriptors are 64-bit
    words in the format of the processor; the two 8259A interrupt controllers are state
    machines driven by the bytes written to their ports.  The addresses of the entry
    stubs of threads/intr-stubs.S and of the tables are arguments. *)

From Stdlib Require Import String.
From S2P Require Import Prelude Vaddr Bytes Str Palloc Sched.
Local Open Scope Z_scope.
Local Open Scope c_scope.

(** ** Segment descriptors (gdt.c) *)

Definition SEL_NULL : Z := 0.
Definition SEL_KCSEG : Z := 8.
Definition SEL_KDSEG : Z := 16.
Definition SEL_UCSEG : Z := 27.
Definition SEL_UDSEG : Z := 35.
Definition SEL_TSS : Z := 40.
Definition SEL_CNT : Z := 6.

Definition CLS_SYSTEM : Z := 0.
Definition CLS_CODE_DATA : Z := 1.
Definition GRAN_BYTE : Z := 0.
Definition GRAN_PAGE : Z := 1.

Definition make_seg_desc (base limit class type dpl granularity : Z) : res Z :=
  let* _ := rassert (limit <=? 1048575) in
  let* _ := rassert ((class =? CLS_SYSTEM) || (class =? CLS_CODE_DATA)) in
  let* _ := rassert ((0 <=? type) && (type <=? 15)) in
  let* _ := rassert ((0 <=? dpl) && (dpl <=? 3)) in
  let* _ := rassert ((granularity =? GRAN_BYTE) || (granularity =? GRAN_PAGE)) in
  let e0 := Z.lor (Z.land limit 65535) (u32 (Z.shiftl base 16)) in
  let e1 := Z.lor (Z.lor (Z.lor (Z.lor (Z.lor (Z.lor (Z.lor (Z.lor
              (Z.land (Z.shiftr base 16) 255)
              (Z.shiftl type 8)) (Z.shiftl class 12)) (Z.shiftl dpl 13)) (Z.shiftl 1 15))
              (Z.land limit 983040)) (Z.shiftl 1 22)) (Z.shiftl granularity 23)) (Z.land base 4278190080) in
  Ok (Z.lor e0 (u64 (Z.shiftl e1 32))).

Definition make_code_desc (dpl : Z) : res Z := make_seg_desc 0 1048575 CLS_CODE_DATA 10 dpl GRAN_PAGE.
Definition make_data_desc (dpl : Z) : res Z := make_seg_desc 0 1048575 CLS_CODE_DATA 2 dpl GRAN_PAGE.
Definition make_tss_desc (laddr : Z) : res Z := make_seg_desc laddr 103 CLS_SYSTEM 9 0 GRAN_BYTE.

(** make_gdtr_operand and make_idtr_operand have the same body. *)
Definition make_gdtr_operand (limit base : Z) : Z := Z.lor limit (Z.shiftl (u32 base) 16).
Definition make_idtr_operand (limit base : Z) : Z := Z.lor limit (Z.shiftl (u32 base) 16).

(** ** Gates (interrupt.c) *)

Definition make_gate (function dpl type : Z) : res Z :=
  let* _ := rassert (negb (function =? NULL)) in
  let* _ := rassert ((0 <=? dpl) && (dpl <=? 3)) in
  let* _ := rassert ((0 <=? type) && (type <=? 15)) in
  let e0 := Z.lor (Z.land function 65535) (Z.shiftl SEL_KCSEG 16) in
  let e1 := Z.lor (Z.lor (Z.lor (Z.lor (Z.land function 4294901760) (Z.shiftl 1 15)) (Z.shiftl dpl 13)) (Z.shiftl 0 12)) (Z.shiftl type 8) in
  Ok (Z.lor e0 (u64 (Z.shiftl e1 32))).

Definition make_intr_gate (function dpl : Z) : res Z := make_gate function dpl 14.
Definition make_trap_gate (function dpl : Z) : res Z := make_gate function dpl 15.

(** *** How the processor reads them *)

(** Bits [lo, lo + n) of a descriptor. *)
Definition field (d lo n : Z) : Z := (d `div` 2 ^ lo) `mod` 2 ^ n.

Record segment := Segment {
  seg_base : Z; seg_limit : Z; seg_type : Z; seg_class : Z; seg_dpl : Z; seg_present : bool; seg_32bit : bool; seg_granularity : Z }.

Definition read_segment (d : Z) : segment :=
  Segment (field d 16 16 + 65536 * field d 32 8 + 16777216 * field d 56 8) (field d 0 16 + 65536 * field d 48 4)
    (field d 40 4) (field d 44 1) (field d 45 2) (field d 47 1 =? 1) (field d 54 1 =? 1) (field d 55 1).

Record gate := Gate { g_offset : Z; g_selector : Z; g_type : Z; g_dpl : Z; g_present : bool }.

Definition read_gate (d : Z) : gate :=
  Gate (field d 0 16 + 65536 * field d 48 16) (field d 16 16) (field d 40 5) (field d 45 2) (field d 47 1 =? 1).

(** Bits above those that are set already add up. *)
Lemma lor_above a b k : 0 ≤ k → 0 ≤ a < 2 ^ k → b `mod` 2 ^ k = 0 → Z.lor a b = a + b.
Proof. intros Hk Ha Hb. rewrite Z.lor_comm, (lor_add b a k) by done. lia. Qed.

Lemma land_nibble x : 0 ≤ x < 1048576 → Z.land x 983040 = x - x `mod` 65536.
Proof.
  intros Hx. change 983040 with (Z.land (2 ^ 20 - 1) (2 ^ 32 - 2 ^ 16)).
  rewrite Z.land_assoc, (land_low x 20), Z.mod_small by (change (2 ^ 20) with 1048576; lia). apply (land_high x 16); mlia.
Qed.

(** A shift by a constant is a product, and the disjunction of fields that do not
    overlap is their sum. *)
Ltac norm_shift := rewrite ?Z.shiftl_mul_pow2 by done.
Ltac pow_const := repeat match goal with |- context [2 ^ ?k] => let x := eval vm_compute in (2 ^ k) in change (2 ^ k) with x end.
Ltac inner_lor tac := match goal with |- context [Z.lor ?a ?b] => lazymatch a with context [Z.lor _ _] => fail | _ => tac a b end end.
Ltac above k := inner_lor ltac:(fun a b => rewrite (lor_above a b k); [|done|pow_const; dm_lia|pow_const; dm_lia]).
Ltac below k := inner_lor ltac:(fun a b => rewrite (lor_add a b k); [|done|pow_const; dm_lia|pow_const; dm_lia]).

Lemma desc_words e0 e1 : is_u32 e0 → is_u32 e1 → Z.lor e0 (u64 (Z.shiftl e1 32)) = e0 + e1 * 4294967296.
Proof. intros H0 H1. norm_shift. rewrite u64_small by mlia. by above 32. Qed.

Lemma seg_low base limit : is_u32 base → Z.lor (Z.land limit 65535) (u32 (Z.shiftl base 16)) = limit `mod` 65536 + base `mod` 65536 * 65536.
Proof.
  intros Hb. change 65535 with (2 ^ 16 - 1). rewrite (land_low limit 16) by done. norm_shift. replace (u32 (base * 2 ^ 16)) with (base `mod` 65536 * 65536) by (unfold u32; dm_lia).
  by above 16.
Qed.

Lemma seg_high base limit class type dpl gran :
  is_u32 base → 0 ≤ limit < 1048576 → 0 ≤ class < 2 → 0 ≤ type < 16 → 0 ≤ dpl < 4 → 0 ≤ gran < 2 →
  Z.lor (Z.lor (Z.lor (Z.lor (Z.lor (Z.lor (Z.lor (Z.lor (Z.land (Z.shiftr base 16) 255)
    (Z.shiftl type 8)) (Z.shiftl class 12)) (Z.shiftl dpl 13)) (Z.shiftl 1 15)) (Z.land limit 983040)) (Z.shiftl 1 22))
    (Z.shiftl gran 23)) (Z.land base 4278190080) =
  (base `div` 65536) `mod` 256 + type * 256 + class * 4096 + dpl * 8192 + 32768 + limit `div` 65536 * 65536 + 4194304 +
    gran * 8388608 + base `div` 16777216 * 16777216.
Proof.
  intros Hb Hl Hc Ht Hd Hg. change 255 with (2 ^ 8 - 1). change 4278190080 with (2 ^ 32 - 2 ^ 24).
  rewrite (land_low _ 8), Z.shiftr_div_pow2, land_nibble, (land_high base 24) by done. norm_shift.
  replace (limit - limit `mod` 65536) with (limit `div` 65536 * 65536) by dm_lia.
  replace (base - base `mod` 2 ^ 24) with (base `div` 16777216 * 16777216) by dm_lia. pow_const.
  assert (0 ≤ (base `div` 65536) `mod` 256 < 256) by dm_lia. set (b := (base `div` 65536) `mod` 256) in *.
  assert (0 ≤ limit `div` 65536 < 16) by dm_lia. set (l := limit `div` 65536) in *. set (h := base `div` 16777216).
  above 8. above 12. above 13. above 15. above 16. above 20. above 23. above 24. done.
Qed.

Lemma make_seg_desc_ok base limit class type dpl gran :
  is_u32 base → 0 ≤ limit < 1048576 → 0 ≤ class < 2 → 0 ≤ type < 16 → 0 ≤ dpl < 4 → 0 ≤ gran < 2 →
  ∃ d, make_seg_desc base limit class type dpl gran = Ok d ∧ is_u64 d ∧
    read_segment d = Segment base limit type class dpl true true gran.
Proof.
  intros Hb Hl Hc Ht Hd Hg. unfold make_seg_desc. rewrite seg_low, seg_high by done.
  rewrite (proj2 (Z.leb_le limit _)), (proj2 (Z.leb_le 0 type)), (proj2 (Z.leb_le type _)), (proj2 (Z.leb_le 0 dpl)), (proj2 (Z.leb_le dpl _)) by lia.
  replace ((class =? CLS_SYSTEM) || (class =? CLS_CODE_DATA)) with true by (unfold CLS_SYSTEM, CLS_CODE_DATA; repeat zcase; lia).
  replace ((gran =? GRAN_BYTE) || (gran =? GRAN_PAGE)) with true by (unfold GRAN_BYTE, GRAN_PAGE; repeat zcase; lia).
  cbn [rassert rbind andb]. eexists. split; [reflexivity|]. rewrite desc_words by dm_lia. split; [dm_lia|].
  unfold read_segment, field. pow_const. rewrite !Z.div_1_r. f_equal; [dm_lia..|]; (repeat zcase; try done; dm_lia).
Qed.

Lemma gate_low f : Z.lor (Z.land f 65535) (Z.shiftl SEL_KCSEG 16) = f `mod` 65536 + 524288.
Proof.
  change 65535 with (2 ^ 16 - 1). rewrite (land_low _ 16) by done. change (Z.shiftl SEL_KCSEG 16) with 524288. by above 16.
Qed.

Lemma gate_high f dpl type : is_u32 f → 0 ≤ dpl < 4 → 0 ≤ type < 16 →
  Z.lor (Z.lor (Z.lor (Z.lor (Z.land f 4294901760) (Z.shiftl 1 15)) (Z.shiftl dpl 13)) (Z.shiftl 0 12)) (Z.shiftl type 8) =
  f `div` 65536 * 65536 + 32768 + dpl * 8192 + type * 256.
Proof.
  intros Hf Hd Ht. change 4294901760 with (2 ^ 32 - 2 ^ 16). rewrite (land_high _ 16), Z.shiftl_0_l, Z.lor_0_r by done. norm_shift. pow_const.
  replace (f - f `mod` 65536) with (f `div` 65536 * 65536) by dm_lia. set (h := f `div` 65536).
  below 16. below 15. below 13. done.
Qed.

Lemma make_gate_ok function dpl type :
  is_u32 function → function ≠ 0 → 0 ≤ dpl < 4 → 0 ≤ type < 16 →
  ∃ d, make_gate function dpl type = Ok d ∧ is_u64 d ∧ read_gate d = Gate function SEL_KCSEG type dpl true.
Proof.
  intros Hf Hn Hd Ht. unfold make_gate. rewrite (proj2 (Z.eqb_neq function NULL) Hn).
  rewrite (proj2 (Z.leb_le 0 type)), (proj2 (Z.leb_le type _)), (proj2 (Z.leb_le 0 dpl)), (proj2 (Z.leb_le dpl _)) by lia.
  cbn [rassert rbind andb negb]. eexists. split; [reflexivity|]. rewrite gate_low, gate_high by done.
  rewrite desc_words by dm_lia. split; [dm_lia|].
  unfold read_gate, field, SEL_KCSEG. pow_const. rewrite !Z.div_1_r. f_equal; [dm_lia..|]. zcase; [done|dm_lia].
Qed.

(** ** The interrupt controllers

    An 8259A takes its four initialisation words in order after a byte with bit 4 set at
    its even port; then its odd port holds the mask of its lines, and the byte 0x20 at its
    even port ends the service of the line of highest priority. *)

Record chip := Chip { ch_base : Z; ch_mask : Z; ch_service : Z; ch_icw1 : Z; ch_icw3 : Z; ch_icw4 : Z; ch_expect : Z }.

Definition ready : Z := 0.

Definition chip_odd (v : Z) (c : chip) : chip :=
  if c.(ch_expect) =? 2 then Chip (Z.land v 248) c.(ch_mask) c.(ch_service) c.(ch_icw1) c.(ch_icw3) c.(ch_icw4)
    (if Z.testbit c.(ch_icw1) 1 then if Z.testbit c.(ch_icw1) 0 then 4 else ready else 3)
  else if c.(ch_expect) =? 3 then Chip c.(ch_base) c.(ch_mask) c.(ch_service) c.(ch_icw1) v c.(ch_icw4)
    (if Z.testbit c.(ch_icw1) 0 then 4 else ready)
  else if c.(ch_expect) =? 4 then Chip c.(ch_base) c.(ch_mask) c.(ch_service) c.(ch_icw1) c.(ch_icw3) v ready
  else Chip c.(ch_base) v c.(ch_service) c.(ch_icw1) c.(ch_icw3) c.(ch_icw4) ready.

(** Ends the service of the lowest line. *)
Definition end_service (isr : Z) : Z := Z.land isr (isr - 1).

Definition chip_even (v : Z) (c : chip) : chip :=
  if Z.testbit v 4 then Chip c.(ch_base) 0 0 v c.(ch_icw3) c.(ch_icw4) 2
  else if v =? 32 then Chip c.(ch_base) c.(ch_mask) (end_service c.(ch_service)) c.(ch_icw1) c.(ch_icw3) c.(ch_icw4) c.(ch_expect)
  else c.

Record pics := Pics { master : chip; slave : chip }.

Definition outb (port v : Z) (p : pics) : pics :=
  if port =? 32 then Pics (chip_even v p.(master)) p.(slave)
  else if port =? 33 then Pics (chip_odd v p.(master)) p.(slave)
  else if port =? 160 then Pics p.(master) (chip_even v p.(slave))
  else if port =? 161 then Pics p.(master) (chip_odd v p.(slave))
  else p.

(** Puts line [i] of a chip into service: it must not be masked, and no line of the same
    or a higher priority may be in service. *)
Definition accept (i : Z) (c : chip) : option (Z * chip) :=
  if (c.(ch_expect) =? ready) && negb (Z.testbit c.(ch_mask) i) && (Z.land c.(ch_service) (Z.ones (i + 1)) =? 0) then
    Some (c.(ch_base) + i, Chip c.(ch_base) c.(ch_mask) (Z.lor c.(ch_service) (2 ^ i)) c.(ch_icw1) c.(ch_icw3) c.(ch_icw4) c.(ch_expect))
  else None.

(** A device raises line [irq]: the vector the processor gets. *)
Definition raise (irq : Z) (p : pics) : option (Z * pics) :=
  if irq <? 8 then
    match accept irq p.(master) with Some (v, m) => Some (v, Pics m p.(slave)) | None => None end
  else if Z.testbit p.(master).(ch_icw3) p.(slave).(ch_icw3) then
    match accept p.(slave).(ch_icw3) p.(master), accept (irq - 8) p.(slave) with
    | Some (_, m), Some (v, s) => Some (v, Pics m s)
    | _, _ => None
    end
  else None.

(** ** The tables of interrupt.c

    [H] is the type of handlers. *)

Section Tables.
Context {H : Type}.

Record tables := Tables { idt : list Z; intr_handlers : list (option H); intr_names : list string; idtr : Z; pic : pics }.

Definition upd_pic (f : pics → pics) (σ : tables) : tables := Tables σ.(idt) σ.(intr_handlers) σ.(intr_names) σ.(idtr) (f σ.(pic)).

Definition out (port v : Z) : M tables unit := λ σ, Ok (tt, upd_pic (outb port v) σ).

Definition pic_init : M tables unit :=
  out 33 255 ;; out 161 255 ;;
  out 32 17 ;; out 33 32 ;; out 33 4 ;; out 33 1 ;;
  out 160 17 ;; out 161 40 ;; out 161 2 ;; out 161 1 ;;
  out 33 0 ;; out 161 0.

Definition pic_end_of_interrupt (irq : Z) : M tables unit :=
  assert ((32 <=? irq) && (irq <? 48)) ;;
  out 32 32 ;;
  if 40 <=? irq then out 160 32 else ret tt.

Definition INTR_CNT : Z := 256.

Definition set_gate (v g : Z) : M tables unit :=
  λ σ, Ok (tt, Tables (<[Z.to_nat v := g]> σ.(idt)) σ.(intr_handlers) σ.(intr_names) σ.(idtr) σ.(pic)).
Definition set_handler (v : Z) (h : H) : M tables unit :=
  λ σ, Ok (tt, Tables σ.(idt) (<[Z.to_nat v := Some h]> σ.(intr_handlers)) σ.(intr_names) σ.(idtr) σ.(pic)).
Definition set_name (v : Z) (n : string) : M tables unit :=
  λ σ, Ok (tt, Tables σ.(idt) σ.(intr_handlers) (<[Z.to_nat v := n]> σ.(intr_names)) σ.(idtr) σ.(pic)).
Definition lidt (op : Z) : M tables unit :=
  λ σ, Ok (tt, Tables σ.(idt) σ.(intr_handlers) σ.(intr_names) op σ.(pic)).

Definition lift {A} (r : res A) : M tables A := λ σ, match r with Ok a => Ok (a, σ) | Err e => Err e end.

(** The entry stubs and the address of the table. *)
Context (intr_stubs : Z → Z) (idt_addr : Z).

Definition exception_names : list (Z * string) :=
  [(0, "#DE Divide Error"); (1, "#DB Debug Exception"); (2, "NMI Interrupt"); (3, "#BP Breakpoint Exception");
   (4, "#OF Overflow Exception"); (5, "#BR BOUND Range Exceeded Exception"); (6, "#UD Invalid Opcode Exception");
   (7, "#NM Device Not Available Exception"); (8, "#DF Double Fault Exception"); (9, "Coprocessor Segment Overrun");
   (10, "#TS Invalid TSS Exception"); (11, "#NP Segment Not Present"); (12, "#SS Stack Fault Exception");
   (13, "#GP General Protection Exception"); (14, "#PF Page-Fault Exception"); (16, "#MF x87 FPU Floating-Point Error");
   (17, "#AC Alignment Check Exception"); (18, "#MC Machine-Check Exception"); (19, "#XF SIMD Floating-Point Exception")]%string.

Fixpoint set_names (ns : list (Z * string)) : M tables unit :=
  match ns with
  | [] => ret tt
  | (v, n) :: ns => set_name v n ;; set_names ns
  end.

Definition intr_init : M tables unit :=
  pic_init ;;
  for_upto INTR_CNT (λ i, g <- lift (make_intr_gate (intr_stubs i) 0) ;; set_gate i g) ;;
  lidt (make_idtr_operand (8 * INTR_CNT - 1) idt_addr) ;;
  for_upto INTR_CNT (λ i, set_name i "unknown") ;;
  set_names exception_names.

Definition register_handler (vec_no dpl : Z) (level : intr_level) (handler : H) (name : string) : M tables unit :=
  old <- (λ σ, match σ.(intr_handlers) !! Z.to_nat vec_no with Some h => Ok (h, σ) | None => Err Fault end) ;;
  assert (match old with None => true | Some _ => false end) ;;
  g <- lift (match level with INTR_ON => make_trap_gate (intr_stubs vec_no) dpl | INTR_OFF => make_intr_gate (intr_stubs vec_no) dpl end) ;;
  set_gate vec_no g ;;
  set_handler vec_no handler ;;
  set_name vec_no name.

Definition intr_register_ext (vec_no : Z) (handler : H) (name : string) : M tables unit :=
  assert ((32 <=? vec_no) && (vec_no <=? 47)) ;;
  register_handler vec_no 0 INTR_OFF handler name.

Definition intr_register_int (vec_no dpl : Z) (level : intr_level) (handler : H) (name : string) : M tables unit :=
  assert ((vec_no <? 32) || (47 <? vec_no)) ;;
  register_handler vec_no dpl level handler name.

Definition intr_name (vec : Z) : M tables string :=
  λ σ, match σ.(intr_names) !! Z.to_nat vec with Some n => Ok (n, σ) | None => Err Fault end.
End Tables.
Arguments tables : clear implicits.

(** ** What the kernel registers *)

Inductive handler := kill | page_fault | syscall_handler | timer_interrupt | keyboard_interrupt | serial_interrupt | disk_interrupt.
#[export] Instance handler_eq_dec : EqDecision handler.
Proof. solve_decision. Defined.

Section Boot.
Context (intr_stubs : Z → Z) (idt_addr : Z).
Local Open Scope string_scope.

Let int := intr_register_int (H := handler) intr_stubs.
Let ext := intr_register_ext (H := handler) intr_stubs.

Definition exception_init : M (tables handler) unit :=
  int 3 3 INTR_ON kill "#BP Breakpoint Exception" ;;
  int 4 3 INTR_ON kill "#OF Overflow Exception" ;;
  int 5 3 INTR_ON kill "#BR BOUND Range Exceeded Exception" ;;
  int 0 0 INTR_ON kill "#DE Divide Error" ;;
  int 1 0 INTR_ON kill "#DB Debug Exception" ;;
  int 6 0 INTR_ON kill "#UD Invalid Opcode Exception" ;;
  int 7 0 INTR_ON kill "#NM Device Not Available Exception" ;;
  int 11 0 INTR_ON kill "#NP Segment Not Present" ;;
  int 12 0 INTR_ON kill "#SS Stack Fault Exception" ;;
  int 13 0 INTR_ON kill "#GP General Protection Exception" ;;
  int 16 0 INTR_ON kill "#MF x87 FPU Floating-Point Error" ;;
  int 19 0 INTR_ON kill "#XF SIMD Floating-Point Exception" ;;
  int 14 0 INTR_OFF page_fault "#PF Page-Fault Exception".

Definition syscall_init : M (tables handler) unit := int 48 3 INTR_ON syscall_handler "syscall".

(** The registrations in timer_init, kbd_init, serial_init_queue and disk_init. *)
Definition timer_register : M (tables handler) unit := ext 32 timer_interrupt "8254 Timer".
Definition kbd_init : M (tables handler) unit := ext 33 keyboard_interrupt "8042 Keyboard".
Definition serial_register : M (tables handler) unit := ext (32 + 4) serial_interrupt "serial".
Definition disk_register : M (tables handler) unit :=
  ext (14 + 32) disk_interrupt "hd0" ;; ext (15 + 32) disk_interrupt "hd1".

(** The order of main. *)
Definition boot : M (tables handler) unit :=
  intr_init intr_stubs idt_addr ;;
  timer_register ;;
  kbd_init ;;
  exception_init ;;
  syscall_init ;;
  serial_register ;;
  disk_register.
End Boot.

(** ** The tables as a registry *)

Section Registry.
Context {H : Type} (intr_stubs : Z → Z).

Record entry := Entry { en_handler : H; en_dpl : Z; en_level : intr_level; en_name : string }.
Implicit Types (R : gmap Z entry) (σ : tables H).

Definition gate_for (v : Z) (e : option entry) : gate :=
  match e with
  | Some e => Gate (intr_stubs v) SEL_KCSEG (match e.(en_level) with INTR_ON => 15 | INTR_OFF => 14 end) e.(en_dpl) true
  | None => Gate (intr_stubs v) SEL_KCSEG 14 0 true
  end.

Record registry σ R : Prop := {
  rg_length : length σ.(idt) = 256%nat ∧ length σ.(intr_handlers) = 256%nat ∧ length σ.(intr_names) = 256%nat;
  rg_gate : ∀ v, 0 ≤ v < 256 → ∃ g, σ.(idt) !! Z.to_nat v = Some g ∧ is_u64 g ∧ read_gate g = gate_for v (R !! v);
  rg_handler : ∀ v, 0 ≤ v < 256 → σ.(intr_handlers) !! Z.to_nat v = Some (en_handler <$> R !! v);
  rg_name : ∀ v e, 0 ≤ v < 256 → R !! v = Some e → σ.(intr_names) !! Z.to_nat v = Some e.(en_name);
}.

Definition stubs_ok : Prop := ∀ v, 0 ≤ v < 256 → is_u32 (intr_stubs v) ∧ intr_stubs v ≠ NULL.
Context (HS : stubs_ok).

(** Registering a free vector. *)
Lemma register_run σ R v dpl level h n :
  registry σ R → 0 ≤ v < 256 → 0 ≤ dpl < 4 → R !! v = None →
  ∃ σ', register_handler intr_stubs v dpl level h n σ = Ok (tt, σ') ∧ registry σ' (<[v := Entry h dpl level n]> R) ∧ σ'.(pic) = σ.(pic).
Proof.
  intros [[L1 [L2 L3]] RG RH RN] Hv Hd HR. unfold register_handler.
  pose proof (RH v Hv) as Hh. rewrite HR in Hh. erewrite bind_Ok by (by rewrite Hh). rewrite bind_assert by done.
  destruct (HS v Hv) as [Hu Hz].
  set (ty := match level with INTR_ON => 15 | INTR_OFF => 14 end).
  destruct (make_gate_ok (intr_stubs v) dpl ty Hu Hz Hd ltac:(unfold ty; destruct level; lia)) as (g & Hg & Hg64 & Hrd).
  assert (lift (match level with INTR_ON => make_trap_gate (intr_stubs v) dpl | INTR_OFF => make_intr_gate (intr_stubs v) dpl end) σ = Ok (g, σ)) as Hl.
  { unfold lift, make_trap_gate, make_intr_gate. destruct level; cbn in ty; subst ty; by rewrite Hg. }
  rewrite (bind_Ok _ _ _ _ _ Hl). eexists. split; [reflexivity|]. split; [|done].
  split; cbn [idt intr_handlers intr_names]; [by rewrite !length_insert| | |].
  - intros u Hu'. destruct (decide (u = v)) as [->|Hne].
    + exists g. rewrite lookup_insert_eq, list_lookup_insert_eq by lia. split_and!; [done..|]. rewrite Hrd. by destruct level.
    + rewrite lookup_insert_ne, list_lookup_insert_ne by lia. by apply RG.
  - intros u Hu'. destruct (decide (u = v)) as [->|Hne].
    + by rewrite lookup_insert_eq, list_lookup_insert_eq by lia.
    + rewrite lookup_insert_ne, list_lookup_insert_ne by lia. by apply RH.
  - intros u e Hu'. destruct (decide (u = v)) as [->|Hne].
    + rewrite lookup_insert_eq, list_lookup_insert_eq by lia. by intros [= <-].
    + rewrite lookup_insert_ne, list_lookup_insert_ne by lia. by apply RN.
Qed.

Lemma register_ext_run σ R v h n : registry σ R → 32 ≤ v ≤ 47 → R !! v = None →
  ∃ σ', intr_register_ext intr_stubs v h n σ = Ok (tt, σ') ∧ registry σ' (<[v := Entry h 0 INTR_OFF n]> R) ∧ σ'.(pic) = σ.(pic).
Proof.
  intros HR Hv Hn. unfold intr_register_ext. rewrite bind_assert by (apply andb_true_intro; split; lia). apply register_run; [done|lia|lia|done].
Qed.

Lemma register_int_run σ R v dpl level h n : registry σ R → 0 ≤ v < 256 → ¬ (32 ≤ v ≤ 47) → 0 ≤ dpl < 4 → R !! v = None →
  ∃ σ', intr_register_int intr_stubs v dpl level h n σ = Ok (tt, σ') ∧ registry σ' (<[v := Entry h dpl level n]> R) ∧ σ'.(pic) = σ.(pic).
Proof.
  intros HR Hv Hx Hd Hn. unfold intr_register_int. rewrite bind_assert by (apply orb_true_intro; zcase; [by left|right; lia]). by apply register_run.
Qed.
End Registry.
Arguments entry : clear implicits.

Definition set_up : pics := Pics (Chip 32 0 0 17 4 1 0) (Chip 40 0 0 17 2 1 0).

Lemma pic_init_run {H} (σ : tables H) : pic_init σ = Ok (tt, upd_pic (λ _, set_up) σ).
Proof. reflexivity. Qed.

(** The tables before anything is registered: they are in the BSS. *)
Definition blank_tables {H} (σ : tables H) : Prop :=
  length σ.(idt) = 256%nat ∧ σ.(intr_handlers) = replicate 256 None ∧ length σ.(intr_names) = 256%nat.

Section InitRun.
Context {H : Type} (intr_stubs : Z → Z) (HS : stubs_ok intr_stubs).
Implicit Types (σ : tables H).

Lemma init_gates_run σ : length σ.(idt) = 256%nat →
  ∃ σ', for_upto INTR_CNT (λ i, g <- lift (make_intr_gate (intr_stubs i) 0) ;; set_gate i g) σ = Ok (tt, σ') ∧
    length σ'.(idt) = 256%nat ∧ σ'.(intr_handlers) = σ.(intr_handlers) ∧ σ'.(intr_names) = σ.(intr_names) ∧ σ'.(pic) = σ.(pic) ∧
    ∀ v, 0 ≤ v < 256 → ∃ g, σ'.(idt) !! Z.to_nat v = Some g ∧ is_u64 g ∧ read_gate g = Gate (intr_stubs v) SEL_KCSEG 14 0 true.
Proof.
  intros HL. apply (for_upto_ind (λ i s, length s.(idt) = 256%nat ∧ s.(intr_handlers) = σ.(intr_handlers) ∧ s.(intr_names) = σ.(intr_names) ∧ s.(pic) = σ.(pic) ∧
    ∀ v, 0 ≤ v < i → ∃ g, s.(idt) !! Z.to_nat v = Some g ∧ is_u64 g ∧ read_gate g = Gate (intr_stubs v) SEL_KCSEG 14 0 true)); [done| |].
  - split_and!; [done..|]. intros; lia.
  - intros i s Hi (L & E1 & E2 & E3 & G). change INTR_CNT with 256 in Hi. destruct (HS i Hi) as [Hu Hz].
    destruct (make_gate_ok (intr_stubs i) 0 14 Hu Hz ltac:(lia) ltac:(lia)) as (g & Hg & Hg64 & Hrd).
    rewrite (bind_Ok _ _ _ g s) by (unfold lift, make_intr_gate; by rewrite Hg). eexists. split; [reflexivity|]. cbn. rewrite length_insert.
    split_and!; [done..|]. intros v Hv. destruct (decide (v = i)) as [->|].
    + exists g. by rewrite list_lookup_insert_eq by lia.
    + rewrite list_lookup_insert_ne by lia. apply G. lia.
Qed.

(** The names do not matter to the processor. *)
Definition same_but_names (σ σ' : tables H) : Prop :=
  σ'.(idt) = σ.(idt) ∧ σ'.(intr_handlers) = σ.(intr_handlers) ∧ σ'.(pic) = σ.(pic) ∧ length σ'.(intr_names) = length σ.(intr_names).

Lemma init_names_run σ : ∃ σ', for_upto INTR_CNT (λ i, set_name i "unknown"%string) σ = Ok (tt, σ') ∧ same_but_names σ σ'.
Proof.
  apply (for_upto_ind (λ _ s, same_but_names σ s)); [done|done|]. intros i s _ (E1 & E2 & E3 & E4). eexists. split; [reflexivity|].
  unfold same_but_names. cbn. by rewrite length_insert.
Qed.

Lemma set_names_run ns : ∀ σ, ∃ σ', set_names ns σ = Ok (tt, σ') ∧ same_but_names σ σ'.
Proof.
  induction ns as [|[v n] ns IH]; intros σ; [by exists σ|].
  destruct (IH (Tables σ.(idt) σ.(intr_handlers) (<[Z.to_nat v := n]> σ.(intr_names)) σ.(idtr) σ.(pic))) as (σ' & Hr & E1 & E2 & E3 & E4).
  exists σ'. split; [exact Hr|]. unfold same_but_names. rewrite E1, E2, E3, E4. cbn. by rewrite length_insert.
Qed.

Lemma intr_init_run σ addr : blank_tables σ →
  ∃ σ', intr_init intr_stubs addr σ = Ok (tt, σ') ∧ registry intr_stubs σ' ∅ ∧ σ'.(pic) = set_up.
Proof.
  intros (L1 & L2 & L3). unfold intr_init. rewrite (bind_Ok _ _ _ _ _ (pic_init_run σ)).
  destruct (init_gates_run (upd_pic (λ _, set_up) σ) L1) as (σ1 & Hr1 & G1 & G2 & G3 & G4 & G5). rewrite (bind_Ok _ _ _ _ _ Hr1).
  set (op := make_idtr_operand _ _). rewrite (bind_Ok (lidt op) _ σ1 tt (Tables σ1.(idt) σ1.(intr_handlers) σ1.(intr_names) op σ1.(pic))) by done.
  set (σ2 := Tables _ _ _ op _). destruct (init_names_run σ2) as (σ3 & Hr3 & N1 & N2 & N3 & N4). rewrite (bind_Ok _ _ _ _ _ Hr3).
  destruct (set_names_run exception_names σ3) as (σ4 & Hr4 & M1 & M2 & M3 & M4). exists σ4. split; [exact Hr4|].
  split; [|by rewrite M3, N3]. split.
  - rewrite M1, N1, M2, N2, M4, N4. cbn. rewrite G2, G3. cbn. by rewrite L2.
  - intros v Hv. rewrite lookup_empty, M1, N1. by apply G5.
  - intros v Hv. rewrite lookup_empty, M2, N2. cbn. rewrite G2. cbn. rewrite L2. apply lookup_replicate_2. lia.
  - intros v e Hv. by rewrite lookup_empty.
Qed.
End InitRun.

(** What main has registered when it has started the devices. *)
Definition boot_registry : gmap Z (entry handler) :=
  let x n := Entry kill 0 INTR_ON n in let u n := Entry kill 3 INTR_ON n in let d h n := Entry h 0 INTR_OFF n in
  list_to_map
    [(0, x "#DE Divide Error"); (1, x "#DB Debug Exception"); (3, u "#BP Breakpoint Exception"); (4, u "#OF Overflow Exception");
     (5, u "#BR BOUND Range Exceeded Exception"); (6, x "#UD Invalid Opcode Exception"); (7, x "#NM Device Not Available Exception");
     (11, x "#NP Segment Not Present"); (12, x "#SS Stack Fault Exception"); (13, x "#GP General Protection Exception");
     (14, d page_fault "#PF Page-Fault Exception"); (16, x "#MF x87 FPU Floating-Point Error"); (19, x "#XF SIMD Floating-Point Exception");
     (32, d timer_interrupt "8254 Timer"); (33, d keyboard_interrupt "8042 Keyboard"); (36, d serial_interrupt "serial");
     (46, d disk_interrupt "hd0"); (47, d disk_interrupt "hd1"); (48, Entry syscall_handler 3 INTR_ON "syscall")]%string.

(** A computation that only registers handlers. *)
Definition registers {H} (stubs : Z → Z) (c : M (tables H) unit) (R R' : gmap Z (entry H)) : Prop :=
  ∀ σ, registry stubs σ R → ∃ σ', c σ = Ok (tt, σ') ∧ registry stubs σ' R' ∧ σ'.(pic) = σ.(pic).

Lemma registers_seq {H} stubs (c d : M (tables H) unit) R R1 R2 :
  registers stubs c R R1 → registers stubs d R1 R2 → registers stubs (c ;; d) R R2.
Proof.
  intros Hc Hd σ HR. destruct (Hc σ HR) as (σ1 & H1 & HR1 & P1). destruct (Hd σ1 HR1) as (σ2 & H2 & HR2 & P2).
  exists σ2. rewrite (bind_Ok _ _ _ _ _ H1). split_and!; [done..|congruence].
Qed.

Section BootRun.
Context (intr_stubs : Z → Z) (HS : stubs_ok intr_stubs).

Lemma registers_int v dpl level h n R : 0 ≤ v < 256 → ¬ (32 ≤ v ≤ 47) → 0 ≤ dpl < 4 → R !! v = None →
  registers intr_stubs (intr_register_int (H := handler) intr_stubs v dpl level h n) R (<[v := Entry h dpl level n]> R).
Proof. intros Hv Hx Hd Hn σ HR. by apply register_int_run. Qed.

Lemma registers_ext v h n R : 32 ≤ v ≤ 47 → R !! v = None →
  registers intr_stubs (intr_register_ext (H := handler) intr_stubs v h n) R (<[v := Entry h 0 INTR_OFF n]> R).
Proof. intros Hv Hn σ HR. by apply register_ext_run. Qed.

Ltac one_registration :=
  first [apply registers_int; [lia|lia|lia|vm_compute; reflexivity] | apply registers_ext; [lia|vm_compute; reflexivity]].

Lemma boot_registers :
  registers intr_stubs (timer_register intr_stubs ;; kbd_init intr_stubs ;; exception_init intr_stubs ;; syscall_init intr_stubs ;;
    serial_register intr_stubs ;; disk_register intr_stubs) ∅ boot_registry.
Proof.
  assert (∀ (c : M (tables handler) unit) R R', registers intr_stubs c ∅ R → R = R' → registers intr_stubs c ∅ R') as Heq by (by intros c R R' Hc <-).
  eapply Heq.
  - unfold timer_register, kbd_init, exception_init, syscall_init, serial_register, disk_register.
    repeat (eapply registers_seq; [repeat (eapply registers_seq; [one_registration|]); one_registration|]). one_registration.
  - vm_compute. reflexivity.
Qed.
End BootRun.

(** The interrupts that a user program may raise with the INT instruction. *)
Definition user_vectors : list Z := [3; 4; 5; 48].

Lemma boot_classes v : 0 ≤ v < 256 →
  (3 ≤ default 0 (en_dpl <$> boot_registry !! v) ↔ v ∈ user_vectors) ∧
  (default INTR_OFF (en_level <$> boot_registry !! v) = INTR_ON ↔ default page_fault (en_handler <$> boot_registry !! v) ∈ [kill; syscall_handler]).
Proof.
  intros Hv. assert (Forall (λ v, (3 ≤ default 0 (en_dpl <$> boot_registry !! v) ↔ v ∈ user_vectors) ∧
    (default INTR_OFF (en_level <$> boot_registry !! v) = INTR_ON ↔ default page_fault (en_handler <$> boot_registry !! v) ∈ [kill; syscall_handler]))
    (seqZ 0 256)) as HF by by_decide.
  rewrite Forall_forall in HF. apply HF. apply elem_of_seqZ. lia.
Qed.

(** Property C20.  After the start of the kernel every vector of the interrupt descriptor
    table has a well-formed gate into the kernel code segment, at the stub of the vector.
    A user program can raise exactly breakpoint, overflow, bound and system call
    interrupts itself; the interrupts of devices and page faults run with interrupts off,
    every other registered one with interrupts on; and the handlers are the ones
    registered.  No registration meets a vector that is taken. *)
Theorem boot_gates intr_stubs addr σ : stubs_ok intr_stubs → blank_tables σ →
  ∃ σ', boot intr_stubs addr σ = Ok (tt, σ') ∧ length σ'.(idt) = 256%nat ∧
    ∀ v, 0 ≤ v < 256 → ∃ g, σ'.(idt) !! Z.to_nat v = Some g ∧ is_u64 g ∧
      let G := read_gate g in
      G.(g_offset) = intr_stubs v ∧ G.(g_selector) = SEL_KCSEG ∧ G.(g_present) = true ∧
      (3 ≤ G.(g_dpl) ↔ v ∈ user_vectors) ∧
      (G.(g_type) = 15 ↔ ∃ e, boot_registry !! v = Some e ∧ e.(en_handler) ∈ [kill; syscall_handler]) ∧
      (G.(g_type) = 14 ∨ G.(g_type) = 15) ∧
      σ'.(intr_handlers) !! Z.to_nat v = Some (en_handler <$> boot_registry !! v).
Proof.
  intros HS HB. destruct (intr_init_run intr_stubs HS σ addr HB) as (σ1 & Hr1 & R1 & _).
  destruct (boot_registers intr_stubs HS σ1 R1) as (σ2 & Hr2 & R2 & _). destruct R2 as [[L _] G Hh _].
  exists σ2. split; [unfold boot; rewrite (bind_Ok _ _ _ _ _ Hr1); exact Hr2|]. split; [done|].
  intros v Hv. destruct (G v Hv) as (g & Hg & H64 & Hrd). exists g. rewrite (Hh v Hv), Hrd.
  destruct (boot_classes v Hv) as [C1 C2]. clear Hr1 Hr2 R1 G Hh HB Hrd. split; [done|]. split; [done|].
  destruct (boot_registry !! v) as [e|]; cbn in *; split_and!; try done.
  - split; [destruct (en_level e); [done|]; intros _; exists e; split; [done|by apply C2]|].
    intros (e' & [= <-] & He). by rewrite (proj2 C2 He).
  - destruct (en_level e); auto.
  - split; [done|by intros (? & ? & _)].
  - by left.
Qed.

Definition blank_tables_example : tables handler := Tables (replicate 256 0) (replicate 256 None) (replicate 256 EmptyString) 0 (Pics (Chip 0 0 0 0 0 0 0) (Chip 8 0 0 0 0 0 3)).

Lemma boot_gates_witness :
  stubs_ok (λ v, 3222274048 + 16 * v) ∧ blank_tables blank_tables_example ∧
  ∃ σ', boot (λ v, 3222274048 + 16 * v) 3222300000 blank_tables_example = Ok (tt, σ') ∧ length σ'.(idt) = 256%nat.
Proof.
  assert (stubs_ok (λ v, 3222274048 + 16 * v)) as HS by (intros v Hv; split; mlia).
  assert (blank_tables blank_tables_example) as HB by (split_and!; reflexivity).
  split; [exact HS|]. split; [exact HB|].
  destruct (boot_gates (λ v, 3222274048 + 16 * v) 3222300000 blank_tables_example HS HB) as (σ' & Hr & Hl & _). exists σ'. split; [exact Hr|exact Hl].
Defined.

(** The interrupt controllers, whatever they did before, send the interrupt
    of line [irq] to vector 0x20 + irq once pic_init has run, and pic_end_of_interrupt
    for that vector ends its service in every controller that has it in service, so that
    the line can interrupt again.  Line 2 joins the two controllers and has no device. *)
Theorem pic_lines {H} (σ : tables H) : ∃ σ', pic_init σ = Ok (tt, σ') ∧ σ'.(idt) = σ.(idt) ∧
  ∀ irq, 0 ≤ irq < 16 → irq ≠ 2 →
    ∃ p, raise irq σ'.(pic) = Some (32 + irq, p) ∧ raise irq p = None ∧
      pic_end_of_interrupt (32 + irq) (upd_pic (λ _, p) σ') = Ok (tt, σ').
Proof.
  rewrite pic_init_run. eexists. split; [reflexivity|]. split; [done|]. intros irq Hirq H2.
  change (pic _) with set_up. destruct σ as [t h n r p0].
  assert (irq ∈ seqZ 0 16) as Hin by (apply elem_of_seqZ; lia). change (seqZ 0 16) with [0;1;2;3;4;5;6;7;8;9;10;11;12;13;14;15] in Hin.
  rewrite !elem_of_cons, elem_of_nil in Hin. decompose [or] Hin; try done; subst irq; first [done | eexists; split_and!; reflexivity].
Qed.
