(* ===== verification/Segments.v ===== *)
(** * Segments and the task state

    userprog/tss.c and gdt_init of userprog/gdt.c: the task state segment in its page, and
    the table of the segments of the kernel and of user programs. *)

From S2P Require Import Prelude Vaddr Bytes Bitmap Str Palloc Filesys Vm VmPagedir VmSpace VmLife VmSwap ProcLoad Paging Gates.
Local Open Scope Z_scope.
Local Open Scope c_scope.

Record segs := Segs { mach : vm; tss : Z; gdt : list Z; gdtr : Z; tr : Z }.

Definition on_vm {A} (c : M vm A) : M segs A := λ σ,
  match c σ.(mach) with
  | Ok (a, v) => Ok (a, Segs v σ.(tss) σ.(gdt) σ.(gdtr) σ.(tr))
  | Err e => Err e
  end.

Definition set_tss (p : Z) : M segs unit := λ σ, Ok (tt, Segs σ.(mach) p σ.(gdt) σ.(gdtr) σ.(tr)).
Definition set_gdt (sel d : Z) : M segs unit := λ σ,
  Ok (tt, Segs σ.(mach) σ.(tss) (<[Z.to_nat (sel `div` 8) := d]> σ.(gdt)) σ.(gdtr) σ.(tr)).
Definition lgdt (op : Z) : M segs unit := λ σ, Ok (tt, Segs σ.(mach) σ.(tss) σ.(gdt) op σ.(tr)).
Definition ltr (sel : Z) : M segs unit := λ σ, Ok (tt, Segs σ.(mach) σ.(tss) σ.(gdt) σ.(gdtr) sel).

(** Offsets of the fields of struct tss. *)
Definition TSS_ESP0 : Z := 4.
Definition TSS_SS0 : Z := 8.
Definition TSS_BITMAP : Z := 102.

Definition store_half (a v : Z) : M vm unit := on_phys (on_ram (stb a (v `mod` 256) ;; stb (a + 1) (v `div` 256))).

(** [cur] is thread_current (). *)
Definition tss_update (cur : Z) : M segs unit :=
  p <- (λ σ, Ok (σ.(tss), σ)) ;;
  assert (negb (p =? NULL)) ;;
  on_vm (store_word (p + TSS_ESP0) (u32 (cur + PGSIZE))).

Definition tss_init (cur : Z) : M segs unit :=
  p <- on_vm (on_phys (palloc_get_page (Z.lor PAL_ASSERT PAL_ZERO))) ;;
  set_tss p ;;
  on_vm (store_half (p + TSS_SS0) SEL_KDSEG) ;;
  on_vm (store_half (p + TSS_BITMAP) 57343) ;;
  tss_update cur.

Definition tss_get : M segs Z :=
  p <- (λ σ, Ok (σ.(tss), σ)) ;;
  assert (negb (p =? NULL)) ;;
  ret p.

Definition pure_ {A} (r : res A) : M segs A := λ σ, match r with Ok a => Ok (a, σ) | Err e => Err e end.

(** [addr] is the address of the table. *)
Definition gdt_init (addr : Z) : M segs unit :=
  set_gdt SEL_NULL 0 ;;
  d <- pure_ (make_code_desc 0) ;; set_gdt SEL_KCSEG d ;;
  d <- pure_ (make_data_desc 0) ;; set_gdt SEL_KDSEG d ;;
  d <- pure_ (make_code_desc 3) ;; set_gdt SEL_UCSEG d ;;
  d <- pure_ (make_data_desc 3) ;; set_gdt SEL_UDSEG d ;;
  t <- tss_get ;; d <- pure_ (make_tss_desc t) ;; set_gdt SEL_TSS d ;;
  lgdt (make_gdtr_operand (8 * SEL_CNT - 1) addr) ;;
  ltr SEL_TSS.

Lemma on_vm_run {A} (c : M vm A) σ a v : c σ.(mach) = Ok (a, v) → on_vm c σ = Ok (a, Segs v σ.(tss) σ.(gdt) σ.(gdtr) σ.(tr)).
Proof. unfold on_vm. by intros ->. Qed.

(** ** Memory of the task state *)

Definition half (m : mem) (a : Z) : Z := at_ m a + 256 * at_ m (a + 1).

Lemma store_half_run σ a v : mapped σ.(phys).(ram) a 2 → 0 ≤ v < 65536 →
  store_half a v σ = Ok (tt, set_mem (store σ.(phys).(ram) a [v `mod` 256; v `div` 256]) σ).
Proof.
  intros Hm Hv. unfold store_half, on_phys.
  assert ((stb a (v `mod` 256) ;; stb (a + 1) (v `div` 256)) σ.(phys).(ram) = Ok (tt, store σ.(phys).(ram) a [v `mod` 256; v `div` 256])) as Hr.
  { assert (is_u8 (v `mod` 256)) as H0 by dm_lia. assert (is_u8 (v `div` 256)) as H1 by dm_lia.
    rewrite (bind_Ok _ _ _ _ _ (stb_run _ a _ (Hm a ltac:(lia)) H0)). set (m1 := <[a := _]> _).
    assert (mapped m1 a 2) as Hm1 by by apply mapped_insert. by rewrite (stb_run m1 (a + 1) _ (Hm1 (a + 1) ltac:(lia)) H1). }
  by rewrite (on_ram_ok _ _ _ _ Hr).
Qed.

Lemma half_store_eq m a v : 0 ≤ v < 65536 → half (store m a [v `mod` 256; v `div` 256]) a = v.
Proof.
  intros Hv. unfold half. rewrite !at_store. cbn [length]. repeat (zcase; try lia); cbn [andb].
  replace (Z.to_nat (a - a)) with 0%nat by lia. replace (Z.to_nat (a + 1 - a)) with 1%nat by lia. cbn. dm_lia.
Qed.

Lemma half_store_out m a bs b : a + zlen bs ≤ b ∨ b + 2 ≤ a → half (store m a bs) b = half m b.
Proof. intros H. unfold half. rewrite !at_store. repeat (zcase; try lia); done. Qed.

Lemma half_zero m a zs b : Forall (eq 0) zs → a ≤ b → b + 2 ≤ a + zlen zs → half (store m a zs) b = 0.
Proof.
  intros Hz Ha Hb. unfold half. rewrite !at_store. repeat (zcase; try lia); cbn [andb].
  assert (∀ k, default 0 (zs !! k) = 0) as E; [|by rewrite !E].
  intros k. destruct (zs !! k) as [v|] eqn:E; [|done]. cbn. symmetry. by eapply (proj1 (Forall_lookup _ _) Hz).
Qed.

(** ** The task state and the segments *)

(** The task state at [t] sends interrupts from user mode to the stack that ends at
    [esp0]; its I/O bitmap lies outside the segment. *)
Record task_state (m : mem) (t esp0 : Z) : Prop := {
  ts_esp0 : word m (t + TSS_ESP0) = esp0;
  ts_ss0 : half m (t + TSS_SS0) = SEL_KDSEG;
  ts_bitmap : half m (t + TSS_BITMAP) = 57343;
}.

Lemma tss_update_run σ t cur e : σ.(tss) = t → t ≠ NULL → is_u32 (cur + 4096) → mapped σ.(mach).(phys).(ram) t 4096 →
  task_state σ.(mach).(phys).(ram) t e →
  ∃ m, tss_update cur σ = Ok (tt, Segs (set_mem m σ.(mach)) t σ.(gdt) σ.(gdtr) σ.(tr)) ∧ task_state m t (cur + 4096) ∧
    ∃ bs, zlen bs = 4 ∧ Forall is_u8 bs ∧ m = store σ.(mach).(phys).(ram) (t + TSS_ESP0) bs.
Proof.
  intros Et Ht Hc Hm [T1 T2 T3]. unfold tss_update. rewrite (bind_Ok _ _ σ t σ) by (by rewrite Et).
  rewrite bind_assert by (by rewrite (proj2 (Z.eqb_neq _ _) Ht)). unfold TSS_ESP0, TSS_SS0, TSS_BITMAP, PGSIZE in *. rewrite u32_small by done.
  assert (mapped σ.(mach).(phys).(ram) (t + 4) 4) as Hm4 by (intros a Ha; apply Hm; lia).
  set (m := store σ.(mach).(phys).(ram) (t + 4) (le32 (cur + 4096))). exists m. split_and!.
  - unfold on_vm. rewrite (store_word_run σ.(mach) (t + 4) (cur + 4096) Hm4). by rewrite Et.
  - split; unfold TSS_ESP0, TSS_SS0, TSS_BITMAP, m; [by apply word_store_eq|..].
    + rewrite half_store_out by (change (zlen (le32 _)) with 4; lia). done.
    + rewrite half_store_out by (change (zlen (le32 _)) with 4; lia). done.
  - exists (le32 (cur + 4096)). split_and!; [done|apply le32_bytes|done].
Qed.

Lemma tss_init_run σ B cur : allocator σ.(mach).(phys) B → (0 < free_pages σ.(mach).(phys).(kernel_pool))%nat → is_u32 (cur + 4096) →
  ∃ t v, tss_init cur σ = Ok (tt, Segs v t σ.(gdt) σ.(gdtr) σ.(tr)) ∧ kernel_page t ∧ v = upd_phys (λ _, v.(phys)) σ.(mach) ∧
    allocator v.(phys) (set_live false (<[t := 1]> (B false)) B) ∧ apart (B false) t 1 ∧ task_state v.(phys).(ram) t (cur + 4096).
Proof.
  intros Ha Hf Hc. destruct (get_kernel_page σ.(mach).(phys) B Ha Hf) as (t & p & Hr & Ha' & _ & Hap & _ & zs & Hz1 & Hz2 & Em).
  set (B' := set_live false (<[t := 1]> (B false)) B) in *. assert (B' false !! t = Some 1) as Ht by apply lookup_insert_eq.
  destruct (page_block _ _ _ _ Ha' Ht) as (Hk & Hm & _). pose proof Hk as (Hk1 & Hk2 & Hk3).
  unfold tss_init. set (v1 := upd_phys (λ _, p) σ.(mach)).
  rewrite (bind_Ok _ _ σ t (Segs v1 σ.(tss) σ.(gdt) σ.(gdtr) σ.(tr))) by (unfold on_vm; by rewrite (on_phys_run _ σ.(mach) _ _ Hr)).
  rewrite (bind_Ok _ _ _ tt (Segs v1 t σ.(gdt) σ.(gdtr) σ.(tr))) by done.
  assert (mapped p.(ram) (t + TSS_SS0) 2 ∧ ∀ m, mapped (store p.(ram) (t + TSS_SS0) m) (t + TSS_BITMAP) 2) as [M1 M2].
  { unfold TSS_SS0, TSS_BITMAP. split; [|intros m; apply mapped_store]; intros a Hra; apply Hm; lia. }
  set (b1 := [SEL_KDSEG `mod` 256; SEL_KDSEG `div` 256]). set (b2 := [57343 `mod` 256; 57343 `div` 256]).
  set (v2 := set_mem (store p.(ram) (t + TSS_SS0) b1) v1).
  rewrite (bind_Ok _ _ _ tt (Segs v2 t σ.(gdt) σ.(gdtr) σ.(tr))) by (apply (on_vm_run _ (Segs v1 t _ _ _)); by apply (store_half_run v1)).
  set (m3 := store (store p.(ram) (t + TSS_SS0) b1) (t + TSS_BITMAP) b2). set (v3 := set_mem m3 v2).
  rewrite (bind_Ok _ _ _ tt (Segs v3 t σ.(gdt) σ.(gdtr) σ.(tr))) by (apply (on_vm_run _ (Segs v2 t _ _ _)); by apply (store_half_run v2 (t + TSS_BITMAP) 57343 (M2 b1))).
  assert (task_state m3 t 0) as TS.
  { split; unfold m3, TSS_ESP0, TSS_SS0, TSS_BITMAP.
    - rewrite !word_store_out by (cbn [length b1 b2]; lia). rewrite Em. by apply word_zero; [|lia|lia].
    - rewrite half_store_out by (cbn [length b2]; lia). by apply half_store_eq.
    - by apply half_store_eq. }
  destruct (tss_update_run (Segs v3 t σ.(gdt) σ.(gdtr) σ.(tr)) t cur 0) as (m4 & H4 & TS4 & bs & _ & _ & E4); [done|..|done|].
  { unfold PHYS_BASE, LOADER_PHYS_BASE in Hk2. mlia. }
  { done. }
  { change (mapped m3 t 4096). do 2 apply mapped_store. intros a Hra. apply Hm. lia. }
  exists t, (set_mem m4 v3). split_and!; [exact H4|done|done| |done|done].
  change (allocator (set_ram m4 (set_ram m3 (set_ram (store p.(ram) (t + TSS_SS0) b1) p))) B'). rewrite E4.
  apply allocator_store. unfold m3. apply (allocator_store (set_ram (store p.(ram) (t + TSS_SS0) b1) p)). by apply allocator_store.
Qed.

Definition segment_of (g : list Z) (sel : Z) : option segment := read_segment <$> g !! Z.to_nat (sel `div` 8).

(** All addresses, for privilege level [dpl]. *)
Definition flat (type dpl : Z) : segment := Segment 0 1048575 type CLS_CODE_DATA dpl true true GRAN_PAGE.

Lemma gdt_init_run σ t addr : σ.(tss) = t → t ≠ NULL → is_u32 t → length σ.(gdt) = 6%nat →
  ∃ g, gdt_init addr σ = Ok (tt, Segs σ.(mach) t g (make_gdtr_operand 47 addr) SEL_TSS) ∧
    length g = 6%nat ∧ g !! 0%nat = Some 0 ∧
    segment_of g SEL_KCSEG = Some (flat 10 0) ∧ segment_of g SEL_KDSEG = Some (flat 2 0) ∧
    segment_of g SEL_UCSEG = Some (flat 10 3) ∧ segment_of g SEL_UDSEG = Some (flat 2 3) ∧
    segment_of g SEL_TSS = Some (Segment t 103 9 CLS_SYSTEM 0 true true GRAN_BYTE).
Proof.
  intros Et Hn Ht HL. destruct (make_seg_desc_ok t 103 CLS_SYSTEM 9 0 GRAN_BYTE Ht) as (d & Hd & _ & Hrd); [done..|].
  destruct σ as [v t0 g gr tr0]. cbn in Et, HL. subst t0. destruct g as [|g0 [|g1 [|g2 [|g3 [|g4 [|g5 [|]]]]]]]; try done.
  assert (make_code_desc 0 = Ok 58434644969848831 ∧ make_data_desc 0 = Ok 58425848876826623 ∧
    make_code_desc 3 = Ok 58540198086115327 ∧ make_data_desc 3 = Ok 58531401993093119) as (E1 & E2 & E3 & E4) by (split_and!; reflexivity).
  unfold gdt_init, tss_get, bind, pure_. rewrite E1, E2, E3, E4. cbn [set_gdt mach tss gdt gdtr tr]. rewrite (proj2 (Z.eqb_neq t NULL) Hn).
  unfold assert, ret. cbn [negb]. unfold make_tss_desc. rewrite Hd. eexists. split; [reflexivity|]. split; [done|]. split; [done|].
  split_and!; [vm_compute; reflexivity..|]. change (segment_of _ _) with (Some (read_segment d)). by rewrite Hrd.
Qed.

(** Property C21.  tss_init and gdt_init set up the segments of the machine: flat code and
    data segments for the kernel at privilege level 0 and for user programs at level 3,
    and the task state segment, which only the kernel can use.  The task state lies in a
    page of its own, interrupts from user mode switch to the end of the page of the
    running thread with the kernel data segment, and its I/O bitmap lies behind its limit,
    so that user programs have no I/O ports.  tss_update for another thread moves that
    stack and changes nothing else. *)
Theorem segments_ok σ B cur addr : allocator σ.(mach).(phys) B → (0 < free_pages σ.(mach).(phys).(kernel_pool))%nat →
  is_u32 (cur + 4096) → length σ.(gdt) = 6%nat →
  ∃ t σ', (tss_init cur ;; gdt_init addr) σ = Ok (tt, σ') ∧ σ'.(tss) = t ∧ kernel_page t ∧ apart (B false) t 1 ∧
    allocator σ'.(mach).(phys) (set_live false (<[t := 1]> (B false)) B) ∧
    task_state σ'.(mach).(phys).(ram) t (cur + 4096) ∧ σ'.(tr) = SEL_TSS ∧
    segment_of σ'.(gdt) SEL_KCSEG = Some (flat 10 0) ∧ segment_of σ'.(gdt) SEL_KDSEG = Some (flat 2 0) ∧
    segment_of σ'.(gdt) SEL_UCSEG = Some (flat 10 3) ∧ segment_of σ'.(gdt) SEL_UDSEG = Some (flat 2 3) ∧
    segment_of σ'.(gdt) SEL_TSS = Some (Segment t 103 9 CLS_SYSTEM 0 true true GRAN_BYTE) ∧
    ∀ cur', is_u32 (cur' + 4096) → ∃ m, tss_update cur' σ' = Ok (tt, Segs (set_mem m σ'.(mach)) t σ'.(gdt) σ'.(gdtr) σ'.(tr)) ∧
      task_state m t (cur' + 4096) ∧ ∀ a, ¬ (t + 4 ≤ a < t + 8) → m !! a = σ'.(mach).(phys).(ram) !! a.
Proof.
  intros Ha Hf Hc HL. destruct (tss_init_run σ B cur Ha Hf Hc) as (t & v & Hr & Hk & Ev & Ha' & Hap & TS).
  assert (t ≠ NULL) as Hn by (destruct Hk as (_ & ? & _); unfold PHYS_BASE, LOADER_PHYS_BASE in *; mlia).
  destruct (gdt_init_run (Segs v t σ.(gdt) σ.(gdtr) σ.(tr)) t addr eq_refl Hn (proj1 Hk) HL) as (g & Hg & _ & _ & G1 & G2 & G3 & G4 & G5).
  set (σ' := Segs v t g (make_gdtr_operand 47 addr) SEL_TSS). exists t, σ'. split_and!; [by rewrite (bind_Ok _ _ _ _ _ Hr)|done..|].
  intros cur' Hc'. assert (mapped v.(phys).(ram) t 4096) as Hm.
  { destruct (page_block v.(phys) _ false t Ha') as (_ & Hm & _); [apply lookup_insert_eq|done]. }
  destruct (tss_update_run σ' t cur' (cur + 4096) eq_refl Hn Hc' Hm TS) as (m & Hu & TS' & bs & Hb & _ & Em).
  exists m. split_and!; [exact Hu|done|]. intros a Hra. rewrite Em, store_lookup. unfold TSS_ESP0. by repeat (zcase; try lia).
Qed.

Lemma segments_ok_witness :
  allocator small_pages (λ _, ∅) ∧
  ∃ t σ', (tss_init 3222282240 ;; gdt_init 3222290000) (Segs (new_machine 8) 0 (replicate 6 0) 0 0) = Ok (tt, σ') ∧
    task_state σ'.(mach).(phys).(ram) t (3222282240 + 4096).
Proof.
  split; [exact small_pages_ok|].
  destruct (segments_ok (Segs (new_machine 8) 0 (replicate 6 0) 0 0) (λ _, ∅) 3222282240 3222290000 small_pages_ok) as (t & σ' & Hr & _ & _ & _ & _ & TS & _).
  - by_decide.
  - mlia.
  - reflexivity.
  - exists t, σ'. split; [exact Hr|exact TS].
Defined.
