(* ===== verification/Asm.v ===== *)
(** * Context switches and interrupt entry

    The assembly code of threads/switch.S and threads/intr-stubs.S, the first stack of a
    thread that thread_create builds, and the system call stubs of lib/user/syscall.c, as
    programs of a small x86 machine: registers, a memory of 32-bit words and the
    instructions that the code uses.  A call of a C function is an argument. *)

From S2P Require Import Prelude Vaddr Gates.
Local Open Scope Z_scope.

(** ** The machine *)

Inductive reg := eax | ebx | ecx | edx | esi | edi | ebp | esp.
Inductive sreg := ds | es | fs | gs | cs | ss.
#[export] Instance reg_eq_dec : EqDecision reg.
Proof. solve_decision. Defined.
#[export] Instance sreg_eq_dec : EqDecision sreg.
Proof. solve_decision. Defined.

Definition words : Type := Z → Z.
Definition upd (m : words) (a v : Z) : words := λ b, if b =? a then v else m b.

Record state := State { regs : reg → Z; sregs : sreg → Z; eip : Z; eflags : Z; memory : words }.

Definition set_reg (r : reg) (v : Z) (s : state) : state :=
  State (λ r', if decide (r' = r) then v else s.(regs) r') s.(sregs) s.(eip) s.(eflags) s.(memory).
Definition set_sreg (r : sreg) (v : Z) (s : state) : state :=
  State s.(regs) (λ r', if decide (r' = r) then v else s.(sregs) r') s.(eip) s.(eflags) s.(memory).
Definition set_eip (v : Z) (s : state) : state := State s.(regs) s.(sregs) v s.(eflags) s.(memory).
Definition set_eflags (v : Z) (s : state) : state := State s.(regs) s.(sregs) s.(eip) v s.(memory).
Definition set_word (a v : Z) (s : state) : state := State s.(regs) s.(sregs) s.(eip) s.(eflags) (upd s.(memory) a v).

Definition push (v : Z) (s : state) : state :=
  let a := u32 (s.(regs) esp - 4) in set_reg esp a (set_word a v s).
Definition pop (s : state) : Z * state :=
  (s.(memory) (s.(regs) esp), set_reg esp (u32 (s.(regs) esp + 4)) s).

Inductive instr :=
  | PushR (r : reg)                         (* [pushl %r] *)
  | PushS (r : sreg)                        (* [pushl %ds] and the like *)
  | PushI (v : Z)                           (* [pushl $v] *)
  | PushM (r : reg) (ofs : Z)               (* [pushl ofs(%r)] *)
  | PopR (r : reg)
  | PopS (r : sreg)
  | Pushal
  | Popal
  | MovI (v : Z) (r : reg)                  (* [movl $v, %r] *)
  | MovRS (r : reg) (d : sreg)              (* [mov %r, %ds] *)
  | Load (ofs : Z) (b : reg) (d : reg)      (* [movl ofs(%b), %d] *)
  | LoadX (b i d : reg)                     (* [movl (%b,%i,1), %d] *)
  | Store (r : reg) (ofs : Z) (b : reg)     (* [movl %r, ofs(%b)] *)
  | StoreX (r b i : reg)                    (* [movl %r, (%b,%i,1)] *)
  | LoadA (a : Z) (d : reg)                 (* [movl a, %d] *)
  | Lea (ofs : Z) (b d : reg)               (* [leal ofs(%b), %d] *)
  | AddI (v : Z) (r : reg)                  (* [addl $v, %r] *)
  | Cld
  | Call (f : state → state)                (* a C function, from its call to its return *)
  | Int (f : state → state)                 (* an interrupt, up to the return from it *)
  | Jmp (a : Z)
  | Ret
  | Iret.

(** The privilege level is in the low bits of the code segment. *)
Definition cpl (s : state) : Z := s.(sregs) cs `mod` 4.

Definition FLAG_IF : Z := 512.
Definition FLAG_DF : Z := 1024.

Definition pop_into (r : reg) (s : state) : state := let (v, s) := pop s in set_reg r v s.
Definition pop_seg (r : sreg) (s : state) : state := let (v, s) := pop s in set_sreg r (u16 v) s.
Definition pop_eip (s : state) : state := let (v, s) := pop s in set_eip v s.
Definition pop_eflags (s : state) : state := let (v, s) := pop s in set_eflags v s.

(** The return to the interrupted code takes the stack of that code if it has less
    privilege. *)
Definition iret (s : state) : state :=
  let s' := pop_eflags (pop_seg cs (pop_eip s)) in
  if cpl s <? cpl s' then
    let (sp, s1) := pop s' in let (sel, s2) := pop s1 in set_reg esp sp (set_sreg ss (u16 sel) s2)
  else s'.

Definition step (i : instr) (s : state) : state :=
  match i with
  | PushR r => push (s.(regs) r) s
  | PushS r => push (s.(sregs) r) s
  | PushI v => push v s
  | PushM r ofs => push (s.(memory) (u32 (s.(regs) r + ofs))) s
  | PopR r => pop_into r s
  | PopS r => pop_seg r s
  | Pushal =>
      let g := s.(regs) in
      push (g edi) (push (g esi) (push (g ebp) (push (g esp) (push (g ebx) (push (g edx) (push (g ecx) (push (g eax) s)))))))
  | Popal => pop_into eax (pop_into ecx (pop_into edx (pop_into ebx (snd (pop (pop_into ebp (pop_into esi (pop_into edi s))))))))
  | MovI v r => set_reg r v s
  | MovRS r d => set_sreg d (u16 (s.(regs) r)) s
  | Load ofs b d => set_reg d (s.(memory) (u32 (s.(regs) b + ofs))) s
  | LoadX b i d => set_reg d (s.(memory) (u32 (s.(regs) b + s.(regs) i))) s
  | Store r ofs b => set_word (u32 (s.(regs) b + ofs)) (s.(regs) r) s
  | StoreX r b i => set_word (u32 (s.(regs) b + s.(regs) i)) (s.(regs) r) s
  | LoadA a d => set_reg d (s.(memory) a) s
  | Lea ofs b d => set_reg d (u32 (s.(regs) b + ofs)) s
  | AddI v r => set_reg r (u32 (s.(regs) r + v)) s
  | Cld => set_eflags (Z.ldiff s.(eflags) FLAG_DF) s
  | Call f => f s
  | Int f => f s
  | Jmp a => set_eip a s
  | Ret => pop_eip s
  | Iret => iret s
  end.

Fixpoint run (code : list instr) (s : state) : state :=
  match code with
  | [] => s
  | i :: code => run code (step i s)
  end.

(** ** threads/switch.S *)

Definition SWITCH_CUR : Z := 20.
Definition SWITCH_NEXT : Z := 24.

(** [ofs_addr] is the address of the variable thread_stack_ofs. *)
Definition switch_threads (ofs_addr : Z) : list instr :=
  [PushR ebx; PushR ebp; PushR esi; PushR edi;
   LoadA ofs_addr edx;
   Load SWITCH_CUR esp eax; StoreX esp eax edx;
   Load SWITCH_NEXT esp ecx; LoadX ecx edx esp;
   PopR edi; PopR esi; PopR ebp; PopR ebx; Ret].

Definition switch_entry (schedule_tail : state → state) : list instr :=
  [AddI 8 esp; PushR eax; Call schedule_tail; AddI 4 esp; Ret].

(** ** The first stack of a thread (thread_create) *)

(** The field [stack] of the thread [t] is at [ofs]. *)
Definition alloc_frame (t ofs size : Z) (m : words) : Z * words :=
  let a := u32 (m (u32 (t + ofs)) - size) in (a, upd m (u32 (t + ofs)) a).

(** The frames of kernel_thread, switch_entry and switch_threads.  init_thread has put
    the end of the page into the field [stack]. *)
Definition first_stack (t ofs function aux switch_entry kernel_thread : Z) (m : words) : words :=
  let m := upd m (u32 (t + ofs)) (u32 (t + PGSIZE)) in
  let (kf, m) := alloc_frame t ofs 12 m in
  let m := upd (upd (upd m kf NULL) (u32 (kf + 4)) function) (u32 (kf + 8)) aux in
  let (ef, m) := alloc_frame t ofs 4 m in
  let m := upd m ef kernel_thread in
  let (sf, m) := alloc_frame t ofs 28 m in
  upd m (u32 (sf + 16)) switch_entry.

(** ** threads/intr-stubs.S *)

(** [zero] pushes an error code of 0; [REAL] copies the one of the processor. *)
Definition stub_zero : list instr := [PushR ebp; PushI 0].
Definition stub_REAL : list instr := [PushM esp 0; Store ebp 4 esp].

(** The vectors with a [REAL] stub. *)
Definition REAL_stubs : list Z := [8; 10; 11; 13; 14; 17; 24; 26; 27; 29; 30].

Definition STUB (number intr_entry : Z) : list instr :=
  (if decide (number ∈ REAL_stubs) then stub_REAL else stub_zero) ++ [PushI number; Jmp intr_entry].

Definition intr_entry (intr_handler : state → state) : list instr :=
  [PushS ds; PushS es; PushS fs; PushS gs; Pushal;
   Cld; MovI SEL_KDSEG eax; MovRS eax ds; MovRS eax es; Lea 56 esp ebp;
   PushR esp; Call intr_handler; AddI 4 esp].

Definition intr_exit : list instr :=
  [Popal; PopS gs; PopS fs; PopS es; PopS ds; AddI 12 esp; Iret].

(** ** lib/user/syscall.c *)

(** The operands of the arguments are registers other than esp or constants. *)
Inductive arg := ArgI (v : Z) | ArgR (r : reg).

Definition push_arg (a : arg) : instr := match a with ArgI v => PushI v | ArgR r => PushR r end.

Definition syscall0 (kernel : state → state) (number : Z) : list instr :=
  [PushI number; Int kernel; AddI 4 esp].
Definition syscall1 (kernel : state → state) (number : Z) (arg0 : arg) : list instr :=
  [push_arg arg0; PushI number; Int kernel; AddI 8 esp].
Definition syscall2 (kernel : state → state) (number : Z) (arg0 arg1 : arg) : list instr :=
  [push_arg arg1; push_arg arg0; PushI number; Int kernel; AddI 12 esp].
Definition syscall3 (kernel : state → state) (number : Z) (arg0 arg1 arg2 : arg) : list instr :=
  [push_arg arg2; push_arg arg1; push_arg arg0; PushI number; Int kernel; AddI 16 esp].

(** ** Interrupts of the processor *)

(** The vectors at which a 32-bit processor pushes an error code. *)
Definition error_code_vectors : list Z := [8; 10; 11; 12; 13; 14; 17].

Definition push_error (err : option Z) (s : state) : state := match err with Some e => push e s | None => s end.

(** The interrupt goes through the gate [g].  From user mode the processor takes the
    stack of the task state, [ss0] and [esp0], and saves the one it leaves. *)
Definition deliver (g : gate) (ss0 esp0 : Z) (err : option Z) (s : state) : state :=
  let outer := g.(g_selector) `mod` 4 <? cpl s in
  let s1 := if outer then push (s.(regs) esp) (push (s.(sregs) ss) (set_sreg ss ss0 (set_reg esp esp0 s))) else s in
  let s2 := push_error err (push s.(eip) (push (s.(sregs) cs) (push s.(eflags) s1))) in
  let s3 := set_eip g.(g_offset) (set_sreg cs g.(g_selector) s2) in
  if g.(g_type) =? 14 then set_eflags (Z.ldiff s3.(eflags) FLAG_IF) s3 else s3.

(** ** Stacks *)

(** The words [ws] from the address [a] on. *)
Definition stack_at (m : words) (a : Z) (ws : list Z) : Prop := ∀ k w, ws !! k = Some w → m (a + 4 * Z.of_nat k) = w.

Lemma upd_eq m a v : upd m a v a = v.
Proof. unfold upd. by rewrite Z.eqb_refl. Qed.

Lemma upd_ne m a v b : b ≠ a → upd m a v b = m b.
Proof. intros H. unfold upd. by rewrite (proj2 (Z.eqb_neq _ _) H). Qed.

Lemma stack_nil m a : stack_at m a [].
Proof. intros k w. by rewrite lookup_nil. Qed.

Lemma stack_push m a v ws : stack_at m a ws → stack_at (upd m (a - 4) v) (a - 4) (v :: ws).
Proof.
  intros H [|k] w; cbn [lookup list_lookup].
  - intros [= <-]. replace (a - 4 + 4 * Z.of_nat 0) with (a - 4) by lia. apply upd_eq.
  - intros Hk. rewrite upd_ne by lia. rewrite <- (H k w Hk). f_equal. lia.
Qed.

Lemma stack_pop m a w ws : stack_at m a (w :: ws) → m a = w ∧ stack_at m (a + 4) ws.
Proof.
  intros H. split; [replace a with (a + 4 * Z.of_nat 0) by lia; by apply H|].
  intros k v Hk. replace (a + 4 + 4 * Z.of_nat k) with (a + 4 * Z.of_nat (S k)) by lia. by apply H.
Qed.

Lemma stack_upd m a b v ws : b < a ∨ a + 4 * zlen ws ≤ b → stack_at m a ws → stack_at (upd m b v) a ws.
Proof. intros Hb H k w Hk. pose proof (lookup_lt_Some _ _ _ Hk). rewrite upd_ne by lia. by apply H. Qed.

(** The stack pointer of [s] is [a] and the stack holds [ws] from there. *)
Definition at_top (s : state) (a : Z) (ws : list Z) : Prop := s.(regs) esp = a ∧ stack_at s.(memory) a ws.

Lemma push_top s a ws v : at_top s a ws → 4 ≤ a < W32 → at_top (push v s) (a - 4) (v :: ws).
Proof.
  intros [He Hs] Ha. unfold push. rewrite He, u32_small by mlia. split; [done|]. by apply stack_push.
Qed.

(** A push changes the stack only. *)
Definition same_regs (s s' : state) : Prop :=
  (∀ r, r ≠ esp → s'.(regs) r = s.(regs) r) ∧ s'.(sregs) = s.(sregs) ∧ s'.(eip) = s.(eip) ∧ s'.(eflags) = s.(eflags).

Lemma push_same v s : same_regs s (push v s).
Proof. split_and!; [|done..]. intros r Hr. cbn. by case_decide. Qed.

Lemma prog_run_app c d s : run (c ++ d) s = run d (run c s).
Proof. revert s. induction c as [|i c IH]; intros s; [done|]. apply IH. Qed.

(** Pushing registers. *)
Lemma pushes_run rs : ∀ s e ws, esp ∉ rs → at_top s e ws → 4 * zlen rs ≤ e < W32 →
  let s' := run (PushR <$> rs) s in
  at_top s' (e - 4 * zlen rs) (rev (s.(regs) <$> rs) ++ ws) ∧ same_regs s s' ∧
  ∀ b, ¬ (e - 4 * zlen rs ≤ b < e) → s'.(memory) b = s.(memory) b.
Proof.
  induction rs as [|r rs IH]; intros s e ws Hn Ht Hr.
  { cbn zeta. replace (e - 4 * zlen ([] : list reg)) with e by (cbn; lia). by split_and!. }
  rewrite elem_of_cons in Hn. apply Decidable.not_or in Hn as [Hr0 Hrs]. cbn [length] in Hr.
  change (run (PushR <$> r :: rs) s) with (run (PushR <$> rs) (push (s.(regs) r) s)).
  destruct (IH (push (s.(regs) r) s) (e - 4) (s.(regs) r :: ws) Hrs) as (I1 & (I2 & I3 & I4 & I5) & I6); [by apply push_top; [|lia]|lia|].
  assert ((regs (push (s.(regs) r) s) <$> rs) = (s.(regs) <$> rs)) as E.
  { apply list_fmap_ext. intros i x Hx. apply push_same. intros ->. apply Hrs. by eapply list_elem_of_lookup_2. }
  cbn zeta. split; [|split; [split; [|by rewrite I3, I4, I5]|]].
  - rewrite E in I1. cbn [fmap list_fmap rev length]. rewrite <- app_assoc. by replace (e - 4 * Z.of_nat (S (length rs))) with (e - 4 - 4 * zlen rs) by lia.
  - intros x Hx. rewrite I2 by done. by apply push_same.
  - intros b Hb. cbn [length] in Hb. rewrite I6 by lia. destruct Ht as [Ht _]. unfold push. cbn [set_reg set_word memory]. rewrite Ht, u32_small by mlia. by apply upd_ne; lia.
Qed.

(** Popping registers. *)
Lemma pops_run rs : ∀ s e vs ws, NoDup rs → esp ∉ rs → length vs = length rs → at_top s e (vs ++ ws) → 0 ≤ e → e + 4 * zlen rs < W32 →
  let s' := run (PopR <$> rs) s in
  at_top s' (e + 4 * zlen rs) ws ∧ s'.(memory) = s.(memory) ∧ s'.(sregs) = s.(sregs) ∧ s'.(eip) = s.(eip) ∧ s'.(eflags) = s.(eflags) ∧
  (s'.(regs) <$> rs) = vs ∧ ∀ r, r ≠ esp → r ∉ rs → s'.(regs) r = s.(regs) r.
Proof.
  induction rs as [|r rs IH]; intros s e vs ws Hnd Hn Hl Ht He0 He.
  { destruct vs; [|done]. cbn zeta. replace (e + 4 * zlen ([] : list reg)) with e by (cbn; lia). by split_and!. }
  destruct vs as [|v vs]; [done|]. apply NoDup_cons in Hnd as [Hr Hnd]. rewrite elem_of_cons in Hn. apply Decidable.not_or in Hn as [Hr0 Hrs].
  cbn [length] in He. destruct Ht as [Ht Hs]. destruct (stack_pop _ _ _ _ Hs) as [Ev Hs'].
  set (s1 := set_reg r v (set_reg esp (e + 4) s)).
  assert (step (PopR r) s = s1) as E1. { cbn [step]. unfold pop_into, pop. rewrite Ht, Ev, u32_small by mlia. done. }
  change (run (PopR <$> r :: rs) s) with (run (PopR <$> rs) (step (PopR r) s)). rewrite E1.
  destruct (IH s1 (e + 4) vs ws Hnd Hrs) as (I1 & I2 & I3 & I4 & I5 & I6 & I7); [by injection Hl| |lia|lia|].
  { split; [|exact Hs']. cbn. rewrite decide_False by done. by rewrite decide_True. }
  cbn zeta. rewrite I2, I3, I4, I5. split; [|split_and!; [done..| |]].
  - cbn [length]. by replace (e + 4 * Z.of_nat (S (length rs))) with (e + 4 + 4 * zlen rs) by lia.
  - cbn [fmap list_fmap]. rewrite I6. f_equal. rewrite I7 by (done || congruence). cbn. by rewrite decide_True.
  - intros x Hx Hin. rewrite elem_of_cons in Hin. apply Decidable.not_or in Hin as [Hx1 Hx2]. rewrite I7 by done. cbn. by rewrite !decide_False by done.
Qed.

(** ** Switching threads *)

Section Switch.
(** thread_stack_ofs and its address, outside the pages of the threads. *)
Context (ofs ofs_addr : Z) (Hofs : 0 ≤ ofs).

(** The thread [t] has its stack in its page, the word at [e] is its top. *)
Definition on_page (t e : Z) : Prop :=
  0 < t ∧ t + 4096 < W32 ∧ t `mod` 4096 = 0 ∧ t + ofs + 4 ≤ e - 16 ∧ e + 12 ≤ t + 4096 ∧ ¬ (t ≤ ofs_addr < t + 4096).

(** [t] is in switch_threads: its field [stack] has the address of a frame. *)
Definition switched_out (m : words) (t a : Z) (frame : list Z) : Prop :=
  m (t + ofs) = a ∧ stack_at m a frame.

(** The thread [cur] enters switch_threads (cur, next), called from [ret]. *)
Definition calls_switch (s : state) (e ret cur next : Z) : Prop :=
  at_top s e [ret; cur; next] ∧ s.(memory) ofs_addr = ofs ∧ on_page cur e ∧ cur ≠ next.

(** [next] can be switched to: the frame at [a] gives it its registers. *)
Definition can_run (m : words) (next a di si bp bx ip : Z) : Prop :=
  next `mod` 4096 = 0 ∧ 0 < next ∧ next + ofs + 4 ≤ a ∧ a + 20 ≤ next + 4096 ∧ next + 4096 < W32 ∧
  switched_out m next a [di; si; bp; bx; ip].

Lemma switch_run s e ret cur next a di si bp bx ip :
  calls_switch s e ret cur next → can_run s.(memory) next a di si bp bx ip →
  let s' := run (switch_threads ofs_addr) s in
  s'.(regs) edi = di ∧ s'.(regs) esi = si ∧ s'.(regs) ebp = bp ∧ s'.(regs) ebx = bx ∧ s'.(regs) eax = cur ∧
  s'.(regs) esp = a + 20 ∧ s'.(eip) = ip ∧ s'.(sregs) = s.(sregs) ∧ s'.(eflags) = s.(eflags) ∧
  switched_out s'.(memory) cur (e - 16) [s.(regs) edi; s.(regs) esi; s.(regs) ebp; s.(regs) ebx; ret; cur; next] ∧
  (∀ b, ¬ (cur ≤ b < cur + 4096) ∨ e ≤ b → s'.(memory) b = s.(memory) b).
Proof.
  intros ([He Hs] & Ho & (Hc0 & Hc1 & Hc2 & Hc3 & Hc4 & Hc5) & Hne) (Hn2 & Hn0 & Ha0 & Ha1 & Hn1 & Hna & Hfr).
  assert (cur + 4096 ≤ next ∨ next + 4096 ≤ cur) as Hdis by dm_lia.
  destruct (stack_pop _ _ _ _ Hs) as [Er Hs1]. destruct (stack_pop _ _ _ _ Hs1) as [Ec Hs2]. destruct (stack_pop _ _ _ _ Hs2) as [En _].
  destruct (stack_pop _ _ _ _ Hfr) as [E0 F1]. destruct (stack_pop _ _ _ _ F1) as [E1 F2]. destruct (stack_pop _ _ _ _ F2) as [E2 F3].
  destruct (stack_pop _ _ _ _ F3) as [E3 F4]. destruct (stack_pop _ _ _ _ F4) as [E4 _].
  destruct (pushes_run [ebx; ebp; esi; edi] s e [ret; cur; next]) as ([P1 P2] & (P3 & P4 & P5 & P6) & P7); [by_decide|done|cbn [length]; lia|].
  set (s1 := run (PushR <$> [ebx; ebp; esi; edi]) s) in *. cbn [length] in P1, P2, P7. replace (e - 4 * Z.of_nat 4) with (e - 16) in * by lia.
  cbn zeta. change (switch_threads ofs_addr) with ((PushR <$> [ebx; ebp; esi; edi]) ++ drop 4 (switch_threads ofs_addr)).
  rewrite prog_run_app. fold s1. clearbody s1.
  change (drop 4 (switch_threads ofs_addr)) with ([LoadA ofs_addr edx; Load SWITCH_CUR esp eax; StoreX esp eax edx; Load SWITCH_NEXT esp ecx; LoadX ecx edx esp] ++
    (PopR <$> [edi; esi; ebp; ebx]) ++ [Ret]). rewrite !prog_run_app.
  assert (s1.(memory) (e + 4) = cur ∧ s1.(memory) (e + 8) = next ∧ s1.(memory) ofs_addr = ofs ∧ s1.(memory) (next + ofs) = a) as (M1 & M2 & M3 & M4).
  { rewrite !P7 by lia. replace (e + 8) with (e + 4 + 4) by lia. by split_and!. }
  set (s2 := set_reg esp a (set_reg ecx next (set_word (cur + ofs) (e - 16) (set_reg eax cur (set_reg edx ofs s1))))).
  assert (run [LoadA ofs_addr edx; Load SWITCH_CUR esp eax; StoreX esp eax edx; Load SWITCH_NEXT esp ecx; LoadX ecx edx esp] s1 = s2) as ->.
  { cbn [run step]. rewrite M3. set (r1 := set_reg edx ofs s1).
    assert (r1.(regs) esp = e - 16) as R1 by exact P1. rewrite R1. unfold SWITCH_CUR. rewrite (u32_small (e - 16 + 20)) by mlia. replace (e - 16 + 20) with (e + 4) by lia.
    change (r1.(memory)) with s1.(memory). rewrite M1. set (r2 := set_reg eax cur r1).
    change (regs r2 esp) with (regs s1 esp). change (regs r2 eax) with cur. change (regs r2 edx) with ofs. rewrite P1, (u32_small (cur + ofs)) by mlia.
    set (r3 := set_word (cur + ofs) (e - 16) r2). change (regs r3 esp) with (regs s1 esp). rewrite P1.
    unfold SWITCH_NEXT. rewrite (u32_small (e - 16 + 24)) by mlia. replace (e - 16 + 24) with (e + 8) by lia.
    assert (∀ b, b ≠ cur + ofs → memory r3 b = memory s1 b) as R3 by (intros b Hb; by apply upd_ne). rewrite R3, M2 by lia.
    set (r4 := set_reg ecx next r3). change (regs r4 ecx) with next. change (regs r4 edx) with ofs. change (memory r4) with (memory r3).
    rewrite (u32_small (next + ofs)), R3, M4 by mlia. done. }
  assert (∀ b, ¬ (e - 16 ≤ b < e) → b ≠ cur + ofs → s2.(memory) b = s.(memory) b) as Hs2m by (intros b Hb1 Hb2; cbn; rewrite upd_ne by done; by apply P7).
  destruct (pops_run [edi; esi; ebp; ebx] s2 a [di; si; bp; bx] [ip]) as ([Q1 Q2] & Q3 & Q4 & Q5 & Q6 & Q7 & Q8); [by_decide|by_decide|done| |lia|cbn [length]; mlia|].
  { split; [done|]. intros k w Hk. pose proof (lookup_lt_Some _ _ _ Hk) as Hlt. cbn in Hlt. rewrite Hs2m by lia. by apply Hfr. }
  set (s3 := run (PopR <$> [edi; esi; ebp; ebx]) s2) in *. cbn [length] in Q1, Q2. replace (a + 4 * Z.of_nat 4) with (a + 16) in * by lia.
  clearbody s3. injection Q7 as V1 V2 V3 V4. destruct (stack_pop _ _ _ _ Q2) as [Eip _].
  change (run [Ret] s3) with (set_eip (s3.(memory) (s3.(regs) esp)) (set_reg esp (u32 (s3.(regs) esp + 4)) s3)).
  rewrite Q1, Eip, u32_small by mlia. replace (a + 16 + 4) with (a + 20) by lia. cbn.
  split_and!; [done..| |done|done|by rewrite Q4|by rewrite Q6| |].
  - rewrite decide_False by done. by apply (Q8 eax); [|by_decide].
  - rewrite Q3. cbn. split; [apply upd_eq|]. apply stack_upd; [left; lia|]. exact P2.
  - intros b Hb. rewrite Q3. apply Hs2m; lia.
Qed.

(** Property C16.  For the thread that calls it, switch_threads is a function that returns
    when some thread switches back: it comes back to its return address, with its stack
    pointer, the registers of the caller and everything on the stack as they were, and
    the answer is the thread that was running before.  All that is needed is that nobody
    wrote to the page of the thread meanwhile. *)
Theorem switch_returns s e ret cur next a di si bp bx ip s2 e2 ret2 from :
  calls_switch s e ret cur next → can_run s.(memory) next a di si bp bx ip →
  calls_switch s2 e2 ret2 from cur →
  (∀ b, cur ≤ b < cur + 4096 → s2.(memory) b = (run (switch_threads ofs_addr) s).(memory) b) →
  let s3 := run (switch_threads ofs_addr) s2 in
  s3.(eip) = ret ∧ s3.(regs) esp = e + 4 ∧ s3.(regs) eax = from ∧
  s3.(regs) ebx = s.(regs) ebx ∧ s3.(regs) ebp = s.(regs) ebp ∧ s3.(regs) esi = s.(regs) esi ∧ s3.(regs) edi = s.(regs) edi ∧
  (∀ b, e ≤ b < cur + 4096 → s3.(memory) b = s.(memory) b).
Proof.
  intros Hc Hn Hc2 Hm. destruct (switch_run _ _ _ _ _ _ _ _ _ _ _ Hc Hn) as (_ & _ & _ & _ & _ & _ & _ & _ & _ & [S1 S2] & Hout).
  destruct Hc as (_ & _ & (Hp0 & Hp1 & Hp2 & Hp3 & Hp4 & _) & _).
  assert (can_run s2.(memory) cur (e - 16) (s.(regs) edi) (s.(regs) esi) (s.(regs) ebp) (s.(regs) ebx) ret) as HR.
  { unfold can_run. split_and!; [done|lia..|]. split; [rewrite Hm by lia; exact S1|].
    intros k w Hk. pose proof (lookup_lt_Some _ _ _ Hk) as Hlt. cbn in Hlt. rewrite Hm by lia. apply S2.
    do 5 (destruct k as [|k]; [exact Hk|]). lia. }
  destruct (switch_run _ _ _ _ _ _ _ _ _ _ _ Hc2 HR) as (R1 & R2 & R3 & R4 & R5 & R6 & R7 & _ & _ & _ & Hout2).
  cbn zeta. split_and!; try done; [lia|]. intros b Hb.
  rewrite Hout2, Hm, Hout by (try lia; left; destruct Hc2 as (_ & _ & (_ & _ & Hq & _) & Hne); dm_lia). done.
Qed.

(** *** A new thread *)

(** A page for a thread whose structure is at most 4048 bytes up to its field [stack]. *)
Definition thread_page (t : Z) : Prop := 0 < t ∧ t + 4096 < W32 ∧ t `mod` 4096 = 0 ∧ ofs + 48 ≤ 4096.

Lemma first_stack_frames t function aux entry kthread m0 : thread_page t →
  let m := first_stack t ofs function aux entry kthread m0 in let top := t + 4096 in
  m (t + ofs) = top - 44 ∧ m (top - 28) = entry ∧ stack_at m (top - 16) [kthread; NULL; function; aux].
Proof.
  intros (Ht0 & Ht1 & Ht2 & Ho). unfold first_stack, alloc_frame, PGSIZE. rewrite !(u32_small (t + ofs)), (u32_small (t + 4096)), upd_eq by mlia.
  rewrite (u32_small (t + 4096 - 12)), (u32_small (t + 4096 - 12 + 4)), (u32_small (t + 4096 - 12 + 8)) by mlia.
  set (m1 := upd _ (t + ofs) (t + 4096 - 12)). set (m2 := upd _ (t + 4096 - 12 + 8) aux).
  assert (m2 (t + ofs) = t + 4096 - 12) as E2 by (unfold m2, m1; rewrite !upd_ne by lia; apply upd_eq). rewrite E2, (u32_small (t + 4096 - 12 - 4)) by mlia.
  set (m3 := upd m2 _ _). set (m4 := upd m3 (t + 4096 - 12 - 4) kthread).
  assert (m4 (t + ofs) = t + 4096 - 12 - 4) as E4 by (unfold m4, m3; rewrite upd_ne by lia; apply upd_eq).
  rewrite E4, (u32_small (t + 4096 - 12 - 4 - 28)), (u32_small (t + 4096 - 12 - 4 - 28 + 16)) by mlia.
  set (m5 := upd m4 _ _). cbn zeta. split_and!.
  - rewrite upd_ne by lia. unfold m5. rewrite upd_eq. lia.
  - replace (t + 4096 - 28) with (t + 4096 - 12 - 4 - 28 + 16) by lia. apply upd_eq.
  - apply stack_upd; [left; lia|]. apply stack_upd; [left; lia|]. unfold m4, m3, m2.
    intros [|[|[|[|k]]]] w Hk; cbn in Hk; try done; injection Hk as <-.
    + replace (t + 4096 - 16 + 4 * Z.of_nat 0) with (t + 4096 - 12 - 4) by lia. apply upd_eq.
    + rewrite !upd_ne by lia. replace (t + 4096 - 16 + 4 * Z.of_nat 1) with (t + 4096 - 12) by lia. apply upd_eq.
    + rewrite !upd_ne by lia. replace (t + 4096 - 16 + 4 * Z.of_nat 2) with (t + 4096 - 12 + 4) by lia. apply upd_eq.
    + rewrite !upd_ne by lia. replace (t + 4096 - 16 + 4 * Z.of_nat 3) with (t + 4096 - 12 + 8) by lia. apply upd_eq.
Qed.

(** A C function that takes [n] words on the stack returns with the stack pointer of its
    call and writes to no word of the stack above its arguments, up to [top]. *)
Definition c_function (f : state → state) (n top : Z) : Prop := ∀ x, 0 ≤ x.(regs) esp < W32 →
  (f x).(regs) esp = x.(regs) esp ∧ ∀ b, x.(regs) esp + 4 * n ≤ b < top → (f x).(memory) b = x.(memory) b.

Lemma pop_eip_run s e w ws : at_top s e (w :: ws) → 0 ≤ e → e + 4 < W32 → (pop_eip s).(eip) = w ∧ at_top (pop_eip s) (e + 4) ws.
Proof.
  intros [He Hs] H0 H1. destruct (stack_pop _ _ _ _ Hs) as [Ew Hs']. unfold pop_eip, pop. cbn [eip set_eip]. rewrite He. split; [exact Ew|].
  split; [|exact Hs']. cbn [regs set_eip set_reg]. rewrite decide_True by done. apply u32_small. mlia.
Qed.

(** switch_entry of a thread with the page that ends at [top]. *)
Lemma intr_entry_run s f top cur kthread ws :
  4 * zlen ws + 12 ≤ top → top < W32 → c_function f 1 top → s.(regs) esp = top - 4 * zlen ws - 12 → s.(regs) eax = cur →
  stack_at s.(memory) (top - 4 * zlen ws - 4) (kthread :: ws) →
  let x := run [AddI 8 esp; PushR eax] s in let s' := run (switch_entry f) s in
  at_top x (top - 4 * zlen ws - 8) [cur] ∧ s'.(eip) = kthread ∧ at_top s' (top - 4 * zlen ws) ws.
Proof.
  intros H0 H1 HT He Ha HS. cbn zeta. set (e := top - 4 * zlen ws - 4) in *. set (s1 := set_reg esp e s). set (x := push cur s1).
  assert (run [AddI 8 esp; PushR eax] s = x) as Ex.
  { cbn [run step]. rewrite He, u32_small by mlia. replace (top - 4 * zlen ws - 12 + 8) with e by (unfold e; lia). unfold x. f_equal. exact Ha. }
  assert (at_top x (e - 4) (cur :: kthread :: ws)) as HX by (apply push_top; [by split|unfold e; mlia]). destruct HX as [X1 X2].
  destruct (stack_pop _ _ _ _ X2) as [X3 X4]. destruct (HT x ltac:(rewrite X1; unfold e; mlia)) as [T1 T2].
  assert (run (switch_entry f) s = pop_eip (set_reg esp (u32 ((f x).(regs) esp + 4)) (f x))) as Er by (rewrite <- Ex; reflexivity).
  rewrite Er, Ex, T1, X1, u32_small by (unfold e; mlia). clearbody x. replace (e - 4 + 4) with e in * by lia.
  destruct (pop_eip_run (set_reg esp e (f x)) e kthread ws) as [P1 P2]; [|unfold e; mlia|unfold e; mlia|].
  { split; [done|]. intros k w Hk. pose proof (lookup_lt_Some _ _ _ Hk) as Hlt. cbn in Hlt. change (memory (set_reg esp e (f x))) with (memory (f x)).
    rewrite T2 by (unfold e; lia). by apply X4. }
  split; [|split; [done|by replace (top - 4 * zlen ws) with (e + 4) by (unfold e; lia)]].
  replace (top - 4 * zlen ws - 8) with (e - 4) by (unfold e; lia). split; [done|]. intros [|k] w Hk; [|by destruct k]. injection Hk as <-. by rewrite Z.add_0_r.
Qed.

(** Property C17.  The stack that thread_create builds starts the new thread.  When some
    thread switches to it, switch_threads goes to switch_entry, which calls schedule_tail
    with the previous thread, and then kernel_thread begins as if it had been called with
    the function of the thread and its argument, on the end of the page of the thread. *)
Theorem new_thread_starts s e ret cur t function aux entry kthread schedule_tail m0 :
  calls_switch s e ret cur t → thread_page t → c_function schedule_tail 1 (t + 4096) →
  (∀ b, t ≤ b < t + 4096 → s.(memory) b = first_stack t ofs function aux entry kthread m0 b) →
  let s1 := run (switch_threads ofs_addr) s in
  let at_tail := run [AddI 8 esp; PushR eax] s1 in
  let s2 := run (switch_entry schedule_tail) s1 in
  s1.(eip) = entry ∧ at_top at_tail (t + 4096 - 20) [cur] ∧
  s2.(eip) = kthread ∧ at_top s2 (t + 4096 - 12) [NULL; function; aux].
Proof.
  intros Hc Hp HT Hm. destruct (first_stack_frames t function aux entry kthread m0 Hp) as (F1 & F2 & F3).
  destruct Hp as (Ht0 & Ht1 & Ht2 & Ho). set (a := t + 4096 - 44).
  assert (can_run s.(memory) t a (s.(memory) a) (s.(memory) (a + 4)) (s.(memory) (a + 8)) (s.(memory) (a + 12)) entry) as HR.
  { unfold can_run, a. split_and!; [done|lia..|]. split; [by rewrite Hm by lia|].
    intros [|[|[|[|[|k]]]]] w Hk; cbn in Hk; try done; injection Hk as <-; [f_equal; lia..|].
    rewrite Hm by lia. etrans; [|exact F2]. f_equal. lia. }
  destruct (switch_run _ _ _ _ _ _ _ _ _ _ _ Hc HR) as (_ & _ & _ & _ & R5 & R6 & R7 & _ & _ & _ & Hout). cbn zeta.
  set (s1 := run (switch_threads ofs_addr) s) in *. clearbody s1.
  assert (stack_at s1.(memory) (t + 4096 - 16) [kthread; NULL; function; aux]) as HS.
  { intros k w Hk. pose proof (lookup_lt_Some _ _ _ Hk) as Hlt. cbn in Hlt. rewrite Hout, Hm by (destruct Hc as (_ & _ & (_ & _ & Hq & _) & Hne); dm_lia). by apply F3. }
  pose proof (intr_entry_run s1 schedule_tail (t + 4096) cur kthread [NULL; function; aux]) as HE. change (zlen [NULL; function; aux]) with 3 in HE.
  replace (t + 4096 - 4 * 3 - 8) with (t + 4096 - 20) in HE by lia. replace (t + 4096 - 4 * 3 - 4) with (t + 4096 - 16) in HE by lia.
  replace (t + 4096 - 4 * 3) with (t + 4096 - 12) in HE by lia. split; [done|]. apply HE; try done; [lia|]. rewrite R6. unfold a. lia.
Qed.
End Switch.

(** ** Interrupts *)

(** Pushing values. *)
Definition push_all (vs : list Z) (s : state) : state := fold_left (λ s v, push v s) vs s.

Lemma push_all_run vs : ∀ s e ws, at_top s e ws → 4 * zlen vs ≤ e < W32 →
  at_top (push_all vs s) (e - 4 * zlen vs) (rev vs ++ ws) ∧ same_regs s (push_all vs s).
Proof.
  induction vs as [|v vs IH]; intros s e ws Ht Hr.
  { replace (e - 4 * zlen ([] : list Z)) with e by (cbn; lia). by repeat split; try apply Ht. }
  cbn [length] in Hr. destruct (IH (push v s) (e - 4) (v :: ws)) as (I1 & I2 & I3 & I4 & I5); [by apply push_top; [|lia]|lia|].
  change (push_all (v :: vs) s) with (push_all vs (push v s)). split; [|split; [|by rewrite I3, I4, I5]].
  - cbn [rev length]. rewrite <- app_assoc. by replace (e - 4 * Z.of_nat (S (length vs))) with (e - 4 - 4 * zlen vs) by lia.
  - intros r Hr'. rewrite I2 by done. by apply push_same.
Qed.

(** What the processor saves: [outer] if it changes the stack. *)
Definition saved (outer : bool) (s : state) : list Z :=
  [s.(eip); s.(sregs) cs; s.(eflags)] ++ (if outer then [s.(regs) esp; s.(sregs) ss] else []).

Definition error_words (err : option Z) : list Z := match err with Some e => [e] | None => [] end.

(** The code that handles an interrupt starts as the interrupted one, except for its
    stack, its code segment and the flags. *)
Record entered (s s' : state) (g : gate) : Prop := {
  et_regs : ∀ r, r ≠ esp → s'.(regs) r = s.(regs) r;
  et_data : ∀ r, r ∈ [ds; es; fs; gs] → s'.(sregs) r = s.(sregs) r;
  et_code : s'.(sregs) cs = g.(g_selector);
  et_stack : cpl s = 0 → s'.(sregs) ss = s.(sregs) ss;
  et_flags : s'.(eflags) = if g.(g_type) =? 14 then Z.ldiff s.(eflags) FLAG_IF else s.(eflags);
}.

Lemma entered_same s s1 s2 g : entered s s1 g → same_regs s1 s2 → entered s s2 g.
Proof.
  intros [E1 E2 E3 E5 E4] (S1 & S2 & S3 & S4). split.
  - intros r Hr. rewrite S1 by done. by apply E1.
  - intros r Hr. rewrite S2. by apply E2.
  - by rewrite S2.
  - rewrite S2. exact E5.
  - by rewrite S4.
Qed.

Lemma deliver_run g ss0 esp0 err s : g.(g_selector) = SEL_KCSEG →
  let outer := 0 <? cpl s in let top := if outer then esp0 else s.(regs) esp in
  80 ≤ top < W32 →
  let s' := deliver g ss0 esp0 err s in let ws := error_words err ++ saved outer s in
  at_top s' (top - 4 * zlen ws) ws ∧ entered s s' g ∧ s'.(eip) = g.(g_offset).
Proof.
  intros Hg outer top Ht. cbn zeta. unfold deliver. rewrite Hg. change (SEL_KCSEG `mod` 4 <? cpl s) with outer.
  set (b := if outer then set_sreg ss ss0 (set_reg esp esp0 s) else s).
  set (vs := (if outer then [s.(sregs) ss; s.(regs) esp] else []) ++ [s.(eflags); s.(sregs) cs; s.(eip)] ++ error_words err).
  set (s2 := push_error _ _). assert (s2 = push_all vs b) as E2 by (unfold s2, vs, b; by destruct outer, err).
  assert (at_top b top []) as Hb by (split; [unfold b, top; by destruct outer|apply stack_nil]).
  assert (zlen vs = zlen (error_words err ++ saved outer s) ∧ rev vs = error_words err ++ saved outer s) as [El Er] by (unfold vs; by destruct outer, err).
  destruct (push_all_run vs b top [] Hb) as (P1 & P2 & P3 & P4 & P5).
  { split; [|lia]. unfold vs. destruct outer, err; cbn; lia. }
  rewrite <- E2 in *. rewrite El, Er, app_nil_r in P1.
  assert (∀ r, r ≠ esp → b.(regs) r = s.(regs) r) as B1 by (intros r Hr; unfold b; destruct outer; [cbn; by rewrite decide_False|done]).
  assert (∀ r, r ≠ ss → b.(sregs) r = s.(sregs) r) as B2 by (intros r Hr; unfold b; destruct outer; [cbn; by rewrite decide_False|done]).
  assert (b.(eflags) = s.(eflags)) as B3 by (unfold b; by destruct outer).
  assert (cpl s = 0 → b.(sregs) ss = s.(sregs) ss) as B4 by (intros Hc; unfold b, outer; by rewrite Hc). clearbody s2 b.
  assert (∀ f, entered s (State s2.(regs) (λ r', if decide (r' = cs) then SEL_KCSEG else s2.(sregs) r') g.(g_offset) f s2.(memory)) g ↔
    f = if g.(g_type) =? 14 then Z.ldiff s.(eflags) FLAG_IF else s.(eflags)) as HE.
  { intros f. split; [by intros []|]. intros ->. split; cbn; [| |by rewrite Hg| |done].
    - intros r Hr. rewrite P2 by done. by apply B1.
    - intros r Hr. rewrite decide_False by (intros ->; revert Hr; by_decide). rewrite P3. apply B2. intros ->. revert Hr. by_decide.
    - intros Hc. rewrite P3. by apply B4. }
  destruct (g.(g_type) =? 14); (split; [exact P1|]); (split; [|done]); apply HE; cbn; by rewrite P5, B3.
Qed.

Lemma stub_run v entry s0 s g err e ws : (v ∈ REAL_stubs ↔ is_Some err) → entered s0 s g →
  at_top s (e - 4 * zlen (error_words err)) (error_words err ++ ws) → 12 ≤ e < W32 →
  let s' := run (STUB v entry) s in
  at_top s' (e - 12) (v :: default 0 err :: s.(regs) ebp :: ws) ∧ entered s0 s' g ∧ s'.(eip) = entry.
Proof.
  intros Hv HE Ht He. cbn zeta. unfold STUB. rewrite prog_run_app.
  assert (∃ s1, run (if decide (v ∈ REAL_stubs) then stub_REAL else stub_zero) s = s1 ∧ at_top s1 (e - 8) (default 0 err :: s.(regs) ebp :: ws) ∧ entered s0 s1 g) as (s1 & -> & H1 & HE1).
  { destruct err as [c|]; cbn [error_words default] in *.
    - rewrite decide_True by by apply Hv. cbn [length app] in Ht. eexists. split; [reflexivity|]. cbn [run step stub_REAL]. destruct Ht as [Ht Hs].
      destruct (stack_pop _ _ _ _ Hs) as [Ec Hs']. rewrite Ht. replace (e - 4 * Z.of_nat 1) with (e - 4) in * by lia.
      replace (e - 4 + 4) with e in Hs' by lia. rewrite Z.add_0_r, (u32_small (e - 4)), Ec by mlia.
      destruct (push_top s (e - 4) (c :: ws) c (conj Ht Hs)) as [P1 P2]; [mlia|]. set (p := push c s) in *.
      rewrite P1, (u32_small (e - 4 - 4 + 4)) by mlia. replace (e - 4 - 4 + 4) with (e - 4) by lia. replace (e - 4 - 4) with (e - 8) in * by lia.
      assert (regs p ebp = regs s ebp) as -> by (by apply push_same). split; [split; [exact P1|]|].
      + intros [|[|k]] w Hk; cbn in Hk.
        * injection Hk as <-. cbn. rewrite upd_ne by lia. by apply (P2 0%nat).
        * injection Hk as <-. cbn [memory set_word]. replace (e - 8 + 4 * Z.of_nat 1) with (e - 4) by lia. apply upd_eq.
        * cbn [memory set_word]. rewrite upd_ne by lia. by apply (P2 (S (S k))).
      + apply (entered_same s0 p); [|done]. by apply (entered_same s0 s); [|apply push_same].
    - rewrite decide_False by (rewrite Hv; by intros []). cbn [length app] in Ht. replace (e - 4 * Z.of_nat 0) with e in Ht by lia.
      change (run stub_zero s) with (push_all [s.(regs) ebp; 0] s). eexists. split; [reflexivity|].
      destruct (push_all_run [s.(regs) ebp; 0] s e ws Ht) as [P1 P2]; [cbn [length]; lia|]. split; [exact P1|by apply (entered_same s0 s)]. }
  cbn [run step]. destruct (push_top s1 (e - 8) _ v H1) as [P1 P2]; [mlia|]. replace (e - 8 - 4) with (e - 12) in * by lia.
  split; [by split|]. split; [|done]. by destruct (entered_same s0 s1 (push v s1) g HE1 (push_same _ _)).
Qed.

(** *** The way back *)

Lemma pop_run s e w ws : at_top s e (w :: ws) → 0 ≤ e → e + 4 < W32 →
  pop s = (w, set_reg esp (e + 4) s) ∧ at_top (set_reg esp (e + 4) s) (e + 4) ws.
Proof.
  intros [He Hs] H0 H1. destruct (stack_pop _ _ _ _ Hs) as [Ew Hs']. unfold pop. rewrite He, Ew, u32_small by mlia. split; [done|]. by split.
Qed.

Lemma pop_seg_run s e r w ws : at_top s e (w :: ws) → 0 ≤ e → e + 4 < W32 → 0 ≤ w < 65536 →
  pop_seg r s = set_sreg r w (set_reg esp (e + 4) s) ∧ at_top (pop_seg r s) (e + 4) ws.
Proof.
  intros Ht H0 H1 Hw. destruct (pop_run s e w ws Ht H0 H1) as [Hp Ht']. unfold pop_seg. rewrite Hp. unfold u16. rewrite Z.mod_small by mlia. by split.
Qed.

Lemma popal_run s e di si bp du bx dx cx ax ws : at_top s e ([di; si; bp; du; bx; dx; cx; ax] ++ ws) → 0 ≤ e → e + 32 < W32 →
  let s' := step Popal s in
  at_top s' (e + 32) ws ∧ s'.(memory) = s.(memory) ∧ s'.(sregs) = s.(sregs) ∧ s'.(eip) = s.(eip) ∧ s'.(eflags) = s.(eflags) ∧
  s'.(regs) edi = di ∧ s'.(regs) esi = si ∧ s'.(regs) ebp = bp ∧ s'.(regs) ebx = bx ∧ s'.(regs) edx = dx ∧ s'.(regs) ecx = cx ∧ s'.(regs) eax = ax.
Proof.
  intros Ht H0 H1. cbn zeta.
  assert (step Popal s = run (PopR <$> [ebx; edx; ecx; eax]) (snd (pop (run (PopR <$> [edi; esi; ebp]) s)))) as -> by (cbn [run step fmap list_fmap]; reflexivity).
  destruct (pops_run [edi; esi; ebp] s e [di; si; bp] ([du; bx; dx; cx; ax] ++ ws)) as (A1 & A2 & A3 & A4 & A5 & A6 & _); [by_decide|by_decide|done|exact Ht|lia|cbn [length]; lia|].
  set (s1 := run _ s) in *. clearbody s1. cbn [length] in A1. replace (e + 4 * Z.of_nat 3) with (e + 12) in A1 by lia. injection A6 as V1 V2 V3.
  destruct (pop_run s1 (e + 12) du ([bx; dx; cx; ax] ++ ws) A1 ltac:(lia) ltac:(lia)) as [-> A7]. cbn [snd]. replace (e + 12 + 4) with (e + 16) in A7 |- * by lia.
  set (s2 := set_reg esp (e + 16) s1) in *.
  destruct (pops_run [ebx; edx; ecx; eax] s2 (e + 16) [bx; dx; cx; ax] ws) as (C1 & C2 & C3 & C4 & C5 & C6 & C7); [by_decide|by_decide|done|exact A7|lia|cbn [length]; lia|].
  set (s3 := run _ s2) in *. clearbody s3. cbn [length] in C1. replace (e + 16 + 4 * Z.of_nat 4) with (e + 32) in C1 by lia. injection C6 as W1 W2 W3 W4.
  split; [exact C1|]. rewrite C2, C3, C4, C5. split_and!; try done; rewrite C7 by (done || by_decide); done.
Qed.

(** The words of struct intr_frame for the registers [gr] and [sr], the vector and the
    error code, and what the processor saved. *)
Definition intr_frame (gr : reg → Z) (sr : sreg → Z) (dummy v err : Z) (hw : list Z) : list Z :=
  [gr edi; gr esi; gr ebp; dummy; gr ebx; gr edx; gr ecx; gr eax] ++ [sr gs; sr fs; sr es; sr ds] ++ [v; err; gr ebp] ++ hw.

Lemma exit_run s f gr sr dummy v err ip fl sp st :
  let outer := 0 <? sr cs `mod` 4 in
  at_top s f (intr_frame gr sr dummy v err ([ip; sr cs; fl] ++ if outer then [sp; st] else [])) → 0 ≤ f → f + 80 < W32 →
  cpl s = 0 → (∀ r, 0 ≤ sr r < 65536) → 0 ≤ st < 65536 →
  let s' := run intr_exit s in
  (∀ r, r ≠ esp → s'.(regs) r = gr r) ∧ (∀ r, r ≠ ss → s'.(sregs) r = sr r) ∧ s'.(eip) = ip ∧ s'.(eflags) = fl ∧
  s'.(regs) esp = (if outer then sp else f + 72) ∧ s'.(sregs) ss = (if outer then st else s.(sregs) ss) ∧ s'.(memory) = s.(memory).
Proof.
  intros outer Ht H0 H1 Hc Hsr Hst. cbn zeta. unfold intr_exit. cbn [run].
  destruct (popal_run s f _ _ _ _ _ _ _ _ _ Ht H0 ltac:(lia)) as (T1 & M1 & S1 & _ & _ & V1 & V2 & V3 & V4 & V5 & V6 & V7).
  set (s1 := step Popal s) in *. clearbody s1. cbn [step].
  destruct (pop_seg_run s1 _ gs _ _ T1 ltac:(lia) ltac:(lia) (Hsr gs)) as [E2 T2]. rewrite E2 in *. set (s2 := set_sreg gs _ _) in *.
  destruct (pop_seg_run s2 _ fs _ _ T2 ltac:(lia) ltac:(lia) (Hsr fs)) as [E3 T3]. rewrite E3 in *. set (s3 := set_sreg fs _ _) in *.
  destruct (pop_seg_run s3 _ es _ _ T3 ltac:(lia) ltac:(lia) (Hsr es)) as [E4 T4]. rewrite E4 in *. set (s4 := set_sreg es _ _) in *.
  destruct (pop_seg_run s4 _ ds _ _ T4 ltac:(lia) ltac:(lia) (Hsr ds)) as [E5 T5]. rewrite E5 in *. set (s5 := set_sreg ds _ _) in *.
  replace (f + 32 + 4 + 4 + 4 + 4) with (f + 48) in T5 by lia. destruct T5 as [P5 Q5]. rewrite P5, u32_small by mlia. replace (f + 48 + 12) with (f + 60) by lia.
  destruct (stack_pop _ _ _ _ Q5) as [_ Q6]. destruct (stack_pop _ _ _ _ Q6) as [_ Q7]. destruct (stack_pop _ _ _ _ Q7) as [_ Q8].
  replace (f + 48 + 4 + 4 + 4) with (f + 60) in Q8 by lia.
  set (s6 := set_reg esp (f + 60) s5). assert (at_top s6 (f + 60) ([ip; sr cs; fl] ++ if outer then [sp; st] else [])) as T6 by (by split).
  unfold iret, pop_eip. destruct (pop_run s6 (f + 60) _ _ T6 ltac:(lia) ltac:(lia)) as [E7 T7]. rewrite E7. set (s7 := set_eip ip _) in *.
  destruct (pop_seg_run s7 (f + 60 + 4) cs _ _ T7 ltac:(lia) ltac:(lia) (Hsr cs)) as [E8 T8]. rewrite E8 in *. set (s8 := set_sreg cs _ _) in *.
  unfold pop_eflags. destruct (pop_run s8 (f + 60 + 4 + 4) _ _ T8 ltac:(lia) ltac:(lia)) as [E9 T9]. rewrite E9. set (s9 := set_eflags fl _) in *.
  assert (cpl s6 = 0) as C6. { unfold cpl. change (sregs s6 cs) with (sregs s1 cs). by rewrite S1. }
  assert (cpl s9 = sr cs `mod` 4) as C9 by done. rewrite C6, C9. fold outer.
  assert (∀ r, r ≠ esp → s9.(regs) r = gr r) as R9 by (intros r Hr; by destruct r).
  assert (∀ r, r ≠ ss → s9.(sregs) r = sr r) as S9 by (intros r Hr; by destruct r).
  assert (s9.(sregs) ss = s.(sregs) ss) as SS9 by (rewrite <- S1; reflexivity).
  assert (s9.(eip) = ip ∧ s9.(eflags) = fl ∧ s9.(memory) = s.(memory)) as (I9 & F9 & M9) by (rewrite <- M1; done).
  assert (s9.(regs) esp = f + 72) as P9 by (change (regs s9 esp) with (f + 60 + 4 + 4 + 4); lia).
  change (at_top s9 (f + 60 + 4 + 4 + 4) (if outer then [sp; st] else [])) in T9. clearbody s9. destruct outer; [|by split_and!].
  replace (f + 60 + 4 + 4 + 4) with (f + 72) in T9 by lia. destruct (pop_run s9 (f + 72) _ _ T9 ltac:(lia) ltac:(lia)) as [EA TA]. rewrite EA.
  destruct (pop_run _ _ _ _ TA ltac:(lia) ltac:(lia)) as [EB _]. rewrite EB. unfold u16. rewrite Z.mod_small by mlia. cbn.
  split_and!; try done; [intros r Hr; rewrite !decide_False by done; by apply R9|intros r Hr; rewrite decide_False by done; by apply S9].
Qed.

(** *** The way in *)

(** intr_entry up to the call of intr_handler. *)
Definition intr_entry_before : list instr :=
  [PushS ds; PushS es; PushS fs; PushS gs; Pushal; Cld; MovI SEL_KDSEG eax; MovRS eax ds; MovRS eax es; Lea 56 esp ebp; PushR esp].

(** What intr_handler sees: its argument is the address [f] of the frame. *)
Record at_handler (s x : state) (g : gate) (f v err : Z) (hw : list Z) : Prop := {
  ah_stack : at_top x (f - 4) (f :: intr_frame s.(regs) s.(sregs) (f + 32) v err hw);
  ah_data : x.(sregs) ds = SEL_KDSEG ∧ x.(sregs) es = SEL_KDSEG;
  ah_code : x.(sregs) cs = g.(g_selector);
  ah_ss : cpl s = 0 → x.(sregs) ss = s.(sregs) ss;
  ah_flags : x.(eflags) = Z.ldiff (if g.(g_type) =? 14 then Z.ldiff s.(eflags) FLAG_IF else s.(eflags)) FLAG_DF;
  ah_ebp : x.(regs) ebp = f + 56;
}.

Lemma push_segs_eq s : run [PushS ds; PushS es; PushS fs; PushS gs] s = push_all [s.(sregs) ds; s.(sregs) es; s.(sregs) fs; s.(sregs) gs] s.
Proof. cbn [run step push_all fold_left]. reflexivity. Qed.

Lemma pushal_eq s : let g := s.(regs) in run [Pushal] s = push_all [g eax; g ecx; g edx; g ebx; g esp; g ebp; g esi; g edi] s.
Proof. cbn [run step push_all fold_left]. reflexivity. Qed.

Definition kernel_data (s : state) : state :=
  set_sreg es SEL_KDSEG (set_sreg ds SEL_KDSEG (set_reg eax SEL_KDSEG (set_eflags (Z.ldiff s.(eflags) FLAG_DF) s))).

Lemma kernel_data_eq s : run [Cld; MovI SEL_KDSEG eax; MovRS eax ds; MovRS eax es] s = kernel_data s.
Proof. reflexivity. Qed.

Lemma entry_before_eq s : run intr_entry_before s =
  run [Lea 56 esp ebp; PushR esp] (kernel_data (run [Pushal] (run [PushS ds; PushS es; PushS fs; PushS gs] s))).
Proof.
  change intr_entry_before with ([PushS ds; PushS es; PushS fs; PushS gs] ++ [Pushal] ++ [Cld; MovI SEL_KDSEG eax; MovRS eax ds; MovRS eax es] ++ [Lea 56 esp ebp; PushR esp]).
  by rewrite !prog_run_app, kernel_data_eq.
Qed.

Lemma saved_regs_run s0 s g e v err hw : entered s0 s g → at_top s (e - 12) (v :: err :: s0.(regs) ebp :: hw) → 64 ≤ e < W32 →
  let s' := run [Pushal] (run [PushS ds; PushS es; PushS fs; PushS gs] s) in
  at_top s' (e - 60) (intr_frame s0.(regs) s0.(sregs) (e - 28) v err hw) ∧ entered s0 s' g.
Proof.
  intros HE Ht He. pose proof HE as [R0 D0 C0 S0 F0]. cbn zeta. rewrite push_segs_eq.
  destruct (push_all_run [s.(sregs) ds; s.(sregs) es; s.(sregs) fs; s.(sregs) gs] s (e - 12) _ Ht) as [T1 Q1]; [cbn [length]; lia|].
  cbn [length rev app] in T1. replace (e - 12 - 4 * Z.of_nat 4) with (e - 28) in T1 by lia. set (s1 := push_all _ s) in *. clearbody s1.
  rewrite pushal_eq. cbn zeta. pose proof T1 as [Ge _]. pose proof Q1 as [G1 _].
  destruct (push_all_run [s1.(regs) eax; s1.(regs) ecx; s1.(regs) edx; s1.(regs) ebx; s1.(regs) esp; s1.(regs) ebp; s1.(regs) esi; s1.(regs) edi] s1 (e - 28) _ T1) as [P2 Q2]; [cbn [length]; lia|].
  cbn [length rev app] in P2. replace (e - 28 - 4 * Z.of_nat 8) with (e - 60) in P2 by lia. set (s2 := push_all _ s1) in *. clearbody s2.
  rewrite Ge, !G1, !R0, !D0 in P2 by (done || by_decide). split; [exact P2|]. apply (entered_same s0 s1); [by apply (entered_same s0 s)|done].
Qed.

Lemma kernel_data_facts s : let s' := kernel_data s in
  s'.(regs) esp = s.(regs) esp ∧ s'.(memory) = s.(memory) ∧ s'.(sregs) ds = SEL_KDSEG ∧ s'.(sregs) es = SEL_KDSEG ∧
  s'.(sregs) cs = s.(sregs) cs ∧ s'.(sregs) ss = s.(sregs) ss ∧ s'.(eflags) = Z.ldiff s.(eflags) FLAG_DF.
Proof. done. Qed.

Lemma set_reg_facts r v s : let s' := set_reg r v s in
  s'.(regs) r = v ∧ (∀ r', r' ≠ r → s'.(regs) r' = s.(regs) r') ∧ s'.(sregs) = s.(sregs) ∧ s'.(eflags) = s.(eflags) ∧ s'.(memory) = s.(memory).
Proof. split_and!; try done; cbn; [by rewrite decide_True|intros r' Hr; by rewrite decide_False]. Qed.

Lemma entry_call_eq s f : s.(regs) esp = f → 0 ≤ f → f + 56 < W32 →
  run [Lea 56 esp ebp; PushR esp] s = push f (set_reg ebp (f + 56) s).
Proof. intros He H0 H1. cbn [run step]. rewrite He, u32_small by mlia. by f_equal. Qed.

Lemma entry_handler_run s0 s g e v err hw : entered s0 s g → at_top s (e - 12) (v :: err :: s0.(regs) ebp :: hw) → 64 ≤ e < W32 →
  at_handler s0 (run intr_entry_before s) g (e - 60) v err hw.
Proof.
  intros HE Ht He. destruct (saved_regs_run s0 s g e v err hw HE Ht He) as [[P2 P3] [_ _ C2 S2 F2]]. rewrite entry_before_eq.
  set (s2 := run [Pushal] _) in *. clearbody s2. destruct (kernel_data_facts s2) as (P4 & M3 & A1 & A2 & A3 & A4 & A5).
  set (s3 := kernel_data s2) in *. clearbody s3. rewrite (entry_call_eq s3 (e - 60)) by (mlia || congruence).
  destruct (set_reg_facts ebp (e - 60 + 56) s3) as (B1 & B2 & B3 & B4 & B5). set (s4 := set_reg ebp _ s3) in *. clearbody s4.
  destruct (push_same (e - 60) s4) as (Q1 & Q2 & _ & Q4). assert (regs s4 esp = e - 60) as P5 by (rewrite B2 by done; congruence).
  split; rewrite ?Q2, ?B3.
  - replace (e - 60 + 32) with (e - 28) by lia. apply push_top; [|mlia]. split; [exact P5|]. by rewrite B5, M3.
  - by split.
  - by rewrite A3.
  - intros Hc. rewrite A4. by apply S2.
  - by rewrite Q4, B4, A5, F2.
  - by rewrite Q1.
Qed.

(** *** From the interrupt to the handler and back *)

(** Vectors whose stub does not expect what the processor pushes. *)
Definition mismatched : list Z := [12; 24; 26; 27; 29; 30].

Lemma stubs_match v : v ∉ mismatched → v ∈ REAL_stubs ↔ v ∈ error_code_vectors.
Proof. unfold mismatched, REAL_stubs, error_code_vectors. set_solver. Qed.

(** An interrupt from user mode changes the stack. *)
Definition from_user (s : state) : bool := 0 <? cpl s.
Definition stack_top (esp0 : Z) (s : state) : Z := if from_user s then esp0 else s.(regs) esp.

Lemma saved_length b s : zlen (saved b s) = if b then 5 else 3.
Proof. by destruct b. Qed.

Section Interrupt.
Context (g : gate) (ss0 esp0 v entry : Z) (err : option Z) (handler : state → state) (s : state).

(** The interrupt of vector [v] through its gate and its stub. *)
Definition interrupted : state := run (STUB v entry) (deliver g ss0 esp0 err s).
Definition handled : state := run intr_exit (run (intr_entry handler) interrupted).

(** The address of the frame. *)
Definition frame_addr : Z := stack_top esp0 s - 4 * zlen (saved (from_user s) s) - 60.

Context (Hg : g.(g_selector) = SEL_KCSEG) (Htop : 84 ≤ stack_top esp0 s) (Htop' : stack_top esp0 s + 8 < W32).

Lemma reaches_handler : (v ∈ REAL_stubs ↔ is_Some err) →
  at_handler s (run intr_entry_before interrupted) g frame_addr v (default 0 err) (saved (from_user s) s).
Proof.
  intros Hv. destruct (deliver_run g ss0 esp0 err s Hg) as (T1 & E1 & _); [change (80 ≤ stack_top esp0 s < W32); lia|].
  change (if 0 <? cpl s then esp0 else s.(regs) esp) with (stack_top esp0 s) in T1. change (0 <? cpl s) with (from_user s) in T1.
  assert (0 ≤ zlen (saved (from_user s) s) ≤ 5) as Hl by (rewrite saved_length; destruct (from_user s); lia).
  set (e := stack_top esp0 s - 4 * zlen (saved (from_user s) s)) in *. rewrite length_app in T1.
  replace (stack_top esp0 s - 4 * Z.of_nat (length (error_words err) + length (saved (from_user s) s))) with (e - 4 * zlen (error_words err)) in T1 by (unfold e; lia).
  destruct (stub_run v entry s _ g err e (saved (from_user s) s) Hv E1 T1) as (T2 & E2 & _); [unfold e; lia|].
  rewrite (et_regs _ _ _ E1 ebp) in T2 by done. fold interrupted in T2, E2. unfold frame_addr. fold e.
  apply entry_handler_run; [done..|]. unfold e. lia.
Qed.

(** A handler that returns, and leaves in the frame [a] for eax. *)
Definition returns (a : Z) : Prop :=
  let x := run intr_entry_before interrupted in
  (handler x).(regs) esp = x.(regs) esp ∧ (∀ r, (handler x).(sregs) r = x.(sregs) r) ∧
  stack_at (handler x).(memory) frame_addr (<[7%nat := a]> (intr_frame s.(regs) s.(sregs) (frame_addr + 32) v (default 0 err) (saved (from_user s) s))).

Lemma handled_run a : (v ∈ REAL_stubs ↔ is_Some err) → (∀ r, 0 ≤ s.(sregs) r < 65536) → returns a →
  handled.(regs) eax = a ∧ (∀ r, r ≠ eax → handled.(regs) r = s.(regs) r) ∧ (∀ r, handled.(sregs) r = s.(sregs) r) ∧
  handled.(eip) = s.(eip) ∧ handled.(eflags) = s.(eflags).
Proof.
  intros Hv Hsr (R1 & R2 & R3). pose proof (reaches_handler Hv) as HH.
  destruct (ah_stack _ _ _ _ _ _ _ HH) as [X1 _]. pose proof (ah_code _ _ _ _ _ _ _ HH) as XC. pose proof (ah_ss _ _ _ _ _ _ _ HH) as XS. clear HH.
  set (x := run intr_entry_before interrupted) in *.
  assert (run (intr_entry handler) interrupted = set_reg esp (u32 ((handler x).(regs) esp + 4)) (handler x)) as Ee.
  { change (intr_entry handler) with (intr_entry_before ++ [Call handler; AddI 4 esp]). by rewrite prog_run_app. }
  unfold handled. rewrite Ee, R1, X1. set (f := frame_addr) in *.
  assert (0 ≤ zlen (saved (from_user s) s) ≤ 5 ∧ zlen (saved (from_user s) s) = if from_user s then 5 else 3) as [Hl Hl'] by (rewrite saved_length; destruct (from_user s); lia).
  assert (f = stack_top esp0 s - 4 * zlen (saved (from_user s) s) - 60) as Ef by done. rewrite u32_small by mlia. replace (f - 4 + 4) with f by lia.
  set (y := handler x) in *. clearbody x y. destruct (set_reg_facts esp f y) as (B1 & _ & B3 & _ & B5). set (z := set_reg esp f y) in *. clearbody z.
  pose proof (exit_run z f (λ r, if decide (r = eax) then a else s.(regs) r) s.(sregs) (f + 32) v (default 0 err) s.(eip) s.(eflags) (s.(regs) esp) (s.(sregs) ss)) as HX.
  assert ((0 <? sregs s cs `mod` 4) = from_user s) as Eo by done. rewrite Eo in HX.
  destruct HX as (H1 & H2 & H3 & H4 & H5 & H6 & _); [split; [exact B1|rewrite B5; exact R3]|lia|rewrite Ef, Hl'; destruct (from_user s); lia|unfold cpl; by rewrite B3, R2, XC, Hg|done|done|].
  split_and!; [by apply (H1 eax)| | |done|done].
  - intros r Hr. destruct (decide (r = esp)) as [->|Hn]; [|rewrite H1 by done; by rewrite decide_False].
    rewrite H5. unfold stack_top in Ef. destruct (from_user s); [done|lia].
  - intros r. destruct (decide (r = ss)) as [->|Hn]; [|by apply H2]. rewrite H6. destruct (from_user s) eqn:Eout; [done|]. rewrite B3, R2. apply XS.
    unfold from_user in Eout. apply Z.ltb_ge in Eout. unfold cpl in *. dm_lia.
Qed.
End Interrupt.

(** Property C18.  An interrupt, exception or system call reaches intr_handler with the
    address of a struct intr_frame that holds the registers of the interrupted code, the
    vector, the error code of the processor or 0, and the return address, code segment,
    flags and, from user mode, the stack of the interrupted code; the handler runs on the
    kernel data segment.  If the handler returns and leaves the frame alone except for
    the value of eax, the interrupted code continues with that value in eax and every
    other register, segment and flag as it was. *)
Theorem interrupt_returns g ss0 esp0 v entry err handler s a :
  g.(g_selector) = SEL_KCSEG → 84 ≤ stack_top esp0 s → stack_top esp0 s + 8 < W32 →
  v ∉ mismatched → (is_Some err ↔ v ∈ error_code_vectors) → (∀ r, 0 ≤ s.(sregs) r < 65536) →
  let i := interrupted g ss0 esp0 v entry err s in
  let s' := handled g ss0 esp0 v entry err handler s in
  at_handler s (run intr_entry_before i) g (frame_addr esp0 s) v (default 0 err) (saved (from_user s) s) ∧
  (returns g ss0 esp0 v entry err handler s a →
    s'.(regs) eax = a ∧ (∀ r, r ≠ eax → s'.(regs) r = s.(regs) r) ∧ (∀ r, s'.(sregs) r = s.(sregs) r) ∧
    s'.(eip) = s.(eip) ∧ s'.(eflags) = s.(eflags)).
Proof.
  intros Hg Ht Ht' Hv He Hs. assert (v ∈ REAL_stubs ↔ is_Some err) as Hm by (rewrite (stubs_match v Hv); by rewrite He).
  split; [by apply reaches_handler|]. intros Hr. by apply handled_run.
Qed.

(** Property C19.  The stub of vector 12 pushes an error code of its own although the
    processor has pushed one for this exception: in the frame of a stack fault the field
    eip holds the error code, the field cs the address of the faulting instruction and
    the field eflags the code segment. *)
Theorem stack_fault_frame g ss0 esp0 entry c s :
  g.(g_selector) = SEL_KCSEG → 88 ≤ stack_top esp0 s → stack_top esp0 s + 8 < W32 →
  at_handler s (run intr_entry_before (interrupted g ss0 esp0 12 entry (Some c) s)) g (frame_addr esp0 s - 4) 12 0
    ([c; s.(eip); s.(sregs) cs; s.(eflags)] ++ if from_user s then [s.(regs) esp; s.(sregs) ss] else []).
Proof.
  intros Hg Ht Ht'. destruct (deliver_run g ss0 esp0 (Some c) s Hg) as (T1 & E1 & _); [change (80 ≤ stack_top esp0 s < W32); lia|].
  change (if 0 <? cpl s then esp0 else s.(regs) esp) with (stack_top esp0 s) in T1. change (0 <? cpl s) with (from_user s) in T1.
  rewrite length_app in T1. cbn [error_words length] in T1.
  set (e := stack_top esp0 s - 4 * Z.of_nat (1 + length (saved (from_user s) s))) in *.
  assert (0 ≤ zlen (saved (from_user s) s) ≤ 5) as Hl by (rewrite saved_length; destruct (from_user s); lia).
  destruct (stub_run 12 entry s (deliver g ss0 esp0 (Some c) s) g None e ([c] ++ saved (from_user s) s)) as (T2 & E2 & _); [|exact E1| |unfold e; lia|].
  { split; [|by intros []]. unfold REAL_stubs. set_solver. }
  { cbn [error_words length app]. replace (e - 4 * Z.of_nat 0) with e by lia. exact T1. }
  rewrite (et_regs _ _ _ E1 ebp) in T2 by done. fold (interrupted g ss0 esp0 12 entry (Some c) s) in T2, E2.
  replace (frame_addr esp0 s - 4) with (e - 60) by (unfold frame_addr, e; lia). cbn [default] in T2.
  apply entry_handler_run; [done|exact T2|]. unfold e. lia.
Qed.

(** ** System calls from user programs *)

Definition arg_value (s : state) (a : arg) : Z := match a with ArgI v => v | ArgR r => s.(regs) r end.
Definition arg_ok (a : arg) : Prop := match a with ArgI _ => True | ArgR r => r ≠ esp end.

Lemma push_arg_eq a s : step (push_arg a) s = push (arg_value s a) s.
Proof. by destruct a. Qed.

Lemma arg_value_same s s' a : same_regs s s' → arg_ok a → arg_value s' a = arg_value s a.
Proof. intros [Hr _]. destruct a as [v|r]; [done|]. apply Hr. Qed.

Lemma fmap_rev_eq {A B} (f : A → B) l : f <$> rev l = rev (f <$> l).
Proof. induction l as [|x l IH]; [done|]. cbn [rev fmap list_fmap]. by rewrite fmap_app, IH. Qed.

(** Pushing arguments, then the system call, then dropping them again. *)
Lemma syscall_run kernel args number s e : s.(regs) esp = e → 4 * (zlen args + 1) ≤ e < W32 → Forall arg_ok args →
  (∀ x, (kernel x).(regs) esp = x.(regs) esp) →
  ∃ x, run ((push_arg <$> rev args) ++ [PushI number; Int kernel; AddI (4 * (zlen args + 1)) esp]) s = set_reg esp e (kernel x) ∧
    at_top x (e - 4 * (zlen args + 1)) (number :: (arg_value s <$> args)) ∧ same_regs s x.
Proof.
  intros He Hr Ha Hk.
  assert (∀ l s1 e1 ws, Forall arg_ok l → same_regs s s1 → at_top s1 e1 ws → 4 * zlen l ≤ e1 < W32 →
    let s2 := run (push_arg <$> l) s1 in at_top s2 (e1 - 4 * zlen l) (rev (arg_value s <$> l) ++ ws) ∧ same_regs s s2) as Hpush.
  { induction l as [|a l IH]; intros s1 e1 ws Hl Hs Ht Hb.
    - cbn zeta. replace (e1 - 4 * zlen ([] : list arg)) with e1 by (cbn; lia). by split.
    - apply Forall_cons in Hl as [Hl1 Hl2]. cbn [length] in Hb. cbn [fmap list_fmap run]. rewrite push_arg_eq, (arg_value_same s s1 a Hs Hl1).
      assert (same_regs s (push (arg_value s a) s1)) as Hs'.
      { destruct Hs as (S1 & S2 & S3 & S4). destruct (push_same (arg_value s a) s1) as (Q1 & Q2 & Q3 & Q4).
        split_and!; [|congruence..]. intros r Hn. by rewrite Q1, S1. }
      destruct (IH (push (arg_value s a) s1) (e1 - 4) (arg_value s a :: ws) Hl2 Hs') as [I1 I2]; [by apply push_top; [|lia]|lia|].
      cbn zeta. split; [|exact I2]. cbn [rev length]. rewrite <- app_assoc. by replace (e1 - 4 * Z.of_nat (S (length l))) with (e1 - 4 - 4 * zlen l) by lia. }
  destruct (Hpush (rev args) s e []) as [P1 P2]; [by apply Forall_rev|by split_and!|split; [done|apply stack_nil]|rewrite length_rev; lia|].
  rewrite length_rev, (fmap_rev_eq (arg_value s)), rev_involutive, app_nil_r in P1. rewrite prog_run_app. set (s1 := run _ s) in *. clearbody s1. cbn [run step].
  destruct (push_top s1 _ _ number P1) as [T1 T2]; [lia|]. exists (push number s1). rewrite Hk, T1, u32_small by mlia.
  replace (e - 4 * zlen args - 4 + 4 * (zlen args + 1)) with e by lia. replace (e - 4 * (zlen args + 1)) with (e - 4 * zlen args - 4) by lia.
  split; [done|]. split; [by split|]. destruct P2 as (S1 & S2 & S3 & S4). destruct (push_same number s1) as (Q1 & Q2 & Q3 & Q4).
  split_and!; [|congruence..]. intros r Hn. by rewrite Q1, S1.
Qed.

(** At the interrupt of a system call the stack of the user program holds
    the number of the call and its arguments in order, which is where the handlers of
    userprog/syscall.c read them; afterwards the stack pointer is what it was, and the
    result is in eax as the kernel left it. *)
Theorem syscall_layout kernel number a0 a1 a2 s e :
  s.(regs) esp = e → 16 ≤ e < W32 → Forall arg_ok [a0; a1; a2] → (∀ x, (kernel x).(regs) esp = x.(regs) esp) →
  let val := arg_value s in
  (∃ x, run (syscall0 kernel number) s = set_reg esp e (kernel x) ∧ at_top x (e - 4) [number] ∧ same_regs s x) ∧
  (∃ x, run (syscall1 kernel number a0) s = set_reg esp e (kernel x) ∧ at_top x (e - 8) [number; val a0] ∧ same_regs s x) ∧
  (∃ x, run (syscall2 kernel number a0 a1) s = set_reg esp e (kernel x) ∧ at_top x (e - 12) [number; val a0; val a1] ∧ same_regs s x) ∧
  (∃ x, run (syscall3 kernel number a0 a1 a2) s = set_reg esp e (kernel x) ∧ at_top x (e - 16) [number; val a0; val a1; val a2] ∧ same_regs s x).
Proof.
  intros He Hr Ha Hk. cbn zeta. rewrite !Forall_cons in Ha. destruct Ha as (A0 & A1 & A2 & _). split_and!.
  - exact (syscall_run kernel [] number s e He ltac:(cbn [length]; lia) (Forall_nil_2 _) Hk).
  - exact (syscall_run kernel [a0] number s e He ltac:(cbn [length]; lia) ltac:(by repeat constructor) Hk).
  - exact (syscall_run kernel [a0; a1] number s e He ltac:(cbn [length]; lia) ltac:(by repeat constructor) Hk).
  - exact (syscall_run kernel [a0; a1; a2] number s e He ltac:(cbn [length]; lia) ltac:(by repeat constructor) Hk).
Qed.

(** ** Witnesses *)

Definition write_words (m : words) (a : Z) (ws : list Z) : words :=
  fst (fold_left (λ ma w, (upd (fst ma) (snd ma) w, snd ma + 4)) ws (m, a)).

(** Closes [stack_at] for a concrete memory. *)
Ltac concrete_stack := let k := fresh in let w := fresh in let H := fresh in
  intros k w H; repeat (destruct k as [|k]; [injection H as <-; vm_compute; reflexivity|]); discriminate H.

Definition page1 : Z := 3222274048.
Definition page2 : Z := 3222278144.
Definition page3 : Z := 3222282240.
Definition ofs_at : Z := 3221245952.

Definition start_memory : words :=
  write_words (write_words (write_words (upd (λ _, 0) ofs_at 24) (page2 + 24) [page2 + 4000]) (page2 + 4000) [1; 2; 3; 4; 3222300000])
    (page1 + 4000) [3222300100; page1; page2].

Definition start_state : state := State (λ r, match r with esp => page1 + 4000 | ebx => 11 | ebp => 12 | esi => 13 | edi => 14 | _ => 0 end) (λ _, 8) 0 2 start_memory.

Definition later_state : state :=
  State (λ r, match r with esp => page3 + 4000 | _ => 99 end) (λ _, 8) 0 2
    (write_words (run (switch_threads ofs_at) start_state).(memory) (page3 + 4000) [3222300200; page3; page1]).

Lemma start_calls : calls_switch 24 ofs_at start_state (page1 + 4000) 3222300100 page1 page2.
Proof. split; [split; [reflexivity|concrete_stack]|]. split; [reflexivity|]. split; [unfold on_page, page1, ofs_at; split_and!; first [done | mlia]|done]. Qed.

Lemma start_can_run : can_run 24 start_state.(memory) page2 (page2 + 4000) 1 2 3 4 3222300000.
Proof. unfold can_run. split_and!; [done..|]. split; [reflexivity|concrete_stack]. Qed.

Lemma later_calls : calls_switch 24 ofs_at later_state (page3 + 4000) 3222300200 page3 page1.
Proof. split; [split; [reflexivity|concrete_stack]|]. split; [reflexivity|]. split; [unfold on_page, page3, ofs_at; split_and!; first [done | mlia]|done]. Qed.

Lemma write_words_out ws : ∀ m a b, (b < a ∨ a + 4 * zlen ws ≤ b) → write_words m a ws b = m b.
Proof.
  unfold write_words. induction ws as [|w ws IH]; intros m a b Hb; [done|]. cbn [length] in Hb. cbn [fold_left fst snd]. rewrite IH by lia. apply upd_ne. lia.
Qed.

Lemma switch_returns_witness :
  calls_switch 24 ofs_at start_state (page1 + 4000) 3222300100 page1 page2 ∧
  calls_switch 24 ofs_at later_state (page3 + 4000) 3222300200 page3 page1 ∧
  (run (switch_threads ofs_at) later_state).(eip) = 3222300100 ∧ (run (switch_threads ofs_at) later_state).(regs) ebx = 11.
Proof.
  split; [exact start_calls|]. split; [exact later_calls|].
  destruct (switch_returns 24 ofs_at ltac:(lia) _ _ _ _ _ _ _ _ _ _ _ _ _ _ _ start_calls start_can_run later_calls) as (H1 & _ & _ & H2 & _).
  - intros b Hb. apply write_words_out. left. unfold page1, page3 in *. lia.
  - split; [exact H1|exact H2].
Defined.

Lemma new_thread_starts_witness : ∃ s, calls_switch 24 ofs_at s (page1 + 4000) 3222300100 page1 page2 ∧ thread_page 24 page2 ∧
  (run (switch_entry (λ x, x)) (run (switch_threads ofs_at) s)).(eip) = 3222301000.
Proof.
  pose (s := State start_state.(regs) (λ _, 8) 0 2 (first_stack page2 24 3222302000 77 3222300500 3222301000 start_memory)).
  assert (calls_switch 24 ofs_at s (page1 + 4000) 3222300100 page1 page2) as Hc.
  { split; [split; [reflexivity|concrete_stack]|]. split; [reflexivity|]. split; [unfold on_page, page1, ofs_at; split_and!; first [done | mlia]|done]. }
  assert (thread_page 24 page2) as Hp by (unfold thread_page, page2; split_and!; done).
  exists s. split; [exact Hc|]. split; [exact Hp|].
  destruct (new_thread_starts 24 ofs_at ltac:(lia) s _ _ _ _ 3222302000 77 3222300500 3222301000 (λ x, x) start_memory Hc Hp) as (_ & _ & H & _); [by intros x _|done|exact H].
Defined.

Definition user_state : state := State (λ r, match r with esp => 3221225000 | eax => 5 | _ => 6 end) (λ r, match r with cs => 27 | _ => 35 end) 134512640 518 (λ _, 0).
Definition trap : gate := Gate 3222300768 SEL_KCSEG 15 3 true.

Lemma interrupt_returns_witness :
  let s' := handled trap SEL_KDSEG (page1 + 4096) 48 3222300900 None (λ x, set_word (frame_addr (page1 + 4096) user_state + 28) 42 x) user_state in
  s'.(regs) eax = 42 ∧ s'.(regs) esp = 3221225000 ∧ s'.(eip) = 134512640.
Proof.
  destruct (interrupt_returns trap SEL_KDSEG (page1 + 4096) 48 3222300900 None (λ x, set_word (frame_addr (page1 + 4096) user_state + 28) 42 x) user_state 42) as [_ H];
    [reflexivity|by vm_compute|by vm_compute|by_decide| |intros []; by vm_compute|].
  - split; [by intros []|]. unfold error_code_vectors. set_solver.
  - destruct H as (H1 & H2 & _ & H3 & _).
    + split; [vm_compute; reflexivity|]. split; [intros []; vm_compute; reflexivity|concrete_stack].
    + split; [exact H1|]. split; [exact (H2 esp ltac:(done))|exact H3].
Defined.

Lemma stack_fault_frame_witness : stack_at (run intr_entry_before (interrupted trap SEL_KDSEG (page1 + 4096) 12 3222300900 (Some 7) user_state)).(memory)
  (frame_addr (page1 + 4096) user_state + 56) [7; 134512640; 27].
Proof.
  destruct (stack_fault_frame trap SEL_KDSEG (page1 + 4096) 3222300900 7 user_state) as [[_ H] _ _ _ _ _]; [reflexivity|by vm_compute|by vm_compute|].
  intros k w Hk. specialize (H (16 + k)%nat w). destruct k as [|[|[|k]]]; [| | |discriminate Hk]; exact (H Hk).
Defined.

Lemma syscall_layout_witness : ∃ x, run (syscall1 (λ x, set_reg eax 3 x) 6 (ArgR ebx)) user_state = set_reg esp 3221225000 (set_reg eax 3 x) ∧ at_top x (3221225000 - 8) [6; 6].
Proof.
  destruct (syscall_layout (λ x, set_reg eax 3 x) 6 (ArgR ebx) (ArgI 0) (ArgI 0) user_state 3221225000) as (_ & (x & H1 & H2 & _) & _);
    [reflexivity|done|repeat constructor; discriminate|reflexivity|].
  exists x. split; [exact H1|exact H2].
Defined.
