(* ===== verification/Intq.v ===== *)
(** * Interrupt queues

    devices/intq.c: a ring of bytes between threads and interrupt handlers.  Threads wait
    in it with interrupts off, so that a thread runs from one point where it can block to
    the next without interruption; the model has one step for each such stretch.  The
    labels of the steps choose which thread runs, which waiter of the lock is woken and
    which interrupts come in between. *)

From S2P Require Import Prelude.
Local Open Scope Z_scope.

(** ** The ring *)

Definition INTQ_BUFSIZE : Z := 64.

Record intq := Intq { not_full : Z; not_empty : Z; buf : list Z; head : Z; tail : Z }.

Definition next (pos : Z) : Z := (pos + 1) `mod` INTQ_BUFSIZE.
Definition intq_empty (q : intq) : bool := q.(head) =? q.(tail).
Definition intq_full (q : intq) : bool := next q.(head) =? q.(tail).
Definition intq_init (buf : list Z) : intq := Intq NULL NULL buf 0 0.

(** The end of intq_getc and intq_putc, without the call of signal. *)
Definition take_byte (q : intq) : res (Z * intq) :=
  match q.(buf) !! Z.to_nat q.(tail) with
  | Some b => Ok (b, Intq q.(not_full) q.(not_empty) q.(buf) q.(head) (next q.(tail)))
  | None => Err Fault
  end.

Definition add_byte (b : Z) (q : intq) : intq :=
  Intq q.(not_full) q.(not_empty) (<[Z.to_nat q.(head) := u8 b]> q.(buf)) (next q.(head)) q.(tail).

(** ** Threads in the queue *)

Inductive op := Get | Put (b : Z).

Inductive pc :=
  | Out (got : option Z)   (* not in the queue; the last byte it got *)
  | Test (o : op)          (* before the test of the loop *)
  | Acquire (o : op)       (* blocked in lock_acquire *)
  | Retry (o : op)         (* woken in lock_acquire: tests the lock again *)
  | Asleep (o : op)        (* blocked in wait *)
  | Awake (o : op).        (* woken in wait: releases the lock *)

(** [history] is the bytes added so far, [taken] the bytes removed. *)
Record st := St { q : intq; lock_free : bool; pcs : gmap Z pc; history : list Z; taken : list Z }.

Definition set_q (f : intq → intq) (σ : st) : st := St (f σ.(q)) σ.(lock_free) σ.(pcs) σ.(history) σ.(taken).
Definition set_pc (t : Z) (p : pc) (σ : st) : st := St σ.(q) σ.(lock_free) (<[t := p]> σ.(pcs)) σ.(history) σ.(taken).
Definition set_lock (b : bool) (σ : st) : st := St σ.(q) b σ.(pcs) σ.(history) σ.(taken).

Definition wakes (p : pc) : pc := match p with Asleep o => Awake o | p => p end.

(** [signal]: wakes the thread that waits for the queue to be no longer empty or full. *)
Definition signal (full : bool) (σ : st) : res st :=
  let w := if full then σ.(q).(not_full) else σ.(q).(not_empty) in
  if (if full then intq_full σ.(q) else intq_empty σ.(q)) then Err AssertFail
  else if w =? NULL then Ok σ
  else
    match σ.(pcs) !! w with
    | Some (Asleep o) =>
        Ok (set_q (λ q, if full then Intq NULL q.(not_empty) q.(buf) q.(head) q.(tail) else Intq q.(not_full) NULL q.(buf) q.(head) q.(tail))
          (set_pc w (Awake o) σ))
    | _ => Err AssertFail
    end.

(** The queue lets the operation through. *)
Definition ready (o : op) (q : intq) : bool := match o with Get => negb (intq_empty q) | Put _ => negb (intq_full q) end.

(** The part of intq_getc and intq_putc behind the loop. *)
Definition finish (o : op) (σ : st) : res (option Z * st) :=
  match o with
  | Get =>
      rbind (take_byte σ.(q)) (λ bq,
      rbind (signal true (St (snd bq) σ.(lock_free) σ.(pcs) σ.(history) (σ.(taken) ++ [fst bq]))) (λ σ,
      Ok (Some (fst bq), σ)))
  | Put b =>
      rbind (signal false (St (add_byte b σ.(q)) σ.(lock_free) σ.(pcs) (σ.(history) ++ [u8 b]) σ.(taken))) (λ σ,
      Ok (None, σ))
  end.

(** [wait] up to thread_block; the thread has the lock. *)
Definition wait (t : Z) (o : op) (σ : st) : res st :=
  if ready o σ.(q) then Err AssertFail
  else
    let set := λ q, match o with Get => Intq q.(not_full) t q.(buf) q.(head) q.(tail) | Put _ => Intq t q.(not_empty) q.(buf) q.(head) q.(tail) end in
    Ok (set_q set (set_pc t (Asleep o) σ)).

(** lock_acquire: the thread goes on to wait if the lock is free, and blocks otherwise. *)
Definition acquire (t : Z) (o : op) (σ : st) : res st :=
  if σ.(lock_free) then wait t o (set_lock false σ) else Ok (set_pc t (Acquire o) σ).

(** lock_release: [w] is the waiter that sema_up chooses. *)
Definition release (w : Z) (σ : st) : st :=
  let σ := set_lock true σ in
  match σ.(pcs) !! w with
  | Some (Acquire o) => set_pc w (Retry o) σ
  | _ => σ
  end.

Inductive label :=
  | Call (t : Z) (o : op)    (* thread [t] calls intq_getc or intq_putc *)
  | Run (t w : Z)            (* thread [t] runs until it blocks or leaves the loop *)
  | Irq (o : op).            (* an interrupt handler calls intq_getc or intq_putc *)

Definition step (l : label) (σ : st) : res st :=
  match l with
  | Call t o => match σ.(pcs) !! t with Some (Out _) => Ok (set_pc t (Test o) σ) | _ => Ok σ end
  | Run t w =>
      match σ.(pcs) !! t with
      | Some (Test o) =>
          if ready o σ.(q) then rbind (finish o σ) (λ bσ, Ok (set_pc t (Out (fst bσ)) (snd bσ)))
          else acquire t o σ
      | Some (Retry o) => acquire t o σ
      | Some (Awake o) => Ok (set_pc t (Test o) (release w σ))
      | _ => Ok σ
      end
  | Irq o =>
      if ready o σ.(q) then rbind (finish o σ) (λ bσ, Ok (snd bσ))
      else Err AssertFail
  end.

Fixpoint run (ls : list label) (σ : st) : res st :=
  match ls with
  | [] => Ok σ
  | l :: ls => rbind (step l σ) (run ls)
  end.

(** ** The ring holds a sequence *)

Definition count (q : intq) : Z := (q.(head) - q.(tail)) `mod` INTQ_BUFSIZE.

(** The bytes from the tail to the head. *)
Definition contents (q : intq) : list Z :=
  (λ i, default 0 (q.(buf) !! Z.to_nat ((q.(tail) + i) `mod` INTQ_BUFSIZE))) <$> seqZ 0 (count q).

Record ring (q : intq) : Prop := {
  rg_head : 0 ≤ q.(head) < 64;
  rg_tail : 0 ≤ q.(tail) < 64;
  rg_buf : length q.(buf) = 64%nat;
}.

Lemma contents_length q : ring q → zlen (contents q) = count q.
Proof. intros _. unfold contents. rewrite length_fmap, length_seqZ. unfold count, INTQ_BUFSIZE. dm_lia. Qed.

Lemma empty_spec q : ring q → intq_empty q = true ↔ contents q = [].
Proof.
  intros HR. pose proof HR as [H1 H2 H3]. pose proof (contents_length q HR) as HL. unfold intq_empty. rewrite Z.eqb_eq. unfold count, INTQ_BUFSIZE in HL. split.
  - intros E. apply length_zero_iff_nil. rewrite E, Z.sub_diag in HL. change (0 `mod` 64) with 0 in HL. lia.
  - intros E. rewrite E in HL. change (zlen []) with 0 in HL. dm_lia.
Qed.

Lemma full_spec q : ring q → intq_full q = true ↔ zlen (contents q) = 63.
Proof.
  intros HR. pose proof HR as [H1 H2 H3]. rewrite (contents_length q HR). unfold intq_full, next, count, INTQ_BUFSIZE. rewrite Z.eqb_eq. dm_lia.
Qed.

Lemma contents_bound q : ring q → zlen (contents q) ≤ 63.
Proof. intros HR. rewrite (contents_length q HR). unfold count, INTQ_BUFSIZE. dm_lia. Qed.

(** Removing the first byte. *)
Lemma take_ring q : ring q → intq_empty q = false →
  ∃ b q', take_byte q = Ok (b, q') ∧ ring q' ∧ contents q = b :: contents q' ∧ q'.(not_full) = q.(not_full) ∧ q'.(not_empty) = q.(not_empty) ∧ intq_full q' = false.
Proof.
  intros HR Hne. pose proof HR as [H1 H2 H3]. destruct (lookup_lt_is_Some_2 q.(buf) (Z.to_nat q.(tail))) as [b Hb]; [lia|].
  exists b, (Intq q.(not_full) q.(not_empty) q.(buf) q.(head) (next q.(tail))). unfold take_byte. rewrite Hb.
  apply Z.eqb_neq in Hne. assert (count q = 1 + count (Intq q.(not_full) q.(not_empty) q.(buf) q.(head) (next q.(tail)))) as Ec.
  { unfold count, next, INTQ_BUFSIZE. cbn. dm_lia. }
  split_and!; [done| | |done|done|].
  - split; cbn; [done| |done]. unfold next, INTQ_BUFSIZE. dm_lia.
  - unfold contents. rewrite Ec. rewrite seqZ_app by (unfold count, INTQ_BUFSIZE; dm_lia). rewrite fmap_app. change (seqZ 0 1) with [0]. cbn [fmap list_fmap app].
    f_equal; [cbn; rewrite Z.add_0_r, Z.mod_small by (unfold INTQ_BUFSIZE; lia); by rewrite Hb|].
    set (c := count _). change (0 + 1) with (1 + 0). rewrite <- (fmap_add_seqZ 1 0 c), <- list_fmap_compose. apply list_fmap_ext. intros i x Hx. cbn.
    apply lookup_seqZ in Hx as [-> Hx]. do 3 f_equal. unfold next, INTQ_BUFSIZE. dm_lia.
  - unfold intq_full. cbn. apply Z.eqb_neq. unfold next, INTQ_BUFSIZE in *. dm_lia.
Qed.

(** Adding a byte at the end. *)
Lemma add_ring q b : ring q → intq_full q = false →
  ring (add_byte b q) ∧ contents (add_byte b q) = contents q ++ [u8 b] ∧ intq_empty (add_byte b q) = false.
Proof.
  intros HR Hnf. pose proof HR as [H1 H2 H3]. apply Z.eqb_neq in Hnf.
  assert (count (add_byte b q) = count q + 1) as Ec by (unfold count, next, INTQ_BUFSIZE in *; cbn; unfold next, INTQ_BUFSIZE in *; dm_lia).
  split_and!.
  - split; cbn; [unfold next, INTQ_BUFSIZE; dm_lia|done|by rewrite length_insert].
  - unfold contents. rewrite Ec, seqZ_app by (unfold count, INTQ_BUFSIZE; dm_lia). rewrite fmap_app. f_equal.
    + apply list_fmap_ext. intros i x Hx. apply lookup_seqZ in Hx as [-> Hx]. cbn. rewrite list_lookup_insert_ne; [done|].
      unfold count, INTQ_BUFSIZE in *. dm_lia.
    + change (seqZ (0 + count q) 1) with [0 + count q]. cbn [fmap list_fmap]. f_equal. cbn.
      replace ((q.(tail) + (0 + count q)) `mod` INTQ_BUFSIZE) with q.(head) by (unfold count, INTQ_BUFSIZE; dm_lia).
      by rewrite list_lookup_insert_eq by lia.
  - unfold intq_empty. cbn. apply Z.eqb_neq. unfold next, INTQ_BUFSIZE in *. dm_lia.
Qed.

(** ** One thread and interrupt handlers

    The handlers of the keyboard and the serial port test the queue before they use it. *)

Definition polite (l : label) (σ : st) : res st :=
  match l with
  | Irq o => if ready o σ.(q) then step l σ else Ok σ
  | _ => step l σ
  end.

Fixpoint run_polite (ls : list label) (σ : st) : res st :=
  match ls with
  | [] => Ok σ
  | l :: ls => rbind (polite l σ) (run_polite ls)
  end.

Definition only (t : Z) (l : label) : Prop := match l with Call u _ | Run u _ => u = t | Irq _ => True end.

Definition waiting (t : Z) (p : pc) (σ : st) : Prop :=
  match p with
  | Out _ | Test _ => σ.(lock_free) = true ∧ σ.(q).(not_empty) = NULL ∧ σ.(q).(not_full) = NULL
  | Asleep Get => σ.(lock_free) = false ∧ σ.(q).(not_empty) = t ∧ σ.(q).(not_full) = NULL ∧ intq_empty σ.(q) = true
  | Asleep (Put _) => σ.(lock_free) = false ∧ σ.(q).(not_empty) = NULL ∧ σ.(q).(not_full) = t ∧ intq_full σ.(q) = true
  | Awake _ => σ.(lock_free) = false ∧ σ.(q).(not_empty) = NULL ∧ σ.(q).(not_full) = NULL
  | Acquire _ | Retry _ => False
  end.

Record one_thread (t : Z) (σ : st) : Prop := {
  ot_ring : ring σ.(q);
  ot_fifo : σ.(history) = σ.(taken) ++ contents σ.(q);
  ot_pc : ∃ p, σ.(pcs) = {[t := p]} ∧ waiting t p σ;
}.

(** The byte operations wake the thread exactly if it waits for them. *)
Lemma finish_run t o σ p : t ≠ NULL → ring σ.(q) → σ.(history) = σ.(taken) ++ contents σ.(q) → σ.(pcs) = {[t := p]} → waiting t p σ →
  ready o σ.(q) = true →
  ∃ b σ', finish o σ = Ok (b, σ') ∧ ring σ'.(q) ∧ σ'.(history) = σ'.(taken) ++ contents σ'.(q) ∧ σ'.(pcs) = {[t := wakes p]} ∧
    waiting t (wakes p) σ' ∧ σ'.(lock_free) = σ.(lock_free).
Proof.
  intros Ht HR Hf Hp Hw Hr. destruct o as [|b]; cbn [ready] in Hr; apply negb_true_iff in Hr.
  - destruct (take_ring _ HR Hr) as (b & q' & Hb & HR' & Hc & N1 & N2 & Hnf). unfold finish. rewrite Hb. cbn [rbind fst snd]. unfold signal. cbn [q]. rewrite Hnf, N1.
    assert (σ.(history) = (σ.(taken) ++ [b]) ++ contents q') as Hf' by (by rewrite Hf, Hc, <- app_assoc).
    destruct p as [g|o|o|o|[|b']|o]; cbn [waiting wakes] in *; try done.
    + destruct Hw as (W1 & W2 & W3). rewrite W3. cbn. eexists _, _. split; [reflexivity|]. cbn. by rewrite N1, N2.
    + destruct Hw as (W1 & W2 & W3). rewrite W3. cbn. eexists _, _. split; [reflexivity|]. cbn. by rewrite N1, N2.
    + destruct Hw as (W1 & W2 & W3 & W4). congruence.
    + destruct Hw as (W1 & W2 & W3 & W4). rewrite W3, (proj2 (Z.eqb_neq _ _) Ht). cbn [pcs]. rewrite Hp, lookup_singleton_eq. cbn [rbind].
      eexists _, _. split; [reflexivity|]. cbn. rewrite N2, insert_singleton_eq. split_and!; [by destruct HR'|done..].
    + destruct Hw as (W1 & W2 & W3). rewrite W3. cbn. eexists _, _. split; [reflexivity|]. cbn. by rewrite N1, N2.
  - destruct (add_ring _ b HR Hr) as (HR' & Hc & Hne). unfold finish, signal. cbn [q]. rewrite Hne.
    assert (σ.(history) ++ [u8 b] = σ.(taken) ++ contents (add_byte b σ.(q))) as Hf' by (by rewrite Hf, Hc, app_assoc).
    change (not_empty (add_byte b σ.(q))) with (not_empty σ.(q)).
    destruct p as [g|o|o|o|[|b']|o]; cbn [waiting wakes] in *; try done.
    + destruct Hw as (W1 & W2 & W3). rewrite W2. cbn. eexists _, _. by split.
    + destruct Hw as (W1 & W2 & W3). rewrite W2. cbn. eexists _, _. by split.
    + destruct Hw as (W1 & W2 & W3 & W4). rewrite W2, (proj2 (Z.eqb_neq _ _) Ht). cbn [pcs]. rewrite Hp, lookup_singleton_eq. cbn [rbind].
      eexists _, _. split; [reflexivity|]. cbn. rewrite insert_singleton_eq. split_and!; [by destruct HR'|done..].
    + destruct Hw as (W1 & W2 & W3 & W4). congruence.
    + destruct Hw as (W1 & W2 & W3). rewrite W2. cbn. eexists _, _. by split.
Qed.

Lemma one_same t p σ : ring σ.(q) → σ.(history) = σ.(taken) ++ contents σ.(q) → σ.(pcs) = {[t := p]} → waiting t p σ →
  ∃ σ', Ok σ = Ok σ' ∧ one_thread t σ'.
Proof. intros HR Hf Hp Hw. exists σ. split; [done|]. split; [done|done|]. by exists p. Qed.

Lemma polite_keeps t l σ : t ≠ NULL → only t l → one_thread t σ → ∃ σ', polite l σ = Ok σ' ∧ one_thread t σ'.
Proof.
  intros Ht Hl [HR Hf (p & Hp & Hw)]. destruct l as [u o|u w|o]; cbn [polite step only] in *.
  - subst u. rewrite Hp, lookup_singleton_eq. destruct p as [g|o'|o'|o'|o'|o']; try exact (one_same _ _ _ HR Hf Hp Hw).
    exists (set_pc t (Test o) σ). split; [done|]. split; [done|done|]. exists (Test o). split; [cbn; by rewrite Hp, insert_singleton_eq|exact Hw].
  - subst u. rewrite Hp, lookup_singleton_eq. destruct p as [g|o|o|o|o|o]; try exact (one_same _ _ _ HR Hf Hp Hw); [|done|].
    + destruct (ready o σ.(q)) eqn:Hr.
      * destruct (finish_run t o σ (Test o) Ht HR Hf Hp Hw Hr) as (b & σ1 & Hfin & R1 & F1 & P1 & W1 & _). rewrite Hfin. cbn [rbind fst snd].
        eexists. split; [reflexivity|]. split; [done|done|]. exists (Out b). split; [cbn; by rewrite P1, insert_singleton_eq|exact W1].
      * destruct Hw as (W1 & W2 & W3). unfold acquire. rewrite W1. unfold wait. change (q (set_lock false σ)) with (q σ). rewrite Hr.
        eexists. split; [reflexivity|]. destruct HR as [H1 H2 H3]. split; [by destruct o|by destruct o|]. exists (Asleep o).
        split; [cbn; by rewrite Hp, insert_singleton_eq|]. destruct o; cbn; apply negb_false_iff in Hr; by split_and!.
    + eexists. split; [reflexivity|]. unfold release. cbn [pcs set_lock]. rewrite Hp. destruct Hw as (W1 & W2 & W3).
      assert (match ({[t := Awake o]} : gmap Z pc) !! w with Some (Acquire o) => set_pc w (Retry o) (set_lock true σ) | _ => set_lock true σ end = set_lock true σ) as ->.
      { destruct (decide (w = t)) as [->|Hn]; [by rewrite lookup_singleton_eq|by rewrite lookup_singleton_ne]. }
      split; [done|done|]. exists (Test o). split; [cbn; by rewrite Hp, insert_singleton_eq|done].
  - destruct (ready o σ.(q)) eqn:Hr; [|exact (one_same _ _ _ HR Hf Hp Hw)].
    destruct (finish_run t o σ p Ht HR Hf Hp Hw Hr) as (b & σ1 & Hfin & R1 & F1 & P1 & W1 & _). rewrite Hfin. cbn [rbind snd].
    eexists. split; [reflexivity|]. split; [done|done|]. by exists (wakes p).
Qed.

Lemma run_polite_keeps t ls : t ≠ NULL → ∀ σ, Forall (only t) ls → one_thread t σ → ∃ σ', run_polite ls σ = Ok σ' ∧ one_thread t σ'.
Proof.
  intros Ht. induction ls as [|l ls IH]; intros σ Hl HO; [by exists σ|]. apply Forall_cons in Hl as [Hl1 Hl2].
  destruct (polite_keeps t l σ Ht Hl1 HO) as (σ1 & H1 & HO1). cbn. rewrite H1. by apply IH.
Qed.

Definition start (b : list Z) (t : Z) : st := St (intq_init b) true {[t := Out None]} [] [].

(** Property C22.  A queue used by one thread and by interrupt handlers is a bounded
    first-in first-out buffer.  No assertion fails whatever the order of calls and
    interrupts; the bytes taken, followed by those in the ring, are the bytes added, and
    there are at most 63 in the ring.  No wake-up is lost: a thread that sleeps waits for
    a condition that does not hold, and a thread that has been woken completes its call
    in two more turns if the condition still holds. *)
Theorem intq_one_thread b t ls : length b = 64%nat → t ≠ NULL → Forall (only t) ls →
  ∃ σ, run_polite ls (start b t) = Ok σ ∧ ring σ.(q) ∧
    σ.(history) = σ.(taken) ++ contents σ.(q) ∧ zlen (contents σ.(q)) ≤ 63 ∧
    (∀ o, σ.(pcs) !! t = Some (Asleep o) → ready o σ.(q) = false) ∧
    (∀ o, σ.(pcs) !! t = Some (Awake o) → ready o σ.(q) = true →
      ∃ g σ', run_polite [Run t t; Run t t] σ = Ok σ' ∧ σ'.(pcs) !! t = Some (Out g) ∧ σ'.(lock_free) = true).
Proof.
  intros Hb Ht Hl. assert (one_thread t (start b t)) as H0.
  { split; [by split|done|]. exists (Out None). by split. }
  destruct (run_polite_keeps t ls Ht _ Hl H0) as (σ & Hr & HO). destruct HO as [HR Hf (p & Hp & Hw)]. exists σ.
  split_and!; [done|done|done|by apply contents_bound| |].
  - intros o. rewrite Hp, lookup_singleton_eq. intros [= ->]. destruct o; destruct Hw as (_ & _ & _ & E); cbn; by rewrite E.
  - intros o. rewrite Hp, lookup_singleton_eq. intros [= ->] Hrd. destruct Hw as (W1 & W2 & W3).
    cbn [run_polite polite step]. rewrite Hp, lookup_singleton_eq. cbn [rbind]. unfold release. cbn [pcs set_lock]. rewrite Hp, lookup_singleton_eq.
    set (σ1 := set_pc t (Test o) (set_lock true σ)). assert (σ1.(pcs) = {[t := Test o]}) as P1 by (cbn; by rewrite Hp, insert_singleton_eq).
    rewrite P1, lookup_singleton_eq. change (q σ1) with (q σ). rewrite Hrd.
    destruct (finish_run t o σ1 (Test o) Ht HR Hf P1) as (g & σ2 & Hfin & _ & _ & P2 & _ & L2); [done|done|]. rewrite Hfin. cbn [rbind fst snd].
    exists g. eexists. split; [reflexivity|]. cbn. by rewrite lookup_insert_eq, L2.
Qed.

Lemma intq_one_thread_witness : length (replicate 64 0) = 64%nat ∧
  ∃ σ, run_polite [Call 5 Get; Run 5 5; Irq (Put 65); Irq (Put 66); Run 5 5; Run 5 5] (start (replicate 64 0) 5) = Ok σ ∧
    σ.(history) = σ.(taken) ++ contents σ.(q).
Proof.
  split; [reflexivity|].
  destruct (intq_one_thread (replicate 64 0) 5 [Call 5 Get; Run 5 5; Irq (Put 65); Irq (Put 66); Run 5 5; Run 5 5]) as (σ & H1 & _ & H2 & _);
    [reflexivity|discriminate|repeat constructor|]. exists σ. split; [exact H1|exact H2].
Defined.

Definition two_threads (b : list Z) (t u : Z) : st := St (intq_init b) true {[t := Out None; u := Out None]} [] [].

