(* ===== verification/Console.v ===== *)
(** * Serial port, keyboard and input buffer

    devices/serial.c, devices/kbd.c and devices/input.c over the queues of
    devices/intq.c.  The serial port is a 16550A whose transmitter stays busy for some
    polls after each byte; the keyboard controller is the list of scan codes that wait in
    it.  Where a thread would block in a queue the function says so and leaves the thread
    registered as the waiter; the caller continues it when it has been woken. *)

From S2P Require Import Prelude Vaddr CStdlib Sched Intq.
Local Open Scope Z_scope.
Local Open Scope c_scope.

(** ** The hardware *)

(** [busy] polls of the line status until the transmitter is free; [delays] is how long
    it will be busy after each byte. *)
Record uart := Uart { rx : list Z; busy : nat; delays : list nat; sent : list Z; ier : Z; setup : list (Z * Z) }.

Inductive smode := UNINIT | POLL | QUEUE.

Record kbd := Kbd {
  left_shift : bool; right_shift : bool; left_alt : bool; right_alt : bool; left_ctrl : bool; right_ctrl : bool;
  caps_lock : bool; key_cnt : Z }.

Record con := Con { mode : smode; txq : intq; buffer : intq; port : uart; keys : kbd; scan_codes : list Z; level : intr_level }.

Definition upd_mode (m : smode) (σ : con) : con := Con m σ.(txq) σ.(buffer) σ.(port) σ.(keys) σ.(scan_codes) σ.(level).
Definition upd_txq (f : intq → intq) (σ : con) : con := Con σ.(mode) (f σ.(txq)) σ.(buffer) σ.(port) σ.(keys) σ.(scan_codes) σ.(level).
Definition upd_buffer (f : intq → intq) (σ : con) : con := Con σ.(mode) σ.(txq) (f σ.(buffer)) σ.(port) σ.(keys) σ.(scan_codes) σ.(level).
Definition upd_port (f : uart → uart) (σ : con) : con := Con σ.(mode) σ.(txq) σ.(buffer) (f σ.(port)) σ.(keys) σ.(scan_codes) σ.(level).
Definition upd_keys (f : kbd → kbd) (σ : con) : con := Con σ.(mode) σ.(txq) σ.(buffer) σ.(port) (f σ.(keys)) σ.(scan_codes) σ.(level).
Definition upd_scan (l : list Z) (σ : con) : con := Con σ.(mode) σ.(txq) σ.(buffer) σ.(port) σ.(keys) l σ.(level).
Definition upd_level (l : intr_level) (σ : con) : con := Con σ.(mode) σ.(txq) σ.(buffer) σ.(port) σ.(keys) σ.(scan_codes) l.

Definition read {A} (f : con → A) : M con A := λ σ, Ok (f σ, σ).
Definition change (f : con → con) : M con unit := λ σ, Ok (tt, f σ).

Definition intr_disable : M con intr_level := old <- read level ;; change (upd_level INTR_OFF) ;; ret old.
Definition intr_set_level (l : intr_level) : M con unit := change (upd_level l).
Definition intrs_off : M con unit := l <- read level ;; assert (bool_decide (l = INTR_OFF)).

(** *** Ports *)

Definition IO_BASE : Z := 1016.
Definition IER_XMIT : Z := 2.
Definition IER_RECV : Z := 1.
Definition LSR_DR : Z := 1.
Definition LSR_THRE : Z := 32.

(** [inb (LSR_REG)]. *)
Definition in_lsr : M con Z :=
  u <- read port ;;
  change (upd_port (λ u, Uart u.(rx) (pred u.(busy)) u.(delays) u.(sent) u.(ier) u.(setup))) ;;
  ret ((match u.(rx) with [] => 0 | _ => LSR_DR end) + match u.(busy) with O => LSR_THRE | _ => 0 end).

(** [inb (RBR_REG)]. *)
Definition in_rbr : M con Z :=
  u <- read port ;;
  change (upd_port (λ u, Uart (drop 1 u.(rx)) u.(busy) u.(delays) u.(sent) u.(ier) u.(setup))) ;;
  ret (match u.(rx) with [] => 0 | b :: _ => u8 b end).

(** [outb (THR_REG, byte)]. *)
Definition out_thr (b : Z) : M con unit :=
  change (upd_port (λ u, Uart u.(rx) (default 0%nat (u.(delays) !! 0%nat)) (drop 1 u.(delays)) (u.(sent) ++ [b]) u.(ier) u.(setup))).
Definition out_ier (b : Z) : M con unit :=
  change (upd_port (λ u, Uart u.(rx) u.(busy) u.(delays) u.(sent) b u.(setup))).

(** The other registers of the port are written to only when it is set up. *)
Definition out_setup (reg v : Z) : M con unit :=
  change (upd_port (λ u, Uart u.(rx) u.(busy) u.(delays) u.(sent) u.(ier) (u.(setup) ++ [(reg, v)]))).

(** ** Queues

    signal (without the threads): the waiter is cleared. *)
Definition q_signal (full : bool) (q : intq) : res intq :=
  if (if full then intq_full q else intq_empty q) then Err AssertFail
  else Ok (if full then Intq NULL q.(not_empty) q.(buf) q.(head) q.(tail) else Intq q.(not_full) NULL q.(buf) q.(head) q.(tail)).

(** intq_getc and intq_putc for a queue that is not empty or not full. *)
Definition q_getc (q : intq) : res (Z * intq) :=
  let* bq := take_byte q in let* q := q_signal true (snd bq) in Ok (fst bq, q).
Definition q_putc (b : Z) (q : intq) : res intq := q_signal false (add_byte b q).

Definition q_empty (f : con → intq) : M con bool := intrs_off ;; q <- read f ;; ret (intq_empty q).
Definition q_full (f : con → intq) : M con bool := intrs_off ;; q <- read f ;; ret (intq_full q).

Definition set_txq {A} (r : res (A * intq)) : M con A := λ σ, match r with Ok (a, q) => Ok (a, upd_txq (λ _, q) σ) | Err e => Err e end.
Definition set_buffer {A} (r : res (A * intq)) : M con A := λ σ, match r with Ok (a, q) => Ok (a, upd_buffer (λ _, q) σ) | Err e => Err e end.

Definition getc_txq : M con Z := q <- read txq ;; if intq_empty q then fail AssertFail else set_txq (q_getc q).
Definition with_unit (r : res intq) : res (unit * intq) := let* q := r in Ok (tt, q).

(** ** input.c and serial.c *)

Definition input_full : M con bool := intrs_off ;; q_full buffer.

Definition write_ier : M con unit :=
  intrs_off ;;
  e <- q_empty txq ;;
  f <- input_full ;;
  out_ier ((if e then 0 else IER_XMIT) + (if f then 0 else IER_RECV)).

Definition serial_notify : M con unit :=
  intrs_off ;;
  m <- read mode ;;
  match m with QUEUE => write_ier | _ => ret tt end.

Definition input_putc (key : Z) : M con unit :=
  intrs_off ;;
  f <- q_full buffer ;;
  assert (negb f) ;;
  q <- read buffer ;;
  set_buffer (with_unit (q_putc key q)) ;;
  serial_notify.

(** [None]: the thread [cur] waits for a key. *)
Definition input_getc (cur : Z) : M con (option Z) :=
  old_level <- intr_disable ;;
  e <- q_empty buffer ;;
  if e then change (upd_buffer (λ q, Intq q.(not_full) cur q.(buf) q.(head) q.(tail))) ;; ret None
  else
    q <- read buffer ;;
    key <- set_buffer (q_getc q) ;;
    serial_notify ;;
    intr_set_level old_level ;;
    ret (Some key).

Definition putc_poll (byte : Z) : M con unit :=
  intrs_off ;;
  σ <- get ;;
  iter (S σ.(port).(busy)) (λ _, s <- in_lsr ;; if Z.land s LSR_THRE =? 0 then ret (inl tt) else ret (inr tt)) tt ;;
  out_thr byte.

Definition set_serial (bps : Z) : M con unit :=
  let base_rate := 1843200 `div` 16 in
  let divisor := u16 (base_rate `div` bps) in
  assert ((300 <=? bps) && (bps <=? 115200)) ;;
  out_setup 3 131 ;;
  out_setup 0 (Z.land divisor 255) ;;
  out_setup 1 (Z.shiftr divisor 8) ;;
  out_setup 3 3.

Definition init_poll : M con unit :=
  m <- read mode ;;
  assert (match m with UNINIT => true | _ => false end) ;;
  out_ier 0 ;;
  out_setup 2 0 ;;
  set_serial 115200 ;;
  out_setup 4 8 ;;
  change (upd_txq (λ q, intq_init q.(buf))) ;;
  change (upd_mode POLL).

(** The registration of the handler is in Gates. *)
Definition serial_init_queue : M con unit :=
  m <- read mode ;;
  (match m with UNINIT => init_poll | _ => ret tt end) ;;
  m <- read mode ;;
  assert (match m with POLL => true | _ => false end) ;;
  change (upd_mode QUEUE) ;;
  old_level <- intr_disable ;;
  write_ier ;;
  intr_set_level old_level.

(** intq_putc on the transmit queue and the rest of serial_putc.  [false]: the thread
    [cur] waits for room in the queue and continues here. *)
Definition serial_enqueue (cur : Z) (old_level : intr_level) (byte : Z) : M con bool :=
  f <- q_full txq ;;
  if f then change (upd_txq (λ q, Intq cur q.(not_empty) q.(buf) q.(head) q.(tail))) ;; ret false
  else
    q <- read txq ;;
    set_txq (with_unit (q_putc byte q)) ;;
    write_ier ;;
    intr_set_level old_level ;;
    ret true.

Definition serial_putc (cur byte : Z) : M con bool :=
  old_level <- intr_disable ;;
  m <- read mode ;;
  match m with
  | QUEUE =>
      f <- q_full txq ;;
      (match old_level with
       | INTR_OFF => if f then b <- getc_txq ;; putc_poll b else ret tt
       | INTR_ON => ret tt
       end) ;;
      serial_enqueue cur old_level byte
  | _ =>
      (match m with UNINIT => init_poll | _ => ret tt end) ;;
      putc_poll byte ;;
      intr_set_level old_level ;;
      ret true
  end.

Definition serial_flush : M con unit :=
  old_level <- intr_disable ;;
  iter (Z.to_nat INTQ_BUFSIZE) (λ _,
    e <- q_empty txq ;;
    if e then ret (inr tt) else b <- getc_txq ;; putc_poll b ;; ret (inl tt)) tt ;;
  intr_set_level old_level.

Definition serial_interrupt : M con unit :=
  σ <- get ;;
  iter (S (length σ.(port).(rx))) (λ _,
    f <- input_full ;;
    if f then ret (inr tt)
    else
      s <- in_lsr ;;
      if Z.land s LSR_DR =? 0 then ret (inr tt)
      else b <- in_rbr ;; input_putc b ;; ret (inl tt)) tt ;;
  iter (Z.to_nat INTQ_BUFSIZE) (λ _,
    e <- q_empty txq ;;
    if e then ret (inr tt)
    else
      s <- in_lsr ;;
      if Z.land s LSR_THRE =? 0 then ret (inr tt)
      else b <- getc_txq ;; out_thr b ;; ret (inl tt)) tt ;;
  write_ier.

(** ** kbd.c *)

(** The first scan code and the characters of the codes from there on. *)
Definition keymap : Type := list (Z * list Z).

Definition invariant_keymap : keymap :=
  [(1, [27]); (14, [8]); (15, [9; 81; 87; 69; 82; 84; 89; 85; 73; 79; 80]); (28, [13]);
   (30, [65; 83; 68; 70; 71; 72; 74; 75; 76]); (44, [90; 88; 67; 86; 66; 78; 77]); (55, [42]); (57, [32]); (0, [])].

Definition unshifted_keymap : keymap :=
  [(2, [49; 50; 51; 52; 53; 54; 55; 56; 57; 48; 45; 61]); (26, [91; 93]); (39, [59; 39; 96]); (43, [92]); (51, [44; 46; 47]); (0, [])].

Definition shifted_keymap : keymap :=
  [(2, [33; 64; 35; 36; 37; 94; 38; 42; 40; 41; 95; 43]); (26, [123; 125]); (39, [58; 34; 126]); (43, [124]); (51, [60; 62; 63]); (0, [])].

Fixpoint map_key (k : keymap) (scancode : Z) : option Z :=
  match k with
  | [] => None
  | (first, chars) :: k =>
      if first =? 0 then None
      else if (first <=? scancode) && (scancode <? first + zlen chars) then chars !! Z.to_nat (scancode - first)
      else map_key k scancode
  end.

(** [inb (DATA_REG)]. *)
Definition in_data : M con Z :=
  σ <- get ;;
  change (upd_scan (drop 1 σ.(scan_codes))) ;;
  ret (match σ.(scan_codes) with [] => 0 | b :: _ => u8 b end).

Definition set_shift_key (code : Z) (b : bool) (k : kbd) : kbd :=
  if code =? 42 then Kbd b k.(right_shift) k.(left_alt) k.(right_alt) k.(left_ctrl) k.(right_ctrl) k.(caps_lock) k.(key_cnt)
  else if code =? 54 then Kbd k.(left_shift) b k.(left_alt) k.(right_alt) k.(left_ctrl) k.(right_ctrl) k.(caps_lock) k.(key_cnt)
  else if code =? 56 then Kbd k.(left_shift) k.(right_shift) b k.(right_alt) k.(left_ctrl) k.(right_ctrl) k.(caps_lock) k.(key_cnt)
  else if code =? 57400 then Kbd k.(left_shift) k.(right_shift) k.(left_alt) b k.(left_ctrl) k.(right_ctrl) k.(caps_lock) k.(key_cnt)
  else if code =? 29 then Kbd k.(left_shift) k.(right_shift) k.(left_alt) k.(right_alt) b k.(right_ctrl) k.(caps_lock) k.(key_cnt)
  else if code =? 57373 then Kbd k.(left_shift) k.(right_shift) k.(left_alt) k.(right_alt) k.(left_ctrl) b k.(caps_lock) k.(key_cnt)
  else k.

Definition toggle_caps (k : kbd) : kbd :=
  Kbd k.(left_shift) k.(right_shift) k.(left_alt) k.(right_alt) k.(left_ctrl) k.(right_ctrl) (negb k.(caps_lock)) k.(key_cnt).
Definition count_key (k : kbd) : kbd :=
  Kbd k.(left_shift) k.(right_shift) k.(left_alt) k.(right_alt) k.(left_ctrl) k.(right_ctrl) k.(caps_lock) (s64 (k.(key_cnt) + 1)).

(** The character of a scan code, if it has one. *)
Definition key_char (k : kbd) (code : Z) : option Z :=
  let shift := k.(left_shift) || k.(right_shift) in
  match map_key invariant_keymap code with
  | Some c => Some c
  | None => if shift then map_key shifted_keymap code else map_key unshifted_keymap code
  end.

(** What a key press with that character puts into the buffer. *)
Definition typed (k : kbd) (c : Z) : Z :=
  let shift := k.(left_shift) || k.(right_shift) in
  let alt := k.(left_alt) || k.(right_alt) in
  let ctrl := k.(left_ctrl) || k.(right_ctrl) in
  let c := if ctrl && (64 <=? c) && (c <? 96) then u8 (c - 64)
           else if Bool.eqb shift k.(caps_lock) then u8 (tolower c) else c in
  if alt then u8 (c + 128) else c.

(** The scan code, with the second byte behind a prefix. *)
Definition read_code : M con Z :=
  code <- in_data ;;
  if code =? 224 then c2 <- in_data ;; ret (Z.lor (Z.shiftl code 8) c2) else ret code.

Definition keyboard_interrupt : M con unit :=
  k <- read keys ;;
  code <- read_code ;;
  let release := negb (Z.land code 128 =? 0) in
  let code := Z.land code (UINT_MAX - 128) in
  if code =? 58 then
    if release then ret tt else change (upd_keys toggle_caps)
  else
    match key_char k code with
    | Some c =>
        if release then ret tt
        else
          f <- input_full ;;
          if f then ret tt
          else change (upd_keys count_key) ;; input_putc (typed k c)
    | None => change (upd_keys (set_shift_key code (negb release)))
    end.

(** ** Running the functions with interrupts off *)

Lemma intrs_off_run σ : σ.(level) = INTR_OFF → intrs_off σ = Ok (tt, σ).
Proof. intros H. unfold intrs_off, bind, read. by rewrite H. Qed.

Lemma q_full_run f σ : σ.(level) = INTR_OFF → q_full f σ = Ok (intq_full (f σ), σ).
Proof. intros H. unfold q_full. by rewrite (bind_Ok _ _ _ _ _ (intrs_off_run σ H)). Qed.

Lemma q_empty_run f σ : σ.(level) = INTR_OFF → q_empty f σ = Ok (intq_empty (f σ), σ).
Proof. intros H. unfold q_empty. by rewrite (bind_Ok _ _ _ _ _ (intrs_off_run σ H)). Qed.

Lemma input_full_run σ : σ.(level) = INTR_OFF → input_full σ = Ok (intq_full σ.(buffer), σ).
Proof. intros H. unfold input_full. rewrite (bind_Ok _ _ _ _ _ (intrs_off_run σ H)). by apply q_full_run. Qed.

(** The value the interrupt enable register should have. *)
Definition wanted_ier (σ : con) : Z := (if intq_empty σ.(txq) then 0 else IER_XMIT) + (if intq_full σ.(buffer) then 0 else IER_RECV).
Definition set_ier (v : Z) (σ : con) : con := upd_port (λ u, Uart u.(rx) u.(busy) u.(delays) u.(sent) v u.(setup)) σ.

Lemma write_ier_run σ : σ.(level) = INTR_OFF → write_ier σ = Ok (tt, set_ier (wanted_ier σ) σ).
Proof.
  intros H. unfold write_ier. rewrite (bind_Ok _ _ _ _ _ (intrs_off_run σ H)), (bind_Ok _ _ _ _ _ (q_empty_run txq σ H)).
  by rewrite (bind_Ok _ _ _ _ _ (input_full_run σ H)).
Qed.

Definition notified (σ : con) : con := match σ.(mode) with QUEUE => set_ier (wanted_ier σ) σ | _ => σ end.

Lemma serial_notify_run σ : σ.(level) = INTR_OFF → serial_notify σ = Ok (tt, notified σ).
Proof.
  intros H. unfold serial_notify, notified. rewrite (bind_Ok _ _ _ _ _ (intrs_off_run σ H)), (bind_Ok _ _ σ σ.(mode) σ) by done.
  destruct σ.(mode); [done|done|]. by apply write_ier_run.
Qed.

Lemma q_putc_run b q : ring q → intq_full q = false →
  ∃ q', q_putc b q = Ok q' ∧ ring q' ∧ contents q' = contents q ++ [u8 b] ∧ intq_empty q' = false.
Proof.
  intros HR Hf. destruct (add_ring q b HR Hf) as (HR' & Hc & He). unfold q_putc, q_signal. rewrite He. eexists. split; [reflexivity|].
  split_and!; [by destruct HR'|exact Hc|exact He].
Qed.

Lemma q_getc_run q : ring q → intq_empty q = false →
  ∃ b q', q_getc q = Ok (b, q') ∧ ring q' ∧ contents q = b :: contents q' ∧ intq_full q' = false.
Proof.
  intros HR He. destruct (take_ring q HR He) as (b & q' & Hb & HR' & Hc & _ & _ & Hf). unfold q_getc. rewrite Hb. cbn [rbind fst snd]. unfold q_signal. rewrite Hf.
  eexists _, _. split; [reflexivity|]. split_and!; [by destruct HR'|exact Hc|exact Hf].
Qed.

(** The bytes [acc] have been sent to the port or wait in its queue, in this order; the
    interrupts of the port are enabled as they should be. *)
Record serial_ok (acc : list Z) (σ : con) : Prop := {
  so_txq : ring σ.(txq);
  so_buffer : ring σ.(buffer);
  so_order : acc = σ.(port).(sent) ++ contents σ.(txq);
  so_poll : σ.(mode) ≠ QUEUE → contents σ.(txq) = [];
}.

Definition ier_ok (σ : con) : Prop := σ.(mode) = QUEUE → σ.(port).(ier) = wanted_ier σ.

Lemma notified_ok acc σ : serial_ok acc σ → serial_ok acc (notified σ) ∧ ier_ok (notified σ) ∧ (notified σ).(level) = σ.(level) ∧ (notified σ).(mode) = σ.(mode).
Proof. intros [H1 H2 H3 H4]. unfold notified, ier_ok. destruct (mode σ) eqn:E; split_and!; try (by intros; congruence); try done; by split; cbn; rewrite ?E. Qed.

Lemma input_putc_run acc σ key : σ.(level) = INTR_OFF → serial_ok acc σ → intq_full σ.(buffer) = false →
  ∃ σ', input_putc key σ = Ok (tt, σ') ∧ serial_ok acc σ' ∧ ier_ok σ' ∧ σ'.(level) = INTR_OFF ∧ σ'.(mode) = σ.(mode) ∧
    contents σ'.(buffer) = contents σ.(buffer) ++ [u8 key] ∧ σ'.(txq) = σ.(txq) ∧ σ'.(port).(rx) = σ.(port).(rx) ∧ σ'.(port).(sent) = σ.(port).(sent) ∧
    σ'.(keys) = σ.(keys) ∧ σ'.(scan_codes) = σ.(scan_codes).
Proof.
  intros HL HS Hf. pose proof HS as [H1 H2 H3 H4]. destruct (q_putc_run key _ H2 Hf) as (q' & Hq & HR & Hc & _).
  unfold input_putc. rewrite (bind_Ok _ _ _ _ _ (intrs_off_run σ HL)), (bind_Ok _ _ _ _ _ (q_full_run buffer σ HL)), bind_assert by (by rewrite Hf).
  set (σ1 := upd_buffer (λ _, q') σ). rewrite (bind_Ok _ _ σ σ.(buffer) σ), (bind_Ok _ _ σ tt σ1) by (unfold set_buffer, with_unit; by rewrite ?Hq).
  rewrite (serial_notify_run σ1 HL). assert (serial_ok acc σ1) as HS1 by by split.
  destruct (notified_ok acc σ1 HS1) as (N1 & N2 & N3 & N4). exists (notified σ1). split_and!; try done; [by rewrite N3|..].
  all: unfold notified; by destruct (mode σ1).
Qed.

Lemma in_lsr_run σ : ∃ s, in_lsr σ = Ok (s, upd_port (λ u, Uart u.(rx) (pred u.(busy)) u.(delays) u.(sent) u.(ier) u.(setup)) σ) ∧
  (Z.land s LSR_THRE = 0 ↔ σ.(port).(busy) ≠ 0%nat) ∧ (Z.land s LSR_DR = 0 ↔ σ.(port).(rx) = []).
Proof. unfold in_lsr. eexists. split; [reflexivity|]. by destruct (rx (port σ)), (busy (port σ)). Qed.

(** The port with another transmitter and more bytes sent. *)
Definition transmitted (bs : list Z) (u u' : uart) : Prop := u'.(sent) = u.(sent) ++ bs ∧ u'.(rx) = u.(rx) ∧ u'.(ier) = u.(ier).

Lemma upd_port_twice u v σ : upd_port (λ _, u) (upd_port (λ _, v) σ) = upd_port (λ _, u) σ.
Proof. done. Qed.

Lemma putc_poll_run σ b : σ.(level) = INTR_OFF → ∃ u', putc_poll b σ = Ok (tt, upd_port (λ _, u') σ) ∧ transmitted [b] σ.(port) u'.
Proof.
  intros HL. unfold putc_poll. rewrite (bind_Ok _ _ _ _ _ (intrs_off_run σ HL)), (bind_Ok get _ σ σ σ) by done.
  assert (∀ n σ1, σ1.(port).(busy) = n → ∃ u1, iter (S n) (λ _, s <- in_lsr ;; if Z.land s LSR_THRE =? 0 then ret (inl tt) else ret (inr tt)) tt σ1 =
    Ok (tt, upd_port (λ _, u1) σ1) ∧ transmitted [] σ1.(port) u1) as Hloop.
  { induction n as [|n IH]; intros σ1 Hn; destruct (in_lsr_run σ1) as (s & Hs & H1 & _).
    - eexists. split; [apply iter_break; rewrite (bind_Ok _ _ _ _ _ Hs); rewrite (proj2 (Z.eqb_neq _ _)); [reflexivity|rewrite H1; lia]|].
      split; [by rewrite app_nil_r|done].
    - erewrite iter_continue by (rewrite (bind_Ok _ _ _ _ _ Hs); rewrite (proj2 (Z.eqb_eq _ _)); [reflexivity|apply H1; lia]).
      destruct (IH (upd_port (λ u, Uart u.(rx) (pred u.(busy)) u.(delays) u.(sent) u.(ier) u.(setup)) σ1)) as (u1 & Hu & T1 & T2 & T3); [cbn; by rewrite Hn|].
      exists u1. split; [exact Hu|]. by split. }
  destruct (Hloop _ σ eq_refl) as (u1 & Hu & T1 & T2 & T3). rewrite (bind_Ok _ _ _ _ _ Hu). eexists. split; [reflexivity|].
  split; [by cbn; rewrite T1, app_nil_r|done].
Qed.

Lemma getc_txq_run acc σ : serial_ok acc σ → intq_empty σ.(txq) = false →
  ∃ b q', getc_txq σ = Ok (b, upd_txq (λ _, q') σ) ∧ ring q' ∧ contents σ.(txq) = b :: contents q' ∧ intq_full q' = false.
Proof.
  intros [H1 H2 H3 H4] He. destruct (q_getc_run _ H1 He) as (b & q' & Hq & HR & Hc & Hf). exists b, q'.
  unfold getc_txq. rewrite (bind_Ok _ _ σ σ.(txq) σ) by done. rewrite He. unfold set_txq. by rewrite Hq.
Qed.

(** Moving the first byte of the queue to the port. *)
Lemma move_byte acc σ b q' u' : serial_ok acc σ → σ.(mode) = QUEUE → ring q' → contents σ.(txq) = b :: contents q' → transmitted [b] σ.(port) u' →
  serial_ok acc (upd_port (λ _, u') (upd_txq (λ _, q') σ)).
Proof.
  intros [H1 H2 H3 H4] Hm HR Hc (T1 & T2 & T3). split; cbn; [done|done| |by rewrite Hm]. by rewrite T1, <- app_assoc, H3, Hc.
Qed.

(** The part of the console that input comes from. *)
Definition kin (σ : con) : intq * kbd * list Z := (σ.(buffer), σ.(keys), σ.(port).(rx)).

Lemma serial_enqueue_run acc σ cur old b : σ.(level) = INTR_OFF → σ.(mode) = QUEUE → serial_ok acc σ →
  ∃ r σ', serial_enqueue cur old b σ = Ok (r, σ') ∧ σ'.(mode) = QUEUE ∧ kin σ' = kin σ ∧
    if r : bool then serial_ok (acc ++ [u8 b]) σ' ∧ ier_ok σ' ∧ σ'.(level) = old
    else serial_ok acc σ' ∧ (ier_ok σ → ier_ok σ') ∧ intq_full σ.(txq) = true ∧ intq_full σ'.(txq) = true ∧ σ'.(txq).(not_full) = cur.
Proof.
  intros HL Hm HS. pose proof HS as [H1 H2 H3 H4]. unfold serial_enqueue. rewrite (bind_Ok _ _ _ _ _ (q_full_run txq σ HL)).
  destruct (intq_full σ.(txq)) eqn:Hf.
  - eexists false, _. split; [reflexivity|]. split; [done|]. split; [done|]. split_and!; [|done|done|exact Hf|done]. split; [by destruct H1|done|done|by cbn; rewrite Hm].
  - destruct (q_putc_run b _ H1 Hf) as (q' & Hq & HR & Hc & He). set (σ1 := upd_txq (λ _, q') σ).
    rewrite (bind_Ok _ _ σ σ.(txq) σ), (bind_Ok _ _ σ tt σ1) by (unfold set_txq, with_unit; by rewrite ?Hq).
    rewrite (bind_Ok _ _ _ _ _ (write_ier_run σ1 HL)). eexists true, _. split; [reflexivity|]. split; [done|]. split; [done|]. split_and!; [|done|done].
    split; cbn; [done|done| |by rewrite Hm]. by rewrite H3, Hc, app_assoc.
Qed.

Lemma init_poll_run σ : σ.(mode) = UNINIT → ∃ σ', init_poll σ = Ok (tt, σ') ∧
  σ'.(mode) = POLL ∧ σ'.(txq) = intq_init σ.(txq).(buf) ∧ σ'.(buffer) = σ.(buffer) ∧ σ'.(port).(sent) = σ.(port).(sent) ∧ σ'.(level) = σ.(level) ∧ kin σ' = kin σ.
Proof. intros Hm. unfold init_poll. rewrite (bind_Ok _ _ σ UNINIT σ) by (unfold read; by rewrite Hm). eexists. by split. Qed.

Lemma serial_putc_run acc σ cur b : serial_ok acc σ → ier_ok σ → b = u8 b →
  ∃ r σ', serial_putc cur b σ = Ok (r, σ') ∧ ier_ok σ' ∧
    (σ'.(mode) = match σ.(mode) with UNINIT => POLL | m => m end) ∧ kin σ' = kin σ ∧
    if r : bool then serial_ok (acc ++ [b]) σ' ∧ σ'.(level) = σ.(level)
    else serial_ok acc σ' ∧ σ.(level) = INTR_ON ∧ intq_full σ'.(txq) = true ∧ σ'.(txq).(not_full) = cur ∧ σ'.(mode) = QUEUE.
Proof.
  intros HS HI Hb. pose proof HS as [H1 H2 H3 H4]. unfold serial_putc. set (σ0 := upd_level INTR_OFF σ).
  rewrite (bind_Ok intr_disable _ σ σ.(level) σ0), (bind_Ok _ _ σ0 σ.(mode) σ0) by done.
  assert (serial_ok acc σ0) as HS0 by by split.
  destruct σ.(mode) eqn:Hm.
  - destruct (init_poll_run σ0 Hm) as (σ1 & Hi & I1 & I2 & I3 & I4 & I5 & I6).
    rewrite (bind_Ok _ _ _ _ _ Hi). destruct (putc_poll_run σ1 b I5) as (u' & Hu & T1 & T2 & T3). rewrite (bind_Ok _ _ _ _ _ Hu).
    eexists true, _. split; [reflexivity|]. split_and!; [by unfold ier_ok; cbn; rewrite I1|exact I1|unfold kin in *; cbn in *; by rewrite T2| |done]. split; cbn; rewrite ?I2, ?I3; [by destruct H1|done| |done].
    rewrite T1, I4, H3, H4 by done. by rewrite !app_nil_r.
  - rewrite (bind_Ok _ _ σ0 tt σ0) by done. destruct (putc_poll_run σ0 b eq_refl) as (u' & Hu & T1 & T2 & T3). rewrite (bind_Ok _ _ _ _ _ Hu).
    eexists true, _. split; [reflexivity|]. split_and!; [by unfold ier_ok; cbn; rewrite Hm|exact Hm|unfold kin; cbn; by rewrite T2| |done]. split; cbn; [done|done| |by rewrite Hm].
    rewrite T1, H3, H4 by done. by rewrite !app_nil_r.
  - rewrite (bind_Ok _ _ _ _ _ (q_full_run txq σ0 eq_refl)). change (intq_full (txq σ0)) with (intq_full (txq σ)).
    assert (∃ σ1, (match σ.(level) with INTR_OFF => if intq_full σ.(txq) then b <- getc_txq ;; putc_poll b else ret tt | INTR_ON => ret tt end) σ0 = Ok (tt, σ1) ∧
      serial_ok acc σ1 ∧ σ1.(level) = INTR_OFF ∧ σ1.(mode) = QUEUE ∧ (σ.(level) = INTR_OFF → intq_full σ1.(txq) = false) ∧ (σ.(level) = INTR_ON → σ1 = σ0) ∧ kin σ1 = kin σ) as (σ1 & Hr1 & HS1 & L1 & M1 & F1 & E1 & Kn1).
    { destruct σ.(level); [|by exists σ0]. destruct (intq_full σ.(txq)) eqn:Hf; [|by exists σ0].
      assert (intq_empty (txq σ0) = false) as He.
      { destruct (intq_empty (txq σ0)) eqn:E; [|done]. apply (empty_spec _ H1) in E. apply (full_spec _ H1) in Hf. change (txq σ0) with (txq σ) in *. by rewrite E in Hf. }
      destruct (getc_txq_run acc σ0 HS0 He) as (c & q' & Hq & HR & Hc & Hf'). rewrite (bind_Ok _ _ _ _ _ Hq).
      destruct (putc_poll_run (upd_txq (λ _, q') σ0) c eq_refl) as (u' & Hu & HT). pose proof HT as (_ & T2 & _). eexists. split; [exact Hu|].
      split_and!; [by apply (move_byte acc σ0 c)|done|by cbn; rewrite Hm|done|done|unfold kin; cbn; by rewrite T2]. }
    rewrite (bind_Ok _ _ _ _ _ Hr1). destruct (serial_enqueue_run acc σ1 cur σ.(level) b L1 M1 HS1) as (r & σ2 & Hr2 & M2 & Kn2 & H5). rewrite Kn1 in Kn2.
    exists r, σ2. split; [exact Hr2|]. destruct r.
    + destruct H5 as (S5 & I5 & L5). rewrite <- Hb in S5. by split_and!.
    + destruct H5 as (S5 & I5 & F5 & F6 & N5). destruct σ.(level) eqn:HL; [by rewrite F1 in F5|].
      split_and!; try done. apply I5. by rewrite E1.
Qed.

(** *** The interrupt of the serial port *)

Definition receive_body : unit → M con (unit + unit) := λ _,
  f <- input_full ;;
  if f then ret (inr tt)
  else
    s <- in_lsr ;;
    if Z.land s LSR_DR =? 0 then ret (inr tt)
    else b <- in_rbr ;; input_putc b ;; ret (inl tt).

Definition transmit_body : unit → M con (unit + unit) := λ _,
  e <- q_empty txq ;;
  if e then ret (inr tt)
  else
    s <- in_lsr ;;
    if Z.land s LSR_THRE =? 0 then ret (inr tt)
    else b <- getc_txq ;; out_thr b ;; ret (inl tt).

Lemma receive_run acc n : ∀ σ, length σ.(port).(rx) = n → σ.(level) = INTR_OFF → serial_ok acc σ →
  ∃ σ' bs, iter (S n) receive_body tt σ = Ok (tt, σ') ∧ serial_ok acc σ' ∧ σ'.(level) = INTR_OFF ∧ σ'.(mode) = σ.(mode) ∧ σ'.(txq) = σ.(txq) ∧
    σ.(port).(rx) = bs ++ σ'.(port).(rx) ∧ contents σ'.(buffer) = contents σ.(buffer) ++ (u8 <$> bs) ∧
    (intq_full σ'.(buffer) = true ∨ σ'.(port).(rx) = []) ∧ σ'.(port).(sent) = σ.(port).(sent) ∧ σ'.(keys) = σ.(keys).
Proof.
  induction n as [|n IH]; intros σ Hn HL HS.
  all: destruct (intq_full σ.(buffer)) eqn:Hf; [exists σ, []; split_and!; [|done..|by rewrite app_nil_r|by left|done|done];
    apply iter_break; unfold receive_body; by rewrite (bind_Ok _ _ _ _ _ (input_full_run σ HL)), Hf|].
  all: destruct (in_lsr_run σ) as (s & Hs & _ & Hd); set (σ1 := upd_port _ σ) in Hs.
  - assert (σ.(port).(rx) = []) as Hrx by (by apply length_zero_iff_nil). exists σ1, []. split_and!; [|by destruct HS; split|done..|by rewrite app_nil_r|by right|done|done].
    apply iter_break. unfold receive_body. rewrite (bind_Ok _ _ _ _ _ (input_full_run σ HL)), Hf, (bind_Ok _ _ _ _ _ Hs), (proj2 (Z.eqb_eq _ _)) by by apply Hd. done.
  - destruct σ.(port).(rx) as [|b rx'] eqn:Hrx; [done|]. set (σ2 := upd_port (λ u, Uart (drop 1 u.(rx)) u.(busy) u.(delays) u.(sent) u.(ier) u.(setup)) σ1).
    assert (serial_ok acc σ2) as HS2 by by destruct HS; split.
    destruct (input_putc_run acc σ2 (u8 b) HL HS2 Hf) as (σ3 & H3 & HS3 & _ & L3 & M3 & C3 & T3 & R3 & S3 & Ky3 & _).
    assert (σ3.(port).(rx) = rx') as R3' by (rewrite R3; cbn; by rewrite Hrx).
    destruct (IH σ3) as (σ' & bs & HI & I1 & I2 & I3 & I4 & I5 & I6 & I7 & I8 & I9); [rewrite R3'; cbn in Hn; lia|done|done|].
    exists σ', (b :: bs). split_and!; [|done|done|by rewrite I3, M3|by rewrite I4, T3|by rewrite <- R3', I5| |done|by rewrite I8, S3|by rewrite I9, Ky3].
    + erewrite iter_continue; [exact HI|]. unfold receive_body. rewrite (bind_Ok _ _ _ _ _ (input_full_run σ HL)), Hf, (bind_Ok _ _ _ _ _ Hs).
      rewrite (proj2 (Z.eqb_neq _ _)) by (rewrite Hd; done). rewrite (bind_Ok in_rbr _ σ1 (u8 b) σ2) by (unfold in_rbr; cbn; by rewrite Hrx).
      by rewrite (bind_Ok _ _ _ _ _ H3).
    + rewrite I6, C3. cbn [fmap list_fmap]. rewrite <- app_assoc. cbn. unfold u8. by rewrite Zmod_mod.
Qed.

Lemma transmit_run acc n : ∀ σ, zlen (contents σ.(txq)) < Z.of_nat n → σ.(level) = INTR_OFF → σ.(mode) = QUEUE → serial_ok acc σ →
  ∃ σ', iter n transmit_body tt σ = Ok (tt, σ') ∧ serial_ok acc σ' ∧ σ'.(level) = INTR_OFF ∧ σ'.(mode) = QUEUE ∧ σ'.(buffer) = σ.(buffer) ∧
    σ'.(port).(rx) = σ.(port).(rx) ∧ (σ.(port).(busy) = 0%nat → intq_empty σ.(txq) = false → zlen (contents σ'.(txq)) < zlen (contents σ.(txq))) ∧
    zlen (contents σ'.(txq)) ≤ zlen (contents σ.(txq)) ∧ σ'.(keys) = σ.(keys).
Proof.
  induction n as [|n IH]; intros σ Hn HL Hm HS; [lia|]. pose proof HS as [H1 H2 H3 H4].
  destruct (intq_empty σ.(txq)) eqn:He.
  { exists σ. split_and!; [|done..|lia|done]. apply iter_break. unfold transmit_body. by rewrite (bind_Ok _ _ _ _ _ (q_empty_run txq σ HL)), He. }
  destruct (in_lsr_run σ) as (s & Hs & Ht & _). set (σ1 := upd_port _ σ) in Hs. assert (serial_ok acc σ1) as HS1 by by split.
  destruct (decide (σ.(port).(busy) = 0%nat)) as [Hb|Hb].
  - destruct (getc_txq_run acc σ1 HS1 He) as (b & q' & Hq & HR & Hc & _). set (σ2 := upd_txq (λ _, q') σ1) in Hq.
    set (u' := Uart σ1.(port).(rx) (default 0%nat (σ1.(port).(delays) !! 0%nat)) (drop 1 σ1.(port).(delays)) (σ1.(port).(sent) ++ [b]) σ1.(port).(ier) σ1.(port).(setup)).
    assert (serial_ok acc (upd_port (λ _, u') σ2)) as HS2 by (by apply (move_byte acc σ1 b)).
    assert (zlen (contents σ.(txq)) = 1 + zlen (contents q')) as Hlen by (change (txq σ) with (txq σ1); rewrite Hc; cbn [length]; lia).
    destruct (IH (upd_port (λ _, u') σ2)) as (σ' & HI & I1 & I2 & I3 & I4 & I5 & I6 & I7 & I8); [cbn; lia|done|exact Hm|done|].
    exists σ'. split_and!; [|done..|cbn in I7; lia|cbn in I7; lia|done]. erewrite iter_continue; [exact HI|].
    unfold transmit_body. rewrite (bind_Ok _ _ _ _ _ (q_empty_run txq σ HL)), He, (bind_Ok _ _ _ _ _ Hs), (proj2 (Z.eqb_neq _ _)) by (rewrite Ht; lia).
    by rewrite (bind_Ok _ _ _ _ _ Hq).
  - exists σ1. split_and!; [|done..|by intros|by change (txq σ1) with (txq σ)|done]. apply iter_break.
    unfold transmit_body. by rewrite (bind_Ok _ _ _ _ _ (q_empty_run txq σ HL)), He, (bind_Ok _ _ _ _ _ Hs), (proj2 (Z.eqb_eq _ _)) by (by apply Ht).
Qed.

Lemma serial_interrupt_run acc σ : σ.(level) = INTR_OFF → σ.(mode) = QUEUE → serial_ok acc σ →
  ∃ σ' bs, serial_interrupt σ = Ok (tt, σ') ∧ serial_ok acc σ' ∧ ier_ok σ' ∧ σ'.(level) = INTR_OFF ∧ σ'.(mode) = QUEUE ∧
    σ.(port).(rx) = bs ++ σ'.(port).(rx) ∧ contents σ'.(buffer) = contents σ.(buffer) ++ (u8 <$> bs) ∧
    (intq_full σ'.(buffer) = true ∨ σ'.(port).(rx) = []) ∧ zlen (contents σ'.(txq)) ≤ zlen (contents σ.(txq)) ∧ σ'.(keys) = σ.(keys).
Proof.
  intros HL Hm HS. unfold serial_interrupt. rewrite (bind_Ok get _ σ σ σ) by done.
  destruct (receive_run acc _ σ eq_refl HL HS) as (σ1 & bs & H1 & S1 & L1 & M1 & T1 & R1 & C1 & F1 & _ & Ky1). rewrite Hm in M1.
  fold receive_body. rewrite (bind_Ok _ _ _ _ _ H1).
  destruct (transmit_run acc (Z.to_nat INTQ_BUFSIZE) σ1) as (σ2 & H2 & S2 & L2 & M2 & B2 & R2 & _ & Q2 & Ky2); [|done|done|done|].
  { pose proof (contents_bound _ (so_txq _ _ S1)). change (Z.of_nat (Z.to_nat INTQ_BUFSIZE)) with 64. lia. }
  fold transmit_body. rewrite (bind_Ok _ _ _ _ _ H2), (write_ier_run σ2 L2). eexists _, bs. split; [reflexivity|]. destruct S2 as [X1 X2 X3 X4].
  split_and!; [by split|done|done|done|by cbn; rewrite R2|by cbn; rewrite B2|by cbn; rewrite B2, R2|by cbn; rewrite <- T1|by cbn; rewrite Ky2].
Qed.

Lemma serial_init_queue_run acc σ : σ.(mode) ≠ QUEUE → serial_ok acc σ →
  ∃ σ', serial_init_queue σ = Ok (tt, σ') ∧ serial_ok acc σ' ∧ ier_ok σ' ∧ σ'.(level) = σ.(level) ∧ σ'.(mode) = QUEUE ∧ kin σ' = kin σ.
Proof.
  intros Hm [H1 H2 H3 H4]. unfold serial_init_queue. rewrite (bind_Ok _ _ σ σ.(mode) σ) by done.
  assert (∃ σ1, (match σ.(mode) with UNINIT => init_poll | _ => ret tt end) σ = Ok (tt, σ1) ∧ σ1.(mode) = POLL ∧ ring σ1.(txq) ∧ contents σ1.(txq) = [] ∧
    σ1.(buffer) = σ.(buffer) ∧ σ1.(port).(sent) = σ.(port).(sent) ∧ σ1.(level) = σ.(level) ∧ kin σ1 = kin σ) as (σ1 & Hr1 & M1 & R1 & C1 & B1 & S1 & L1 & Kn1).
  { destruct σ.(mode) eqn:E; [|exists σ; split_and!; try done; by apply H4|done]. destruct (init_poll_run σ E) as (σ1 & Hi & I1 & I2 & I3 & I4 & I5 & I6).
    exists σ1. rewrite I2. split_and!; try done. by destruct H1. }
  rewrite (bind_Ok _ _ _ _ _ Hr1), (bind_Ok _ _ σ1 POLL σ1) by (unfold read; by rewrite M1).
  rewrite bind_assert by done. set (σ2 := upd_level INTR_OFF (upd_mode QUEUE σ1)).
  rewrite (bind_Ok _ _ σ1 tt (upd_mode QUEUE σ1)), (bind_Ok _ _ _ σ1.(level) σ2), (bind_Ok _ _ _ _ _ (write_ier_run σ2 eq_refl)) by done.
  eexists. split; [reflexivity|]. split_and!; [|done|done|done|exact Kn1]. split; cbn; [done|by rewrite B1| |done].
  rewrite S1, C1, H3, H4 by done. done.
Qed.

Lemma serial_flush_run acc σ : σ.(mode) = QUEUE → serial_ok acc σ →
  ∃ σ', serial_flush σ = Ok (tt, σ') ∧ serial_ok acc σ' ∧ contents σ'.(txq) = [] ∧ σ'.(port).(sent) = acc ∧ σ'.(level) = σ.(level) ∧ σ'.(mode) = QUEUE.
Proof.
  intros Hm HS. unfold serial_flush. set (σ0 := upd_level INTR_OFF σ). rewrite (bind_Ok intr_disable _ σ σ.(level) σ0) by done.
  assert (∀ n σ1, zlen (contents σ1.(txq)) < Z.of_nat n → σ1.(level) = INTR_OFF → σ1.(mode) = QUEUE → serial_ok acc σ1 →
    ∃ σ', iter n (λ _, e <- q_empty txq ;; if e then ret (inr tt) else b <- getc_txq ;; putc_poll b ;; ret (inl tt)) tt σ1 = Ok (tt, σ') ∧
      serial_ok acc σ' ∧ contents σ'.(txq) = [] ∧ σ'.(mode) = QUEUE) as Hloop.
  { induction n as [|n IH]; intros σ1 Hn HL HM HS1; [lia|]. destruct (intq_empty σ1.(txq)) eqn:He.
    - exists σ1. split_and!; [|done|by apply empty_spec; [apply HS1|]|done]. apply iter_break. by rewrite (bind_Ok _ _ _ _ _ (q_empty_run txq σ1 HL)), He.
    - destruct (getc_txq_run acc σ1 HS1 He) as (b & q' & Hq & HR & Hc & _). destruct (putc_poll_run (upd_txq (λ _, q') σ1) b HL) as (u' & Hu & HT).
      destruct (IH (upd_port (λ _, u') (upd_txq (λ _, q') σ1))) as (σ' & HI & I1 & I2 & I3); [|done|exact HM|by apply (move_byte acc σ1 b)|].
      { cbn. rewrite Hc in Hn. cbn in Hn. lia. }
      exists σ'. split_and!; try done. erewrite iter_continue; [exact HI|]. rewrite (bind_Ok _ _ _ _ _ (q_empty_run txq σ1 HL)), He, (bind_Ok _ _ _ _ _ Hq). by rewrite (bind_Ok _ _ _ _ _ Hu). }
  destruct (Hloop (Z.to_nat INTQ_BUFSIZE) σ0) as (σ1 & H1 & S1 & C1 & M1); [|done|exact Hm|by destruct HS; split|].
  { pose proof (contents_bound _ (so_txq _ _ HS)). change (Z.of_nat (Z.to_nat INTQ_BUFSIZE)) with 64. cbn. lia. }
  rewrite (bind_Ok _ _ _ _ _ H1). eexists. split; [reflexivity|]. destruct S1 as [X1 X2 X3 X4]. split_and!; [by split|done| |done|done].
  cbn. rewrite X3, C1. by rewrite app_nil_r.
Qed.

Lemma input_getc_run acc σ cur : serial_ok acc σ → ier_ok σ →
  ∃ r σ', input_getc cur σ = Ok (r, σ') ∧ serial_ok acc σ' ∧ ier_ok σ' ∧ σ'.(mode) = σ.(mode) ∧ σ'.(keys) = σ.(keys) ∧ σ'.(port).(rx) = σ.(port).(rx) ∧
    match r with
    | Some k => contents σ.(buffer) = k :: contents σ'.(buffer) ∧ σ'.(level) = σ.(level)
    | None => contents σ.(buffer) = [] ∧ contents σ'.(buffer) = [] ∧ σ'.(buffer).(not_empty) = cur
    end.
Proof.
  intros HS HI. pose proof HS as [H1 H2 H3 H4]. unfold input_getc. set (σ0 := upd_level INTR_OFF σ).
  rewrite (bind_Ok intr_disable _ σ σ.(level) σ0), (bind_Ok _ _ _ _ _ (q_empty_run buffer σ0 eq_refl)) by done. change (buffer σ0) with (buffer σ).
  destruct (intq_empty σ.(buffer)) eqn:He.
  - eexists None, _. split; [reflexivity|]. split_and!; [split; [done|by destruct H2|done..]|exact HI|done|done|done|by apply empty_spec|by apply (empty_spec _ H2)|done].
  - destruct (q_getc_run _ H2 He) as (k & q' & Hq & HR & Hc & _). set (σ1 := upd_buffer (λ _, q') σ0).
    rewrite (bind_Ok _ _ σ0 σ.(buffer) σ0), (bind_Ok _ _ σ0 k σ1), (bind_Ok _ _ _ _ _ (serial_notify_run σ1 eq_refl)) by (unfold set_buffer; by rewrite ?Hq).
    assert (serial_ok acc σ1) as S1 by by split. destruct (notified_ok acc σ1 S1) as ([X1 X2 X3 X4] & N2 & N3 & N4).
    eexists (Some k), _. split; [reflexivity|]. split_and!; [by split|exact N2|exact N4|by cbn; unfold notified; destruct (mode σ1)|by cbn; unfold notified; destruct (mode σ1)| |done]. rewrite Hc. f_equal. cbn. unfold notified. by destruct (mode σ1).
Qed.

(** ** What a keyboard types *)

(** The two characters of a key on a US keyboard, without and with Shift. *)
Definition layout : gmap Z (Z * Z) := list_to_map
  [(1, (27, 27)); (2, (49, 33)); (3, (50, 64)); (4, (51, 35)); (5, (52, 36)); (6, (53, 37)); (7, (54, 94)); (8, (55, 38)); (9, (56, 42));
   (10, (57, 40)); (11, (48, 41)); (12, (45, 95)); (13, (61, 43)); (14, (8, 8)); (15, (9, 9)); (16, (113, 81)); (17, (119, 87)); (18, (101, 69));
   (19, (114, 82)); (20, (116, 84)); (21, (121, 89)); (22, (117, 85)); (23, (105, 73)); (24, (111, 79)); (25, (112, 80)); (26, (91, 123)); (27, (93, 125));
   (28, (13, 13)); (30, (97, 65)); (31, (115, 83)); (32, (100, 68)); (33, (102, 70)); (34, (103, 71)); (35, (104, 72)); (36, (106, 74)); (37, (107, 75));
   (38, (108, 76)); (39, (59, 58)); (40, (39, 34)); (41, (96, 126)); (43, (92, 124)); (44, (122, 90)); (45, (120, 88)); (46, (99, 67)); (47, (118, 86));
   (48, (98, 66)); (49, (110, 78)); (50, (109, 77)); (51, (44, 60)); (52, (46, 62)); (53, (47, 63)); (55, (42, 42)); (57, (32, 32))].

Definition is_letter (c : Z) : bool := (97 <=? c) && (c <=? 122).

(** The byte for a key: Caps Lock turns Shift round for letters, Ctrl makes a control
    character of a letter or of one of the characters from @ to _, Alt sets the high bit. *)
Definition key_byte (shift ctrl alt caps : bool) (code : Z) : option Z :=
  match layout !! code with
  | None => None
  | Some (plain, shifted) =>
      let letter := is_letter plain in
      let upper := if letter then xorb shift caps else shift in
      let base := if upper then shifted else plain in
      let c := if ctrl && (letter || ((64 <=? base) && (base <? 96))) then (if letter then shifted else base) - 64 else base in
      Some (if alt then c + 128 else c)
  end.

(** The scan codes of keys: 1 to 127, and the same behind the prefix 0xe0. *)
Definition key_codes : list Z := seqZ 1 127 ++ seqZ 57345 127.

Definition kbd_of (shift ctrl alt caps : bool) : kbd := Kbd shift false alt false ctrl false caps 0.

Lemma typed_same k code : let s := k.(left_shift) || k.(right_shift) in let a := k.(left_alt) || k.(right_alt) in let c := k.(left_ctrl) || k.(right_ctrl) in
  (typed k <$> key_char k code) = (typed (kbd_of s c a k.(caps_lock)) <$> key_char (kbd_of s c a k.(caps_lock)) code).
Proof. cbn zeta. unfold typed, key_char, kbd_of. cbn. by rewrite !orb_false_r. Qed.

Definition bools : list bool := [true; false].
Definition agrees (code : Z) : bool :=
  forallb (λ s, forallb (λ c, forallb (λ a, forallb (λ l,
    bool_decide ((typed (kbd_of s c a l) <$> key_char (kbd_of s c a l) code) = key_byte s c a l code)) bools) bools) bools) bools.

Lemma bools_all (f : bool → bool) b : forallb f bools = true → f b = true.
Proof. rewrite forallb_forall. intros H. apply H. destruct b; cbn; auto. Qed.

Lemma typed_table s c a l code : code ∈ key_codes → (typed (kbd_of s c a l) <$> key_char (kbd_of s c a l) code) = key_byte s c a l code.
Proof.
  intros Hc. assert (forallb agrees key_codes = true) as HA by (vm_compute; reflexivity).
  rewrite forallb_forall in HA. specialize (HA code). rewrite <- list_elem_of_In in HA. specialize (HA Hc). unfold agrees in HA.
  apply (bools_all _ s), (bools_all _ c), (bools_all _ a), (bools_all _ l) in HA. by apply bool_decide_eq_true in HA.
Qed.

(** A key goes down or up. *)
Record key_event := KeyEvent { ke_code : Z; ke_release : bool }.

(** The bytes the keyboard controller sends for it. *)
Definition event_bytes (e : key_event) : list Z :=
  let low := e.(ke_code) `mod` 256 + (if e.(ke_release) then 128 else 0) in
  if 256 <=? e.(ke_code) then [224; low] else [low].

(** 0xe0 is the prefix, so that the key with code 0x60 does not exist. *)
Definition valid_event (e : key_event) : Prop := e.(ke_code) ∈ key_codes ∧ e.(ke_code) ≠ 96.

(** The keys that are down, Caps Lock, and the bytes typed: a full buffer loses them. *)
Record desk := Desk { held : gset Z; caps : bool; text : list Z }.

Definition desk_byte (d : desk) (code : Z) : option Z :=
  key_byte (bool_decide (42 ∈ d.(held)) || bool_decide (54 ∈ d.(held))) (bool_decide (29 ∈ d.(held)) || bool_decide (57373 ∈ d.(held)))
    (bool_decide (56 ∈ d.(held)) || bool_decide (57400 ∈ d.(held))) d.(caps) code.

Definition desk_event (e : key_event) (d : desk) : desk :=
  if e.(ke_release) then Desk (d.(held) ∖ {[e.(ke_code)]}) d.(caps) d.(text)
  else Desk (d.(held) ∪ {[e.(ke_code)]}) (if e.(ke_code) =? 58 then negb d.(caps) else d.(caps))
    (match desk_byte d e.(ke_code) with Some b => if zlen d.(text) <? 63 then d.(text) ++ [b] else d.(text) | None => d.(text) end).

Record keyboard_rel (d : desk) (σ : con) : Prop := {
  kr_keys : let k := σ.(keys) in
    k.(left_shift) = bool_decide (42 ∈ d.(held)) ∧ k.(right_shift) = bool_decide (54 ∈ d.(held)) ∧
    k.(left_alt) = bool_decide (56 ∈ d.(held)) ∧ k.(right_alt) = bool_decide (57400 ∈ d.(held)) ∧
    k.(left_ctrl) = bool_decide (29 ∈ d.(held)) ∧ k.(right_ctrl) = bool_decide (57373 ∈ d.(held)) ∧ k.(caps_lock) = d.(caps);
  kr_text : contents σ.(buffer) = d.(text);
}.

(** The bytes of an event are read back as its code and direction. *)
Lemma code_range c : c ∈ key_codes → 1 ≤ c < 128 ∨ 57345 ≤ c < 57472.
Proof. unfold key_codes. rewrite elem_of_app, !elem_of_seqZ. lia. Qed.

Lemma read_code_run σ e rest : valid_event e → σ.(scan_codes) = event_bytes e ++ rest →
  read_code σ = Ok (e.(ke_code) + (if e.(ke_release) then 128 else 0), upd_scan rest σ).
Proof.
  intros [Hv Hn] Hs. apply code_range in Hv. unfold read_code, event_bytes in *. destruct e as [c r]. cbn [ke_code ke_release] in *. set (x := if r then 128 else 0) in *.
  assert (x = 0 ∨ x = 128) as Hx by (unfold x; destruct r; lia). destruct Hv as [Hv|Hv].
  - rewrite (proj2 (Z.leb_gt 256 c)), Z.mod_small in Hs by lia. cbn in Hs. rewrite (bind_Ok in_data _ σ (c + x) (upd_scan rest σ)).
    + rewrite (proj2 (Z.eqb_neq _ _)) by lia. done.
    + unfold in_data, bind, get. rewrite Hs. cbn. by rewrite u8_small by mlia.
  - rewrite (proj2 (Z.leb_le 256 c)) in Hs by lia. cbn in Hs. set (σ1 := upd_scan (c `mod` 256 + x :: rest) σ).
    rewrite (bind_Ok in_data _ σ 224 σ1) by (unfold in_data, bind, get; by rewrite Hs). rewrite (proj2 (Z.eqb_eq 224 224)) by done.
    assert (0 ≤ c `mod` 256 + x < 256 ∧ c = 57344 + c `mod` 256) as [Hr Ec] by dm_lia.
    rewrite (bind_Ok in_data _ σ1 (c `mod` 256 + x) (upd_scan rest σ)) by (unfold in_data, bind, get; cbn; by rewrite u8_small).
    unfold ret. change (Z.shiftl 224 8) with 57344. rewrite (lor_add 57344 _ 8) by done. do 2 f_equal. lia.
Qed.

(** Bit 7 tells whether the key goes up. *)
Lemma split_code c r : c ∈ key_codes → let code := c + (if r : bool then 128 else 0) in
  negb (Z.land code 128 =? 0) = r ∧ Z.land code (UINT_MAX - 128) = c.
Proof.
  intros Hc. assert (Forall (λ c, Forall (λ r : bool, negb (Z.land (c + (if r then 128 else 0)) 128 =? 0) = r ∧ Z.land (c + (if r then 128 else 0)) (UINT_MAX - 128) = c) bools) key_codes) as HF by by_decide.
  rewrite Forall_forall in HF. specialize (HF c Hc). rewrite Forall_forall in HF. apply HF. destruct r; by_decide.
Qed.


Lemma key_byte_of d σ code : keyboard_rel d σ → code ∈ key_codes → (typed σ.(keys) <$> key_char σ.(keys) code) = desk_byte d code.
Proof.
  intros [(K1 & K2 & K3 & K4 & K5 & K6 & K7) _] Hc. rewrite typed_same. cbn zeta. rewrite typed_table by done. unfold desk_byte. by rewrite K1, K2, K3, K4, K5, K6, K7.
Qed.

(** The keys that change the meaning of others have no character. *)
Definition modifiers : list Z := [42; 54; 56; 57400; 29; 57373].

Lemma modifier_no_char d code : code ∈ 58 :: modifiers → desk_byte d code = None.
Proof.
  intros Hc. assert (Forall (λ c, layout !! c = None) (58 :: modifiers)) as HF by by_decide. rewrite Forall_forall in HF.
  unfold desk_byte, key_byte. by rewrite (HF code Hc).
Qed.

Lemma set_shift_rel d σ code b : code ≠ 58 → keyboard_rel d σ →
  let h := if b : bool then d.(held) ∪ {[code]} else d.(held) ∖ {[code]} in
  keyboard_rel (Desk h d.(caps) d.(text)) (upd_keys (set_shift_key code b) σ).
Proof.
  intros Hn [(K1 & K2 & K3 & K4 & K5 & K6 & K7) KT]. cbn zeta. split; [|exact KT].
  assert (∀ x, x ≠ code → bool_decide (x ∈ (if b then d.(held) ∪ {[code]} else d.(held) ∖ {[code]})) = bool_decide (x ∈ d.(held))) as Hne.
  { intros x Hx. apply bool_decide_ext. destruct b; set_solver. }
  assert (bool_decide (code ∈ (if b then d.(held) ∪ {[code]} else d.(held) ∖ {[code]})) = b) as Heq.
  { destruct b; [apply bool_decide_eq_true|apply bool_decide_eq_false]; set_solver. }
  cbn [upd_keys keys]. unfold set_shift_key. cbn [held caps].
  repeat (zcase; [subst code; cbn; rewrite ?Heq, ?Hne by lia; by split_and!|]). cbn. rewrite !Hne by lia. by split_and!.
Qed.

Lemma key_byte_u8 s c a l code b : key_byte s c a l code = Some b → is_u8 b.
Proof.
  unfold key_byte. destruct (layout !! code) as [[p h]|] eqn:E; [|done].
  assert (map_Forall (λ _ x, 0 ≤ fst x < 128 ∧ 0 ≤ snd x < 128 ∧ (is_letter (fst x) = true → 64 ≤ snd x)) layout) as HF by by_decide.
  destruct (HF _ _ E) as (H1 & H2 & H3). cbn [fst snd] in *.
  destruct (is_letter p); cbn [orb]; intros [= <-]; destruct s, c, a, l; cbn [andb orb xorb]; repeat (zcase; cbn [andb]); try (specialize (H3 eq_refl)); mlia.
Qed.

(** Keys that are no modifiers do not change what the modifiers say. *)
Lemma keys_rel d d' σ σ' : keyboard_rel d σ → (∀ m, m ∈ modifiers → m ∈ d'.(held) ↔ m ∈ d.(held)) →
  (∀ f : kbd → bool, f ∈ [left_shift; right_shift; left_alt; right_alt; left_ctrl; right_ctrl] → f σ'.(keys) = f σ.(keys)) →
  σ'.(keys).(caps_lock) = d'.(caps) → contents σ'.(buffer) = d'.(text) → keyboard_rel d' σ'.
Proof.
  intros [(K1 & K2 & K3 & K4 & K5 & K6 & K7) KT] Hm Hk Hc Ht. split; [|done]. cbn zeta.
  rewrite (Hk left_shift), (Hk right_shift), (Hk left_alt), (Hk right_alt), (Hk left_ctrl), (Hk right_ctrl) by (rewrite !elem_of_cons; tauto).
  rewrite K1, K2, K3, K4, K5, K6. split_and!; try exact Hc; apply bool_decide_ext; symmetry; apply Hm; by_decide.
Qed.

Lemma held_other d code (b : bool) m : m ≠ code → m ∈ (if b then d.(held) ∖ {[code]} else d.(held) ∪ {[code]}) ↔ m ∈ d.(held).
Proof. intros Hm. destruct b; set_solver. Qed.

Lemma key_event_run acc d σ e rest : valid_event e → σ.(level) = INTR_OFF → serial_ok acc σ → ier_ok σ → keyboard_rel d σ →
  σ.(scan_codes) = event_bytes e ++ rest →
  ∃ σ', keyboard_interrupt σ = Ok (tt, σ') ∧ σ'.(level) = INTR_OFF ∧ serial_ok acc σ' ∧ ier_ok σ' ∧ keyboard_rel (desk_event e d) σ' ∧
    σ'.(scan_codes) = rest ∧ σ'.(mode) = σ.(mode) ∧ σ'.(port).(rx) = σ.(port).(rx).
Proof.
  intros Hv HL HS HI HK Hs. pose proof Hv as [Hc _]. unfold keyboard_interrupt. rewrite (bind_Ok _ _ σ σ.(keys) σ), (bind_Ok _ _ _ _ _ (read_code_run σ e rest Hv Hs)) by done.
  destruct e as [c r]. cbn [ke_code ke_release] in *. destruct (split_code c r Hc) as [-> ->]. set (σ1 := upd_scan rest σ).
  assert (serial_ok acc σ1 ∧ ier_ok σ1 ∧ keyboard_rel d σ1) as (S1 & I1 & K1) by (destruct HS, HK; by split_and!; [split| |split]).
  assert (d.(caps) = σ.(keys).(caps_lock) ∧ contents σ.(buffer) = d.(text)) as [Hcaps Htext] by (destruct HK as [(_ & _ & _ & _ & _ & _ & ?) ?]; done).
  unfold desk_event. cbn [ke_code ke_release]. destruct (Z.eqb_spec c 58) as [->|H58].
  { rewrite modifier_no_char by by_decide. assert (∀ m, m ∈ modifiers → m ≠ 58) as Hm by (intros m Hm ->; revert Hm; by_decide).
    destruct r; [exists σ1|exists (upd_keys toggle_caps σ1)]; (split_and!; [done|done|by destruct S1; split|exact I1| |done|done|done]).
    - apply (keys_rel d _ σ1); [done| |done|done|done]. intros m Hin. apply (held_other d 58 true). by apply Hm.
    - apply (keys_rel d _ σ1); [done| | |by cbn; rewrite Hcaps|done].
      + intros m Hin. apply (held_other d 58 false). by apply Hm.
      + intros f Hf. rewrite !elem_of_cons in Hf. by decompose [or] Hf; subst; try done; exfalso; eapply not_elem_of_nil. }
  pose proof (key_byte_of d σ c HK Hc) as Hb. destruct (key_char σ.(keys) c) as [ch|] eqn:Ech; cbn in Hb.
  - assert (∀ m, m ∈ modifiers → m ≠ c) as Hm. { intros m Hm ->. rewrite modifier_no_char in Hb by (by right). done. }
    rewrite <- Hb. destruct r.
    { exists σ1. split_and!; try done. apply (keys_rel d _ σ1); try done. intros m Hin. apply (held_other d c true). by apply Hm. }
    rewrite (bind_Ok _ _ _ _ _ (input_full_run σ1 HL)). change (buffer σ1) with (buffer σ). pose proof (full_spec _ (so_buffer _ _ HS)) as Hfs. rewrite Htext in Hfs.
    destruct (intq_full σ.(buffer)) eqn:Hf.
    + rewrite (proj2 (Z.ltb_ge _ 63)) by (rewrite (proj1 Hfs eq_refl); lia). exists σ1. split_and!; try done.
      apply (keys_rel d _ σ1); try done. intros m Hin. apply (held_other d c false). by apply Hm.
    + assert (zlen (text d) < 63) as Hlt. { pose proof (contents_bound _ (so_buffer _ _ HS)). rewrite Htext in *. destruct (decide (zlen (text d) = 63)) as [E|]; [by apply Hfs in E|lia]. }
      rewrite (proj2 (Z.ltb_lt _ 63)) by done. set (σ2 := upd_keys count_key σ1). rewrite (bind_Ok _ _ σ1 tt σ2) by done.
      assert (serial_ok acc σ2) as S2 by by destruct S1; split.
      destruct (input_putc_run acc σ2 (typed σ.(keys) ch) HL S2 Hf) as (σ3 & H3 & S3 & I3 & L3 & M3 & C3 & _ & Rx3 & _ & K3 & Sc3).
      exists σ3. split_and!; try done. apply (keys_rel d _ σ1); try done.
      * intros m Hin. apply (held_other d c false). by apply Hm.
      * intros f Hf'. rewrite K3. rewrite !elem_of_cons in Hf'. by decompose [or] Hf'; subst; try done; exfalso; eapply not_elem_of_nil.
      * by rewrite K3, Hcaps.
      * rewrite C3. cbn [text]. f_equal; [exact Htext|]. f_equal. apply u8_small. by eapply key_byte_u8.
  - rewrite <- Hb. exists (upd_keys (set_shift_key c (negb r)) σ1). split_and!; [done|done|by destruct S1; split|exact I1| |done|done|done].
    pose proof (set_shift_rel d σ1 c (negb r) H58 K1) as HR. by destruct r.
Qed.

(** ** The console as a whole

    Between the events interrupts are on; a handler runs with interrupts off. *)

Inductive event :=
  | Putc (b : Z)            (* a thread calls serial_putc with interrupts on *)
  | Continue (b : Z)        (* a thread that waits in serial_putc for room goes on *)
  | PutcOff (b : Z)         (* serial_putc with interrupts off *)
  | Arrive (b : Z)          (* a byte arrives at the port *)
  | Serial                  (* the interrupt of the port *)
  | Key (e : key_event)     (* a key goes down or up *)
  | Getc                    (* a thread calls input_getc *)
  | StartQueue.             (* serial_init_queue *)

Inductive outcome := Accepted | Waits | Got (k : Z) | NoKey | Quiet.

Definition as_handler (c : M con unit) (σ : con) : res (outcome * con) :=
  let* r := c (upd_level INTR_OFF σ) in Ok (Quiet, upd_level INTR_ON (snd r)).

Definition accepted (r : res (bool * con)) : res (outcome * con) :=
  let* x := r in Ok (if fst x then Accepted else Waits, upd_level INTR_ON (snd x)).

Definition handle (cur : Z) (e : event) (σ : con) : res (outcome * con) :=
  match e with
  | Putc b => accepted (serial_putc cur b σ)
  | PutcOff b => accepted (serial_putc cur b (upd_level INTR_OFF σ))
  | Continue b =>
      match σ.(mode) with
      | QUEUE => accepted (serial_enqueue cur INTR_ON b (upd_level INTR_OFF σ))
      | _ => Ok (Quiet, σ)
      end
  | Arrive b => Ok (Quiet, upd_port (λ u, Uart (u.(rx) ++ [b]) u.(busy) u.(delays) u.(sent) u.(ier) u.(setup)) σ)
  | Serial => match σ.(mode) with QUEUE => as_handler serial_interrupt σ | _ => Ok (Quiet, σ) end
  | Key e => as_handler keyboard_interrupt (upd_scan (event_bytes e) σ)
  | Getc => let* r := input_getc cur σ in Ok (match fst r with Some k => Got k | None => NoKey end, upd_level INTR_ON (snd r))
  | StartQueue => match σ.(mode) with QUEUE => Ok (Quiet, σ) | _ => let* r := serial_init_queue σ in Ok (Quiet, snd r) end
  end.

Fixpoint handle_all (cur : Z) (es : list event) (σ : con) : res (list outcome * con) :=
  match es with
  | [] => Ok ([], σ)
  | e :: es => let* r := handle cur e σ in let* rs := handle_all cur es (snd r) in Ok (fst r :: fst rs, snd rs)
  end.

(** What a user sees: the keys and the text typed but not read, the bytes on the line to
    the port, and the bytes given to the port. *)
Record acon := Acon { a_desk : desk; a_line : list Z; a_out : list Z }.

Definition a_text (f : list Z → list Z) (a : acon) : acon := Acon (Desk a.(a_desk).(held) a.(a_desk).(caps) (f a.(a_desk).(text))) a.(a_line) a.(a_out).

Definition a_event (queued : bool) (e : event) (o : outcome) (a : acon) : acon :=
  match e, o with
  | (Putc b | PutcOff b | Continue b), Accepted => Acon a.(a_desk) a.(a_line) (a.(a_out) ++ [b])
  | Arrive b, _ => Acon a.(a_desk) (a.(a_line) ++ [b]) a.(a_out)
  | Serial, _ =>
      if queued then
        let n := (63 - length a.(a_desk).(text))%nat in
        Acon (Desk a.(a_desk).(held) a.(a_desk).(caps) (a.(a_desk).(text) ++ (u8 <$> take n a.(a_line)))) (drop n a.(a_line)) a.(a_out)
      else a
  | Key e, _ => Acon (desk_event e a.(a_desk)) a.(a_line) a.(a_out)
  | Getc, Got _ => a_text (drop 1) a
  | _, _ => a
  end.

(** The answer that fits the state. *)
Definition fits (σ : con) (e : event) (o : outcome) (a : acon) : Prop :=
  match e, o with
  | (Putc _ | PutcOff _ | Continue _), Accepted => True
  | (Putc _ | Continue _), Waits => zlen (contents σ.(txq)) = 63
  | Continue _, Quiet => σ.(mode) ≠ QUEUE
  | Getc, Got k => a.(a_desk).(text) !! 0%nat = Some k
  | Getc, NoKey => a.(a_desk).(text) = []
  | (Arrive _ | Serial | Key _ | StartQueue), Quiet => True
  | _, _ => False
  end.

Record con_rel (a : acon) (σ : con) : Prop := {
  cr_level : σ.(level) = INTR_ON;
  cr_keys : keyboard_rel a.(a_desk) σ;
  cr_line : σ.(port).(rx) = a.(a_line);
  cr_out : serial_ok a.(a_out) σ;
  cr_ier : ier_ok σ;
}.

Definition event_ok (e : event) : Prop :=
  match e with Putc b | PutcOff b | Continue b => b = u8 b | Key k => valid_event k | _ => True end.

Definition is_queue (m : smode) : bool := match m with QUEUE => true | _ => false end.

Lemma kin_rel d σ σ' : kin σ' = kin σ → keyboard_rel d σ → keyboard_rel d σ' ∧ σ'.(port).(rx) = σ.(port).(rx).
Proof. intros [= E1 E2 E3] [K1 K2]. split; [|done]. split; [by rewrite E2|by rewrite E1]. Qed.

Lemma serial_ok_level acc l σ : serial_ok acc σ → serial_ok acc (upd_level l σ).
Proof. intros []. by split. Qed.

Lemma keyboard_rel_level d l σ : keyboard_rel d σ → keyboard_rel d (upd_level l σ).
Proof. intros []. by split. Qed.

(** The end of an event. *)
Lemma con_rel_on a σ : keyboard_rel a.(a_desk) σ → σ.(port).(rx) = a.(a_line) → serial_ok a.(a_out) σ → ier_ok σ → con_rel a (upd_level INTR_ON σ).
Proof. intros K R O I. split; [done|by apply keyboard_rel_level|done|by apply serial_ok_level|done]. Qed.

Definition given (r : bool) (b : Z) (a : acon) : acon := if r then Acon a.(a_desk) a.(a_line) (a.(a_out) ++ [b]) else a.

(** serial_putc at either level. *)
Lemma putc_event a σ cur b l : con_rel a σ → b = u8 b →
  ∃ r σ', accepted (serial_putc cur b (upd_level l σ)) = Ok (if r : bool then Accepted else Waits, σ') ∧
    con_rel (given r b a) σ' ∧ is_queue σ'.(mode) = is_queue σ.(mode) ∧ (r = false → l = INTR_ON ∧ zlen (contents σ'.(txq)) = 63).
Proof.
  intros [L K R O I] Hb. destruct (serial_putc_run a.(a_out) (upd_level l σ) cur b (serial_ok_level _ _ _ O) I Hb) as (r & σ1 & H1 & I1 & M1 & Kn & H5).
  assert (is_queue σ1.(mode) = is_queue σ.(mode)) as Mq by (rewrite M1; cbn; by destruct (mode σ)).
  destruct (kin_rel a.(a_desk) (upd_level l σ) σ1 Kn (keyboard_rel_level _ _ _ K)) as [K1 R1]. unfold accepted. rewrite H1. cbn [rbind fst snd].
  exists r. eexists. split; [reflexivity|]. destruct r.
  - destruct H5 as [S5 _]. split; [|by split]. apply con_rel_on; [done|by rewrite R1|done|done].
  - destruct H5 as (S5 & L5 & F5 & _). split; [apply con_rel_on; [done|by rewrite R1|done|done]|].
    split; [exact Mq|]. intros _. split; [exact L5|]. apply full_spec; [apply S5|exact F5].
Qed.

Lemma continue_event a σ cur b : con_rel a σ → b = u8 b → σ.(mode) = QUEUE →
  ∃ r σ', accepted (serial_enqueue cur INTR_ON b (upd_level INTR_OFF σ)) = Ok (if r : bool then Accepted else Waits, σ') ∧
    con_rel (given r b a) σ' ∧ is_queue σ'.(mode) = is_queue σ.(mode) ∧ (r = false → zlen (contents σ'.(txq)) = 63).
Proof.
  intros [L K R O I] Hb Hm. destruct (serial_enqueue_run a.(a_out) (upd_level INTR_OFF σ) cur INTR_ON b eq_refl Hm (serial_ok_level _ _ _ O)) as (r & σ1 & H1 & M1 & Kn & H5).
  destruct (kin_rel a.(a_desk) (upd_level INTR_OFF σ) σ1 Kn (keyboard_rel_level _ _ _ K)) as [K1 R1]. unfold accepted. rewrite H1. cbn [rbind fst snd].
  exists r. eexists. split; [reflexivity|]. destruct r.
  - destruct H5 as (S5 & I5 & _). rewrite <- Hb in S5. split; [|split; [by cbn; rewrite M1, Hm|done]]. apply con_rel_on; [done|by rewrite R1|done|done].
  - destruct H5 as (S5 & I5 & _ & F5 & _). split; [apply con_rel_on; [done|by rewrite R1|done|by apply I5]|].
    split; [by cbn; rewrite M1, Hm|]. intros _. apply full_spec; [apply S5|exact F5].
Qed.

Lemma serial_event a σ : con_rel a σ → σ.(mode) = QUEUE →
  ∃ σ', as_handler serial_interrupt σ = Ok (Quiet, σ') ∧ con_rel (a_event true Serial Quiet a) σ' ∧ σ'.(mode) = QUEUE.
Proof.
  intros [L K R O I] Hm. destruct (serial_interrupt_run a.(a_out) (upd_level INTR_OFF σ) eq_refl Hm (serial_ok_level _ _ _ O)) as (σ1 & bs & H1 & S1 & I1 & L1 & M1 & R1 & C1 & F1 & _ & Ky1).
  unfold as_handler. rewrite H1. cbn [rbind fst snd]. eexists. split; [reflexivity|]. cbn in R1, C1. rewrite R in R1. pose proof (kr_text _ _ K) as KT. rewrite KT in C1.
  pose proof (contents_bound _ (so_buffer _ _ S1)) as Hb. rewrite C1, length_app, length_fmap in Hb. set (n := (63 - length a.(a_desk).(text))%nat).
  assert (take n a.(a_line) = bs ∧ drop n a.(a_line) = σ1.(port).(rx)) as [Et Ed].
  { destruct F1 as [F1|F1].
    - apply (full_spec _ (so_buffer _ _ S1)) in F1. rewrite C1, length_app, length_fmap in F1. rewrite R1. unfold n. by rewrite take_app_length', drop_app_length' by lia.
    - rewrite F1, app_nil_r in R1. subst bs. unfold n. by rewrite take_ge, drop_ge by lia. }
  split; [|exact M1]. apply con_rel_on; cbn; fold n; [|by rewrite Ed|done|done]. rewrite Et. split; [|exact C1]. rewrite Ky1. apply K.
Qed.

Lemma key_event_rel a σ e : con_rel a σ → valid_event e →
  ∃ σ', as_handler keyboard_interrupt (upd_scan (event_bytes e) σ) = Ok (Quiet, σ') ∧ con_rel (Acon (desk_event e a.(a_desk)) a.(a_line) a.(a_out)) σ' ∧ σ'.(mode) = σ.(mode).
Proof.
  intros [L K R O I] Hv. set (σ0 := upd_level INTR_OFF (upd_scan (event_bytes e) σ)).
  destruct (key_event_run a.(a_out) a.(a_desk) σ0 e [] Hv eq_refl) as (σ1 & H1 & L1 & S1 & I1 & K1 & _ & M1 & R1); [by destruct O; split|exact I|by destruct K; split|by cbn; rewrite app_nil_r|].
  unfold as_handler. fold σ0. rewrite H1. cbn [rbind snd]. eexists. split; [reflexivity|]. split; [|exact M1]. apply con_rel_on; [done|by rewrite R1|done|done].
Qed.

Definition starts (e : event) : bool := match e with StartQueue => true | _ => false end.

Lemma handle_refines a σ cur e : con_rel a σ → event_ok e →
  ∃ o σ', handle cur e σ = Ok (o, σ') ∧ fits σ' e o a ∧ con_rel (a_event (is_queue σ.(mode)) e o a) σ' ∧
    is_queue σ'.(mode) = is_queue σ.(mode) || starts e.
Proof.
  intros HC He. pose proof HC as [L K R O I]. destruct e as [b|b|b|b| |k| |]; cbn [handle event_ok starts] in *; rewrite ?orb_false_r.
  - destruct (putc_event a σ cur b INTR_ON HC He) as (r & σ' & H1 & H2 & M2 & H3). replace (upd_level INTR_ON σ) with σ in H1 by (destruct σ; cbn in *; by rewrite L).
    eexists _, σ'. split; [exact H1|]. destruct r; split; try done. by apply H3.
  - destruct (mode σ) eqn:Hm; cbn [is_queue].
    1,2: eexists _, σ; split; [reflexivity|]; split; [cbn; by rewrite Hm|by rewrite Hm].
    destruct (continue_event a σ cur b HC He Hm) as (r & σ' & H1 & H2 & M2 & H3). rewrite Hm in M2. eexists _, σ'. split; [exact H1|]. destruct r; split; try done. by apply H3.
  - destruct (putc_event a σ cur b INTR_OFF HC He) as (r & σ' & H1 & H2 & M2 & H3). eexists _, σ'. split; [exact H1|].
    destruct r; [by split|]. by destruct (H3 eq_refl).
  - eexists _, _. split; [reflexivity|]. split; [done|]. split; [|done]. destruct O as [O1 O2 O3 O4], K as [K1 K2]. split; [done|by split|cbn; by rewrite R|by split|exact I].
  - destruct (mode σ) eqn:Hm; cbn [is_queue]; [by eexists _, σ; rewrite Hm|by eexists _, σ; rewrite Hm|].
    destruct (serial_event a σ HC Hm) as (σ' & H1 & H2 & M2). eexists _, σ'. by rewrite M2.
  - destruct (key_event_rel a σ k HC He) as (σ' & H1 & H2 & M2). eexists _, σ'. by rewrite M2.
  - destruct (input_getc_run a.(a_out) σ cur O I) as (r & σ1 & H1 & S1 & I1 & M1 & Ky1 & R1 & H5). rewrite H1. cbn [rbind fst snd]. pose proof (kr_text _ _ K) as KT.
    eexists _, _. split; [reflexivity|]. destruct r as [k|].
    + destruct H5 as [C5 _]. rewrite KT in C5. split; [cbn; by rewrite C5|]. split; [|by cbn; rewrite M1]. apply con_rel_on; cbn; [|by rewrite R1|done|done].
      split; [cbn; rewrite Ky1; apply K|]. cbn. by rewrite C5.
    + destruct H5 as (C5 & C6 & _). rewrite KT in C5. split; [done|]. split; [|by cbn; rewrite M1]. apply con_rel_on; cbn; [|by rewrite R1|done|done].
      split; [rewrite Ky1; apply K|]. by rewrite C6, C5.
  - destruct (mode σ) eqn:Hm; cbn [is_queue orb]; [| |by eexists _, σ; rewrite Hm].
    all: destruct (serial_init_queue_run a.(a_out) σ) as (σ1 & H1 & S1 & I1 & L1 & M1 & Kn); [congruence|done|]; rewrite H1; cbn [rbind snd].
    all: destruct (kin_rel a.(a_desk) σ σ1 Kn K) as [K1 R1]; eexists _, σ1; (split; [reflexivity|]); (split; [done|]); split; [|by rewrite M1].
    all: by split; [rewrite L1| |rewrite R1| |].
Qed.

(** The events with their answers, one after the other. *)
Fixpoint a_run (queued : bool) (es : list event) (os : list outcome) (a : acon) : acon :=
  match es, os with
  | e :: es, o :: os => a_run (queued || starts e) es os (a_event queued e o a)
  | _, _ => a
  end.

(** Every answer fits: input_getc answers the first byte of the text. *)
Definition answer_ok (e : event) (o : outcome) (a : acon) : Prop :=
  match e, o with
  | (Putc _ | Continue _), (Accepted | Waits) => True
  | PutcOff _, Accepted => True
  | Getc, Got k => a.(a_desk).(text) !! 0%nat = Some k
  | Getc, NoKey => a.(a_desk).(text) = []
  | (Continue _ | Arrive _ | Serial | Key _ | StartQueue), Quiet => True
  | _, _ => False
  end.

Fixpoint answers (queued : bool) (es : list event) (os : list outcome) (a : acon) : Prop :=
  match es, os with
  | e :: es, o :: os => answer_ok e o a ∧ answers (queued || starts e) es os (a_event queued e o a)
  | [], [] => True
  | _, _ => False
  end.

Lemma fits_answer σ e o a : fits σ e o a → answer_ok e o a.
Proof. by destruct e, o. Qed.

Definition boot_con (b1 b2 : list Z) : con :=
  Con UNINIT (Intq NULL NULL b1 0 0) (Intq NULL NULL b2 0 0) (Uart [] 0 [] [] 0 []) (Kbd false false false false false false false 0) [] INTR_ON.

(** Property C24.  The console, from the start of the machine and for every sequence of
    calls, arriving bytes, key strokes and interrupts: no assertion fails and no loop
    runs for ever; the bytes given to the serial port are sent in the order given,
    whether by polling, through the queue or both; the text read is the text typed and
    received, in order, with what the keys mean at that moment; bytes are lost only when
    63 wait; and whenever bytes wait to be sent the transmit interrupt of the port is on,
    and whenever there is room for input its receive interrupt is on. *)
Theorem console_refines cur b1 b2 es : length b1 = 64%nat → length b2 = 64%nat → Forall event_ok es →
  ∃ os σ, handle_all cur es (boot_con b1 b2) = Ok (os, σ) ∧ answers false es os (Acon (Desk ∅ false []) [] []) ∧
    let a := a_run false es os (Acon (Desk ∅ false []) [] []) in
    a.(a_out) = σ.(port).(sent) ++ contents σ.(txq) ∧ contents σ.(buffer) = a.(a_desk).(text) ∧ σ.(port).(rx) = a.(a_line) ∧
    keyboard_rel a.(a_desk) σ ∧
    (σ.(mode) = QUEUE → σ.(port).(ier) = (if intq_empty σ.(txq) then 0 else IER_XMIT) + (if intq_full σ.(buffer) then 0 else IER_RECV)).
Proof.
  intros Hb1 Hb2 Hes. set (a0 := Acon (Desk ∅ false []) [] []).
  assert (con_rel a0 (boot_con b1 b2)) as H0 by (split; [done|by split|done|by split|done]).
  assert (∀ es a σ, Forall event_ok es → con_rel a σ → ∃ os σ', handle_all cur es σ = Ok (os, σ') ∧ answers (is_queue σ.(mode)) es os a ∧ con_rel (a_run (is_queue σ.(mode)) es os a) σ') as Hall.
  { clear. induction es as [|e es IH]; intros a σ Hes HC; [by exists [], σ|]. apply Forall_cons in Hes as [He Hes].
    destruct (handle_refines a σ cur e HC He) as (o & σ1 & H1 & HF & HC1 & M1). destruct (IH _ σ1 Hes HC1) as (os & σ2 & H2 & L2 & HC2).
    exists (o :: os), σ2. cbn [handle_all]. rewrite H1. cbn [rbind fst snd]. rewrite H2. split; [done|]. cbn [a_run answers]. rewrite <- M1. split; [|done]. split; [by apply (fits_answer σ1)|done]. }
  destruct (Hall es a0 (boot_con b1 b2) Hes H0) as (os & σ & H1 & L1 & HC). exists os, σ. split; [done|]. split; [done|]. cbn zeta.
  change (is_queue (mode (boot_con b1 b2))) with false in HC. destruct HC as [_ K R O I]. split_and!; [apply O|apply K|done|done|done].
Qed.

Lemma console_refines_witness :
  let es := [Putc 72; Key (KeyEvent 42 false); Key (KeyEvent 35 false); StartQueue; Putc 105; Getc; Arrive 13; Serial; Getc] in
  Forall event_ok es ∧ ∃ os σ, handle_all 7 es (boot_con (replicate 64 0) (replicate 64 0)) = Ok (os, σ) ∧ answers false es os (Acon (Desk ∅ false []) [] []).
Proof.
  intros es. assert (Forall event_ok es) as Hes.
  { assert (∀ c, bool_decide (c ∈ key_codes ∧ c ≠ 96) = true → c ∈ key_codes ∧ c ≠ 96) as Hv by (intros c H; exact (bool_decide_eq_true_1 _ H)).
    repeat constructor; (apply (Hv 42); vm_compute; reflexivity) || (apply (Hv 35); vm_compute; reflexivity). }
  split; [exact Hes|].
  destruct (console_refines 7 (replicate 64 0) (replicate 64 0) es) as (os & σ & H1 & H2 & _); [reflexivity|reflexivity|exact Hes|].
  exists os, σ. split; [exact H1|exact H2].
Defined.
