(* ===== verification/Vga.v ===== *)
(** * The text screen

    devices/vga.c: characters on the screen of 25 rows and 80 columns, with the cursor in
    the registers of the display controller. *)

From S2P Require Import Prelude Vaddr.
Local Open Scope Z_scope.
Local Open Scope c_scope.

Definition COL_CNT : Z := 80.
Definition ROW_CNT : Z := 25.
Definition GRAY_ON_BLACK : Z := 7.

(** A cell has a character and an attribute. *)
Definition cell : Type := Z * Z.

(** [crt_high] and [crt_low] are registers 0x0e and 0x0f of the controller. *)
Record vga := Vga { inited : bool; cx : Z; cy : Z; fb : list (list cell); crt_high : Z; crt_low : Z }.

Definition upd_cx (x : Z) (σ : vga) : vga := Vga σ.(inited) x σ.(cy) σ.(fb) σ.(crt_high) σ.(crt_low).
Definition upd_cy (y : Z) (σ : vga) : vga := Vga σ.(inited) σ.(cx) y σ.(fb) σ.(crt_high) σ.(crt_low).
Definition upd_fb (f : list (list cell)) (σ : vga) : vga := Vga σ.(inited) σ.(cx) σ.(cy) f σ.(crt_high) σ.(crt_low).

Definition modify (f : vga → vga) : M vga unit := λ σ, Ok (tt, f σ).

(** [fb[y][x] = c]: the row and the column must exist. *)
Definition put_cell (y x : Z) (c : cell) : M vga unit := λ σ,
  match σ.(fb) !! Z.to_nat y with
  | Some row =>
      if (0 <=? y) && (0 <=? x) && (x <? zlen row) then Ok (tt, upd_fb (<[Z.to_nat y := <[Z.to_nat x := c]> row]> σ.(fb)) σ)
      else Err Fault
  | None => Err Fault
  end.

Definition clear_row (y : Z) : M vga unit := for_upto COL_CNT (λ x, put_cell y x (32, GRAY_ON_BLACK)).

(** [outw (0x3d4, v)]: the low byte selects a register, the high byte goes into it. *)
Definition out_crt (v : Z) : M vga unit := modify (λ σ,
  if v `mod` 256 =? 14 then Vga σ.(inited) σ.(cx) σ.(cy) σ.(fb) (v `div` 256) σ.(crt_low)
  else if v `mod` 256 =? 15 then Vga σ.(inited) σ.(cx) σ.(cy) σ.(fb) σ.(crt_high) (v `div` 256)
  else σ).

Definition move_cursor : M vga unit :=
  σ <- get ;;
  let cp := u16 (u32 (σ.(cx) + u32 (COL_CNT * σ.(cy)))) in
  out_crt (u16 (Z.lor 14 (Z.land cp 65280))) ;;
  out_crt (u16 (Z.lor 15 (Z.shiftl cp 8))).

Definition find_cursor : M vga (Z * Z) :=
  σ <- get ;;
  let cp := Z.lor (u16 (Z.shiftl σ.(crt_high) 8)) σ.(crt_low) in
  ret (cp `mod` COL_CNT, cp `div` COL_CNT).

Definition init : M vga unit :=
  σ <- get ;;
  if σ.(inited) then ret tt
  else xy <- find_cursor ;; modify (λ σ, Vga true (fst xy) (snd xy) σ.(fb) σ.(crt_high) σ.(crt_low)).

(** memmove moves all rows but the first one up; the last one stays until it is cleared. *)
Definition newline : M vga unit :=
  modify (upd_cx 0) ;;
  modify (λ σ, upd_cy (u32 (σ.(cy) + 1)) σ) ;;
  σ <- get ;;
  if ROW_CNT <=? σ.(cy) then
    modify (upd_cy (ROW_CNT - 1)) ;;
    modify (λ σ, upd_fb (drop 1 σ.(fb) ++ drop (Z.to_nat (ROW_CNT - 1)) σ.(fb)) σ) ;;
    clear_row (ROW_CNT - 1)
  else ret tt.

Definition cls : M vga unit :=
  for_upto ROW_CNT clear_row ;;
  modify (upd_cx 0) ;;
  modify (upd_cy 0) ;;
  move_cursor.

(** The switch on the character in vga_putc. *)
Definition act (c : Z) : M vga unit :=
  σ <- get ;;
  if c =? 10 then newline
  else if c =? 12 then cls
  else if c =? 8 then (if 0 <? σ.(cx) then modify (upd_cx (σ.(cx) - 1)) else ret tt)
  else if c =? 13 then modify (upd_cx 0)
  else if c =? 9 then
    modify (upd_cx (ROUND_UP (u32 (σ.(cx) + 1)) 8)) ;;
    σ <- get ;;
    if COL_CNT <=? σ.(cx) then newline else ret tt
  else
    put_cell σ.(cy) σ.(cx) (u8 c, GRAY_ON_BLACK) ;;
    modify (λ σ, upd_cx (u32 (σ.(cx) + 1)) σ) ;;
    σ <- get ;;
    if COL_CNT <=? σ.(cx) then newline else ret tt.

(** Interrupts are off meanwhile: no handler runs between these steps. *)
Definition vga_putc (c : Z) : M vga unit := init ;; act c ;; move_cursor.

Fixpoint vga_puts (cs : list Z) : M vga unit :=
  match cs with
  | [] => ret tt
  | c :: cs => vga_putc c ;; vga_puts cs
  end.

(** ** The cursor stays on the screen *)

Definition blank : cell := (32, GRAY_ON_BLACK).
Definition blank_row : list cell := replicate 80 blank.

Record on_screen (σ : vga) : Prop := {
  os_cx : 0 ≤ σ.(cx) < 80;
  os_cy : 0 ≤ σ.(cy) < 25;
  os_rows : length σ.(fb) = 25%nat;
  os_cols : Forall (λ row, length row = 80%nat) σ.(fb);
}.

(** The controller shows the cursor where the driver has it. *)
Definition cursor_shown (σ : vga) : Prop := σ.(crt_high) = (80 * σ.(cy) + σ.(cx)) `div` 256 ∧ σ.(crt_low) = (80 * σ.(cy) + σ.(cx)) `mod` 256.

Lemma row_at σ y : on_screen σ → 0 ≤ y < 25 → ∃ row, σ.(fb) !! Z.to_nat y = Some row ∧ length row = 80%nat.
Proof.
  intros [_ _ Hr Hc] Hy. destruct (lookup_lt_is_Some_2 σ.(fb) (Z.to_nat y)) as [row Hrow]; [lia|]. exists row. split; [done|].
  by apply (proj1 (Forall_lookup _ _) Hc (Z.to_nat y)).
Qed.

Lemma put_cell_run σ y x c row : σ.(fb) !! Z.to_nat y = Some row → length row = 80%nat → 0 ≤ y → 0 ≤ x < 80 →
  put_cell y x c σ = Ok (tt, upd_fb (<[Z.to_nat y := <[Z.to_nat x := c]> row]> σ.(fb)) σ).
Proof.
  intros Hrow Hl Hy Hx. unfold put_cell. rewrite Hrow, (proj2 (Z.leb_le 0 y)), (proj2 (Z.leb_le 0 x)), (proj2 (Z.ltb_lt x _)) by lia. done.
Qed.

Lemma upd_fb_same σ : upd_fb σ.(fb) σ = σ.
Proof. by destruct σ. Qed.

Lemma clear_row_run σ y row : σ.(fb) !! Z.to_nat y = Some row → length row = 80%nat → 0 ≤ y →
  clear_row y σ = Ok (tt, upd_fb (<[Z.to_nat y := blank_row]> σ.(fb)) σ).
Proof.
  intros Hrow Hl Hy. assert (Z.to_nat y < length σ.(fb))%nat as Hlt by (by eapply lookup_lt_Some).
  destruct (for_upto_ind (λ x s, s = upd_fb (<[Z.to_nat y := replicate (Z.to_nat x) blank ++ drop (Z.to_nat x) row]> σ.(fb)) σ) COL_CNT
    (λ x, put_cell y x (32, GRAY_ON_BLACK)) σ) as (s & Hs & ->).
  - done.
  - cbn. rewrite list_insert_id by done. by rewrite upd_fb_same.
  - intros x s Hx ->. change COL_CNT with 80 in Hx. set (r := replicate (Z.to_nat x) blank ++ drop (Z.to_nat x) row).
    assert (length r = 80%nat) as Hr by (unfold r; rewrite length_app, length_replicate, length_drop; lia).
    eexists. split; [apply (put_cell_run _ y x (32, GRAY_ON_BLACK) r); [cbn; by apply list_lookup_insert_eq|done|done|lia]|].
    cbn. unfold upd_fb. cbn. rewrite list_insert_insert_eq. f_equal. f_equal. unfold r.
    rewrite insert_app_r_alt, length_replicate by (rewrite length_replicate; lia). replace (Z.to_nat x - Z.to_nat x)%nat with 0%nat by lia.
    destruct (drop (Z.to_nat x) row) as [|d rest] eqn:E; [apply (f_equal length) in E; rewrite length_drop in E; cbn in E; lia|].
    assert (drop (S (Z.to_nat x)) row = rest) as E2 by (rewrite <- Nat.add_1_r, <- drop_drop, E; done).
    replace (Z.to_nat (x + 1)) with (S (Z.to_nat x)) by lia. by rewrite E2, replicate_S_end, <- app_assoc.
  - change (Z.to_nat COL_CNT) with 80%nat in Hs. unfold clear_row. rewrite Hs. rewrite (drop_ge row) by lia. by rewrite app_nil_r.
Qed.

(** The next line, scrolling at the end of the screen. *)
Definition next_line (σ : vga) : vga :=
  if σ.(cy) + 1 <? 25 then upd_cy (σ.(cy) + 1) (upd_cx 0 σ)
  else upd_fb (drop 1 σ.(fb) ++ [blank_row]) (upd_cy 24 (upd_cx 0 σ)).

Lemma newline_run σ : 0 ≤ σ.(cy) < 25 → length σ.(fb) = 25%nat → Forall (λ row, length row = 80%nat) σ.(fb) → newline σ = Ok (tt, next_line σ).
Proof.
  intros Hy Hr Hc. unfold newline, next_line. rewrite (bind_Ok _ _ σ tt (upd_cx 0 σ)) by done.
  set (σ1 := upd_cy (σ.(cy) + 1) (upd_cx 0 σ)). rewrite (bind_Ok _ _ _ tt σ1), (bind_Ok get _ σ1 σ1 σ1) by (unfold modify; cbn; by rewrite ?u32_small by mlia).
  change (cy σ1) with (σ.(cy) + 1). unfold ROW_CNT. destruct (Z.ltb_spec (σ.(cy) + 1) 25); [by rewrite (proj2 (Z.leb_gt _ _)) by lia|].
  rewrite (proj2 (Z.leb_le _ _)) by lia. change (25 - 1) with 24. set (σ2 := upd_fb (drop 1 σ.(fb) ++ drop 24 σ.(fb)) (upd_cy 24 σ1)).
  rewrite (bind_Ok _ _ σ1 tt (upd_cy 24 σ1)), (bind_Ok _ _ _ tt σ2) by done.
  destruct (drop 24 σ.(fb)) as [|last [|? ?]] eqn:E; try (apply (f_equal length) in E; rewrite length_drop in E; cbn in E; lia).
  assert (length (drop 1 σ.(fb)) = 24%nat) as Hd by (rewrite length_drop; lia).
  assert (length last = 80%nat) as Hl. { apply (Forall_drop _ 24) in Hc. rewrite E in Hc. by inversion Hc. }
  rewrite (clear_row_run σ2 24 last); [|cbn; by rewrite lookup_app_r, Hd by lia|done|lia].
  do 2 f_equal. unfold σ2, σ1, upd_fb, upd_cy, upd_cx. cbn [inited cx cy fb crt_high crt_low]. f_equal.
  rewrite insert_app_r_alt, Hd by lia. by change (Z.to_nat 24 - 24)%nat with 0%nat.
Qed.

Lemma move_cursor_run σ : 0 ≤ σ.(cx) < 80 → 0 ≤ σ.(cy) < 25 →
  ∃ σ', move_cursor σ = Ok (tt, σ') ∧ cursor_shown σ' ∧ σ'.(cx) = σ.(cx) ∧ σ'.(cy) = σ.(cy) ∧ σ'.(fb) = σ.(fb) ∧ σ'.(inited) = σ.(inited).
Proof.
  intros Hx Hy. unfold move_cursor. rewrite (bind_Ok get _ σ σ σ) by done. unfold COL_CNT. rewrite !u32_small by (try rewrite u32_small; mlia).
  replace (σ.(cx) + 80 * σ.(cy)) with (80 * σ.(cy) + σ.(cx)) by lia. set (cp := 80 * σ.(cy) + σ.(cx)) in *. assert (0 ≤ cp < 2000) as Hcp by (unfold cp; lia).
  assert (u16 cp = cp) as -> by (apply Z.mod_small; mlia). change 65280 with (2 ^ 16 - 2 ^ 8).
  assert (Z.land cp (2 ^ 16 - 2 ^ 8) = cp `div` 256 * 256) as Eh.
  { change (2 ^ 16 - 2 ^ 8) with (Z.land (2 ^ 16 - 1) (2 ^ 32 - 2 ^ 8)). rewrite Z.land_assoc, (land_low cp 16), Z.mod_small by (change (2 ^ 16) with 65536; lia).
    rewrite (land_high cp 8) by mlia. change (2 ^ 8) with 256. dm_lia. }
  rewrite Eh, (Z.lor_comm 14), (lor_add _ 14 8), (Z.lor_comm 15), (Z.shiftl_mul_pow2 cp 8), (lor_add _ 15 8) by (done || (change (2 ^ 8) with 256; dm_lia)).
  change (2 ^ 8) with 256. assert (u16 (cp `div` 256 * 256 + 14) = cp `div` 256 * 256 + 14) as -> by (apply Z.mod_small; dm_lia).
  assert (u16 (cp * 256 + 15) = cp `mod` 256 * 256 + 15) as -> by (unfold u16; dm_lia).
  set (h := cp `div` 256). set (l := cp `mod` 256). exists (Vga σ.(inited) σ.(cx) σ.(cy) σ.(fb) h l). split; [|by split_and!].
  unfold out_crt, modify, bind. rewrite (proj2 (Z.eqb_eq ((h * 256 + 14) `mod` 256) 14)), (proj2 (Z.eqb_neq ((l * 256 + 15) `mod` 256) 14)), (proj2 (Z.eqb_eq ((l * 256 + 15) `mod` 256) 15)) by dm_lia.
  cbn. do 3 f_equal; dm_lia.
Qed.

Lemma init_run σ : (σ.(inited) = false → 0 ≤ σ.(crt_high) < 256 ∧ 0 ≤ σ.(crt_low) < 256 ∧ 256 * σ.(crt_high) + σ.(crt_low) < 2000) →
  ∃ σ', init σ = Ok (tt, σ') ∧ σ'.(inited) = true ∧ σ'.(fb) = σ.(fb) ∧
    if σ.(inited) then σ' = σ else 0 ≤ σ'.(cx) < 80 ∧ 0 ≤ σ'.(cy) < 25.
Proof.
  intros Hi. unfold init. rewrite (bind_Ok get _ σ σ σ) by done. destruct σ.(inited) eqn:E; [by exists σ|]. destruct (Hi eq_refl) as (H1 & H2 & H3).
  unfold find_cursor. eexists. split; [reflexivity|]. cbn. rewrite Z.shiftl_mul_pow2 by done. change (2 ^ 8) with 256.
  assert (u16 (σ.(crt_high) * 256) = σ.(crt_high) * 256) as -> by (apply Z.mod_small; mlia). rewrite (lor_add _ _ 8) by (done || (change (2 ^ 8) with 256; dm_lia)).
  unfold COL_CNT. split_and!; try done; dm_lia.
Qed.

Lemma cls_run σ : on_screen σ → ∃ σ', cls σ = Ok (tt, σ') ∧ σ'.(fb) = replicate 25 blank_row ∧ σ'.(cx) = 0 ∧ σ'.(cy) = 0 ∧ σ'.(inited) = σ.(inited) ∧ cursor_shown σ'.
Proof.
  intros HS. unfold cls.
  destruct (for_upto_ind (λ y s, s = upd_fb (replicate (Z.to_nat y) blank_row ++ drop (Z.to_nat y) σ.(fb)) σ) ROW_CNT clear_row σ) as (s & Hs & ->).
  - done.
  - symmetry. apply upd_fb_same.
  - intros y s Hy ->. change ROW_CNT with 25 in Hy. destruct (row_at σ y HS ltac:(lia)) as (row & Hrow & Hl).
    assert (drop (Z.to_nat y) σ.(fb) = row :: drop (S (Z.to_nat y)) σ.(fb)) as E by (by apply drop_S).
    eexists. split; [apply (clear_row_run _ y row); [|done|lia]|].
    + cbn. rewrite lookup_app_r, length_replicate, E by (rewrite length_replicate; lia). by replace (Z.to_nat y - Z.to_nat y)%nat with 0%nat by lia.
    + unfold upd_fb. cbn. f_equal. rewrite insert_app_r_alt, length_replicate, E by (rewrite length_replicate; lia). replace (Z.to_nat y - Z.to_nat y)%nat with 0%nat by lia.
      cbn. replace (Z.to_nat (y + 1)) with (S (Z.to_nat y)) by lia. by rewrite replicate_S_end, <- app_assoc.
  - rewrite (bind_Ok _ _ _ _ _ Hs). change (Z.to_nat ROW_CNT) with 25%nat. rewrite (drop_ge σ.(fb)), app_nil_r by (by rewrite (os_rows _ HS)).
    set (s1 := upd_cy 0 (upd_cx 0 (upd_fb (replicate 25 blank_row) σ))). rewrite (bind_Ok _ _ _ tt (upd_cx 0 (upd_fb (replicate 25 blank_row) σ))), (bind_Ok _ _ _ tt s1) by done.
    destruct (move_cursor_run s1) as (σ' & Hm & C & E1 & E2 & E3 & E4); [cbn; lia..|]. exists σ'. by rewrite E1, E2, E3, E4.
Qed.

(** A full line ends by itself. *)
Definition wrapped (σ : vga) : vga := if 80 <=? σ.(cx) then next_line σ else σ.

Lemma wrap_run σ : 0 ≤ σ.(cy) < 25 → length σ.(fb) = 25%nat → Forall (λ row, length row = 80%nat) σ.(fb) →
  (σ <- get ;; if COL_CNT <=? σ.(cx) then newline else ret tt) σ = Ok (tt, wrapped σ).
Proof.
  intros Hy Hr Hc. rewrite (bind_Ok get _ σ σ σ) by done. unfold wrapped, COL_CNT. destruct (80 <=? σ.(cx)); [by apply newline_run|done].
Qed.

Lemma next_line_on_screen σ : 0 ≤ σ.(cy) < 25 → length σ.(fb) = 25%nat → Forall (λ row, length row = 80%nat) σ.(fb) → on_screen (next_line σ).
Proof.
  intros Hy Hr Hc. unfold next_line. destruct (Z.ltb_spec (σ.(cy) + 1) 25); split; cbn; try done; try lia.
  - rewrite length_app, length_drop, Hr. done.
  - apply Forall_app_2; [by apply Forall_drop|]. by repeat constructor.
Qed.

Lemma next_line_inited σ : (next_line σ).(inited) = σ.(inited).
Proof. unfold next_line. by destruct (σ.(cy) + 1 <? 25). Qed.

Lemma wrapped_on_screen σ : 0 ≤ σ.(cx) → 0 ≤ σ.(cy) < 25 → length σ.(fb) = 25%nat → Forall (λ row, length row = 80%nat) σ.(fb) → on_screen (wrapped σ).
Proof. intros Hx Hy Hr Hc. unfold wrapped. destruct (Z.leb_spec 80 σ.(cx)); [by apply next_line_on_screen|]. split; [lia|done..]. Qed.

Lemma wrapped_inited σ : (wrapped σ).(inited) = σ.(inited).
Proof. unfold wrapped. destruct (80 <=? σ.(cx)); [apply next_line_inited|done]. Qed.

(** A character that is not a control character. *)
Definition typed_at (σ : vga) (row : list cell) (c : Z) : vga :=
  upd_cx (σ.(cx) + 1) (upd_fb (<[Z.to_nat σ.(cy) := <[Z.to_nat σ.(cx) := (u8 c, GRAY_ON_BLACK)]> row]> σ.(fb)) σ).

Lemma typed_at_cols σ row c : on_screen σ → length row = 80%nat → length (typed_at σ row c).(fb) = 25%nat ∧ Forall (λ row, length row = 80%nat) (typed_at σ row c).(fb).
Proof.
  intros [_ _ Hr Hc] Hl. cbn. rewrite length_insert. split; [done|]. apply Forall_insert; [done|]. by rewrite length_insert.
Qed.

Lemma print_run σ c row : on_screen σ → σ.(fb) !! Z.to_nat σ.(cy) = Some row → c ∉ [10; 12; 8; 13; 9] → act c σ = Ok (tt, wrapped (typed_at σ row c)).
Proof.
  intros HS Hrow Hn. destruct (row_at σ σ.(cy) HS (os_cy _ HS)) as (row' & Hrow' & Hl). simplify_eq/=. rewrite !not_elem_of_cons in Hn. destruct Hn as (N1 & N2 & N3 & N4 & N5 & _).
  unfold act. rewrite (bind_Ok get _ σ σ σ) by done. rewrite !(proj2 (Z.eqb_neq c _)) by done. pose proof (os_cx _ HS) as Hx. pose proof (os_cy _ HS) as Hy.
  rewrite (bind_Ok _ _ _ _ _ (put_cell_run σ σ.(cy) σ.(cx) (u8 c, GRAY_ON_BLACK) row Hrow Hl ltac:(lia) Hx)).
  rewrite (bind_Ok _ _ _ tt (typed_at σ row c)) by (unfold modify; cbn; by rewrite u32_small by mlia).
  destruct (typed_at_cols σ row c HS Hl) as [H1 H2]. by apply wrap_run.
Qed.

Lemma act_run σ c : on_screen σ → ∃ σ', act c σ = Ok (tt, σ') ∧ on_screen σ' ∧ σ'.(inited) = σ.(inited).
Proof.
  intros HS. pose proof HS as [Hx Hy Hr Hc]. destruct (decide (c ∈ [10; 12; 8; 13; 9])) as [Hin|Hn].
  - unfold act. rewrite (bind_Ok get _ σ σ σ) by done. repeat (apply elem_of_cons in Hin as [-> |Hin]); [..|by apply not_elem_of_nil in Hin]; cbn [Z.eqb Pos.eqb].
    + exists (next_line σ). split_and!; [by apply newline_run|by apply next_line_on_screen|apply next_line_inited].
    + destruct (cls_run σ HS) as (σ' & E & F & E1 & E2 & I & _). exists σ'. split_and!; [done| |done]. split; rewrite ?F, ?E1, ?E2; try lia; [done|].
      by apply Forall_replicate.
    + destruct (Z.ltb_spec 0 σ.(cx)); eexists; (split_and!; [done| |done]); [split; cbn; [lia|done..]|done].
    + eexists. split_and!; [done| |done]. split; cbn; [lia|done..].
    + rewrite u32_small by mlia. rewrite (bind_Ok _ _ _ tt (upd_cx (ROUND_UP (σ.(cx) + 1) 8) σ)) by done. eexists. split_and!; [by apply wrap_run| |by rewrite wrapped_inited].
      apply wrapped_on_screen; try done. cbn. unfold ROUND_UP. unfold u32. dm_lia.
  - destruct (row_at σ σ.(cy) HS Hy) as (row & Hrow & Hl). exists (wrapped (typed_at σ row c)).
    split_and!; [by apply print_run| |by rewrite wrapped_inited]. destruct (typed_at_cols σ row c HS Hl). apply wrapped_on_screen; try done. cbn. lia.
Qed.

(** Every state the driver meets: before its first character the controller's registers
    say where the cursor is, afterwards the driver does. *)
Record ready (σ : vga) : Prop := {
  rd_rows : length σ.(fb) = 25%nat;
  rd_cols : Forall (λ row, length row = 80%nat) σ.(fb);
  rd_cursor : if σ.(inited) then 0 ≤ σ.(cx) < 80 ∧ 0 ≤ σ.(cy) < 25 ∧ cursor_shown σ
              else 0 ≤ σ.(crt_high) < 256 ∧ 0 ≤ σ.(crt_low) < 256 ∧ 256 * σ.(crt_high) + σ.(crt_low) < 2000;
}.

(** The driver acts on a state whose cursor is on the screen and tells the controller. *)
Lemma vga_putc_run σ c : ready σ → ∃ σ1 σ2 σ', on_screen σ1 ∧ act c σ1 = Ok (tt, σ2) ∧ on_screen σ2 ∧ vga_putc c σ = Ok (tt, σ') ∧
  σ'.(fb) = σ2.(fb) ∧ σ'.(cx) = σ2.(cx) ∧ σ'.(cy) = σ2.(cy) ∧ σ'.(inited) = true ∧ ready σ' ∧ (σ.(inited) = true → σ1 = σ).
Proof.
  intros [Hr Hc Hcur]. destruct (init_run σ) as (σ1 & E1 & I1 & F1 & H1); [intros E; by rewrite E in Hcur|].
  assert (on_screen σ1) as HS1 by (destruct σ.(inited); [subst σ1; by split; try apply Hcur|split; rewrite ?F1; try done; apply H1]).
  destruct (act_run σ1 c HS1) as (σ2 & E2 & HS2 & I2). destruct (move_cursor_run σ2 (os_cx _ HS2) (os_cy _ HS2)) as (σ' & E3 & C & X & Y & F & I).
  exists σ1, σ2, σ'. split_and!; try done.
  - unfold vga_putc. by rewrite (bind_Ok _ _ _ _ _ E1), (bind_Ok _ _ _ _ _ E2).
  - by rewrite I, I2.
  - split; rewrite ?F; [apply HS2..|]. rewrite I, I2, I1, X, Y. split_and!; [apply HS2..|done].
  - intros E. by rewrite E in H1.
Qed.

(** ** The screen shows the end of the text *)

(** A text in lines: the finished ones and the one being written. A line ends at a new-line
    character or with its 80th character. *)
Definition page : Type := list (list Z) * list Z.

Definition text_step (p : page) (c : Z) : page :=
  if c =? 10 then (p.1 ++ [p.2], [])
  else if zlen (p.2 ++ [c]) =? 80 then (p.1 ++ [p.2 ++ [c]], [])
  else (p.1, p.2 ++ [c]).

Definition row_of (line : list Z) : list cell := ((λ c, (c, GRAY_ON_BLACK)) <$> line) ++ replicate (80 - length line) blank.

(** The last 24 finished lines, the current one, and blank rows below a shorter text. *)
Definition visible (p : page) : list (list cell) :=
  (row_of <$> drop (length p.1 - 24) p.1) ++ row_of p.2 :: replicate (24 - length p.1) blank_row.

Record shows (p : page) (σ : vga) : Prop := {
  sh_fb : σ.(fb) = visible p;
  sh_cx : σ.(cx) = zlen p.2;
  sh_cy : σ.(cy) = Z.min (zlen p.1) 24;
}.

Definition text_char (c : Z) : Prop := c = 10 ∨ 32 ≤ c < 256.

Lemma above_length (p : page) : length (row_of <$> drop (length p.1 - 24) p.1) = (length p.1 `min` 24)%nat.
Proof. rewrite length_fmap, length_drop. lia. Qed.

Lemma visible_next_short (p : page) : (length p.1 < 24)%nat → visible p = visible (p.1 ++ [p.2], []).
Proof.
  intros H. unfold visible. cbn [fst snd]. rewrite length_app. cbn [length]. rewrite !(proj2 (Nat.sub_0_le _ 24)) by lia. rewrite !drop_0, fmap_app, <- app_assoc. cbn.
  do 2 f_equal. by replace (24 - length p.1)%nat with (S (24 - (length p.1 + 1))) by lia.
Qed.

Lemma visible_next_long (p : page) : (24 ≤ length p.1)%nat → drop 1 (visible p) ++ [blank_row] = visible (p.1 ++ [p.2], []).
Proof.
  intros H. unfold visible. cbn [fst snd]. rewrite length_app. cbn [length]. rewrite !(proj2 (Nat.sub_0_le 24 _)) by lia.
  rewrite (drop_app_le _ [p.2]), fmap_app by lia. rewrite drop_app_le by (rewrite above_length; lia). rewrite <- fmap_drop, drop_drop.
  replace (length p.1 + 1 - 24)%nat with (length p.1 - 24 + 1)%nat by lia. by rewrite <- !app_assoc.
Qed.

Lemma shows_next_line (p : page) σ : shows p σ → shows (p.1 ++ [p.2], []) (next_line σ).
Proof.
  intros [Hf Hx Hy]. unfold next_line. destruct (Z.ltb_spec (σ.(cy) + 1) 25); (split; cbn [upd_fb upd_cx upd_cy fb cx cy fst snd]; [rewrite Hf|done|rewrite length_app; cbn; lia]).
  - apply visible_next_short. lia.
  - apply visible_next_long. lia.
Qed.

Lemma row_of_put line c : (length line < 80)%nat → <[length line := (c, GRAY_ON_BLACK)]> (row_of line) = row_of (line ++ [c]).
Proof.
  intros H. unfold row_of. rewrite insert_app_r_alt, length_fmap, Nat.sub_diag by (by rewrite length_fmap). rewrite fmap_app, <- app_assoc, length_app. cbn [length].
  replace (80 - length line)%nat with (S (80 - (length line + 1))) by lia. done.
Qed.

Lemma shows_row (p : page) σ : shows p σ → σ.(fb) !! Z.to_nat σ.(cy) = Some (row_of p.2).
Proof.
  intros [Hf Hx Hy]. rewrite Hf, Hy. unfold visible. rewrite lookup_app_r by (rewrite above_length; lia). rewrite above_length. by replace (Z.to_nat _ - _)%nat with 0%nat by lia.
Qed.

Lemma shows_typed (p : page) σ c : shows p σ → (length p.2 < 80)%nat → 0 ≤ c < 256 → shows (p.1, p.2 ++ [c]) (typed_at σ (row_of p.2) c).
Proof.
  intros [Hf Hx Hy] Hl Hc. split; cbn [upd_fb upd_cx upd_cy fb cx cy typed_at fst snd]; [|rewrite length_app; cbn; lia|done].
  rewrite Hf, Hx, Hy, Nat2Z.id. rewrite row_of_put by done. unfold u8. rewrite Z.mod_small by mlia.
  unfold visible. cbn [fst snd]. rewrite (insert_app_r_alt (row_of <$> _)) by (rewrite above_length; lia). rewrite above_length. by replace (Z.to_nat _ - _)%nat with 0%nat by lia.
Qed.

Lemma shows_step (p : page) σ c : on_screen σ → shows p σ → text_char c → ∃ σ', act c σ = Ok (tt, σ') ∧ shows (text_step p c) σ'.
Proof.
  intros HS HP Hc. pose proof HS as [Hx Hy Hr Hcols]. pose proof (sh_cx _ _ HP) as Ex. unfold text_step. destruct (Z.eqb_spec c 10) as [-> |Hn].
  - exists (next_line σ). split; [by apply newline_run|by apply shows_next_line].
  - destruct Hc as [? |Hc]; [done|]. exists (wrapped (typed_at σ (row_of p.2) c)). split.
    { apply print_run; [done|by apply shows_row|]. rewrite !not_elem_of_cons. split_and!; try lia. apply not_elem_of_nil. }
    pose proof (shows_typed p σ c HP ltac:(lia) ltac:(lia)) as HT. unfold wrapped. rewrite (sh_cx _ _ HT). cbn [snd]. pose proof (length_app p.2 [c]) as HL. cbn [length] in HL.
    destruct (Z.eqb_spec (zlen (p.2 ++ [c])) 80); [rewrite (proj2 (Z.leb_le _ _)) by lia|rewrite (proj2 (Z.leb_gt _ _)) by lia; done].
    by apply (shows_next_line (p.1, p.2 ++ [c])).
Qed.

Lemma vga_puts_ready σ cs : ready σ → ∃ σ', vga_puts cs σ = Ok (tt, σ') ∧ ready σ'.
Proof.
  revert σ. induction cs as [|c cs IH]; intros σ HR; [by exists σ|]. destruct (vga_putc_run σ c HR) as (_ & _ & σ1 & _ & _ & _ & E & _ & _ & _ & _ & HR1 & _).
  destruct (IH σ1 HR1) as (σ' & E' & HR'). exists σ'. split; [|done]. cbn [vga_puts]. by rewrite (bind_Ok _ _ _ _ _ E).
Qed.

Lemma vga_puts_shows σ (p : page) text : ready σ → σ.(inited) = true → shows p σ → Forall text_char text →
  ∃ σ', vga_puts text σ = Ok (tt, σ') ∧ ready σ' ∧ σ'.(inited) = true ∧ shows (fold_left text_step text p) σ'.
Proof.
  revert σ p. induction text as [|c text IH]; intros σ p HR HI HP Ht; [by exists σ|]. apply Forall_cons in Ht as [Hc Ht].
  destruct (vga_putc_run σ c HR) as (σ1 & σ2 & σ3 & S1 & A & _ & E & F & X & Y & I & HR3 & Heq). specialize (Heq HI). subst σ1.
  destruct (shows_step p σ c S1 HP Hc) as (σ2' & A' & HP2). rewrite A in A'. injection A' as <-.
  destruct (IH σ3 (text_step p c) HR3 I) as (σ' & E' & HR' & I' & HP'); [split; rewrite ?F, ?X, ?Y; apply HP2|done|].
  exists σ'. split; [|done]. cbn [vga_puts]. by rewrite (bind_Ok _ _ _ _ _ E).
Qed.

Lemma vga_puts_app cs cs' σ σ1 : vga_puts cs σ = Ok (tt, σ1) → vga_puts (cs ++ cs') σ = vga_puts cs' σ1.
Proof.
  revert σ. induction cs as [|c cs IH]; intros σ; [by injection 1 as <-|]. cbn. unfold bind. destruct (vga_putc c σ) as [[[] σ2]|e]; [apply IH|done].
Qed.

(** Property C25. The screen shows the text. From every state of the driver and every
    position of the cursor the boot loader left, and after any characters at all, the text
    behind a form feed is on the screen: its last 25 lines, broken at new-line characters
    and at 80 columns, with blanks to the right and below; the cursor stands behind its last
    character, and the controller shows it there. No character, printable or not, makes the
    driver write outside the screen. *)
Theorem vga_shows σ before text : ready σ → Forall text_char text →
  ∃ σ', vga_puts (before ++ 12 :: text) σ = Ok (tt, σ') ∧ shows (fold_left text_step text ([], [])) σ' ∧ on_screen σ' ∧ cursor_shown σ'.
Proof.
  intros HR Ht. destruct (vga_puts_ready σ before HR) as (σ1 & E1 & HR1). rewrite (vga_puts_app _ _ _ _ E1).
  destruct (vga_putc_run σ1 12 HR1) as (σ2 & σ3 & σ4 & S2 & A & S3 & E & F & X & Y & I & HR4 & _).
  destruct (cls_run σ2 S2) as (σ3' & A' & F3 & X3 & Y3 & _). change (act 12 σ2) with (cls σ2) in A. rewrite A in A'. injection A' as <-.
  destruct (vga_puts_shows σ4 ([], []) text HR4 I) as (σ' & E' & [Hr Hc Hcur] & I' & HP); [split; rewrite ?F, ?X, ?Y; done|done|].
  exists σ'. rewrite I' in Hcur. destruct Hcur as (Hx & Hy & HC). split_and!; [|done..]. cbn [vga_puts]. by rewrite (bind_Ok _ _ _ _ _ E).
Qed.

Lemma vga_shows_witness : ∃ σ', vga_puts ([65; 9; 8; 13; 0] ++ 12 :: [72; 105; 10; 33]) (Vga false 0 0 (replicate 25 (replicate 80 (0, 0))) 7 207) = Ok (tt, σ') ∧
  shows ([[72; 105]], [33]) σ' ∧ on_screen σ' ∧ cursor_shown σ'.
Proof.
  apply (vga_shows (Vga false 0 0 (replicate 25 (replicate 80 (0, 0))) 7 207) [65; 9; 8; 13; 0] [72; 105; 10; 33]).
  - split; [done| |cbn; lia]. by apply Forall_replicate.
  - unfold text_char. repeat constructor; lia.
Defined.
