(* ===== verification/Disk.v ===== *)
(** * ATA disks

    devices/disk.c over a model of the two devices of a channel: their command registers,
    the selection of a device, software reset, and programmed input and output of sectors.
    A device is busy with a command for as many of the driver's sleeps as [delays] says;
    the driver does not rely on any of them beyond the limits of its polling loops.  Where a
    thread blocks for the completion semaphore the device goes on to its end. *)

From stdpp Require Import strings.
From S2P Require Import Prelude Vaddr CStdlib Printf.
Local Open Scope Z_scope.
Local Open Scope c_scope.

(** ** The devices *)

Definition words := list Z.

(** Words go through the data register low byte first. *)
Fixpoint to_words (bs : list Z) : words :=
  match bs with
  | lo :: hi :: bs => lo + 256 * hi :: to_words bs
  | _ => []
  end.

Definition to_bytes (ws : words) : list Z := ws ≫= (λ w, [w `mod` 256; w `div` 256]).

(** What a busy device is doing. *)
Inductive job := JReset | JIdentify | JRead (lba : Z) | JWriteReady (lba : Z) | JWriteDone (lba : Z) (ws : words).

Inductive phase := Idle | Resetting | Busy (n : nat) (j : job) | DataIn (ws : words) | DataOut (lba : Z) (ws : words).

(** A device: a disk with its sectors and its identification, or a packet device. *)
Record dev := Dev { packet : bool; media : list (list Z); ident : list Z; nsect : Z; lbal : Z; lbam : Z; lbah : Z; error : Z; ph : phase }.

Definition set_ph (p : phase) (d : dev) : dev :=
  Dev d.(packet) d.(media) d.(ident) d.(nsect) d.(lbal) d.(lbam) d.(lbah) d.(error) p.
Definition set_media (m : list (list Z)) (d : dev) : dev :=
  Dev d.(packet) m d.(ident) d.(nsect) d.(lbal) d.(lbam) d.(lbah) d.(error) d.(ph).

(** The signature that a device shows after a reset. *)
Definition signature (d : dev) : dev :=
  Dev d.(packet) d.(media) d.(ident) 1 1 (if d.(packet) then 20 else 0) (if d.(packet) then 235 else 0) 1 d.(ph).

(** The end of a job, with the interrupt it raises. *)
Definition finish (j : job) (d : dev) : dev * bool :=
  match j with
  | JReset => (set_ph Idle (signature d), false)
  | JIdentify => (set_ph (DataIn (to_words d.(ident))) d, true)
  | JRead n => (set_ph (match d.(media) !! Z.to_nat n with Some s => DataIn (to_words s) | None => Idle end) d, true)
  | JWriteReady n => if n <? zlen d.(media) then (set_ph (DataOut n []) d, false) else (set_ph Idle d, true)
  | JWriteDone n ws => (set_ph Idle (set_media (<[Z.to_nat n := to_bytes ws]> d.(media)) d), true)
  end.

Definition dev_pass (t : nat) (d : dev) : dev * bool :=
  match d.(ph) with
  | Busy n j => if (n <=? t)%nat then finish j d else (set_ph (Busy (n - t) j) d, false)
  | _ => (d, false)
  end.

(** [drives] are the two devices, [dev_reg] the register that selects one, and [float]
    what the bus answers where there is none. *)
Record ata := Ata { drives : list (option dev); dev_reg : Z; float : Z; delays : list nat }.

Definition selected (h : ata) : nat := if Z.testbit h.(dev_reg) 4 then 1%nat else 0%nat.
Definition current (h : ata) : option dev := mjoin (h.(drives) !! selected h).
Definition on_current (f : dev → dev) (h : ata) : ata :=
  Ata (alter (fmap f) (selected h) h.(drives)) h.(dev_reg) h.(float) h.(delays).
Definition on_all (f : dev → dev) (h : ata) : ata := Ata ((λ o : option dev, f <$> o) <$> h.(drives)) h.(dev_reg) h.(float) h.(delays).

Definition BSY : Z := 128.
Definition status (d : dev) : Z :=
  match d.(ph) with
  | Resetting | Busy _ _ => BSY
  | Idle => if d.(packet) then 0 else 80
  | DataIn _ | DataOut _ _ => 88
  end.

(** ** The driver's data *)

Record disk := Disk { name : list Z; dev_no : Z; is_ata : bool; capacity : Z; read_cnt : Z; write_cnt : Z }.

(** A channel, its hardware, and what the driver has printed. *)
Record channel := Channel {
  cname : list Z; reg_base : Z; irq : Z; locked : bool; expecting_interrupt : bool; completion_wait : Z;
  devices : list disk; hw : ata; printed : list Z }.

Definition upd_hw (f : ata → ata) (c : channel) : channel :=
  Channel c.(cname) c.(reg_base) c.(irq) c.(locked) c.(expecting_interrupt) c.(completion_wait) c.(devices) (f c.(hw)) c.(printed).
Definition upd_sema (v : Z) (c : channel) : channel :=
  Channel c.(cname) c.(reg_base) c.(irq) c.(locked) c.(expecting_interrupt) v c.(devices) c.(hw) c.(printed).
Definition upd_expecting (b : bool) (c : channel) : channel :=
  Channel c.(cname) c.(reg_base) c.(irq) c.(locked) b c.(completion_wait) c.(devices) c.(hw) c.(printed).
Definition upd_locked (b : bool) (c : channel) : channel :=
  Channel c.(cname) c.(reg_base) c.(irq) b c.(expecting_interrupt) c.(completion_wait) c.(devices) c.(hw) c.(printed).
Definition upd_printed (s : list Z) (c : channel) : channel :=
  Channel c.(cname) c.(reg_base) c.(irq) c.(locked) c.(expecting_interrupt) c.(completion_wait) c.(devices) c.(hw) (c.(printed) ++ s).
Definition upd_disk (i : Z) (f : disk → disk) (c : channel) : channel :=
  Channel c.(cname) c.(reg_base) c.(irq) c.(locked) c.(expecting_interrupt) c.(completion_wait) (alter f (Z.to_nat i) c.(devices)) c.(hw) c.(printed).

Definition change (f : channel → channel) : M channel unit := λ c, Ok (tt, f c).

Definition disk_at (i : Z) : M channel disk := λ c, match c.(devices) !! Z.to_nat i with Some d => Ok (d, c) | None => Err Fault end.

Definition say (r : res (list Z)) : M channel unit := λ c, match r with Ok s => Ok (tt, upd_printed s c) | Err e => Err e end.

(** A format that ends with a new line. *)
Definition line (s : string) : list Z := lit s ++ [10; 0].

(** interrupt_handler for the vector of this channel.  Reading the status register takes
    the interrupt back, which the processor has already accepted. *)
Definition channel_interrupt : M channel unit :=
  c <- get ;;
  if c.(expecting_interrupt) then change (upd_sema (c.(completion_wait) + 1))
  else say (printf (line "%s: unexpected interrupt") [AStr (Some c.(cname))]).

(** Time passes for the devices, and an interrupt is taken at once: they are on. *)
Definition pass (t : nat) : M channel unit :=
  c <- get ;;
  let stepped := (λ o : option dev, dev_pass t <$> o) <$> c.(hw).(drives) in
  change (upd_hw (λ h, Ata ((λ o : option (dev * bool), fst <$> o) <$> stepped) h.(dev_reg) h.(float) h.(delays))) ;;
  if existsb (λ o, match o with Some (_, b) => b | None => false end) stepped then channel_interrupt else ret tt.

Definition timer_msleep (ms : Z) : M channel unit := pass 1.
Definition timer_usleep (us : Z) : M channel unit := pass 1.
Definition timer_nsleep (ns : Z) : M channel unit := pass 1.

(** ** Registers *)

Definition inb (f : dev → Z) : M channel Z := pass 0 ;; c <- get ;; ret (match current c.(hw) with Some d => f d | None => c.(hw).(float) end).
Definition outb (f : ata → ata) : M channel unit := pass 0 ;; change (upd_hw f).

(** The next command keeps its device busy for this long. *)
Definition next_delay (h : ata) : nat := hd 0%nat h.(delays).
Definition drop_delay (h : ata) : ata := Ata h.(drives) h.(dev_reg) h.(float) (tl h.(delays)).

(** Writes to the command registers go to both devices, reads come from the selected one. *)
Definition out_nsect (v : Z) : M channel unit :=
  outb (on_all (λ d, Dev d.(packet) d.(media) d.(ident) (u8 v) d.(lbal) d.(lbam) d.(lbah) d.(error) d.(ph))).
Definition out_lbal (v : Z) : M channel unit :=
  outb (on_all (λ d, Dev d.(packet) d.(media) d.(ident) d.(nsect) (u8 v) d.(lbam) d.(lbah) d.(error) d.(ph))).
Definition out_lbam (v : Z) : M channel unit :=
  outb (on_all (λ d, Dev d.(packet) d.(media) d.(ident) d.(nsect) d.(lbal) (u8 v) d.(lbah) d.(error) d.(ph))).
Definition out_lbah (v : Z) : M channel unit :=
  outb (on_all (λ d, Dev d.(packet) d.(media) d.(ident) d.(nsect) d.(lbal) d.(lbam) (u8 v) d.(error) d.(ph))).
Definition out_device (v : Z) : M channel unit := outb (λ h, Ata h.(drives) (u8 v) h.(float) h.(delays)).

(** The sector that the registers address. *)
Definition lba (h : ata) (d : dev) : Z := d.(lbal) + 256 * d.(lbam) + 65536 * d.(lbah) + 16777216 * (h.(dev_reg) `mod` 16).

Definition CMD_IDENTIFY_DEVICE : Z := 236.
Definition CMD_READ_SECTOR_RETRY : Z := 32.
Definition CMD_WRITE_SECTOR_RETRY : Z := 48.

(** A disk that is idle takes the commands the driver uses. *)
Definition command (v : Z) (h : ata) (d : dev) : dev :=
  match d.(ph), d.(packet) with
  | Idle, false =>
      if v =? CMD_IDENTIFY_DEVICE then set_ph (Busy (next_delay h) JIdentify) d
      else if v =? CMD_READ_SECTOR_RETRY then set_ph (Busy (next_delay h) (JRead (lba h d))) d
      else if v =? CMD_WRITE_SECTOR_RETRY then set_ph (Busy (next_delay h) (JWriteReady (lba h d))) d
      else d
  | _, _ => d
  end.
Definition out_command (v : Z) : M channel unit := outb (λ h, drop_delay (on_current (command v h) h)).

(** The control register: a device is reset while SRST is set, and busy for some time
    afterwards; the reset selects device 0. *)
Definition CTL_SRST : Z := 4.
Definition control (v : Z) (h : ata) : ata :=
  if Z.land v CTL_SRST =? 0 then
    match h.(drives) with
    | [d0; d1] =>
        let leave n d := match d.(ph) with Resetting => set_ph (Busy n JReset) d | _ => d end in
        Ata [leave (next_delay h) <$> d0; leave (next_delay (drop_delay h)) <$> d1] h.(dev_reg) h.(float) (drop 2 h.(delays))
    | _ => h
    end
  else on_all (set_ph Resetting) (Ata h.(drives) 0 h.(float) h.(delays)).
Definition out_ctl (v : Z) : M channel unit := outb (control v).

(** The data register, a word at a time. *)
Definition take_word (d : dev) : dev :=
  match d.(ph) with
  | DataIn [w] => set_ph Idle d
  | DataIn (w :: ws) => set_ph (DataIn ws) d
  | _ => d
  end.
Definition first_word (d : dev) : Z := match d.(ph) with DataIn (w :: _) => w | _ => 65535 end.
Definition in_word : M channel Z := w <- inb first_word ;; change (upd_hw (on_current take_word)) ;; ret w.

Definition give_word (w : Z) (n : nat) (d : dev) : dev :=
  match d.(ph) with
  | DataOut l ws => set_ph (if (length ws =? 255)%nat then Busy n (JWriteDone l (ws ++ [w])) else DataOut l (ws ++ [w])) d
  | _ => d
  end.
(** A sector is complete with its last word: from then on the device is busy. *)
Definition ends_sector (d : dev) : bool := match d.(ph) with DataOut _ ws => (length ws =? 255)%nat | _ => false end.
Definition out_word (w : Z) : M channel unit :=
  outb (λ h, (if match current h with Some d => ends_sector d | None => false end then drop_delay else id) (on_current (give_word w (next_delay h)) h)).

Fixpoint insw (cnt : nat) : M channel (list Z) :=
  match cnt with
  | O => ret []
  | S cnt => w <- in_word ;; bs <- insw cnt ;; ret (w `mod` 256 :: w `div` 256 :: bs)
  end.

Fixpoint outsw (cnt : nat) (bs : list Z) : M channel unit :=
  match cnt, bs with
  | O, _ => ret tt
  | S cnt, lo :: hi :: bs => out_word (lo + 256 * hi) ;; outsw cnt bs
  | S _, _ => fail Fault
  end.

(** ** The driver *)

Definition STA_BSY : Z := 128.
Definition STA_DRDY : Z := 64.
Definition STA_DRQ : Z := 8.
Definition DEV_MBS : Z := 160.
Definition DEV_LBA : Z := 64.
Definition DEV_DEV : Z := 16.
Definition DISK_SECTOR_SIZE : Z := 512.

(** [sema_down (&c->completion_wait)]: a thread that waits lets the devices go on. *)
Definition busy_left (o : option dev) : nat := match o with Some d => match d.(ph) with Busy n _ => n | _ => 0%nat end | None => 0%nat end.
Definition sema_down : M channel unit :=
  c <- get ;;
  (if 0 <? c.(completion_wait) then ret tt else pass (max_list (busy_left <$> c.(hw).(drives)))) ;;
  c <- get ;;
  if 0 <? c.(completion_wait) then change (upd_sema (c.(completion_wait) - 1)) else fail Deadlock.

Definition lock_acquire : M channel unit := c <- get ;; if c.(locked) then fail Deadlock else change (upd_locked true).
Definition lock_release : M channel unit := c <- get ;; assert c.(locked) ;; change (upd_locked false).

Definition wait_until_idle (d : disk) : M channel unit :=
  r <- iter 1001 (λ i,
    if i <? 1000 then
      s <- inb status ;;
      if Z.land s (Z.lor STA_BSY STA_DRQ) =? 0 then ret (inr true)
      else timer_usleep 10 ;; ret (inl (i + 1))
    else ret (inr false)) 0 ;;
  if r then ret tt else say (printf (line "%s: idle timeout") [AStr (Some d.(name))]).

Definition wait_while_busy (d : disk) : M channel bool :=
  r <- iter 3001 (λ i,
    if i <? 3000 then
      (if i =? 700 then say (printf (fmt "%s: busy, waiting...") [AStr (Some d.(name))]) else ret tt) ;;
      s <- inb status ;;
      if Z.land s STA_BSY =? 0 then
        (if 700 <=? i then say (printf (line "ok") []) else ret tt) ;;
        s <- inb status ;;
        ret (inr (Some (negb (Z.land s STA_DRQ =? 0))))
      else timer_msleep 10 ;; ret (inl (i + 1))
    else ret (inr None)) 0 ;;
  match r with
  | Some b => ret b
  | None => say (printf (line "failed") []) ;; ret false
  end.

Definition select_device (d : disk) : M channel unit :=
  out_device (if d.(dev_no) =? 1 then Z.lor DEV_MBS DEV_DEV else DEV_MBS) ;;
  inb status ;;
  timer_nsleep 400.

Definition select_device_wait (d : disk) : M channel unit := wait_until_idle d ;; select_device d ;; wait_until_idle d.

Definition select_sector (d : disk) (sec_no : Z) : M channel unit :=
  assert (sec_no <? d.(capacity)) ;;
  assert (sec_no <? 268435456) ;;
  select_device_wait d ;;
  out_nsect 1 ;;
  out_lbal sec_no ;;
  out_lbam (Z.shiftr sec_no 8) ;;
  out_lbah (Z.shiftr sec_no 16) ;;
  out_device (Z.lor (Z.lor (Z.lor DEV_MBS DEV_LBA) (if d.(dev_no) =? 1 then DEV_DEV else 0)) (Z.shiftr sec_no 24)).

Definition issue_pio_command (v : Z) : M channel unit := change (upd_expecting true) ;; out_command v.

Definition input_sector : M channel (list Z) := insw (Z.to_nat (DISK_SECTOR_SIZE / 2)).
Definition output_sector (sector : list Z) : M channel unit := outsw (Z.to_nat (DISK_SECTOR_SIZE / 2)) sector.

Definition count_read (d : disk) : disk := Disk d.(name) d.(dev_no) d.(is_ata) d.(capacity) (s64 (d.(read_cnt) + 1)) d.(write_cnt).
Definition count_write (d : disk) : disk := Disk d.(name) d.(dev_no) d.(is_ata) d.(capacity) d.(read_cnt) (s64 (d.(write_cnt) + 1)).
Definition set_ata (b : bool) (d : disk) : disk := Disk d.(name) d.(dev_no) b d.(capacity) d.(read_cnt) d.(write_cnt).
Definition set_capacity (n : Z) (d : disk) : disk := Disk d.(name) d.(dev_no) d.(is_ata) n d.(read_cnt) d.(write_cnt).

(** Disk [i] of the channel. *)
Definition disk_read (i : Z) (sec_no : Z) : M channel (list Z) :=
  d <- disk_at i ;;
  lock_acquire ;;
  select_sector d sec_no ;;
  issue_pio_command CMD_READ_SECTOR_RETRY ;;
  sema_down ;;
  ok <- wait_while_busy d ;;
  if negb ok then fail Panic
  else
    buffer <- input_sector ;;
    change (upd_disk i count_read) ;;
    lock_release ;;
    ret buffer.

Definition disk_write (i : Z) (sec_no : Z) (buffer : list Z) : M channel unit :=
  d <- disk_at i ;;
  lock_acquire ;;
  select_sector d sec_no ;;
  issue_pio_command CMD_WRITE_SECTOR_RETRY ;;
  ok <- wait_while_busy d ;;
  if negb ok then fail Panic
  else
    output_sector buffer ;;
    sema_down ;;
    change (upd_disk i count_write) ;;
    lock_release.

(** ** Detection *)

Definition print_ata_string (string : list Z) (size : Z) : M channel unit :=
  size <- iter (S (Z.to_nat size)) (λ size,
    if 0 <? size then
      let c := default 0 (string !! Z.to_nat (Z.lxor (size - 1) 1)) in
      if negb (c =? 0) && negb (isspace c) then ret (inr size) else ret (inl (size - 1))
    else ret (inr size)) size ;;
  for_upto size (λ i, say (printf (fmt "%c") [A32 (default 0 (string !! Z.to_nat (Z.lxor i 1)))])).

(** The pattern test for a device. *)
Definition probe (i : Z) : M channel bool :=
  d <- disk_at i ;;
  select_device d ;;
  out_nsect 85 ;; out_lbal 170 ;;
  out_nsect 170 ;; out_lbal 85 ;;
  out_nsect 85 ;; out_lbal 170 ;;
  n <- inb nsect ;;
  if n =? 85 then l <- inb lbal ;; ret (l =? 170) else ret false.

Definition wait_signature : M channel unit :=
  iter 3001 (λ i,
    if i <? 3000 then
      n <- inb nsect ;;
      ok <- (if n =? 1 then l <- inb lbal ;; ret (l =? 1) else ret false) ;;
      if (ok : bool) then ret (inr tt) else timer_msleep 10 ;; ret (inl (i + 1))
    else ret (inr tt)) 0.

Definition reset_channel : M channel unit :=
  present0 <- probe 0 ;;
  present1 <- probe 1 ;;
  out_ctl 0 ;;
  timer_usleep 10 ;;
  out_ctl CTL_SRST ;;
  timer_usleep 10 ;;
  out_ctl 0 ;;
  timer_msleep 150 ;;
  (if (present0 : bool) then d <- disk_at 0 ;; select_device d ;; wait_while_busy d ;; ret tt else ret tt) ;;
  (if (present1 : bool) then d <- disk_at 1 ;; select_device d ;; wait_signature ;; wait_while_busy d ;; ret tt else ret tt).

Definition check_device_type (i : Z) : M channel bool :=
  d <- disk_at i ;;
  select_device d ;;
  err <- inb error ;;
  m <- inb lbam ;;
  h <- inb lbah ;;
  s <- inb status ;;
  if (negb (err =? 1) && (negb (err =? 129) || (d.(dev_no) =? 1))) || (Z.land s STA_DRDY =? 0) || negb (Z.land s STA_BSY =? 0) then
    change (upd_disk i (set_ata false)) ;; ret (negb (err =? 129))
  else
    change (upd_disk i (set_ata (((m =? 0) && (h =? 0)) || ((m =? 60) && (h =? 195))))) ;; ret true.

Definition id_word (id : list Z) (k : nat) : Z := default 0 (id !! (2 * k)%nat) + 256 * default 0 (id !! (2 * k + 1)%nat).

(** The message about a disk: its size in the largest unit, its model and its number. *)
Definition size_text (cap : Z) : res (list Z) :=
  let per := 1024 / DISK_SECTOR_SIZE in
  if per * 1024 * 1024 <? cap then printf (fmt "%u GB") [A32 (cap `div` (per * 1024 * 1024))]
  else if per * 1024 <? cap then printf (fmt "%u MB") [A32 (cap `div` (per * 1024))]
  else if per <? cap then printf (fmt "%u kB") [A32 (cap `div` per)]
  else printf (fmt "%u byte") [A32 (u32 (cap * DISK_SECTOR_SIZE))].

Definition identify_ata_device (i : Z) : M channel unit :=
  d <- disk_at i ;;
  assert d.(is_ata) ;;
  select_device_wait d ;;
  issue_pio_command CMD_IDENTIFY_DEVICE ;;
  sema_down ;;
  ok <- wait_while_busy d ;;
  if negb ok then change (upd_disk i (set_ata false))
  else
    id <- input_sector ;;
    let cap := Z.lor (id_word id 60) (u32 (Z.shiftl (id_word id 61) 16)) in
    change (upd_disk i (set_capacity cap)) ;;
    say (printf (fmt "%s: detected %'u sector (") [AStr (Some d.(name)); A32 cap]) ;;
    say (size_text cap) ;;
    say (printf (fmt ") disk, model ") []) ;; say (Ok [34]) ;;
    print_ata_string (drop 54 id) 40 ;;
    say (Ok [34]) ;; say (printf (fmt ", serial ") []) ;; say (Ok [34]) ;;
    print_ata_string (drop 20 id) 20 ;;
    say (Ok [34; 10]).

(** ** Both channels *)

Definition new_disk (cn : list Z) (i : Z) : res disk :=
  let* (n, _) := snprintf 8 (fmt "%s:%d") [AStr (Some cn); A32 i] in
  Ok (Disk n i false 0 0 0).

Definition new_channel (chan_no : Z) (h : ata) (out : list Z) : res channel :=
  let* (cn, _) := snprintf 8 (fmt "hd%zu") [A32 chan_no] in
  let* (base, vec) := (if chan_no =? 0 then Ok (496, 14 + 32) else if chan_no =? 1 then Ok (368, 15 + 32) else Err AssertFail) in
  let* d0 := new_disk cn 0 in
  let* d1 := new_disk cn 1 in
  Ok (Channel cn base vec false false 0 [d0; d1] h out).

Definition init_channel : M channel unit :=
  reset_channel ;;
  (more <- check_device_type 0 ;; if (more : bool) then check_device_type 1 ;; ret tt else ret tt) ;;
  for_upto 2 (λ i, d <- disk_at i ;; if d.(is_ata) then identify_ata_device i else ret tt).

(** The hardware of the two channels; the handlers are registered in [Gates.disk_register]. *)
Definition disk_init (h0 h1 : ata) : res (list channel) :=
  let* c0 := new_channel 0 h0 [] in
  let* (_, c0) := init_channel c0 in
  let* c1 := new_channel 1 h1 [] in
  let* (_, c1) := init_channel c1 in
  Ok [c0; c1].

Definition disk_get (chans : list channel) (chan_no dev_no : Z) : res (option disk) :=
  if (dev_no =? 0) || (dev_no =? 1) then
    if chan_no <? 2 then
      if chan_no <? 0 then Err Fault
      else match chans !! Z.to_nat chan_no with
           | Some c => match c.(devices) !! Z.to_nat dev_no with
                       | Some d => Ok (if d.(is_ata) then Some d else None)
                       | None => Err Fault
                       end
           | None => Err Fault
           end
    else Ok None
  else Err AssertFail.

Definition disk_size (d : option disk) : res Z := match d with Some d => Ok d.(capacity) | None => Err AssertFail end.

Definition disk_print_stats (chans : list channel) : res (list Z) :=
  outputs ((λ p, let* od := disk_get chans p.1 p.2 in
    match od with
    | Some d => if d.(is_ata) then printf (line "%s: %lld reads, %lld writes") [AStr (Some d.(name)); A64 d.(read_cnt); A64 d.(write_cnt)] else Ok []
    | None => Ok []
    end) <$> [(0, 0); (0, 1); (1, 0); (1, 1)]).

(** interrupt_handler: the channel with that vector. *)
Fixpoint interrupt_handler (vec : Z) (chans : list channel) : res (list channel) :=
  match chans with
  | [] => Err AssertFail
  | c :: cs =>
      if vec =? c.(irq) then let* (_, c) := channel_interrupt c in Ok (c :: cs)
      else let* cs := interrupt_handler vec cs in Ok (c :: cs)
  end.

(** ** The devices at work *)

(** A channel of the driver state [c] with this hardware. *)
Definition st (c : channel) (ex : bool) (sm : Z) (drs : list (option dev)) (reg : Z) (dl : list nat) (pr : list Z) : channel :=
  Channel c.(cname) c.(reg_base) c.(irq) c.(locked) ex sm c.(devices) (Ata drs reg c.(hw).(float) dl) pr.

Definition opass (t : nat) (o : option dev) : option dev * bool :=
  match o with Some d => (Some (dev_pass t d).1, (dev_pass t d).2) | None => (None, false) end.

Lemma pass_st c t ex sm a b reg dl pr :
  pass t (st c ex sm [a; b] reg dl pr) =
  if (opass t a).2 || (opass t b).2 then channel_interrupt (st c ex sm [(opass t a).1; (opass t b).1] reg dl pr)
  else Ok (tt, st c ex sm [(opass t a).1; (opass t b).1] reg dl pr).
Proof.
  destruct a as [a|], b as [b|]; unfold pass, opass, bind, get, change; cbn -[dev_pass channel_interrupt];
    repeat (destruct (dev_pass t _) as [? []]); reflexivity.
Qed.

Definition still (o : option dev) : Prop := match o with Some d => match d.(ph) with Busy _ _ => False | _ => True end | None => True end.

Lemma opass_still t o : still o → opass t o = (o, false).
Proof. destruct o as [d|]; [|done]. unfold still, opass, dev_pass. by destruct (ph d). Qed.

Lemma pass_still c t ex sm a b reg dl pr : still a → still b → pass t (st c ex sm [a; b] reg dl pr) = Ok (tt, st c ex sm [a; b] reg dl pr).
Proof. intros Ha Hb. rewrite pass_st. by rewrite !opass_still. Qed.

Definition pick (reg : Z) (a b : option dev) : option dev := if Z.testbit reg 4 then b else a.

Definition seen (c : channel) (f : dev → Z) (o : option dev) : Z := match o with Some d => f d | None => c.(hw).(float) end.

Lemma inb_still c f ex sm a b reg dl pr : still a → still b →
  inb f (st c ex sm [a; b] reg dl pr) = Ok (seen c f (pick reg a b), st c ex sm [a; b] reg dl pr).
Proof.
  intros Ha Hb. unfold inb. rewrite (bind_Ok _ _ _ _ _ (pass_still c 0 ex sm a b reg dl pr Ha Hb)). unfold bind, get, ret, current, selected, pick. cbn [st hw dev_reg drives float].
  by destruct (Z.testbit reg 4).
Qed.

Lemma outb_still c f ex sm a b reg dl pr : still a → still b →
  outb f (st c ex sm [a; b] reg dl pr) = Ok (tt, upd_hw f (st c ex sm [a; b] reg dl pr)).
Proof. intros Ha Hb. unfold outb. by rewrite (bind_Ok _ _ _ _ _ (pass_still c 0 ex sm a b reg dl pr Ha Hb)). Qed.

(** The messages that can appear have the name of a disk in them. *)
Definition named (d : disk) : Prop :=
  (∃ s, printf (line "%s: idle timeout") [AStr (Some d.(name))] = Ok s) ∧ (∃ s, printf (fmt "%s: busy, waiting...") [AStr (Some d.(name))] = Ok s) ∧
  (∀ n, is_u32 n → ∃ s, printf (fmt "%s: detected %'u sector (") [AStr (Some d.(name)); A32 n] = Ok s).

Lemma wait_until_idle_run c d ex sm a b reg dl pr : named d → still a → still b →
  ∃ pr', wait_until_idle d (st c ex sm [a; b] reg dl pr) = Ok (tt, st c ex sm [a; b] reg dl pr').
Proof.
  intros [[s Hs] _] Ha Hb. unfold wait_until_idle. set (body := λ i : Z, _). set (σ := st c ex sm [a; b] reg dl pr).
  assert (∀ k i, Z.of_nat k = 1000 - i → ∃ r, iter (S k) body i σ = Ok (r, σ)) as Hloop.
  { induction k as [|k IH]; intros i Hk.
    - exists false. apply iter_break. unfold body. by rewrite (proj2 (Z.ltb_ge _ _)) by lia.
    - set (v := Z.land (seen c status (pick reg a b)) (Z.lor STA_BSY STA_DRQ) =? 0). destruct v eqn:Ev; subst v.
      + exists true. apply iter_break. unfold body. rewrite (proj2 (Z.ltb_lt _ _)) by lia. by rewrite (bind_Ok _ _ _ _ _ (inb_still c status ex sm a b reg dl pr Ha Hb)), Ev.
      + destruct (IH (i + 1)) as [r Hr]; [lia|]. exists r. rewrite <- Hr. apply iter_continue. unfold body. rewrite (proj2 (Z.ltb_lt _ _)) by lia.
        rewrite (bind_Ok _ _ _ _ _ (inb_still c status ex sm a b reg dl pr Ha Hb)), Ev. unfold timer_usleep. by rewrite (bind_Ok _ _ _ _ _ (pass_still c 1 ex sm a b reg dl pr Ha Hb)). }
  destruct (Hloop 1000%nat 0 eq_refl) as [[] Hr]; rewrite (bind_Ok _ _ _ _ _ Hr); [by exists pr|]. exists (pr ++ s). unfold say. by rewrite Hs.
Qed.

Definition device_reg (d : disk) : Z := if d.(dev_no) =? 1 then 176 else 160.

Lemma select_device_run c d ex sm a b reg dl pr : still a → still b →
  select_device d (st c ex sm [a; b] reg dl pr) = Ok (tt, st c ex sm [a; b] (device_reg d) dl pr).
Proof.
  intros Ha Hb. unfold select_device, out_device. rewrite (bind_Ok _ _ _ _ _ (outb_still c _ ex sm a b reg dl pr Ha Hb)).
  assert (upd_hw (λ h, Ata h.(drives) (u8 (if d.(dev_no) =? 1 then Z.lor DEV_MBS DEV_DEV else DEV_MBS)) h.(float) h.(delays)) (st c ex sm [a; b] reg dl pr) = st c ex sm [a; b] (device_reg d) dl pr) as ->
    by (unfold device_reg; by destruct (d.(dev_no) =? 1)).
  rewrite (bind_Ok _ _ _ _ _ (inb_still c status ex sm a b _ dl pr Ha Hb)). by apply pass_still.
Qed.

Lemma select_device_wait_run c d ex sm a b reg dl pr : named d → still a → still b →
  ∃ pr', select_device_wait d (st c ex sm [a; b] reg dl pr) = Ok (tt, st c ex sm [a; b] (device_reg d) dl pr').
Proof.
  intros Hn Ha Hb. unfold select_device_wait. destruct (wait_until_idle_run c d ex sm a b reg dl pr Hn Ha Hb) as [pr1 E1]. rewrite (bind_Ok _ _ _ _ _ E1).
  rewrite (bind_Ok _ _ _ _ _ (select_device_run c d ex sm a b reg dl pr1 Ha Hb)). by apply wait_until_idle_run.
Qed.

(** The registers of both devices hold a sector number. *)
Definition addressed (n : Z) (d : dev) : dev :=
  Dev d.(packet) d.(media) d.(ident) 1 (u8 n) (u8 (Z.shiftr n 8)) (u8 (Z.shiftr n 16)) d.(error) d.(ph).
Definition sector_reg (d : disk) (n : Z) : Z := device_reg d + 64 + n `div` 16777216.

Lemma still_fmap (f : dev → dev) o : (∀ d, (f d).(ph) = d.(ph)) → still o → still (f <$> o).
Proof. intros Hf. destruct o as [d|]; [|done]. cbn. by rewrite Hf. Qed.

Lemma on_all_still c f ex sm a b reg dl pr : (∀ d, (f d).(ph) = d.(ph)) → still a → still b →
  outb (on_all f) (st c ex sm [a; b] reg dl pr) = Ok (tt, st c ex sm [f <$> a; f <$> b] reg dl pr).
Proof. intros _ Ha Hb. by rewrite outb_still. Qed.

Lemma sector_reg_ok (d : disk) n : 0 ≤ n < 268435456 →
  u8 (Z.lor (Z.lor (Z.lor DEV_MBS DEV_LBA) (if d.(dev_no) =? 1 then DEV_DEV else 0)) (Z.shiftr n 24)) = sector_reg d n.
Proof.
  intros Hn. unfold sector_reg, device_reg. rewrite Z.shiftr_div_pow2 by lia. change (2 ^ 24) with 16777216.
  assert (0 ≤ n `div` 16777216 < 16) as Hq by dm_lia. generalize dependent (n `div` 16777216). intros q Hq.
  assert (q ∈ [0; 1; 2; 3; 4; 5; 6; 7; 8; 9; 10; 11; 12; 13; 14; 15]) as Hin by (rewrite !elem_of_cons; lia).
  repeat (apply elem_of_cons in Hin as [-> |Hin]; [by destruct (d.(dev_no) =? 1)|]). by apply not_elem_of_nil in Hin.
Qed.

Lemma select_sector_run c d n ex sm a b reg dl pr : named d → still a → still b → 0 ≤ n < d.(capacity) → n < 268435456 →
  ∃ pr', select_sector d n (st c ex sm [a; b] reg dl pr) = Ok (tt, st c ex sm [addressed n <$> a; addressed n <$> b] (sector_reg d n) dl pr').
Proof.
  intros Hn Ha Hb Hc Hs. unfold select_sector. rewrite !bind_assert by (apply Z.ltb_lt; lia).
  destruct (select_device_wait_run c d ex sm a b reg dl pr Hn Ha Hb) as [pr' E]. rewrite (bind_Ok _ _ _ _ _ E). exists pr'.
  unfold out_nsect, out_lbal, out_lbam, out_lbah.
  do 4 (erewrite bind_Ok by (apply on_all_still; [done|by repeat apply still_fmap..])).
  unfold out_device. rewrite outb_still by (by repeat apply still_fmap). rewrite sector_reg_ok by lia. unfold upd_hw, st. cbn [cname reg_base irq locked expecting_interrupt completion_wait devices hw printed drives dev_reg float delays].
  do 4 f_equal. by destruct a, b.
Qed.

(** The device is addressed as the number says. *)
Lemma lba_ok (d : disk) v n fl dl drs : 0 ≤ n < 268435456 → lba (Ata drs (sector_reg d n) fl dl) (addressed n v) = n.
Proof.
  intros Hn. unfold lba. cbn [dev_reg addressed lbal lbam lbah]. unfold u8, W8. rewrite !Z.shiftr_div_pow2 by lia. change (2 ^ 8) with 256. change (2 ^ 16) with 65536.
  assert (sector_reg d n `mod` 16 = n `div` 16777216) as -> by (unfold sector_reg, device_reg; destruct (d.(dev_no) =? 1); dm_lia). dm_lia.
Qed.

Lemma sector_reg_selects (d : disk) n : 0 ≤ n < 268435456 → Z.testbit (sector_reg d n) 4 = (d.(dev_no) =? 1).
Proof.
  intros Hn. unfold sector_reg, device_reg. assert (0 ≤ n `div` 16777216 < 16) as Hq by dm_lia. generalize dependent (n `div` 16777216). intros q Hq.
  rewrite Z.testbit_odd, Z.shiftr_div_pow2 by lia. change (2 ^ 4) with 16.
  destruct (d.(dev_no) =? 1); [replace ((176 + 64 + q) `div` 16) with 15 by dm_lia|replace ((160 + 64 + q) `div` 16) with 14 by dm_lia]; done.
Qed.

(** The selected device and the other one. *)
Definition duo (i : Z) (v : dev) (o : option dev) : list (option dev) := if i =? 1 then [o; Some v] else [Some v; o].

Lemma pass_duo c t i ex sm v o reg dl pr : still o →
  pass t (st c ex sm (duo i v o) reg dl pr) =
  if (dev_pass t v).2 then channel_interrupt (st c ex sm (duo i (dev_pass t v).1 o) reg dl pr)
  else Ok (tt, st c ex sm (duo i (dev_pass t v).1 o) reg dl pr).
Proof. intros Ho. unfold duo. destruct (i =? 1); rewrite pass_st, (opass_still _ o) by done; cbn [opass fst snd orb]; by rewrite ?orb_false_r. Qed.

Lemma dev_pass_still t v : still (Some v) → dev_pass t v = (v, false).
Proof. unfold still, dev_pass. by destruct (ph v). Qed.

Lemma pass_duo_still c t i ex sm v o reg dl pr : still (Some v) → still o → pass t (st c ex sm (duo i v o) reg dl pr) = Ok (tt, st c ex sm (duo i v o) reg dl pr).
Proof. intros Hv Ho. by rewrite pass_duo, dev_pass_still. Qed.

Lemma current_duo i v o reg fl dl : Z.testbit reg 4 = (i =? 1) → current (Ata (duo i v o) reg fl dl) = Some v.
Proof. intros Hr. unfold current, selected. cbn [dev_reg drives]. rewrite Hr. unfold duo. by destruct (i =? 1). Qed.

Lemma on_current_duo f i v o reg fl dl : Z.testbit reg 4 = (i =? 1) → on_current f (Ata (duo i v o) reg fl dl) = Ata (duo i (f v) o) reg fl dl.
Proof. intros Hr. unfold on_current, selected. cbn [dev_reg drives float delays]. rewrite Hr. unfold duo. by destruct (i =? 1). Qed.

Lemma inb_duo c f i ex sm v o reg dl pr : Z.testbit reg 4 = (i =? 1) → still (Some v) → still o →
  inb f (st c ex sm (duo i v o) reg dl pr) = Ok (f v, st c ex sm (duo i v o) reg dl pr).
Proof.
  intros Hr Hv Ho. unfold inb. rewrite (bind_Ok _ _ _ _ _ (pass_duo_still c 0 i ex sm v o reg dl pr Hv Ho)). unfold bind, get, ret. cbn [st hw]. by rewrite current_duo.
Qed.

Lemma outb_duo c f i ex sm v o reg dl pr : still (Some v) → still o →
  outb f (st c ex sm (duo i v o) reg dl pr) = Ok (tt, upd_hw f (st c ex sm (duo i v o) reg dl pr)).
Proof. intros Hv Ho. unfold outb. by rewrite (bind_Ok _ _ _ _ _ (pass_duo_still c 0 i ex sm v o reg dl pr Hv Ho)). Qed.

Lemma issue_run c cmd i ex sm v o reg dl pr : Z.testbit reg 4 = (i =? 1) → still (Some v) → still o →
  issue_pio_command cmd (st c ex sm (duo i v o) reg dl pr) =
  Ok (tt, st c true sm (duo i (command cmd (Ata (duo i v o) reg c.(hw).(float) dl) v) o) reg (tl dl) pr).
Proof.
  intros Hr Hv Ho. unfold issue_pio_command. rewrite (bind_Ok _ _ _ tt (st c true sm (duo i v o) reg dl pr)) by done.
  unfold out_command. rewrite outb_duo by done. unfold upd_hw, st. cbn [cname reg_base irq locked expecting_interrupt completion_wait devices hw printed drives dev_reg float delays].
  by rewrite on_current_duo.
Qed.

(** A thread that waits for a command goes on when it is done. *)
Lemma sema_down_run c i v v' n j o reg dl pr : still o → v.(ph) = Busy n j → finish j v = (v', true) →
  sema_down (st c true 0 (duo i v o) reg dl pr) = Ok (tt, st c true 0 (duo i v' o) reg dl pr).
Proof.
  intros Ho Hp Hf. unfold sema_down. rewrite (bind_Ok get _ _ _ _ eq_refl). cbn [completion_wait st Z.ltb Z.compare hw drives].
  assert (busy_left o = 0%nat) as Hl by (destruct o as [d|]; [|done]; cbn in *; by destruct (ph d)).
  assert (max_list (busy_left <$> duo i v o) = n) as ->. { unfold duo. destruct (i =? 1); cbn; rewrite Hl, Hp; lia. }
  rewrite (bind_Ok _ _ _ tt (st c true 1 (duo i v' o) reg dl pr)); [done|].
  rewrite pass_duo by done. unfold dev_pass. rewrite Hp, Nat.leb_refl, Hf. done.
Qed.

(** Words through the data register. *)
Lemma insw_run c i v o reg dl pr ws ex sm : Z.testbit reg 4 = (i =? 1) → still o → v.(ph) = DataIn ws → ws ≠ [] →
  insw (length ws) (st c ex sm (duo i v o) reg dl pr) = Ok (to_bytes ws, st c ex sm (duo i (set_ph Idle v) o) reg dl pr).
Proof.
  intros Hr Ho. revert v. induction ws as [|w ws IH]; intros v Hp Hne; [done|]. cbn [length insw].
  assert (in_word (st c ex sm (duo i v o) reg dl pr) = Ok (w, st c ex sm (duo i (take_word v) o) reg dl pr)) as E.
  { unfold in_word. rewrite (bind_Ok _ _ _ _ _ (inb_duo c first_word i ex sm v o reg dl pr Hr ltac:(by cbn; rewrite Hp) Ho)).
    assert (first_word v = w) as -> by (unfold first_word; by rewrite Hp). unfold bind, change, ret, upd_hw, st.
    cbn [cname reg_base irq locked expecting_interrupt completion_wait devices hw printed drives dev_reg float delays]. by rewrite on_current_duo. }
  rewrite (bind_Ok _ _ _ _ _ E). unfold take_word. rewrite Hp. destruct ws as [|w' ws]; [done|].
  erewrite bind_Ok by (by apply (IH (set_ph (DataIn (w' :: ws)) v))). done.
Qed.

Lemma outsw_run c i v o reg dl pr l ws bs k ex sm : Z.testbit reg 4 = (i =? 1) → still o → v.(ph) = DataOut l ws → (length ws + k = 256)%nat → (0 < k)%nat → length bs = (2 * k)%nat →
  outsw k bs (st c ex sm (duo i v o) reg dl pr) = Ok (tt, st c ex sm (duo i (set_ph (Busy (hd 0%nat dl) (JWriteDone l (ws ++ to_words bs))) v) o) reg (tl dl) pr).
Proof.
  intros Hr Ho. revert v ws bs. induction k as [|k IH]; intros v ws bs Hp Hw Hk Hl; [lia|]. destruct bs as [|lo [|hi bs]]; try (cbn in Hl; lia). cbn [outsw].
  unfold out_word. erewrite bind_Ok by (apply outb_duo; [by cbn; rewrite Hp|done]). unfold upd_hw, st.
  cbn [cname reg_base irq locked expecting_interrupt completion_wait devices hw printed drives dev_reg float delays]. rewrite current_duo, on_current_duo by done.
  unfold ends_sector, give_word. rewrite Hp. destruct (Nat.eqb_spec (length ws) 255) as [Hf|Hf].
  - assert (k = 0%nat) as -> by lia. destruct bs; [|cbn in Hl; lia]. done.
  - pose proof (IH (set_ph (DataOut l (ws ++ [lo + 256 * hi])) v) (ws ++ [lo + 256 * hi]) bs eq_refl) as E. unfold id.
    assert (outsw k bs (st c ex sm (duo i (set_ph (DataOut l (ws ++ [lo + 256 * hi])) v) o) reg dl pr) =
      Ok (tt, st c ex sm (duo i (set_ph (Busy (hd 0%nat dl) (JWriteDone l (ws ++ to_words (lo :: hi :: bs)))) v) o) reg (tl dl) pr)) as E'; [|exact E'].
    rewrite E by (rewrite ?length_app; cbn in *; lia). cbn [to_words]. by rewrite <- app_assoc.
Qed.

(** Polling a device until it is not busy any more. *)
Definition settled (v : dev) : Prop := match v.(ph) with Busy _ _ | Resetting => False | _ => True end.
Definition drq (v : dev) : bool := match v.(ph) with DataIn _ | DataOut _ _ => true | _ => false end.

Lemma settled_still v : settled v → still (Some v).
Proof. unfold settled, still. by destruct (ph v). Qed.

Lemma status_settled v : settled v → Z.land (status v) STA_BSY = 0 ∧ negb (Z.land (status v) STA_DRQ =? 0) = drq v.
Proof. unfold settled, status, drq. by destruct (ph v), (packet v). Qed.

Lemma say_ok r s c ex sm drs reg dl pr : r = Ok s → say r (st c ex sm drs reg dl pr) = Ok (tt, st c ex sm drs reg dl (pr ++ s)).
Proof. by intros ->. Qed.

Definition poll (d : disk) (i : Z) : M channel (Z + option bool) :=
  if i <? 3000 then
    (if i =? 700 then say (printf (fmt "%s: busy, waiting...") [AStr (Some d.(name))]) else ret tt) ;;
    s <- inb status ;;
    if Z.land s STA_BSY =? 0 then
      (if 700 <=? i then say (printf (line "ok") []) else ret tt) ;;
      s <- inb status ;;
      ret (inr (Some (negb (Z.land s STA_DRQ =? 0))))
    else timer_msleep 10 ;; ret (inl (i + 1))
  else ret (inr None).

(** The message of the 700th poll. *)
Lemma poll_message c d i ex sm drs reg dl pr : named d →
  ∃ pr', (if i =? 700 then say (printf (fmt "%s: busy, waiting...") [AStr (Some d.(name))]) else ret tt) (st c ex sm drs reg dl pr) = Ok (tt, st c ex sm drs reg dl pr').
Proof. intros (_ & [s Hs] & _). destruct (i =? 700); [|by eexists]. eexists. by apply say_ok. Qed.

(** The rest of a poll that finds the device ready. *)
Lemma poll_ready c k i ex sm v o reg dl pr : Z.testbit reg 4 = (k =? 1) → settled v → still o →
  ∃ pr', (s <- inb status ;;
    if Z.land s STA_BSY =? 0 then
      (if 700 <=? i then say (printf (line "ok") []) else ret tt) ;;
      s <- inb status ;;
      ret (inr (Some (negb (Z.land s STA_DRQ =? 0))))
    else timer_msleep 10 ;; ret (inl (i + 1))) (st c ex sm (duo k v o) reg dl pr) = Ok (inr (Some (drq v)) : Z + option bool, st c ex sm (duo k v o) reg dl pr').
Proof.
  intros Hr Hv Ho. destruct (status_settled v Hv) as [H1 H2]. pose proof (settled_still v Hv) as Hst.
  rewrite (bind_Ok _ _ _ _ _ (inb_duo c status k ex sm v o reg dl pr Hr Hst Ho)). rewrite (proj2 (Z.eqb_eq _ _) H1). destruct (700 <=? i).
  - eexists. erewrite bind_Ok by (apply say_ok; vm_compute; reflexivity). rewrite (bind_Ok _ _ _ _ _ (inb_duo c status k ex sm v o reg dl _ Hr Hst Ho)). by rewrite H2.
  - eexists. rewrite (bind_Ok (ret tt) _ _ _ _ eq_refl). rewrite (bind_Ok _ _ _ _ _ (inb_duo c status k ex sm v o reg dl _ Hr Hst Ho)). by rewrite H2.
Qed.

(** Reading the status while time passes. *)
Lemma inb_pass c f k ex sm v v' o reg dl pr : Z.testbit reg 4 = (k =? 1) → still o → dev_pass 0 v = (v', false) →
  inb f (st c ex sm (duo k v o) reg dl pr) = Ok (f v', st c ex sm (duo k v' o) reg dl pr).
Proof.
  intros Hr Ho Hp. unfold inb. erewrite bind_Ok by (rewrite pass_duo by done; rewrite Hp; reflexivity). unfold bind, get, ret. cbn [st hw]. by rewrite current_duo.
Qed.

Lemma finish_set_ph j p v : finish j (set_ph p v) = finish j v.
Proof. by destruct j. Qed.

Lemma dev_pass_busy t n j v v' : v.(ph) = Busy n j → finish j v = (v', false) →
  dev_pass t v = (if (n <=? t)%nat then v' else set_ph (Busy (n - t) j) v, false).
Proof. intros Hp Hf. unfold dev_pass. rewrite Hp, Hf. by destruct (n <=? t)%nat. Qed.

Lemma poll_settled c d k i ex sm v o reg dl pr : named d → Z.testbit reg 4 = (k =? 1) → settled v → still o → i < 3000 →
  ∃ pr', poll d i (st c ex sm (duo k v o) reg dl pr) = Ok (inr (Some (drq v)), st c ex sm (duo k v o) reg dl pr').
Proof.
  intros Hn Hr Hv Ho Hi. destruct (poll_message c d i ex sm (duo k v o) reg dl pr Hn) as [pr1 E1]. destruct (poll_ready c k i ex sm v o reg dl pr1 Hr Hv Ho) as [pr2 E2].
  exists pr2. unfold poll. rewrite (proj2 (Z.ltb_lt i 3000)) by lia. by rewrite (bind_Ok _ _ _ _ _ E1).
Qed.

Lemma poll_busy c d k j v1 ex sm o reg dl : named d → Z.testbit reg 4 = (k =? 1) → still o → settled v1 →
  ∀ n i fuel v pr, v.(ph) = Busy n j → finish j v = (v1, false) → 0 ≤ i → i + Z.of_nat n < 3000 → (n + 2 ≤ fuel)%nat →
  ∃ pr', iter fuel (poll d) i (st c ex sm (duo k v o) reg dl pr) = Ok (Some (drq v1), st c ex sm (duo k v1 o) reg dl pr').
Proof.
  intros Hn Hr Ho Hv1. induction n as [|n IH]; intros i [|fuel] v pr Hp Hf Hi Hi2 Hfuel; try lia.
  - destruct (poll_message c d i ex sm (duo k v o) reg dl pr Hn) as [pr1 E1]. destruct (poll_ready c k i ex sm v1 o reg dl pr1 Hr Hv1 Ho) as [pr2 E2].
    exists pr2. apply iter_break. unfold poll. rewrite (proj2 (Z.ltb_lt i 3000)) by lia. rewrite (bind_Ok _ _ _ _ _ E1).
    pose proof (dev_pass_busy 0 0 j v v1 Hp Hf) as Hd. cbn [Nat.leb] in Hd. revert E2. unfold bind at 1. rewrite (inb_duo c status k ex sm v1 o reg dl pr1 Hr (settled_still _ Hv1) Ho).
    intros E2. rewrite (bind_Ok _ _ _ _ _ (inb_pass c status k ex sm v v1 o reg dl pr1 Hr Ho Hd)). exact E2.
  - destruct (poll_message c d i ex sm (duo k v o) reg dl pr Hn) as [pr1 E1].
    pose proof (dev_pass_busy 0 (S n) j v v1 Hp Hf) as Hd. cbn [Nat.leb Nat.sub] in Hd. assert (set_ph (Busy (S n) j) v = v) as Hsame by (rewrite <- Hp; by destruct v). rewrite Hsame in Hd.
    set (v2 := (dev_pass 1 v).1). assert (poll d i (st c ex sm (duo k v o) reg dl pr) = Ok (inl (i + 1), st c ex sm (duo k v2 o) reg dl pr1)) as E.
    { unfold poll. rewrite (proj2 (Z.ltb_lt i 3000)) by lia. rewrite (bind_Ok _ _ _ _ _ E1). rewrite (bind_Ok _ _ _ _ _ (inb_pass c status k ex sm v v o reg dl pr1 Hr Ho Hd)).
      assert (Z.land (status v) STA_BSY =? 0 = false) as -> by (unfold status; by rewrite Hp).
      unfold timer_msleep. rewrite (bind_Ok _ _ _ tt (st c ex sm (duo k v2 o) reg dl pr1)); [done|]. rewrite pass_duo by done. unfold v2. by rewrite (dev_pass_busy 1 (S n) j v v1 Hp Hf). }
    rewrite (iter_continue _ _ _ _ _ _ E). unfold v2. rewrite (dev_pass_busy 1 (S n) j v v1 Hp Hf). cbn [fst]. destruct n as [|n]; cbn [Nat.leb Nat.sub].
    + destruct fuel as [|fuel]; [lia|]. destruct (poll_settled c d k (i + 1) ex sm v1 o reg dl pr1) as [pr2 E2]; [done..|lia|].
      exists pr2. by apply iter_break.
    + apply IH; [done|by rewrite finish_set_ph|lia..].
Qed.

Lemma wait_while_busy_busy c d k j v v1 n ex sm o reg dl pr : named d → Z.testbit reg 4 = (k =? 1) → still o → settled v1 →
  v.(ph) = Busy n j → finish j v = (v1, false) → (n < 3000)%nat →
  ∃ pr', wait_while_busy d (st c ex sm (duo k v o) reg dl pr) = Ok (drq v1, st c ex sm (duo k v1 o) reg dl pr').
Proof.
  intros Hn Hr Ho Hv1 Hp Hf Hlt. destruct (poll_busy c d k j v1 ex sm o reg dl Hn Hr Ho Hv1 n 0 3001 v pr Hp Hf) as [pr' E]; [lia..|].
  exists pr'. unfold wait_while_busy. by rewrite (bind_Ok _ _ _ _ _ E).
Qed.

Lemma wait_while_busy_settled c d k v ex sm o reg dl pr : named d → Z.testbit reg 4 = (k =? 1) → still o → settled v →
  ∃ pr', wait_while_busy d (st c ex sm (duo k v o) reg dl pr) = Ok (drq v, st c ex sm (duo k v o) reg dl pr').
Proof.
  intros Hn Hr Ho Hv. destruct (poll_settled c d k 0 ex sm v o reg dl pr) as [pr' E]; [done..|]. exists pr'. unfold wait_while_busy.
  by rewrite (bind_Ok _ _ _ _ _ (iter_break 3000 (poll d) 0 _ _ _ E)).
Qed.

(** ** Reading and writing a sector *)

Definition sector_ok (s : list Z) : Prop := length s = 512%nat ∧ Forall is_u8 s.
Definition idle (o : option dev) : Prop := match o with Some d => d.(ph) = Idle | None => True end.

Lemma idle_still o : idle o → still o.
Proof. destruct o as [d|]; [|done]. cbn. by intros ->. Qed.

Lemma to_words_length bs k : length bs = (2 * k)%nat → length (to_words bs) = k.
Proof. revert bs. induction k as [|k IH]; intros [|lo [|hi bs]] H; try (cbn in H; lia); [done|]. cbn in *. f_equal. apply IH. lia. Qed.

Lemma words_bytes bs k : length bs = (2 * k)%nat → Forall is_u8 bs → to_bytes (to_words bs) = bs.
Proof.
  revert bs. induction k as [|k IH]; intros [|lo [|hi bs]] Hl Hb; try (cbn in Hl; lia); [done|]. apply Forall_cons in Hb as [Hlo Hb]. apply Forall_cons in Hb as [Hhi Hb].
  cbn [to_words]. unfold to_bytes in *. cbn [mbind list_bind app]. rewrite IH by (done || (cbn in Hl; lia)). cbn [app]. f_equal; [|f_equal]; dm_lia.
Qed.

(** A channel at rest, with disk [k] selected or not. *)
Definition at_rest (c : channel) (k : Z) (d : disk) (v : dev) (o : option dev) : Prop :=
  c.(locked) = false ∧ c.(completion_wait) = 0 ∧ c.(devices) !! Z.to_nat k = Some d ∧ d.(dev_no) = k ∧ named d ∧
  c.(hw).(drives) = duo k v o ∧ v.(ph) = Idle ∧ v.(packet) = false ∧ idle o.

Lemma st_eta c : c = st c c.(expecting_interrupt) c.(completion_wait) c.(hw).(drives) c.(hw).(dev_reg) c.(hw).(delays) c.(printed).
Proof. by destruct c as [? ? ? ? ? ? ? [] ?]. Qed.

Lemma duo_fmap k v o (f : dev → dev) : (if k =? 1 then [f <$> o; Some (f v)] else [Some (f v); f <$> o]) = duo k (f v) (f <$> o).
Proof. done. Qed.

(** Everything up to the command. *)
Lemma start_run c k d v o n cmd : at_rest c k d v o → 0 ≤ n < d.(capacity) → n < 268435456 →
  ∃ pr, ∀ A (K : M channel A), (lock_acquire ;; select_sector d n ;; issue_pio_command cmd ;; K) c =
    K (st (upd_locked true c) true 0 (duo k (command cmd (Ata (duo k (addressed n v) (addressed n <$> o)) (sector_reg d n) c.(hw).(float) c.(hw).(delays)) (addressed n v)) (addressed n <$> o))
      (sector_reg d n) (tl c.(hw).(delays)) pr).
Proof.
  intros (Hl & Hs & Hd & Hk & Hn & Hdr & Hv & Hp & Ho) Hc Hlt. unfold lock_acquire. set (c1 := upd_locked true c).
  assert (c1 = st c1 c.(expecting_interrupt) 0 (duo k v o) c.(hw).(dev_reg) c.(hw).(delays) c.(printed)) as E1 by (rewrite <- Hs, <- Hdr; by destruct c as [? ? ? ? ? ? ? [] ?]).
  assert (∃ pr, select_sector d n c1 = Ok (tt, st c1 c.(expecting_interrupt) 0 (duo k (addressed n v) (addressed n <$> o)) (sector_reg d n) c.(hw).(delays) pr)) as [pr E2].
  { enough (∃ pr, select_sector d n (st c1 c.(expecting_interrupt) 0 (duo k v o) c.(hw).(dev_reg) c.(hw).(delays) c.(printed)) =
      Ok (tt, st c1 c.(expecting_interrupt) 0 (duo k (addressed n v) (addressed n <$> o)) (sector_reg d n) c.(hw).(delays) pr)) as [pr E] by (exists pr; by rewrite <- E, <- E1).
    clearbody c1. unfold duo. destruct (k =? 1); (edestruct select_sector_run as [pr E]; [done| | |done|done|exists pr; exact E]); first [by apply idle_still|by apply (idle_still (Some v))]. }
  exists pr. intros A K. rewrite (bind_Ok _ _ c tt c1) by (unfold bind, get; by rewrite Hl). rewrite (bind_Ok _ _ _ _ _ E2).
  erewrite bind_Ok by (apply issue_run; [rewrite sector_reg_selects by lia; by rewrite Hk|cbn; by rewrite Hv|apply still_fmap; [done|by apply idle_still]]). done.
Qed.

(** The channel afterwards. *)
Definition done_state (c : channel) (f : disk → disk) (k : Z) (v : dev) (o : option dev) (dl : list nat) (c' : channel) : Prop :=
  ∃ reg pr, c' = Channel c.(cname) c.(reg_base) c.(irq) false true 0 (alter f (Z.to_nat k) c.(devices)) (Ata (duo k v o) reg c.(hw).(float) dl) pr.

Lemma finish_op c k f v o reg dl pr : done_state c f k v o dl
  (upd_locked false (upd_disk k f (st (upd_locked true c) true 0 (duo k v o) reg dl pr))).
Proof. by exists reg, pr. Qed.

Lemma sector_read_run c k d v o n s : at_rest c k d v o → 0 ≤ n < d.(capacity) → n < 268435456 → v.(media) !! Z.to_nat n = Some s → sector_ok s →
  ∃ c', disk_read k n c = Ok (s, c') ∧ done_state c count_read k (addressed n v) (addressed n <$> o) (tl c.(hw).(delays)) c'.
Proof.
  intros HR Hc Hlt Hm [Hl Hb]. destruct (start_run c k d v o n CMD_READ_SECTOR_RETRY HR Hc Hlt) as [pr E1]. destruct HR as (_ & _ & Hd & Hk & Hn & Hdr & Hv & Hp & Ho).
  unfold disk_read, disk_at. rewrite (bind_Ok _ _ c d c) by (by rewrite Hd). rewrite E1. clear E1. set (c1 := upd_locked true c). set (o1 := addressed n <$> o).
  assert (still o1) as Ho1 by (apply still_fmap; [done|by apply idle_still]). assert (Z.testbit (sector_reg d n) 4 = (k =? 1)) as Hr by (rewrite <- Hk; apply sector_reg_selects; lia).
  assert (command CMD_READ_SECTOR_RETRY (Ata (duo k (addressed n v) o1) (sector_reg d n) c.(hw).(float) c.(hw).(delays)) (addressed n v) =
    set_ph (Busy (hd 0%nat c.(hw).(delays)) (JRead n)) (addressed n v)) as ->.
  { unfold command. cbn [addressed ph packet]. rewrite Hv, Hp. cbn [Z.eqb]. fold (addressed n v). by rewrite lba_ok by lia. }
  set (v1 := addressed n v). set (v2 := set_ph (DataIn (to_words s)) v1).
  erewrite bind_Ok by (eapply (sema_down_run c1 k _ v2); [done|reflexivity|cbn; by rewrite Hm]).
  destruct (wait_while_busy_settled c1 d k v2 true 0 o1 (sector_reg d n) (tl c.(hw).(delays)) pr Hn Hr Ho1 I) as [pr2 E2]. rewrite (bind_Ok _ _ _ _ _ E2). cbn [drq v2 ph set_ph negb].
  assert (Z.to_nat (DISK_SECTOR_SIZE / 2) = length (to_words s)) as Hlen by (by rewrite (to_words_length s 256)). unfold input_sector. rewrite Hlen.
  erewrite bind_Ok by (apply insw_run; [done|done|reflexivity|by destruct (to_words s)]). rewrite (words_bytes s 256) by done.
  eexists. split; [unfold lock_release; reflexivity|]. replace (set_ph Idle v2) with v1 by (unfold v2, v1, set_ph, addressed; cbn; by rewrite Hv). apply finish_op.
Qed.

Lemma sector_write_run c k d v o n s : at_rest c k d v o → 0 ≤ n < d.(capacity) → n < 268435456 → d.(capacity) ≤ zlen v.(media) → sector_ok s →
  Forall (λ t, (t < 3000)%nat) c.(hw).(delays) →
  ∃ c', disk_write k n s c = Ok (tt, c') ∧
    done_state c count_write k (addressed n (set_media (<[Z.to_nat n := s]> v.(media)) v)) (addressed n <$> o) (drop 2 c.(hw).(delays)) c'.
Proof.
  intros HR Hc Hlt Hm [Hl Hb] Hdl. destruct (start_run c k d v o n CMD_WRITE_SECTOR_RETRY HR Hc Hlt) as [pr E1]. destruct HR as (_ & _ & Hd & Hk & Hn & Hdr & Hv & Hp & Ho).
  unfold disk_write, disk_at. rewrite (bind_Ok _ _ c d c) by (by rewrite Hd). rewrite E1. clear E1. set (c1 := upd_locked true c). set (o1 := addressed n <$> o). set (dl := c.(hw).(delays)) in *.
  assert (still o1) as Ho1 by (apply still_fmap; [done|by apply idle_still]). assert (Z.testbit (sector_reg d n) 4 = (k =? 1)) as Hr by (rewrite <- Hk; apply sector_reg_selects; lia).
  assert (command CMD_WRITE_SECTOR_RETRY (Ata (duo k (addressed n v) o1) (sector_reg d n) c.(hw).(float) dl) (addressed n v) =
    set_ph (Busy (hd 0%nat dl) (JWriteReady n)) (addressed n v)) as ->.
  { unfold command. cbn [addressed ph packet]. rewrite Hv, Hp. cbn [Z.eqb]. fold (addressed n v). by rewrite lba_ok by lia. }
  set (v1 := addressed n v). set (v2 := set_ph (DataOut n []) v1).
  destruct (wait_while_busy_busy c1 d k (JWriteReady n) (set_ph (Busy (hd 0%nat dl) (JWriteReady n)) v1) v2 (hd 0%nat dl) true 0 o1 (sector_reg d n) (tl dl) pr) as [pr2 E2]; [done..| | |].
  { cbn [finish]. cbn [media set_ph v1 addressed]. by rewrite (proj2 (Z.ltb_lt _ _)) by lia. }
  { destruct dl as [|t dl']; [cbn; lia|]. by apply Forall_cons in Hdl as [? _]. }
  rewrite (bind_Ok _ _ _ _ _ E2). cbn [drq v2 ph set_ph negb]. fold v2. unfold output_sector. change (Z.to_nat (DISK_SECTOR_SIZE / 2)) with 256%nat.
  erewrite bind_Ok by (apply (outsw_run c1 k v2 o1 _ _ _ n []); [done|done|done|done|lia|done]).
  set (v3 := set_ph Idle (set_media (<[Z.to_nat n := s]> v.(media)) v1)).
  erewrite bind_Ok by (eapply (sema_down_run c1 k _ v3); [done|reflexivity|cbn [finish app]; rewrite (words_bytes s 256) by done; reflexivity]).
  eexists. split; [unfold lock_release; reflexivity|]. replace v3 with (addressed n (set_media (<[Z.to_nat n := s]> v.(media)) v)) by (unfold v3, v1, set_ph, addressed, set_media; cbn; by rewrite Hv).
  replace (tl (tl dl)) with (drop 2 dl) by (by destruct dl as [|? []]). apply finish_op.
Qed.

(** ** Arrays of sectors *)

Inductive dop := DRead (k n : Z) | DWrite (k n : Z) (s : list Z).

Definition run_op (op : dop) : M channel (option (list Z)) :=
  match op with
  | DRead k n => s <- disk_read k n ;; ret (Some s)
  | DWrite k n s => disk_write k n s ;; ret None
  end.

Fixpoint run_ops (ops : list dop) : M channel (list (option (list Z))) :=
  match ops with
  | [] => ret []
  | op :: ops => r <- run_op op ;; rs <- run_ops ops ;; ret (r :: rs)
  end.

(** What the two devices of a channel hold, and what the operations mean for it. *)
Definition store : Type := list (option (list (list Z))).
Definition contents (h : ata) : store := (λ o : option dev, media <$> o) <$> h.(drives).

Definition spec_op (op : dop) (m : store) : option (list Z) * store :=
  match op with
  | DRead k n => (match m !! Z.to_nat k with Some (Some ss) => ss !! Z.to_nat n | _ => None end, m)
  | DWrite k n s => (None, alter (λ o : option (list (list Z)), <[Z.to_nat n := s]> <$> o) (Z.to_nat k) m)
  end.

Fixpoint spec_ops (ops : list dop) (m : store) : list (option (list Z)) * store :=
  match ops with
  | [] => ([], m)
  | op :: ops => let '(r, m) := spec_op op m in let '(rs, m) := spec_ops ops m in (r :: rs, m)
  end.

(** Which of the two are disks, and how large. *)
Definition dims (c : channel) : list (bool * Z) := (λ d, (d.(is_ata), d.(capacity))) <$> c.(devices).

Definition op_ok (ds : list (bool * Z)) (op : dop) : Prop :=
  let ok k n := (k = 0 ∨ k = 1) ∧ ∃ cap, ds !! Z.to_nat k = Some (true, cap) ∧ 0 ≤ n < cap ∧ n < 268435456 in
  match op with DRead k n => ok k n | DWrite k n s => ok k n ∧ sector_ok s end.

Definition slot_ok (k : Z) (d : disk) (o : option dev) : Prop :=
  d.(dev_no) = k ∧ named d ∧ idle o ∧
  (d.(is_ata) = true → ∃ v, o = Some v ∧ v.(packet) = false ∧ d.(capacity) = zlen v.(media) ∧ Forall sector_ok v.(media)).

(** Between operations. *)
Record ready (c : channel) : Prop := {
  rd_locked : c.(locked) = false;
  rd_sema : c.(completion_wait) = 0;
  rd_slots : ∃ d0 d1 a b, c.(devices) = [d0; d1] ∧ c.(hw).(drives) = [a; b] ∧ slot_ok 0 d0 a ∧ slot_ok 1 d1 b;
  rd_delays : Forall (λ t, (t < 3000)%nat) c.(hw).(delays);
}.

Lemma ready_disk c k cap : ready c → k = 0 ∨ k = 1 → dims c !! Z.to_nat k = Some (true, cap) →
  ∃ d v o d', at_rest c k d v o ∧ d.(is_ata) = true ∧ d.(capacity) = cap ∧ cap = zlen v.(media) ∧ Forall sector_ok v.(media) ∧
    c.(devices) = (if k =? 1 then [d'; d] else [d; d']) ∧ slot_ok (1 - k) d' o.
Proof.
  intros [Hl Hs (d0 & d1 & a & b & Hd & Hdr & S0 & S1) _] Hk Hdim. unfold dims in Hdim. rewrite Hd in Hdim. pose proof S0 as (N0 & M0 & I0 & A0). pose proof S1 as (N1 & M1 & I1 & A1).
  destruct Hk as [-> | ->]; cbn in Hdim; injection Hdim as Ha Hc.
  - destruct (A0 Ha) as (v & -> & Hp & Hcap & Hm). exists d0, v, b, d1. split_and!; try done; [|congruence]. split_and!; try done. by rewrite Hd.
  - destruct (A1 Ha) as (v & -> & Hp & Hcap & Hm). exists d1, v, a, d0. split_and!; try done; [|congruence]. split_and!; try done. by rewrite Hd.
Qed.

Lemma slot_addressed n k d o : slot_ok k d o → slot_ok k d (addressed n <$> o).
Proof.
  intros (H1 & H2 & H3 & H4). split_and!; [done|done|destruct o; done|]. intros Ha. destruct (H4 Ha) as (v & -> & Hp & Hc & Hm). by exists (addressed n v).
Qed.

(** The state after an operation is ready again, with the new contents of the disk. *)
Lemma done_ready c k d d' v v' o n f dl c' : at_rest c k d v o → k = 0 ∨ k = 1 →
  c.(devices) = (if k =? 1 then [d'; d] else [d; d']) → slot_ok (1 - k) d' o → (f = count_read ∨ f = count_write) → d.(is_ata) = true →
  d.(capacity) = zlen v'.(media) → v'.(ph) = Idle → v'.(packet) = false → Forall sector_ok v'.(media) → Forall (λ t, (t < 3000)%nat) dl →
  done_state c f k (addressed n v') (addressed n <$> o) dl c' →
  ready c' ∧ dims c' = dims c ∧ contents c'.(hw) = (if k =? 1 then [media <$> o; Some v'.(media)] else [Some v'.(media); media <$> o]).
Proof.
  intros (_ & _ & Hdk & Hno & Hn & _) Hk Hd So Hf Ha Hcap Hph Hp Hm Hdl (reg & pr & ->).
  assert (∀ x, (f x).(dev_no) = x.(dev_no) ∧ (f x).(name) = x.(name) ∧ (f x).(is_ata) = x.(is_ata) ∧ (f x).(capacity) = x.(capacity)) as Hkeep by (intros x; by destruct Hf as [-> | ->]).
  assert (slot_ok k (f d) (Some (addressed n v'))) as S1.
  { destruct (Hkeep d) as (E1 & E2 & E3 & E4). split_and!; [congruence|unfold named; by rewrite E2|done|]. intros _. exists (addressed n v'). split_and!; try done. by rewrite E4, Hcap. }
  pose proof (slot_addressed n _ _ _ So) as S2. assert (∀ x, ((f x).(is_ata), (f x).(capacity)) = (x.(is_ata), x.(capacity))) as Hdim by (intros x; destruct (Hkeep x) as (_ & _ & -> & ->); done).
  unfold dims, contents. cbn [devices hw drives]. rewrite Hd. assert (media <$> (addressed n <$> o) = media <$> o) as Ho by (by destruct o).
  destruct Hk as [-> | ->]; cbn [Z.eqb Pos.eqb]; [change (alter f (Z.to_nat 0) [d; d']) with [f d; d']|change (alter f (Z.to_nat 1) [d'; d]) with [d'; f d]]; cbn; rewrite Hdim, Ho;
    (split; [|done]); (split; [done|done| |done]); do 4 eexists; by split_and!.
Qed.

Lemma op_refines c op : ready c → op_ok (dims c) op →
  ∃ r c', run_op op c = Ok (r, c') ∧ ready c' ∧ dims c' = dims c ∧ spec_op op (contents c.(hw)) = (r, contents c'.(hw)).
Proof.
  intros HR. pose proof (rd_delays _ HR) as Hdl. destruct op as [k n|k n s].
  - intros (Hk & cap & Hdim & Hn & Hlt). destruct (ready_disk c k cap HR Hk Hdim) as (d & v & o & d' & HA & Hata & Hcap & Hz & Hm & Hd & So).
    destruct (lookup_lt_is_Some_2 v.(media) (Z.to_nat n)) as [s Hs]; [lia|]. pose proof (proj1 (Forall_lookup _ _) Hm _ _ Hs) as Hsec.
    destruct (sector_read_run c k d v o n s HA) as (c' & E & Hdone); [lia|done..|]. exists (Some s), c'. cbn [run_op]. rewrite (bind_Ok _ _ _ _ _ E). split; [done|].
    pose proof HA as (_ & _ & _ & _ & _ & Hdr & Hv & Hp & _).
    destruct (done_ready c k d d' v v o n count_read (tl c.(hw).(delays)) c' HA Hk Hd So) as (HR' & Hdim' & Hcon); try done; [by left|congruence|by destruct Hdl|]. split_and!; [done|done|].
    cbn [spec_op]. rewrite Hcon. unfold contents. rewrite Hdr. destruct Hk as [-> | ->]; cbn; by rewrite <- Hs.
  - intros [(Hk & cap & Hdim & Hn & Hlt) Hsec]. destruct (ready_disk c k cap HR Hk Hdim) as (d & v & o & d' & HA & Hata & Hcap & Hz & Hm & Hd & So).
    destruct (sector_write_run c k d v o n s HA) as (c' & E & Hdone); [lia|done|lia|done|done|]. exists None, c'. cbn [run_op]. rewrite (bind_Ok _ _ _ _ _ E). split; [done|].
    pose proof HA as (_ & _ & _ & _ & _ & Hdr & Hv & Hp & _).
    destruct (done_ready c k d d' v (set_media (<[Z.to_nat n := s]> v.(media)) v) o n count_write (drop 2 c.(hw).(delays)) c' HA Hk Hd So) as (HR' & Hdim' & Hcon); try done; [by right|cbn; rewrite length_insert; congruence|cbn; by apply Forall_insert|by apply Forall_drop|].
    split_and!; [done|done|]. cbn [spec_op]. rewrite Hcon. unfold contents. rewrite Hdr. by destruct Hk as [-> | ->].
Qed.

(** ** Detection *)

(** A device that is [k] sleeps away from the end of its reset. *)
Definition rs (k : nat) (d : dev) : dev := match k with O => set_ph Idle (signature d) | S _ => set_ph (Busy k JReset) d end.

Lemma rs_pass t k d : dev_pass t (rs k d) = (rs (k - t) d, false).
Proof.
  destruct k as [|k]; [done|]. unfold dev_pass. cbn [rs set_ph ph]. destruct (Nat.leb_spec (S k) t) as [H|H].
  - replace (S k - t)%nat with 0%nat by lia. done.
  - destruct (S k - t)%nat as [|j] eqn:E; [lia|]. done.
Qed.

Lemma opass_rs t k o : opass t (rs k <$> o) = (rs (k - t) <$> o, false).
Proof. destruct o as [d|]; [|done]. cbn [opass fmap option_fmap option_map]. by rewrite rs_pass. Qed.

Lemma pass_rs c t ex sm ka kb a b reg dl pr :
  pass t (st c ex sm [rs ka <$> a; rs kb <$> b] reg dl pr) = Ok (tt, st c ex sm [rs (ka - t) <$> a; rs (kb - t) <$> b] reg dl pr).
Proof. rewrite pass_st, !opass_rs. done. Qed.

Lemma inb_rs c f ex sm ka kb a b reg dl pr :
  inb f (st c ex sm [rs ka <$> a; rs kb <$> b] reg dl pr) = Ok (seen c f (pick reg (rs ka <$> a) (rs kb <$> b)), st c ex sm [rs ka <$> a; rs kb <$> b] reg dl pr).
Proof.
  unfold inb. erewrite bind_Ok by apply pass_rs. rewrite !Nat.sub_0_r. unfold bind, get, ret, current, selected, pick. cbn [st hw dev_reg drives float]. by destruct (Z.testbit reg 4).
Qed.

Lemma outb_rs c f ex sm ka kb a b reg dl pr :
  outb f (st c ex sm [rs ka <$> a; rs kb <$> b] reg dl pr) = Ok (tt, upd_hw f (st c ex sm [rs ka <$> a; rs kb <$> b] reg dl pr)).
Proof. unfold outb. erewrite bind_Ok by apply pass_rs. by rewrite !Nat.sub_0_r. Qed.

Lemma select_device_rs c d ex sm ka kb a b reg dl pr :
  select_device d (st c ex sm [rs ka <$> a; rs kb <$> b] reg dl pr) = Ok (tt, st c ex sm [rs (ka - 1) <$> a; rs (kb - 1) <$> b] (device_reg d) dl pr).
Proof.
  unfold select_device, out_device.
  rewrite (bind_Ok _ _ _ tt (st c ex sm [rs ka <$> a; rs kb <$> b] (device_reg d) dl pr)) by (rewrite outb_rs; unfold device_reg; by destruct (d.(dev_no) =? 1)).
  rewrite (bind_Ok _ _ _ _ _ (inb_rs c status ex sm ka kb a b (device_reg d) dl pr)). unfold timer_nsleep. apply pass_rs.
Qed.

(** Polls of the selected device during a reset: [k] more will do. *)
Lemma poll_rs c d ex sm a b reg dl v : named d → pick reg a b = Some v →
  ∀ k i fuel ka kb pr, (if Z.testbit reg 4 then kb else ka) = k → 0 ≤ i → i + Z.of_nat k < 3000 → (k < fuel)%nat →
  ∃ pr', iter fuel (poll d) i (st c ex sm [rs ka <$> a; rs kb <$> b] reg dl pr) = Ok (Some false, st c ex sm [rs (ka - k) <$> a; rs (kb - k) <$> b] reg dl pr').
Proof.
  intros Hn Hv. induction k as [|k IH]; intros i [|fuel] ka kb pr Hk Hi Hi2 Hf; try lia;
    destruct (poll_message c d i ex sm [rs ka <$> a; rs kb <$> b] reg dl pr Hn) as [pr1 E1];
    assert (pick reg (rs ka <$> a) (rs kb <$> b) = Some (rs (if Z.testbit reg 4 then kb else ka) v)) as Hpick by (unfold pick in *; destruct (Z.testbit reg 4); rewrite Hv; done); rewrite Hk in Hpick.
  - rewrite !Nat.sub_0_r. assert (Z.land (status (rs 0 v)) STA_BSY = 0 ∧ Z.land (status (rs 0 v)) STA_DRQ = 0) as [H1 H2] by (unfold status; cbn; by destruct (packet v)).
    assert (∃ pr', poll d i (st c ex sm [rs ka <$> a; rs kb <$> b] reg dl pr) = Ok (inr (Some false), st c ex sm [rs ka <$> a; rs kb <$> b] reg dl pr')) as [pr' E]; [|exists pr'; by apply iter_break].
    unfold poll. rewrite (proj2 (Z.ltb_lt i 3000)) by lia. rewrite (bind_Ok _ _ _ _ _ E1), (bind_Ok _ _ _ _ _ (inb_rs c status ex sm ka kb a b reg dl pr1)), Hpick. cbn [seen]. rewrite (proj2 (Z.eqb_eq _ _) H1).
    destruct (700 <=? i); [erewrite bind_Ok by (apply say_ok; vm_compute; reflexivity)|rewrite (bind_Ok (ret tt) _ _ _ _ eq_refl)]; eexists;
      rewrite (bind_Ok _ _ _ _ _ (inb_rs c status ex sm ka kb a b reg dl _)), Hpick; cbn [seen]; by rewrite H2.
  - assert (poll d i (st c ex sm [rs ka <$> a; rs kb <$> b] reg dl pr) = Ok (inl (i + 1), st c ex sm [rs (ka - 1) <$> a; rs (kb - 1) <$> b] reg dl pr1)) as E.
    { unfold poll. rewrite (proj2 (Z.ltb_lt i 3000)) by lia. rewrite (bind_Ok _ _ _ _ _ E1), (bind_Ok _ _ _ _ _ (inb_rs c status ex sm ka kb a b reg dl pr1)), Hpick. cbn [seen rs status set_ph ph].
      change (Z.land BSY STA_BSY =? 0) with false. unfold timer_msleep. by rewrite (bind_Ok _ _ _ _ _ (pass_rs c 1 ex sm ka kb a b reg dl pr1)). }
    rewrite (iter_continue _ _ _ _ _ _ E). destruct (IH (i + 1) fuel (ka - 1)%nat (kb - 1)%nat pr1) as [pr' E']; [destruct (Z.testbit reg 4); lia|lia..|].
    exists pr'. rewrite E'. rewrite <- !Nat.sub_add_distr. done.
Qed.

Definition sig_poll (i : Z) : M channel (Z + unit) :=
  if i <? 3000 then
    n <- inb nsect ;;
    ok <- (if n =? 1 then l <- inb lbal ;; ret (l =? 1) else ret false) ;;
    if (ok : bool) then ret (inr tt) else timer_msleep 10 ;; ret (inl (i + 1))
  else ret (inr tt).

Lemma sig_poll_rs c ex sm a b reg dl pr v : pick reg a b = Some v → v.(nsect) ≠ 1 →
  ∀ k i fuel ka kb, (if Z.testbit reg 4 then kb else ka) = k → 0 ≤ i → i + Z.of_nat k < 3000 → (k < fuel)%nat →
  iter fuel sig_poll i (st c ex sm [rs ka <$> a; rs kb <$> b] reg dl pr) = Ok (tt, st c ex sm [rs (ka - k) <$> a; rs (kb - k) <$> b] reg dl pr).
Proof.
  intros Hv H85. induction k as [|k IH]; intros i [|fuel] ka kb Hk Hi Hi2 Hf; try lia;
    assert (pick reg (rs ka <$> a) (rs kb <$> b) = Some (rs (if Z.testbit reg 4 then kb else ka) v)) as Hpick by (unfold pick in *; destruct (Z.testbit reg 4); rewrite Hv; done); rewrite Hk in Hpick.
  - rewrite !Nat.sub_0_r. apply iter_break. unfold sig_poll. rewrite (proj2 (Z.ltb_lt i 3000)) by lia. rewrite (bind_Ok _ _ _ _ _ (inb_rs c nsect ex sm ka kb a b reg dl pr)), Hpick.
    cbn [seen rs set_ph signature nsect]. change (1 =? 1) with true. cbv iota. erewrite bind_Ok; [|rewrite (bind_Ok _ _ _ _ _ (inb_rs c lbal ex sm ka kb a b reg dl pr)), Hpick; reflexivity]. done.
  - rewrite (iter_continue _ _ _ (i + 1) _ (st c ex sm [rs (ka - 1) <$> a; rs (kb - 1) <$> b] reg dl pr)).
    + rewrite (IH (i + 1) fuel (ka - 1)%nat (kb - 1)%nat) by (try (destruct (Z.testbit reg 4)); lia). by rewrite <- !Nat.sub_add_distr.
    + unfold sig_poll. rewrite (proj2 (Z.ltb_lt i 3000)) by lia. rewrite (bind_Ok _ _ _ _ _ (inb_rs c nsect ex sm ka kb a b reg dl pr)), Hpick.
      cbn [seen rs set_ph nsect]. rewrite (proj2 (Z.eqb_neq _ _) H85). rewrite (bind_Ok (ret false) _ _ _ _ eq_refl). cbv iota.
      unfold timer_msleep. by rewrite (bind_Ok _ _ _ _ _ (pass_rs c 1 ex sm ka kb a b reg dl pr)).
Qed.

(** The registers after the pattern test. *)
Definition patterned (d : dev) : dev := Dev d.(packet) d.(media) d.(ident) 85 170 d.(lbam) d.(lbah) d.(error) d.(ph).

Lemma fmap_same (f g : dev → dev) (o : option dev) : (∀ d, f d = g d) → f <$> o = g <$> o.
Proof. intros H. destruct o; cbn; by rewrite ?H. Qed.

Lemma probe_run c k d ex sm a b reg dl pr : c.(devices) !! Z.to_nat k = Some d → c.(hw).(float) ≠ 85 → still a → still b →
  probe k (st c ex sm [a; b] reg dl pr) =
  Ok (match pick (device_reg d) a b with Some _ => true | None => false end, st c ex sm [patterned <$> a; patterned <$> b] (device_reg d) dl pr).
Proof.
  intros Hd Hfl Ha Hb. unfold probe, disk_at. rewrite (bind_Ok _ _ _ d (st c ex sm [a; b] reg dl pr)) by (cbn [st devices]; by rewrite Hd).
  rewrite (bind_Ok _ _ _ _ _ (select_device_run c d ex sm a b reg dl pr Ha Hb)). unfold out_nsect, out_lbal.
  do 6 (erewrite bind_Ok by (apply on_all_still; [done|by repeat apply still_fmap..])).
  match goal with |- _ (st _ _ _ [?x; ?y] _ _ _) = _ => assert (x = patterned <$> a) as -> by (by destruct a); assert (y = patterned <$> b) as -> by (by destruct b) end.
  assert (still (patterned <$> a)) as Ha' by (by apply still_fmap). assert (still (patterned <$> b)) as Hb' by (by apply still_fmap).
  rewrite (bind_Ok _ _ _ _ _ (inb_still c nsect ex sm _ _ (device_reg d) dl pr Ha' Hb')).
  assert (pick (device_reg d) (patterned <$> a) (patterned <$> b) = patterned <$> pick (device_reg d) a b) as Hp by (unfold pick; by destruct (Z.testbit _ 4)). rewrite Hp.
  destruct (pick (device_reg d) a b) as [v|] eqn:Ev; cbn [fmap option_fmap option_map seen patterned nsect].
  - change (85 =? 85) with true. cbv iota. rewrite (bind_Ok _ _ _ _ _ (inb_still c lbal ex sm _ _ (device_reg d) dl pr Ha' Hb')), Hp. done.
  - by rewrite (proj2 (Z.eqb_neq _ _) Hfl).
Qed.

Lemma out_ctl_idle c ex sm a b reg dl pr : idle a → idle b →
  out_ctl 0 (st c ex sm [a; b] reg dl pr) = Ok (tt, st c ex sm [a; b] reg (drop 2 dl) pr).
Proof.
  intros Ha Hb. unfold out_ctl. rewrite outb_still by (by apply idle_still). unfold upd_hw, st. cbn [cname reg_base irq locked expecting_interrupt completion_wait devices hw printed].
  unfold control. change (Z.land 0 CTL_SRST =? 0) with true. cbn [drives dev_reg float delays]. do 4 f_equal. f_equal; [|f_equal]; [destruct a as [d|]|destruct b as [d|]]; try done; cbn in *; by rewrite ?Ha, ?Hb.
Qed.

Lemma out_ctl_srst c ex sm a b reg dl pr : idle a → idle b →
  out_ctl CTL_SRST (st c ex sm [a; b] reg dl pr) = Ok (tt, st c ex sm [set_ph Resetting <$> a; set_ph Resetting <$> b] 0 dl pr).
Proof. intros Ha Hb. unfold out_ctl. by rewrite outb_still by (by apply idle_still). Qed.

Lemma out_ctl_release c ex sm a b reg dl pr :
  out_ctl 0 (st c ex sm [set_ph Resetting <$> a; set_ph Resetting <$> b] reg dl pr) =
  Ok (tt, st c ex sm [set_ph (Busy (hd 0%nat dl) JReset) <$> a; set_ph (Busy (hd 0%nat (tl dl)) JReset) <$> b] reg (drop 2 dl) pr).
Proof. unfold out_ctl. rewrite outb_still; [by destruct a, b|by destruct a|by destruct b]. Qed.

Lemma pass_released c t ex sm na nb a b reg dl pr :
  pass t (st c ex sm [set_ph (Busy na JReset) <$> a; set_ph (Busy nb JReset) <$> b] reg dl pr) = Ok (tt, st c ex sm [rs (na - t) <$> a; rs (nb - t) <$> b] reg dl pr).
Proof.
  assert (∀ n o, opass t (set_ph (Busy n JReset) <$> o) = (rs (n - t) <$> o, false)) as H.
  { intros n [d|]; [|done]. cbn [opass fmap option_fmap option_map]. unfold dev_pass. cbn [set_ph ph]. destruct (Nat.leb_spec n t) as [Hl|Hl]; [by replace (n - t)%nat with 0%nat by lia|].
    destruct (n - t)%nat as [|j] eqn:E; [lia|]. done. }
  by rewrite pass_st, !H.
Qed.

Lemma wait_while_busy_rs c d ex sm a b reg dl v ka kb pr : named d → pick reg a b = Some v → ((if Z.testbit reg 4 then kb else ka) < 3000)%nat →
  ∃ pr', wait_while_busy d (st c ex sm [rs ka <$> a; rs kb <$> b] reg dl pr) =
    Ok (false, st c ex sm [rs (ka - (if Z.testbit reg 4 then kb else ka)) <$> a; rs (kb - (if Z.testbit reg 4 then kb else ka)) <$> b] reg dl pr').
Proof.
  intros Hn Hv Hk. destruct (poll_rs c d ex sm a b reg dl v Hn Hv _ 0 3001 ka kb pr eq_refl) as [pr' E]; [lia..|]. exists pr'. unfold wait_while_busy. by rewrite (bind_Ok _ _ _ _ _ E).
Qed.

(** The driver's record of the two devices. *)
Definition two_disks (c : channel) (d0 d1 : disk) : Prop :=
  c.(devices) = [d0; d1] ∧ d0.(dev_no) = 0 ∧ d1.(dev_no) = 1 ∧ named d0 ∧ named d1 ∧ (c.(hw).(float) = 0 ∨ c.(hw).(float) = 255).

Lemma disk_at_run c k d ex sm drs reg dl pr : c.(devices) !! Z.to_nat k = Some d → disk_at k (st c ex sm drs reg dl pr) = Ok (d, st c ex sm drs reg dl pr).
Proof. intros H. unfold disk_at. cbn [st devices]. by rewrite H. Qed.

Lemma wait_master c d0 d1 ex sm a b reg dl ka kb pr : two_disks c d0 d1 → (ka < 3000)%nat →
  ∃ ka' kb' reg' pr', (if (match a with Some _ => true | None => false end : bool) then d <- disk_at 0 ;; select_device d ;; wait_while_busy d ;; ret tt else ret tt)
    (st c ex sm [rs ka <$> a; rs kb <$> b] reg dl pr) = Ok (tt, st c ex sm [rs ka' <$> a; rs kb' <$> b] reg' dl pr') ∧ (ka' = 0%nat ∨ a = None) ∧ (kb' ≤ kb)%nat.
Proof.
  intros (Hd & N0 & N1 & M0 & M1 & _) Hk. destruct a as [v|]; [|exists ka, kb, reg, pr; by auto].
  rewrite (bind_Ok _ _ _ d0 _ (disk_at_run c 0 d0 ex sm _ reg dl pr ltac:(by rewrite Hd))). rewrite (bind_Ok _ _ _ _ _ (select_device_rs c d0 ex sm ka kb (Some v) b reg dl pr)).
  unfold device_reg. rewrite N0. cbn [Z.eqb]. destruct (wait_while_busy_rs c d0 ex sm (Some v) b 160 dl v (ka - 1) (kb - 1) pr M0 eq_refl ltac:(cbn; lia)) as [pr' E]. rewrite (bind_Ok _ _ _ _ _ E).
  change (Z.testbit 160 4) with false. cbv iota. eexists _, _, _, _. split; [reflexivity|]. split; [left; lia|lia].
Qed.

Lemma wait_slave c d0 d1 ex sm a b reg dl ka kb pr : two_disks c d0 d1 → (kb < 3000)%nat → (match b with Some v => v.(nsect) ≠ 1 | None => True end) →
  ∃ ka' kb' reg' pr', (if (match b with Some _ => true | None => false end : bool) then d <- disk_at 1 ;; select_device d ;; wait_signature ;; wait_while_busy d ;; ret tt else ret tt)
    (st c ex sm [rs ka <$> a; rs kb <$> b] reg dl pr) = Ok (tt, st c ex sm [rs ka' <$> a; rs kb' <$> b] reg' dl pr') ∧ (kb' = 0%nat ∨ b = None) ∧ (ka' ≤ ka)%nat.
Proof.
  intros (Hd & N0 & N1 & M0 & M1 & _) Hk H85. destruct b as [v|]; [|exists ka, kb, reg, pr; by auto].
  rewrite (bind_Ok _ _ _ d1 _ (disk_at_run c 1 d1 ex sm _ reg dl pr ltac:(by rewrite Hd))). rewrite (bind_Ok _ _ _ _ _ (select_device_rs c d1 ex sm ka kb a (Some v) reg dl pr)).
  unfold device_reg. rewrite N1. cbn [Z.eqb Pos.eqb].
  pose proof (sig_poll_rs c ex sm a (Some v) 176 dl pr v eq_refl H85 (kb - 1) 0 3001 (ka - 1) (kb - 1) eq_refl ltac:(lia) ltac:(lia) ltac:(lia)) as E.
  rewrite (bind_Ok _ _ _ _ _ E). replace (kb - 1 - (kb - 1))%nat with 0%nat by lia.
  destruct (wait_while_busy_rs c d1 ex sm a (Some v) 176 dl v (ka - 1 - (kb - 1)) 0 pr M1 eq_refl ltac:(cbn; lia)) as [pr' E']. rewrite (bind_Ok _ _ _ _ _ E').
  change (Z.testbit 176 4) with true. cbv iota. eexists _, _, _, _. split; [reflexivity|]. split; [left; lia|lia].
Qed.

Definition fresh (d : dev) : dev := set_ph Idle (signature d).

Lemma rs_fresh k (o : option dev) : k = 0%nat ∨ o = None → rs k <$> (patterned <$> (patterned <$> o)) = fresh <$> o.
Proof. intros [-> | ->]; [by destruct o|done]. Qed.

Lemma reset_run c d0 d1 ex sm a b reg dl pr : two_disks c d0 d1 → idle a → idle b → Forall (λ t, (t < 3000)%nat) dl →
  ∃ reg' pr', reset_channel (st c ex sm [a; b] reg dl pr) = Ok (tt, st c ex sm [fresh <$> a; fresh <$> b] reg' (drop 4 dl) pr').
Proof.
  intros H2 Ha Hb Hdl. pose proof H2 as (Hd & N0 & N1 & _ & _ & Hfl). assert (c.(hw).(float) ≠ 85) as Hf85 by lia.
  unfold reset_channel. rewrite (bind_Ok _ _ _ _ _ (probe_run c 0 d0 ex sm a b reg dl pr ltac:(by rewrite Hd) Hf85 (idle_still _ Ha) (idle_still _ Hb))).
  assert (pick (device_reg d0) a b = a) as -> by (unfold device_reg; by rewrite N0). set (a1 := patterned <$> a). set (b1 := patterned <$> b).
  assert (idle a1 ∧ idle b1) as [Ha1 Hb1] by (by destruct a, b).
  rewrite (bind_Ok _ _ _ _ _ (probe_run c 1 d1 ex sm a1 b1 _ dl pr ltac:(by rewrite Hd) Hf85 (idle_still _ Ha1) (idle_still _ Hb1))).
  assert (pick (device_reg d1) a1 b1 = b1) as -> by (unfold device_reg; by rewrite N1). set (a2 := patterned <$> a1). set (b2 := patterned <$> b1).
  assert (idle a2 ∧ idle b2) as [Ha2 Hb2] by (by destruct a, b).
  rewrite (bind_Ok _ _ _ _ _ (out_ctl_idle c ex sm a2 b2 _ dl pr Ha2 Hb2)). unfold timer_usleep, timer_msleep. rewrite (bind_Ok _ _ _ _ _ (pass_still c 1 ex sm a2 b2 _ _ pr (idle_still _ Ha2) (idle_still _ Hb2))).
  rewrite (bind_Ok _ _ _ _ _ (out_ctl_srst c ex sm a2 b2 _ _ pr Ha2 Hb2)). erewrite bind_Ok by (apply pass_still; [by destruct a2|by destruct b2]).
  rewrite (bind_Ok _ _ _ _ _ (out_ctl_release c ex sm a2 b2 0 _ pr)), (bind_Ok _ _ _ _ _ (pass_released c 1 ex sm _ _ a2 b2 0 _ pr)), drop_drop. change (2 + 2)%nat with 4%nat.
  set (na := hd 0%nat (drop 2 dl)). set (nb := hd 0%nat (tl (drop 2 dl))).
  assert (na < 3000 ∧ nb < 3000)%nat as [Hna Hnb].
  { unfold na, nb. destruct dl as [|t0 [|t1 [|t2 [|t3 dl]]]]; cbn; rewrite ?Forall_cons in Hdl; lia. }
  replace (match a with Some _ => true | None => false end) with (match a2 with Some _ => true | None => false end) by (by destruct a).
  replace (match b1 with Some _ => true | None => false end) with (match b2 with Some _ => true | None => false end) by (by destruct b).
  destruct (wait_master c d0 d1 ex sm a2 b2 0 (drop 4 dl) (na - 1) (nb - 1) pr H2 ltac:(lia)) as (ka & kb & r1 & pr1 & E1 & Hka & Hkb). rewrite (bind_Ok _ _ _ _ _ E1).
  destruct (wait_slave c d0 d1 ex sm a2 b2 r1 (drop 4 dl) ka kb pr1 H2 ltac:(lia) ltac:(by destruct b)) as (ka2 & kb2 & r2 & pr2 & E2 & Hkb2 & Hka2). rewrite E2.
  exists r2, pr2. unfold a2, b2, a1, b1. rewrite !rs_fresh; [done| |]; [destruct Hkb2 as [? |?]; [by left|right; by destruct b]|destruct Hka as [? |?]; [left; lia|right; by destruct a]].
Qed.

Definition is_disk (o : option dev) : bool := match o with Some d => negb d.(packet) | None => false end.

Lemma check_device_run c k d ex sm a b reg dl pr : c.(devices) !! Z.to_nat k = Some d → (c.(hw).(float) = 0 ∨ c.(hw).(float) = 255) →
  check_device_type k (st c ex sm [fresh <$> a; fresh <$> b] reg dl pr) =
  Ok (true, st (upd_disk k (set_ata (is_disk (pick (device_reg d) a b))) c) ex sm [fresh <$> a; fresh <$> b] (device_reg d) dl pr).
Proof.
  intros Hd Hfl. unfold check_device_type. rewrite (bind_Ok _ _ _ d _ (disk_at_run c k d ex sm _ reg dl pr Hd)).
  assert (still (fresh <$> a)) as Ha by (by destruct a). assert (still (fresh <$> b)) as Hb by (by destruct b).
  rewrite (bind_Ok _ _ _ _ _ (select_device_run c d ex sm _ _ reg dl pr Ha Hb)).
  assert (pick (device_reg d) (fresh <$> a) (fresh <$> b) = fresh <$> pick (device_reg d) a b) as Hp by (unfold pick; by destruct (Z.testbit _ 4)).
  rewrite (bind_Ok _ _ _ _ _ (inb_still c error ex sm _ _ (device_reg d) dl pr Ha Hb)), (bind_Ok _ _ _ _ _ (inb_still c lbam ex sm _ _ (device_reg d) dl pr Ha Hb)),
    (bind_Ok _ _ _ _ _ (inb_still c lbah ex sm _ _ (device_reg d) dl pr Ha Hb)), (bind_Ok _ _ _ _ _ (inb_still c status ex sm _ _ (device_reg d) dl pr Ha Hb)).
  rewrite Hp. destruct (pick (device_reg d) a b) as [v|]; cbn [fmap option_fmap option_map seen is_disk].
  - unfold fresh, signature, set_ph, status. cbn [packet media ident nsect lbal lbam lbah error ph]. by destruct (packet v).
  - by destruct Hfl as [-> | ->].
Qed.

Lemma printf_u s n : is_u32 n → s ∈ ["%u GB"; "%u MB"; "%u kB"; "%u byte"] → ∃ out, printf (fmt s) [A32 n] = Ok out.
Proof.
  intros Hn Hs. destruct (format_integer_total (u32 n) false false base_d {| flags := 0; width := 0; precision := -1; type := INT |}) as [out Ho]; [rewrite u32_small by done; mlia|left|].
  assert (∀ rest, ∃ o, (let* r := (let* out := format_integer (u32 n) false false base_d {| flags := 0; width := 0; precision := -1; type := INT |} in Ok (out, @nil arg)) in
    let* o := Ok rest in Ok (r.1 ++ o))%C = Ok o) as H by (intros rest; rewrite Ho; by eexists).
  repeat (apply elem_of_cons in Hs as [-> |Hs]; [|]); [..|by apply not_elem_of_nil in Hs]; [destruct (H (lit " GB"))|destruct (H (lit " MB"))|destruct (H (lit " kB"))|destruct (H (lit " byte"))]; eauto.
Qed.

Lemma size_text_ok cap : is_u32 cap → ∃ out, size_text cap = Ok out.
Proof.
  intros H. unfold size_text. change (1024 / DISK_SECTOR_SIZE) with 2. change (2 * 1024 * 1024) with 2097152. change (2 * 1024) with 2048.
  repeat case_match; apply printf_u; try (rewrite !elem_of_cons; tauto); [mc_unfold; dm_lia..|apply u32_range].
Qed.

Lemma print_ata_run c string size ex sm drs reg dl pr : 0 ≤ size →
  ∃ pr', print_ata_string string size (st c ex sm drs reg dl pr) = Ok (tt, st c ex sm drs reg dl pr').
Proof.
  intros Hs. unfold print_ata_string. set (body := λ size : Z, _). set (σ := st c ex sm drs reg dl pr).
  assert (∀ k n, Z.of_nat k = n → ∃ m, iter (S k) body n σ = Ok (m, σ) ∧ 0 ≤ m) as Hloop.
  { induction k as [|k IH]; intros n Hn.
    - exists n. split; [|lia]. apply iter_break. unfold body. by rewrite (proj2 (Z.ltb_ge _ _)) by lia.
    - set (ch := default 0 (string !! Z.to_nat (Z.lxor (n - 1) 1))). destruct (negb (ch =? 0) && negb (isspace ch)) eqn:E.
      + exists n. split; [|lia]. apply iter_break. unfold body. rewrite (proj2 (Z.ltb_lt _ _)) by lia. fold ch. by rewrite E.
      + destruct (IH (n - 1) ltac:(lia)) as (m & Hm & Hm0). exists m. split; [|done]. rewrite <- Hm. apply iter_continue. unfold body. rewrite (proj2 (Z.ltb_lt _ _)) by lia. fold ch. by rewrite E. }
  destruct (Hloop (Z.to_nat size) size ltac:(lia)) as (m & Hm & Hm0). rewrite (bind_Ok _ _ _ _ _ Hm).
  destruct (for_upto_ind (λ _ s, ∃ pr', s = st c ex sm drs reg dl pr') m (λ i, say (printf (fmt "%c") [A32 (default 0 (string !! Z.to_nat (Z.lxor i 1)))])) σ) as (s & E & pr' & ->); [done|by exists pr| |by exists pr'].
  intros i s _ [pr1 ->]. eexists. split; [by apply say_ok|]. by eexists.
Qed.

(** The capacity that a device reports. *)
Definition reported (id : list Z) : Z := Z.lor (id_word id 60) (u32 (Z.shiftl (id_word id 61) 16)).

Lemma reported_u32 id : Forall is_u8 id → is_u32 (reported id).
Proof.
  intros Hid. assert (∀ k, 0 ≤ id_word id k < 65536) as Hw.
  { intros k. unfold id_word. assert (∀ j, 0 ≤ default 0 (id !! j) < 256) as Hb.
    { intros j. destruct (id !! j) as [x|] eqn:E; cbn; [|lia]. by apply (proj1 (Forall_lookup _ _) Hid j). }
    pose proof (Hb (2 * k)%nat). pose proof (Hb (2 * k + 1)%nat). lia. }
  pose proof (Hw 60%nat) as H1. pose proof (Hw 61%nat) as H2. unfold reported. rewrite Z.shiftl_mul_pow2 by done. rewrite u32_small by (change (2 ^ 16) with 65536; mlia).
  rewrite Z.lor_comm, (lor_add _ _ 16) by (done || (change (2 ^ 16) with 65536; dm_lia)). change (2 ^ 16) with 65536. mlia.
Qed.

Lemma identify_run c k d v o ex reg dl pr : c.(devices) !! Z.to_nat k = Some d → d.(dev_no) = k → k = 0 ∨ k = 1 → d.(is_ata) = true → named d →
  v.(ph) = Idle → v.(packet) = false → still o → sector_ok v.(ident) →
  ∃ pr', identify_ata_device k (st c ex 0 (duo k v o) reg dl pr) =
    Ok (tt, st (upd_disk k (set_capacity (reported v.(ident))) c) true 0 (duo k v o) (device_reg d) (tl dl) pr').
Proof.
  intros Hd Hno Hk Hata Hn Hv Hp Ho [Hl Hb]. unfold identify_ata_device. rewrite (bind_Ok _ _ _ d _ (disk_at_run c k d ex 0 _ reg dl pr Hd)), bind_assert by done.
  assert (∃ pr1, select_device_wait d (st c ex 0 (duo k v o) reg dl pr) = Ok (tt, st c ex 0 (duo k v o) (device_reg d) dl pr1)) as [pr1 E1].
  { unfold duo. destruct (k =? 1); apply select_device_wait_run; try done; cbn; by rewrite Hv. }
  rewrite (bind_Ok _ _ _ _ _ E1). assert (Z.testbit (device_reg d) 4 = (k =? 1)) as Hr by (unfold device_reg; rewrite Hno; by destruct Hk as [-> | ->]).
  rewrite (bind_Ok _ _ _ _ _ (issue_run c CMD_IDENTIFY_DEVICE k ex 0 v o (device_reg d) dl pr1 Hr ltac:(cbn; by rewrite Hv) Ho)).
  assert (∀ h, command CMD_IDENTIFY_DEVICE h v = set_ph (Busy (next_delay h) JIdentify) v) as -> by (intros h; unfold command; by rewrite Hv, Hp). set (v2 := set_ph (DataIn (to_words v.(ident))) v).
  erewrite bind_Ok by (eapply (sema_down_run c k _ v2); [done|reflexivity|done]).
  destruct (wait_while_busy_settled c d k v2 true 0 o (device_reg d) (tl dl) pr1 Hn Hr Ho I) as [pr2 E2]. rewrite (bind_Ok _ _ _ _ _ E2). cbn [drq v2 ph set_ph negb].
  assert (Z.to_nat (DISK_SECTOR_SIZE / 2) = length (to_words v.(ident))) as Hlen by (by rewrite (to_words_length _ 256)). unfold input_sector. rewrite Hlen.
  erewrite bind_Ok by (apply insw_run; [done|done|reflexivity|by destruct (to_words v.(ident))]). rewrite (words_bytes _ 256) by done. fold (reported v.(ident)).
  replace (set_ph Idle v2) with v by (unfold v2, set_ph; cbn; rewrite <- Hv; by destruct v). set (c2 := upd_disk k (set_capacity (reported v.(ident))) c).
  rewrite (bind_Ok _ _ _ tt (st c2 true 0 (duo k v o) (device_reg d) (tl dl) pr2)) by done. pose proof (reported_u32 _ Hb) as Hrep.
  destruct Hn as (_ & _ & Hdet). destruct (Hdet _ Hrep) as [s1 Hs1]. rewrite (bind_Ok _ _ _ _ _ (say_ok _ _ c2 true 0 _ _ _ _ Hs1)).
  destruct (size_text_ok _ Hrep) as [s2 Hs2]. rewrite (bind_Ok _ _ _ _ _ (say_ok _ _ c2 true 0 _ _ _ _ Hs2)).
  rewrite (bind_Ok _ _ _ _ _ (say_ok _ (lit ") disk, model ") c2 true 0 _ _ _ _ eq_refl)), (bind_Ok _ _ _ _ _ (say_ok (Ok [34]) [34] c2 true 0 _ _ _ _ eq_refl)).
  edestruct (print_ata_run c2 (drop 54 v.(ident)) 40) as [pr3 E3]; [done|]. rewrite (bind_Ok _ _ _ _ _ E3).
  rewrite (bind_Ok _ _ _ _ _ (say_ok (Ok [34]) [34] c2 true 0 _ _ _ _ eq_refl)), (bind_Ok _ _ _ _ _ (say_ok _ (lit ", serial ") c2 true 0 _ _ _ _ eq_refl)),
    (bind_Ok _ _ _ _ _ (say_ok (Ok [34]) [34] c2 true 0 _ _ _ _ eq_refl)).
  edestruct (print_ata_run c2 (drop 20 v.(ident)) 20) as [pr4 E4]; [done|]. rewrite (bind_Ok _ _ _ _ _ E4). eexists. by apply say_ok.
Qed.

(** What detection finds out about a device. *)
Definition cap_of (o : option dev) : Z := match o with Some v => if v.(packet) then 0 else reported v.(ident) | None => 0 end.
Definition found (o : option dev) (d : disk) : disk := set_capacity (cap_of o) (set_ata (is_disk o) d).

Lemma for_upto_2 (body : Z → M channel unit) c : for_upto 2 body c = (body 0 ;; body 1) c.
Proof.
  unfold for_upto. change (Z.to_nat 2) with 2%nat. cbn [iter]. unfold bind, ret. cbn [Z.ltb Z.compare Pos.compare Pos.compare_cont Z.add].
  destruct (body 0 c) as [[[] c1]|]; [|done]. change (0 + 1) with 1. change (1 <? 2) with true. cbv iota beta. by destruct (body 1 c1) as [[[] c2]|].
Qed.

(** A device that is worth using: a disk says how many sectors it has. *)
Definition sound (o : option dev) : Prop :=
  match o with
  | Some v => v.(packet) = false → sector_ok v.(ident) ∧ reported v.(ident) = zlen v.(media) ∧ Forall sector_ok v.(media)
  | None => True
  end.

Lemma identify_step c k d a b ex reg dl pr : c.(devices) !! Z.to_nat k = Some d → d.(dev_no) = k → k = 0 ∨ k = 1 → named d → d.(capacity) = 0 →
  let o := if k =? 1 then b else a in d.(is_ata) = is_disk o → idle a → idle b → sound o → Forall (λ t, (t < 3000)%nat) dl →
  ∃ ex' reg' dl' pr', (d <- disk_at k ;; if d.(is_ata) then identify_ata_device k else ret tt) (st c ex 0 [a; b] reg dl pr) =
    Ok (tt, st (upd_disk k (set_capacity (cap_of o)) c) ex' 0 [a; b] reg' dl' pr') ∧ Forall (λ t, (t < 3000)%nat) dl'.
Proof.
  intros Hd Hno Hk Hn Hc0 o Hata Ha Hb Hso Hdl. rewrite (bind_Ok _ _ _ d _ (disk_at_run c k d ex 0 _ reg dl pr Hd)), Hata.
  destruct (is_disk o) eqn:Eo.
  - destruct o as [v|] eqn:Ev; [|done]. cbn in Eo. apply negb_true_iff in Eo. destruct (Hso Eo) as (Hid & _ & _). unfold o in Ev.
    set (o' := if k =? 1 then a else b). assert ([a; b] = duo k v o') as Hduo by (unfold duo, o'; destruct (k =? 1); by rewrite Ev).
    rewrite Hduo. destruct (identify_run c k d v o' ex reg dl pr) as [pr' E]; try done; [unfold o' in *; destruct (k =? 1); subst; done|unfold o'; destruct (k =? 1); by apply idle_still|].
    exists true, (device_reg d), (tl dl), pr'. rewrite E. split; [|by destruct Hdl]. unfold cap_of. by rewrite Eo.
  - exists ex, reg, dl, pr. split; [|done]. assert (cap_of o = 0) as -> by (destruct o as [v|]; [|done]; cbn in *; apply negb_false_iff in Eo; by rewrite Eo).
    assert (upd_disk k (set_capacity 0) c = c) as ->; [|done]. unfold upd_disk. assert (alter (set_capacity 0) (Z.to_nat k) c.(devices) = c.(devices)) as ->; [|by destruct c].
    rewrite <- (list_alter_id id c.(devices) (Z.to_nat k)) at 2 by done. apply (list_alter_ext _ _ _ _ _ ); [|done]. intros x Hx. rewrite Hd in Hx. injection Hx as <-. unfold set_capacity. rewrite <- Hc0. by destruct d.
Qed.

Lemma init_channel_run c d0 d1 a b : two_disks c d0 d1 → c.(locked) = false → c.(completion_wait) = 0 → c.(hw).(drives) = [a; b] →
  d0.(capacity) = 0 → d1.(capacity) = 0 → idle a → idle b → sound a → sound b → Forall (λ t, (t < 3000)%nat) c.(hw).(delays) →
  ∃ ex reg dl pr, init_channel c = Ok (tt, Channel c.(cname) c.(reg_base) c.(irq) false ex 0 [found a d0; found b d1] (Ata [fresh <$> a; fresh <$> b] reg c.(hw).(float) dl) pr) ∧
    Forall (λ t, (t < 3000)%nat) dl.
Proof.
  intros H2 Hl Hs Hdr C0 C1 Ha Hb Sa Sb Hdl. destruct c as [cn base vec lk ex0 sm ds [drs reg0 fl dl0] pr0]. cbn in Hl, Hs, Hdr, Hdl. subst lk sm drs.
  pose proof H2 as (Hds & N0 & N1 & M0 & M1 & Hfl). cbn in Hds, Hfl. subst ds. set (c := Channel cn base vec false ex0 0 [d0; d1] (Ata [a; b] reg0 fl dl0) pr0).
  destruct (reset_run c d0 d1 ex0 0 a b reg0 dl0 pr0 H2 Ha Hb Hdl) as (reg1 & pr1 & E1). unfold init_channel. change (st c ex0 0 [a; b] reg0 dl0 pr0) with c in E1. rewrite (bind_Ok _ _ _ _ _ E1).
  set (c1 := upd_disk 0 (set_ata (is_disk a)) c). set (c2 := upd_disk 1 (set_ata (is_disk b)) c1).
  assert (∀ k d, (k = 0 ∧ d = d0) ∨ (k = 1 ∧ d = d1) → device_reg d = if k =? 1 then 176 else 160) as Hreg by (unfold device_reg; intros k d [[-> ->]|[-> ->]]; by rewrite ?N0, ?N1).
  pose proof (check_device_run c 0 d0 ex0 0 a b reg1 (drop 4 dl0) pr1 eq_refl Hfl) as E2. rewrite (Hreg 0 d0) in E2 by (by left). change (pick (if 0 =? 1 then 176 else 160) a b) with a in E2. fold c1 in E2.
  pose proof (check_device_run c1 1 d1 ex0 0 a b (if 0 =? 1 then 176 else 160) (drop 4 dl0) pr1 eq_refl Hfl) as E3. rewrite (Hreg 1 d1) in E3 by (by right). change (pick (if 1 =? 1 then 176 else 160) a b) with b in E3. fold c2 in E3.
  erewrite bind_Ok by (rewrite (bind_Ok _ _ _ _ _ E2), (bind_Ok _ _ _ _ _ E3); reflexivity). rewrite for_upto_2.
  assert (idle (fresh <$> a) ∧ idle (fresh <$> b)) as [Ia Ib] by (by destruct a, b).
  assert (sound (fresh <$> a) ∧ sound (fresh <$> b)) as [Fa Fb] by (by destruct a, b).
  destruct (identify_step c2 0 (set_ata (is_disk a) d0) (fresh <$> a) (fresh <$> b) ex0 (if 1 =? 1 then 176 else 160) (drop 4 dl0) pr1) as (ex4 & reg4 & dl4 & pr4 & E4 & Hdl4);
    [done|done|by left|done|done|by destruct a|done|done|done|by apply Forall_drop|].
  rewrite (bind_Ok _ _ _ _ _ E4). set (c3 := upd_disk 0 _ c2).
  destruct (identify_step c3 1 (set_ata (is_disk b) d1) (fresh <$> a) (fresh <$> b) ex4 reg4 dl4 pr4) as (ex5 & reg5 & dl5 & pr5 & E5 & Hdl5);
    [done|done|by right|done|done|by destruct b|done|done|done|done|].
  rewrite E5. exists ex5, reg5, dl5, pr5. split; [|done]. cbn [Z.eqb Pos.eqb]. assert (∀ o : option dev, cap_of (fresh <$> o) = cap_of o) as Hcap by (by intros []). unfold c3. cbn [Z.eqb]. rewrite !Hcap. done.
Qed.

(** The hardware at power-on: two slots with at most one idle device each. *)
Definition power_on (h : ata) : Prop :=
  ∃ a b, h.(drives) = [a; b] ∧ idle a ∧ idle b ∧ sound a ∧ sound b ∧ (h.(float) = 0 ∨ h.(float) = 255) ∧ Forall (λ t, (t < 3000)%nat) h.(delays).

(** Which slots hold disks, with the number of their sectors. *)
Definition sizes (h : ata) : list (bool * Z) :=
  (λ o : option dev, match o with Some v => if v.(packet) then (false, 0) else (true, zlen v.(media)) | None => (false, 0) end) <$> h.(drives).

(** The message about a new disk, character by character up to its size. *)
Definition detected_text (s : string) (n : Z) : res (list Z) :=
  let* r := Ok (lit s, [A32 n]) in
  let* out := foldr (λ ch r, let* out := r in Ok (ch :: out))
    (let* r := (let* out := format_integer (u32 n) false false base_d {| flags := 32; width := 0; precision := -1; type := INT |} in Ok (out, @nil arg)) in
     let* out := Ok (lit " sector (") in Ok (r.1 ++ out)) (lit ": detected ") in
  Ok (r.1 ++ out).

Lemma detected_text_ok s n : is_u32 n → ∃ out, detected_text s n = Ok out.
Proof.
  intros Hn. destruct (format_integer_total (u32 n) false false base_d {| flags := 32; width := 0; precision := -1; type := INT |}) as [out Ho]; [rewrite u32_small by done; mlia|left|].
  unfold detected_text. rewrite Ho. by eexists.
Qed.

Lemma named_all s i : s ∈ ["hd0:0"; "hd0:1"; "hd1:0"; "hd1:1"] → named (Disk (lit s ++ [0]) i false 0 0 0).
Proof.
  intros Hs. repeat (apply elem_of_cons in Hs as [-> |Hs]; [|]); [..|by apply not_elem_of_nil in Hs];
    (split_and!; [eexists; vm_compute; reflexivity|eexists; vm_compute; reflexivity|intros n Hn]).
  - apply (detected_text_ok "hd0:0" n Hn).
  - apply (detected_text_ok "hd0:1" n Hn).
  - apply (detected_text_ok "hd1:0" n Hn).
  - apply (detected_text_ok "hd1:1" n Hn).
Qed.

Lemma new_channel_run k h : k = 0 ∨ k = 1 → (h.(float) = 0 ∨ h.(float) = 255) →
  ∃ c d0 d1, new_channel k h [] = Ok c ∧ two_disks c d0 d1 ∧ c.(locked) = false ∧ c.(completion_wait) = 0 ∧ c.(hw) = h ∧ d0.(capacity) = 0 ∧ d1.(capacity) = 0.
Proof.
  intros [-> | ->] Hfl; (eexists _, _, _; split; [vm_compute; reflexivity|]); (split; [split_and!; [reflexivity..| | |exact Hfl]|by split_and!]).
  - apply (named_all "hd0:0" 0). by left.
  - apply (named_all "hd0:1" 1). by right; left.
  - apply (named_all "hd1:0" 0). by right; right; left.
  - apply (named_all "hd1:1" 1). by right; right; right; left.
Qed.

Lemma found_ok k o d : named d → d.(dev_no) = k → idle o → sound o → slot_ok k (found o d) (fresh <$> o).
Proof.
  intros Hn Hk Hi Hs. split_and!; [done|done|by destruct o|]. intros Hd. destruct o as [v|]; [|done]. cbn in Hd. apply negb_true_iff in Hd. destruct (Hs Hd) as (_ & Hc & Hm).
  exists (fresh v). split_and!; try done. cbn [found set_capacity capacity cap_of]. rewrite Hd. exact Hc.
Qed.

Lemma channel_works k h : k = 0 ∨ k = 1 → power_on h →
  ∃ c c', new_channel k h [] = Ok c ∧ init_channel c = Ok (tt, c') ∧ ready c' ∧ dims c' = sizes h ∧ contents c'.(hw) = contents h.
Proof.
  intros Hk (a & b & Hdr & Ha & Hb & Sa & Sb & Hfl & Hdl). destruct (new_channel_run k h Hk Hfl) as (c & d0 & d1 & E & H2 & Hl & Hs & Hh & C0 & C1).
  destruct (init_channel_run c d0 d1 a b H2 Hl Hs ltac:(by rewrite Hh) C0 C1 Ha Hb Sa Sb ltac:(by rewrite Hh)) as (ex & reg & dl & pr & E2 & Hdl2).
  exists c. eexists. split; [done|]. split; [exact E2|]. pose proof H2 as (_ & N0 & N1 & M0 & M1 & _). split; [|split].
  - split; [done|done| |done]. exists (found a d0), (found b d1), (fresh <$> a), (fresh <$> b). split_and!; [done|done|by apply found_ok|by apply found_ok].
  - unfold dims, sizes. rewrite Hdr. cbn [devices fmap list_fmap]. assert (∀ o d, sound o → ((found o d).(is_ata), (found o d).(capacity)) =
      match o with Some v => if v.(packet) then (false, 0) else (true, zlen v.(media)) | None => (false, 0) end) as H.
    { intros [v|] d Hso; [|done]. cbn. destruct (packet v) eqn:Ep; [done|]. by destruct (Hso Ep) as (_ & -> & _). }
    by rewrite !H.
  - unfold contents. rewrite Hdr. cbn. by destruct a, b.
Qed.

Lemma ops_refine ops c : ready c → Forall (op_ok (dims c)) ops →
  ∃ rs c', run_ops ops c = Ok (rs, c') ∧ ready c' ∧ spec_ops ops (contents c.(hw)) = (rs, contents c'.(hw)).
Proof.
  revert c. induction ops as [|op ops IH]; intros c HR Hok; [by exists [], c|]. apply Forall_cons in Hok as [H1 Hok].
  destruct (op_refines c op HR H1) as (r & c1 & E1 & HR1 & Hd1 & S1). rewrite <- Hd1 in Hok. destruct (IH c1 HR1 Hok) as (rs & c' & E2 & HR2 & S2).
  exists (r :: rs), c'. cbn [run_ops spec_ops]. rewrite (bind_Ok _ _ _ _ _ E1), (bind_Ok _ _ _ _ _ E2), S1, S2. done.
Qed.

(** Property C26. The disk driver on the hardware.  Whatever is in the four slots of the two
    channels, disks, packet devices or nothing, and however long each command takes within
    the time the driver allows, disk_init succeeds and finds exactly the disks with their
    sizes; and then every sequence of reads and writes within those sizes returns and
    stores what it would on arrays of sectors: the right sector of the right disk, all of
    its bytes in order, and no other. *)
Theorem disk_refines h0 h1 : power_on h0 → power_on h1 →
  ∃ c0 c1, disk_init h0 h1 = Ok [c0; c1] ∧
    ∀ c h, (c, h) = (c0, h0) ∨ (c, h) = (c1, h1) → dims c = sizes h ∧
      ∀ ops, Forall (op_ok (sizes h)) ops → ∃ rs c', run_ops ops c = Ok (rs, c') ∧ spec_ops ops (contents h) = (rs, contents c'.(hw)).
Proof.
  intros H0 H1. destruct (channel_works 0 h0 (or_introl eq_refl) H0) as (n0 & c0 & E0 & I0 & R0 & D0 & C0).
  destruct (channel_works 1 h1 (or_intror eq_refl) H1) as (n1 & c1 & E1 & I1 & R1 & D1 & C1).
  exists c0, c1. split; [unfold disk_init; rewrite E0; cbn [rbind]; rewrite I0; cbn [rbind]; rewrite E1; cbn [rbind]; by rewrite I1|].
  intros c h [[= -> ->]|[= -> ->]]; (split; [done|]); intros ops Hok.
  - destruct (ops_refine ops c0 R0) as (rs & c' & E & _ & S); [rewrite D0; exact Hok|]. exists rs, c'. split; [exact E|]. rewrite <- C0. exact S.
  - destruct (ops_refine ops c1 R1) as (rs & c' & E & _ & S); [rewrite D1; exact Hok|]. exists rs, c'. split; [exact E|]. rewrite <- C1. exact S.
Qed.

Definition small_disk : dev := Dev false (replicate 2 (replicate 512 0)) (<[120%nat := 2]> (replicate 512 0)) 0 0 0 0 0 Idle.
Definition packet_device : dev := Dev true [] [] 0 0 0 0 0 Idle.

Lemma disk_refines_witness : ∃ c0 c1, disk_init (Ata [None; Some small_disk] 0 255 [7; 7; 5; 5; 3]%nat) (Ata [Some packet_device; None] 0 0 []) = Ok [c0; c1] ∧
  dims c0 = [(false, 0); (true, 2)] ∧ dims c1 = [(false, 0); (false, 0)] ∧
  ∃ c', run_ops [DWrite 1 1 (replicate 512 9); DRead 1 1; DRead 1 0] c0 = Ok ([None; Some (replicate 512 9); Some (replicate 512 0)], c').
Proof.
  assert (power_on (Ata [None; Some small_disk] 0 255 [7; 7; 5; 5; 3]%nat)) as H0.
  { exists None, (Some small_disk). split_and!; try done; [|by right|repeat constructor; lia].
    intros _. split_and!; [split; [reflexivity|by_decide]|reflexivity|by_decide]. }
  assert (power_on (Ata [Some packet_device; None] 0 0 [])) as H1 by (exists (Some packet_device), None; split_and!; try done; by left).
  destruct (disk_refines _ _ H0 H1) as (c0 & c1 & E & H). exists c0, c1. split; [exact E|].
  destruct (H c0 _ (or_introl eq_refl)) as [D0 O0]. destruct (H c1 _ (or_intror eq_refl)) as [D1 _]. split; [exact D0|]. split; [exact D1|].
  destruct (O0 [DWrite 1 1 (replicate 512 9); DRead 1 1; DRead 1 0]) as (rs & c' & E' & S).
  - assert (∀ n, 0 ≤ n < 2 → (1 = 0 ∨ 1 = 1) ∧ ∃ cap, [(false, 0); (true, 2)] !! 1%nat = Some (true, cap) ∧ 0 ≤ n < cap ∧ n < 268435456) as Hop.
    { intros n Hn. split; [by right|]. exists 2. split; [reflexivity|lia]. }
    apply Forall_cons. split; [split; [apply Hop; lia|split; [reflexivity|by_decide]]|]. repeat (apply Forall_cons; split; [apply Hop; lia|]). constructor.
  - exists c'. rewrite E'. vm_compute in S. injection S as <- _. reflexivity.
Defined.
