(* ===== verification/Timer.v ===== *)
(** * Timer

    devices/timer.c on a processor that runs [speed] rounds of the delay loop in a timer
    tick.  Time is counted in such rounds; the 8254 interrupts at every multiple of
    [speed], and the handler counts the ticks.  A thread that yields gets the processor
    back after as long as [yields] says. *)

From stdpp Require Import strings.
From S2P Require Import Prelude Vaddr CStdlib Printf.
Local Open Scope Z_scope.
Local Open Scope c_scope.

Definition TIMER_FREQ : Z := 100.

(** [divisor] is the count the 8254 has been given, low byte first. *)
Record timer := Timer { now : Z; ticks : Z; loops_per_tick : Z; intr_on : bool; yields : list Z; divisor : Z; printed : list Z }.

Definition upd_time (n t : Z) (σ : timer) : timer := Timer n t σ.(loops_per_tick) σ.(intr_on) σ.(yields) σ.(divisor) σ.(printed).
Definition upd_lpt (l : Z) (σ : timer) : timer := Timer σ.(now) σ.(ticks) l σ.(intr_on) σ.(yields) σ.(divisor) σ.(printed).
Definition upd_yields (y : list Z) (σ : timer) : timer := Timer σ.(now) σ.(ticks) σ.(loops_per_tick) σ.(intr_on) y σ.(divisor) σ.(printed).
Definition upd_divisor (d : Z) (σ : timer) : timer := Timer σ.(now) σ.(ticks) σ.(loops_per_tick) σ.(intr_on) σ.(yields) d σ.(printed).
Definition upd_printed (s : list Z) (σ : timer) : timer := Timer σ.(now) σ.(ticks) σ.(loops_per_tick) σ.(intr_on) σ.(yields) σ.(divisor) (σ.(printed) ++ s).

Definition change (f : timer → timer) : M timer unit := λ σ, Ok (tt, f σ).
Definition say (r : res (list Z)) : M timer unit := λ σ, match r with Ok s => Ok (tt, upd_printed s σ) | Err e => Err e end.

(** Two writes to the counter's data port, after the control word 0x34. *)
Definition outb_count (lo hi : Z) : M timer unit := change (upd_divisor (lo + 256 * hi)).

Definition timer_init : M timer unit :=
  let count := u16 ((1193180 + TIMER_FREQ / 2) / TIMER_FREQ) in
  outb_count (u8 (Z.land count 255)) (u8 (Z.shiftr count 8)).

(** The part of the handler that belongs to this file; thread_tick is in [Sched]. *)
Definition timer_interrupt (n : Z) (σ : timer) : timer := upd_time n (s64 (σ.(ticks) + 1)) σ.

Definition timer_ticks : M timer Z := σ <- get ;; ret σ.(ticks).
Definition timer_elapsed (since : Z) : M timer Z := t <- timer_ticks ;; ret (s64 (t - since)).

Definition timer_print_stats : M timer unit := t <- timer_ticks ;; say (printf (lit "Timer: %lld ticks" ++ [10; 0]) [A64 t]).

Section delays.
Context (speed : Z).

(** One round of a loop, with the interrupt if a tick ends. *)
Definition round : M timer unit := change (λ σ,
  if (σ.(now) + 1) `mod` speed =? 0 then timer_interrupt (σ.(now) + 1) σ else upd_time (σ.(now) + 1) σ.(ticks) σ).

Definition busy_wait (loops : Z) : M timer unit :=
  iter (S (Z.to_nat loops)) (λ loops, if 0 <? loops then round ;; ret (inl (loops - 1)) else ret (inr tt)) loops.

(** [while (ticks == start) barrier ();]: fuel for one tick. *)
Definition too_many_loops (loops : Z) : M timer bool :=
  σ <- get ;;
  iter (S (Z.to_nat speed)) (λ start, σ <- get ;; if σ.(ticks) =? start then round ;; ret (inl start) else ret (inr tt)) σ.(ticks) ;;
  σ <- get ;;
  busy_wait loops ;;
  σ' <- get ;;
  ret (negb (σ.(ticks) =? σ'.(ticks))).

Definition set_lpt (l : Z) : M timer unit := change (upd_lpt l).

(** The largest power of two below a tick. *)
Definition double_loop : M timer unit :=
  iter 32 (λ _ : unit,
    σ <- get ;;
    too <- too_many_loops (u32 (Z.shiftl σ.(loops_per_tick) 1)) ;;
    if (too : bool) then ret (inr tt)
    else
      let l := u32 (Z.shiftl σ.(loops_per_tick) 1) in
      set_lpt l ;; assert (negb (l =? 0)) ;; ret (inl tt)) tt.

Definition refine_loop (high_bit : Z) : M timer unit :=
  iter 32 (λ test_bit,
    if negb (test_bit =? Z.shiftr high_bit 10) then
      too <- too_many_loops (Z.lor high_bit test_bit) ;;
      (if (too : bool) then ret tt else change (λ σ, upd_lpt (Z.lor σ.(loops_per_tick) test_bit) σ)) ;;
      ret (inl (Z.shiftr test_bit 1))
    else ret (inr tt)) (Z.shiftr high_bit 1).

Definition timer_calibrate : M timer unit :=
  σ <- get ;;
  assert σ.(intr_on) ;;
  say (printf (fmt "Calibrating timer...  ") []) ;;
  set_lpt 1024 ;;
  double_loop ;;
  σ <- get ;;
  refine_loop σ.(loops_per_tick) ;;
  σ <- get ;;
  say (printf (lit "%'llu loops/s." ++ [10; 0]) [A64 (u64 (σ.(loops_per_tick) * TIMER_FREQ))]).

(** [thread_yield]: the processor comes back later. *)
Definition thread_yield : M timer unit :=
  σ <- get ;;
  change (upd_yields (tl σ.(yields))) ;;
  busy_wait (hd 1 σ.(yields)).

Definition timer_sleep (fuel : nat) (n : Z) : M timer unit :=
  start <- timer_ticks ;;
  σ <- get ;;
  assert σ.(intr_on) ;;
  iter fuel (λ _ : unit, e <- timer_elapsed start ;; if e <? n then thread_yield ;; ret (inl tt) else ret (inr tt)) tt.

Definition real_time_sleep (fuel : nat) (num denom : Z) : M timer unit :=
  let n := Z.quot (s64 (num * TIMER_FREQ)) denom in
  σ <- get ;;
  assert σ.(intr_on) ;;
  if 0 <? n then timer_sleep fuel n
  else
    assert (Z.rem denom 1000 =? 0) ;;
    busy_wait (Z.quot (s64 (Z.quot (s64 (σ.(loops_per_tick) * num)) 1000 * TIMER_FREQ)) (Z.quot denom 1000)).

Definition timer_msleep (fuel : nat) (ms : Z) : M timer unit := real_time_sleep fuel ms 1000.
Definition timer_usleep (fuel : nat) (us : Z) : M timer unit := real_time_sleep fuel us 1000000.
Definition timer_nsleep (fuel : nat) (ns : Z) : M timer unit := real_time_sleep fuel ns 1000000000.
End delays.

(** ** The clock *)

Section proofs.
Context (T : Z) (HT : 0 < T).

(** The ticks are the multiples of [T] that have passed. *)
Record clock (σ : timer) : Prop := {
  ck_now : 0 ≤ σ.(now) < 4611686018427387904;
  ck_ticks : σ.(ticks) = σ.(now) `div` T;
}.

Definition at_ (n : Z) (σ : timer) : timer := upd_time n (n `div` T) σ.

Lemma at_at n m σ : at_ n (at_ m σ) = at_ n σ.
Proof. done. Qed.

Lemma at_now σ : clock σ → at_ σ.(now) σ = σ.
Proof. intros [_ Ht]. unfold at_, upd_time. rewrite <- Ht. by destruct σ. Qed.

Lemma at_clock n σ : 0 ≤ n < 4611686018427387904 → clock (at_ n σ).
Proof. by split. Qed.

Lemma div_small n : 0 ≤ n < 4611686018427387904 → 0 ≤ n `div` T < 4611686018427387904.
Proof. intros Hn. split; [by apply Z.div_pos; lia|]. apply Z.div_lt_upper_bound; nia. Qed.

Lemma round_run σ : clock σ → round T σ = Ok (tt, at_ (σ.(now) + 1) σ).
Proof.
  intros [Hn Ht]. unfold round, change. pose proof (div_small _ Hn) as Hs. do 2 f_equal. unfold at_, timer_interrupt, upd_time. rewrite Ht.
  destruct (Z.eqb_spec ((σ.(now) + 1) `mod` T) 0) as [E|E]; f_equal.
  - rewrite s64_small by mlia. apply Z.mod_divide in E as [q Hq]; [|lia]. rewrite Hq, Z.div_mul by lia.
    assert (σ.(now) `div` T = q - 1); [|lia]. symmetry. apply (Z.div_unique_pos _ _ _ (T - 1)); nia.
  - pose proof (Z.div_mod (σ.(now) + 1) T ltac:(lia)) as D. pose proof (Z.mod_pos_bound (σ.(now) + 1) T HT) as B.
    symmetry. apply (Z.div_unique_pos _ _ _ ((σ.(now) + 1) `mod` T - 1)); lia.
Qed.

Lemma busy_wait_run n σ : clock σ → σ.(now) + Z.max n 0 < 4611686018427387904 → busy_wait T n σ = Ok (tt, at_ (σ.(now) + Z.max n 0) σ).
Proof.
  intros Hc Hb. unfold busy_wait. remember (Z.to_nat n) as k eqn:Hk. revert n σ Hk Hc Hb. induction k as [|k IH]; intros n σ Hk Hc Hb.
  - rewrite (iter_break _ _ _ tt _ σ) by (by rewrite (proj2 (Z.ltb_ge 0 n)) by lia). replace (σ.(now) + Z.max n 0) with σ.(now) by lia. by rewrite at_now.
  - rewrite (iter_continue _ _ _ (n - 1) _ (at_ (σ.(now) + 1) σ)) by (rewrite (proj2 (Z.ltb_lt 0 n)) by lia; by rewrite (bind_Ok _ _ _ _ _ (round_run σ Hc))).
    pose proof (ck_now _ Hc) as Hn. rewrite IH by (try apply at_clock; cbn; lia). rewrite at_at. cbn. by replace (σ.(now) + 1 + Z.max (n - 1) 0) with (σ.(now) + Z.max n 0) by lia.
Qed.

(** Waiting for the next tick. *)
Lemma next_tick_run σ : clock σ → σ.(now) + T < 4611686018427387904 →
  iter (S (Z.to_nat T)) (λ start, σ <- get ;; if σ.(ticks) =? start then round T ;; ret (inl start) else ret (inr tt)) σ.(ticks) σ =
  Ok (tt, at_ ((σ.(now) `div` T + 1) * T) σ).
Proof.
  intros Hc Hb. set (s := σ.(ticks)). set (X := (σ.(now) `div` T + 1) * T). pose proof (ck_now _ Hc) as Hn0. pose proof (Z.div_mod σ.(now) T ltac:(lia)) as D0. pose proof (Z.mod_pos_bound σ.(now) T HT) as B0.
  assert (∀ k fuel τ, clock τ → τ.(now) = X - Z.of_nat k → Z.of_nat k ≤ T → (k < fuel)%nat → (∀ n, at_ n τ = at_ n σ) →
    iter fuel (λ start, σ <- get ;; if σ.(ticks) =? start then round T ;; ret (inl start) else ret (inr tt)) s τ = Ok (tt, at_ X σ)) as Hloop.
  { assert (s = σ.(now) `div` T) as Hs by (unfold s; by destruct Hc).
    induction k as [|k IH]; intros [|fuel] τ Hcτ Hk HkT Hf Heq; try lia.
    - apply iter_break. unfold bind, get, ret. rewrite (ck_ticks _ Hcτ), Hk. replace (X - Z.of_nat 0) with X by lia. unfold X. rewrite Z.div_mul by lia.
      rewrite (proj2 (Z.eqb_neq _ _)) by lia. do 2 f_equal. rewrite <- Heq, <- (at_now τ Hcτ) at 1. f_equal. lia.
    - rewrite (iter_continue _ _ _ s _ (at_ (τ.(now) + 1) τ)).
      + apply IH; [apply at_clock; pose proof (ck_now _ Hcτ); lia|cbn; lia|lia|lia|]. intros n. by rewrite at_at.
      + rewrite (bind_Ok get _ τ τ τ) by done. assert (τ.(ticks) =? s = true) as ->; [|by rewrite (bind_Ok _ _ _ _ _ (round_run τ Hcτ))].
        apply Z.eqb_eq. rewrite (ck_ticks _ Hcτ), Hs. symmetry. apply (Z.div_unique_pos _ _ _ (T - Z.of_nat (S k))); [lia|]. rewrite Hk. unfold X. lia. }
  apply (Hloop (Z.to_nat (X - σ.(now)))); [done|unfold X; nia|unfold X; nia|unfold X; nia|done].
Qed.

Lemma too_many_loops_run n σ : clock σ → 0 ≤ n → σ.(now) + T + n < 4611686018427387904 →
  too_many_loops T n σ = Ok (T <=? n, at_ ((σ.(now) `div` T + 1) * T + n) σ).
Proof.
  intros Hc Hn Hb. unfold too_many_loops. rewrite (bind_Ok get _ σ σ σ) by done. rewrite (bind_Ok _ _ _ _ _ (next_tick_run σ Hc ltac:(lia))).
  set (X := (σ.(now) `div` T + 1) * T). pose proof (ck_now _ Hc) as Hn0. pose proof (Z.div_mod σ.(now) T ltac:(lia)) as D0. pose proof (Z.mod_pos_bound σ.(now) T HT) as B0.
  assert (0 ≤ X ≤ σ.(now) + T) as HX by (unfold X; nia). rewrite (bind_Ok get _ _ (at_ X σ) (at_ X σ)) by done.
  rewrite (bind_Ok _ _ _ _ _ (busy_wait_run n (at_ X σ) ltac:(apply at_clock; lia) ltac:(cbn; lia))). rewrite (bind_Ok get _ _ _ _ eq_refl), at_at. cbn [at_ upd_time now ticks].
  replace (X + Z.max n 0) with (X + n) by lia. unfold ret. do 2 f_equal. replace (X + n) with (n + (σ.(now) `div` T + 1) * T) by (unfold X; lia). unfold X. rewrite Z.div_mul, Z.div_add by lia.
  destruct (Z.leb_spec T n) as [H|H].
  - rewrite (proj2 (Z.eqb_neq _ _)); [done|]. pose proof (Z.div_le_mono T n T HT H) as Hd. rewrite Z.div_same in Hd by lia. lia.
  - rewrite (Z.div_small n) by lia. by rewrite (proj2 (Z.eqb_eq _ _)) by lia.
Qed.

(** ** Calibration *)

Lemma double_run : 1024 < T ≤ 2147483648 → ∀ m fuel σ k, clock σ → (m ≤ 20)%nat → k = 30 - Z.of_nat m → σ.(loops_per_tick) = 2 ^ k → σ.(loops_per_tick) < T → (m < fuel)%nat →
  σ.(now) + (Z.of_nat m + 1) * 8589934592 < 4611686018427387904 →
  ∃ k' n, iter fuel (λ _ : unit, σ <- get ;; too <- too_many_loops T (u32 (Z.shiftl σ.(loops_per_tick) 1)) ;;
    if (too : bool) then ret (inr tt)
    else let l := u32 (Z.shiftl σ.(loops_per_tick) 1) in set_lpt l ;; assert (negb (l =? 0)) ;; ret (inl tt)) tt σ = Ok (tt, at_ n (upd_lpt (2 ^ k') σ)) ∧
    10 ≤ k' ≤ 30 ∧ 2 ^ k' < T ≤ 2 ^ (k' + 1) ∧ 0 ≤ n ≤ σ.(now) + (Z.of_nat m + 1) * 8589934592.
Proof.
  intros HT2. induction m as [|m IH]; intros [|fuel] σ k Hc Hm Hkm Hl HlT Hf Hb; try lia; pose proof (ck_now _ Hc) as Hn;
    pose proof (Z.div_mod σ.(now) T ltac:(lia)) as D0; pose proof (Z.mod_pos_bound σ.(now) T HT) as B0;
    assert (2 ^ 10 ≤ 2 ^ k ≤ 2 ^ 30) as Hk by (split; apply Z.pow_le_mono_r; lia); change (2 ^ 10) with 1024 in Hk; change (2 ^ 30) with 1073741824 in Hk;
    assert (2 ^ (k + 1) = 2 * 2 ^ k) as Hp by (rewrite Z.pow_add_r by lia; lia);
    assert (u32 (Z.shiftl σ.(loops_per_tick) 1) = 2 ^ (k + 1)) as Hsh by (rewrite Hl, Z.shiftl_mul_pow2 by lia; change (2 ^ 1) with 2; rewrite u32_small by mlia; lia);
    pose proof (too_many_loops_run (2 ^ (k + 1)) σ Hc ltac:(lia) ltac:(lia)) as E; set (n := (σ.(now) `div` T + 1) * T + 2 ^ (k + 1)) in *; assert (0 ≤ n ≤ σ.(now) + 8589934592) as Hn' by (unfold n; nia).
  - assert (k = 30) as Hk30 by lia. exists k, n. split; [|split; [lia|split; [|lia]]]; [|rewrite Hp, Hk30; change (2 ^ 30) with 1073741824; rewrite Hk30 in Hl; change (2 ^ 30) with 1073741824 in Hl; lia].
    apply iter_break. rewrite (bind_Ok get _ σ σ σ) by done. rewrite Hsh, (bind_Ok _ _ _ _ _ E). rewrite (proj2 (Z.leb_le T _)) by (rewrite Hp, Hk30; change (2 ^ 30) with 1073741824; lia).
    unfold ret. do 2 f_equal. unfold at_, upd_time, upd_lpt. cbn. by rewrite Hl.
  - destruct (Z.leb_spec T (2 ^ (k + 1))) as [Hle|Hgt].
    + exists k, n. split; [|split; [lia|split; [lia|lia]]]. apply iter_break. rewrite (bind_Ok get _ σ σ σ) by done. rewrite Hsh, (bind_Ok _ _ _ _ _ E).
      unfold ret. do 2 f_equal. unfold at_, upd_time, upd_lpt. cbn. by rewrite Hl.
    + set (σ2 := at_ n (upd_lpt (2 ^ (k + 1)) σ)). destruct (IH fuel σ2 (k + 1)) as (k' & n' & E' & H1 & H2 & H3); [apply at_clock; lia|lia|lia|done|cbn; lia|lia|cbn; lia|].
      exists k', n'. split; [|split; [done|split; [done|cbn in H3; lia]]]. rewrite (iter_continue _ _ _ tt _ σ2); [exact E'|].
      rewrite (bind_Ok get _ σ σ σ) by done. rewrite Hsh, (bind_Ok _ _ _ _ _ E). cbv iota. cbv zeta. rewrite (bind_Ok _ _ _ tt σ2) by done. by rewrite (proj2 (Z.eqb_neq _ 0)) by lia.
Qed.

(** The bits that the second loop has set: none, or a run that starts with a bit [b0]. *)
Definition set_bits (H b x : Z) : Prop := 0 ≤ x ∧ x `mod` (2 * b) = 0 ∧ x < H ∧ (x = 0 ∨ ∃ b0, 0 < b0 < H ∧ H + b0 < T ∧ x + 2 * b ≤ 2 * b0).

Lemma refine_bits H b b' x : b = 2 * b' → 0 < b' → 2 * b ≤ H → H `mod` (2 * b) = 0 → set_bits H b x → set_bits H b' (if T <=? H + b then x else x + b).
Proof.
  intros Hbb Hb' Hle Hmod (Hx0 & Hxm & HxH & Hxb). apply Z.mod_divide in Hxm as [q Hq]; [|lia]. apply Z.mod_divide in Hmod as [r Hr]; [|lia].
  destruct (Z.leb_spec T (H + b)); unfold set_bits; rewrite <- Hbb; split_and!; try lia.
  - rewrite Hq. replace (q * (2 * b)) with (2 * q * b) by lia. apply Z.mod_mul. lia.
  - destruct Hxb as [? |(b0 & H1 & H2 & H3)]; [by left|right; exists b0; lia].
  - rewrite Hq. replace (q * (2 * b) + b) with ((2 * q + 1) * b) by lia. apply Z.mod_mul. lia.
  - assert (q < r) by nia. assert ((q + 1) * (2 * b) ≤ r * (2 * b)) by (apply Z.mul_le_mono_nonneg_r; lia). lia.
  - right. destruct Hxb as [-> |(b0 & H1 & H2 & H3)]; [exists b|exists b0]; lia.
Qed.

Lemma refine_run k : 10 ≤ k ≤ 30 → 2 ^ k < T ≤ 2 ^ (k + 1) → ∀ m fuel σ x, clock σ → (m ≤ 9)%nat → (m < fuel)%nat →
  σ.(loops_per_tick) = 2 ^ k + x → set_bits (2 ^ k) (2 ^ (k - 10 + Z.of_nat m)) x → σ.(now) + (Z.of_nat m + 1) * 8589934592 < 4611686018427387904 →
  ∃ x' n, iter fuel (λ test_bit,
    if negb (test_bit =? Z.shiftr (2 ^ k) 10) then
      too <- too_many_loops T (Z.lor (2 ^ k) test_bit) ;;
      (if (too : bool) then ret tt else change (λ σ, upd_lpt (Z.lor σ.(loops_per_tick) test_bit) σ)) ;;
      ret (inl (Z.shiftr test_bit 1))
    else ret (inr tt)) (2 ^ (k - 10 + Z.of_nat m)) σ = Ok (tt, at_ n (upd_lpt (2 ^ k + x') σ)) ∧ set_bits (2 ^ k) (2 ^ (k - 10)) x' ∧ 0 ≤ n < 4611686018427387904.
Proof.
  intros Hk HkT. assert (Z.shiftr (2 ^ k) 10 = 2 ^ (k - 10)) as Hend by (rewrite Z.shiftr_div_pow2 by lia; rewrite <- Z.pow_sub_r by lia; done).
  assert (2 ^ (k + 1) ≤ 2 ^ 31) as Hup by (apply Z.pow_le_mono_r; lia). change (2 ^ 31) with 2147483648 in Hup.
  induction m as [|m IH]; intros [|fuel] σ x Hc Hm Hf Hl Hx Hb; try lia; pose proof (ck_now _ Hc) as Hn.
  - exists x, σ.(now). change (Z.of_nat 0) with 0 in *. rewrite Z.add_0_r in *. split; [|split; [done|lia]]. apply iter_break. rewrite Hend, Z.eqb_refl. cbn [negb]. unfold ret. do 2 f_equal.
    rewrite <- (at_now σ Hc) at 1. unfold at_, upd_time, upd_lpt. cbn. by rewrite Hl.
  - set (b := 2 ^ (k - 10 + Z.of_nat (S m))) in *. assert (b = 2 * 2 ^ (k - 10 + Z.of_nat m)) as Hbb by (unfold b; replace (k - 10 + Z.of_nat (S m)) with (1 + (k - 10 + Z.of_nat m)) by lia; rewrite Z.pow_add_r by lia; done).
    set (b' := 2 ^ (k - 10 + Z.of_nat m)) in *. assert (0 < b') as Hb' by (unfold b'; apply Z.pow_pos_nonneg; lia).
    assert (2 * b ≤ 2 ^ k ∧ 2 ^ k `mod` (2 * b) = 0) as [Hb2 Hmod].
    { assert (2 ^ k = 2 ^ (9 - Z.of_nat (S m)) * (2 * b)) as E9 by (unfold b; change 2 with (2 ^ 1) at 3; rewrite <- !Z.pow_add_r by lia; f_equal; lia).
      rewrite E9. split; [|apply Z.mod_mul; lia]. assert (0 < 2 ^ (9 - Z.of_nat (S m))) by (apply Z.pow_pos_nonneg; lia). nia. }
    assert (2 ^ (k - 10) ≤ b') as Hlow by (apply Z.pow_le_mono_r; lia).
    assert (∀ y, y `mod` (2 * b) = 0 → Z.lor y b = y + b) as Hlor.
    { intros y Hy. apply (lor_add _ _ (k - 10 + Z.of_nat (S m) + 1)); [lia| |]; rewrite Z.pow_add_r by lia; fold b; change (2 ^ 1) with 2; [by replace (b * 2) with (2 * b) by lia|lia]. }
    pose proof (Z.div_mod σ.(now) T ltac:(lia)) as D0. pose proof (Z.mod_pos_bound σ.(now) T HT) as B0.
    pose proof (too_many_loops_run (2 ^ k + b) σ Hc ltac:(lia) ltac:(lia)) as E. set (n := (σ.(now) `div` T + 1) * T + (2 ^ k + b)) in *. assert (0 ≤ n ≤ σ.(now) + 8589934592) as Hn' by (unfold n; nia).
    assert (Z.shiftr b 1 = b') as Hsh by (rewrite Z.shiftr_div_pow2, Hbb by lia; change (2 ^ 1) with 2; rewrite Z.mul_comm; apply Z.div_mul; lia).
    pose proof Hx as (Hx0 & Hxm & HxH & Hxb).
    set (x1 := if T <=? 2 ^ k + b then x else x + b). set (σ2 := at_ n (upd_lpt (2 ^ k + x1) σ)).
    assert (set_bits (2 ^ k) b' x1) as Hx1 by (by apply refine_bits).
    destruct (IH fuel σ2 x1) as (x' & n' & E' & H1 & H2); [apply at_clock; lia|lia|lia|done|done|cbn; lia|]. exists x', n'. split; [|done].
    rewrite (iter_continue _ _ _ b' _ σ2); [exact E'|]. rewrite Hend, (proj2 (Z.eqb_neq b _)) by lia. cbn [negb]. rewrite (Hlor _ Hmod), (bind_Ok _ _ _ _ _ E), Hsh.
    unfold σ2, x1. destruct (T <=? 2 ^ k + b).
    + unfold bind, ret. do 2 f_equal. unfold at_, upd_time, upd_lpt. cbn. by rewrite Hl.
    + unfold bind, ret, change. do 2 f_equal. unfold at_, upd_time, upd_lpt. cbn. rewrite Hl, Hlor; [f_equal; lia|]. rewrite Zplus_mod, Hmod, Hxm. done.
Qed.

Lemma say_run r s σ : r = Ok s → say r σ = Ok (tt, upd_printed s σ).
Proof. by intros ->. Qed.

Lemma printed_speed n : is_u64 n → ∃ s, printf (lit "%'llu loops/s." ++ [10; 0]) [A64 n] = Ok s.
Proof.
  intros Hn. destruct (format_integer_total (u64 n) false false base_d {| flags := 32; width := 0; precision := -1; type := LONGLONG |}) as [out Ho]; [by rewrite u64_small|left|].
  assert (∃ o, (let* r := (let* out := format_integer (u64 n) false false base_d {| flags := 32; width := 0; precision := -1; type := LONGLONG |} in Ok (out, @nil arg)) in
    let* o := Ok (lit " loops/s." ++ [10]) in Ok (r.1 ++ o))%C = Ok o) as H by (rewrite Ho; by eexists). exact H.
Qed.

Lemma calibrated σ : clock σ → σ.(intr_on) = true → 1024 < T ≤ 2147483648 → σ.(now) < 1152921504606846976 →
  ∃ σ', timer_calibrate T σ = Ok (tt, σ') ∧ clock σ' ∧ T ≤ 2 * σ'.(loops_per_tick) ∧ 2 * σ'.(loops_per_tick) < 3 * T.
Proof.
  intros Hc Hi HT2 Hnow. pose proof (ck_now _ Hc) as Hn. unfold timer_calibrate. rewrite (bind_Ok get _ σ σ σ) by done. rewrite bind_assert by done.
  set (σ1 := upd_printed (lit "Calibrating timer...  ") σ). rewrite (bind_Ok _ _ _ tt σ1) by (apply say_run; reflexivity). set (σ2 := upd_lpt 1024 σ1). rewrite (bind_Ok _ _ _ tt σ2) by done.
  assert (clock σ2) as Hc2 by (split; apply Hc). destruct (double_run HT2 20 32 σ2 10 Hc2) as (k & n & E & Hk & HkT & Hn1); [lia|done|done|cbn; lia|lia|cbn; lia|].
  unfold double_loop. rewrite (bind_Ok _ _ _ _ _ E). rewrite (bind_Ok get _ _ _ _ eq_refl). cbn [loops_per_tick at_ upd_time upd_lpt]. set (σ3 := at_ n (upd_lpt (2 ^ k) σ2)).
  assert (clock σ3) as Hc3 by (apply at_clock; cbn in Hn1; lia). assert (0 < 2 ^ (k - 10)) as Hp by (apply Z.pow_pos_nonneg; lia).
  assert (set_bits (2 ^ k) (2 ^ (k - 10 + Z.of_nat 9)) 0) as Hb0 by (split_and!; [lia|by apply Z.mod_0_l; assert (0 < 2 ^ (k - 10 + Z.of_nat 9)) by (apply Z.pow_pos_nonneg; lia); lia|apply Z.pow_pos_nonneg; lia|by left]).
  destruct (refine_run k Hk HkT 9 32 σ3 0 Hc3) as (x & n2 & E2 & (Hx0 & _ & HxH & Hx) & Hn2); [lia|lia|cbn; lia|done|cbn; cbn in Hn1; lia|].
  unfold refine_loop. assert (Z.shiftr (2 ^ k) 1 = 2 ^ (k - 10 + Z.of_nat 9)) as -> by (rewrite Z.shiftr_div_pow2, <- Z.pow_sub_r by lia; f_equal; lia). rewrite (bind_Ok _ _ _ _ _ E2).
  rewrite (bind_Ok get _ _ _ _ eq_refl). set (σ4 := at_ n2 (upd_lpt (2 ^ k + x) σ3)). destruct (printed_speed (u64 (σ4.(loops_per_tick) * TIMER_FREQ)) (u64_range _)) as [s Hs]. rewrite (say_run _ _ _ Hs).
  assert (2 ^ (k + 1) = 2 * 2 ^ k) as Hpk by (rewrite Z.pow_add_r by lia; lia). eexists. split; [done|]. split; [by apply (at_clock n2 (upd_printed s (upd_lpt (2 ^ k + x) σ3)))|]. cbn. split; [lia|]. destruct Hx as [-> |(b0 & H1 & H2 & H3)]; lia.
Qed.

(** ** Sleeping *)

Definition sum (ys : list Z) : Z := foldr Z.add 0 ys.

Lemma sum_nonneg ys : Forall (λ y, 1 ≤ y) ys → 0 ≤ sum ys.
Proof. unfold sum. induction 1 as [|y ys H _ IH]; cbn [foldr]; lia. Qed.

(** Yielding until a time has come. *)
Lemma sleep_loop X n start : 0 ≤ start → 0 ≤ n → X = (start + n) * T → ∀ k fuel σ, clock σ → start ≤ σ.(now) `div` T → X - σ.(now) ≤ Z.of_nat k → (k < fuel)%nat → Forall (λ y, 1 ≤ y) σ.(yields) →
  Z.max X σ.(now) + sum σ.(yields) + 1 < 4611686018427387904 →
  ∃ σ', iter fuel (λ _ : unit, e <- timer_elapsed start ;; if e <? n then thread_yield T ;; ret (inl tt) else ret (inr tt)) tt σ = Ok (tt, σ') ∧ clock σ' ∧ X ≤ σ'.(now).
Proof.
  intros Hst Hn HX. induction k as [|k IH]; intros [|fuel] σ Hc Hs Hk Hf Hy Hb; try lia; pose proof (ck_now _ Hc) as Hnow; pose proof (div_small _ Hnow) as Hd;
    pose proof (Z.div_mod σ.(now) T ltac:(lia)) as D0; pose proof (Z.mod_pos_bound σ.(now) T HT) as B0; pose proof (sum_nonneg _ Hy) as Hsum;
    assert (timer_elapsed start σ = Ok (σ.(now) `div` T - start, σ)) as Ee by (unfold timer_elapsed, timer_ticks, bind, get, ret; rewrite (ck_ticks _ Hc); rewrite s64_small by mlia; done).
  - exists σ. split; [|split; [done|lia]]. apply iter_break. rewrite (bind_Ok _ _ _ _ _ Ee). rewrite (proj2 (Z.ltb_ge _ _)); [done|].
    assert (start + n ≤ σ.(now) `div` T); [|lia]. apply Z.div_le_lower_bound; lia.
  - destruct (Z.leb_spec X σ.(now)) as [Hle|Hgt].
    + exists σ. split; [|split; [done|lia]]. apply iter_break. rewrite (bind_Ok _ _ _ _ _ Ee). rewrite (proj2 (Z.ltb_ge _ _)); [done|].
      assert (start + n ≤ σ.(now) `div` T); [|lia]. apply Z.div_le_lower_bound; lia.
    + assert (σ.(now) `div` T < start + n) as Hlt by (apply Z.div_lt_upper_bound; lia). set (y := hd 1 σ.(yields)).
      assert (1 ≤ y ∧ y + sum (tl σ.(yields)) ≤ Z.max 1 (sum σ.(yields)) ∧ Forall (λ y, 1 ≤ y) (tl σ.(yields)) ∧ (y + sum (tl σ.(yields)) ≤ sum σ.(yields) ∨ (y = 1 ∧ tl σ.(yields) = []))) as (Hy1 & _ & Hty & Hsy).
      { unfold y. destruct (yields σ) as [|y0 ys]; cbn; [split_and!; [lia|lia|done|by right]|]. apply Forall_cons in Hy as [? ?]. split_and!; [lia|lia|done|left; lia]. }
      set (σ1 := upd_yields (tl σ.(yields)) σ). assert (clock σ1) as Hc1 by (split; apply Hc).
      pose proof (busy_wait_run y σ1 Hc1 ltac:(cbn; destruct Hsy as [? |[-> E0]]; [pose proof (sum_nonneg _ Hty); lia|lia])) as Eb. replace (Z.max y 0) with y in Eb by lia.
      set (σ2 := at_ (σ1.(now) + y) σ1) in *. destruct (IH fuel σ2) as (σ' & E' & Hc' & HX');
        [apply at_clock; cbn; destruct Hsy as [? |[-> E0]]; pose proof (sum_nonneg _ Hty); lia|cbn; etransitivity; [exact Hs|apply Z.div_le_mono; lia]|cbn; lia|lia|done| |].
      { change (now σ2) with (now σ + y). change (yields σ2) with (tl (yields σ)). destruct Hsy as [Hle|[Hy0 Htl]]; [|rewrite Htl; cbn [sum foldr]]; lia. }
      exists σ'. split; [|done]. rewrite (iter_continue _ _ _ tt _ σ2); [exact E'|]. rewrite (bind_Ok _ _ _ _ _ Ee). rewrite (proj2 (Z.ltb_lt _ _)) by lia.
      erewrite bind_Ok; [done|]. unfold thread_yield. rewrite (bind_Ok get _ σ σ σ) by done. by rewrite (bind_Ok _ _ _ tt σ1).
Qed.
End proofs.

(** What a delay of a part of a tick asks for. *)
Lemma loops_close l num denom : 0 ≤ l < 4294967296 → 0 ≤ num ≤ 1000000000 → denom ∈ [1000; 1000000; 1000000000] →
  let loops := Z.quot (s64 (Z.quot (s64 (l * num)) 1000 * TIMER_FREQ)) (Z.quot denom 1000) in
  0 ≤ loops ∧ loops * denom ≤ l * 100 * num < (loops + 1) * denom + 100000.
Proof.
  intros Hl Hn Hd. cbn zeta. unfold TIMER_FREQ. assert (0 ≤ l * num < 4611686018427387904) as Hln by nia. rewrite (s64_small (l * num)) by mlia.
  rewrite (Z.quot_div_nonneg (l * num)) by lia. set (a := (l * num) `div` 1000). assert (1000 * a ≤ l * num < 1000 * a + 1000) as Ha by (unfold a; dm_lia). rewrite s64_small by mlia.
  assert (∃ e, 0 < e ∧ denom = 1000 * e ∧ Z.quot denom 1000 = e) as (e & He & -> & ->).
  { repeat (apply elem_of_cons in Hd as [-> |Hd]); [exists 1|exists 1000|exists 1000000|by apply not_elem_of_nil in Hd]; done. }
  rewrite Z.quot_div_nonneg by lia. pose proof (Z.div_mod (a * 100) e ltac:(lia)) as D. pose proof (Z.mod_pos_bound (a * 100) e He) as B. pose proof (Z.div_pos (a * 100) e ltac:(lia) He).
  split; [done|]. nia.
Qed.



(** The bits are tested one by one and not together: the result can be a third more than
    a tick. *)
Lemma calibrate_overshoots : ∃ σ', timer_calibrate 1537 (Timer 0 0 0 true [] 0 []) = Ok (tt, σ') ∧ σ'.(loops_per_tick) = 2046.
Proof. eexists. split; [vm_compute; reflexivity|reflexivity]. Qed.


